(* ===== verification/_CoqProject ===== *)
-Q . S2P
Prelude.v
Words.v
Messages.v
Crc.v
Encode.v
Decode.v
Cobs.v
Framing.v
FrameDriver.v
Postcard.v
TransmitBuf.v
FrameSink.v
Timing.v
Relocation.v
Device.v
Receiver.v
ElfLoader.v
V2.v
V2Upload.v
Handshake.v
Legacy.v
Suboot.v
HostDecoder.v
HostUpload.v
UploadSystem.v
UploadWire.v
Promotion.v
Args.v
Hdlc.v
PppXmit.v
PppRecv.v
PppLink.v
PppControl.v
PppNegotiate.v
PppNet.v
TicketLock.v
OnceLock.v
Interrupts.v
Vectors.v
RiscvVectors.v
Pmm.v
Mmu.v
Interleave.v
SoftUart.v
Trampolines.v
CheckerRun.v
Console.v
RiscvTime.v
Pins.v
RiscvBoot.v
HostArgs.v
Tty.v
TtyControl.v
Xtask.v
Registers.v
CpuInfo.v
DebugMonitor.v
DebugSetup.v
NetRun.v
ArmStart.v
RiscvTrap.v
Staging.v
RiscvMain.v
Echo.v
HostSession.v
ArmMain.v
Panics.v
Coprocessor.v
