(* ===== verification/Prelude.v ===== *)
(** * okeanos: boot loader, uploader and bare-metal kernels

    The repository holds a boot loader for the Raspberry Pi (ARM1176, [okboot]), the
    program that uploads to it ([okdude], on the host), what both share
    ([okboot-common]), a support library for the ARM device ([quartz]), an ARM
    program that is uploaded ([bismuth]: an interleaving checker and a dump of the
    processor's registers), and a kernel for a RISC-V board ([antimony]: a PPP link
    over a UART, with a TCP/IP library and an HTTP server on it).  Paths below are
    relative to [src/].

    ** How the parts interact

    The uploader serialises a message (postcard), frames it (preamble, length, type,
    CRC-32, COBS, all bytes xored) and writes it to the serial port.  The receive
    loop of the boot loader feeds each byte to the frame decoder and hands finished
    frames to the protocol in charge: first the handshake, which agrees on a version
    and a baud rate, then protocol V2, which asks for the metadata and the chunks,
    inflates them and gives the pieces to a loader (flat binary or ELF).  The loader
    places what would overwrite the boot loader itself into a side buffer, and a
    small stub moves it at the end and jumps.  Replies go through a ring of bytes
    that is emptied into the FIFO of the UART.  An older, word-wise download exists
    beside it.  On the RISC-V board, frames of PPP travel between two UART interrupt
    channels and the main loop, where two control automata (LCP, IPCP) bring the
    link up and then pass IP packets to the TCP/IP library.

    ** Conventions

    A machine integer is a [Z] with its wrap-around written out ([wrap w], [fits w]),
    a byte string a [list Z], a buffer a list that is indexed and replaced as in the
    source.  A Rust [Result] is [result], a computation that can panic is [run]
    (below): indexing out of range, [unwrap], failing assertions, and divisions by
    zero are [Panic].  Mutation of [self] is the new state beside the result.
    Memory is a function from addresses.  What registers, clocks, and the operating
    system answer is an argument: a sequence of readings, a script of outcomes, or
    the steps of an environment.  An [asm!] block is the sequence of its
    instructions on a state with the registers that it uses.

    Code that is not in the repository is an interface, a type class of operations
    with a class of the laws that its documentation states and a small instance for
    the witnesses: [Crc] (crc32fast), [Postcard], [ElfParse] (elf), [Inflate] and
    [InflateStream] (miniz_oxide), [Deflate], [BitField] (proc_bitfield),
    [TcpSocket] (smoltcp), and [Render] for the text that [core::fmt] makes.
    Interfaces inside the program are classes as well: [Protocol] between the
    receive loop and the protocols, [ControlProtocol] between the automaton and LCP
    and IPCP; the record [Policy] stands between the scheduler of the checker and its
    policies.

    ** The files

    Shared: [Prelude] (results, panics, slices, integers), [Words]
    (byte-order conversions), [Crc], [Postcard].

    Wire format, [common/okboot-common/src/]: [Messages] ([lib.rs], [host.rs],
    [device.rs]), [Encode] ([frame/encode.rs]), [Decode] ([frame/decode.rs]), [Cobs]
    (the decoder inverts the encoder), [Framing] (streams of frames survive the
    wire), [FrameDriver] (any bytes at all: no panic, every finished frame is one
    that was framed, and resynchronisation).

    The boot loader, [device/okboot/]: [TransmitBuf] and [FrameSink]
    ([src/buf.rs]: the ring refines a queue with checkpoints; a frame is written as
    the host would write it, or not at all), [Timing] ([src/timeouts.rs] and
    the timer of quartz), [Device] and [Receiver] ([src/protocol.rs]: the loop is
    generic in the protocol and keeps its invariant), [Handshake]
    ([src/protocol/handshake.rs]; it discharges the interface [Protocol]), [V2] and
    [V2Upload] ([src/protocol/v2.rs]: the transfer refines handing the program over
    piece by piece, whatever is repeated or lost), [Relocation] and [ElfLoader]
    ([src/stub.rs], [extern/stub.S], [extern/elf.S]), [Legacy]
    ([src/legacy.rs], [src/legacy/fmt.rs], [uart1.rs]), [Staging]
    ([src/legacy/staging.rs], equal to [Relocation] where both are defined),
    [ArmStart] and [ArmMain] ([extern/boot.S], [src/lib.rs] and the start of bismuth,
    with the mini UART of quartz).

    The uploader, [host/okdude/src/]: [HostDecoder] and [HostUpload] ([v2.rs],
    [upload.rs]), [Promotion] (the handshake from the host), [Suboot] (the legacy
    download, both sides), [Args] (program arguments, written by the host and read
    by bismuth), [HostSession] (the choice of the protocol, arguments in an ELF file),
    [HostArgs] ([main.rs]), [Tty] and [TtyControl] ([tty.rs]: opening and writing,
    and the rates, timeouts and calls of the port), [Echo] ([echo.rs]).
    [UploadSystem] puts both sides and a lossy line into one step relation: its
    invariant gives that no side panics and that what is entered is what was
    uploaded, and every reachable session can be completed.  [UploadWire] does the
    same with the bytes on the line and the receive loop that decodes them.
    [Xtask] is the build driver, [host/xtask/src/main.rs].

    The ARM library and program, [device/quartz/src/] and [device/bismuth/src/]:
    [TicketLock] and [OnceLock] ([sync/], as steps of any number of threads),
    [Interrupts] ([int.rs]), [Vectors] and [Trampolines] ([exceptions.rs]), [Pmm]
    and [Mmu] ([arch/arm1176/]), [SoftUart] ([device/bcm2835/soft_uart.rs]),
    [Registers], [CpuInfo] and [Coprocessor] ([cpuid.rs], [coprocessor.rs], [tpid.rs],
    [cycle.rs]), and of [app/debug.rs]: [Interleave] (the scheduler on the machine
    refines threads that take turns), [CheckerRun] (the assembly that enters the
    first thread and comes back), [DebugMonitor] (the tested program and what the
    ten runs find out), [DebugSetup] (vectors, stacks and debug registers).

    The RISC-V kernel, [device/antimony/src/]: [Hdlc], [PppXmit], [PppRecv],
    [PppLink], [PppControl], [PppNegotiate], [PppNet] and [NetRun] ([net.rs] and
    [net/]: channels refine queues, the automaton follows the table of RFC 1661, the
    link delivers and comes up), [Console] ([net/phy.rs]), [RiscvVectors] and
    [RiscvTrap] ([arch/exception.rs]), [RiscvTime] ([arch/time.rs],
    [critical_section.rs]), [Pins] ([peripherals.rs]), [RiscvBoot] ([arch.rs],
    [arch/csr.rs], [arch/mem.rs], [__kernel_start]), [RiscvMain]
    ([peripherals/uart.rs], [__kernel_main]).

    [Panics] has the panic handlers and restarts of the three programs.

    ** What the theorems show

    Round trips: frames, arguments, PPP packets, legacy words, bytes on the
    bit-banged port.  Refinement: the COBS encoder, both rings and both PPP channels,
    the console, the transfer of chunks, the scheduler, and the exception trampolines
    with the debug stop against abstract specifications.  Safety and invariants:
    no panic in the frame decoder on any input, and in the receive loop on any but an
    oversized chunk, the loader is not overwritten, what boots is what was verified, mutual exclusion, one-time
    initialisation, transparent traps on both processors.  Liveness and
    termination: resynchronisation after noise, completion of an upload, the
    link coming up, the automaton's loops, the waiting loops.  Types: pins and register
    fields.  Errors: the exit codes of the build driver; panics, which the two ARM
    programs report, while on the RISC-V board the handler itself can panic.  Where
    the code does not do what it means to, a theorem states what it does and the
    findings of the manifest name the line.

    ** Fuel

    Structural recursion is used where the loop runs over data.  A loop that waits
    for a device gets fuel and a theorem that some amount is enough given what the
    device does ([Timing], [SoftUart], [RiscvBoot], [RiscvMain], [Tty]); the inflating loop
    has [inflate_bound], which every call that can still produce output decreases;
    the relocation stub needs three rounds for its last words; the option loop of the
    control automaton needs as much as the packet is long, except for the packet on
    which it is shown not to end ([PppNegotiate.malformed_nak_hangs]); clearing memory
    needs a round for each word ([ArmStart], [RiscvBoot]).

    ** Not modelled

    Bodies that only print or log ([Debug] implementations, the default exception
    handlers, the loggers); barriers and cache maintenance, which have no effect on the
    modelled state; generated code, linker scripts and the libraries named above; what
    cargo and the linker do, which is the environment of [Xtask].
    Floating-point registers are not part of the processors: neither trampoline saves
    them. *)
From Stdlib Require Export ZArith Lia.
From stdpp Require Export base list numbers option.

(** ** Rust's error values and panics *)

(** Rust's [Result<A, E>]. *)
Inductive result (A E : Type) : Type :=
  | Ok (a : A)
  | Err (e : E).
Arguments Ok {A E} a.
Arguments Err {A E} e.

(** A computation that returns a value or panics (an index out of range, an
    [unwrap] of [None], an [assert!] that fails). *)
Inductive run (A : Type) : Type :=
  | Val (a : A)
  | Panic.
Arguments Val {A} a.
Arguments Panic {A}.

#[export] Instance run_ret : MRet run := fun A a => Val a.
#[export] Instance run_bind : MBind run := fun A B f m =>
  match m with Val a => f a | Panic => Panic end.
#[export] Instance run_fmap : FMap run := fun A B f m =>
  match m with Val a => Val (f a) | Panic => Panic end.

#[export] Instance result_eq_dec {A E} `{EqDecision A, EqDecision E} :
  EqDecision (result A E).
Proof. solve_decision. Defined.
#[export] Instance run_eq_dec {A} `{EqDecision A} : EqDecision (run A).
Proof. solve_decision. Defined.

Lemma run_bind_Val {A B} (a : A) (f : A -> run B) : (Val a ≫= f) = f a.
Proof. done. Qed.
Lemma run_bind_inv {A B} (m : run A) (f : A -> run B) b :
  (m ≫= f) = Val b -> exists a, m = Val a /\ f a = Val b.
Proof. destruct m; [eauto|done]. Qed.

(** The operator [?]. *)
Definition result_bind {A B E} (m : result A E) (f : A -> result B E) : result B E :=
  match m with Ok a => f a | Err e => Err e end.
Lemma result_bind_ok {A B E} (m : result A E) (f : A -> result B E) b :
  result_bind m f = Ok b -> exists a, m = Ok a /\ f a = Ok b.
Proof. destruct m as [a|e]; cbn; [by exists a|done]. Qed.

(** Closes a decidable closed statement by computing its decision. *)
Ltac decide_now := refine (bool_decide_unpack _ _); vm_compute; exact I.

(** [Option::unwrap]. *)
Definition unwrap {A} (o : option A) : run A :=
  match o with Some a => Val a | None => Panic end.

(** [assert!]. *)
Definition rust_assert (b : bool) : run unit := if b then Val tt else Panic.

(** ** Slices: reads and writes panic out of range *)

Section slices.
Context {A : Type}.
Implicit Types (l s : list A).

(** [l[i]] *)
Definition slice_get l (i : nat) : run A := unwrap (l !! i).
(** [l[i] = x] *)
Definition slice_set l (i : nat) (x : A) : run (list A) :=
if decide (i < length l) then Val (<[i := x]> l) else Panic.
(** [&l[a..b]] *)
Definition slice_range l (a b : nat) : run (list A) :=
if decide (a <= b <= length l) then Val (take (b - a) (drop a l)) else Panic.
(** [l[a..b].copy_from_slice(s)]: also panics when the lengths differ *)
Definition slice_copy l (a b : nat) s : run (list A) :=
if decide (a <= b <= length l /\ b - a = length s)
then Val (take a l ++ s ++ drop b l) else Panic.

Lemma insert_middle l r x y i :
i = length l -> <[i := y]> (l ++ x :: r) = l ++ y :: r.
Proof.
intros ->. rewrite <- (Nat.add_0_r (length l)), insert_app_r. done.
Qed.
Lemma slice_get_Val l i x : l !! i = Some x -> slice_get l i = Val x.
Proof. unfold slice_get. by intros ->. Qed.
Lemma slice_set_Val l i x : i < length l -> slice_set l i x = Val (<[i := x]> l).
Proof. intros. unfold slice_set. by rewrite decide_True. Qed.
Lemma slice_set_Panic l i x : length l <= i -> slice_set l i x = Panic.
Proof. intros. unfold slice_set. rewrite decide_False; [done | lia]. Qed.
Lemma slice_get_Panic l i : length l <= i -> slice_get l i = Panic.
Proof. intros. unfold slice_get. by rewrite (proj2 (lookup_ge_None l i)). Qed.
Lemma slice_range_Val l a b :
a <= b <= length l -> slice_range l a b = Val (take (b - a) (drop a l)).
Proof. intros. unfold slice_range. by rewrite decide_True. Qed.
Lemma slice_copy_Val l a b s :
a <= b <= length l -> b - a = length s ->
slice_copy l a b s = Val (take a l ++ s ++ drop b l).
Proof. intros. unfold slice_copy. by rewrite decide_True. Qed.
Lemma slice_middle (pre mid post : list A) i j :
  i = length pre -> j = (length pre + length mid)%nat ->
  slice_range (pre ++ mid ++ post) i j = Val mid.
Proof.
  intros -> ->. rewrite slice_range_Val by (rewrite !length_app; lia).
  rewrite drop_app_length. replace (length pre + length mid - length pre)%nat with (length mid) by lia.
  by rewrite take_app_length.
Qed.
End slices.

(** ** Machine words *)

Open Scope Z_scope.

(** A value that fits [w] bits; arithmetic of the release build wraps. *)
Definition fits (w x : Z) : Prop := 0 <= x < 2 ^ w.
Definition wrap (w x : Z) : Z := x mod 2 ^ w.
Abbreviation u8 := (fits 8) (only parsing).
Abbreviation u16 := (fits 16) (only parsing).
Abbreviation u32 := (fits 32) (only parsing).
Abbreviation u64 := (fits 64) (only parsing).

#[export] Instance fits_dec w x : Decision (fits w x).
Proof. unfold fits. apply _. Defined.

Lemma wrap_fits w x : 0 <= w -> fits w (wrap w x).
Proof. intros. unfold fits, wrap. apply Z.mod_pos_bound. lia. Qed.
Lemma wrap_id w x : fits w x -> wrap w x = x.
Proof. intros. by apply Z.mod_small. Qed.

(** The values of a list all fit [w] bits. *)
Abbreviation bytes := (Forall (fits 8)).

Lemma fits_testbit w x i : 0 <= w -> fits w x -> w <= i -> Z.testbit x i = false.
Proof.
  intros Hw [Hx0 Hx] Hi.
  rewrite <- (Z.mod_small x (2 ^ w)) by lia. apply Z.mod_pow2_bits_high. lia.
Qed.

Lemma testbit_fits w x :
  0 <= w -> 0 <= x -> (forall i, w <= i -> Z.testbit x i = false) -> fits w x.
Proof.
  intros Hw Hx Hb. split; [done|].
  assert (x = x mod 2 ^ w) as ->; [|apply Z.mod_pos_bound; lia].
  apply Z.bits_inj'. intros i Hi.
  destruct (Z.lt_ge_cases i w).
  - by rewrite Z.mod_pow2_bits_low.
  - rewrite Z.mod_pow2_bits_high by lia. by apply Hb.
Qed.

Lemma lxor_fits w a b : 0 <= w -> fits w a -> fits w b -> fits w (Z.lxor a b).
Proof.
  intros Hw Ha Hb. apply testbit_fits; [done| |].
  - apply Z.lxor_nonneg. unfold fits in *. lia.
  - intros i Hi. rewrite Z.lxor_spec.
    by rewrite (fits_testbit w a), (fits_testbit w b).
Qed.

Lemma lor_fits w a b : 0 <= w -> fits w a -> fits w b -> fits w (Z.lor a b).
Proof.
  intros Hw Ha Hb. apply testbit_fits; [done| |].
  - apply Z.lor_nonneg. unfold fits in *. lia.
  - intros i Hi. rewrite Z.lor_spec.
    by rewrite (fits_testbit w a), (fits_testbit w b).
Qed.

Lemma land_fits w a b : 0 <= w -> 0 <= a -> fits w b -> fits w (Z.land a b).
Proof.
  intros Hw Ha Hb. apply testbit_fits; [done| |].
  - apply Z.land_nonneg. auto.
  - intros i Hi. rewrite Z.land_spec, (fits_testbit w b) by done.
    apply andb_false_r.
Qed.

Lemma lxor_cancel a b : Z.lxor (Z.lxor a b) b = a.
Proof. by rewrite Z.lxor_assoc, Z.lxor_nilpotent, Z.lxor_0_r. Qed.

(** [a | (b << n)] of values that do not overlap is a sum. *)
Lemma lor_shift_add n a b :
  0 <= n -> fits n a -> Z.lor a (Z.shiftl b n) = a + b * 2 ^ n.
Proof.
  intros Hn Ha. rewrite <- Z.shiftl_mul_pow2 by done.
  assert (Z.land a (Z.shiftl b n) = 0) as Hd.
  { apply Z.bits_inj'. intros i Hi. rewrite Z.land_spec, Z.bits_0.
    destruct (Z.lt_ge_cases i n).
    - by rewrite Z.shiftl_spec_low, andb_false_r.
    - by rewrite (fits_testbit n a). }
  by rewrite <- Z.add_lor_land, Hd, Z.add_0_r.
Qed.
