(* ===== verification/Words.v ===== *)
(** Byte-order conversions of the Rust standard library
    ([u16/u32/u64::to_le_bytes], [from_le_bytes], [to_be_bytes],
    [from_be_bytes]) and their round trips.  A byte string is a [list Z] whose
    elements fit 8 bits ([bytes] of [Prelude]). *)
From S2P Require Import Prelude.

(** Little-endian digits of the [n] low bytes of [x]. *)
Fixpoint le_bytes (n : nat) (x : Z) : list Z :=
  match n with
  | O => []
  | S n => x mod 256 :: le_bytes n (x / 256)
  end.

(** The value of a little-endian byte string. *)
Definition of_le (l : list Z) : Z := foldr (fun b acc => b + 256 * acc) 0 l.

Definition be_bytes (n : nat) (x : Z) : list Z := reverse (le_bytes n x).
Definition of_be (l : list Z) : Z := of_le (reverse l).

(** The fixed-width names the source uses. *)
Definition u32_to_le_bytes (x : Z) : list Z := le_bytes 4 x.
Definition u32_from_le_bytes (l : list Z) : Z := of_le l.
Definition u16_to_be_bytes (x : Z) : list Z := be_bytes 2 x.
Definition u16_from_be_bytes (l : list Z) : Z := of_be l.
Definition u32_to_be_bytes (x : Z) : list Z := be_bytes 4 x.
Definition u32_from_be_bytes (l : list Z) : Z := of_be l.
Definition u16_to_le_bytes (x : Z) : list Z := le_bytes 2 x.
Definition u16_from_le_bytes (l : list Z) : Z := of_le l.

Lemma length_le_bytes n x : length (le_bytes n x) = n.
Proof. revert x. induction n; intros; simpl; auto. Qed.

Lemma length_be_bytes n x : length (be_bytes n x) = n.
Proof. unfold be_bytes. by rewrite length_reverse, length_le_bytes. Qed.

Lemma le_bytes_bytes n x : bytes (le_bytes n x).
Proof.
  revert x. induction n; intros x; simpl; constructor; [|done].
  unfold fits. apply Z.mod_pos_bound. lia.
Qed.

Lemma be_bytes_bytes n x : bytes (be_bytes n x).
Proof. apply Forall_reverse, le_bytes_bytes. Qed.

Lemma of_le_le_bytes n x : of_le (le_bytes n x) = x mod 256 ^ Z.of_nat n.
Proof.
  revert x. induction n as [|n IH]; intros x; simpl.
  - by rewrite Z.mod_1_r.
  - change (of_le (x mod 256 :: le_bytes n (x / 256)))
      with (x mod 256 + 256 * of_le (le_bytes n (x / 256))).
    rewrite IH, Nat2Z.inj_succ, Z.pow_succ_r by lia.
    rewrite Z.rem_mul_r by lia. done.
Qed.

Lemma le_bytes_of_le l : bytes l -> le_bytes (length l) (of_le l) = l.
Proof.
  induction 1 as [|b l Hb Hl IH]; [done|].
  change (of_le (b :: l)) with (b + 256 * of_le l). simpl. unfold fits in Hb.
  replace ((b + 256 * of_le l) mod 256) with b.
  - replace ((b + 256 * of_le l) / 256) with (of_le l); [by rewrite IH|].
    rewrite Z.mul_comm, Z.div_add by lia. rewrite Z.div_small; lia.
  - rewrite Z.mul_comm, Z.mod_add by lia. rewrite Z.mod_small; lia.
Qed.

Lemma of_le_bound l : bytes l -> 0 <= of_le l < 256 ^ Z.of_nat (length l).
Proof.
  induction 1 as [|b l Hb Hl IH]; [done|].
  change (of_le (b :: l)) with (b + 256 * of_le l).
  cbn [length]. rewrite Nat2Z.inj_succ, Z.pow_succ_r by lia. unfold fits in Hb. lia.
Qed.

Lemma of_be_be_bytes n x : of_be (be_bytes n x) = x mod 256 ^ Z.of_nat n.
Proof. unfold of_be, be_bytes. rewrite reverse_involutive. apply of_le_le_bytes. Qed.

Lemma u32_le_roundtrip x : u32 x -> u32_from_le_bytes (u32_to_le_bytes x) = x.
Proof. intros. unfold u32_from_le_bytes, u32_to_le_bytes.
  rewrite of_le_le_bytes. by apply Z.mod_small. Qed.
Lemma u16_be_roundtrip x : u16 x -> u16_from_be_bytes (u16_to_be_bytes x) = x.
Proof. intros. unfold u16_from_be_bytes, u16_to_be_bytes.
  rewrite of_be_be_bytes. by apply Z.mod_small. Qed.
Lemma u32_be_roundtrip x : u32 x -> u32_from_be_bytes (u32_to_be_bytes x) = x.
Proof. intros. unfold u32_from_be_bytes, u32_to_be_bytes.
  rewrite of_be_be_bytes. by apply Z.mod_small. Qed.
Lemma u16_le_roundtrip x : u16 x -> u16_from_le_bytes (u16_to_le_bytes x) = x.
Proof. intros. unfold u16_from_le_bytes, u16_to_le_bytes.
  rewrite of_le_le_bytes. by apply Z.mod_small. Qed.
Lemma u32_from_le_fits l : bytes l -> length l = 4%nat -> u32 (u32_from_le_bytes l).
Proof. intros Hl Hn. pose proof (of_le_bound l Hl) as Hb. rewrite Hn in Hb. exact Hb. Qed.

Create HintDb words.
#[export] Hint Resolve le_bytes_bytes be_bytes_bytes length_le_bytes
  length_be_bytes : words.
