(* ===== verification/Messages.v ===== *)
(** The wire vocabulary shared by the boot loader on the device and the
    uploader on the host: [common/okboot-common/src/lib.rs], [host.rs] and
    [device.rs].  Message types and their numeric codes, the legacy SU-BOOT
    command words, the protocol versions, and the message bodies. *)
From S2P Require Import Prelude Words.

(** ** lib.rs: constants *)

Definition BAUD_RATE : Z := 1500000.
Definition COBS_XOR : Z := 0x55.
Definition PREAMBLE_BYTES : list Z := [0x55; 0x55; 0x55; 0x5e].
Definition INITIAL_BAUD_RATE : Z := 115200.

(** ** lib.rs: message types *)

Inductive MessageType : Type :=
  | PrintString | Probe | AllowedVersions | UseVersion
  | MetadataReq | Metadata | MetadataAck | MetadataAckAck
  | ChunkReq | Chunk | Booting | BootingAck.

#[export] Instance MessageType_eq_dec : EqDecision MessageType.
Proof. solve_decision. Defined.

(** [val as u32] *)
Definition message_type_to_u32 (t : MessageType) : Z :=
  match t with
  | PrintString => 101
  | Probe => 201 | AllowedVersions => 202 | UseVersion => 203
  | MetadataReq => 301 | Metadata => 302 | MetadataAck => 303
  | MetadataAckAck => 304
  | ChunkReq => 401 | Chunk => 402
  | Booting => 501 | BootingAck => 502
  end.

(** [TryFrom<u32> for MessageType] *)
Definition message_type_try_from (value : Z) : result MessageType unit :=
  match value with
  | 101 => Ok PrintString
  | 201 => Ok Probe
  | 202 => Ok AllowedVersions
  | 203 => Ok UseVersion
  | 301 => Ok MetadataReq
  | 302 => Ok Metadata
  | 303 => Ok MetadataAck
  | 304 => Ok MetadataAckAck
  | 401 => Ok ChunkReq
  | 402 => Ok Chunk
  | 501 => Ok Booting
  | 502 => Ok BootingAck
  | _ => Err tt
  end.

(** ** lib.rs: the command words of the legacy protocol *)

Module su_boot.
Inductive Command : Type :=
| BootStart | GetProgInfo | PutProgInfo | GetCode | PutCode
| BootSuccess | BootError | CmdPrintString.

Definition command_to_u32 (c : Command) : Z :=
match c with
| BootStart => 0xFFFF0000
| GetProgInfo => 0x11112222
| PutProgInfo => 0x33334444
| GetCode => 0x55556666
| PutCode => 0x77778888
| BootSuccess => 0x9999AAAA
| BootError => 0xBBBBCCCC
| CmdPrintString => 0xDDDDEEEE
end.
End su_boot.

(** ** lib.rs: protocol versions *)

Inductive SupportedProtocol : Type := V2.

Definition supported_protocol_to_u32 (p : SupportedProtocol) : Z :=
  match p with V2 => 2 end.
Definition supported_protocol_try_from (value : Z) : result SupportedProtocol Z :=
  match value with 2 => Ok V2 | _ => Err value end.
Definition protocol_baud_rate (p : SupportedProtocol) : Z :=
  match p with V2 => 1500000 end.

(** ** host.rs: message bodies sent by the host *)

Inductive FormatDetails : Type :=
  | Bin (load_address : Z)
  | Elf.
#[export] Instance FormatDetails_eq_dec : EqDecision FormatDetails.
Proof. solve_decision. Defined.

Record metadata : Type := MkMetadata {
  deflated_crc : Z;
  deflated_len : Z;
  inflated_crc : Z;
  inflated_len : Z;
  format_details : FormatDetails;
}.
#[export] Instance metadata_eq_dec : EqDecision metadata.
Proof. solve_decision. Defined.

(** ** The message bodies as one type, with the [TYPE] constant of each *)

Inductive message : Type :=
  | MProbe
  | MUseVersion (version : Z)
  | MMetadata (m : metadata)
  | MMetadataAckAck (is_ok : bool)
  | MChunk (which : Z) (chunk_bytes : list Z)
  | MBootingAck
  | MAllowedVersions (versions : list Z)
  | MMetadataReq
  | MMetadataAck (chunk_size : Z) (m : metadata)
  | MChunkReq (which : Z)
  | MBooting.
#[export] Instance message_eq_dec : EqDecision message.
Proof. solve_decision. Defined.

(** [EncodeMessageType::TYPE] *)
Definition encode_message_type (m : message) : MessageType :=
  match m with
  | MProbe => Probe
  | MUseVersion _ => UseVersion
  | MMetadata _ => Metadata
  | MMetadataAckAck _ => MetadataAckAck
  | MChunk _ _ => Chunk
  | MBootingAck => BootingAck
  | MAllowedVersions _ => AllowedVersions
  | MMetadataReq => MetadataReq
  | MMetadataAck _ _ => MetadataAck
  | MChunkReq _ => ChunkReq
  | MBooting => Booting
  end.

(** ** device.rs: the version list, kept as raw bytes *)

(** [AllowedVersions::new]: [bytemuck::must_cast_slice] of a [&[u32]] on a
    little-endian machine. *)
Definition allowed_versions_new (versions : list Z) : list Z :=
  versions ≫= u32_to_le_bytes.

(** [AllowedVersionsIter::next] at [offset]: the item and the next offset. *)
Definition allowed_versions_next (versions : list Z) (offset : nat)
  : run (option (Z * nat)) :=
  if decide (length versions <= offset)%nat then Val None
  else if decide (length versions < offset + 4)%nat then Val None
  else four ← slice_range versions offset (offset + 4);
       Val (Some (u32_from_le_bytes four, (offset + 4)%nat)).

(** [iter().collect()], with one unit of fuel per byte of the list. *)
Fixpoint allowed_versions_collect (fuel : nat) (versions : list Z) (offset : nat)
  : run (list Z) :=
  match fuel with
  | O => Val []
  | S fuel =>
    r ← allowed_versions_next versions offset;
    match r with
    | None => Val []
    | Some (v, off') => vs ← allowed_versions_collect fuel versions off'; Val (v :: vs)
    end
  end.
Definition allowed_versions_iter (versions : list Z) : run (list Z) :=
  allowed_versions_collect (S (length versions)) versions 0.

(** ** Lemmas *)

Lemma message_type_roundtrip t :
  message_type_try_from (message_type_to_u32 t) = Ok t.
Proof. by destruct t. Qed.

Lemma message_type_u32 t : u32 (message_type_to_u32 t).
Proof. destruct t; vm_compute; split; congruence. Qed.

Lemma message_type_try_from_Ok v t :
  message_type_try_from v = Ok t -> v = message_type_to_u32 t.
Proof.
  unfold message_type_try_from. intros H.
  repeat match type of H with
  | match ?x with _ => _ end = Ok _ => destruct x; try discriminate
  end; injection H as <-; done.
Qed.

Lemma length_allowed_versions_new vs :
  length (allowed_versions_new vs) = (4 * length vs)%nat.
Proof.
  induction vs as [|v vs IH]; [done|].
  change (allowed_versions_new (v :: vs))
    with (u32_to_le_bytes v ++ allowed_versions_new vs).
  rewrite length_app, IH. cbn [length u32_to_le_bytes le_bytes]. lia.
Qed.

Lemma allowed_versions_collect_new fuel pre vs :
  (length vs < fuel)%nat -> Forall (fits 32) vs ->
  allowed_versions_collect fuel (pre ++ allowed_versions_new vs) (length pre) = Val vs.
Proof.
  intros Hf Hvs. revert fuel pre Hf. induction Hvs as [|v vs Hv Hvs IH]; intros fuel pre Hf.
  - destruct fuel as [|fuel]; [done|]. cbn [allowed_versions_collect].
    unfold allowed_versions_next. cbn. rewrite app_nil_r, decide_True by lia. done.
  - destruct fuel as [|fuel]; [cbn in Hf; lia|].
    cbn [allowed_versions_collect]. unfold allowed_versions_next.
    assert (length (pre ++ allowed_versions_new (v :: vs))
            = length pre + 4 + 4 * length vs)%nat as Hlen.
    { rewrite length_app, length_allowed_versions_new. cbn [length]. lia. }
    rewrite !decide_False by lia. rewrite slice_range_Val by lia.
    rewrite drop_app_length.
    replace (length pre + 4 - length pre)%nat with 4%nat by lia.
    change (allowed_versions_new (v :: vs))
      with (u32_to_le_bytes v ++ allowed_versions_new vs).
    rewrite take_app_length' by done.
    rewrite run_bind_Val, u32_le_roundtrip, run_bind_Val by done.
    specialize (IH fuel (pre ++ u32_to_le_bytes v)).
    rewrite <- app_assoc, length_app in IH.
    change (length (u32_to_le_bytes v)) with 4%nat in IH.
    rewrite IH by (cbn in Hf; lia). done.
Qed.

(** The version list round trip.  The host's iterator over the bytes that
    [AllowedVersions::new] produces yields the versions, in order, and never
    panics. *)
Theorem allowed_versions_roundtrip vs :
  Forall (fits 32) vs -> allowed_versions_iter (allowed_versions_new vs) = Val vs.
Proof.
  intros Hvs. unfold allowed_versions_iter. apply (allowed_versions_collect_new _ []); [|done].
  rewrite length_allowed_versions_new. lia.
Qed.

Lemma allowed_versions_roundtrip_witness :
  allowed_versions_iter (allowed_versions_new [2; 0xffffffff]) = Val [2; 0xffffffff].
Proof. apply allowed_versions_roundtrip. decide_now. Defined.
