(* ===== verification/Crc.v ===== *)
(** The interface of the [crc32fast] crate, which every framing layer of the
    repository uses and whose code is not in the repository: a streaming hasher
    ([Hasher::new], [Hasher::update], [Hasher::finalize]) and the one-shot
    [hash].  The laws are the crate's documentation: updates concatenate,
    [hash b] is one update of a fresh hasher, the result is a [u32].  A
    concrete instance, the bit-at-a-time CRC-32, shows that the laws can hold
    and lets the witnesses compute. *)
From S2P Require Import Prelude.

Class Crc := {
  hasher : Type;
  hasher_new : hasher;
  hasher_update : hasher -> list Z -> hasher;
  hasher_finalize : hasher -> Z;
  crc32_hash : list Z -> Z;
}.

Class CrcLaws `{Crc} : Prop := {
  hasher_update_nil h : hasher_update h [] = h;
  hasher_update_app h a b :
    hasher_update (hasher_update h a) b = hasher_update h (a ++ b);
  hasher_finalize_u32 h : u32 (hasher_finalize h);
  crc32_hash_spec b : crc32_hash b = hasher_finalize (hasher_update hasher_new b);
}.

(** [core::hash::Hasher::write_u8], which the crate gets from [write]. *)
Definition hasher_write_u8 `{Crc} (h : hasher) (b : Z) : hasher := hasher_update h [b].

(** The hasher after [b], for the statements. *)
Definition hashed `{Crc} (b : list Z) : hasher := hasher_update hasher_new b.

Lemma hashed_snoc `{CrcLaws} b x : hasher_write_u8 (hashed b) x = hashed (b ++ [x]).
Proof. unfold hashed, hasher_write_u8. apply hasher_update_app. Qed.

(** ** A concrete instance *)

Definition crc32_bit (c : Z) : Z :=
  if Z.odd c then Z.lxor (Z.shiftr c 1) 0xEDB88320 else Z.shiftr c 1.
Definition crc32_byte (c b : Z) : Z := Nat.iter 8 crc32_bit (Z.lxor c b).

#[export] Instance crc32_bitwise : Crc := {|
  hasher := Z;
  hasher_new := 0xFFFFFFFF;
  hasher_update := foldl crc32_byte;
  hasher_finalize c := wrap 32 (Z.lxor c 0xFFFFFFFF);
  crc32_hash b := wrap 32 (Z.lxor (foldl crc32_byte 0xFFFFFFFF b) 0xFFFFFFFF);
|}.

#[export] Instance crc32_bitwise_laws : CrcLaws.
Proof.
  split.
  - done.
  - intros h a b. cbn. by rewrite foldl_app.
  - intros h. apply wrap_fits. lia.
  - done.
Qed.

(** The check value of the CRC-32 of [123456789]. *)
Example crc32_check_value :
  crc32_hash [0x31;0x32;0x33;0x34;0x35;0x36;0x37;0x38;0x39] = 0xCBF43926.
Proof. vm_compute. reflexivity. Qed.
