(* ===== verification/Encode.v ===== *)
(** Frame encoding: [common/okboot-common/src/frame/encode.rs].

    The encoder owns a 255-byte buffer and a cursor: [buf[1..cursor]] is the
    block being collected, [buf[0]] the place of its COBS code.  [write_u8]
    hands out a prefix of the buffer when a block is complete, and the outer
    encoder xors that prefix in place before returning it.  The section
    [abstraction] gives the encoder's specification, a function on the pending
    block alone, and shows that the buffered code implements it. *)
From S2P Require Import Prelude Words Messages.

Definition COBS_SENTINEL : Z := 0.

(** ** The length field *)

Definition encode_length (length : Z) : option (list Z) :=
  if negb (Z.land length (Z.lnot 0xffffff) =? 0) then None
  else
    let splits :=
      [ Z.land length 0x3f
      ; Z.shiftr (Z.land length 0xfc0) 6
      ; Z.shiftr (Z.land length 0x3f000) 12
      ; Z.shiftr (Z.land length 0xfc0000) 18 ] in
    Some (map (fun x => Z.lor x 0xc0) splits).

(** ** The unmasked encoder *)

Module FrameEncoderInner.
Record encoder_inner : Type := MkInner { buf : list Z; cursor : nat }.

(** [EncodeStateInner]: [Buf] carries the length of the prefix of [buf] that
  is handed out as a mutable slice. *)
Inductive EncodeStateInner : Type := IBuf (n : nat) | IPass.

Definition inner_with_buffer (underlying_buffer : list Z) : option encoder_inner :=
if decide (length underlying_buffer = 255)%nat
then Some (MkInner underlying_buffer 1) else None.

Definition inner_write_u8 (e : encoder_inner) (x : Z)
: run (encoder_inner * EncodeStateInner) :=
if decide (cursor e = 254)%nat then
  if x =? COBS_SENTINEL then
    b ← slice_set (buf e) 0 0xfe;
    Val (MkInner b 1, IBuf 254)
  else
    b ← slice_set (buf e) 0 0xff;
    b ← slice_set b 0xfe x;
    Val (MkInner b 1, IBuf 255)
else if negb (x =? COBS_SENTINEL) then
  b ← slice_set (buf e) (cursor e) x;
  Val (MkInner b (cursor e + 1), IPass)
else
  b ← slice_set (buf e) 0 (wrap 8 (Z.of_nat (cursor e)));
  Val (MkInner b 1, IBuf (cursor e)).

(** [finish]: the encoder is consumed; the final buffer and the length of the
  prefix handed out. *)
Definition inner_finish (e : encoder_inner) : run (list Z * nat) :=
b ← slice_set (buf e) (cursor e) COBS_SENTINEL;
b ← slice_set b 0 (wrap 8 (Z.of_nat (cursor e)));
Val (b, cursor e + 1)%nat.
End FrameEncoderInner.
Export FrameEncoderInner.

(** ** The masking encoder *)

Module FrameEncoder.
Record frame_encoder : Type := MkEncoder { inner : encoder_inner; enc_xor : Z }.
Inductive EncodeState : Type := EBuf (b : list Z) | EPass.

Definition encoder_with_buffer_xor (underlying_buffer : list Z) (xor : Z)
: option frame_encoder :=
i ← inner_with_buffer underlying_buffer; Some (MkEncoder i xor).

(** [b.iter_mut().for_each(|x| *x ^= xor)] on the prefix of length [n]. *)
Definition xor_prefix (xor : Z) (n : nat) (b : list Z) : list Z :=
map (fun x => Z.lxor x xor) (take n b) ++ drop n b.

Definition encoder_write_u8 (e : frame_encoder) (x : Z)
: run (frame_encoder * EncodeState) :=
'(i, st) ← inner_write_u8 (inner e) x;
match st with
| IBuf n =>
  let b := xor_prefix (enc_xor e) n (buf i) in
  out ← slice_range b 0 n;
  Val (MkEncoder (MkInner b (cursor i)) (enc_xor e), EBuf out)
| IPass => Val (MkEncoder i (enc_xor e), EPass)
end.

Definition encoder_finish (e : frame_encoder) : run (list Z) :=
'(b, n) ← inner_finish (inner e);
slice_range (xor_prefix (enc_xor e) n b) 0 n.

(** The buffer that [finish] leaves to the next frame. *)
Definition encoder_finish_buffer (e : frame_encoder) : run (list Z) :=
'(b, n) ← inner_finish (inner e); Val (xor_prefix (enc_xor e) n b).

(** [BufferedEncoder] keeps the buffer between frames; [frame] starts one. *)
Record buffered_encoder : Type := MkBuffered { be_buffer : list Z; be_xor : Z }.
Definition buffered_frame (b : buffered_encoder) : option frame_encoder :=
encoder_with_buffer_xor (be_buffer b) (be_xor b).

(** The loop of every client: write all bytes, collecting what comes out. *)
Fixpoint encoder_write_all (e : frame_encoder) (data : list Z)
: run (frame_encoder * list Z) :=
match data with
| [] => Val (e, [])
| x :: data =>
  '(e, st) ← encoder_write_u8 e x;
  '(e, out) ← encoder_write_all e data;
  Val (e, match st with EBuf b => b ++ out | EPass => out end)
end.
End FrameEncoder.
Export FrameEncoder.

(** ** Specification: COBS on the pending block *)

Section abstraction.
Implicit Types (p data : list Z) (x : Z).

(** One byte: the block that remains pending and the bytes that come out. *)
Definition cobs_step p x : list Z * list Z :=
if decide (length p = 253)%nat then
  if x =? 0 then ([], 254 :: p) else ([], 255 :: p ++ [x])
else if x =? 0 then ([], Z.of_nat (length p) + 1 :: p)
else (p ++ [x], []).

Definition cobs_finish p : list Z := Z.of_nat (length p) + 1 :: p ++ [0].

(** Everything the encoder emits for [data] and the final [finish], when the
  block [p] is pending. *)
Fixpoint cobs_encode_from p data : list Z :=
match data with
| [] => cobs_finish p
| x :: data => let '(p', out) := cobs_step p x in out ++ cobs_encode_from p' data
end.
Definition cobs_encode data : list Z := cobs_encode_from [] data.

(** The pending block of a concrete encoder. *)
Definition pending (e : frame_encoder) : list Z :=
take (cursor (inner e) - 1) (drop 1 (buf (inner e))).

(** Well-formed encoder: the buffer has its fixed size, the cursor is in it,
  and the pending block has no sentinel. *)
Record encoder_ok (e : frame_encoder) : Prop := {
ok_len : length (buf (inner e)) = 255%nat;
ok_cursor : (1 <= cursor (inner e) <= 254)%nat;
ok_nonzero : Forall (fun b => 0 < b < 256) (pending e);
}.
End abstraction.

Lemma encoder_new_ok b xor :
  length b = 255%nat ->
  exists e, encoder_with_buffer_xor b xor = Some e /\ encoder_ok e /\
    pending e = [] /\ enc_xor e = xor.
Proof.
  intros Hb. exists (MkEncoder (MkInner b 1) xor).
  unfold encoder_with_buffer_xor, inner_with_buffer. rewrite decide_True by done.
  split; [done|]. split; [|done].
  split; cbn; [done|lia|]. apply Forall_nil_2.
Qed.

Lemma length_pending e :
  encoder_ok e -> length (pending e) = (cursor (inner e) - 1)%nat.
Proof.
  intros [Hl Hc _]. unfold pending. rewrite length_take, length_drop, Hl. lia.
Qed.

Lemma length_xor_prefix xor n b : length (xor_prefix xor n b) = length b.
Proof.
  unfold xor_prefix. rewrite length_app, length_map, length_take, length_drop. lia.
Qed.

(** The buffer of an encoder in terms of its pending block. *)
Lemma buffer_shape e :
  encoder_ok e -> exists c rest,
    buf (inner e) = c :: pending e ++ rest /\
    length rest = (255 - cursor (inner e))%nat.
Proof.
  intros [Hl Hc _]. destruct (buf (inner e)) as [|c b] eqn:Hb; [done|].
  exists c, (drop (cursor (inner e) - 1) b). unfold pending. rewrite Hb.
  cbn [drop]. rewrite drop_0, take_drop. split; [done|].
  cbn in Hl. rewrite length_drop. lia.
Qed.

(** Handing out a prefix: what comes out and what the buffer becomes. *)
Lemma prefix_out xor (l rest : list Z) :
  slice_range (xor_prefix xor (length l) (l ++ rest)) 0 (length l) =
  Val (map (fun x => Z.lxor x xor) l).
Proof.
  rewrite slice_range_Val.
  - f_equal. rewrite drop_0, Nat.sub_0_r. unfold xor_prefix.
    rewrite take_app_length, drop_app_length.
    by rewrite take_app_length' by (by rewrite length_map).
  - rewrite length_xor_prefix, length_app. lia.
Qed.

(** A completed block leaves a well-formed encoder with nothing pending. *)
Lemma emitted_ok b xor :
  length b = 255%nat ->
  encoder_ok (MkEncoder (MkInner b 1) xor) /\ pending (MkEncoder (MkInner b 1) xor) = [].
Proof. intros Hb. split; [|done]. split; cbn; [done|lia|apply Forall_nil_2]. Qed.

(** [write_u8] implements [cobs_step], masked. *)
Lemma encoder_write_u8_spec e x :
  encoder_ok e -> u8 x ->
  exists e' st, encoder_write_u8 e x = Val (e', st) /\ encoder_ok e' /\
    enc_xor e' = enc_xor e /\ pending e' = (cobs_step (pending e) x).1 /\
    match st with EBuf b => b | EPass => [] end =
      map (fun y => Z.lxor y (enc_xor e)) (cobs_step (pending e) x).2.
Proof.
  intros Hok Hx. pose proof (length_pending e Hok) as Hp.
  destruct (buffer_shape e Hok) as (c & rest & Hb & Hrest).
  destruct Hok as [Hl Hc Hnz]. unfold encoder_write_u8, inner_write_u8, cobs_step.
  assert (forall v, slice_set (buf (inner e)) 0 v = Val (v :: pending e ++ rest)) as Hset0.
  { intros v. rewrite slice_set_Val by lia. by rewrite Hb. }
  rewrite !Hset0. unfold COBS_SENTINEL.
  destruct (decide (cursor (inner e) = 254)%nat) as [Hfull|Hfull].
  - rewrite (decide_True (P := length (pending e) = 253%nat)) by lia.
    destruct (x =? 0) eqn:Hx0.
    + pose proof (prefix_out (enc_xor e) (254 :: pending e) rest) as Ho.
      rewrite !run_bind_Val. cbn [buf cursor length] in Ho |- *.
      replace (S (length (pending e))) with 254%nat in Ho by lia. cbn [app] in Ho. rewrite Ho.
      eexists _, _. split; [done|].
      destruct (emitted_ok (xor_prefix (enc_xor e) 254 (254 :: pending e ++ rest)) (enc_xor e)).
      { rewrite length_xor_prefix. cbn. rewrite length_app. lia. }
      done.
    + rewrite !run_bind_Val. destruct rest as [|r rest]; [cbn in Hrest; lia|].
      rewrite slice_set_Val by (cbn; rewrite length_app; cbn; lia).
      assert (<[254%nat:=x]> (255 :: pending e ++ r :: rest)
              = (255 :: pending e ++ [x]) ++ rest) as ->.
      { rewrite (app_comm_cons _ _ 255), insert_middle by (cbn; lia).
        cbn. by rewrite <- app_assoc. }
      pose proof (prefix_out (enc_xor e) (255 :: pending e ++ [x]) rest) as Ho.
      rewrite !run_bind_Val.
      replace (length (255 :: pending e ++ [x])) with 255%nat in Ho
        by (cbn; rewrite length_app; cbn; lia).
      cbn [buf cursor]. rewrite Ho. eexists _, _. split; [done|].
      destruct (emitted_ok (xor_prefix (enc_xor e) 255 ((255 :: pending e ++ [x]) ++ rest))
        (enc_xor e)); [|done].
      rewrite length_xor_prefix, length_app. cbn. rewrite length_app. cbn in *. lia.
  - rewrite (decide_False (P := length (pending e) = 253%nat)) by lia.
    destruct (x =? 0) eqn:Hx0; cbn [negb].
    + assert (wrap 8 (Z.of_nat (cursor (inner e))) = Z.of_nat (length (pending e)) + 1) as ->.
      { rewrite wrap_id by (unfold fits; lia). lia. }
      pose proof (prefix_out (enc_xor e)
        (Z.of_nat (length (pending e)) + 1 :: pending e) rest) as Ho.
      rewrite !run_bind_Val. cbn [length buf cursor] in Ho |- *.
      replace (S (length (pending e))) with (cursor (inner e)) in Ho by lia.
      cbn [app] in Ho. rewrite Ho. eexists _, _. split; [done|].
      destruct (emitted_ok (xor_prefix (enc_xor e) (cursor (inner e))
        (Z.of_nat (length (pending e)) + 1 :: pending e ++ rest)) (enc_xor e)); [|done].
      rewrite length_xor_prefix. cbn. rewrite length_app. lia.
    + destruct rest as [|r rest]; [cbn in Hrest; lia|].
      rewrite slice_set_Val by lia. rewrite !run_bind_Val.
      eexists _, _. split; [done|].
      assert (pending (MkEncoder (MkInner (<[cursor (inner e):=x]> (buf (inner e)))
                (cursor (inner e) + 1)) (enc_xor e)) = pending e ++ [x]) as Hpe.
      { unfold pending at 1. cbn [inner buf cursor].
        rewrite Hb, (app_comm_cons _ _ c), insert_middle by (cbn; lia).
        cbn [app drop]. rewrite drop_0, (cons_middle x), app_assoc.
        apply take_app_length'. rewrite length_app. cbn. lia. }
      split; [|split; [done|split; [exact Hpe|done]]].
      split; [cbn; by rewrite length_insert|cbn; lia|].
      rewrite Hpe. apply Forall_app. split; [done|]. constructor; [|done].
      unfold fits in Hx. lia.
Qed.

(** [finish] implements [cobs_finish], masked. *)
Lemma encoder_finish_spec e :
  encoder_ok e ->
  encoder_finish e = Val (map (fun y => Z.lxor y (enc_xor e)) (cobs_finish (pending e))).
Proof.
  intros Hok. pose proof (length_pending e Hok) as Hp.
  destruct (buffer_shape e Hok) as (c & rest & Hb & Hrest).
  destruct Hok as [Hl Hc Hnz]. unfold encoder_finish, inner_finish.
  destruct rest as [|r rest]; [cbn in Hrest; lia|].
  rewrite slice_set_Val, run_bind_Val by lia.
  rewrite slice_set_Val, run_bind_Val by (rewrite length_insert; lia).
  rewrite wrap_id by (unfold fits; lia). rewrite run_bind_Val.
  assert (<[0%nat:=Z.of_nat (cursor (inner e))]>
            (<[cursor (inner e):=COBS_SENTINEL]> (buf (inner e)))
          = cobs_finish (pending e) ++ rest) as ->.
  { rewrite Hb, (app_comm_cons _ _ c), insert_middle by (cbn; lia).
    cbn. rewrite <- app_assoc. cbn. f_equal. lia. }
  replace (cursor (inner e) + 1)%nat with (length (cobs_finish (pending e)))
    by (unfold cobs_finish; cbn; rewrite length_app; cbn; lia).
  apply prefix_out.
Qed.

Lemma encoder_finish_buffer_length e :
  encoder_ok e -> exists b, encoder_finish_buffer e = Val b /\ length b = 255%nat.
Proof.
  intros [Hl Hc _]. unfold encoder_finish_buffer, inner_finish.
  rewrite slice_set_Val, run_bind_Val by lia.
  rewrite slice_set_Val, run_bind_Val by (rewrite length_insert; lia).
  rewrite run_bind_Val. eexists. split; [done|].
  by rewrite length_xor_prefix, !length_insert.
Qed.

(** Refinement for a whole frame. *)
Lemma encoder_write_all_spec data e :
  encoder_ok e -> bytes data ->
  exists e' out, encoder_write_all e data = Val (e', out) /\ encoder_ok e' /\
    enc_xor e' = enc_xor e /\
    forall tail, encoder_finish e' = Val tail ->
      out ++ tail = map (fun y => Z.lxor y (enc_xor e)) (cobs_encode_from (pending e) data).
Proof.
  intros Hok Hdata. revert e Hok. induction Hdata as [|x data Hx Hdata IH]; intros e Hok.
  - exists e, []. split_and!; [done..|]. intros tail Ht.
    rewrite encoder_finish_spec in Ht by done. by injection Ht as <-.
  - destruct (encoder_write_u8_spec e x Hok Hx) as (e1 & st & Hw & Hok1 & Hxor & Hpend & Hout).
    destruct (IH e1 Hok1) as (e2 & out & Hall & Hok2 & Hxor2 & Hfin).
    cbn [encoder_write_all]. rewrite Hw, run_bind_Val, Hall, run_bind_Val.
    eexists _, _. split; [done|]. split; [done|]. split; [congruence|].
    intros tail Ht. cbn [cobs_encode_from].
    destruct (cobs_step (pending e) x) as [p' o] eqn:Hstep. cbn in Hpend, Hout.
    rewrite map_app, <- Hout, <- Hpend, <- Hxor, <- (Hfin tail Ht).
    destruct st; [by rewrite app_assoc|done].
Qed.

(** The code of a frame is never the sentinel, and its bytes are bytes. *)
Lemma cobs_step_ok p x :
  (length p <= 253)%nat -> Forall (fun b => 0 < b < 256) p -> u8 x ->
  (length (cobs_step p x).1 <= 253)%nat /\
  Forall (fun b => 0 < b < 256) (cobs_step p x).1 /\
  Forall (fun b => 0 < b < 256) (cobs_step p x).2.
Proof.
  intros Hp Hnz Hx. unfold cobs_step, fits in *.
  destruct (decide _), (Z.eqb_spec x 0); cbn [fst snd]; split_and!;
    rewrite ?length_app; cbn [length]; try lia;
    repeat first [apply Forall_nil_2 | apply Forall_cons_2 | apply Forall_app_2 | done | lia].
Qed.

Lemma cobs_encode_from_shape data p :
  (length p <= 253)%nat -> Forall (fun b => 0 < b < 256) p -> bytes data ->
  exists body, cobs_encode_from p data = body ++ [0] /\ Forall (fun b => 0 < b < 256) body.
Proof.
  intros Hp Hnz Hd. revert p Hp Hnz. induction Hd as [|x data Hx Hd IH]; intros p Hp Hnz.
  - exists (Z.of_nat (length p) + 1 :: p). split; [done|]. constructor; [lia|done].
  - destruct (cobs_step_ok p x Hp Hnz Hx) as (Hp' & Hnz' & Ho).
    cbn [cobs_encode_from]. destruct (cobs_step p x) as [p' o]. cbn in *.
    destruct (IH p' Hp' Hnz') as (body & -> & Hbody).
    exists (o ++ body). rewrite app_assoc. split; [done|]. by apply Forall_app_2.
Qed.

(** The length field: four sextets, each with its two top bits set. *)
Definition length_sextets (n : Z) : list Z :=
  [n mod 64; (n / 64) mod 64; (n / 4096) mod 64; (n / 262144) mod 64].

Lemma land_shift_sextet n k :
  0 <= k -> Z.shiftr (Z.land n (Z.shiftl 0x3f k)) k = (n / 2 ^ k) mod 64.
Proof.
  intros Hk. rewrite Z.shiftr_land, Z.shiftr_shiftl_l, Z.sub_diag, Z.shiftl_0_r by lia.
  change 0x3f with (Z.ones 6). rewrite Z.land_ones, Z.shiftr_div_pow2 by lia. done.
Qed.

Lemma encode_length_Some n :
  0 <= n < 2 ^ 24 ->
  encode_length n = Some (map (fun x => Z.lor x 0xc0) (length_sextets n)).
Proof.
  intros Hn. unfold encode_length.
  assert (Z.land n (Z.lnot 0xffffff) = 0) as ->.
  { change 0xffffff with (Z.ones 24). rewrite <- Z.ldiff_land.
    apply Z.ldiff_ones_r_low; [lia|]. destruct (Z.eq_dec n 0) as [->|]; [done|].
    apply Z.log2_lt_pow2; lia. }
  cbn [negb Z.eqb]. unfold length_sextets.
  pose proof (land_shift_sextet n 0 ltac:(lia)) as H0.
  pose proof (land_shift_sextet n 6 ltac:(lia)) as H6.
  pose proof (land_shift_sextet n 12 ltac:(lia)) as H12.
  pose proof (land_shift_sextet n 18 ltac:(lia)) as H18.
  rewrite Z.shiftr_0_r, Z.div_1_r in H0.
  change (Z.shiftl 0x3f 0) with 0x3f in H0. change (Z.shiftl 0x3f 6) with 0xfc0 in H6.
  change (Z.shiftl 0x3f 12) with 0x3f000 in H12.
  change (Z.shiftl 0x3f 18) with 0xfc0000 in H18.
  by rewrite H0, H6, H12, H18.
Qed.

Lemma encode_length_None n : 2 ^ 24 <= n -> encode_length n = None.
Proof.
  intros Hn. unfold encode_length.
  destruct (Z.eqb_spec (Z.land n (Z.lnot 0xffffff)) 0) as [Hz|]; [|done].
  exfalso. change 0xffffff with (Z.ones 24) in Hz.
  rewrite <- Z.ldiff_land, Z.ldiff_ones_r in Hz by lia.
  rewrite Z.shiftl_mul_pow2, Z.shiftr_div_pow2 in Hz by lia.
  assert (1 <= n / 2 ^ 24) by (apply Z.div_le_lower_bound; lia). lia.
Qed.
