(* ===== verification/Decode.v ===== *)
(** Frame decoding: [common/okboot-common/src/frame/decode.rs].

    Three layers, each a state machine fed one byte at a time: the preamble
    recogniser, the COBS decoder, and the frame layer that drives both, splits
    a frame into header, payload and CRC and reports [FrameOutput]s.  The
    source mutates [self] and returns a [Result]; here each step returns the
    new state beside the result, and [frame_feed], which indexes two
    four-byte arrays, may panic. *)
From S2P Require Import Prelude Words Messages Crc.

(** ** The preamble *)

Module PreambleDecoder.
Inductive PreambleState : Type :=
| Initial | Preamble1 | Preamble2 | Preamble3
| LegacyPutProgramInfo1 | LegacyPutProgramInfo2 | LegacyPutProgramInfo3
| LegacyPutString1 | LegacyPutString2 | LegacyPutString3
| LegacyPutStringLength0
| LegacyPutStringLength1 (a : Z)
| LegacyPutStringLength2 (a b : Z)
| LegacyPutStringLength3 (a b c : Z).

Inductive PreambleStatus : Type :=
| PSkip | PPreamble | PLegacyPutProgramInfo | PLegacyPutString (n : Z).

Record PreambleError : Type := MkPreambleError { pe_state : PreambleState; wrong_byte : Z }.

(** [feed] (and [poll], which only calls it). *)
Definition preamble_feed (state : PreambleState) (byte : Z)
: PreambleState * result PreambleStatus PreambleError :=
let next s := (s, Ok PSkip) in
let wrong := (Initial, Err (MkPreambleError state byte)) in
match state with
| Initial =>
  if byte =? 0x55 then next Preamble1
  else if byte =? 0x44 then next LegacyPutProgramInfo1
  else if byte =? 0xee then next LegacyPutString1
  else wrong
| Preamble1 => if byte =? 0x55 then next Preamble2 else wrong
| Preamble2 => if byte =? 0x55 then next Preamble3 else wrong
| Preamble3 =>
  if byte =? 0x5e then (Initial, Ok PPreamble)
  else if byte =? 0x55 then next Preamble3
  else wrong
| LegacyPutProgramInfo1 => if byte =? 0x44 then next LegacyPutProgramInfo2 else wrong
| LegacyPutProgramInfo2 => if byte =? 0x33 then next LegacyPutProgramInfo3 else wrong
| LegacyPutProgramInfo3 =>
  if byte =? 0x33 then (Initial, Ok PLegacyPutProgramInfo) else wrong
| LegacyPutString1 => if byte =? 0xee then next LegacyPutString2 else wrong
| LegacyPutString2 => if byte =? 0xdd then next LegacyPutString3 else wrong
| LegacyPutString3 => if byte =? 0xdd then next LegacyPutStringLength0 else wrong
| LegacyPutStringLength0 => next (LegacyPutStringLength1 byte)
| LegacyPutStringLength1 a => next (LegacyPutStringLength2 a byte)
| LegacyPutStringLength2 a b => next (LegacyPutStringLength3 a b byte)
| LegacyPutStringLength3 a b c =>
  (Initial, Ok (PLegacyPutString (u32_from_le_bytes [a; b; c; byte])))
end.
End PreambleDecoder.
Export PreambleDecoder.

(** ** COBS *)

Module CobsDecoder.
Record CobsError : Type := MkCobsError {
err_frame_loc : Z; err_bytes_since : Z; err_last_jump : Z; err_found : Z }.

Inductive CobsState : Type := CSkip | CByte (b : Z) | CFinished.

#[export] Instance CobsState_eq_dec : EqDecision CobsState.
Proof. solve_decision. Defined.

Record cobs_decoder : Type := MkCobs {
frame_loc : Z;
bytes_since_last_jump : Z;
last_jump : Z;
cobs_xor : Z;
}.

Definition cobs_new (xor : Z) : cobs_decoder := MkCobs 0 0 0 xor.
Definition cobs_reset (d : cobs_decoder) : cobs_decoder := MkCobs 0 0 0 (cobs_xor d).
Definition cobs_error (d : cobs_decoder) (found : Z) : CobsError :=
MkCobsError (frame_loc d) (bytes_since_last_jump d) (last_jump d) found.

Definition cobs_poll (d : cobs_decoder) (byte : Z)
: cobs_decoder * result CobsState CobsError :=
let byte := Z.lxor byte (cobs_xor d) in
if last_jump d =? 0 then
  if byte =? 0 then (d, Err (cobs_error d byte))
  else if negb (bytes_since_last_jump d =? last_jump d)
  then (d, Err (cobs_error d byte))
  else (MkCobs (frame_loc d) 0 byte (cobs_xor d), Ok CSkip)
else
  let d := MkCobs (frame_loc d) (bytes_since_last_jump d + 1) (last_jump d) (cobs_xor d) in
  if bytes_since_last_jump d <? last_jump d then
    if byte =? 0 then (d, Err (cobs_error d byte)) else (d, Ok (CByte byte))
  else
    let prev_jump := last_jump d in
    let d := MkCobs (frame_loc d) 0 byte (cobs_xor d) in
    if byte =? 0 then (cobs_reset d, Ok CFinished)
    else if prev_jump <? 0xff then (d, Ok (CByte 0)) else (d, Ok CSkip).
End CobsDecoder.
Export CobsDecoder.

(** ** Frames *)

Module FrameLayer.
Record FrameHeader : Type := MkHeader { message_type : MessageType; payload_len : Z }.

Inductive FrameError : Type :=
| InvalidType (t : Z)
| InvalidCRC (calculated expected : Z)
| ECobs (e : CobsError)
| EPreamble (e : PreambleError)
| Overrun (h : FrameHeader) (byte : Z)
| HeaderCutoff (b : list Z) (i : nat)
| PayloadCutoff (h : FrameHeader) (i : nat)
| CrcCutoff (b : list Z) (i : nat)
| LengthEncoding (i : nat) (byte : Z).

Inductive FrameState : Type :=
| SPreamble
| SLength (i : nat)
| SPacketHeader (i : nat) (payload_len : Z)
| SPacketBody (i : nat) (h : FrameHeader)
| SLegacy
| SLegacyPrintString (length index : Z).

Inductive FrameOutput : Type :=
| FSkip
| FHeader (h : FrameHeader)
| FPayload (b : Z)
| FFinished
| FLegacy
| FLegacyPrintStringByte (length byte : Z).

#[export] Instance FrameHeader_eq_dec : EqDecision FrameHeader.
Proof. solve_decision. Defined.
#[export] Instance FrameOutput_eq_dec : EqDecision FrameOutput.
Proof. solve_decision. Defined.
#[export] Instance CobsError_eq_dec : EqDecision CobsError.
Proof. solve_decision. Defined.
#[export] Instance PreambleState_eq_dec : EqDecision PreambleState.
Proof. solve_decision. Defined.
#[export] Instance PreambleError_eq_dec : EqDecision PreambleError.
Proof. solve_decision. Defined.
#[export] Instance FrameError_eq_dec : EqDecision FrameError.
Proof. solve_decision. Defined.

Section with_crc.
Context `{Crc}.

Record frame_layer : Type := MkLayer {
preamble_layer : PreambleState;
fl_cobs : cobs_decoder;
length_bytes : list Z;
header_bytes : list Z;
crc_bytes : list Z;
decode_state : FrameState;
fl_crc : hasher;
}.

(** Field updates. *)
Definition with_preamble p (l : frame_layer) : frame_layer :=
MkLayer p (fl_cobs l) (length_bytes l) (header_bytes l) (crc_bytes l)
(decode_state l) (fl_crc l).
Definition with_cobs c (l : frame_layer) : frame_layer :=
MkLayer (preamble_layer l) c (length_bytes l) (header_bytes l) (crc_bytes l)
(decode_state l) (fl_crc l).
Definition with_length b (l : frame_layer) : frame_layer :=
MkLayer (preamble_layer l) (fl_cobs l) b (header_bytes l) (crc_bytes l)
(decode_state l) (fl_crc l).
Definition with_header b (l : frame_layer) : frame_layer :=
MkLayer (preamble_layer l) (fl_cobs l) (length_bytes l) b (crc_bytes l)
(decode_state l) (fl_crc l).
Definition with_crc_bytes b (l : frame_layer) : frame_layer :=
MkLayer (preamble_layer l) (fl_cobs l) (length_bytes l) (header_bytes l) b
(decode_state l) (fl_crc l).
Definition with_state s (l : frame_layer) : frame_layer :=
MkLayer (preamble_layer l) (fl_cobs l) (length_bytes l) (header_bytes l)
(crc_bytes l) s (fl_crc l).
Definition with_crc h (l : frame_layer) : frame_layer :=
MkLayer (preamble_layer l) (fl_cobs l) (length_bytes l) (header_bytes l)
(crc_bytes l) (decode_state l) h.

Definition frame_new (xor : Z) : frame_layer :=
MkLayer Initial (cobs_new xor) (replicate 4 0) (replicate 4 0) (replicate 4 0)
SPreamble hasher_new.
Definition skip_preamble (l : frame_layer) : frame_layer := with_state (SLength 0) l.
Definition frame_reset (l : frame_layer) : frame_layer :=
MkLayer Initial (cobs_reset (fl_cobs l)) (replicate 4 0) (replicate 4 0)
(replicate 4 0) SPreamble hasher_new.

Definition decode_header_bytes (l : frame_layer) (payload_len : Z)
: result FrameHeader FrameError :=
let message_type := u32_from_le_bytes (header_bytes l) in
match message_type_try_from message_type with
| Ok t => Ok (MkHeader t payload_len)
| Err _ => Err (InvalidType message_type)
end.

(** The 24-bit length held by the four sextets of the length field. *)
Definition sextets_length (length_bytes : list Z) : Z :=
let s := map (fun x => Z.land x (Z.lnot 0xc0)) length_bytes in
Z.lor (Z.lor (Z.lor (nth 0 s 0) (Z.shiftl (nth 1 s 0) 6))
           (Z.shiftl (nth 2 s 0) 12))
    (Z.shiftl (nth 3 s 0) 18).

Definition feed_preamble (l : frame_layer) (byte : Z)
: frame_layer * result FrameOutput FrameError :=
let '(p, r) := preamble_feed (preamble_layer l) byte in
let l := with_preamble p l in
match r with
| Err e => (l, Err (EPreamble e))
| Ok PPreamble => (with_state (SLength 0) l, Ok FSkip)
| Ok PLegacyPutProgramInfo => (with_state SLegacy l, Ok FLegacy)
| Ok PSkip => (l, Ok FSkip)
| Ok (PLegacyPutString length) =>
(with_state (SLegacyPrintString length 0) l, Ok FSkip)
end.

Definition feed_length (l : frame_layer) (i : nat) (byte : Z)
: run (frame_layer * result FrameOutput FrameError) :=
if negb (Z.land byte 0xc0 =? 0xc0) then Val (l, Err (LengthEncoding i byte))
else
b ← slice_set (length_bytes l) i byte;
let l := with_length b l in
if decide (i = 3)%nat
then Val (with_state (SPacketHeader 0 (sextets_length b)) l, Ok FSkip)
else Val (with_state (SLength (i + 1)) l, Ok FSkip).

(** One COBS event while the four type bytes are collected. *)
Definition header_event (l : frame_layer) (i : nat) (payload_len : Z) (ev : CobsState)
: run (frame_layer * result FrameOutput FrameError) :=
match ev with
| CSkip => Val (l, Ok FSkip)
| CByte byte =>
let l := with_state (SPacketHeader (i + 1) payload_len) l in
b ← slice_set (header_bytes l) i byte;
let l := with_crc (hasher_write_u8 (fl_crc l) byte) (with_header b l) in
if decide (i = 3)%nat then
  match decode_header_bytes l payload_len with
  | Err e => Val (l, Err e)
  | Ok h => Val (with_state (SPacketBody (i + 1) h) l, Ok (FHeader h))
  end
else Val (l, Ok FSkip)
| CFinished => Val (l, Err (HeaderCutoff (header_bytes l) i))
end.

Definition feed_header (l : frame_layer) (i : nat) (payload_len byte : Z)
: run (frame_layer * result FrameOutput FrameError) :=
let '(c, r) := cobs_poll (fl_cobs l) byte in
let l := with_cobs c l in
match r with
| Err e => Val (l, Err (ECobs e))
| Ok ev => header_event l i payload_len ev
end.

(** One COBS event while the payload and the CRC are collected. *)
Definition body_event (l : frame_layer) (i : nat) (h : FrameHeader) (ev : CobsState)
: run (frame_layer * result FrameOutput FrameError) :=
match ev with
| CSkip => Val (l, Ok FSkip)
| CByte byte =>
let l := with_state (SPacketBody (i + 1) h) l in
let packet_finishes_at_index := 4 + payload_len h in
if Z.of_nat i <? packet_finishes_at_index then
  Val (with_crc (hasher_write_u8 (fl_crc l) byte) l, Ok (FPayload byte))
else if Z.of_nat i <? packet_finishes_at_index + 4 then
  let offset := Z.to_nat (Z.of_nat i - packet_finishes_at_index) in
  b ← slice_set (crc_bytes l) offset byte;
  Val (with_crc_bytes b l, Ok FSkip)
else Val (l, Err (Overrun h byte))
| CFinished =>
let crc := hasher_finalize (fl_crc l) in
let l := with_crc hasher_new l in
let expected_crc_begin := 4 + payload_len h in
let expected_cobs_payload_len := 4 + payload_len h + 4 in
if Z.of_nat i <? expected_crc_begin then Val (l, Err (PayloadCutoff h i))
else if Z.of_nat i <? expected_cobs_payload_len
then Val (l, Err (CrcCutoff (crc_bytes l) i))
else
  let frame_crc := u32_from_le_bytes (crc_bytes l) in
  if negb (frame_crc =? crc) then Val (l, Err (InvalidCRC crc frame_crc))
  else Val (with_state SPreamble l, Ok FFinished)
end.

Definition feed_body (l : frame_layer) (i : nat) (h : FrameHeader) (byte : Z)
: run (frame_layer * result FrameOutput FrameError) :=
let '(c, r) := cobs_poll (fl_cobs l) byte in
let l := with_cobs c l in
match r with
| Err e => Val (l, Err (ECobs e))
| Ok ev => body_event l i h ev
end.

Definition feed_print_string (l : frame_layer) (length index byte : Z)
: frame_layer * result FrameOutput FrameError :=
let next_index := index + 1 in
if length <=? next_index
then (with_state SPreamble l, Ok (FLegacyPrintStringByte length byte))
else (with_state (SLegacyPrintString length next_index) l,
    Ok (FLegacyPrintStringByte length byte)).

(** [FrameLayer::feed] *)
Definition frame_feed (l : frame_layer) (byte : Z)
: run (frame_layer * result FrameOutput FrameError) :=
match decode_state l with
| SLegacy => Val (l, Ok FLegacy)
| SPreamble => Val (feed_preamble l byte)
| SLength i => feed_length l i byte
| SPacketHeader i n => feed_header l i n byte
| SPacketBody i h => feed_body l i h byte
| SLegacyPrintString length index => Val (feed_print_string l length index byte)
end.

(** Feeding a byte string, stopping at the first error: the outputs, the
error if there was one, and the final state. *)
Fixpoint frame_feed_all (l : frame_layer) (bs : list Z)
: run (frame_layer * list FrameOutput * option FrameError) :=
match bs with
| [] => Val (l, [], None)
| b :: bs =>
'(l, r) ← frame_feed l b;
match r with
| Err e => Val (l, [], Some e)
| Ok o =>
  '(l, os, e) ← frame_feed_all l bs;
  Val (l, o :: os, e)
end
end.
End with_crc.
End FrameLayer.
Export FrameLayer.

(** The decoder only between frames: what [frame_new] and [frame_reset]
    establish and what a completed frame restores (the three byte arrays keep
    their size but not their contents). *)
Record between_frames `{Crc} (xor : Z) (l : frame_layer) : Prop := {
  bf_preamble : preamble_layer l = Initial;
  bf_cobs : fl_cobs l = cobs_new xor;
  bf_length : length (length_bytes l) = 4%nat;
  bf_header : length (header_bytes l) = 4%nat;
  bf_crc_bytes : length (crc_bytes l) = 4%nat;
  bf_state : decode_state l = SPreamble;
  bf_crc : fl_crc l = hasher_new;
}.
