(* ===== verification/Cobs.v ===== *)
(** The COBS decoder inverts the COBS encoder: lemmas that join [Encode] and
    [Decode] below the frame layer. *)
From S2P Require Import Prelude Words Messages Encode Decode.

(** Polling a byte string; [None] when a poll is an error. *)
Fixpoint cobs_run (d : cobs_decoder) (bs : list Z) : option (cobs_decoder * list CobsState) :=
  match bs with
  | [] => Some (d, [])
  | b :: bs =>
    match cobs_poll d b with
    | (d, Ok ev) => '(d, evs) ← cobs_run d bs; Some (d, ev :: evs)
    | (_, Err _) => None
    end
  end.

(** The events that carry information. *)
Definition strip_skips (evs : list CobsState) : list CobsState :=
  filter (fun e => e <> CSkip) evs.

Definition masked (xor : Z) (bs : list Z) : list Z := map (fun y => Z.lxor y xor) bs.

Lemma masked_app xor a b : masked xor (a ++ b) = masked xor a ++ masked xor b.
Proof. apply map_app. Qed.

Lemma strip_skips_app a b : strip_skips (a ++ b) = strip_skips a ++ strip_skips b.
Proof. apply list.filter_app. Qed.
Lemma strip_skips_bytes l : strip_skips (map CByte l) = map CByte l.
Proof.
  induction l as [|b l IH]; [done|]. unfold strip_skips in *. cbn [map].
  rewrite filter_cons_True by done. by rewrite IH.
Qed.

Lemma cobs_run_app d a b :
  cobs_run d (a ++ b) =
  ('(d1, e1) ← cobs_run d a; '(d2, e2) ← cobs_run d1 b; Some (d2, e1 ++ e2)).
Proof.
  revert d. induction a as [|x a IH]; intros d; cbn.
  - by destruct (cobs_run d b) as [[]|].
  - destruct (cobs_poll d x) as [d' [ev|]]; [|done]. rewrite IH.
    destruct (cobs_run d' a) as [[d1 e1]|]; cbn; [|done].
    by destruct (cobs_run d1 b) as [[d2 e2]|].
Qed.

(** Inside a block: every byte is nonzero and the code has not been reached. *)
Lemma cobs_run_block p loc k c xor :
  Forall (fun b => 0 < b < 256) p -> 0 <= k -> k + Z.of_nat (length p) < c ->
  cobs_run (MkCobs loc k c xor) (masked xor p) =
  Some (MkCobs loc (k + Z.of_nat (length p)) c xor, map CByte p).
Proof.
  intros Hp. revert k. induction Hp as [|b p Hb Hp IH]; intros k Hk Hc.
  - cbn. by rewrite Z.add_0_r.
  - cbn [length] in Hc. cbn [masked map cobs_run]. unfold cobs_poll. cbn.
    rewrite lxor_cancel.
    destruct (Z.eqb_spec c 0); [lia|].
    destruct (Z.ltb_spec (k + 1) c); [|lia].
    destruct (Z.eqb_spec b 0); [lia|].
    change (map (fun y => Z.lxor y xor) p) with (masked xor p).
    rewrite IH by lia. cbn [length]. cbn. do 3 f_equal. lia.
Qed.

(** The decoder at the start of a block: before the first code ([prev = 0]) or
    after a block whose code was [prev]. *)
Record at_boundary (xor prev : Z) (d : cobs_decoder) : Prop := {
  ab_loc : frame_loc d = 0;
  ab_xor : cobs_xor d = xor;
  ab_jump : last_jump d = prev;
  ab_since : bytes_since_last_jump d = (if prev =? 0 then 0 else prev - 1);
  ab_prev : 0 <= prev < 256;
}.

(** What the next code byte yields: the zero that the previous block implied. *)
Definition implied (prev : Z) : list CobsState :=
  if (prev =? 0) || (prev =? 255) then [] else [CByte 0].

(** A code byte and its block. *)
Lemma cobs_run_code d xor prev c p :
  at_boundary xor prev d -> 0 < c < 256 ->
  Forall (fun b => 0 < b < 256) p -> c = Z.of_nat (length p) + 1 ->
  exists evs, cobs_run d (masked xor (c :: p)) = Some (MkCobs 0 (c - 1) c xor, evs) /\
    strip_skips evs = implied prev ++ map CByte p.
Proof.
  intros [Hloc Hx Hj Hs Hprev] Hc Hp Hlen. destruct d as [loc since jump x]. cbn in *.
  subst loc x jump since c.
  unfold cobs_poll. cbn. rewrite lxor_cancel.
  change (map (fun y => Z.lxor y xor) p) with (masked xor p).
  unfold implied. destruct (Z.eqb_spec prev 0) as [->|Hne].
  - destruct (Z.eqb_spec (Z.of_nat (length p) + 1) 0); [lia|]. cbn.
    rewrite cobs_run_block by (done || lia). eexists. split.
    + cbn. do 3 f_equal. lia.
    + unfold strip_skips. rewrite filter_cons_False by (clear; naive_solver).
      apply strip_skips_bytes.
  - destruct (Z.ltb_spec (prev - 1 + 1) prev); [lia|].
    destruct (Z.eqb_spec (Z.of_nat (length p) + 1) 0); [lia|].
    destruct (Z.eqb_spec prev 255) as [->|]; cbn.
    + rewrite cobs_run_block by (done || lia). eexists. split.
      * cbn. do 3 f_equal. lia.
      * unfold strip_skips. rewrite filter_cons_False by (clear; naive_solver).
        apply strip_skips_bytes.
    + destruct (Z.ltb_spec prev 255); [|lia].
      rewrite cobs_run_block by (done || lia). eexists. split.
      * cbn. do 3 f_equal. lia.
      * unfold strip_skips. rewrite filter_cons_True by done.
        f_equal. apply strip_skips_bytes.
Qed.

Lemma after_code_boundary c xor :
  0 < c < 256 -> at_boundary xor c (MkCobs 0 (c - 1) c xor).
Proof. intros. split; cbn; [done..| |lia]. by destruct (Z.eqb_spec c 0); [lia|]. Qed.

(** The last block and the terminator. *)
Lemma cobs_run_finish d xor prev p :
  at_boundary xor prev d -> (length p <= 253)%nat -> Forall (fun b => 0 < b < 256) p ->
  exists evs, cobs_run d (masked xor (cobs_finish p)) = Some (cobs_new xor, evs) /\
    strip_skips evs = implied prev ++ map CByte p ++ [CFinished] /\
    list.last evs = Some CFinished.
Proof.
  intros Hd Hp Hnz. unfold cobs_finish.
  destruct (cobs_run_code d xor prev (Z.of_nat (length p) + 1) p Hd) as (evs & Hrun & Hevs);
    [lia|done|done|].
  rewrite app_comm_cons, masked_app, cobs_run_app, Hrun. cbn.
  unfold cobs_poll. cbn. rewrite Z.lxor_nilpotent.
  destruct (Z.eqb_spec (Z.of_nat (length p) + 1) 0); [lia|].
  destruct (Z.ltb_spec (Z.of_nat (length p) + 1 - 1 + 1) (Z.of_nat (length p) + 1)); [lia|].
  cbn. eexists. split; [done|]. split; [|apply last_snoc].
  rewrite strip_skips_app, Hevs, <- app_assoc. done.
Qed.

(** Decoding what the encoder emits yields the data and [Finished], and leaves
    the decoder as new. *)
Lemma cobs_run_encode_from data p d xor prev :
  at_boundary xor prev d -> (length p <= 253)%nat ->
  Forall (fun b => 0 < b < 256) p -> bytes data ->
  exists evs, cobs_run d (masked xor (cobs_encode_from p data)) = Some (cobs_new xor, evs) /\
    strip_skips evs = implied prev ++ map CByte (p ++ data) ++ [CFinished] /\
    list.last evs = Some CFinished.
Proof.
  intros Hd Hp Hnz Hdata. revert p d prev Hd Hp Hnz.
  induction Hdata as [|x data Hx Hdata IH]; intros p d prev Hd Hp Hnz.
  - rewrite app_nil_r. by apply cobs_run_finish.
  - cbn [cobs_encode_from]. unfold cobs_step, fits in *.
    assert (forall c blk, 0 < c < 256 -> Forall (fun b => 0 < b < 256) blk ->
      c = Z.of_nat (length blk) + 1 -> map CByte (p ++ x :: data) =
        map CByte blk ++ implied c ++ map CByte data ->
      exists evs, cobs_run d (masked xor ((c :: blk) ++ cobs_encode_from [] data)) =
          Some (cobs_new xor, evs) /\
        strip_skips evs = implied prev ++ map CByte (p ++ x :: data) ++ [CFinished] /\
        list.last evs = Some CFinished) as Hblk.
    { intros c blk Hc Hb Hl Hsplit.
      destruct (cobs_run_code d xor prev c blk Hd Hc Hb Hl) as (e1 & Hr1 & He1).
      destruct (IH [] _ c (after_code_boundary c xor Hc)) as (e2 & Hr2 & He2 & Hl2);
        [cbn; lia|done|].
      rewrite masked_app, cobs_run_app, Hr1. cbn. rewrite Hr2. cbn.
      eexists. split; [done|]. split; [|by rewrite last_app, Hl2].
      rewrite strip_skips_app, He1, He2, Hsplit, <- !app_assoc. done. }
    destruct (decide _) as [Hfull|]; destruct (Z.eqb_spec x 0) as [->|].
    + apply (Hblk 254); [lia|done|lia|]. by rewrite map_app.
    + apply (Hblk 255); [lia| |rewrite length_app; cbn; lia|].
      * apply Forall_app_2; [done|]. by apply Forall_cons_2; [lia|].
      * cbn. rewrite <- map_app, <- app_assoc. done.
    + apply (Hblk (Z.of_nat (length p) + 1)); [lia|done|lia|].
      rewrite map_app. unfold implied.
      destruct (Z.eqb_spec (Z.of_nat (length p) + 1) 0); [lia|].
      destruct (Z.eqb_spec (Z.of_nat (length p) + 1) 255); [lia|]. done.
    + cbn [app]. destruct (IH (p ++ [x]) d prev Hd) as (evs & Hr & He & Hl).
      * rewrite length_app. cbn. lia.
      * apply Forall_app_2; [done|]. by apply Forall_cons_2; [lia|].
      * exists evs. split; [done|]. by rewrite <- app_assoc in He.
Qed.

Lemma cobs_new_boundary xor : at_boundary xor 0 (cobs_new xor).
Proof. by split. Qed.

(** C9: the buffered encoder implements COBS.  From any 255-byte buffer,
    whatever it contains, writing any bytes and finishing never panics, and
    what it hands out, joined, is the masked COBS encoding of the data; reading
    it back with the decoder yields the data, one [Finished] at the end, and a
    decoder as new. *)
Theorem encoder_refines_cobs buffer xor data :
  length buffer = 255%nat -> bytes data ->
  exists e e' out tail evs,
    encoder_with_buffer_xor buffer xor = Some e /\
    encoder_write_all e data = Val (e', out) /\ encoder_finish e' = Val tail /\
    out ++ tail = masked xor (cobs_encode data) /\
    cobs_run (cobs_new xor) (out ++ tail) = Some (cobs_new xor, evs) /\
    strip_skips evs = map CByte data ++ [CFinished].
Proof.
  intros Hb Hd. destruct (encoder_new_ok buffer xor Hb) as (e & He & Hok & Hp & Hx).
  destruct (encoder_write_all_spec data e Hok Hd) as (e' & out & Hw & Hok' & Hx' & Hfin).
  pose proof (Hfin _ (encoder_finish_spec e' Hok')) as Hout. rewrite Hp, Hx in Hout.
  destruct (cobs_run_encode_from data [] (cobs_new xor) xor 0 (cobs_new_boundary _))
    as (evs & Hrun & Hstrip & _); [cbn; lia|done|done|].
  eexists e, e', out, _, evs. split_and!; [done|done|by apply encoder_finish_spec|done| |done].
  by rewrite Hout.
Qed.

Lemma encoder_refines_cobs_witness :
  exists e e' out tail evs,
    encoder_with_buffer_xor (replicate 255 7) 0x55 = Some e /\
    encoder_write_all e [1; 0; 2] = Val (e', out) /\ encoder_finish e' = Val tail /\
    out ++ tail = masked 0x55 (cobs_encode [1; 0; 2]) /\
    cobs_run (cobs_new 0x55) (out ++ tail) = Some (cobs_new 0x55, evs) /\
    strip_skips evs = map CByte [1; 0; 2] ++ [CFinished].
Proof. apply (encoder_refines_cobs (replicate 255 7) 0x55 [1; 0; 2]); decide_now. Defined.
