(* ===== verification/Framing.v ===== *)
(** Whole frames.  [wire_encode] is the framing half of
    [host/okdude/src/upload.rs]'s [encode] (the message is already serialised);
    the theorems say that the decoder of [Decode] reads back exactly the frames
    it writes, one after the other, and that a decoder driven the way every
    client drives it (reset after an error) never panics. *)
From S2P Require Import Prelude Words Messages Crc Encode Decode Cobs.

(** ** The host's encoder *)

Definition wire_encode `{Crc} (message_type : MessageType) (serialized_message : list Z)
  : run (list Z) :=
  let payload_len := Z.of_nat (length serialized_message) in
  let message_bytes :=
    u32_to_le_bytes (message_type_to_u32 message_type) ++ serialized_message in
  let crc32 := crc32_hash message_bytes in
  let message_bytes := message_bytes ++ u32_to_le_bytes crc32 in
  length_bytes ← unwrap (encode_length payload_len);
  let buf_enc := MkBuffered (replicate 255 0) COBS_XOR in
  frame_encoder ← unwrap (buffered_frame buf_enc);
  '(frame_encoder, out) ← encoder_write_all frame_encoder message_bytes;
  tail ← encoder_finish frame_encoder;
  Val (PREAMBLE_BYTES ++ length_bytes ++ out ++ tail).

(** ** Decoder steps as COBS events *)

Section events.
Context `{CrcLaws}.

Definition packet_event (l : frame_layer) (ev : CobsState)
: run (frame_layer * result FrameOutput FrameError) :=
match decode_state l with
| SPacketHeader i n => header_event l i n ev
| SPacketBody i h => body_event l i h ev
| _ => Panic
end.

Fixpoint events_all (l : frame_layer) (evs : list CobsState)
: run (frame_layer * list FrameOutput * option FrameError) :=
match evs with
| [] => Val (l, [], None)
| ev :: evs =>
  '(l, r) ← packet_event l ev;
  match r with
  | Err e => Val (l, [], Some e)
  | Ok o => '(l, os, e) ← events_all l evs; Val (l, o :: os, e)
  end
end.

(** The outputs a client acts on. *)
Definition visible (os : list FrameOutput) : list FrameOutput :=
filter (fun o => o <> FSkip) os.

Lemma visible_app a b : visible (a ++ b) = visible a ++ visible b.
Proof. apply list.filter_app. Qed.

Lemma packet_event_with_cobs c l ev l' r :
packet_event l ev = Val (l', r) ->
packet_event (with_cobs c l) ev = Val (with_cobs c l', r).
Proof.
unfold packet_event. destruct l as [p cb lb hb crb st h]. cbn.
destruct st; try done; destruct ev; cbn; unfold slice_set, decode_header_bytes; cbn;
  repeat case_decide; cbn; try destruct (message_type_try_from _); cbn;
  repeat case_match; intros; by simplify_eq/=.
Qed.

Lemma frame_feed_event l b c ev l' r :
cobs_poll (fl_cobs l) b = (c, Ok ev) -> packet_event l ev = Val (l', r) ->
frame_feed l b = Val (with_cobs c l', r).
Proof.
intros Hp He. apply (packet_event_with_cobs c) in He.
unfold packet_event in He. unfold frame_feed.
destruct l as [p cb lb hb crb st h]. cbn in *.
destruct st; try done; unfold feed_header, feed_body; cbn; by rewrite Hp.
Qed.

Lemma feed_all_events bs l c evs l' os :
cobs_run (fl_cobs l) bs = Some (c, evs) -> events_all l evs = Val (l', os, None) ->
frame_feed_all l bs = Val (with_cobs c l', os, None).
Proof.
revert l evs os l'. induction bs as [|b bs IH]; intros l evs os l' Hr He.
- injection Hr as <- <-. injection He as <- <-. by destruct l.
- cbn in Hr. destruct (cobs_poll (fl_cobs l) b) as [d [ev|]] eqn:Hp; [|done].
  destruct (cobs_run d bs) as [[d' evs']|] eqn:Hr'; [|done].
  injection Hr as <- <-. cbn in He.
  destruct (packet_event l ev) as [[l1 [o|]]|] eqn:Hev; [|done..]. cbn in He.
  destruct (events_all l1 evs') as [[[l2 os2] e2]|] eqn:He2; [|done].
  injection He as <- <- ->.
  cbn. rewrite (frame_feed_event _ _ _ _ _ _ Hp Hev). cbn.
  assert (events_all (with_cobs d l1) evs' = Val (with_cobs d l2, os2, None)) as Hc.
  { clear -He2. revert l1 l2 os2 He2. induction evs' as [|e evs' IH]; intros l1 l2 os2 He.
    - by injection He as <- <-.
    - cbn in He |- *. destruct (packet_event l1 e) as [[l3 r]|] eqn:Hev; [|done].
      rewrite (packet_event_with_cobs _ _ _ _ _ Hev). cbn in He |- *.
      destruct r; [|done].
      destruct (events_all l3 evs') as [[[l4 os4] e4]|] eqn:Hn; [|done].
      injection He as <- <- ->. rewrite (IH _ _ _ Hn). done. }
  rewrite (IH (with_cobs d l1) evs' os2 (with_cobs d l2)); [|by destruct l1|done].
  cbn. by destruct l2.
Qed.

Lemma packet_event_skip l :
(exists i n, decode_state l = SPacketHeader i n) \/
(exists i h, decode_state l = SPacketBody i h) ->
packet_event l CSkip = Val (l, Ok FSkip).
Proof. unfold packet_event. by intros [(i & n & ->)|(i & n & ->)]. Qed.

(** Skips only add skips, as long as another event follows them. *)
Lemma events_all_strip evs l l' os :
events_all l (strip_skips evs) = Val (l', os, None) ->
list.last evs <> Some CSkip ->
exists os', events_all l evs = Val (l', os', None) /\ visible os' = visible os.
Proof.
revert l os. induction evs as [|ev evs IH]; intros l os He Hlast; [eauto|].
assert (list.last evs <> Some CSkip) as Hl.
{ destruct evs; [done|]. by rewrite last_cons_cons in Hlast. }
unfold strip_skips in He. destruct (decide (ev = CSkip)) as [->|Hne].
- rewrite filter_cons_False in He by naive_solver.
  destruct (IH l os He Hl) as (os' & He' & Hv).
  exists (FSkip :: os'). cbn [events_all]. rewrite packet_event_skip.
  + rewrite run_bind_Val, He', run_bind_Val. split; [done|].
    unfold visible in *. by rewrite filter_cons_False by naive_solver.
  + destruct evs as [|ev evs]; [done|]. cbn in He'. unfold packet_event in He'.
    destruct (decode_state l); naive_solver.
- rewrite filter_cons_True in He by done. cbn in He |- *.
  destruct (packet_event l ev) as [[l1 [o|]]|]; [|done..]. cbn in He |- *.
  fold (strip_skips evs) in He.
  destruct (events_all l1 (strip_skips evs)) as [[[l2 os2] e2]|] eqn:H2; [|done].
  injection He as <- <- ->. destruct (IH l1 os2 H2 Hl) as (os' & -> & Hv).
  rewrite run_bind_Val. eexists. split; [done|]. unfold visible in *.
  rewrite !filter_cons. case_decide; [by rewrite Hv|done].
Qed.

Lemma events_all_app l a b l1 o1 :
events_all l a = Val (l1, o1, None) ->
events_all l (a ++ b) =
('(l2, o2, e) ← events_all l1 b; Val (l2, o1 ++ o2, e)).
Proof.
revert l o1. induction a as [|ev a IH]; intros l o1 Ha.
- injection Ha as <- <-. cbn. by destruct (events_all l b) as [[[]]|].
- cbn in Ha |- *. destruct (packet_event l ev) as [[l2 [o|]]|]; [|done..].
  cbn in Ha |- *. destruct (events_all l2 a) as [[[l3 o3] e3]|] eqn:H3; [|done].
  injection Ha as <- <- ->. rewrite (IH l2 o3 H3).
  by destruct (events_all l3 b) as [[[]]|].
Qed.

Lemma events_last_finished l evs l' os :
  events_all l (evs ++ [CFinished]) = Val (l', os, None) ->
  exists os0, os = os0 ++ [FFinished].
Proof.
  revert l os. induction evs as [|ev evs IH]; intros l os; cbn [app events_all].
  - unfold packet_event. destruct (decode_state l); try done; cbn [header_event body_event].
    repeat case_match; intros; simplify_eq/=. by exists [].
  - destruct (packet_event l ev) as [[l1 [o|]]|]; [|done..]. rewrite run_bind_Val.
    destruct (events_all l1 (evs ++ [CFinished])) as [[[l2 o2] e2]|] eqn:H2; [|done].
    rewrite run_bind_Val. intros [= -> <- ->]. destruct (IH _ _ H2) as [os0 ->].
    by exists (o :: os0).
Qed.

(** ** The parts of a packet *)

Definition body_state (cb : cobs_decoder) (lb hb crb : list Z) (i : nat)
  (h : FrameHeader) (seen : list Z) : frame_layer :=
MkLayer Initial cb lb hb crb (SPacketBody i h) (hashed seen).

Definition header_state (cb : cobs_decoder) (lb hb crb : list Z) (i : nat)
  (n : Z) (seen : list Z) : frame_layer :=
MkLayer Initial cb lb hb crb (SPacketHeader i n) (hashed seen).

Lemma header_step cb lb hb crb i n seen b :
(i < 3)%nat -> length hb = 4%nat ->
packet_event (header_state cb lb hb crb i n seen) (CByte b) =
Val (header_state cb lb (<[i := b]> hb) crb (i + 1) n (seen ++ [b]), Ok FSkip).
Proof.
intros Hi Hl. unfold packet_event, header_event, header_state. cbn.
rewrite slice_set_Val, run_bind_Val by lia. rewrite decide_False by lia.
rewrite <- hashed_snoc. done.
Qed.

Lemma header_last_step cb lb hb crb n seen b t :
length hb = 4%nat ->
u32_from_le_bytes (<[3%nat := b]> hb) = message_type_to_u32 t ->
packet_event (header_state cb lb hb crb 3 n seen) (CByte b) =
Val (body_state cb lb (<[3%nat := b]> hb) crb 4 (MkHeader t n) (seen ++ [b]),
     Ok (FHeader (MkHeader t n))).
Proof.
intros Hl Ht. unfold packet_event, header_event, header_state. cbn.
rewrite slice_set_Val, run_bind_Val by lia. rewrite decide_True by done.
unfold decode_header_bytes. cbn [header_bytes with_crc with_header].
rewrite Ht, message_type_roundtrip. unfold body_state.
rewrite <- hashed_snoc. done.
Qed.

Lemma events_header cb lb hb crb n t :
length hb = 4%nat ->
exists os hb',
  events_all (header_state cb lb hb crb 0 n [])
    (map CByte (u32_to_le_bytes (message_type_to_u32 t))) =
  Val (body_state cb lb hb' crb 4 (MkHeader t n)
         (u32_to_le_bytes (message_type_to_u32 t)), os, None) /\
  visible os = [FHeader (MkHeader t n)] /\ length hb' = 4%nat.
Proof.
intros Hhb. pose proof (u32_le_roundtrip _ (message_type_u32 t)) as Hrt.
destruct hb as [|h0 [|h1 [|h2 [|h3 [|]]]]]; try done.
unfold u32_to_le_bytes in *.
pose proof (length_le_bytes 4 (message_type_to_u32 t)) as Hl.
destruct (le_bytes 4 (message_type_to_u32 t)) as [|t0 [|t1 [|t2 [|t3 [|]]]]];
  try done.
eexists _, [t0; t1; t2; t3]. cbn [map events_all]. split; [|split; [|done]].
- do 3 (rewrite header_step by (cbn; lia); rewrite run_bind_Val).
  erewrite header_last_step by done. done.
- done.
Qed.

Lemma events_payload cb lb hb crb h seen i payload :
Z.of_nat i + Z.of_nat (length payload) <= 4 + payload_len h ->
events_all (body_state cb lb hb crb i h seen) (map CByte payload) =
Val (body_state cb lb hb crb (i + length payload) h (seen ++ payload),
     map FPayload payload, None).
Proof.
revert i seen. induction payload as [|b payload IH]; intros i seen Hi.
- cbn. by rewrite Nat.add_0_r, app_nil_r.
- cbn [length] in Hi. cbn [map events_all]. unfold packet_event, body_event. cbn.
  destruct (Z.ltb_spec (Z.of_nat i) (4 + payload_len h)); [|lia]. cbn.
  unfold with_crc, with_state. cbn. rewrite hashed_snoc.
  fold (body_state cb lb hb crb (i + 1) h (seen ++ [b])).
  rewrite IH by lia. cbn. rewrite <- app_assoc. cbn.
  by replace (i + 1 + length payload)%nat with (i + S (length payload))%nat by lia.
Qed.

Lemma events_crc cb lb hb crb h seen i crc :
length crb = 4%nat -> length crc = 4%nat -> Z.of_nat i = 4 + payload_len h ->
exists os,
  events_all (body_state cb lb hb crb i h seen) (map CByte crc) =
  Val (body_state cb lb hb crc (i + 4) h seen, os, None) /\ visible os = [].
Proof.
intros Hcrb Hcrc Hi.
destruct crb as [|a0 [|a1 [|a2 [|a3 [|]]]]]; try done.
destruct crc as [|c0 [|c1 [|c2 [|c3 [|]]]]]; try done.
assert (forall k l' b, (k < 4)%nat -> length l' = 4%nat ->
  packet_event (body_state cb lb hb l' (i + k) h seen) (CByte b) =
  Val (body_state cb lb hb (<[k := b]> l') (i + k + 1) h seen, Ok FSkip)) as Hstep.
{ intros k l' b Hk Hl. unfold packet_event, body_event, body_state. cbn.
  destruct (Z.ltb_spec (Z.of_nat (i + k)) (4 + payload_len h)); [lia|].
  destruct (Z.ltb_spec (Z.of_nat (i + k)) (4 + payload_len h + 4)); [|lia].
  replace (Z.to_nat (Z.of_nat (i + k) - (4 + payload_len h))) with k by lia.
  by rewrite slice_set_Val by lia. }
assert (forall k l' b, (k < 4)%nat -> length l' = 4%nat -> forall i1 i2,
  i1 = (i + k)%nat -> i2 = (i + k + 1)%nat ->
  packet_event (body_state cb lb hb l' i1 h seen) (CByte b) =
  Val (body_state cb lb hb (<[k := b]> l') i2 h seen, Ok FSkip)) as Hst.
{ intros k l' b Hk Hl i1 i2 -> ->. by apply Hstep. }
exists [FSkip; FSkip; FSkip; FSkip]. cbn [map events_all]. split; [|done].
rewrite (Hst 0%nat [a0; a1; a2; a3] c0 ltac:(lia) eq_refl i (i + 1)%nat), run_bind_Val by lia.
rewrite (Hst 1%nat [c0; a1; a2; a3] c1 ltac:(lia) eq_refl _ (i + 2)%nat), run_bind_Val by lia.
rewrite (Hst 2%nat [c0; c1; a2; a3] c2 ltac:(lia) eq_refl _ (i + 3)%nat), run_bind_Val by lia.
rewrite (Hst 3%nat [c0; c1; c2; a3] c3 ltac:(lia) eq_refl _ (i + 4)%nat), run_bind_Val by lia.
done.
Qed.

Lemma events_finish cb lb hb crc h seen i :
Z.of_nat i = 4 + payload_len h + 4 ->
u32_from_le_bytes crc = hasher_finalize (hashed seen) ->
events_all (body_state cb lb hb crc i h seen) [CFinished] =
Val (MkLayer Initial cb lb hb crc SPreamble hasher_new, [FFinished], None).
Proof.
intros Hi Hcrc. cbn [events_all]. unfold packet_event, body_event.
cbn -[u32_from_le_bytes hashed].
destruct (Z.ltb_spec (Z.of_nat i) (4 + payload_len h)); [lia|].
destruct (Z.ltb_spec (Z.of_nat i) (4 + payload_len h + 4)); [lia|].
rewrite Hcrc, Z.eqb_refl. done.
Qed.

(** A whole packet, from its first COBS byte to the terminator. *)
Lemma events_packet cb lb hb crb n t payload crc :
length hb = 4%nat -> length crb = 4%nat -> length crc = 4%nat ->
n = Z.of_nat (length payload) ->
u32_from_le_bytes crc =
  hasher_finalize (hashed (u32_to_le_bytes (message_type_to_u32 t) ++ payload)) ->
exists os hb',
  events_all (header_state cb lb hb crb 0 n [])
    (map CByte (u32_to_le_bytes (message_type_to_u32 t) ++ payload ++ crc) ++ [CFinished]) =
  Val (MkLayer Initial cb lb hb' crc SPreamble hasher_new, os, None) /\
  visible os = FHeader (MkHeader t n) :: map FPayload payload ++ [FFinished] /\
  length hb' = 4%nat.
Proof.
intros Hhb Hcrb Hcrc Hn Hfin.
destruct (events_header cb lb hb crb n t Hhb) as (o1 & hb' & H1 & Hv1 & Hhb').
pose proof (events_payload cb lb hb' crb (MkHeader t n)
  (u32_to_le_bytes (message_type_to_u32 t)) 4 payload) as H2.
destruct (events_crc cb lb hb' crb (MkHeader t n)
  (u32_to_le_bytes (message_type_to_u32 t) ++ payload) (4 + length payload) crc Hcrb Hcrc)
  as (o3 & H3 & Hv3); [cbn; lia|].
pose proof (events_finish cb lb hb' crc (MkHeader t n)
  (u32_to_le_bytes (message_type_to_u32 t) ++ payload) (4 + length payload + 4)) as H4.
exists (o1 ++ map FPayload payload ++ o3 ++ [FFinished]), hb'.
rewrite !map_app, <- !app_assoc.
rewrite (events_all_app _ _ _ _ _ H1), (events_all_app _ _ _ _ _ (H2 ltac:(cbn; lia))).
rewrite (events_all_app _ _ _ _ _ H3), H4 by (done || cbn; lia).
split; [done|]. split; [|done].
rewrite !visible_app, Hv1, Hv3. unfold visible at 1. cbn [app]. do 2 f_equal.
clear. induction payload as [|b p IH]; [done|]. cbn [map].
rewrite filter_cons_True by done. by rewrite IH.
Qed.

(** ** The preamble and the length field *)

Lemma feed_all_app l a b l1 o1 :
frame_feed_all l a = Val (l1, o1, None) ->
frame_feed_all l (a ++ b) =
('(l2, o2, e) ← frame_feed_all l1 b; Val (l2, o1 ++ o2, e)).
Proof.
revert l o1. induction a as [|x a IH]; intros l o1 Ha.
- injection Ha as <- <-. cbn. by destruct (frame_feed_all l b) as [[[]]|].
- cbn in Ha |- *. destruct (frame_feed l x) as [[l2 [o|]]|]; [|done..].
  cbn in Ha |- *. destruct (frame_feed_all l2 a) as [[[l3 o3] e3]|] eqn:H3; [|done].
  injection Ha as <- <- ->. rewrite (IH l2 o3 H3).
  by destruct (frame_feed_all l3 b) as [[[]]|].
Qed.

Lemma feed_preamble_bytes cb lb hb crb h :
frame_feed_all (MkLayer Initial cb lb hb crb SPreamble h) PREAMBLE_BYTES =
Val (MkLayer Initial cb lb hb crb (SLength 0) h, [FSkip; FSkip; FSkip; FSkip], None).
Proof. done. Qed.

Lemma sextet_marked x : 0 <= x < 64 ->
Z.land (Z.lor x 0xc0) 0xc0 = 0xc0 /\ Z.land (Z.lor x 0xc0) (Z.lnot 0xc0) = x.
Proof.
intros Hx. change 0xc0 with (Z.shiftl 3 6).
assert (forall i, 6 <= i -> Z.testbit x i = false) as Hb.
{ intros i Hi. apply (fits_testbit 6); unfold fits; lia. }
assert (forall i, i < 6 -> Z.testbit (Z.shiftl 3 6) i = false) as Hc.
{ intros i Hi. by apply Z.shiftl_spec_low. }
split; apply Z.bits_inj'; intros i Hi;
  rewrite !Z.land_spec, ?Z.lnot_spec, !Z.lor_spec by done;
  destruct (Z.lt_ge_cases i 6) as [Hlt|Hge];
  rewrite ?(Hc i Hlt), ?(Hb i Hge); by destruct (Z.testbit _ _).
Qed.

Lemma sextets_length_spec n :
0 <= n < 2 ^ 24 ->
sextets_length (map (fun x => Z.lor x 0xc0) (length_sextets n)) = n.
Proof.
intros Hn. unfold sextets_length, length_sextets. cbn [map nth].
assert (forall x, Z.land (Z.lor (x mod 64) 0xc0) (Z.lnot 0xc0) = x mod 64) as Hu.
{ intros x. apply sextet_marked, Z.mod_pos_bound. lia. }
rewrite !Hu.
assert (forall k x, 0 <= k -> 0 <= x < 2 ^ k -> forall s, 0 <= s < 64 ->
  Z.lor x (Z.shiftl s k) = x + s * 2 ^ k) as Hadd.
{ intros. by apply lor_shift_add. }
pose proof (Z.mod_pos_bound n 64 ltac:(lia)).
pose proof (Z.mod_pos_bound (n / 64) 64 ltac:(lia)).
pose proof (Z.mod_pos_bound (n / 4096) 64 ltac:(lia)).
pose proof (Z.mod_pos_bound (n / 262144) 64 ltac:(lia)).
rewrite (Hadd 6), (Hadd 12), (Hadd 18) by lia.
assert (n / 4096 = n / 64 / 64) by (by rewrite Z.div_div by lia).
assert (n / 262144 = n / 64 / 64 / 64) by (by rewrite !Z.div_div by lia).
Z.to_euclidean_division_equations. lia.
Qed.

Lemma feed_length_bytes cb lb hb crb h n :
length lb = 4%nat -> 0 <= n < 2 ^ 24 ->
exists lb', length lb' = 4%nat /\
  frame_feed_all (MkLayer Initial cb lb hb crb (SLength 0) h)
    (map (fun x => Z.lor x 0xc0) (length_sextets n)) =
  Val (MkLayer Initial cb lb' hb crb (SPacketHeader 0 n) h,
       [FSkip; FSkip; FSkip; FSkip], None).
Proof.
intros Hlb Hn. destruct lb as [|l0 [|l1 [|l2 [|l3 [|]]]]]; try done.
pose proof (sextets_length_spec n Hn) as Hs.
assert (Forall (fun x => 0 <= x < 64) (length_sextets n)) as Hf.
{ unfold length_sextets. repeat constructor; apply Z.mod_pos_bound; lia. }
destruct (length_sextets n) as [|s0 [|s1 [|s2 [|s3 [|]]]]] eqn:Hls; try done.
decompose_Forall_hyps.
exists (map (fun x => Z.lor x 0xc0) [s0; s1; s2; s3]). split; [done|].
assert (forall l i x, decode_state l = SLength i -> 0 <= x < 64 ->
  length (length_bytes l) = 4%nat -> (i < 4)%nat ->
  frame_feed l (Z.lor x 0xc0) =
  let b := <[i := Z.lor x 0xc0]> (length_bytes l) in
  Val (if decide (i = 3)%nat
       then with_state (SPacketHeader 0 (sextets_length b)) (with_length b l)
       else with_state (SLength (i + 1)) (with_length b l), Ok FSkip)) as Hstep.
{ intros l i x Hst Hx Hl Hi. unfold frame_feed. rewrite Hst. unfold feed_length.
  rewrite (proj1 (sextet_marked x Hx)). cbn [negb Z.eqb].
  rewrite slice_set_Val, run_bind_Val by lia. by destruct (decide (i = 3)%nat). }
cbn [map frame_feed_all].
do 4 (erewrite Hstep by (cbn; done || lia); rewrite run_bind_Val; cbn -[sextets_length Z.lor]).
done.
Qed.
End events.

(** ** One frame *)

Lemma bytes_message `{CrcLaws} t payload crc :
  bytes payload -> bytes ((u32_to_le_bytes (message_type_to_u32 t) ++ payload) ++
    u32_to_le_bytes crc).
Proof.
  intros. repeat apply Forall_app_2; [apply le_bytes_bytes|done|apply le_bytes_bytes].
Qed.

(** What [wire_encode] writes, in terms of the COBS specification. *)
Lemma wire_encode_spec `{CrcLaws} t payload :
  bytes payload -> Z.of_nat (length payload) < 2 ^ 24 ->
  wire_encode t payload = Val (PREAMBLE_BYTES ++
    map (fun x => Z.lor x 0xc0) (length_sextets (Z.of_nat (length payload))) ++
    masked COBS_XOR (cobs_encode ((u32_to_le_bytes (message_type_to_u32 t) ++ payload) ++
      u32_to_le_bytes (crc32_hash (u32_to_le_bytes (message_type_to_u32 t) ++ payload))))).
Proof.
  intros Hb Hn. unfold wire_encode. rewrite encode_length_Some by lia. cbn [unwrap].
  rewrite run_bind_Val.
  destruct (encoder_new_ok (replicate 255 0) COBS_XOR) as (e & He & Hok & Hp & Hx); [done|].
  unfold buffered_frame. cbn [be_buffer be_xor]. rewrite He. cbn [unwrap].
  rewrite run_bind_Val.
  destruct (encoder_write_all_spec _ e Hok (bytes_message t payload
    (crc32_hash (u32_to_le_bytes (message_type_to_u32 t) ++ payload)) Hb))
    as (e' & out & Hw & Hok' & Hx' & Hfin).
  rewrite Hw, run_bind_Val, encoder_finish_spec by done. rewrite run_bind_Val.
  rewrite (Hfin _ (encoder_finish_spec e' Hok')), Hp, Hx. done.
Qed.

(** A whole frame: the decoder between frames reads it back. *)
Lemma decode_frame `{CrcLaws} l t payload :
  between_frames COBS_XOR l -> bytes payload -> Z.of_nat (length payload) < 2 ^ 24 ->
  exists wire l' os, wire_encode t payload = Val wire /\
    frame_feed_all l wire = Val (l', os, None) /\
    visible os = FHeader (MkHeader t (Z.of_nat (length payload))) ::
                   map FPayload payload ++ [FFinished] /\
    between_frames COBS_XOR l' /\ exists os0, os = os0 ++ [FFinished].
Proof.
  intros [Hpre Hcobs Hlb Hhb Hcrb Hst Hcrc] Hb Hn.
  destruct l as [pre cb lb hb crb st h]. cbn in *. subst pre cb st h.
  pose proof (wire_encode_spec t payload Hb Hn) as Hw.
  set (msg := u32_to_le_bytes (message_type_to_u32 t) ++ payload) in Hw.
  set (crc := u32_to_le_bytes (crc32_hash msg)) in Hw. unfold cobs_encode in Hw.
  assert (Hc : u32_from_le_bytes crc = hasher_finalize (hashed msg)).
  { unfold crc. rewrite crc32_hash_spec. unfold hashed.
    apply u32_le_roundtrip, hasher_finalize_u32. }
  destruct (feed_length_bytes (cobs_new COBS_XOR) lb hb crb hasher_new
    (Z.of_nat (length payload)) Hlb ltac:(lia)) as (lb' & Hlb' & Hlen).
  destruct (cobs_run_encode_from (msg ++ crc) [] (cobs_new COBS_XOR) COBS_XOR 0
    (cobs_new_boundary _)) as (evs & Hrun & Hstrip & Hlast);
    [cbn; lia|done|by apply bytes_message|].
  destruct (events_packet (cobs_new COBS_XOR) lb' hb crb (Z.of_nat (length payload))
    t payload crc Hhb Hcrb eq_refl eq_refl Hc) as (os & hb' & Hev & Hvis & Hhb').
  change (implied 0) with (@nil CobsState) in Hstrip. cbn [app] in Hstrip.
  rewrite app_assoc in Hev. fold msg in Hev. rewrite <- Hstrip in Hev.
  destruct (events_all_strip _ _ _ _ Hev) as (os' & Hall & Hvis'); [by rewrite Hlast|].
  assert (Hbody := feed_all_events _ (header_state (cobs_new COBS_XOR) lb' hb crb 0
    (Z.of_nat (length payload)) []) _ _ _ _ Hrun Hall).
  unfold header_state, hashed in Hbody. rewrite hasher_update_nil in Hbody.
  assert (exists os0, os' = os0 ++ [FFinished]) as [os0 Hos0].
  { apply last_Some in Hlast as [evs0 ->]. by eapply events_last_finished. }
  eexists _, _, _. split; [exact Hw|]. split; [|split; [|split]].
  - rewrite (feed_all_app _ _ _ _ _ (feed_preamble_bytes _ _ _ _ _)).
    rewrite (feed_all_app _ _ _ _ _ Hlen), Hbody. done.
  - rewrite !visible_app. rewrite Hvis', Hvis. done.
  - by split.
  - exists ([FSkip; FSkip; FSkip; FSkip] ++ [FSkip; FSkip; FSkip; FSkip] ++ os0).
    rewrite Hos0, <- !app_assoc. done.
Qed.

(** ** Streams of frames *)

(** The wire bytes of a sequence of messages, one frame after the other. *)
Fixpoint wire_encode_all `{Crc} (msgs : list (MessageType * list Z)) : run (list Z) :=
  match msgs with
  | [] => Val []
  | (t, p) :: msgs =>
    w ← wire_encode t p; ws ← wire_encode_all msgs; Val (w ++ ws)
  end.

(** The outputs the receiver of [(t, p)] acts on. *)
Definition frame_outputs (m : MessageType * list Z) : list FrameOutput :=
  FHeader (MkHeader m.1 (Z.of_nat (length m.2))) :: map FPayload m.2 ++ [FFinished].

(** A payload that fits the length field. *)
Definition payload_ok (m : MessageType * list Z) : Prop :=
  bytes m.2 /\ Z.of_nat (length m.2) < 2 ^ 24.

Lemma decode_frames `{CrcLaws} l msgs :
  between_frames COBS_XOR l -> Forall payload_ok msgs ->
  exists wire l' os, wire_encode_all msgs = Val wire /\
    frame_feed_all l wire = Val (l', os, None) /\
    visible os = msgs ≫= frame_outputs /\ between_frames COBS_XOR l'.
Proof.
  intros Hl Hm. revert l Hl. induction Hm as [|[t p] msgs [Hb Hn] Hm IH]; intros l Hl.
  - by exists [], l, [].
  - destruct (decode_frame l t p Hl Hb Hn) as (w & l1 & o1 & Hw & Hf & Hv & Hl1 & _).
    destruct (IH l1 Hl1) as (ws & l2 & o2 & Hws & Hfs & Hvs & Hl2).
    exists (w ++ ws), l2, (o1 ++ o2). cbn [wire_encode_all]. rewrite Hw, run_bind_Val, Hws.
    split; [done|]. rewrite (feed_all_app _ _ _ _ _ Hf), Hfs.
    split; [done|]. split; [|done]. rewrite visible_app, Hv, Hvs. done.
Qed.

Lemma frame_new_between `{Crc} xor : between_frames xor (frame_new xor).
Proof. by split. Qed.
Lemma frame_reset_between `{Crc} l : between_frames (cobs_xor (fl_cobs l)) (frame_reset l).
Proof. by split. Qed.

(** ** The shape and the length of a frame *)

Lemma cobs_encode_from_length data p :
  (length p <= 253)%nat ->
  Z.of_nat (length (cobs_encode_from p data)) <=
    Z.of_nat (length p + length data) + 2 + Z.of_nat (length p + length data) / 254.
Proof.
  revert p. induction data as [|x data IH]; intros p Hp.
  - cbn [cobs_encode_from]. unfold cobs_finish. cbn [length]. rewrite length_app.
    cbn [length]. Z.to_euclidean_division_equations. lia.
  - cbn [cobs_encode_from length]. unfold cobs_step.
    pose proof (IH [] ltac:(cbn; lia)) as IH0. pose proof (IH (p ++ [x])) as IHx.
    rewrite length_app in IHx. cbn [length] in IH0, IHx.
    destruct (decide _); destruct (x =? 0); rewrite ?length_app; cbn [length];
      rewrite ?length_app; cbn [length].
    4: specialize (IHx ltac:(lia)).
    all: Z.to_euclidean_division_equations; lia.
Qed.

(** ** The properties of whole frames *)

(** C4: framing round trip.  Whatever messages the host encodes one after the
    other (any type, any payload of at most [2^24 - 1] bytes), the encoder does
    not panic, and a fresh decoder fed the wire bytes reports, skips aside,
    exactly each message's header, its payload bytes in order and [Finished],
    with no error, and is again between frames. *)
Theorem frame_stream_roundtrip `{CrcLaws} msgs :
  Forall payload_ok msgs ->
  exists wire l' os, wire_encode_all msgs = Val wire /\
    frame_feed_all (frame_new COBS_XOR) wire = Val (l', os, None) /\
    visible os = msgs ≫= frame_outputs /\ between_frames COBS_XOR l'.
Proof. intros Hm. apply decode_frames; [apply frame_new_between|done]. Qed.

Lemma frame_stream_roundtrip_witness :
  exists wire l' os,
    wire_encode_all [(Probe, []); (UseVersion, [0; 85; 0; 255])] = Val wire /\
    frame_feed_all (frame_new COBS_XOR) wire = Val (l', os, None) /\
    visible os = frame_outputs (Probe, []) ++ frame_outputs (UseVersion, [0; 85; 0; 255]) /\
    between_frames COBS_XOR l'.
Proof.
  apply (frame_stream_roundtrip [(Probe, []); (UseVersion, [0; 85; 0; 255])]).
  repeat (apply Forall_cons_2; [split; [decide_now | cbn; lia]|]). by apply Forall_nil_2.
Defined.

Lemma masked_sentinel body :
  Forall (fun b => 0 < b < 256) body ->
  Forall (fun y => u8 y /\ y <> COBS_XOR) (masked COBS_XOR body).
Proof.
  intros Hb. apply Forall_map. eapply Forall_impl; [|exact Hb].
  intros y Hy. cbv beta in Hy |- *. split; [apply lxor_fits; unfold fits, COBS_XOR; lia|].
  intros Hx. apply (f_equal (fun z => Z.lxor z COBS_XOR)) in Hx.
  rewrite lxor_cancel, Z.lxor_nilpotent in Hx. lia.
Qed.

Lemma sextets_not_sentinel n :
  Forall (fun y => u8 y /\ y <> COBS_XOR) (map (fun x => Z.lor x 0xc0) (length_sextets n)).
Proof.
  apply Forall_map. unfold length_sextets.
  assert (forall x, u8 (Z.lor (x mod 64) 192) /\ Z.lor (x mod 64) 192 <> COBS_XOR) as Hs.
  { intros x. pose proof (Z.mod_pos_bound x 64 ltac:(lia)).
    destruct (sextet_marked (x mod 64)) as [Hm _]; [done|]. split.
    - apply lor_fits; unfold fits; lia.
    - intros Hx. rewrite Hx in Hm. done. }
  repeat constructor; apply Hs.
Qed.

Lemma wire_format_shape `{CrcLaws} t payload :
  payload_ok (t, payload) ->
  exists inside, wire_encode t payload = Val ([0x55; 0x55; 0x55] ++ inside ++ [0x55]) /\
    Forall (fun y => u8 y /\ y <> 0x55) inside /\
    let n := Z.of_nat (length payload) in
    Z.of_nat (length ([0x55; 0x55; 0x55] ++ inside ++ [0x55])) <= n + 18 + (n + 8) / 254.
Proof.
  intros [Hb Hn]. cbn [fst snd] in Hb, Hn. rewrite wire_encode_spec by done.
  set (msg := _ ++ u32_to_le_bytes (crc32_hash _)).
  assert (bytes msg) as Hmsg by (by apply bytes_message).
  destruct (cobs_encode_from_shape msg []) as (body & Hbody & Hnz); [cbn; lia|done|done|].
  pose proof (cobs_encode_from_length msg [] ltac:(cbn; lia)) as Hlen.
  unfold cobs_encode. rewrite Hbody in *. rewrite masked_app.
  exists ([0x5e] ++ map (fun x => Z.lor x 0xc0) (length_sextets (Z.of_nat (length payload)))
          ++ masked COBS_XOR body). split_and!.
  - rewrite <- !app_assoc. done.
  - repeat apply Forall_app_2; [by repeat constructor|apply sextets_not_sentinel|].
    by apply masked_sentinel.
  - cbn [length Nat.add] in Hlen. unfold msg in Hlen.
    rewrite !length_app, length_map in *. unfold masked. rewrite length_map.
    unfold u32_to_le_bytes in Hlen. rewrite !length_le_bytes in Hlen.
    cbn [length length_sextets] in *.
    Z.to_euclidean_division_equations. lia.
Qed.

(** The wire format.  A frame is the preamble, four length bytes, a body
    and the terminator; the sentinel [0x55] occurs only as the first three
    bytes and as the last, so a receiver can find frame ends without decoding,
    and the frame is at most 18 bytes longer than its payload, plus one byte
    per 254 bytes of body. *)
Theorem wire_format `{CrcLaws} t payload :
  payload_ok (t, payload) ->
  exists inside, wire_encode t payload = Val ([0x55; 0x55; 0x55] ++ inside ++ [0x55]) /\
    Forall (fun y => u8 y /\ y <> 0x55) inside /\
    let n := Z.of_nat (length payload) in
    Z.of_nat (length ([0x55; 0x55; 0x55] ++ inside ++ [0x55])) <= n + 18 + (n + 8) / 254.
Proof. apply wire_format_shape. Qed.

Lemma wire_format_witness :
  exists inside, wire_encode Probe [85] = Val ([0x55; 0x55; 0x55] ++ inside ++ [0x55]) /\
    Forall (fun y => u8 y /\ y <> 0x55) inside /\
    Z.of_nat (length ([0x55; 0x55; 0x55] ++ inside ++ [0x55])) <= 1 + 18 + (1 + 8) / 254.
Proof.
  apply (wire_format Probe [85]). split; [decide_now|cbn; lia].
Defined.

(** Four marked bytes whose sextets the decoder reassembles to [n]. *)
Definition length_field_of (n : Z) (bs : list Z) : Prop :=
  length bs = 4%nat /\ Forall (fun b => u8 b /\ Z.land b 0xc0 = 0xc0) bs /\
  sextets_length bs = n.

(** The length field.  For every length, [encode_length] succeeds exactly
    when the length fits 24 bits, and then each of its four bytes carries the
    marker [0xc0] that the decoder checks, and the decoder's reassembly of the
    four sextets is the length. *)
Theorem encode_length_exact n :
  0 <= n ->
  match encode_length n with
  | Some bs => n < 2 ^ 24 /\ length_field_of n bs
  | None => 2 ^ 24 <= n
  end.
Proof.
  intros Hn. destruct (Z.lt_ge_cases n (2 ^ 24)) as [Hlt|Hge].
  - rewrite encode_length_Some by done. unfold length_field_of.
    split_and!; [done|done| |by apply sextets_length_spec].
    apply Forall_map. unfold length_sextets.
    assert (forall x, u8 (Z.lor (x mod 64) 192) /\ Z.land (Z.lor (x mod 64) 192) 0xc0 = 0xc0) as Hs.
    { intros x. pose proof (Z.mod_pos_bound x 64 ltac:(lia)). split.
      - apply lor_fits; unfold fits; lia.
      - by apply sextet_marked. }
    repeat constructor; apply Hs.
  - by rewrite encode_length_None.
Qed.

Lemma encode_length_exact_witness :
  0 <= 16777215 /\ encode_length 16777215 = Some [255; 255; 255; 255] /\
  sextets_length [255; 255; 255; 255] = 16777215.
Proof.
  split; [lia|]. pose proof (encode_length_exact 16777215 ltac:(lia)) as H.
  assert (encode_length 16777215 = Some [255; 255; 255; 255]) as He by (vm_compute; reflexivity).
  rewrite He in H. split; [exact He|apply H].
Defined.
