(* ===== verification/FrameDriver.v ===== *)
(** The frame decoder under arbitrary input.  Every client of
    [FrameLayer::feed] (the device's protocol loop, the host's [Decoder])
    resets the decoder when [feed] returns an error; [frame_drive] is that
    discipline.  The invariant [decoding] relates a decoder state to the
    outputs produced since the last reset: it gives the absence of panics and
    the meaning of [Finished]. *)
From S2P Require Import Prelude Words Messages Crc Encode Decode Cobs Framing.

(** ** The driver *)

Fixpoint frame_drive `{Crc} (l : frame_layer) (bs : list Z)
  : run (frame_layer * list (result FrameOutput FrameError)) :=
  match bs with
  | [] => Val (l, [])
  | b :: bs =>
    '(l, r) ← frame_feed l b;
    let l := match r with Ok _ => l | Err _ => frame_reset l end in
    '(l, rs) ← frame_drive l bs;
    Val (l, r :: rs)
  end.

(** The outputs of a driven decoder that carry information. *)
Definition drive_visible (rs : list (result FrameOutput FrameError))
  : list (result FrameOutput FrameError) :=
  filter (fun r => r <> Ok FSkip) rs.

(** ** The invariant *)

(** The outputs [os] end with a header and the payload bytes [p] after it. *)
Definition frame_so_far (os : list FrameOutput) (h : FrameHeader) (p : list Z) : Prop :=
  exists pre, visible os = pre ++ FHeader h :: map FPayload p.

(** The type bytes and the payload, the bytes a frame's CRC covers. *)
Definition covered (h : FrameHeader) (p : list Z) : list Z :=
  u32_to_le_bytes (message_type_to_u32 (FrameLayer.message_type h)) ++ p.

Section invariant.
Context `{CrcLaws}.
Implicit Types (l : frame_layer) (os : list FrameOutput).

(** What holds of a decoder at any time, errors included. *)
Record layer_sizes l : Prop := {
ls_length : length (length_bytes l) = 4%nat;
ls_header : length (header_bytes l) = 4%nat;
ls_crc : length (crc_bytes l) = 4%nat;
ls_xor : u8 (cobs_xor (fl_cobs l));
ls_length_bytes : bytes (length_bytes l);
ls_header_bytes : bytes (header_bytes l);
}.

Definition state_ok l os : Prop :=
match decode_state l with
| SPreamble | SLegacyPrintString _ _ => fl_crc l = hasher_new
| SLength i => (i <= 3)%nat /\ fl_crc l = hasher_new
| SPacketHeader i n =>
  (i <= 3)%nat /\ 0 <= n /\ fl_crc l = hashed (take i (header_bytes l))
| SPacketBody i h => (4 <= i)%nat /\ 0 <= payload_len h /\
  exists p, frame_so_far os h p /\ fl_crc l = hashed (covered h p) /\
    Z.of_nat (length p) = Z.min (Z.of_nat i - 4) (payload_len h)
| SLegacy => True
end.

Record decoding l os : Prop := {
dg_sizes : layer_sizes l;
dg_state : state_ok l os;
}.

Lemma between_decoding xor l os :
u8 xor -> bytes (length_bytes l) -> bytes (header_bytes l) ->
between_frames xor l -> decoding l os.
Proof.
intros Hx Hb1 Hb2 [Hp Hc Hl Hh Hcr Hs Hcrc].
split; [split; try done; by rewrite Hc|]. unfold state_ok. by rewrite Hs.
Qed.

Lemma new_decoding xor : u8 xor -> decoding (frame_new xor) [].
Proof.
intros Hx. apply (between_decoding xor); [done| | |apply frame_new_between];
  repeat constructor; done.
Qed.

Lemma reset_decoding l : layer_sizes l -> decoding (frame_reset l) [].
Proof.
intros Hs. apply (between_decoding (cobs_xor (fl_cobs l))); [apply Hs| | |].
1,2: repeat constructor; done.
apply frame_reset_between.
Qed.

Lemma cobs_poll_ok c b : u8 (cobs_xor c) -> u8 b ->
exists c' r, cobs_poll c b = (c', r) /\ cobs_xor c' = cobs_xor c /\
  match r with Ok (CByte x) => u8 x | _ => True end.
Proof.
intros Hx Hb. assert (u8 (Z.lxor b (cobs_xor c))) by (by apply lxor_fits).
unfold cobs_poll. repeat case_match; eexists _, _; split_and!; try done;
  by simplify_eq.
Qed.

Lemma frame_so_far_skip os h p :
frame_so_far os h p -> frame_so_far (os ++ [FSkip]) h p.
Proof. unfold frame_so_far. by rewrite visible_app, app_nil_r. Qed.

Lemma frame_so_far_payload os h p b :
frame_so_far os h p -> frame_so_far (os ++ [FPayload b]) h (p ++ [b]).
Proof.
intros [pre Hpre]. exists pre. rewrite visible_app, Hpre, map_app, <- app_assoc.
done.
Qed.

Lemma sextets_length_nonneg bs : bytes bs -> 0 <= sextets_length bs.
Proof.
intros Hb. unfold sextets_length.
assert (forall i, 0 <= nth i (map (fun x => Z.land x (Z.lnot 192)) bs) 0) as Hn.
{ intros i. destruct (le_lt_dec (length bs) i) as [Hge|Hlt].
  - rewrite nth_overflow; [lia|]. by rewrite length_map.
  - rewrite (nth_indep _ 0 (Z.land 0 (Z.lnot 192))) by (by rewrite length_map).
    rewrite (map_nth (fun x => Z.land x (Z.lnot 192))). apply Z.land_nonneg. left.
    assert (Hin : In (nth i bs 0) bs) by (by apply nth_In).
    exact (proj1 (proj1 (List.Forall_forall _ _) Hb _ Hin)). }
repeat (apply Z.lor_nonneg; split; [|apply Z.shiftl_nonneg]); apply Hn.
Qed.

(** A step either continues an error-free run or leaves a resettable decoder;
  a completed frame is what the outputs say it is. *)
Definition step_ok os (s : frame_layer * result FrameOutput FrameError) : Prop :=
match s with
| (l, Ok o) => decoding l (os ++ [o]) /\
  (o = FFinished -> exists h p, frame_so_far os h p /\
     Z.of_nat (length p) = payload_len h /\
     u32_from_le_bytes (crc_bytes l) = crc32_hash (covered h p))
| (l, Err _) => layer_sizes l
end.

Lemma feed_preamble_ok l os b :
decoding l os -> decode_state l = SPreamble -> step_ok os (feed_preamble l b).
Proof.
intros [[] Hst] Hs. unfold state_ok in Hst. rewrite Hs in Hst. unfold feed_preamble.
destruct (preamble_feed (preamble_layer l) b) as [p [[| | |n]|e]]; cbn;
  try done; (split; [split; [by split|]|done]); unfold state_ok; cbn;
  rewrite ?Hs; try done. split; [lia|done].
Qed.

Lemma feed_length_ok l os i b :
decoding l os -> decode_state l = SLength i -> u8 b ->
exists s, feed_length l i b = Val s /\ step_ok os s.
Proof.
intros [[] Hst] Hs Hb. unfold state_ok in Hst. rewrite Hs in Hst.
destruct Hst as [Hi Hc]. unfold feed_length.
destruct (negb _); [eexists; split; [done|]; by split|].
rewrite slice_set_Val, run_bind_Val by lia.
assert (bytes (<[i := b]> (length_bytes l))) as Hbs by (by apply Forall_insert).
destruct (decide (i = 3)%nat) as [->|Hne]; (eexists; split; [done|]);
  (split; [|done]); (split; [split; cbn; rewrite ?length_insert; done|]);
  unfold state_ok; cbn.
- split_and!; [lia|by apply sextets_length_nonneg|]. unfold hashed.
  by rewrite hasher_update_nil.
- split; [lia|done].
Qed.

Lemma header_event_ok l os i n ev :
decoding l os -> decode_state l = SPacketHeader i n ->
match ev with CByte x => u8 x | _ => True end ->
exists s, header_event l i n ev = Val s /\ step_ok os s.
Proof.
intros [[] Hst] Hs Hev. unfold state_ok in Hst. rewrite Hs in Hst.
destruct Hst as (Hi & Hn & Hc). unfold header_event. destruct ev as [|x|].
- eexists. split; [done|]. split; [|done]. split; [by split|].
  unfold state_ok. by rewrite Hs.
- rewrite slice_set_Val, run_bind_Val by (cbn; lia). cbn [header_bytes with_state].
  assert (bytes (<[i := x]> (header_bytes l))) as Hbs by (by apply Forall_insert).
  assert (hasher_write_u8 (fl_crc l) x =
          hashed (take (i + 1) (<[i := x]> (header_bytes l)))) as Hcrc.
  { rewrite Hc, hashed_snoc, Nat.add_1_r.
    erewrite take_S_r by (apply list_lookup_insert_eq; lia).
    by rewrite take_insert_ge by lia. }
  destruct (decide (i = 3)%nat) as [->|Hne].
  + unfold decode_header_bytes. cbn [header_bytes with_header with_crc].
    destruct (message_type_try_from _) as [t|e] eqn:Ht; eexists; (split; [done|]).
    * split; [|done]. split; [split; cbn; rewrite ?length_insert; done|].
      unfold state_ok. cbn -[covered]. split_and!; [lia|done|].
      exists []. split_and!; [|idtac|cbn; lia].
      { exists (visible os). by rewrite visible_app. }
      rewrite Hcrc, take_ge by (rewrite length_insert; lia). unfold covered.
      cbn [FrameLayer.message_type]. rewrite app_nil_r.
      apply message_type_try_from_Ok in Ht. rewrite <- Ht.
      unfold u32_from_le_bytes, u32_to_le_bytes.
      rewrite <- (le_bytes_of_le _ Hbs) at 1. by rewrite length_insert, ls_header0.
    * split; cbn; rewrite ?length_insert; done.
  + eexists. split; [done|]. split; [|done].
    split; [split; cbn; rewrite ?length_insert; done|].
    unfold state_ok. cbn. split_and!; [lia|done|done].
- eexists. split; [done|]. by split.
Qed.

Lemma body_event_ok l os i h ev :
decoding l os -> decode_state l = SPacketBody i h ->
match ev with CByte x => u8 x | _ => True end ->
exists s, body_event l i h ev = Val s /\ step_ok os s.
Proof.
intros [[] Hst] Hs Hev. unfold state_ok in Hst. rewrite Hs in Hst.
destruct Hst as (Hi & Hn & p & Hp & Hc & Hlen). unfold body_event. destruct ev as [|x|].
- eexists. split; [done|]. split; [|done]. split; [by split|].
  unfold state_ok. rewrite Hs. split_and!; [done..|]. exists p.
  by split_and!; [apply frame_so_far_skip|..].
- destruct (Z.ltb_spec (Z.of_nat i) (4 + payload_len h)).
  { eexists. split; [done|]. split; [|done]. split; [by split|].
    unfold state_ok. cbn -[covered]. split_and!; [lia|done|].
    exists (p ++ [x]). split_and!; [by apply frame_so_far_payload| |].
    - rewrite Hc, hashed_snoc. unfold covered. by rewrite app_assoc.
    - rewrite length_app. cbn. lia. }
  destruct (Z.ltb_spec (Z.of_nat i) (4 + payload_len h + 4)).
  { rewrite slice_set_Val, run_bind_Val by (cbn; lia).
    eexists. split; [done|]. split; [|done].
    split; [split; cbn; rewrite ?length_insert; done|].
    unfold state_ok. cbn -[covered]. split_and!; [lia|done|].
    exists p. split_and!; [by apply frame_so_far_skip|done|lia]. }
  eexists. split; [done|]. by split.
- destruct (Z.ltb_spec (Z.of_nat i) (4 + payload_len h)).
  { eexists. split; [done|]. by split. }
  destruct (Z.ltb_spec (Z.of_nat i) (4 + payload_len h + 4)).
  { eexists. split; [done|]. by split. }
  cbn -[u32_from_le_bytes].
  destruct (Z.eqb_spec (u32_from_le_bytes (crc_bytes l)) (hasher_finalize (fl_crc l)))
    as [Heq|Hne]; (eexists; split; [done|]); [|by split].
  split; [split; [by split|]|].
  { unfold state_ok. done. }
  intros _. exists h, p. split_and!; [done|lia|].
  cbn [crc_bytes with_state with_crc]. rewrite Heq, Hc. symmetry. apply crc32_hash_spec.
Qed.

Lemma with_cobs_decoding c l os :
decoding l os -> cobs_xor c = cobs_xor (fl_cobs l) -> decoding (with_cobs c l) os.
Proof. intros [[] Hst] Hx. split; [split; cbn; by rewrite ?Hx|done]. Qed.

(** One byte. *)
Lemma frame_feed_ok l os b :
decoding l os -> u8 b -> exists s, frame_feed l b = Val s /\ step_ok os s.
Proof.
intros Hd Hb. unfold frame_feed. destruct (decode_state l) eqn:Hs.
- eexists. split; [done|]. by apply feed_preamble_ok.
- by apply feed_length_ok.
- unfold feed_header.
  destruct (cobs_poll_ok (fl_cobs l) b) as (c & r & -> & Hx & Hr); [apply Hd|done|].
  pose proof (with_cobs_decoding c l os Hd Hx) as Hd'.
  destruct r; [by apply header_event_ok|]. eexists. split; [done|apply Hd'].
- unfold feed_body.
  destruct (cobs_poll_ok (fl_cobs l) b) as (c & r & -> & Hx & Hr); [apply Hd|done|].
  pose proof (with_cobs_decoding c l os Hd Hx) as Hd'.
  destruct r; [by apply body_event_ok|]. eexists. split; [done|apply Hd'].
- eexists. split; [done|]. split; [|done]. destruct Hd as [[] Hst].
  split; [by split|]. unfold state_ok. by rewrite Hs.
- eexists. split; [done|]. destruct Hd as [[] Hst].
  unfold state_ok in Hst. rewrite Hs in Hst. unfold feed_print_string.
  destruct (_ <=? _); (split; [|done]); (split; [by split|]); done.
Qed.

(** How the header travels: a packet body is entered with its header, and only
    left, by [Finished], from a body. *)
Lemma frame_feed_header l b l' o :
  frame_feed l b = Val (l', Ok o) ->
  (o = FFinished -> exists i h, decode_state l = SPacketBody i h) /\
  (forall i h, decode_state l' = SPacketBody i h ->
     o = FHeader h \/ (forall h', o <> FHeader h') /\ exists j, decode_state l = SPacketBody j h).
Proof.
  unfold frame_feed, feed_preamble, feed_length, feed_header, feed_body, feed_print_string,
    header_event, body_event, slice_set.
  destruct (decode_state l) as [|i|i n|i h| |n i] eqn:Hs; cbn;
    repeat (case_match; cbn); intros; simplify_eq/=;
    (split; [try done; eauto|intros ? ? ?; simplify_eq/=; try congruence; eauto]);
    right; (split; [done|exists i; congruence || eauto]).
Qed.

(** Payload bytes are bytes. *)
Lemma frame_feed_payload l os b l' x :
  decoding l os -> u8 b -> frame_feed l b = Val (l', Ok (FPayload x)) -> u8 x.
Proof.
  intros Hd Hb. unfold frame_feed.
  destruct (cobs_poll_ok (fl_cobs l) b) as (c & r & Hp & _ & Hr); [apply Hd|done|].
  unfold feed_preamble, feed_length, feed_header, feed_body, feed_print_string,
    header_event, body_event, slice_set. rewrite Hp.
  destruct (decode_state l); cbn; repeat (case_match; cbn); intros; by simplify_eq/=.
Qed.

Lemma frame_drive_total l os bs :
decoding l os -> bytes bs -> exists l' rs, frame_drive l bs = Val (l', rs) /\
  layer_sizes l' /\ length rs = length bs.
Proof.
intros Hd Hbs. revert l os Hd. induction Hbs as [|b bs Hb Hbs IH]; intros l os Hd.
- exists l, []. split_and!; [done|apply Hd|done].
- destruct (frame_feed_ok l os b Hd Hb) as ([l1 r] & Hf & Hs).
  cbn [frame_drive]. rewrite Hf, run_bind_Val.
  destruct r as [o|e].
  + destruct (IH l1 (os ++ [o])) as (l2 & rs & Hr & Hs2 & Hl2); [apply Hs|].
    rewrite Hr. eexists _, _. split_and!; [done|done|cbn; by rewrite Hl2].
  + destruct (IH (frame_reset l1) []) as (l2 & rs & Hr & Hs2 & Hl2);
      [by apply reset_decoding|].
    rewrite Hr. eexists _, _. split_and!; [done|done|cbn; by rewrite Hl2].
Qed.

Lemma frame_feed_all_ok l os0 bs l' os :
decoding l os0 -> bytes bs -> frame_feed_all l bs = Val (l', os, None) ->
decoding l' (os0 ++ os).
Proof.
intros Hd Hbs. revert l os0 os Hd. induction Hbs as [|b bs Hb Hbs IH]; intros l os0 os Hd.
- intros [= <- <-]. by rewrite app_nil_r.
- cbn [frame_feed_all]. destruct (frame_feed_ok l os0 b Hd Hb) as ([l1 r] & -> & Hs).
  rewrite run_bind_Val. destruct r as [o|e]; [|done]. destruct Hs as [Hs _].
  destruct (frame_feed_all l1 bs) as [[[l2 o2] e2]|] eqn:Hf; [|done].
  intros [= <- <- ->]. specialize (IH l1 (os0 ++ [o]) o2 Hs Hf).
  by rewrite <- app_assoc in IH.
Qed.

Lemma frame_feed_all_snoc l bs l' os o :
frame_feed_all l bs = Val (l', os ++ [o], None) ->
exists bs0 b l0, bs = bs0 ++ [b] /\ frame_feed_all l bs0 = Val (l0, os, None) /\
  frame_feed l0 b = Val (l', Ok o).
Proof.
revert l os. induction bs as [|b bs IH]; intros l os; cbn [frame_feed_all].
- intros [= Hz Hn]. by destruct os.
- destruct (frame_feed l b) as [[l1 [o1|e]]|] eqn:Hb; [|done..]. rewrite run_bind_Val.
  destruct (frame_feed_all l1 bs) as [[[l2 o2] e2]|] eqn:Hf; [|done]. rewrite run_bind_Val.
  intros [= -> Ho ->]. destruct os as [|o0 os]; cbn in Ho; injection Ho as -> ->.
  + destruct bs as [|b' bs]; cbn [frame_feed_all] in Hf.
    * injection Hf as ->. by exists [], b, l.
    * destruct (frame_feed l1 b') as [[l3 [o3|e3]]|]; [|done..].
      rewrite run_bind_Val in Hf. by destruct (frame_feed_all l3 bs) as [[[]]|].
  + destruct (IH _ _ Hf) as (bs0 & b1 & l0 & -> & Hf0 & Hb1).
    exists (b :: bs0), b1, l0. split; [done|]. split; [|done].
    cbn [frame_feed_all]. by rewrite Hb, run_bind_Val, Hf0.
Qed.

Lemma frame_drive_app l a b :
frame_drive l (a ++ b) =
('(l1, r1) ← frame_drive l a; '(l2, r2) ← frame_drive l1 b; Val (l2, r1 ++ r2)).
Proof.
revert l. induction a as [|x a IH]; intros l.
- cbn. by destruct (frame_drive l b) as [[]|].
- cbn [app frame_drive]. destruct (frame_feed l x) as [[l1 r]|]; [|done].
  rewrite !run_bind_Val, IH. destruct (frame_drive _ a) as [[l2 r2]|]; [|done].
  rewrite !run_bind_Val. by destruct (frame_drive l2 b) as [[]|].
Qed.

(** An error-free run is the same under the driver. *)
Lemma frame_drive_feed_all l bs l' os :
frame_feed_all l bs = Val (l', os, None) -> frame_drive l bs = Val (l', map Ok os).
Proof.
revert l os. induction bs as [|b bs IH]; intros l os; cbn.
- by intros [= <- <-].
- destruct (frame_feed l b) as [[l1 [o|e]]|]; [|done..]. cbn.
  destruct (frame_feed_all l1 bs) as [[[l2 o2] e2]|] eqn:Hf; [|done].
  intros [= <- <- ->]. by rewrite (IH _ _ Hf).
Qed.

Lemma frame_drive_length l bs l' rs :
frame_drive l bs = Val (l', rs) -> length rs = length bs.
Proof.
revert l rs. induction bs as [|b bs IH]; intros l rs; cbn [frame_drive].
- by intros [= _ <-].
- destruct (frame_feed l b) as [[l1 r]|]; [|done]. rewrite run_bind_Val.
  destruct (frame_drive _ bs) as [[l2 r2]|] eqn:Hd; [|done]. rewrite run_bind_Val.
  intros [= -> <-]. cbn. f_equal. exact (IH _ _ Hd).
Qed.

Lemma frame_drive_last_error l bs l' rs e :
frame_drive l bs = Val (l', rs ++ [Err e]) -> exists l0, l' = frame_reset l0.
Proof.
revert l rs. induction bs as [|b bs IH]; intros l rs; cbn [frame_drive].
- intros [= Hz Hn]. by destruct rs.
- destruct (frame_feed l b) as [[l1 r]|]; [|done]. rewrite run_bind_Val.
  destruct (frame_drive _ bs) as [[l2 r2]|] eqn:Hd; [|done]. rewrite run_bind_Val.
  intros [= <- Hr]. destruct rs as [|r0 rs].
  + cbn in Hr. injection Hr as -> ->. pose proof (frame_drive_length _ _ _ _ Hd) as Hl.
    destruct bs as [|b' bs]; [|done]. injection Hd as <-. eauto.
  + cbn in Hr. injection Hr as -> ->. exact (IH _ _ Hd).
Qed.

Lemma drive_visible_app a b :
drive_visible (a ++ b) = drive_visible a ++ drive_visible b.
Proof. apply list.filter_app. Qed.

Lemma drive_visible_Ok os : drive_visible (map Ok os) = map Ok (visible os).
Proof.
induction os as [|o os IH]; [done|]. unfold drive_visible, visible in *. cbn [map].
destruct (decide (o = FSkip)) as [->|Hne].
- by rewrite !filter_cons_False by (by intros Hn; apply Hn).
- rewrite !filter_cons_True by congruence. cbn [map]. by rewrite IH.
Qed.

Lemma frame_reset_xor l bs l' rs :
frame_drive l bs = Val (l', rs) -> cobs_xor (fl_cobs l') = cobs_xor (fl_cobs l).
Proof.
assert (forall c b, cobs_xor (cobs_poll c b).1 = cobs_xor c) as Hpoll.
{ intros c b. unfold cobs_poll. by repeat case_match. }
assert (forall l b l1 r, frame_feed l b = Val (l1, r) ->
  cobs_xor (fl_cobs l1) = cobs_xor (fl_cobs l)) as Hfeed.
{ clear -Hpoll. intros l b l1 r. unfold frame_feed, feed_preamble, feed_length,
    feed_header, feed_body, feed_print_string, header_event, body_event, slice_set.
  pose proof (Hpoll (fl_cobs l) b) as Hp.
  destruct (cobs_poll (fl_cobs l) b) as [c ev]. cbn in Hp.
  repeat (case_match; cbn); intros; simplify_eq/=; congruence. }
revert l rs. induction bs as [|b bs IH]; intros l rs; cbn [frame_drive].
- by intros [= <- _].
- destruct (frame_feed l b) as [[l1 r]|] eqn:Hf; [|done]. rewrite run_bind_Val.
  destruct (frame_drive _ bs) as [[l2 r2]|] eqn:Hd; [|done]. rewrite run_bind_Val.
  intros [= -> _]. rewrite (IH _ _ Hd), <- (Hfeed _ _ _ _ Hf). by destruct r.
Qed.
End invariant.

(** ** The properties of a driven decoder *)

(** No input makes a client of the decoder panic: for every byte string,
    feeding and resetting on errors gives one result per byte, although the
    decoder indexes its four-byte arrays without checks. *)
Theorem frame_drive_no_panic `{CrcLaws} xor bs :
  u8 xor -> bytes bs ->
  exists l rs, frame_drive (frame_new xor) bs = Val (l, rs) /\ length rs = length bs.
Proof.
  intros Hx Hbs.
  destruct (frame_drive_total (frame_new xor) [] bs) as (l & rs & Hr & _ & Hl);
    [by apply new_decoding|done|eauto].
Qed.

Lemma frame_drive_no_panic_witness :
  exists l rs, frame_drive (frame_new 0x55) [0x55; 1; 0xee; 0xee; 0xdd; 0xdd; 9] = Val (l, rs) /\
    length rs = 7%nat.
Proof.
  apply (frame_drive_no_panic 0x55 [0x55; 1; 0xee; 0xee; 0xdd; 0xdd; 9]);
    [unfold fits; lia|].
  decide_now.
Defined.

(** The reset is needed: after a frame of unknown type the decoder's index is
    past its header array, and one more byte without a reset panics. *)
Example feed_after_error_panics :
  match frame_feed_all (frame_new 0)
    [0x55; 0x55; 0x55; 0x5e; 0xc0; 0xc0; 0xc0; 0xc0; 6; 1; 2; 3; 4] with
  | Val (l, _, Some (InvalidType t)) =>
    (t =? 0x4030201) && match frame_feed l 7 with Panic => true | _ => false end
  | _ => false
  end = true.
Proof. vm_compute. reflexivity. Qed.

(** C6: [Finished] means a whole frame.  If a decoder fed any byte string
    without an error reports [Finished] last, the outputs before it end with a
    header and exactly the number of payload bytes that header announces, and
    the CRC that the frame carried is the CRC-32 of that type and payload. *)
Theorem frame_finished_sound `{CrcLaws} xor bs l os :
  u8 xor -> bytes bs ->
  frame_feed_all (frame_new xor) bs = Val (l, os ++ [FFinished], None) ->
  exists pre h p, visible os = pre ++ FHeader h :: map FPayload p /\
    Z.of_nat (length p) = payload_len h /\
    u32_from_le_bytes (crc_bytes l) = crc32_hash (covered h p).
Proof.
  intros Hx Hbs Hf. destruct (frame_feed_all_snoc _ _ _ _ _ Hf) as (bs0 & b & l0 & -> & Hf0 & Hb).
  apply Forall_app in Hbs as [Hbs0 Hbb]. apply (Forall_singleton (fits 8)) in Hbb.
  pose proof (frame_feed_all_ok _ [] _ _ _ (new_decoding xor Hx) Hbs0 Hf0) as Hd.
  destruct (frame_feed_ok l0 os b Hd Hbb) as (s & Hs & Hok). rewrite Hb in Hs.
  injection Hs as <-. destruct Hok as [_ Hfin].
  destruct (Hfin eq_refl) as (h & p & [pre Hpre] & Hlen & Hcrc). eauto 7.
Qed.

(** A concrete frame whose outputs satisfy the hypotheses. *)
Definition finished_wire : list Z :=
  Eval vm_compute in match wire_encode Probe [85; 0] with Val w => w | Panic => [] end.

(** Runs that end with [Finished], or with an error, as boolean checks. *)
Lemma ends_finished `{Crc} (r : run (frame_layer * list FrameOutput * option FrameError)) :
  (match r with
   | Val (_, os, None) => bool_decide (list.last os = Some FFinished)
   | _ => false
   end) = true -> exists l os, r = Val (l, os ++ [FFinished], None).
Proof.
  destruct r as [[[l os] [e|]]|]; try done. intros Hl%bool_decide_eq_true.
  apply last_Some in Hl as [os' ->]. eauto.
Qed.
Lemma ends_error `{Crc} (r : run (frame_layer * list (result FrameOutput FrameError))) :
  (match r with
   | Val (_, rs) => match list.last rs with Some (Err _) => true | _ => false end
   | _ => false
   end) = true -> exists l rs e, r = Val (l, rs ++ [Err e]).
Proof.
  destruct r as [[l rs]|]; [|done]. destruct (list.last rs) as [[|e]|] eqn:Hl; try done.
  apply last_Some in Hl as [rs' ->]. eauto.
Qed.

Lemma frame_finished_sound_witness :
  exists l os pre h p,
    frame_feed_all (frame_new COBS_XOR) finished_wire = Val (l, os ++ [FFinished], None) /\
    visible os = pre ++ FHeader h :: map FPayload p /\
    Z.of_nat (length p) = payload_len h /\
    u32_from_le_bytes (crc_bytes l) = crc32_hash (covered h p).
Proof.
  destruct (ends_finished (frame_feed_all (frame_new COBS_XOR) finished_wire))
    as (l & os & Hr); [vm_compute; reflexivity|]. exists l, os.
  destruct (frame_finished_sound COBS_XOR finished_wire l os) as (pre & h & p & Hp);
    [unfold fits, COBS_XOR; lia|decide_now|exact Hr|].
  exists pre, h, p. split; [exact Hr|exact Hp].
Defined.

(** C7: resynchronisation.  After any junk whose last byte the decoder
    rejects, a driven decoder reports every frame of a following well-formed
    stream, in order and without an error. *)
Theorem frame_drive_resync `{CrcLaws} junk l rs e msgs :
  frame_drive (frame_new COBS_XOR) junk = Val (l, rs ++ [Err e]) ->
  Forall payload_ok msgs ->
  exists wire l' rs', wire_encode_all msgs = Val wire /\
    frame_drive (frame_new COBS_XOR) (junk ++ wire) = Val (l', (rs ++ [Err e]) ++ rs') /\
    drive_visible rs' = map Ok (msgs ≫= frame_outputs) /\ between_frames COBS_XOR l'.
Proof.
  intros Hj Hm. pose proof (frame_reset_xor _ _ _ _ Hj) as Hx.
  destruct (frame_drive_last_error _ _ _ _ _ Hj) as [l0 ->].
  assert (between_frames COBS_XOR (frame_reset l0)) as Hl.
  { pose proof (frame_reset_between l0) as Hb. cbn in Hx. by rewrite Hx in Hb. }
  destruct (decode_frames _ msgs Hl Hm) as (wire & l' & os & Hw & Hf & Hv & Hl').
  exists wire, l', (map Ok os). split_and!; [done| | |done].
  - by rewrite frame_drive_app, Hj, run_bind_Val, (frame_drive_feed_all _ _ _ _ Hf).
  - by rewrite drive_visible_Ok, Hv.
Qed.

Lemma frame_drive_resync_witness :
  exists l rs e wire l' rs',
    frame_drive (frame_new COBS_XOR) [0x55; 0x55; 3] = Val (l, rs ++ [Err e]) /\
    wire_encode_all [(Probe, [1])] = Val wire /\
    frame_drive (frame_new COBS_XOR) ([0x55; 0x55; 3] ++ wire) = Val (l', (rs ++ [Err e]) ++ rs') /\
    drive_visible rs' = map Ok (frame_outputs (Probe, [1])) /\ between_frames COBS_XOR l'.
Proof.
  destruct (ends_error (frame_drive (frame_new COBS_XOR) [0x55; 0x55; 3]))
    as (l & rs & e & Hj); [vm_compute; reflexivity|].
  exists l, rs, e.
  destruct (frame_drive_resync [0x55; 0x55; 3] l rs e [(Probe, [1])] Hj)
    as (wire & l' & rs' & Hw & Hr & Hv & Hl).
  - apply Forall_cons_2; [|by apply Forall_nil_2]. split; [decide_now|cbn; lia].
  - exists wire, l', rs'. split; [exact Hj|]. split; [exact Hw|]. split; [exact Hr|].
    split; [exact Hv|exact Hl].
Defined.
