(* ===== verification/Postcard.v ===== *)
(** The interface of the [postcard] crate, which both ends use to serialise
    message bodies and whose code is not in the repository: [to_slice] into a
    caller's buffer, [to_stdvec] into a fresh vector, and [from_bytes] at the
    type the receiver expects.  The laws are the crate's documentation: both
    serialisers write the same bytes, [to_slice] fails when the buffer is too
    small, and deserialising at the right type gives the value back.  A small
    concrete instance shows that the laws can hold. *)
From S2P Require Import Prelude Words Messages.

Class Postcard := {
  postcard_error : Type;
  to_stdvec : message -> result (list Z) postcard_error;
  to_slice : message -> nat -> result (list Z) postcard_error;
  from_bytes : MessageType -> list Z -> result message postcard_error;
}.

(** The integers of a message fit their Rust types. *)
Definition details_ok (f : FormatDetails) : Prop :=
  match f with Bin a => u64 a | Elf => True end.
Definition metadata_ok (m : metadata) : Prop :=
  u32 (deflated_crc m) /\ u32 (deflated_len m) /\ u32 (inflated_crc m) /\
  u32 (inflated_len m) /\ details_ok (format_details m).
Definition message_ok (m : message) : Prop :=
  match m with
  | MUseVersion v | MChunkReq v => u32 v
  | MMetadata md => metadata_ok md
  | MChunk w bs => u32 w /\ bytes bs
  | MAllowedVersions vs => bytes vs
  | MMetadataAck c md => u32 c /\ metadata_ok md
  | _ => True
  end.

(** The bytes a message carries as such; everything else is a few integers of
    at most ten bytes each. *)
Definition message_data (m : message) : nat :=
  match m with
  | MChunk _ bs | MAllowedVersions bs => length bs
  | _ => 0
  end.

Class PostcardLaws `{Postcard} : Prop := {
  to_stdvec_bytes m bs : message_ok m -> to_stdvec m = Ok bs -> bytes bs;
  to_slice_Ok m n bs :
    to_slice m n = Ok bs <-> to_stdvec m = Ok bs /\ (length bs <= n)%nat;
  from_bytes_to_stdvec m bs :
    message_ok m -> to_stdvec m = Ok bs -> from_bytes (encode_message_type m) bs = Ok m;
  from_bytes_ok t bs m :
    bytes bs -> from_bytes t bs = Ok m -> encode_message_type m = t /\ message_ok m;
  to_stdvec_size m bs :
    to_stdvec m = Ok bs -> (length bs <= 64 + message_data m)%nat;
}.

(** ** A concrete instance: fixed-width little-endian fields *)

Definition le_metadata (m : metadata) : list Z :=
  le_bytes 4 (deflated_crc m) ++ le_bytes 4 (deflated_len m) ++
  le_bytes 4 (inflated_crc m) ++ le_bytes 4 (inflated_len m) ++
  match format_details m with Bin a => 0 :: le_bytes 8 a | Elf => [1] end.

Definition le_message (m : message) : list Z :=
  match m with
  | MUseVersion v | MChunkReq v => le_bytes 4 v
  | MMetadata md => le_metadata md
  | MMetadataAckAck b => [if b then 1 else 0]
  | MChunk w bs => le_bytes 4 w ++ bs
  | MAllowedVersions vs => vs
  | MMetadataAck c md => le_bytes 4 c ++ le_metadata md
  | _ => []
  end.

Definition word (i : nat) (l : list Z) : Z := of_le (take 4 (drop (4 * i) l)).

Definition le_parse_metadata (l : list Z) : option metadata :=
  match drop 16 l with
  | [1] => Some (MkMetadata (word 0 l) (word 1 l) (word 2 l) (word 3 l) Elf)
  | 0 :: r => Some (MkMetadata (word 0 l) (word 1 l) (word 2 l) (word 3 l) (Bin (of_le (take 8 r))))
  | _ => None
  end.

Definition le_parse (t : MessageType) (l : list Z) : option message :=
  match t with
  | Probe => Some MProbe
  | UseVersion => Some (MUseVersion (word 0 l))
  | Metadata => MMetadata <$> le_parse_metadata l
  | MetadataAckAck => Some (MMetadataAckAck (bool_decide (l = [1])))
  | Chunk => Some (MChunk (word 0 l) (drop 4 l))
  | BootingAck => Some MBootingAck
  | AllowedVersions => Some (MAllowedVersions l)
  | MetadataReq => Some MMetadataReq
  | MetadataAck => MMetadataAck (word 0 l) <$> le_parse_metadata (drop 4 l)
  | ChunkReq => Some (MChunkReq (word 0 l))
  | Booting => Some MBooting
  | PrintString => None
  end.

#[export] Instance le_postcard : Postcard := {|
  postcard_error := unit;
  to_stdvec m := Ok (le_message m);
  to_slice m n :=
    if decide (length (le_message m) <= n)%nat then Ok (le_message m) else Err tt;
  from_bytes t l := match le_parse t l with Some m => Ok m | None => Err tt end;
|}.

Lemma of_le_word x : u32 x -> of_le (le_bytes 4 x) = x.
Proof. apply u32_le_roundtrip. Qed.

Lemma word_0_le x : u32 x -> word 0 (le_bytes 4 x) = x.
Proof.
  intros. unfold word. rewrite Nat.mul_0_r, drop_0, take_ge by (by rewrite length_le_bytes).
  by apply of_le_word.
Qed.

Lemma le_parse_le_metadata m : metadata_ok m -> le_parse_metadata (le_metadata m) = Some m.
Proof.
  destruct m as [a b c d f]. intros (Ha & Hb & Hc & Hd & Hf). unfold le_metadata.
  cbn [deflated_crc deflated_len inflated_crc inflated_len format_details] in *.
  assert (forall x y z w r, le_parse_metadata (le_bytes 4 x ++ le_bytes 4 y ++ le_bytes 4 z ++
    le_bytes 4 w ++ r) = match r with
      | [1] => Some (MkMetadata (of_le (le_bytes 4 x)) (of_le (le_bytes 4 y))
                 (of_le (le_bytes 4 z)) (of_le (le_bytes 4 w)) Elf)
      | 0 :: r => Some (MkMetadata (of_le (le_bytes 4 x)) (of_le (le_bytes 4 y))
                 (of_le (le_bytes 4 z)) (of_le (le_bytes 4 w)) (Bin (of_le (take 8 r))))
      | _ => None end) as -> by done.
  rewrite !of_le_word by done. destruct f as [addr|]; [|done].
  rewrite take_ge by (by rewrite length_le_bytes).
  rewrite of_le_le_bytes, Z.mod_small by exact Hf. done.
Qed.

Lemma of_le_take n l : bytes l -> fits (8 * Z.of_nat n) (of_le (take n l)).
Proof.
  intros Hl. destruct (of_le_bound (take n l)) as [Hlo Hhi]; [by apply Forall_take|].
  split; [done|]. eapply Z.lt_le_trans; [exact Hhi|]. change 256 with (2 ^ 8).
  rewrite <- Z.pow_mul_r by lia. apply Z.pow_le_mono_r; [lia|].
  rewrite length_take. lia.
Qed.
Lemma word_fits i l : bytes l -> u32 (word i l).
Proof. intros Hl. apply (of_le_take 4). by apply Forall_drop. Qed.
Lemma le_parse_metadata_ok l md : bytes l -> le_parse_metadata l = Some md -> metadata_ok md.
Proof.
  intros Hl. unfold le_parse_metadata.
  pose proof (word_fits 0 l Hl). pose proof (word_fits 1 l Hl).
  pose proof (word_fits 2 l Hl). pose proof (word_fits 3 l Hl).
  assert (bytes (drop 16 l)) as Hd by (by apply Forall_drop).
  destruct (drop 16 l) as [|x r]; [done|]. inversion Hd; subst.
  assert (u64 (of_le (take 8 r))) by (by apply (of_le_take 8)).
  repeat case_match; intros [= <-]; by split_and!.
Qed.

#[export] Instance le_postcard_laws : PostcardLaws.
Proof.
  assert (forall m, metadata_ok m -> bytes (le_metadata m)) as Hmd.
  { intros m _. unfold le_metadata.
    repeat (apply Forall_app_2; [apply le_bytes_bytes|]).
    destruct (format_details m); [apply Forall_cons_2; [decide_now|apply le_bytes_bytes]|].
    decide_now. }
  split.
  - intros m bs Hm [= <-]. destruct m; cbn [le_message]; auto with words; try done.
    + destruct is_ok; decide_now.
    + destruct Hm. apply Forall_app_2; auto with words.
    + destruct Hm. apply Forall_app_2; auto with words.
  - intros m n bs. cbn [to_slice to_stdvec le_postcard]. split; [case_decide; [by intros [= <-]|done]|].
    intros [[= <-] Hl]. by rewrite decide_True.
  - intros m bs Hm [= <-]. cbn [from_bytes le_postcard].
    destruct m; cbn [encode_message_type le_parse le_message]; try done.
    + by rewrite word_0_le.
    + by rewrite le_parse_le_metadata.
    + by destruct is_ok.
    + destruct Hm. unfold word. rewrite Nat.mul_0_r, drop_0.
      rewrite take_app_length', drop_app_length' by done.
      by rewrite of_le_word.
    + destruct Hm. unfold word. rewrite Nat.mul_0_r, drop_0.
      rewrite take_app_length', drop_app_length' by done.
      by rewrite of_le_word, le_parse_le_metadata.
    + by rewrite word_0_le.
  - intros t bs m Hb. cbn [from_bytes le_postcard].
    destruct (le_parse t bs) as [m'|] eqn:Hp; [|done]. intros [= <-].
    assert (bytes (drop 4 bs)) by (by apply Forall_drop).
    destruct t; cbn [le_parse] in Hp; rewrite ?fmap_Some in Hp;
      try (destruct Hp as (md & Hpm & ->)); simplify_eq; (split; [done|]); cbn [message_ok];
      try done; rewrite ?and_True; repeat split; eauto using word_fits, le_parse_metadata_ok.
    all: try (by apply word_fits); by eapply le_parse_metadata_ok; [|exact Hpm].
  - intros m bs [= <-]. pose proof length_le_bytes as Hl.
    assert (forall md, (length (le_metadata md) <= 25)%nat) as Hm.
    { intros md. unfold le_metadata. rewrite !length_app, !Hl.
      destruct (format_details md); cbn [length]; rewrite ?Hl; lia. }
    destruct m; cbn [le_message message_data length]; rewrite ?length_app, ?Hl;
      try (specialize (Hm m)); lia.
Qed.
