(* ===== verification/TransmitBuf.v ===== *)
(** The device's buffers: [device/okboot/src/buf.rs].

    [ReceiveBuffer] is a bounded array; [TransmitBuffer] is a ring used as a
    FIFO of bytes on their way to the UART, with checkpoints so that a frame
    that does not fit is rolled back.  Indices are [nat]; sizes stay below the
    machine's [usize], as the source assumes.  The lemmas relate the ring to
    its [contents], the bytes still to be sent, in order. *)
From S2P Require Import Prelude.

(** ** The receive buffer *)

Module ReceiveBuffer.

Record receive_buffer : Type := MkRx { rx_storage : list Z; rx_cursor : nat }.

Inductive push_error : Type := BufferOverflow.

Definition rx_new (underlying_storage : list Z) : receive_buffer :=
MkRx underlying_storage 0.
Definition rx_clear (b : receive_buffer) : receive_buffer :=
MkRx (replicate (length (rx_storage b)) 0) 0.
Definition rx_push_u8 (b : receive_buffer) (x : Z)
: run (receive_buffer * result unit push_error) :=
if decide (length (rx_storage b) <= rx_cursor b)%nat then Val (b, Err BufferOverflow)
else
  s ← slice_set (rx_storage b) (rx_cursor b) x;
  Val (MkRx s (rx_cursor b + 1), Ok tt).
Definition rx_finalize (b : receive_buffer) : run (receive_buffer * list Z) :=
let en := rx_cursor b in
out ← slice_range (rx_storage b) 0 en;
Val (MkRx (rx_storage b) 0, out).

(** The bytes received since the last [clear] or [finalize]. *)
Definition rx_received (b : receive_buffer) : list Z := take (rx_cursor b) (rx_storage b).
Definition rx_ok (b : receive_buffer) : Prop := (rx_cursor b <= length (rx_storage b))%nat.

Lemma rx_push_u8_spec b x :
rx_ok b -> exists b' r, rx_push_u8 b x = Val (b', r) /\ rx_ok b' /\
  length (rx_storage b') = length (rx_storage b) /\
  if decide (rx_cursor b < length (rx_storage b))%nat
  then r = Ok tt /\ rx_received b' = rx_received b ++ [x] /\ rx_cursor b' = S (rx_cursor b)
  else r = Err BufferOverflow /\ b' = b.
Proof.
intros Hb. unfold rx_push_u8, rx_ok in *. destruct (decide (rx_cursor b < _)%nat).
- rewrite decide_False by lia. rewrite slice_set_Val, run_bind_Val by lia.
  eexists _, _. split; [done|]. unfold rx_received. cbn.
  rewrite length_insert, Nat.add_1_r. split_and!; [lia|done|done| |done].
  erewrite take_S_r by (apply list_lookup_insert_eq; lia).
  by rewrite take_insert_ge by lia.
- rewrite decide_True by lia. by eexists _, _.
Qed.

Lemma rx_finalize_spec b :
rx_ok b -> rx_finalize b = Val (MkRx (rx_storage b) 0, rx_received b).
Proof.
intros Hb. unfold rx_finalize. rewrite slice_range_Val by (unfold rx_ok in Hb; lia).
rewrite run_bind_Val, drop_0, Nat.sub_0_r. done.
Qed.

End ReceiveBuffer.
Export ReceiveBuffer.

(** ** The transmit ring *)

Module TransmitBuffer.

Record transmit_buffer : Type := MkTx {
tx_storage : list Z;
circle_begin : nat;
circle_end : nat;
circle_len : nat;
}.

Record tx_checkpoint : Type := MkCheckpoint { cp_begin : nat; cp_end : nat; cp_len : nat }.

Definition tx_new (underlying_storage : list Z) : transmit_buffer :=
MkTx underlying_storage 0 0 0.
Definition tx_clear (t : transmit_buffer) : transmit_buffer :=
MkTx (replicate (length (tx_storage t)) 0) 0 0 0.
Definition tx_is_empty (t : transmit_buffer) : bool := bool_decide (circle_len t = 0%nat).
Definition remaining_space (t : transmit_buffer) : nat :=
(length (tx_storage t) - circle_len t)%nat.

(** [_wrapped_add]; a remainder by zero panics. *)
Definition wrapped_add (t : transmit_buffer) (a b : nat) : run (nat * bool) :=
if decide (length (tx_storage t) = 0%nat) then Panic
else let i := ((a + b) mod length (tx_storage t))%nat in
     Val (i, bool_decide (i < a + b)%nat).

Definition push_byte_at (t : transmit_buffer) (offset : nat) (byte : Z)
: run (transmit_buffer * nat) :=
s ← slice_set (tx_storage t) offset byte;
let t := MkTx s (circle_begin t) (circle_end t) (circle_len t) in
'(i, _) ← wrapped_add t offset 1;
Val (t, i).

Fixpoint write_bytes_at (t : transmit_buffer) (cursor : nat) (bs : list Z)
: run (transmit_buffer * nat) :=
match bs with
| [] => Val (t, cursor)
| byte :: bs => '(t, cursor) ← push_byte_at t cursor byte; write_bytes_at t cursor bs
end.

Definition push_byte (t : transmit_buffer) (byte : Z) : run (transmit_buffer * bool) :=
if decide (circle_len t = length (tx_storage t)) then Val (t, false)
else
  '(t, e) ← push_byte_at t (circle_end t) byte;
  Val (MkTx (tx_storage t) (circle_begin t) e (circle_len t + 1), true).

(** The loop of [extend_from_slice], which ignores what [push_byte] returns. *)
Fixpoint push_all (t : transmit_buffer) (src : list Z) : run transmit_buffer :=
match src with
| [] => Val t
| b :: src => '(t, _) ← push_byte t b; push_all t src
end.
Definition extend_from_slice (t : transmit_buffer) (src : list Z)
: run (transmit_buffer * bool) :=
if decide (length src <= remaining_space t)%nat
then t ← push_all t src; Val (t, true)
else Val (t, false).

Definition reserve (t : transmit_buffer) (n_bytes : nat)
: run (transmit_buffer * option nat) :=
if decide (n_bytes <= remaining_space t)%nat then
  let v := circle_end t in
  '(e, _) ← wrapped_add t (circle_end t) n_bytes;
  Val (MkTx (tx_storage t) (circle_begin t) e (circle_len t + n_bytes), Some v)
else Val (t, None).

Definition shift_byte (t : transmit_buffer) : run (transmit_buffer * option Z) :=
if decide (0 < circle_len t)%nat then
  b ← slice_get (tx_storage t) (circle_begin t);
  s ← slice_set (tx_storage t) (circle_begin t) 0;
  let t := MkTx s (circle_begin t) (circle_end t) (circle_len t) in
  '(i, _) ← wrapped_add t (circle_begin t) 1;
  Val (MkTx s i (circle_end t) (circle_len t - 1), Some b)
else Val (t, None).

Definition checkpoint (t : transmit_buffer) : tx_checkpoint :=
MkCheckpoint (circle_begin t) (circle_end t) (circle_len t).

Definition bytes_since_checkpoint (t : transmit_buffer) (cp : tx_checkpoint) : nat :=
if decide (circle_end t < cp_end cp)%nat
then (length (tx_storage t) - cp_end cp + circle_end t)%nat
else (circle_end t - cp_end cp)%nat.

Definition restore (t : transmit_buffer) (from : tx_checkpoint) : run transmit_buffer :=
'(t, _) ← write_bytes_at t (cp_end from) (replicate (bytes_since_checkpoint t from) 0);
Val (MkTx (tx_storage t) (cp_begin from) (cp_end from) (cp_len from)).

End TransmitBuffer.
Export TransmitBuffer.

(** ** The ring as a queue *)

Section ring.
Implicit Types (t : transmit_buffer).

(** The index of the [k]-th byte from [circle_begin], and that byte. *)
Definition tx_slot t (k : nat) : nat := ((circle_begin t + k) mod length (tx_storage t))%nat.
Definition tx_nth t (k : nat) : Z := nth (tx_slot t k) (tx_storage t) 0.

(** [n] bytes from the [i]-th on; the bytes waiting to be sent. *)
Definition tx_window t (i n : nat) : list Z := map (tx_nth t) (seq i n).
Definition contents t : list Z := tx_window t 0 (circle_len t).

Record tx_ok t : Prop := {
txo_begin : (circle_begin t < length (tx_storage t))%nat;
txo_len : (circle_len t <= length (tx_storage t))%nat;
txo_end : circle_end t = tx_slot t (circle_len t);
}.

Lemma wrap_once a c : (a < 2 * c)%nat -> (a mod c = if decide (a < c) then a else a - c)%nat.
Proof.
intros Ha. case_decide as Hd; [by apply Nat.mod_small|].
symmetry. apply (Nat.mod_unique _ _ 1); lia.
Qed.

Lemma tx_slot_lt t k : tx_ok t -> (tx_slot t k < length (tx_storage t))%nat.
Proof. intros Ht. apply Nat.mod_upper_bound. destruct Ht. lia. Qed.

Lemma tx_slot_inj t j k :
tx_ok t -> (j < length (tx_storage t))%nat -> (k < length (tx_storage t))%nat ->
tx_slot t j = tx_slot t k -> j = k.
Proof.
intros [Hb _ _] Hj Hk. unfold tx_slot. rewrite !wrap_once by lia.
repeat case_decide; lia.
Qed.

Lemma tx_slot_succ t k : tx_ok t ->
((tx_slot t k + 1) mod length (tx_storage t))%nat = tx_slot t (k + 1).
Proof.
intros [Hb _ _]. unfold tx_slot.
rewrite Nat.Div0.add_mod_idemp_l. f_equal. lia.
Qed.

Lemma wrapped_add_Val t a b : (0 < length (tx_storage t))%nat ->
exists w, wrapped_add t a b = Val (((a + b) mod length (tx_storage t))%nat, w).
Proof. intros. unfold wrapped_add. rewrite decide_False by lia. eauto. Qed.

Lemma nth_insert (l : list Z) i j x d :
(i < length l)%nat -> nth j (<[i := x]> l) d = if decide (i = j) then x else nth j l d.
Proof.
intros Hi. rewrite !nth_lookup. case_decide as Hij.
- subst. by rewrite list_lookup_insert_eq.
- by rewrite list_lookup_insert_ne.
Qed.

(** A ring whose storage changed but whose geometry did not. *)
Definition same_ring t t' : Prop :=
circle_begin t' = circle_begin t /\ circle_end t' = circle_end t /\
circle_len t' = circle_len t /\ length (tx_storage t') = length (tx_storage t).

Lemma same_ring_refl t : same_ring t t.
Proof. done. Qed.
Lemma same_ring_trans t1 t2 t3 : same_ring t1 t2 -> same_ring t2 t3 -> same_ring t1 t3.
Proof. unfold same_ring. intuition congruence. Qed.
Lemma same_ring_slot t t' k : same_ring t t' -> tx_slot t' k = tx_slot t k.
Proof. intros (Hb & _ & _ & Hl). unfold tx_slot. by rewrite Hb, Hl. Qed.
Lemma same_ring_ok t t' : same_ring t t' -> tx_ok t -> tx_ok t'.
Proof.
intros Hs [Hb Hl He]. pose proof Hs as (Hb' & He' & Hl' & Hc).
split; [lia|lia|]. by rewrite He', Hl', (same_ring_slot _ _ _ Hs).
Qed.

Lemma push_byte_at_spec t k b :
tx_ok t -> (k < length (tx_storage t))%nat ->
exists t', push_byte_at t (tx_slot t k) b = Val (t', tx_slot t (k + 1)) /\
  same_ring t t' /\
  forall j, (j < length (tx_storage t))%nat ->
    tx_nth t' j = if decide (j = k) then b else tx_nth t j.
Proof.
intros Ht Hk. pose proof (tx_slot_lt t k Ht) as Hs. unfold push_byte_at.
rewrite slice_set_Val, run_bind_Val by done.
edestruct (wrapped_add_Val (MkTx (<[tx_slot t k := b]> (tx_storage t)) (circle_begin t)
  (circle_end t) (circle_len t)) (tx_slot t k) 1) as [w ->].
{ cbn. rewrite length_insert. lia. }
rewrite run_bind_Val. cbn. rewrite length_insert, (tx_slot_succ t k Ht).
eexists. split; [done|]. split; [unfold same_ring; cbn; by rewrite length_insert|].
intros j Hj. unfold tx_nth, tx_slot. cbn. rewrite length_insert.
rewrite nth_insert by done. fold (tx_slot t j). fold (tx_slot t k).
repeat case_decide; subst; try done.
exfalso. eauto using tx_slot_inj.
Qed.

(** Overwriting [bs] from the [k]-th byte on. *)
Lemma write_bytes_at_spec t k bs :
tx_ok t -> (k + length bs <= length (tx_storage t))%nat ->
exists t', write_bytes_at t (tx_slot t k) bs = Val (t', tx_slot t (k + length bs)) /\
  same_ring t t' /\
  forall j, (j < length (tx_storage t))%nat ->
    tx_nth t' j = if decide (k <= j < k + length bs)%nat then nth (j - k) bs 0 else tx_nth t j.
Proof.
intros Ht. revert t k Ht. induction bs as [|b bs IH]; intros t k Ht Hk; cbn [length] in *.
- exists t. split; [by rewrite Nat.add_0_r|]. split; [done|].
  intros j Hj. rewrite decide_False by lia. done.
- destruct (push_byte_at_spec t k b Ht) as (t1 & H1 & Hs1 & Hn1); [lia|].
  pose proof Hs1 as (_ & _ & _ & Hl).
  destruct (IH t1 (k + 1)%nat (same_ring_ok _ _ Hs1 Ht)) as (t2 & H2 & Hs2 & Hn2); [lia|].
  exists t2. cbn [write_bytes_at]. rewrite H1, run_bind_Val, <- (same_ring_slot _ _ _ Hs1), H2.
  rewrite (same_ring_slot _ _ _ Hs1).
  split; [do 3 f_equal; lia|]. split; [by eapply same_ring_trans|].
  intros j Hj. rewrite Hn2, Hn1 by lia. destruct (decide (j = k)) as [->|Hne].
  + rewrite decide_False, decide_True by lia. by rewrite Nat.sub_diag.
  + repeat case_decide; try lia.
    by replace (j - k)%nat with (S (j - (k + 1))) by lia.
Qed.

(** Windows. *)
Lemma length_tx_window t i n : length (tx_window t i n) = n.
Proof. unfold tx_window. by rewrite length_map, length_seq. Qed.
Lemma length_contents t : length (contents t) = circle_len t.
Proof. apply length_tx_window. Qed.
Lemma tx_window_app t i n m : tx_window t i (n + m) = tx_window t i n ++ tx_window t (i + n) m.
Proof. unfold tx_window. by rewrite seq_app, map_app. Qed.
Lemma tx_window_ext t t' i n :
(forall j, (i <= j < i + n)%nat -> tx_nth t' j = tx_nth t j) ->
tx_window t' i n = tx_window t i n.
Proof.
intros He. unfold tx_window. apply map_ext_in. intros j Hj%in_seq. by apply He.
Qed.
Lemma tx_window_bytes t i bs :
(forall j, (i <= j < i + length bs)%nat -> tx_nth t j = nth (j - i) bs 0) ->
tx_window t i (length bs) = bs.
Proof.
revert i. induction bs as [|b bs IH]; intros i He; [done|].
unfold tx_window. cbn [length seq map]. f_equal.
- rewrite He by (cbn; lia). by rewrite Nat.sub_diag.
- apply IH. intros j Hj. rewrite He by (cbn; lia).
  by replace (j - i)%nat with (S (j - S i)) by lia.
Qed.
Lemma tx_nth_geometry t e n j :
tx_nth (MkTx (tx_storage t) (circle_begin t) e n) j = tx_nth t j.
Proof. done. Qed.

Lemma push_byte_spec t b :
tx_ok t -> exists t' r, push_byte t b = Val (t', r) /\ tx_ok t' /\
  circle_begin t' = circle_begin t /\ length (tx_storage t') = length (tx_storage t) /\
  if decide (circle_len t < length (tx_storage t))%nat
  then r = true /\ contents t' = contents t ++ [b]
  else r = false /\ t' = t.
Proof.
intros Ht. pose proof Ht as [Hb Hl He]. unfold push_byte. destruct (decide (_ < _)%nat).
- rewrite decide_False by lia. rewrite He.
  destruct (push_byte_at_spec t (circle_len t) b Ht) as (t1 & -> & Hs & Hn); [done|].
  pose proof Hs as (Hsb & Hse & Hsl & Hsc). rewrite run_bind_Val.
  eexists _, _. split; [done|]. split_and!; [|done|done|done|].
  + split; cbn; [lia|lia|]. unfold tx_slot. cbn. by rewrite Hsb, Hsl, Hsc.
  + unfold contents. cbn [circle_len].
    rewrite Hsl, tx_window_app. f_equal.
    * apply tx_window_ext. intros j Hj. rewrite tx_nth_geometry, Hn by lia.
      by rewrite decide_False by lia.
    * unfold tx_window. cbn [seq map]. f_equal. rewrite tx_nth_geometry, Hn by lia.
      by rewrite decide_True by lia.
- rewrite decide_True by lia. by eexists _, _.
Qed.

Lemma push_all_spec t src :
tx_ok t -> (length src <= remaining_space t)%nat ->
exists t', push_all t src = Val t' /\ tx_ok t' /\ circle_begin t' = circle_begin t /\
  length (tx_storage t') = length (tx_storage t) /\ contents t' = contents t ++ src.
Proof.
revert t. induction src as [|b src IH]; intros t Ht Hl; cbn [push_all length] in *.
- exists t. by rewrite app_nil_r.
- destruct (push_byte_spec t b Ht) as (t1 & r & -> & Ht1 & Hb1 & Hc1 & Hr).
  unfold remaining_space in *. destruct Ht as [Hb Hlen He].
  rewrite decide_True in Hr by lia. destruct Hr as [_ Hcon]. rewrite run_bind_Val.
  pose proof (f_equal length Hcon) as Hn. rewrite length_app, !length_contents in Hn.
  cbn in Hn. destruct (IH t1 Ht1) as (t2 & -> & Ht2 & Hb2 & Hc2 & Hcon2); [lia|].
  exists t2. split_and!; [done|done|congruence|congruence|].
  rewrite Hcon2, Hcon, <- app_assoc. done.
Qed.

Lemma extend_from_slice_spec t src :
tx_ok t -> exists t' r, extend_from_slice t src = Val (t', r) /\ tx_ok t' /\
  circle_begin t' = circle_begin t /\ length (tx_storage t') = length (tx_storage t) /\
  if decide (circle_len t + length src <= length (tx_storage t))%nat
  then r = true /\ contents t' = contents t ++ src
  else r = false /\ t' = t.
Proof.
intros Ht. pose proof Ht as [Hb Hl He]. unfold extend_from_slice, remaining_space.
destruct (decide (circle_len t + length src <= _)%nat).
- rewrite decide_True by lia.
  destruct (push_all_spec t src Ht) as (t1 & -> & Ht1 & Hb1 & Hc1 & Hcon);
    [unfold remaining_space; lia|].
  by eexists _, _.
- rewrite decide_False by lia. by eexists _, _.
Qed.

(** Reserved bytes are whatever the storage held. *)
Lemma reserve_spec t n :
tx_ok t -> exists t' r, reserve t n = Val (t', r) /\ tx_ok t' /\
  circle_begin t' = circle_begin t /\ length (tx_storage t') = length (tx_storage t) /\
  if decide (circle_len t + n <= length (tx_storage t))%nat
  then r = Some (tx_slot t (circle_len t)) /\
    exists x, length x = n /\ contents t' = contents t ++ x
  else r = None /\ t' = t.
Proof.
intros Ht. pose proof Ht as [Hb Hl He]. unfold reserve, remaining_space.
destruct (decide (circle_len t + n <= _)%nat).
- rewrite decide_True by lia. destruct (wrapped_add_Val t (circle_end t) n) as [w ->]; [lia|].
  rewrite run_bind_Val. eexists _, _. split; [done|]. split_and!; [|done|done|by rewrite He|].
  + split; cbn; [done|lia|]. rewrite He. unfold tx_slot. cbn.
    rewrite Nat.Div0.add_mod_idemp_l. f_equal. lia.
  + exists (tx_window t (circle_len t) n). split; [apply length_tx_window|].
    unfold contents. cbn [circle_len]. rewrite tx_window_app. done.
- rewrite decide_False by lia. by eexists _, _.
Qed.

Lemma shift_byte_spec t :
tx_ok t -> exists t' r, shift_byte t = Val (t', r) /\ tx_ok t' /\
  length (tx_storage t') = length (tx_storage t) /\
  match contents t with
  | [] => r = None /\ t' = t
  | b :: rest => r = Some b /\ contents t' = rest
  end.
Proof.
intros Ht. pose proof Ht as [Hb Hl He]. unfold shift_byte.
destruct (decide (0 < circle_len t)%nat) as [Hpos|Hz].
- destruct (lookup_lt_is_Some_2 (tx_storage t) (circle_begin t) Hb) as [b Hbyte].
  rewrite (slice_get_Val _ _ _ Hbyte), run_bind_Val.
  rewrite slice_set_Val, run_bind_Val by done. cbv zeta. cbn [circle_begin circle_end circle_len].
  edestruct (wrapped_add_Val (MkTx (<[circle_begin t := 0]> (tx_storage t)) (circle_begin t)
    (circle_end t) (circle_len t)) (circle_begin t) 1) as [w ->].
  { cbn. rewrite length_insert. lia. }
  rewrite run_bind_Val. cbn [tx_storage circle_end circle_len]. rewrite length_insert.
  eexists _, _. split; [done|].
  assert (forall k, tx_slot (MkTx (<[circle_begin t := 0]> (tx_storage t))
    ((circle_begin t + 1) mod length (tx_storage t)) (circle_end t) (circle_len t - 1)) k
    = tx_slot t (S k)) as Hslot.
  { intros k. unfold tx_slot. cbn. rewrite length_insert, Nat.Div0.add_mod_idemp_l.
    f_equal. lia. }
  split_and!.
  + split; [cbn; rewrite length_insert; apply Nat.mod_upper_bound; lia|
            cbn; rewrite length_insert; lia|].
    cbn [circle_end circle_len]. rewrite Hslot, He. f_equal. lia.
  + cbn. by rewrite length_insert.
  + unfold contents, tx_window. destruct (circle_len t) as [|n] eqn:Hn; [lia|].
    cbn [seq map]. rewrite Nat.sub_succ, Nat.sub_0_r in *. cbn [circle_len].
    assert (tx_slot t 0 = circle_begin t) as H0.
    { unfold tx_slot. rewrite Nat.add_0_r. by apply Nat.mod_small. }
    split; [f_equal; unfold tx_nth; rewrite H0; symmetry; by apply nth_lookup_Some|].
    rewrite <- seq_shift, map_map. apply map_ext_in. intros k Hk%in_seq.
    unfold tx_nth. rewrite Hslot. cbn [tx_storage]. rewrite nth_insert by done.
    rewrite decide_False; [done|]. intros Heq. rewrite <- H0 in Heq.
    apply tx_slot_inj in Heq; lia || done.
- assert (circle_len t = 0%nat) as Hlen by lia. eexists _, _. split; [done|].
  unfold contents. by rewrite Hlen.
Qed.

(** Rolling back what was appended since a checkpoint. *)
Lemma restore_spec t cp :
tx_ok t -> cp_begin cp = circle_begin t -> (cp_len cp <= circle_len t)%nat ->
cp_end cp = tx_slot t (cp_len cp) ->
exists t', restore t cp = Val t' /\ tx_ok t' /\
  length (tx_storage t') = length (tx_storage t) /\
  contents t' = tx_window t 0 (cp_len cp).
Proof.
intros Ht Hcb Hcl Hce. pose proof Ht as [Hb Hl He]. unfold restore.
assert (bytes_since_checkpoint t cp <= length (tx_storage t) - cp_len cp)%nat as Hn.
{ unfold bytes_since_checkpoint. rewrite Hce, He. unfold tx_slot.
  rewrite !wrap_once by lia. repeat case_decide; lia. }
rewrite Hce. destruct (write_bytes_at_spec t (cp_len cp)
  (replicate (bytes_since_checkpoint t cp) 0) Ht) as (t1 & -> & Hs & Hnth).
{ rewrite length_replicate. lia. }
pose proof Hs as (Hsb & Hse & Hsl & Hsc). rewrite run_bind_Val.
eexists. split; [done|]. split_and!.
- split; cbn; [lia|lia|]. unfold tx_slot. cbn. by rewrite ?Hce, Hcb, Hsc.
- done.
- unfold contents. cbn [circle_len]. apply tx_window_ext. intros j Hj.
  assert (forall e n, tx_nth (MkTx (tx_storage t1) (cp_begin cp) e n) j = tx_nth t1 j) as ->.
  { intros. unfold tx_nth, tx_slot. cbn. by rewrite Hcb, Hsb. }
  rewrite Hnth by lia. by rewrite decide_False by lia.
Qed.

End ring.

(** ** Refinement: a bounded queue *)

Inductive tx_op : Type :=
  | OpPush (b : Z) | OpExtend (bs : list Z) | OpShift | OpIsEmpty | OpSpace | OpClear.
Inductive tx_reply : Type :=
  | RBool (b : bool) | RByte (b : option Z) | RSpace (n : nat) | RUnit.

(** The operations on the ring, and the same on a list of bytes bounded by
    [cap]: appending is all or nothing, and bytes leave in the order they came. *)
Definition tx_step (t : transmit_buffer) (o : tx_op) : run (transmit_buffer * tx_reply) :=
  match o with
  | OpPush b => '(t, r) ← push_byte t b; Val (t, RBool r)
  | OpExtend bs => '(t, r) ← extend_from_slice t bs; Val (t, RBool r)
  | OpShift => '(t, r) ← shift_byte t; Val (t, RByte r)
  | OpIsEmpty => Val (t, RBool (tx_is_empty t))
  | OpSpace => Val (t, RSpace (remaining_space t))
  | OpClear => Val (tx_clear t, RUnit)
  end.
Definition queue_step (cap : nat) (q : list Z) (o : tx_op) : list Z * tx_reply :=
  match o with
  | OpPush b => if decide (length q < cap)%nat then (q ++ [b], RBool true) else (q, RBool false)
  | OpExtend bs =>
    if decide (length q + length bs <= cap)%nat then (q ++ bs, RBool true) else (q, RBool false)
  | OpShift => match q with [] => (q, RByte None) | b :: q => (q, RByte (Some b)) end
  | OpIsEmpty => (q, RBool (bool_decide (q = [])))
  | OpSpace => (q, RSpace (cap - length q))
  | OpClear => ([], RUnit)
  end.

Fixpoint tx_run (t : transmit_buffer) (os : list tx_op) : run (transmit_buffer * list tx_reply) :=
  match os with
  | [] => Val (t, [])
  | o :: os => '(t, r) ← tx_step t o; '(t, rs) ← tx_run t os; Val (t, r :: rs)
  end.
Fixpoint queue_run (cap : nat) (q : list Z) (os : list tx_op) : list Z * list tx_reply :=
  match os with
  | [] => (q, [])
  | o :: os => let '(q, r) := queue_step cap q o in
               let '(q, rs) := queue_run cap q os in (q, r :: rs)
  end.

Lemma tx_new_ok s : (0 < length s)%nat -> tx_ok (tx_new s) /\ contents (tx_new s) = [].
Proof.
  intros Hs. split; [|done]. split; cbn; [lia|lia|].
  unfold tx_slot. cbn. symmetry. by apply Nat.mod_small.
Qed.

(** One operation. *)
Lemma tx_step_refines t o :
  tx_ok t -> exists t' r, tx_step t o = Val (t', r) /\ tx_ok t' /\
    length (tx_storage t') = length (tx_storage t) /\
    queue_step (length (tx_storage t)) (contents t) o = (contents t', r).
Proof.
  intros Ht. pose proof (length_contents t) as Hlen. destruct o; cbn [tx_step queue_step].
  - destruct (push_byte_spec t b Ht) as (t' & r & -> & Ht' & _ & Hc & Hr).
    eexists _, _. split; [done|]. split_and!; [done..|]. rewrite Hlen.
    destruct (decide _); destruct Hr; subst; congruence.
  - destruct (extend_from_slice_spec t bs Ht) as (t' & r & -> & Ht' & _ & Hc & Hr).
    eexists _, _. split; [done|]. split_and!; [done..|]. rewrite Hlen.
    destruct (decide _); destruct Hr; subst; congruence.
  - destruct (shift_byte_spec t Ht) as (t' & r & -> & Ht' & Hc & Hr).
    eexists _, _. split; [done|]. split_and!; [done..|].
    destruct (contents t) as [|b q] eqn:Hq; destruct Hr; subst; [by rewrite Hq|done].
  - eexists _, _. split; [done|]. split_and!; [done..|]. do 2 f_equal.
    unfold tx_is_empty. apply bool_decide_ext. rewrite <- Hlen. by destruct (contents t).
  - eexists _, _. split; [done|]. split_and!; [done..|]. by rewrite Hlen.
  - eexists _, _. split; [done|]. destruct Ht as [Hb _ _].
    split_and!; [|cbn; apply length_replicate|done].
    split; cbn; rewrite ?length_replicate; [lia|lia|].
    unfold tx_slot. cbn. rewrite length_replicate. symmetry. apply Nat.mod_small. lia.
Qed.


