(* ===== verification/FrameSink.v ===== *)
(** Frames written into the transmit ring: [FrameSink], [FrameWriter] and the
    legacy [Writer] of [device/okboot/src/buf.rs].

    A writer appends a frame to the ring piece by piece and rolls everything
    back when a piece does not fit.  The section [writing] carries the
    invariant; the theorems say that [send] appends exactly the bytes that the
    host's encoder would produce for the same message, or nothing. *)
From S2P Require Import Prelude Words Messages Crc Encode Decode Cobs Framing Postcard.
From S2P Require Import TransmitBuf.

(** ** The frame writer *)

Module FrameWriter.
Section with_crc.
Context `{Crc}.

Record frame_writer : Type := MkWriter {
fw_tx : transmit_buffer;
fw_encoder : frame_encoder;
fw_checkpoint : tx_checkpoint;
len_offset : nat;
fw_ok : bool;
fw_hasher : hasher;
fmt_bytes : nat;
}.

Definition fw_new (t : transmit_buffer) (e : frame_encoder) : run frame_writer :=
let cp := checkpoint t in
'(t, ok) ← extend_from_slice t PREAMBLE_BYTES;
if ok : bool then
'(t, lo) ← reserve t 4;
Val (MkWriter t e cp (default 0%nat lo) (bool_decide (is_Some lo)) hasher_new 0)
else Val (MkWriter t e cp 0 false hasher_new 0).

(** [_add_bytes_unhashed]: stops at the first append that does not fit. *)
Fixpoint fw_add_unhashed (w : frame_writer) (bs : list Z) : run frame_writer :=
match bs with
| [] => Val w
| byte :: bs =>
if negb (fw_ok w) then Val w
else
'(e, st) ← encoder_write_u8 (fw_encoder w) byte;
'(t, ok) ← match st with
         | EBuf buf => extend_from_slice (fw_tx w) buf
         | EPass => Val (fw_tx w, true)
         end;
fw_add_unhashed (MkWriter t e (fw_checkpoint w) (len_offset w) ok (fw_hasher w)
                 (fmt_bytes w)) bs
end.

Definition fw_add_bytes (w : frame_writer) (bs : list Z) : run frame_writer :=
fw_add_unhashed (MkWriter (fw_tx w) (fw_encoder w) (fw_checkpoint w) (len_offset w) (fw_ok w)
             (hasher_update (fw_hasher w) bs) (fmt_bytes w)) bs.

Definition fw_write32 (w : frame_writer) (x : Z) : run frame_writer :=
fw_add_bytes w (u32_to_le_bytes x).

(** [Write::write_str], with the string as its bytes. *)
Definition fw_write_str (w : frame_writer) (s : list Z) : run frame_writer :=
w ← fw_add_bytes w s;
Val (MkWriter (fw_tx w) (fw_encoder w) (fw_checkpoint w) (len_offset w) (fw_ok w)
 (fw_hasher w) (fmt_bytes w + length s)).

Definition fw_with_tx (w : frame_writer) (t : transmit_buffer) (ok : bool) : frame_writer :=
MkWriter t (fw_encoder w) (fw_checkpoint w) (len_offset w) ok (fw_hasher w) (fmt_bytes w).

(** [self.frame_encoder.finish()] consumes the encoder; its buffer stays with
the sink. *)
Definition fw_finish (w : frame_writer) : run (frame_writer * list Z) :=
let e := fw_encoder w in
out ← encoder_finish e;
b ← encoder_finish_buffer e;
Val (MkWriter (fw_tx w) (MkEncoder (MkInner b (cursor (inner e))) (enc_xor e))
 (fw_checkpoint w) (len_offset w) (fw_ok w) (fw_hasher w) (fmt_bytes w), out).

(** [finalize]: the writer afterwards, whose [fw_ok] is the result. *)
Definition fw_finalize (w : frame_writer) (payload_bytes : nat) : run frame_writer :=
w ← (if fw_ok w then fw_add_unhashed w (u32_to_le_bytes (hasher_finalize (fw_hasher w)))
else Val w);
w ← (if fw_ok w then
 '(w, buf) ← fw_finish w;
 '(t, ok) ← extend_from_slice (fw_tx w) buf;
 Val (fw_with_tx w t ok)
else Val w);
if negb (fw_ok w) then t ← restore (fw_tx w) (fw_checkpoint w); Val (fw_with_tx w t (fw_ok w))
else
match encode_length (Z.of_nat payload_bytes) with
| Some len_bytes =>
'(t, _) ← write_bytes_at (fw_tx w) (len_offset w) len_bytes;
Val (fw_with_tx w t (fw_ok w))
| None => Val (fw_with_tx w (fw_tx w) false)
end.

Definition fw_abort (w : frame_writer) : run frame_writer :=
t ← restore (fw_tx w) (fw_checkpoint w); Val (fw_with_tx w t (fw_ok w)).
End with_crc.
End FrameWriter.
Export FrameWriter.

(** ** The sink *)

Module Sink.
Section with_libraries.
Context `{Crc, Postcard}.

(** The postcard buffer is only its length; [None] while it is taken. *)
Record frame_sink : Type := MkSink {
fs_tx : transmit_buffer;
fs_encoder : buffered_encoder;
fs_postcard : option nat;
}.

Inductive SendError : Type :=
| SendPostcard (e : postcard_error)
| ConstructEncoder
| Truncated.

Definition sink_new (t : transmit_buffer) (e : buffered_encoder) (postcard_buffer : nat)
: frame_sink := MkSink t e (Some postcard_buffer).

(** What the sink holds when a writer that borrowed it is gone. *)
Definition sink_after (w : frame_writer) (px : option nat) : frame_sink :=
MkSink (fw_tx w) (MkBuffered (buf (inner (fw_encoder w))) (enc_xor (fw_encoder w))) px.

Definition write_frame (fs : frame_sink) : run frame_writer :=
e ← unwrap (buffered_frame (fs_encoder fs));
fw_new (fs_tx fs) e.

(** [FrameSink::send] *)
Definition sink_send (fs : frame_sink) (msg : message)
: run (frame_sink * result unit SendError) :=
px_buf ← unwrap (fs_postcard fs);
match buffered_frame (fs_encoder fs) with
| None => Val (MkSink (fs_tx fs) (fs_encoder fs) None, Err ConstructEncoder)
| Some e =>
fw ← fw_new (fs_tx fs) e;
fw ← fw_write32 fw (message_type_to_u32 (encode_message_type msg));
match to_slice msg px_buf with
| Ok buf =>
fw ← fw_add_bytes fw buf;
fw ← fw_finalize fw (length buf);
Val (sink_after fw (Some px_buf), if fw_ok fw then Ok tt else Err Truncated)
| Err e =>
fw ← fw_abort fw;
Val (sink_after fw (Some px_buf), Err (SendPostcard e))
end
end.

(** [rpc_println!], with the formatted line as the pieces that the formatting
machinery passes to [write_str]. *)
Fixpoint fw_write_pieces (w : frame_writer) (pieces : list (list Z)) : run frame_writer :=
match pieces with
| [] => Val w
| s :: pieces => w ← fw_write_str w s; fw_write_pieces w pieces
end.
Definition rpc_println (fs : frame_sink) (pieces : list (list Z)) : run (frame_sink * bool) :=
w ← write_frame fs;
w ← fw_write32 w (message_type_to_u32 PrintString);
w ← fw_write_pieces w pieces;
w ← fw_finalize w (fmt_bytes w);
Val (sink_after w (fs_postcard fs), fw_ok w).
End with_libraries.
End Sink.
Export Sink.

(** ** The legacy print string *)

Module LegacyWriter.
Record legacy_writer : Type := MkLegacyWriter {
lw_tx : transmit_buffer;
lw_checkpoint : tx_checkpoint;
lw_len_offset : nat;
lw_ok : bool;
}.

Definition legacy_print_start (t : transmit_buffer) : run legacy_writer :=
let cp := checkpoint t in
'(t, ok) ← extend_from_slice t (u32_to_le_bytes (su_boot.command_to_u32 su_boot.CmdPrintString));
if ok : bool then
'(t, lo) ← reserve t 4;
match lo with
| Some len_offset => Val (MkLegacyWriter t cp len_offset true)
| None => Val (MkLegacyWriter t cp 0 false)
end
else Val (MkLegacyWriter t cp 0 false).

Definition lw_write_str (w : legacy_writer) (s : list Z) : run legacy_writer :=
if lw_ok w then
'(t, ok) ← extend_from_slice (lw_tx w) s;
Val (MkLegacyWriter t (lw_checkpoint w) (lw_len_offset w) ok)
else Val w.

Fixpoint lw_write_pieces (w : legacy_writer) (pieces : list (list Z)) : run legacy_writer :=
match pieces with
| [] => Val w
| s :: pieces => w ← lw_write_str w s; lw_write_pieces w pieces
end.

Definition lw_finalize (w : legacy_writer) : run (transmit_buffer * bool) :=
if negb (lw_ok w) then t ← restore (lw_tx w) (lw_checkpoint w); Val (t, lw_ok w)
else
let n := bytes_since_checkpoint (lw_tx w) (lw_checkpoint w) in
'(t, _) ← write_bytes_at (lw_tx w) (lw_len_offset w)
            (u32_to_le_bytes (wrap 32 (wrap 32 (Z.of_nat n) - 8)));
Val (t, lw_ok w).

(** [legacy_print_string!] *)
Definition legacy_print_string (t : transmit_buffer) (pieces : list (list Z))
: run (transmit_buffer * bool) :=
w ← legacy_print_start t;
w ← lw_write_pieces w pieces;
lw_finalize w.
End LegacyWriter.
Export LegacyWriter.

(** ** Writing a frame *)

Section writing.
Context `{CrcLaws}.
Implicit Types (t : transmit_buffer) (w : frame_writer).

Lemma contents_prefix t t' y :
contents t' = contents t ++ y ->
(circle_len t <= circle_len t')%nat /\ tx_window t' 0 (circle_len t) = contents t.
Proof.
intros Hc. pose proof (f_equal length Hc) as Hl.
rewrite length_app, !length_contents in Hl. split; [lia|].
unfold contents at 1 in Hc. rewrite Hl, tx_window_app in Hc.
apply app_inj_1 in Hc as [Hc _]; [done|].
by rewrite length_tx_window, length_contents.
Qed.

(** Overwriting bytes that are in the queue. *)
Lemma write_contents t a x bs c :
tx_ok t -> contents t = a ++ x ++ c -> length x = length bs ->
exists t' i, write_bytes_at t (tx_slot t (length a)) bs = Val (t', i) /\ tx_ok t' /\
length (tx_storage t') = length (tx_storage t) /\ contents t' = a ++ bs ++ c.
Proof.
intros Ht Hc Hx. pose proof (f_equal length Hc) as Hl.
rewrite !length_app, length_contents in Hl. pose proof Ht as [Hb Hlen He].
destruct (write_bytes_at_spec t (length a) bs Ht) as (t' & Hw & Hs & Hn); [lia|].
exists t'. eexists. split; [exact Hw|]. split; [by eapply same_ring_ok|].
pose proof Hs as (_ & _ & Hsl & Hsc). split; [done|].
unfold contents in Hc |- *. rewrite Hsl, Hl, !tx_window_app in *.
apply app_inj_1 in Hc as [Ha Hc]; [|by rewrite length_tx_window].
apply app_inj_1 in Hc as [_ Hc]; [|by rewrite length_tx_window].
rewrite Hx in *. f_equal; [|f_equal].
- transitivity (tx_window t 0 (length a)); [|done]. apply tx_window_ext. intros j Hj. rewrite Hn by lia.
by rewrite decide_False by lia.
- apply tx_window_bytes. intros j Hj. rewrite Hn by lia. by rewrite decide_True by lia.
- etransitivity; [|exact Hc]. apply tx_window_ext. intros j Hj. rewrite Hn by lia.
by rewrite decide_False by lia.
Qed.

(** A writer that started on the ring [t0], hashed [hd] and passed [done] to
the encoder.  While everything fits, the ring holds the frame so far; once
something did not, no completion of the frame fits. *)
Record writing t0 (hd dn : list Z) w : Prop := {
wr_tx : tx_ok (fw_tx w);
wr_begin : circle_begin (fw_tx w) = circle_begin t0;
wr_size : length (tx_storage (fw_tx w)) = length (tx_storage t0);
wr_cp : fw_checkpoint w = checkpoint t0;
wr_hash : fw_hasher w = hashed hd;
wr_enc : encoder_ok (fw_encoder w);
wr_xor : enc_xor (fw_encoder w) = COBS_XOR;
wr_prefix : tx_window (fw_tx w) 0 (circle_len t0) = contents t0;
wr_more : (circle_len t0 <= circle_len (fw_tx w))%nat;
wr_data : if fw_ok w
then len_offset w = tx_slot t0 (circle_len t0 + 4) /\
  exists x out, length x = 4%nat /\
    contents (fw_tx w) = contents t0 ++ PREAMBLE_BYTES ++ x ++ out /\
    forall data, out ++ masked COBS_XOR (cobs_encode_from (pending (fw_encoder w)) data) =
      masked COBS_XOR (cobs_encode (dn ++ data))
else forall data, (length (tx_storage t0) <
  circle_len t0 + 8 + length (cobs_encode (dn ++ data)))%nat;
}.

Lemma fw_new_spec t0 b :
tx_ok t0 -> length b = 255%nat ->
exists e w, encoder_with_buffer_xor b COBS_XOR = Some e /\ fw_new t0 e = Val w /\
writing t0 [] [] w /\ fmt_bytes w = 0%nat.
Proof.
intros Ht Hb. destruct (encoder_new_ok b COBS_XOR Hb) as (e & He & Hok & Hp & Hx).
exists e. unfold fw_new.
assert (hasher_new = hashed []) as Hnil by (unfold hashed; by rewrite hasher_update_nil).
destruct (extend_from_slice_spec t0 PREAMBLE_BYTES Ht) as (t1 & r & -> & Ht1 & Hb1 & Hc1 & Hr).
change (length PREAMBLE_BYTES) with 4%nat in Hr.
rewrite run_bind_Val. destruct (decide (circle_len t0 + 4 <= _)%nat) as [Hfit|Hfit];
destruct Hr as [-> Hr].
- destruct (reserve_spec t1 4 Ht1) as (t2 & lo & -> & Ht2 & Hb2 & Hc2 & Hr2).
pose proof (f_equal length Hr) as Hl. rewrite length_app, !length_contents in Hl.
change (length PREAMBLE_BYTES) with 4%nat in Hl.
rewrite run_bind_Val. destruct (decide (circle_len t1 + 4 <= _)%nat);
  [destruct Hr2 as [-> (x & Hx4 & Hcon)]|destruct Hr2 as [-> ->]];
  (eexists; split; [done|]; split; [done|]; split; [|done]).
+ rewrite Hr, <- app_assoc in Hcon. destruct (contents_prefix _ _ _ Hcon).
  split; cbn [fw_tx fw_checkpoint fw_hasher fw_encoder fw_ok len_offset]; try done;
    try congruence.
  rewrite bool_decide_true by eauto. split.
  { cbn [default]. unfold tx_slot. by rewrite Hb1, Hc1, Hl. }
  exists x, []. split_and!; [done|by rewrite app_nil_r|]. intros data. by rewrite Hp.
+ destruct (contents_prefix _ _ _ Hr).
  split; cbn [fw_tx fw_checkpoint fw_hasher fw_encoder fw_ok len_offset]; try done;
    try congruence.
  rewrite bool_decide_false by (by intros [? ?]). intros data. lia.
- subst t1. eexists. split; [done|]; split; [done|]; split; [|done].
split; cbn [fw_tx fw_checkpoint fw_hasher fw_encoder fw_ok len_offset]; try done.
intros data. lia.
Qed.

Lemma length_masked x l : length (masked x l) = length l.
Proof. apply length_map. Qed.

(** One byte to the encoder. *)
Lemma fw_byte_spec t0 hd dn w byte :
writing t0 hd dn w -> fw_ok w = true -> u8 byte ->
exists e st t ok, encoder_write_u8 (fw_encoder w) byte = Val (e, st) /\
match st with
| EBuf buf => extend_from_slice (fw_tx w) buf
| EPass => Val (fw_tx w, true)
end = Val (t, ok) /\
writing t0 hd (dn ++ [byte]) (MkWriter t e (fw_checkpoint w) (len_offset w) ok
  (fw_hasher w) (fmt_bytes w)).
Proof.
intros [] Hok Hb. rewrite Hok in wr_data0.
destruct wr_data0 as (Hlo & x & out & Hx & Hcon & Hfin).
destruct (encoder_write_u8_spec _ byte wr_enc0 Hb) as (e & st & Hw & He & Hxor & Hp & Hout).
assert (forall data, (out ++ match st with EBuf b => b | EPass => [] end) ++
  masked COBS_XOR (cobs_encode_from (pending e) data) =
  masked COBS_XOR (cobs_encode ((dn ++ [byte]) ++ data))) as Hnext.
{ intros data. rewrite <- (app_assoc dn). cbn [app]. rewrite <- Hfin.
cbn [cobs_encode_from]. rewrite Hout, Hp.
destruct (cobs_step _ byte) as [p o]. cbn [fst snd].
rewrite masked_app, wr_xor0, <- app_assoc. done. }
destruct st as [b|].
- destruct (extend_from_slice_spec (fw_tx w) b wr_tx0)
  as (t & ok & Hext & Ht & Hbeg & Hsz & Hr).
exists e, (EBuf b), t, ok. split; [done|]. split; [done|].
destruct (decide _) as [Hfit|Hfit]; destruct Hr as [-> Hr].
+ pose proof Hr as Hr'. rewrite Hcon, <- !app_assoc in Hr'.
  destruct (contents_prefix _ _ _ Hr').
  split; cbn [fw_tx fw_checkpoint fw_hasher fw_encoder fw_ok len_offset]; try done;
    try congruence.
  split; [done|]. exists x, (out ++ b). by rewrite Hr'.
+ subst t. split; cbn [fw_tx fw_checkpoint fw_hasher fw_encoder fw_ok len_offset];
    try done; try congruence.
  intros data. pose proof (f_equal length (Hnext data)) as Hl.
  rewrite !length_app, !length_masked in Hl.
  pose proof (f_equal length Hcon) as Hc. rewrite !length_app, !length_contents in Hc.
  change (length PREAMBLE_BYTES) with 4%nat in Hc. lia.
- exists e, EPass, (fw_tx w), true. split; [done|]. split; [done|].
split; cbn [fw_tx fw_checkpoint fw_hasher fw_encoder fw_ok len_offset]; try done;
  try congruence.
split; [done|]. exists x, out. split_and!; [done|done|]. intros data.
by rewrite <- Hnext, app_nil_r.
Qed.

Lemma fw_add_unhashed_spec t0 hd bs dn w :
writing t0 hd dn w -> bytes bs ->
exists w', fw_add_unhashed w bs = Val w' /\ writing t0 hd (dn ++ bs) w' /\
fmt_bytes w' = fmt_bytes w /\ fw_hasher w' = fw_hasher w.
Proof.
intros Hw Hbs. revert dn w Hw. induction Hbs as [|b bs Hb Hbs IH]; intros dn w Hw.
- exists w. by rewrite app_nil_r.
- cbn [fw_add_unhashed]. destruct (fw_ok w) eqn:Hok; cbn [negb].
+ destruct (fw_byte_spec _ _ _ _ _ Hw Hok Hb) as (e & st & t & ok & -> & Hext & Hw').
  rewrite run_bind_Val, Hext, run_bind_Val.
  destruct (IH _ _ Hw') as (w' & -> & Hfin & Hf & Hh).
  exists w'. rewrite <- app_assoc in Hfin. done.
+ exists w. split_and!; [done| |done|done]. destruct Hw. split; try done.
  rewrite Hok in *. intros data. rewrite <- app_assoc. apply wr_data0.
Qed.

Lemma fw_add_bytes_spec t0 dn w bs :
writing t0 dn dn w -> bytes bs ->
exists w', fw_add_bytes w bs = Val w' /\ writing t0 (dn ++ bs) (dn ++ bs) w' /\
fmt_bytes w' = fmt_bytes w.
Proof.
intros Hw Hbs. unfold fw_add_bytes.
destruct (fw_add_unhashed_spec t0 (dn ++ bs) bs dn (MkWriter (fw_tx w) (fw_encoder w)
(fw_checkpoint w) (len_offset w) (fw_ok w) (hasher_update (fw_hasher w) bs) (fmt_bytes w)))
as (w' & Hr & Hw' & Hf & _); [|done|eauto].
destruct Hw. split; try done. cbn [fw_hasher]. rewrite wr_hash0. apply hasher_update_app.
Qed.

(** The frame of the message bytes [msg] whose payload has [n] bytes. *)
Definition frame_of (msg : list Z) (n : nat) : list Z :=
PREAMBLE_BYTES ++ map (fun x => Z.lor x 0xc0) (length_sextets (Z.of_nat n)) ++
masked COBS_XOR (cobs_encode (msg ++ u32_to_le_bytes (crc32_hash msg))).

(** All of [y] appended, or nothing. *)
Definition appended t0 (y : list Z) t (ok : bool) : Prop :=
tx_ok t /\ length (tx_storage t) = length (tx_storage t0) /\
if decide (circle_len t0 + length y <= length (tx_storage t0))%nat
then ok = true /\ contents t = contents t0 ++ y
else ok = false /\ contents t = contents t0.

Lemma fw_restore_spec t0 hd dn w :
tx_ok t0 -> writing t0 hd dn w ->
exists t, restore (fw_tx w) (fw_checkpoint w) = Val t /\ tx_ok t /\
length (tx_storage t) = length (tx_storage t0) /\ contents t = contents t0.
Proof.
intros [Hb0 Hl0 He0] [].
destruct (restore_spec (fw_tx w) (fw_checkpoint w) wr_tx0) as (t & Hr & Ht & Hsz & Hc);
rewrite ?wr_cp0; cbn [checkpoint cp_begin cp_end cp_len]; try done.
- rewrite He0. unfold tx_slot. by rewrite wr_begin0, wr_size0.
- exists t. split; [by rewrite <- wr_cp0|]. split_and!; [done|congruence|].
rewrite Hc, wr_cp0. done.
Qed.

Lemma fw_finalize_spec t0 msg w n :
tx_ok t0 -> writing t0 msg msg w -> Z.of_nat n < 2 ^ 24 ->
exists w', fw_finalize w n = Val w' /\ appended t0 (frame_of msg n) (fw_tx w') (fw_ok w') /\
length (buf (inner (fw_encoder w'))) = 255%nat /\ enc_xor (fw_encoder w') = COBS_XOR.
Proof.
intros Ht0 Hw Hn. set (crc := u32_to_le_bytes (crc32_hash msg)).
assert (length (frame_of msg n) = 8 + length (cobs_encode (msg ++ crc)))%nat as Hflen.
{ unfold frame_of. rewrite !length_app, length_map, length_masked. done. }
assert (exists w1, (if fw_ok w then fw_add_unhashed w
  (u32_to_le_bytes (hasher_finalize (fw_hasher w))) else Val w) = Val w1 /\
  writing t0 msg (msg ++ crc) w1) as (w1 & Hw1 & Hwr1).
{ destruct (fw_ok w) eqn:Hok.
- rewrite (wr_hash _ _ _ _ Hw). unfold hashed. rewrite <- crc32_hash_spec. fold crc.
  destruct (fw_add_unhashed_spec _ _ crc _ _ Hw) as (w1 & -> & Hwr & _);
    [apply le_bytes_bytes|eauto].
- exists w. split; [done|]. destruct Hw. split; try done.
  rewrite Hok in *. intros data. rewrite <- app_assoc. apply wr_data0. }
unfold fw_finalize. rewrite Hw1, run_bind_Val. clear Hw1 Hw w.
pose proof (wr_enc _ _ _ _ Hwr1) as Henc.
destruct (fw_ok w1) eqn:Hok.
- destruct (encoder_finish_buffer_length _ Henc) as (fb & Hfb & Hfbl).
unfold fw_finish. rewrite encoder_finish_spec by done.
rewrite run_bind_Val, Hfb, !run_bind_Val. cbn [fw_tx]. pose proof Hwr1 as [].
rewrite Hok in wr_data0. destruct wr_data0 as (Hlo & x & out & Hx & Hcon & Hfin).
specialize (Hfin []). rewrite app_nil_r in Hfin. cbn [cobs_encode_from] in Hfin.
rewrite wr_xor0. change (map _ (cobs_finish _)) with
  (masked COBS_XOR (cobs_finish (pending (fw_encoder w1)))).
set (tail := masked COBS_XOR (cobs_finish _)) in *.
pose proof (f_equal length Hcon) as Hcl. rewrite !length_app, !length_contents in Hcl.
change (length PREAMBLE_BYTES) with 4%nat in Hcl.
pose proof (f_equal length Hfin) as Hfl. rewrite !length_app, !length_masked in Hfl.
destruct (extend_from_slice_spec (fw_tx w1) tail wr_tx0)
  as (t & ok & -> & Ht & Hbeg & Hsz & Hr).
rewrite !run_bind_Val. unfold fw_with_tx.
cbn [fw_ok fw_tx fw_encoder len_offset fw_checkpoint fw_hasher fmt_bytes].
destruct (decide _) as [Hfit|Hfit]; destruct Hr as [-> Hr]; cbn [negb].
+ rewrite encode_length_Some by lia.
  set (lens := map _ (length_sextets (Z.of_nat n))).
  rewrite Hcon, <- !app_assoc, Hfin, (app_assoc (contents t0)) in Hr.
  destruct (write_contents t (contents t0 ++ PREAMBLE_BYTES) x lens
    (masked COBS_XOR (cobs_encode (msg ++ crc))) Ht Hr) as (t2 & i & Hwt & Ht2 & Hsz2 & Hc2);
    [by rewrite Hx|].
  assert (tx_slot t (length (contents t0 ++ PREAMBLE_BYTES)) = len_offset w1) as Hslot.
  { rewrite Hlo, length_app, length_contents. unfold tx_slot.
    by rewrite Hbeg, Hsz, wr_begin0, wr_size0. }
  rewrite <- Hslot, Hwt, run_bind_Val. eexists. split; [done|].
  cbn [fw_tx fw_ok fw_encoder inner buf enc_xor]. split; [|by split].
  split; [done|]. split; [congruence|]. rewrite Hflen. rewrite decide_True by lia.
  split; [done|]. rewrite Hc2. unfold frame_of. by rewrite <- app_assoc.
+ subst t. destruct (fw_restore_spec _ _ _ _ Ht0 Hwr1) as (t & Hrs & Htr & Hszr & Hcr).
  rewrite Hrs, run_bind_Val. eexists. split; [done|].
  cbn [fw_tx fw_ok fw_encoder inner buf enc_xor]. split; [|by split].
  split; [done|]. split; [congruence|]. rewrite Hflen. by rewrite decide_False by lia.
- rewrite run_bind_Val, Hok. cbn [negb].
destruct (fw_restore_spec _ _ _ _ Ht0 Hwr1) as (t & Hrs & Htr & Hszr & Hcr).
rewrite Hrs, run_bind_Val. eexists. split; [done|].
cbn [fw_with_tx fw_tx fw_ok fw_encoder]. pose proof Hwr1 as []. split.
+ split; [done|]. split; [done|]. rewrite Hok in wr_data0. specialize (wr_data0 []).
  rewrite app_nil_r in wr_data0. rewrite Hflen. by rewrite decide_False by lia.
+ split; [by destruct Henc|done].
Qed.

(** The frame is what the host's encoder writes. *)
Lemma frame_of_wire_encode ty payload :
bytes payload -> Z.of_nat (length payload) < 2 ^ 24 ->
wire_encode ty payload =
Val (frame_of (u32_to_le_bytes (message_type_to_u32 ty) ++ payload) (length payload)).
Proof. intros. by rewrite wire_encode_spec. Qed.
End writing.

(** ** The properties of the sink *)

(** A sink between frames: its ring is well formed, its encoder buffer has the
    size the encoder wants, its postcard buffer is home. *)
Record sink_ok `{Crc, Postcard} (fs : frame_sink) : Prop := {
  so_tx : tx_ok (fs_tx fs);
  so_encoder : length (be_buffer (fs_encoder fs)) = 255%nat;
  so_xor : be_xor (fs_encoder fs) = COBS_XOR;
  so_postcard : is_Some (fs_postcard fs);
}.

(** The whole of [wire] is appended to what waits in the ring, or, if it does
    not fit, nothing is. *)
Definition all_or_nothing `{Crc, Postcard} (fs fs' : frame_sink) (wire : list Z) (ok : bool)
  : Prop :=
  if decide (circle_len (fs_tx fs) + length wire <= length (tx_storage (fs_tx fs)))%nat
  then ok = true /\ contents (fs_tx fs') = contents (fs_tx fs) ++ wire
  else ok = false /\ contents (fs_tx fs') = contents (fs_tx fs).

Lemma sink_frame_start `{CrcLaws, Postcard} fs :
  sink_ok fs -> exists e w, buffered_frame (fs_encoder fs) = Some e /\
    fw_new (fs_tx fs) e = Val w /\ writing (fs_tx fs) [] [] w /\ fmt_bytes w = 0%nat.
Proof.
  intros []. unfold buffered_frame. rewrite so_xor0. by apply fw_new_spec.
Qed.

(** The ring's size and the postcard buffer are not touched. *)
Definition same_shape `{Crc, Postcard} (fs fs' : frame_sink) : Prop :=
  length (tx_storage (fs_tx fs')) = length (tx_storage (fs_tx fs)) /\
  fs_postcard fs' = fs_postcard fs.

Lemma sink_send_spec `{CrcLaws, PostcardLaws} fs px msg :
  sink_ok fs -> fs_postcard fs = Some px -> Z.of_nat px < 2 ^ 24 -> message_ok msg ->
  exists fs' r, sink_send fs msg = Val (fs', r) /\ sink_ok fs' /\ same_shape fs fs' /\
    match to_slice msg px with
    | Err e => r = Err (SendPostcard e) /\ contents (fs_tx fs') = contents (fs_tx fs)
    | Ok payload => exists wire ok,
        wire_encode (encode_message_type msg) payload = Val wire /\
        all_or_nothing fs fs' wire ok /\ r = if ok : bool then Ok tt else Err Truncated
    end.
Proof.
  intros Hfs Hpx Hlim Hm. pose proof Hfs as [Ht0 _ _ _].
  destruct (sink_frame_start fs Hfs) as (e & w & He & Hw & Hwr & _).
  unfold sink_send. rewrite Hpx. cbn [unwrap]. rewrite run_bind_Val, He, Hw, run_bind_Val.
  unfold fw_write32. destruct (fw_add_bytes_spec _ _ _ (u32_to_le_bytes (message_type_to_u32
    (encode_message_type msg))) Hwr) as (w1 & -> & Hw1 & _); [apply le_bytes_bytes|].
  rewrite run_bind_Val. destruct (to_slice msg px) as [payload|err] eqn:Hs.
  - apply to_slice_Ok in Hs as [Hv Hl].
    assert (bytes payload) as Hb by (by eapply to_stdvec_bytes).
    destruct (fw_add_bytes_spec _ _ _ payload Hw1 Hb) as (w2 & -> & Hw2 & _).
    rewrite run_bind_Val.
    destruct (fw_finalize_spec _ _ _ (length payload) Ht0 Hw2)
      as (w3 & -> & (Ht & Hsz & Hfr) & Hbl & Hx); [lia|].
    rewrite run_bind_Val. eexists _, _. split; [done|]. split; [by split|]. split; [by split|].
    rewrite frame_of_wire_encode by (done || lia). eexists _, (fw_ok w3). split; [done|].
    by split.
  - destruct (fw_restore_spec _ _ _ _ Ht0 Hw1) as (t & Hr & Ht & Hsz & Hc).
    unfold fw_abort. rewrite Hr, !run_bind_Val. eexists _, _. split; [done|].
    destruct Hw1 as [? ? ? ? ? [] ? ? ? ?]. split; [by split|]. by split; [split|].
Qed.

(** C10: [send] is all or nothing and speaks the host's format.  For any
    message of the protocol, a sink in a well-formed state never panics; if the
    message serialises to [payload], the bytes it appends to the ring are
    exactly those that the host's [encode] would produce for that type and
    payload, or none when they do not fit ([Truncated]); if it does not
    serialise, the ring is as before.  The sink stays well formed. *)
Theorem sink_send_frame `{CrcLaws, PostcardLaws} fs px msg :
  sink_ok fs -> fs_postcard fs = Some px -> Z.of_nat px < 2 ^ 24 -> message_ok msg ->
  exists fs' r, sink_send fs msg = Val (fs', r) /\ sink_ok fs' /\
    match to_slice msg px with
    | Err e => r = Err (SendPostcard e) /\ contents (fs_tx fs') = contents (fs_tx fs)
    | Ok payload => exists wire ok,
        wire_encode (encode_message_type msg) payload = Val wire /\
        all_or_nothing fs fs' wire ok /\ r = if ok : bool then Ok tt else Err Truncated
    end.
Proof.
  intros Hfs Hpx Hlim Hm.
  destruct (sink_send_spec fs px msg Hfs Hpx Hlim Hm) as (fs' & r & Hr & Hok & _ & Hs). eauto.
Qed.

(** A sink over a fresh ring of [n] bytes. *)
Definition sink_of (n : nat) : frame_sink :=
  sink_new (tx_new (replicate n 0)) (MkBuffered (replicate 255 0) COBS_XOR) 64.
Lemma sink_of_ok n : (0 < n)%nat -> sink_ok (sink_of n).
Proof.
  intros Hn. split; [|done|done|by eexists]. apply tx_new_ok. by rewrite length_replicate.
Qed.

Lemma sink_send_frame_witness :
  exists fs' r, sink_send (sink_of 48) (MChunkReq 7) = Val (fs', r) /\ sink_ok fs' /\
    exists wire ok, wire_encode ChunkReq [7; 0; 0; 0] = Val wire /\
      all_or_nothing (sink_of 48) fs' wire ok /\ r = if ok : bool then Ok tt else Err Truncated.
Proof.
  destruct (sink_send_frame (sink_of 48) 64 (MChunkReq 7)) as (fs' & r & Hr & Hok & Hm);
    [apply sink_of_ok; lia|done|lia|cbn; unfold fits; lia|].
  exists fs', r. split; [exact Hr|]. split; [exact Hok|exact Hm].
Defined.

Lemma fw_write_pieces_spec `{CrcLaws} t0 dn w pieces :
  writing t0 dn dn w -> Forall (Forall (fits 8)) pieces ->
  exists w', fw_write_pieces w pieces = Val w' /\
    writing t0 (dn ++ List.concat pieces) (dn ++ List.concat pieces) w' /\
    fmt_bytes w' = (fmt_bytes w + length (List.concat pieces))%nat.
Proof.
  intros Hw Hp. revert dn w Hw. induction Hp as [|s pieces Hs Hp IH]; intros dn w Hw.
  - exists w. cbn. rewrite app_nil_r. split_and!; [done|done|lia].
  - cbn [fw_write_pieces]. unfold fw_write_str.
    destruct (fw_add_bytes_spec _ _ _ s Hw Hs) as (w1 & -> & Hw1 & Hf1). rewrite !run_bind_Val.
    destruct (IH (dn ++ s) (MkWriter (fw_tx w1) (fw_encoder w1) (fw_checkpoint w1)
      (len_offset w1) (fw_ok w1) (fw_hasher w1) (fmt_bytes w1 + length s)))
      as (w2 & -> & Hw2 & Hf2); [by destruct Hw1|].
    exists w2. cbn [List.concat]. rewrite <- app_assoc in Hw2. split_and!; [done|done|].
    rewrite Hf2, length_app. cbn [fmt_bytes]. lia.
Qed.

Lemma rpc_println_spec `{CrcLaws, Postcard} fs pieces :
  sink_ok fs -> Forall (Forall (fits 8)) pieces ->
  Z.of_nat (length (List.concat pieces)) < 2 ^ 24 ->
  exists fs' ok wire, rpc_println fs pieces = Val (fs', ok) /\ sink_ok fs' /\ same_shape fs fs' /\
    wire_encode PrintString (List.concat pieces) = Val wire /\ all_or_nothing fs fs' wire ok.
Proof.
  intros Hfs Hp Hlim. pose proof Hfs as [Ht0 _ _ Hpx].
  destruct (sink_frame_start fs Hfs) as (e & w & He & Hw & Hwr & Hfmt).
  unfold rpc_println, write_frame. rewrite He. cbn [unwrap].
  rewrite run_bind_Val, Hw, run_bind_Val. unfold fw_write32.
  destruct (fw_add_bytes_spec _ _ _ (u32_to_le_bytes (message_type_to_u32 PrintString)) Hwr)
    as (w1 & -> & Hw1 & Hf1); [apply le_bytes_bytes|].
  rewrite run_bind_Val. destruct (fw_write_pieces_spec _ _ _ pieces Hw1 Hp)
    as (w2 & -> & Hw2 & Hf2). rewrite run_bind_Val.
  assert (fmt_bytes w2 = length (List.concat pieces)) as -> by lia.
  destruct (fw_finalize_spec _ _ _ (length (List.concat pieces)) Ht0 Hw2)
    as (w3 & -> & (Ht & Hsz & Hfr) & Hbl & Hx); [lia|].
  rewrite run_bind_Val. eexists _, _, _. split; [done|]. split; [by split|]. split; [by split|].
  split; [|exact Hfr]. rewrite frame_of_wire_encode; [done|by apply List.Forall_concat|lia].
Qed.

(** [rpc_println!] writes one frame.  However the formatting machinery
    splits the line into pieces, the ring receives exactly one [PrintString]
    frame whose payload is the joined text, or nothing when it does not fit. *)
Theorem rpc_println_frame `{CrcLaws, Postcard} fs pieces :
  sink_ok fs -> Forall (Forall (fits 8)) pieces ->
  Z.of_nat (length (List.concat pieces)) < 2 ^ 24 ->
  exists fs' ok wire, rpc_println fs pieces = Val (fs', ok) /\ sink_ok fs' /\
    wire_encode PrintString (List.concat pieces) = Val wire /\ all_or_nothing fs fs' wire ok.
Proof.
  intros Hfs Hp Hlim.
  destruct (rpc_println_spec fs pieces Hfs Hp Hlim) as (fs' & ok & w & Hr & Hok & _ & Hs). eauto 6.
Qed.

Lemma rpc_println_frame_witness :
  exists fs' ok wire, rpc_println (sink_of 64) [[72; 105]; []; [10]] = Val (fs', ok) /\
    sink_ok fs' /\ wire_encode PrintString [72; 105; 10] = Val wire /\
    all_or_nothing (sink_of 64) fs' wire ok.
Proof.
  apply (rpc_println_frame (sink_of 64) [[72; 105]; []; [10]]);
    [apply sink_of_ok; lia|decide_now|cbn; lia].
Defined.

(** The legacy writer. *)
Lemma lw_write_pieces_spec t cp lo pieces :
  tx_ok t -> exists t' ok, lw_write_pieces (MkLegacyWriter t cp lo true) pieces =
      Val (MkLegacyWriter t' cp lo ok) /\ tx_ok t' /\ circle_begin t' = circle_begin t /\
    length (tx_storage t') = length (tx_storage t) /\
    (exists y, contents t' = contents t ++ y) /\
    if decide (circle_len t + length (List.concat pieces) <= length (tx_storage t))%nat
    then ok = true /\ contents t' = contents t ++ List.concat pieces else ok = false.
Proof.
  revert t. induction pieces as [|s pieces IH]; intros t Ht.
  - exists t, true. pose proof (txo_len _ Ht). split_and!; [done..| |].
    + exists []. by rewrite app_nil_r.
    + cbn. rewrite decide_True by lia. by rewrite app_nil_r.
  - cbn [lw_write_pieces List.concat]. unfold lw_write_str. cbn [lw_ok lw_tx].
    rewrite length_app.
    destruct (extend_from_slice_spec t s Ht) as (t1 & ok1 & -> & Ht1 & Hb1 & Hc1 & Hr1).
    rewrite run_bind_Val. destruct (decide (circle_len t + length s <= _)%nat) as [Hfit|Hfit];
      destruct Hr1 as [-> Hr1].
    + destruct (IH t1 Ht1) as (t2 & ok2 & H2 & Ht2 & Hb2 & Hc2 & [y Hy] & Hr2).
      pose proof (f_equal length Hr1) as Hl. rewrite length_app, !length_contents in Hl.
      exists t2, ok2. rewrite run_bind_Val. cbn [lw_checkpoint lw_len_offset].
      split_and!; [done|done|congruence|congruence| |].
      * exists (s ++ y). by rewrite Hy, Hr1, app_assoc.
      * revert Hr2. repeat case_decide; try lia; intros Hr2; [|done].
        destruct Hr2 as [-> Hr2]. by rewrite Hr2, Hr1, app_assoc.
    + subst t1. exists t, false. rewrite run_bind_Val. cbn [lw_checkpoint lw_len_offset].
      split_and!; [|done|done|done| |].
      * clear. induction pieces as [|s' pieces IH]; [done|]. cbn. exact IH.
      * exists []. by rewrite app_nil_r.
      * by rewrite decide_False by lia.
Qed.

(** The bytes appended since a checkpoint, modulo the size of the ring. *)
Lemma bytes_since_checkpoint_spec t t0 k :
  tx_ok t -> tx_ok t0 -> circle_begin t = circle_begin t0 ->
  length (tx_storage t) = length (tx_storage t0) ->
  circle_len t = (circle_len t0 + k)%nat ->
  bytes_since_checkpoint t (checkpoint t0) =
    if decide (k = length (tx_storage t0)) then 0%nat else k.
Proof.
  intros [Hb Hl He] [Hb0 Hl0 He0] Hbb Hss Hk. unfold bytes_since_checkpoint.
  cbn [checkpoint cp_end]. rewrite He, He0. unfold tx_slot. rewrite Hbb, Hss, Hk in *.
  rewrite !wrap_once by lia. repeat case_decide; lia.
Qed.

(** The length field of a legacy print of [n] bytes into a ring of [cap]. *)
Definition legacy_length_field (cap n : nat) : list Z :=
  u32_to_le_bytes (if decide (8 + n = cap)%nat then 0xfffffff8 else Z.of_nat n).

Definition legacy_command : list Z := [0xEE; 0xEE; 0xDD; 0xDD].

(** A writer that did not fit is rolled back by [finalize]. *)
Lemma lw_rollback t w y :
  tx_ok t -> lw_ok w = false -> lw_checkpoint w = checkpoint t -> tx_ok (lw_tx w) ->
  circle_begin (lw_tx w) = circle_begin t ->
  length (tx_storage (lw_tx w)) = length (tx_storage t) ->
  contents (lw_tx w) = contents t ++ y ->
  exists t', lw_finalize w = Val (t', false) /\ tx_ok t' /\
    length (tx_storage t') = length (tx_storage t) /\ contents t' = contents t.
Proof.
  intros Ht Hok Hcp Ht1 Hb1 Hs1 Hc1. destruct (contents_prefix _ _ _ Hc1) as [Hle Hpre].
  destruct (restore_spec (lw_tx w) (checkpoint t) Ht1) as (t' & Hr & Ht' & Hs' & Hc');
    cbn [checkpoint cp_begin cp_len cp_end]; [done|done| |].
  { rewrite (txo_end _ Ht). unfold tx_slot. by rewrite Hb1, Hs1. }
  exists t'. unfold lw_finalize. rewrite Hok, Hcp, Hr. cbn [negb]. rewrite run_bind_Val.
  split_and!; [done|done|congruence|]. rewrite Hc'. exact Hpre.
Qed.

Lemma lw_write_pieces_skip p w : lw_ok w = false -> lw_write_pieces w p = Val w.
Proof.
  intros Hok. induction p as [|s p IH]; [done|]. cbn [lw_write_pieces].
  unfold lw_write_str. by rewrite Hok, run_bind_Val.
Qed.

(** The command word and the reserved length. *)
Lemma legacy_print_start_spec t :
  tx_ok t -> exists w y, legacy_print_start t = Val w /\ lw_checkpoint w = checkpoint t /\
    tx_ok (lw_tx w) /\ circle_begin (lw_tx w) = circle_begin t /\
    length (tx_storage (lw_tx w)) = length (tx_storage t) /\
    contents (lw_tx w) = contents t ++ y /\
    if decide (circle_len t + 8 <= length (tx_storage t))%nat
    then lw_ok w = true /\ lw_len_offset w = tx_slot t (circle_len t + 4) /\
      exists x, length x = 4%nat /\ y = legacy_command ++ x
    else lw_ok w = false.
Proof.
  intros Ht. unfold legacy_print_start.
  change (u32_to_le_bytes (su_boot.command_to_u32 su_boot.CmdPrintString)) with legacy_command.
  destruct (extend_from_slice_spec t legacy_command Ht) as (t1 & r1 & -> & Ht1 & Hb1 & Hs1 & Hr1).
  rewrite run_bind_Val. change (length legacy_command) with 4%nat in Hr1.
  destruct (decide (circle_len t + 4 <= _)%nat) as [Hf1|Hf1]; destruct Hr1 as [-> Hc1].
  2: { subst t1. eexists _, []. split; [done|]. rewrite app_nil_r.
       split_and!; [done..|]. by rewrite decide_False by lia. }
  pose proof (f_equal length Hc1) as Hl1. rewrite length_app, !length_contents in Hl1.
  change (length legacy_command) with 4%nat in Hl1.
  destruct (reserve_spec t1 4 Ht1) as (t2 & r2 & -> & Ht2 & Hb2 & Hs2 & Hr2).
  rewrite run_bind_Val. destruct (decide (circle_len t1 + 4 <= _)%nat) as [Hf2|Hf2].
  - destruct Hr2 as [-> (x & Hx & Hc2)]. exists (MkLegacyWriter t2 (checkpoint t)
      (tx_slot t1 (circle_len t1)) true), (legacy_command ++ x).
    rewrite Hc1, <- app_assoc in Hc2. split_and!; try done; try (cbn; congruence).
    rewrite decide_True by lia. split; [done|]. split; [|eauto].
    cbn [lw_len_offset]. unfold tx_slot. by rewrite Hb1, Hs1, Hl1.
  - destruct Hr2 as [-> ->]. eexists _, legacy_command. split; [done|].
    split_and!; [done..|]. by rewrite decide_False by lia.
Qed.

(** The length word, once all of the text is in the ring. *)
Lemma lw_finalize_spec t w x text :
  tx_ok t -> Z.of_nat (length (tx_storage t)) < 2 ^ 32 ->
  lw_ok w = true -> lw_checkpoint w = checkpoint t -> tx_ok (lw_tx w) ->
  circle_begin (lw_tx w) = circle_begin t ->
  length (tx_storage (lw_tx w)) = length (tx_storage t) ->
  lw_len_offset w = tx_slot t (circle_len t + 4) -> length x = 4%nat ->
  contents (lw_tx w) = contents t ++ legacy_command ++ x ++ text ->
  exists t', lw_finalize w = Val (t', true) /\ tx_ok t' /\
    length (tx_storage t') = length (tx_storage t) /\ contents t' = contents t ++
    legacy_command ++ legacy_length_field (length (tx_storage t)) (length text) ++ text.
Proof.
  intros Ht Hcap Hok Hcp Htw Hb Hs Hlo Hx Hc. unfold lw_finalize. rewrite Hok, Hcp. cbn [negb].
  pose proof (f_equal length Hc) as Hl. rewrite !length_app, !length_contents, Hx in Hl.
  change (length legacy_command) with 4%nat in Hl. pose proof (txo_len _ Htw).
  rewrite (bytes_since_checkpoint_spec (lw_tx w) t (8 + length text)) by (done || lia).
  assert (u32_to_le_bytes (wrap 32 (wrap 32 (Z.of_nat
    (if decide (8 + length text = length (tx_storage t))%nat then 0%nat else 8 + length text)%nat) - 8))
    = legacy_length_field (length (tx_storage t)) (length text)) as ->.
  { unfold legacy_length_field. f_equal. case_decide; [done|].
    unfold wrap. rewrite (Z.mod_small (Z.of_nat (8 + length text))) by lia.
    rewrite Z.mod_small by lia. lia. }
  rewrite app_assoc in Hc. destruct (write_contents (lw_tx w) (contents t ++ legacy_command) x
    (legacy_length_field (length (tx_storage t)) (length text)) text Htw Hc)
    as (t' & i & Hw & Ht' & Hs' & Hc'); [by rewrite Hx|].
  assert (tx_slot (lw_tx w) (length (contents t ++ legacy_command)) = lw_len_offset w) as Hslot.
  { rewrite Hlo, length_app, length_contents. change (length legacy_command) with 4%nat.
    unfold tx_slot. congruence. }
  rewrite <- Hslot, Hw, run_bind_Val. eexists. split; [done|]. split; [done|].
  split; [congruence|]. by rewrite Hc', <- app_assoc.
Qed.

Lemma legacy_print_string_total t pieces :
  tx_ok t -> Z.of_nat (length (tx_storage t)) < 2 ^ 32 ->
  exists t' ok, legacy_print_string t pieces = Val (t', ok) /\ tx_ok t' /\
    length (tx_storage t') = length (tx_storage t) /\
    let text := List.concat pieces in
    if decide (circle_len t + 8 + length text <= length (tx_storage t))%nat
    then ok = true /\ contents t' = contents t ++ [0xEE; 0xEE; 0xDD; 0xDD] ++
           legacy_length_field (length (tx_storage t)) (length text) ++ text
    else ok = false /\ contents t' = contents t.
Proof.
  intros Ht Hcap. unfold legacy_print_string. fold legacy_command.
  destruct (legacy_print_start_spec t Ht) as (w & y & -> & Hcp & Htw & Hb & Hs & Hc & Hw).
  rewrite run_bind_Val. cbv zeta. set (text := List.concat pieces).
  pose proof (f_equal length Hc) as Hl. rewrite length_app, !length_contents in Hl.
  destruct (decide (circle_len t + 8 <= _)%nat) as [Hf|Hf].
  - destruct Hw as (Hok & Hlo & x & Hx & ->). destruct w as [t1 cp lo ok]. cbn in Hok. subst ok.
    rewrite length_app, Hx in Hl. change (length legacy_command) with 4%nat in Hl.
    cbn [lw_tx lw_checkpoint lw_len_offset] in *.
    destruct (lw_write_pieces_spec t1 cp lo pieces Htw)
      as (t2 & ok & -> & Ht2 & Hb2 & Hs2 & [y Hy] & Hr2). fold text in Hr2.
    rewrite run_bind_Val. rewrite Hs in Hr2. destruct (decide (circle_len t1 + _ <= _)%nat) as [Hf2|Hf2].
    + destruct Hr2 as [-> Hc2]. rewrite Hc, <- !app_assoc in Hc2.
      destruct (lw_finalize_spec t (MkLegacyWriter t2 cp lo true) x text)
        as (t3 & -> & Ht3 & Hs3 & Hc3); cbn [lw_tx lw_ok]; try done; try congruence.
      eexists _, _. split; [done|]. split; [done|]. split; [congruence|]. by rewrite decide_True by lia.
    + subst ok. rewrite Hc, <- app_assoc in Hy.
      destruct (lw_rollback t (MkLegacyWriter t2 cp lo false)
        ((legacy_command ++ x) ++ y) Ht eq_refl Hcp Ht2) as (t3 & -> & Ht3 & Hs3 & Hc3); cbn [lw_tx]; try congruence; try exact Hy.
      eexists _, _. split; [done|]. split; [done|]. split; [congruence|]. by rewrite decide_False by lia.
  - rewrite lw_write_pieces_skip, run_bind_Val by done.
    destruct (lw_rollback t w y) as (t3 & -> & Ht3 & Hs3 & Hc3); try done.
    eexists _, _. split; [done|]. split; [done|]. split; [congruence|]. by rewrite decide_False by lia.
Qed.

(** The legacy print is all or nothing, with one wrong case.  A legacy
    print appends its command word, a length and the text, or, when they do not
    fit, nothing.  The length is the text's, except when the message fills the
    whole ring: then the distance between the two ring positions is zero and
    the field holds [0 - 8] as a [u32]. *)
Theorem legacy_print_string_spec t pieces :
  tx_ok t -> Z.of_nat (length (tx_storage t)) < 2 ^ 32 ->
  exists t' ok, legacy_print_string t pieces = Val (t', ok) /\ tx_ok t' /\
    let text := List.concat pieces in
    if decide (circle_len t + 8 + length text <= length (tx_storage t))%nat
    then ok = true /\ contents t' = contents t ++ [0xEE; 0xEE; 0xDD; 0xDD] ++
           legacy_length_field (length (tx_storage t)) (length text) ++ text
    else ok = false /\ contents t' = contents t.
Proof.
  intros Ht Hcap.
  destruct (legacy_print_string_total t pieces Ht Hcap) as (t' & ok & Hp & Ht' & _ & Hc). eauto.
Qed.

Lemma legacy_print_string_spec_witness :
  exists t' ok, legacy_print_string (tx_new (replicate 10 0)) [[72]; [10]] = Val (t', ok) /\
    tx_ok t' /\ ok = true /\
    contents t' = [0xEE; 0xEE; 0xDD; 0xDD] ++ legacy_length_field 10 2 ++ [72; 10].
Proof.
  destruct (legacy_print_string_spec (tx_new (replicate 10 0)) [[72]; [10]])
    as (t' & ok & Hp & Ht & Hc); [apply tx_new_ok; cbn; lia|cbn; lia|].
  exists t', ok. split; [exact Hp|]. split; [exact Ht|exact Hc].
Defined.
