(* ===== verification/Timing.v ===== *)
(** Time on the device: the system timer and its delays
    ([device/quartz/src/device/bcm2835/timing.rs]), the mini UART's clock
    divider ([.../mini_uart.rs]) and the byte-rate timeouts of the boot
    protocol ([device/okboot/src/timeouts.rs] and [Timeouts] of
    [device/okboot/src/protocol.rs]).

    A timer register is read anew each time, so a reading is an input.  A
    [Duration] is its number of microseconds. *)
From S2P Require Import Prelude.

(** ** The system timer *)

Module SystemTimer.

(** [__floating_time_unguarded]: the high word is read before the low one. *)
Definition floating_time (chi clo : Z) : Z := Z.lor (Z.shiftl chi 32) clo.

(** [Instant]: what [now] stored; [elapsed] against a later reading. *)
Definition instant_elapsed (instant current_time : Z) : Z := wrap 64 (current_time - instant).

Definition U64_HALF : Z := (2 ^ 64 - 1) / 2.

(** The loops of [delay_micros] over the readings that the body makes; [None]
  when [fuel] readings did not end it. *)
Fixpoint wait_wrapped (fuel : nat) (clock : nat -> Z) (k : nat) (start en : Z)
  (passed_zero passed_half : bool) : option nat :=
match fuel with
| O => None
| S fuel =>
  let now := clock k in
  let passed_zero := passed_zero || ((now <? start) && negb passed_zero) in
  let passed_half := passed_half || (passed_zero && (U64_HALF <=? now) && negb passed_half) in
  if (passed_zero && (en <=? now)) || (passed_half && (now <? U64_HALF)) then Some k
  else wait_wrapped fuel clock (k + 1) start en passed_zero passed_half
end.
Fixpoint wait_while (fuel : nat) (clock : nat -> Z) (k : nat) (continue : Z -> bool)
: option nat :=
match fuel with
| O => None
| S fuel =>
  if continue (clock k) then wait_while fuel clock (k + 1) continue else Some k
end.

(** [delay_micros]: [clock 0] is the reading taken at its start; the index of
  the reading on which it returns. *)
Definition delay_micros (fuel : nat) (clock : nat -> Z) (microseconds : Z) : option nat :=
let start := clock 0%nat in
let en := wrap 64 (start + microseconds) in
if en <? start then
  if 0xffffffff <? microseconds
  then wait_wrapped fuel clock 1 start en false false
  else wait_while fuel clock 1 (fun now => (start <=? now) || (now <? en))
else wait_while fuel clock 1 (fun now => (start <=? now) && (now <? en)).

(** The steps of [delay_millis]: the microseconds of each call to
  [delay_micros]. *)
Definition MAX_MILLIS_PER_STEP : Z := (2 ^ 64 - 1) / 1000.
Fixpoint delay_millis_steps (fuel : nat) (milliseconds : Z) : option (list Z) :=
match fuel with
| O => None
| S fuel =>
  if MAX_MILLIS_PER_STEP <? milliseconds then
    steps ← delay_millis_steps fuel (milliseconds - MAX_MILLIS_PER_STEP);
    Some (MAX_MILLIS_PER_STEP * 1000 :: steps)
  else Some [milliseconds * 1000]
end.

End SystemTimer.
Export SystemTimer.

(** ** The mini UART clock *)

Module MiniUart.

Definition MINI_UART_CLOCK_RATE : Z := 250000000.

(** [baud_to_clock_divider]: a [u32] product and subtraction, truncated to 16
  bits; a zero product is a division by zero. *)
Definition baud_to_clock_divider (baud_rate : Z) : run Z :=
let d := wrap 32 (8 * baud_rate) in
if d =? 0 then Panic
else Val (wrap 16 (wrap 32 (MINI_UART_CLOCK_RATE / d - 1))).

(** [mini_uart1_set_clock]: [readback d] is what the divider register reads
  after [d] was written to it; the register's value and the result. *)
Definition mini_uart1_set_clock (readback : Z -> Z) (old_clock_divider new_divider : Z)
: Z * bool :=
let succeeded := readback new_divider =? new_divider in
(if succeeded then new_divider else old_clock_divider, succeeded).

End MiniUart.
Export MiniUart.

(** ** Timeouts of the protocol *)

Module Timeouts.

(** [at_baud_8n1]: the [u64] arithmetic of the release build; a baud rate below
  ten divides by zero. *)
Definition at_baud_8n1 (n_bytes baud : Z) : run Z :=
let byte_rate := baud / 10 in
let bytes_mega := wrap 64 (n_bytes * 1000000) in
if byte_rate =? 0 then Panic
else Val (wrap 64 (bytes_mega + byte_rate - 1) / byte_rate).

Definition ERROR_RECOVERY : Z := 12.
Definition BYTE_READ : Z := 2.
Definition SESSION_EXPIRES : Z := 12288.
Definition GET_PROG_INFO_INTERVAL : Z := 300000.

Record timeouts : Type := MkTimeouts {
error_recovery : Z;
byte_read : Z;
session_expires : Z;
override_session_timeout : option Z;
}.

Definition timeouts_new_8n1 (baud : Z) : run timeouts :=
e ← at_baud_8n1 ERROR_RECOVERY baud;
b ← at_baud_8n1 BYTE_READ baud;
s ← at_baud_8n1 SESSION_EXPIRES baud;
Val (MkTimeouts e b s None).

(** The timeouts of protocol V2. *)
Definition CHUNK_SIZE : Z := 0x1000.
Definition TRY_RESEND : Z := 0x300.
Definition TRY_RESEND_CHUNK : Z := CHUNK_SIZE * 16.
Definition BUFFER_RETRY : Z := 0x80.

Record v1_timeouts : Type := MkV1Timeouts {
try_resend : Z;
buffer_retry : Z;
try_resend_chunk : Z;
}.
Definition v1_timeouts_new_8n1 (baud : Z) : run v1_timeouts :=
r ← at_baud_8n1 TRY_RESEND baud;
b ← at_baud_8n1 BUFFER_RETRY baud;
c ← at_baud_8n1 TRY_RESEND_CHUNK baud;
Val (MkV1Timeouts r b c).

End Timeouts.
Export Timeouts.

(** ** Delays *)

Section delays.

(** A run of the timer: [truth k] is the time in microseconds, unbounded and
  never decreasing, at the [k]-th reading, and the reading is its low 64
  bits. *)
Variable truth : nat -> Z.
Hypothesis truth_start : 0 <= truth 0%nat < 2 ^ 64.
Hypothesis truth_mono : forall i j, (i <= j)%nat -> truth i <= truth j.

Definition reading (k : nat) : Z := wrap 64 (truth k).

Lemma reading_start : reading 0 = truth 0%nat.
Proof. apply wrap_id, truth_start. Qed.

(** Readings less than one period after the start. *)
Lemma reading_cases k :
truth k - truth 0%nat < 2 ^ 64 ->
reading k = truth k /\ truth k < 2 ^ 64 \/
reading k = truth k - 2 ^ 64 /\ 2 ^ 64 <= truth k.
Proof.
intros Hk. pose proof (truth_mono 0 k ltac:(lia)). unfold reading, wrap.
destruct (Z.lt_ge_cases (truth k) (2 ^ 64)).
- left. split; [apply Z.mod_small; lia|done].
- right. split; [|done]. symmetry. apply (Z.mod_unique _ _ 1); lia.
Qed.

Lemma wait_while_stops fuel k continue n :
wait_while fuel reading k continue = Some n -> continue (reading n) = false.
Proof.
revert k. induction fuel as [|fuel IH]; intros k; cbn [wait_while]; [done|].
destruct (continue (reading k)) eqn:Hc; [apply IH|]. by intros [= <-].
Qed.

Lemma wait_while_ends fuel k continue m :
(k <= m)%nat -> (m < k + fuel)%nat -> continue (reading m) = false ->
exists n, wait_while fuel reading k continue = Some n.
Proof.
revert k. induction fuel as [|fuel IH]; intros k Hk Hm Hc; [lia|]. cbn [wait_while].
destruct (continue (reading k)) eqn:Hck; [|eauto].
apply IH; [|lia|done]. assert (k <> m) by congruence. lia.
Qed.

(** The long wait: what the two flags say about the time. *)
Lemma wait_wrapped_stops fuel micros k en pz ph n :
let start := truth 0%nat in
en = start + micros - 2 ^ 64 -> 0 <= en < start -> micros < 2 ^ 64 ->
(pz = true -> 2 ^ 64 <= truth k \/ start + micros <= truth k) ->
(ph = true -> 2 ^ 64 + U64_HALF <= truth k \/ start + micros <= truth k) ->
wait_wrapped fuel reading k start en pz ph = Some n -> micros <= truth n - start.
Proof.
assert (0 <= U64_HALF) as Hhalf by done.
intros start Hen Hlt Hmic. revert k pz ph. pose proof truth_start as H0. fold start in H0.
induction fuel as [|fuel IH]; intros k pz ph Hpz Hph; cbn [wait_wrapped]; [done|].
set (now := reading k). set (pz' := pz || _). set (ph' := ph || _).
assert (pz' = true -> 2 ^ 64 <= truth k \/ start + micros <= truth k) as Hpz'.
{ unfold pz'. destruct pz; [intros _; auto|]. cbn [orb negb]. rewrite andb_true_r.
  intros Hn%Z.ltb_lt. destruct (Z.lt_ge_cases (truth k) (start + micros)); [|auto].
  destruct (reading_cases k) as [[Hr _]|[_ Hr]]; [unfold start in *; lia| |auto].
  pose proof (truth_mono 0 k ltac:(lia)). unfold now, start in *. lia. }
assert (ph' = true -> 2 ^ 64 + U64_HALF <= truth k \/ start + micros <= truth k) as Hph'.
{ unfold ph'. destruct ph; [intros _; auto|]. cbn [orb negb]. rewrite andb_true_r.
  intros [Hz Hn]%andb_true_iff. apply Z.leb_le in Hn.
  destruct (Hpz' Hz) as [Hw|]; [|auto].
  destruct (Z.lt_ge_cases (truth k) (start + micros)); [|auto].
  destruct (reading_cases k) as [[_ Hr]|[Hr _]]; [unfold start in *; lia|lia|].
  unfold now in Hn. lia. }
destruct (pz' && (en <=? now) || ph' && (now <? U64_HALF)) eqn:Hstop.
- intros [= <-]. destruct (Z.lt_ge_cases (truth k) (start + micros)); [|lia].
  destruct (reading_cases k) as [[Hr Hlt2]|[Hr Hge]]; [unfold start in *; lia| |].
  + apply orb_true_iff in Hstop as [[Hz _]%andb_true_iff|[Hh _]%andb_true_iff];
      [destruct (Hpz' Hz)|destruct (Hph' Hh)]; clearbody pz' ph'; lia.
  + apply orb_true_iff in Hstop as [[Hz Hn]%andb_true_iff|[Hh Hn]%andb_true_iff].
    * apply Z.leb_le in Hn. unfold now in Hn. lia.
    * apply Z.ltb_lt in Hn. specialize (Hph' Hh). unfold now in Hn. lia.
- apply IH; intros Hz; pose proof (truth_mono k (k + 1) ltac:(lia));
    [specialize (Hpz' Hz)|specialize (Hph' Hz)]; lia.
Qed.

End delays.

(** Delays are never short.  Whatever the timer reads at the start,
    wrapping included, and however long the loop goes without polling, if
    [delay_micros] returns, at least the requested number of microseconds have
    passed. *)
Theorem delay_micros_waits truth fuel microseconds n :
  0 <= truth 0%nat < 2 ^ 64 -> (forall i j, (i <= j)%nat -> truth i <= truth j) ->
  u64 microseconds ->
  delay_micros fuel (reading truth) microseconds = Some n ->
  microseconds <= truth n - truth 0%nat.
Proof.
  intros H0 Hmono Hm Hd. unfold delay_micros in Hd.
  rewrite (reading_start truth H0) in Hd. set (start := truth 0%nat) in *.
  unfold fits in Hm. destruct (Z.lt_ge_cases (start + microseconds) (2 ^ 64)) as [Hs|Hs].
  - unfold wrap in Hd. rewrite Z.mod_small in Hd by lia.
    destruct (Z.ltb_spec (start + microseconds) start); [lia|].
    apply wait_while_stops in Hd. destruct (Z.lt_ge_cases (truth n) (start + microseconds)); [|lia].
    pose proof (Hmono 0%nat n ltac:(lia)) as Hn. fold start in Hn.
    destruct (reading_cases truth H0 Hmono n) as [[Hr _]|[_ Hr]]; fold start; [lia| |lia].
    rewrite Hr in Hd. apply andb_false_iff in Hd as [?%Z.leb_gt|?%Z.ltb_ge]; lia.
  - assert (wrap 64 (start + microseconds) = start + microseconds - 2 ^ 64) as Hw.
    { symmetry. apply (Z.mod_unique _ _ 1); lia. }
    rewrite Hw in Hd. destruct (Z.ltb_spec (start + microseconds - 2 ^ 64) start); [|lia].
    destruct (0xffffffff <? microseconds).
    + eapply wait_wrapped_stops in Hd; try done; lia.
    + apply wait_while_stops in Hd.
      destruct (Z.lt_ge_cases (truth n) (start + microseconds)); [|lia].
      pose proof (Hmono 0%nat n ltac:(lia)) as Hn. fold start in Hn.
      destruct (reading_cases truth H0 Hmono n) as [[Hr ?]|[Hr ?]]; fold start; [lia| |];
        rewrite Hr in Hd; apply orb_false_iff in Hd as [?%Z.leb_gt ?%Z.ltb_ge]; lia.
Qed.

Lemma delay_micros_waits_witness :
  delay_micros 9 (reading (fun k => 2 ^ 64 - 3 + 2 * Z.of_nat k)) 5 = Some 3%nat /\
  5 <= (2 ^ 64 - 3 + 2 * Z.of_nat 3) - (2 ^ 64 - 3 + 2 * Z.of_nat 0).
Proof.
  assert (delay_micros 9 (reading (fun k => 2 ^ 64 - 3 + 2 * Z.of_nat k)) 5 = Some 3%nat) as Hd
    by (vm_compute; reflexivity).
  split; [exact Hd|].
  apply (delay_micros_waits (fun k => 2 ^ 64 - 3 + 2 * Z.of_nat k) 9 5 3);
    [lia|intros; lia|unfold fits; lia|exact Hd].
Defined.

(** [delay_millis] asks for the whole time, in steps that fit [u64]. *)
Lemma delay_millis_steps_sum fuel ms steps :
  0 <= ms -> delay_millis_steps fuel ms = Some steps ->
  foldr Z.add 0 steps = ms * 1000 /\ Forall (fits 64) steps.
Proof.
  assert (MAX_MILLIS_PER_STEP = 18446744073709551) as Hc by done.
  revert ms steps. induction fuel as [|fuel IH]; intros ms steps Hms; cbn [delay_millis_steps];
    [done|].
  destruct (Z.ltb_spec MAX_MILLIS_PER_STEP ms) as [Hlt|Hge].
  - destruct (delay_millis_steps fuel _) as [st|] eqn:Hst; [|done]. intros [= <-].
    destruct (IH (ms - MAX_MILLIS_PER_STEP) st ltac:(lia) Hst) as [Hsum Hf]. cbn [foldr]. split; [lia|].
    constructor; [by vm_compute|done].
  - intros [= <-]. cbn. split; [lia|]. constructor; [|done].
    unfold fits. lia.
Qed.

Lemma delay_millis_steps_total ms :
  0 <= ms -> exists steps, delay_millis_steps (S (Z.to_nat (ms / MAX_MILLIS_PER_STEP))) ms = Some steps.
Proof.
  assert (MAX_MILLIS_PER_STEP = 18446744073709551) as Hc by done.
  intros Hms. remember (Z.to_nat (ms / MAX_MILLIS_PER_STEP)) as n eqn:Hn. revert ms Hms Hn.
  induction n as [|n IH]; intros ms Hms Hn; cbn [delay_millis_steps].
  - destruct (Z.ltb_spec MAX_MILLIS_PER_STEP ms) as [Hlt|Hge]; [|eauto].
    exfalso. assert (0 < ms / MAX_MILLIS_PER_STEP) by (apply Z.div_str_pos; lia). lia.
  - destruct (Z.ltb_spec MAX_MILLIS_PER_STEP ms) as [Hlt|Hge]; [|eauto].
    destruct (IH (ms - MAX_MILLIS_PER_STEP)) as [steps Hs]; [lia| |].
    + rewrite Hc in *. Z.to_euclidean_division_equations. lia.
    + cbn [delay_millis_steps] in Hs. rewrite Hs. cbn. eauto.
Qed.

(** The byte-rate timeouts do not overflow and are tight.  For every byte
    count and baud rate that fit [u32], [at_baud_8n1] either divides by zero
    (fewer than ten baud) or is the least number of microseconds in which that
    many bytes pass at a tenth of the baud rate, computed without wrapping. *)
Theorem at_baud_8n1_tight n_bytes baud :
  u32 n_bytes -> u32 baud ->
  match at_baud_8n1 n_bytes baud with
  | Panic => baud < 10
  | Val us => 10 <= baud /\ u64 us /\
      n_bytes * 1000000 <= us * (baud / 10) < n_bytes * 1000000 + baud / 10
  end.
Proof.
  unfold fits. intros Hn Hb. unfold at_baud_8n1. destruct (Z.eqb_spec (baud / 10) 0) as [H0|H0].
  - Z.to_euclidean_division_equations. lia.
  - assert (1 <= baud / 10 <= 429496729) as Hr by (Z.to_euclidean_division_equations; lia).
    assert (10 <= baud) by (Z.to_euclidean_division_equations; lia).
    unfold wrap. rewrite (Z.mod_small (n_bytes * 1000000)) by lia.
    rewrite Z.mod_small by lia. set (r := baud / 10) in *.
    pose proof (Z.div_mod (n_bytes * 1000000 + r - 1) r ltac:(lia)) as Hdm.
    pose proof (Z.mod_pos_bound (n_bytes * 1000000 + r - 1) r ltac:(lia)) as Hmb.
    set (q := (n_bytes * 1000000 + r - 1) / r) in *.
    assert (0 <= q) by (apply Z.div_pos; lia).
    assert (q <= n_bytes * 1000000 + r - 1) by (apply Z.div_le_upper_bound; nia).
    split; [done|]. split; [unfold fits; lia|]. nia.
Qed.

Lemma at_baud_8n1_tight_witness :
  u32 12288 /\ at_baud_8n1 12288 115200 = Val 1066667 /\
  12288 * 1000000 <= 1066667 * (115200 / 10) < 12288 * 1000000 + 115200 / 10.
Proof.
  assert (at_baud_8n1 12288 115200 = Val 1066667) as He by (vm_compute; reflexivity).
  pose proof (at_baud_8n1_tight 12288 115200) as H. rewrite He in H.
  split; [unfold fits; lia|]. split; [exact He|]. apply H; unfold fits; lia.
Defined.

(** The two words of the timer are read one after the other, [chi] at the true time
    [t1] and [clo] at [t2].  The reading is [t2] if no carry into the high word
    falls between them; if one does, it is 2^32 microseconds too small, earlier
    than [t1] itself, so that the difference to an instant wraps around. *)
Theorem floating_time_torn t1 t2 :
  0 <= t1 <= t2 -> t2 < 2 ^ 63 -> t2 - t1 < 2 ^ 32 ->
  floating_time (t1 / 2 ^ 32) (t2 mod 2 ^ 32) = t2 - (if t1 / 2 ^ 32 =? t2 / 2 ^ 32 then 0 else 2 ^ 32) /\
  (t1 / 2 ^ 32 <> t2 / 2 ^ 32 -> floating_time (t1 / 2 ^ 32) (t2 mod 2 ^ 32) < t1 /\
    2 ^ 63 < instant_elapsed t1 (floating_time (t1 / 2 ^ 32) (t2 mod 2 ^ 32))).
Proof.
  intros Ht Hb Hd. pose proof (Z.div_mod t1 (2 ^ 32) ltac:(lia)). pose proof (Z.div_mod t2 (2 ^ 32) ltac:(lia)).
  pose proof (Z.mod_pos_bound t1 (2 ^ 32) ltac:(lia)). pose proof (Z.mod_pos_bound t2 (2 ^ 32) ltac:(lia)).
  assert (0 <= t1 / 2 ^ 32) by (apply Z.div_pos; lia). assert (t1 / 2 ^ 32 <= t2 / 2 ^ 32) by (apply Z.div_le_mono; lia).
  set (q1 := t1 / 2 ^ 32) in *. set (q2 := t2 / 2 ^ 32) in *. set (r1 := t1 mod 2 ^ 32) in *. set (r2 := t2 mod 2 ^ 32) in *.
  assert (floating_time q1 r2 = q1 * 2 ^ 32 + r2) as ->.
  { unfold floating_time. rewrite Z.lor_comm, lor_shift_add by (done || lia). lia. }
  destruct (Z.eqb_spec q1 q2) as [He|He]; [split; [lia|done]|]. assert (q2 = q1 + 1) as Hq by lia. split; [lia|]. intros _. split; [lia|].
  unfold instant_elapsed, wrap. rewrite <- (Z.mod_add _ 1) by lia. rewrite Z.mod_small by lia. lia.
Qed.

Lemma floating_time_torn_witness :
  floating_time (0xffffffff / 2 ^ 32) (0x100000003 mod 2 ^ 32) = 0x100000003 - (if 0xffffffff / 2 ^ 32 =? 0x100000003 / 2 ^ 32 then 0 else 2 ^ 32) /\
  (0xffffffff / 2 ^ 32 <> 0x100000003 / 2 ^ 32 -> floating_time (0xffffffff / 2 ^ 32) (0x100000003 mod 2 ^ 32) < 0xffffffff /\
    2 ^ 63 < instant_elapsed 0xffffffff (floating_time (0xffffffff / 2 ^ 32) (0x100000003 mod 2 ^ 32))).
Proof. apply (floating_time_torn 0xffffffff 0x100000003); lia. Defined.
