(* ===== verification/Relocation.v ===== *)
(** Loading a flat binary over the running loader
    ([device/okboot/src/stub.rs], module [flat_binary], the stub it copies,
    [device/okboot/extern/stub.S], and [BinLoader] of
    [device/okboot/src/protocol/v2.rs]).

    The part of the program that would overwrite the loader goes to a side
    buffer above both; a stub placed above the side buffer moves it into place
    and jumps.  Memory is a function from addresses to bytes. *)
From S2P Require Import Prelude Words Messages Crc.

(** ** Memory *)

Definition memory : Type := Z -> Z.
Definition mem_write (m : memory) (a : Z) (bs : list Z) : memory := fun x =>
  if decide (a <= x < a + Z.of_nat (length bs)) then nth (Z.to_nat (x - a)) bs 0 else m x.
Definition mem_read (m : memory) (a : Z) (n : nat) : list Z :=
  map (fun i => m (a + Z.of_nat i)) (seq 0 n).

Section memory_lemmas.
Implicit Types (m : memory).

Lemma mem_write_out m a bs x :
x < a \/ a + Z.of_nat (length bs) <= x -> mem_write m a bs x = m x.
Proof. intros. unfold mem_write. by rewrite decide_False by lia. Qed.

Lemma length_mem_read m a n : length (mem_read m a n) = n.
Proof. unfold mem_read. by rewrite length_map, length_seq. Qed.

Lemma mem_read_ext m m' a n :
(forall x, a <= x < a + Z.of_nat n -> m' x = m x) -> mem_read m' a n = mem_read m a n.
Proof.
intros He. unfold mem_read. apply map_ext_in. intros i Hi%in_seq. apply He. lia.
Qed.

Lemma mem_read_app m a n k :
mem_read m a (n + k) = mem_read m a n ++ mem_read m (a + Z.of_nat n) k.
Proof.
unfold mem_read. rewrite seq_app, map_app. f_equal.
apply list_eq. intros i. rewrite !list_lookup_fmap. destruct (decide (i < k)%nat).
- rewrite !lookup_seq_lt by done. cbn. f_equal. f_equal. lia.
- rewrite !lookup_seq_ge by lia. done.
Qed.

Lemma mem_read_write m a bs : mem_read (mem_write m a bs) a (length bs) = bs.
Proof.
unfold mem_read, mem_write. apply list_eq. intros i.
rewrite list_lookup_fmap. destruct (decide (i < length bs)%nat) as [Hi|Hi].
- rewrite lookup_seq_lt by done. cbn. rewrite decide_True by lia.
  replace (Z.to_nat (a + Z.of_nat i - a)) with i by lia.
  destruct (lookup_lt_is_Some_2 bs i Hi) as [b Hb].
  rewrite Hb. f_equal. by apply nth_lookup_Some.
- rewrite lookup_seq_ge, lookup_ge_None_2 by lia. done.
Qed.
End memory_lemmas.

(** ** The relocation *)

Module FlatBinary.

(** [quartz::arch::arm1176::PAGE_SIZE] *)
Definition PAGE_SIZE : Z := 0x4000.

Record relocation : Type := MkRelocation {
base_address_ptr : Z;
side_buffer_ptr : Z;
relocate_first_n_bytes : Z;
stub_entry : Z;
relocate : bool;
}.

(** [Relocation::calculate], in 32-bit [usize] arithmetic. *)
Definition calculate (base_address k_length self_end_addr : Z) : relocation :=
let k_base_address := base_address in
let k_end_address := wrap 32 (k_base_address + k_length) in
let needs_to_relocate := k_base_address <? self_end_addr in
let highest_used_address := Z.max self_end_addr k_end_address in
let side_buffer_begin :=
  Z.land (wrap 32 (highest_used_address + PAGE_SIZE - 1)) (Z.lnot (PAGE_SIZE - 1)) in
if needs_to_relocate then
  let relocation_length := wrap 32 (Z.min k_end_address self_end_addr - k_base_address) in
  let stub_location :=
    Z.land (wrap 32 (side_buffer_begin + relocation_length + 3)) (Z.lnot 3) in
  MkRelocation k_base_address side_buffer_begin relocation_length stub_location true
else MkRelocation 0 0 0 highest_used_address false.

(** [Relocation::write_bytes]: the decision looks at the first address only. *)
Definition write_bytes (r : relocation) (m : memory) (address : Z) (bs : list Z) : memory :=
let write_ptr :=
  if relocate r && (base_address_ptr r <=? address)
     && (address <? base_address_ptr r + relocate_first_n_bytes r)
  then side_buffer_ptr r + (address - base_address_ptr r)
  else address in
mem_write m write_ptr bs.

Inductive Integrity : Type :=
| IntegrityOk
| CrcMismatch (expected calculated : Z).

(** [Relocation::verify_integrity] *)
Definition verify_integrity `{Crc} (r : relocation) (m : memory) (expected_crc len : Z)
: Integrity :=
let h := hasher_new in
let h := if relocate r
  then hasher_update h (mem_read m (side_buffer_ptr r) (Z.to_nat (relocate_first_n_bytes r)))
  else h in
let h := if relocate_first_n_bytes r <? len
  then hasher_update h (mem_read m (base_address_ptr r + relocate_first_n_bytes r)
         (Z.to_nat (len - relocate_first_n_bytes r)))
  else h in
let final_crc := hasher_finalize h in
if expected_crc =? final_crc then IntegrityOk else CrcMismatch expected_crc final_crc.

(** [__symbol_relocation_stub]: sixteen bytes at a time while [r8] is nonzero,
  then four at a time from [len & 0xf] down to zero. *)
Definition copy_unit (m : memory) (dst src : Z) (n : nat) : memory :=
mem_write m dst (mem_read m src n).
Fixpoint copy_coarse (k : nat) (m : memory) (dst src : Z) : memory * Z * Z :=
match k with
| O => (m, dst, src)
| S k => copy_coarse k (copy_unit m dst src 16) (dst + 16) (src + 16)
end.
Fixpoint copy_fine (fuel : nat) (m : memory) (dst src r8 : Z) : option memory :=
match fuel with
| O => None
| S fuel =>
  let m := copy_unit m dst src 4 in
  let r8 := wrap 32 (r8 - 4) in
  if r8 =? 0 then Some m else copy_fine fuel m (dst + 4) (src + 4) r8
end.
Definition relocation_stub (fuel : nat) (m : memory) (dst src len : Z) : option memory :=
let '(m, dst, src) := copy_coarse (Z.to_nat (len / 16)) m dst src in
let r8 := Z.land len 0xf in
if r8 =? 0 then Some m else copy_fine fuel m dst src r8.

(** [final_relocation]: the stub is copied above everything else, moves the
  side buffer into place and jumps; the memory and the entry address. *)
Definition final_relocation (fuel : nat) (r : relocation) (stub : list Z) (m : memory)
: option (memory * Z) :=
let m := mem_write m (stub_entry r) stub in
m ← relocation_stub fuel m (base_address_ptr r) (side_buffer_ptr r) (relocate_first_n_bytes r);
Some (m, base_address_ptr r).

End FlatBinary.
Export FlatBinary.

(** ** The loader of flat binaries *)

Module BinLoader.

Record bin_loader : Type := MkBinLoader {
bl_metadata : metadata;
bl_relocation : relocation;
bytes_written : Z;
}.

Definition bin_loader_new (self_end load_address : Z) (md : metadata) : bin_loader :=
MkBinLoader md (calculate load_address (inflated_len md) self_end) 0.

Definition bin_receive_bytes (l : bin_loader) (m : memory) (bs : list Z)
: bin_loader * memory :=
let ptr := base_address_ptr (bl_relocation l) + bytes_written l in
let m := write_bytes (bl_relocation l) m ptr bs in
(MkBinLoader (bl_metadata l) (bl_relocation l) (bytes_written l + Z.of_nat (length bs)), m).

(** [finalize], without its prints: the relocation to boot, or [None] on a
  mismatch. *)
Definition bin_finalize `{Crc} (l : bin_loader) (m : memory) : option relocation :=
match verify_integrity (bl_relocation l) m (inflated_crc (bl_metadata l))
        (inflated_len (bl_metadata l)) with
| IntegrityOk => Some (bl_relocation l)
| CrcMismatch _ _ => None
end.

(** The pieces that the inflater hands over, one after the other. *)
Fixpoint bin_receive_all (l : bin_loader) (m : memory) (pieces : list (list Z))
: bin_loader * memory :=
match pieces with
| [] => (l, m)
| p :: pieces => let '(l, m) := bin_receive_bytes l m p in bin_receive_all l m pieces
end.

End BinLoader.
Export BinLoader.

(** ** The layout *)

Lemma land_lnot_align k x :
  0 <= k -> 0 <= x -> Z.land x (Z.lnot (2 ^ k - 1)) = x - x mod 2 ^ k.
Proof.
  intros Hk Hx. rewrite <- Z.ldiff_land.
  replace (2 ^ k - 1) with (Z.ones k) by (rewrite Z.ones_equiv; lia).
  rewrite Z.ldiff_ones_r, Z.shiftl_mul_pow2, Z.shiftr_div_pow2 by done.
  pose proof (Z.div_mod x (2 ^ k) ltac:(lia)). lia.
Qed.

(** A program of [len] bytes for [base], beside a loader that ends at
    [self_end]: everything below the heap. *)
Record layout_ok (base len self_end : Z) : Prop := {
  ly_base : 0 <= base;
  ly_len : 0 <= len;
  ly_end : base + len + 0x10000 < 2 ^ 31;
  ly_self : 0 < self_end < 2 ^ 30;
}.

Record relocated (base len self_end : Z) (r : relocation) : Prop := {
  rl_relocate : relocate r = true;
  rl_base : base_address_ptr r = base;
  rl_n : relocate_first_n_bytes r = Z.min (base + len) self_end - base;
  rl_side : Z.max self_end (base + len) <= side_buffer_ptr r;
  rl_stub : side_buffer_ptr r + relocate_first_n_bytes r <= stub_entry r;
  rl_stub_align : stub_entry r mod 4 = 0;
}.

Lemma calculate_relocated base len self_end :
  layout_ok base len self_end -> base < self_end ->
  relocated base len self_end (calculate base len self_end).
Proof.
  intros [] Hlt. unfold calculate, PAGE_SIZE. destruct (Z.ltb_spec base self_end); [|lia].
  unfold wrap. rewrite (Z.mod_small (base + len)) by lia.
  rewrite (Z.mod_small (Z.max self_end (base + len) + 0x4000 - 1)) by lia.
  rewrite (Z.mod_small (Z.min (base + len) self_end - base)) by lia.
  change (0x4000 - 1) with (2 ^ 14 - 1). rewrite land_lnot_align by lia.
  set (hi := Z.max self_end (base + len)) in *.
  pose proof (Z.mod_pos_bound (hi + 0x4000 - 1) (2 ^ 14) ltac:(lia)) as Hm.
  set (side := hi + 0x4000 - 1 - _) in *.
  set (n := Z.min (base + len) self_end - base) in *.
  rewrite Z.mod_small by lia.
  change (Z.lnot 3) with (Z.lnot (2 ^ 2 - 1)). rewrite land_lnot_align by lia.
  pose proof (Z.mod_pos_bound (side + n + 3) (2 ^ 2) ltac:(lia)).
  split; cbn [relocate base_address_ptr relocate_first_n_bytes side_buffer_ptr stub_entry];
    try done; try lia.
  change (2 ^ 2) with 4. rewrite Zminus_mod_idemp_r, Z.sub_diag. done.
Qed.

(** A program above the loader: the addresses are null. *)
Lemma calculate_in_place base len self_end :
  layout_ok base len self_end -> self_end <= base ->
  calculate base len self_end = MkRelocation 0 0 0 (base + len) false.
Proof.
  intros [] Hge. unfold calculate. destruct (Z.ltb_spec base self_end); [lia|].
  unfold wrap. rewrite Z.mod_small by lia. f_equal. lia.
Qed.

(** ** The stub *)

Section stub.
Implicit Types (m : memory).

(** [m'] is [m] with [n] bytes copied from [src] to [dst]. *)
Definition copied m (dst src n : Z) m' : Prop :=
forall x, m' x = if decide (dst <= x < dst + n) then m (src + (x - dst)) else m x.

Lemma copy_unit_copied m dst src n :
copied m dst src (Z.of_nat n) (copy_unit m dst src n).
Proof.
intros x. unfold copy_unit, mem_write. rewrite length_mem_read.
case_decide as Hx; [|done]. unfold mem_read.
assert (Z.to_nat (x - dst) < n)%nat as Hlt by lia.
rewrite (nth_lookup_Some _ _ _ (m (src + (x - dst)))); [done|].
rewrite list_lookup_fmap, lookup_seq_lt by done. cbn. do 2 f_equal. lia.
Qed.

Lemma copied_snoc m dst src a b m1 m2 :
0 <= a -> 0 <= b -> dst + a + b <= src ->
copied m dst src a m1 -> copied m1 (dst + a) (src + a) b m2 ->
copied m dst src (a + b) m2.
Proof.
intros Ha Hb Hs H1 H2 x. rewrite H2. case_decide as Hx.
- rewrite H1, decide_False, decide_True by lia. f_equal. lia.
- rewrite H1. repeat case_decide; lia || done.
Qed.

Lemma copy_coarse_copied k m0 m dst src a :
0 <= a -> dst + a + 16 * Z.of_nat k <= src -> copied m0 dst src a m ->
exists m', copy_coarse k m (dst + a) (src + a) =
    (m', dst + (a + 16 * Z.of_nat k), src + (a + 16 * Z.of_nat k)) /\
  copied m0 dst src (a + 16 * Z.of_nat k) m'.
Proof.
revert m a. induction k as [|k IH]; intros m a Ha Hs Hm; cbn [copy_coarse].
- exists m. rewrite Nat2Z.inj_0, Z.mul_0_r, !Z.add_0_r. done.
- destruct (IH (copy_unit m (dst + a) (src + a) 16) (a + 16)) as (m' & Hc & Hm'); [lia|lia| |].
  + eapply copied_snoc; [done|lia|lia|exact Hm|]. apply copy_unit_copied.
  + exists m'. rewrite <- !Z.add_assoc. rewrite Hc.
    replace (a + 16 + 16 * Z.of_nat k) with (a + 16 * Z.of_nat (S k)) in * by lia. done.
Qed.

Lemma copy_fine_copied j fuel m0 m dst src a :
(0 < j)%nat -> (j <= fuel)%nat -> Z.of_nat j < 2 ^ 29 -> 0 <= a ->
dst + a + 4 * Z.of_nat j <= src -> copied m0 dst src a m ->
exists m', copy_fine fuel m (dst + a) (src + a) (4 * Z.of_nat j) = Some m' /\
  copied m0 dst src (a + 4 * Z.of_nat j) m'.
Proof.
revert fuel m a. induction j as [|j IH]; intros fuel m a Hj Hf Hlim Ha Hs Hm; [lia|].
destruct fuel as [|fuel]; [lia|]. cbn [copy_fine].
assert (copied m0 dst src (a + 4) (copy_unit m (dst + a) (src + a) 4)) as Hm1.
{ eapply copied_snoc; [done|lia|lia|exact Hm|]. apply copy_unit_copied. }
rewrite wrap_id by (unfold fits; lia).
destruct (Z.eqb_spec (4 * Z.of_nat (S j) - 4) 0).
- assert (j = 0)%nat as -> by lia. eexists. split; [done|].
  by replace (a + 4 * Z.of_nat 1) with (a + 4) by lia.
- destruct (IH fuel (copy_unit m (dst + a) (src + a) 4) (a + 4)) as (m' & Hc & Hm');
    try lia; [exact Hm1|].
  exists m'. rewrite <- !Z.add_assoc.
  replace (4 * Z.of_nat (S j) - 4) with (4 * Z.of_nat j) by lia. rewrite Hc.
  by replace (a + 4 * Z.of_nat (S j)) with (a + 4 + 4 * Z.of_nat j) by lia.
Qed.

Lemma land_15 x : 0 <= x -> Z.land x 0xf = x mod 16.
Proof. intros. change 0xf with (Z.ones 4). by rewrite Z.land_ones by done. Qed.

(** A length that is a multiple of four: three rounds of the fine loop suffice. *)
Lemma relocation_stub_copied m dst src len :
0 <= len < 2 ^ 31 -> len mod 4 = 0 -> dst + len <= src ->
exists m', relocation_stub 3 m dst src len = Some m' /\ copied m dst src len m'.
Proof.
intros Hlen H4 Hs. unfold relocation_stub.
assert (copied m dst src 0 m) as H0 by (intros x; by rewrite decide_False by lia).
destruct (copy_coarse_copied (Z.to_nat (len / 16)) m m dst src 0) as (m1 & Hc & Hm1);
  [lia|Z.to_euclidean_division_equations; lia|done|].
rewrite !Z.add_0_r in Hc. rewrite Hc, land_15 by lia.
replace (0 + 16 * Z.of_nat (Z.to_nat (len / 16))) with (16 * (len / 16)) in *
  by (Z.to_euclidean_division_equations; lia).
pose proof (Z.div_mod len 16 ltac:(lia)) as Hdm.
destruct (Z.eqb_spec (len mod 16) 0) as [Hz|Hz].
- exists m1. split; [done|]. by replace len with (16 * (len / 16)) at 1 by lia.
- assert (len mod 16 = 4 * (len mod 16 / 4)) as Hr
    by (Z.to_euclidean_division_equations; lia).
  destruct (copy_fine_copied (Z.to_nat (len mod 16 / 4)) 3 m m1 dst src (16 * (len / 16)))
    as (m2 & Hc2 & Hm2); try done; try (Z.to_euclidean_division_equations; lia).
  replace (4 * Z.of_nat (Z.to_nat (len mod 16 / 4))) with (len mod 16) in *
    by (Z.to_euclidean_division_equations; lia).
  exists m2. split; [done|]. by replace len with (16 * (len / 16) + len mod 16) at 1 by lia.
Qed.

Lemma copy_fine_stuck fuel m dst src r8 :
r8 mod 4 <> 0 -> copy_fine fuel m dst src r8 = None.
Proof.
revert m dst src r8. induction fuel as [|fuel IH]; intros m dst src r8 Hr; [done|].
cbn [copy_fine]. assert (wrap 32 (r8 - 4) mod 4 = r8 mod 4) as Hw.
{ unfold wrap. rewrite Z.mod_mod_divide by (by exists (2 ^ 30)).
  replace (r8 - 4) with (r8 + (-1) * 4) by lia. by rewrite Z.mod_add. }
destruct (Z.eqb_spec (wrap 32 (r8 - 4)) 0) as [Hz|Hz].
- rewrite Hz in Hw. by rewrite <- Hw in Hr.
- apply IH. by rewrite Hw.
Qed.
End stub.

(** ** Loading *)

Section loading.
Context `{CrcLaws}.
Implicit Types (m : memory) (l : bin_loader).

(** What the loaded program looks like when [n] of its bytes are in the side
  buffer: its [i]-th byte. *)
Definition assembled (r : relocation) m (i : Z) : Z :=
if decide (i < relocate_first_n_bytes r) then m (side_buffer_ptr r + i)
else m (base_address_ptr r + i).

(** Where a piece of the program is written. *)
Lemma bin_receive_bytes_at base len self_end l m p :
relocated base len self_end (bl_relocation l) -> 0 <= bytes_written l ->
bin_receive_bytes l m p =
(MkBinLoader (bl_metadata l) (bl_relocation l) (bytes_written l + Z.of_nat (length p)),
 mem_write m (if decide (bytes_written l < relocate_first_n_bytes (bl_relocation l))
              then side_buffer_ptr (bl_relocation l) + bytes_written l
              else base + bytes_written l) p).
Proof.
intros [] Hw. unfold bin_receive_bytes, write_bytes. rewrite rl_relocate0, rl_base0.
f_equal. f_equal. cbn [andb]. set (w := bytes_written l) in *.
destruct (Z.leb_spec base (base + w)); [|lia]. cbn [andb].
destruct (Z.ltb_spec (base + w) (base + relocate_first_n_bytes (bl_relocation l)));
  case_decide; lia.
Qed.

Lemma load_preserves base len self_end pieces l m :
relocated base len self_end (bl_relocation l) -> 0 <= bytes_written l ->
bytes_written l + Z.of_nat (length (List.concat pieces)) <= len ->
forall x, x < self_end -> (bin_receive_all l m pieces).2 x = m x.
Proof.
revert l m. induction pieces as [|p pieces IH]; intros l m Hr Hw Hlen x Hx; [done|].
cbn [bin_receive_all List.concat] in *. rewrite length_app in Hlen.
rewrite (bin_receive_bytes_at _ _ _ _ _ _ Hr Hw). rewrite IH; cbn [bl_relocation bytes_written];
  [|done|lia|lia|done].
apply mem_write_out. destruct Hr. case_decide; [lia|].
destruct (Z.le_gt_cases self_end (base + bytes_written l)); [lia|].
assert (length p = 0)%nat by lia. lia.
Qed.

(** No piece begins below the boundary [n] and ends above it. *)
Fixpoint no_straddle (n w : Z) (pieces : list (list Z)) : Prop :=
match pieces with
| [] => True
| p :: pieces =>
  ~ (w < n < w + Z.of_nat (length p)) /\ no_straddle n (w + Z.of_nat (length p)) pieces
end.

Lemma load_assembles base len self_end pieces l m pre :
relocated base len self_end (bl_relocation l) -> layout_ok base len self_end ->
bytes_written l = Z.of_nat (length pre) ->
bytes_written l + Z.of_nat (length (List.concat pieces)) <= len ->
no_straddle (relocate_first_n_bytes (bl_relocation l)) (bytes_written l) pieces ->
(forall i, 0 <= i < bytes_written l ->
   assembled (bl_relocation l) m i = nth (Z.to_nat i) pre 0) ->
bl_relocation (bin_receive_all l m pieces).1 = bl_relocation l /\
bl_metadata (bin_receive_all l m pieces).1 = bl_metadata l /\
forall i, 0 <= i < bytes_written l + Z.of_nat (length (List.concat pieces)) ->
  assembled (bl_relocation l) (bin_receive_all l m pieces).2 i =
  nth (Z.to_nat i) (pre ++ List.concat pieces) 0.
Proof.
intros Hr Hly. revert l m pre Hr. induction pieces as [|p pieces IH];
  intros l m pre Hr Hpre Hlen Hns Has.
- cbn [bin_receive_all List.concat length]. rewrite app_nil_r. split_and!; [done|done|].
  intros i Hi. apply Has. lia.
- cbn [bin_receive_all List.concat no_straddle] in *. destruct Hns as [Hn1 Hns].
  rewrite length_app in Hlen.
  rewrite (bin_receive_bytes_at base len self_end l m p Hr ltac:(lia)).
  set (m' := mem_write m _ p).
  destruct (IH (MkBinLoader (bl_metadata l) (bl_relocation l)
    (bytes_written l + Z.of_nat (length p))) m' (pre ++ p)) as (E1 & E2 & E3);
    [exact Hr| |cbn [bytes_written]; lia|exact Hns| |].
  + cbn [bytes_written]. rewrite length_app. lia.
  + cbn [bl_relocation bytes_written]. intros i Hi. unfold assembled, m', mem_write.
    destruct Hr, Hly. destruct (Z.lt_ge_cases i (bytes_written l)) as [Hlt|Hge].
    * rewrite app_nth1 by lia. rewrite <- Has by lia. unfold assembled.
      repeat case_decide; try lia; done.
    * rewrite app_nth2 by lia. repeat case_decide; try lia; f_equal; lia.
  + split_and!; [exact E1|exact E2|]. intros i Hi.
    rewrite app_assoc. apply E3. cbn [bytes_written]. rewrite length_app in Hi. lia.
Qed.

(** The bytes that [verify_integrity] reads are the assembled program. *)
Lemma verify_reads (r : relocation) m crc len :
(relocate r = false -> relocate_first_n_bytes r = 0) ->
0 <= relocate_first_n_bytes r <= len ->
verify_integrity r m crc len =
  let c := crc32_hash (map (fun i => assembled r m (Z.of_nat i)) (seq 0 (Z.to_nat len))) in
  if crc =? c then IntegrityOk else CrcMismatch crc c.
Proof.
intros Hoff Hn. unfold verify_integrity. rewrite crc32_hash_spec.
set (n := relocate_first_n_bytes r) in *.
assert (map (fun i => assembled r m (Z.of_nat i)) (seq 0 (Z.to_nat len)) =
  mem_read m (side_buffer_ptr r) (Z.to_nat n) ++
  mem_read m (base_address_ptr r + n) (Z.to_nat (len - n))) as ->.
{ replace (Z.to_nat len) with (Z.to_nat n + Z.to_nat (len - n))%nat by lia.
  rewrite seq_app, map_app. f_equal.
  - apply map_ext_in. intros i Hi%in_seq. unfold assembled. by rewrite decide_True by lia.
  - unfold mem_read. apply list_eq. intros i. rewrite !list_lookup_fmap.
    destruct (decide (i < Z.to_nat (len - n))%nat).
    + rewrite !lookup_seq_lt by done. cbn. unfold assembled.
      rewrite decide_False by lia. do 2 f_equal. lia.
    + by rewrite !lookup_seq_ge by lia. }
rewrite <- hasher_update_app.
assert ((if relocate r then hasher_update hasher_new
  (mem_read m (side_buffer_ptr r) (Z.to_nat n)) else hasher_new) =
  hasher_update hasher_new (mem_read m (side_buffer_ptr r) (Z.to_nat n))) as ->.
{ destruct (relocate r); [done|]. rewrite Hoff by done. by rewrite hasher_update_nil. }
destruct (Z.ltb_spec n len) as [Hlt|Hge]; [done|].
replace (Z.to_nat (len - n)) with 0%nat by lia. cbn [mem_read seq map].
unfold mem_read. cbn [seq map]. by rewrite hasher_update_nil.
Qed.

(** After the final relocation the assembled program is at the entry. *)
Lemma final_relocation_assembles base len self_end (r : relocation) stub m :
layout_ok base len self_end -> r = calculate base len self_end ->
relocate_first_n_bytes r mod 4 = 0 ->
exists m', final_relocation 3 r stub m = Some (m', base_address_ptr r) /\
  forall i, 0 <= i < len -> m' (base_address_ptr r + i) = assembled r m i.
Proof.
intros Hly -> H4. pose proof Hly as []. destruct (Z.lt_ge_cases base self_end) as [Hlt|Hge].
- destruct (calculate_relocated _ _ _ Hly Hlt) as [].
  set (r := calculate base len self_end) in *.
  unfold final_relocation. edestruct (relocation_stub_copied (mem_write m (stub_entry r) stub)
    (base_address_ptr r) (side_buffer_ptr r) (relocate_first_n_bytes r)) as (m' & -> & Hm');
    [lia|done|lia|].
  cbn. exists m'. split; [done|]. intros i Hi. rewrite Hm'. unfold assembled.
  repeat case_decide; try lia; rewrite mem_write_out by lia; f_equal; lia.
- rewrite (calculate_in_place _ _ _ Hly Hge). eexists. split; [done|].
  intros i Hi. cbn [base_address_ptr]. unfold assembled. cbn [relocate_first_n_bytes].
  rewrite decide_False by lia. cbn [base_address_ptr stub_entry].
  apply mem_write_out. lia.
Qed.

Lemma calculate_n_bounds base len self_end :
layout_ok base len self_end ->
0 <= relocate_first_n_bytes (calculate base len self_end) <= len /\
(relocate (calculate base len self_end) = false ->
 relocate_first_n_bytes (calculate base len self_end) = 0).
Proof.
intros Hly. pose proof Hly as []. destruct (Z.lt_ge_cases base self_end) as [Hlt|Hge].
- destruct (calculate_relocated _ _ _ Hly Hlt) as []. split; [lia|]. congruence.
- rewrite (calculate_in_place _ _ _ Hly Hge). cbn. lia.
Qed.
End loading.

(** ** The properties of loading *)

(** Loading never overwrites the loader.  For a program whose load address
    is below the end of the running loader, whatever pieces the inflater
    delivers, as long as they are not longer than the announced length, no byte
    below the end of the loader changes. *)
Theorem bin_load_preserves_loader md self_end load_address pieces m :
  layout_ok load_address (inflated_len md) self_end -> load_address < self_end ->
  Z.of_nat (length (List.concat pieces)) <= inflated_len md ->
  forall x, x < self_end ->
    (bin_receive_all (bin_loader_new self_end load_address md) m pieces).2 x = m x.
Proof.
  intros Hly Hlt Hlen. apply (load_preserves load_address (inflated_len md)); cbn; [|lia|lia].
  by apply calculate_relocated.
Qed.

Definition sample_metadata : metadata :=
  MkMetadata 0 6 (crc32_hash [1; 2; 3; 4; 5; 6; 7; 8]) 8 (Bin 0x8000).

Lemma bin_load_preserves_loader_witness :
  0x8002 < 0x20000 /\
  (bin_receive_all (bin_loader_new 0x20000 0x8000 sample_metadata) (fun _ => 7)
     [[1; 2; 3]; [4; 5; 6; 7; 8]]).2 0x8002 = 7.
Proof.
  split; [lia|]. apply (bin_load_preserves_loader sample_metadata 0x20000 0x8000
    [[1; 2; 3]; [4; 5; 6; 7; 8]] (fun _ => 7)); [split; vm_compute; intuition congruence|lia| |lia].
  vm_compute. congruence.
Defined.

Lemma verified_boots_spec `{CrcLaws} base len self_end crc stub m :
  layout_ok base len self_end ->
  let r := calculate base len self_end in
  relocate_first_n_bytes r mod 4 = 0 ->
  verify_integrity r m crc len = IntegrityOk ->
  exists m' entry, final_relocation 3 r stub m = Some (m', entry) /\
    entry = base_address_ptr r /\ crc32_hash (mem_read m' entry (Z.to_nat len)) = crc.
Proof.
  intros Hly r H4 Hv. destruct (calculate_n_bounds _ _ _ Hly) as [Hn Hoff].
  rewrite verify_reads in Hv by done. cbv zeta in Hv.
  destruct (final_relocation_assembles _ _ _ r stub m Hly eq_refl H4) as (m' & Hf & Hm').
  exists m', (base_address_ptr r). split; [done|]. split; [done|].
  destruct (Z.eqb_spec crc (crc32_hash (map (fun i => assembled r m (Z.of_nat i))
    (seq 0 (Z.to_nat len))))) as [->|]; [|done].
  f_equal. unfold mem_read. apply map_ext_in. intros i Hi%in_seq. apply Hm'. lia.
Qed.

(** C14: what boots is what was verified.  Whatever is in memory, if the
    integrity check passes and the relocated length is a multiple of four, the
    final relocation ends, jumps to the recorded base address, and the CRC-32
    of the announced number of bytes there is the announced one: the check
    reads exactly the bytes that the relocation assembles. *)
Theorem verified_program_boots `{CrcLaws} base len self_end crc stub m :
  layout_ok base len self_end ->
  let r := calculate base len self_end in
  relocate_first_n_bytes r mod 4 = 0 ->
  verify_integrity r m crc len = IntegrityOk ->
  exists m' entry, final_relocation 3 r stub m = Some (m', entry) /\
    entry = base_address_ptr r /\ crc32_hash (mem_read m' entry (Z.to_nat len)) = crc.
Proof. apply verified_boots_spec. Qed.

(** A memory where the check passes. *)
Definition sample_memory : memory := fun x => if decide (0x20000 <= x) then x mod 256 else 0.
Definition sample_crc : Z :=
  Eval vm_compute in crc32_hash (mem_read sample_memory 0x20000 8).

Lemma verified_program_boots_witness :
  exists m' entry,
    final_relocation 3 (calculate 0x8000 8 0x20000) [9] sample_memory = Some (m', entry) /\
    entry = 0x8000 /\ crc32_hash (mem_read m' entry 8) = sample_crc.
Proof.
  assert (verify_integrity (calculate 0x8000 8 0x20000) sample_memory sample_crc 8 = IntegrityOk)
    as Hv by (vm_compute; reflexivity).
  destruct (verified_program_boots 0x8000 8 0x20000 sample_crc [9] sample_memory)
    as (m' & e & Hf & He & Hc);
    [split; vm_compute; intuition congruence|vm_compute; reflexivity|exact Hv|].
  exists m', e. split; [exact Hf|]. split; [exact He|exact Hc].
Defined.

Lemma bin_upload_boots_spec `{CrcLaws} md self_end load_address pieces stub m :
  let program := List.concat pieces in
  layout_ok load_address (inflated_len md) self_end -> load_address < self_end ->
  inflated_len md = Z.of_nat (length program) -> inflated_crc md = crc32_hash program ->
  let n := Z.min (load_address + inflated_len md) self_end - load_address in
  no_straddle n 0 pieces -> n mod 4 = 0 ->
  exists r m',
    (let '(l, m) := bin_receive_all (bin_loader_new self_end load_address md) m pieces in
     bin_finalize l m = Some r /\ final_relocation 3 r stub m = Some (m', load_address)) /\
    mem_read m' load_address (length program) = program.
Proof.
  intros program Hly Hlt Hlen Hcrc n Hns H4.
  set (l0 := bin_loader_new self_end load_address md).
  pose proof (calculate_relocated _ _ _ Hly Hlt) as Hr.
  assert (relocate_first_n_bytes (bl_relocation l0) = n) as Hn by apply Hr.
  destruct (load_assembles _ _ _ pieces l0 m [] Hr Hly) as (E1 & E2 & E3);
    [done|cbn; fold program; lia|by rewrite Hn|cbn; lia|].
  destruct (bin_receive_all l0 m pieces) as [l m1]. cbn [fst snd bytes_written] in *.
  destruct (calculate_n_bounds _ _ _ Hly) as [Hnb Hoff].
  destruct (final_relocation_assembles _ _ _ (bl_relocation l0) stub m1 Hly eq_refl)
    as (m' & Hf & Hm'); [by rewrite Hn|].
  assert (base_address_ptr (bl_relocation l0) = load_address) as Hbase by apply Hr.
  rewrite Hbase in Hf, Hm'.
  assert (map (fun i => assembled (bl_relocation l0) m1 (Z.of_nat i))
    (seq 0 (Z.to_nat (inflated_len md))) = program) as Hprog.
  { rewrite Hlen, Nat2Z.id. apply list_eq. intros i. rewrite list_lookup_fmap.
    destruct (decide (i < length program)%nat).
    - rewrite lookup_seq_lt by done. cbn.
      rewrite E3 by (cbn; fold program; lia). cbn [app]. fold program. rewrite Nat2Z.id.
      destruct (lookup_lt_is_Some_2 program i) as [b Hb]; [done|].
      rewrite Hb. f_equal. by apply nth_lookup_Some.
    - by rewrite lookup_seq_ge, lookup_ge_None_2 by lia. }
  exists (bl_relocation l0), m'. split; [split|].
  - unfold bin_finalize. rewrite E1, E2. cbn [bl_metadata l0 bin_loader_new].
    rewrite verify_reads by done. cbv zeta. rewrite Hprog, Hcrc, Z.eqb_refl. done.
  - exact Hf.
  - rewrite <- Hprog at 2. unfold mem_read. rewrite Hlen, Nat2Z.id.
    apply map_ext_in. intros i Hi%in_seq. apply Hm'. lia.
Qed.

(** A complete upload boots the program.  If the pieces are the program,
    the announced CRC and length are its own, no piece straddles the end of the
    side-buffered part and that part is a multiple of four long, then the check
    passes and after the final relocation the program stands at its load
    address and control is transferred there. *)
Theorem bin_upload_boots `{CrcLaws} md self_end load_address pieces stub m :
  let program := List.concat pieces in
  layout_ok load_address (inflated_len md) self_end -> load_address < self_end ->
  inflated_len md = Z.of_nat (length program) -> inflated_crc md = crc32_hash program ->
  let n := Z.min (load_address + inflated_len md) self_end - load_address in
  no_straddle n 0 pieces -> n mod 4 = 0 ->
  exists r m',
    (let '(l, m) := bin_receive_all (bin_loader_new self_end load_address md) m pieces in
     bin_finalize l m = Some r /\ final_relocation 3 r stub m = Some (m', load_address)) /\
    mem_read m' load_address (length program) = program.
Proof. apply bin_upload_boots_spec. Qed.

Lemma bin_upload_boots_witness :
  exists r m',
    (let '(l, m) := bin_receive_all (bin_loader_new 0x20000 0x8000 sample_metadata)
                      (fun _ => 7) [[1; 2; 3]; [4; 5; 6; 7; 8]] in
     bin_finalize l m = Some r /\ final_relocation 3 r [9] m = Some (m', 0x8000)) /\
    mem_read m' 0x8000 8 = [1; 2; 3; 4; 5; 6; 7; 8].
Proof.
  apply (bin_upload_boots sample_metadata 0x20000 0x8000 [[1; 2; 3]; [4; 5; 6; 7; 8]] [9]
    (fun _ => 7)); [split; vm_compute; intuition congruence|lia|vm_compute; reflexivity
      |vm_compute; reflexivity|cbn; lia|vm_compute; reflexivity].
Defined.

(** A program above the loader is not loaded where it asked.  When the
    load address is not below the end of the loader, the recorded base address
    is null: the pieces are written from address 0 on and control is
    transferred to address 0, whatever the load address. *)
Theorem bin_load_above_loader md self_end load_address pieces m :
  layout_ok load_address (inflated_len md) self_end -> self_end <= load_address ->
  let l := (bin_receive_all (bin_loader_new self_end load_address md) m pieces).1 in
  let m' := (bin_receive_all (bin_loader_new self_end load_address md) m pieces).2 in
  base_address_ptr (bl_relocation l) = 0 /\
  mem_read m' 0 (length (List.concat pieces)) = List.concat pieces /\
  (Z.of_nat (length (List.concat pieces)) <= inflated_len md ->
   forall x, load_address + inflated_len md <= x -> m' x = m x).
Proof.
  intros Hly Hge. pose proof Hly as []. unfold bin_loader_new.
  rewrite (calculate_in_place _ _ _ Hly Hge).
  set (r := MkRelocation 0 0 0 _ false).
  assert (forall l m, bl_relocation l = r -> 0 <= bytes_written l ->
    bl_relocation (bin_receive_all l m pieces).1 = r /\
    forall x, (bin_receive_all l m pieces).2 x =
      mem_write m (bytes_written l) (List.concat pieces) x) as Hgen.
  { clear. induction pieces as [|p pieces IH]; intros l m Hr Hw.
    - split; [done|]. intros x. rewrite mem_write_out; [done|cbn; lia].
    - cbn [bin_receive_all]. unfold bin_receive_bytes, write_bytes. rewrite Hr. cbn [relocate r andb].
      destruct (IH (MkBinLoader (bl_metadata l) r (bytes_written l + Z.of_nat (length p)))
        (mem_write m (base_address_ptr r + bytes_written l) p)) as [E1 E2];
        [done|cbn; lia|].
      split; [exact E1|]. intros x. rewrite E2. cbn [bytes_written base_address_ptr r List.concat].
      unfold mem_write. rewrite length_app. repeat case_decide; try lia; try done.
      + rewrite app_nth2 by lia. f_equal. lia.
      + rewrite app_nth1 by lia. f_equal. }
  destruct (Hgen (MkBinLoader md r 0) m eq_refl ltac:(cbn; lia)) as [E1 E2].
  cbn [bytes_written] in E2. split; [by rewrite E1|]. split.
  - rewrite (mem_read_ext (mem_write m 0 (List.concat pieces))); [apply mem_read_write|].
    intros x _. apply E2.
  - intros Hl x Hx. rewrite E2. apply mem_write_out. lia.
Qed.

Lemma bin_load_above_loader_witness :
  mem_read (bin_receive_all (bin_loader_new 0x20000 0x30000 sample_metadata) (fun _ => 7)
    [[1; 2]; [3]]).2 0 3 = [1; 2; 3].
Proof.
  apply (bin_load_above_loader sample_metadata 0x20000 0x30000 [[1; 2]; [3]] (fun _ => 7));
    [split; vm_compute; intuition congruence|lia].
Defined.

(** The stub ends only for whole words.  The stub that moves the side
    buffer copies it exactly when its length is a multiple of four; for any
    other length its loop counter skips zero and no number of rounds ends it. *)
Theorem relocation_stub_words m dst src len :
  0 <= len < 2 ^ 31 -> dst + len <= src ->
  if decide (len mod 4 = 0)
  then exists m', relocation_stub 3 m dst src len = Some m' /\ copied m dst src len m'
  else forall fuel, relocation_stub fuel m dst src len = None.
Proof.
  intros Hlen Hs. case_decide as H4; [by apply relocation_stub_copied|].
  intros fuel. unfold relocation_stub. destruct (copy_coarse _ m dst src) as [[m1 d] s].
  rewrite land_15 by lia.
  assert ((len mod 16) mod 4 = len mod 4) as Hm by (apply Z.mod_mod_divide; by exists 4).
  destruct (Z.eqb_spec (len mod 16) 0) as [Hz|_]; [by rewrite Hz in Hm|].
  apply copy_fine_stuck. by rewrite Hm.
Qed.

Lemma relocation_stub_words_witness :
  0 <= 7 < 2 ^ 31 /\ relocation_stub 1000 (fun x => x) 0x8000 0x20000 7 = None.
Proof. split; [lia|]. apply (relocation_stub_words (fun x => x) 0x8000 0x20000 7); lia. Defined.
