(* ===== verification/Device.v ===== *)
(** The device around the boot protocol: what a protocol handler may touch, the
    printing macros it uses, and the interface [Protocol] between the receive
    loop and the protocols ([device/okboot/src/protocol.rs]).

    The text of a printed line is a parameter, [render], of its format string
    and its numeric arguments.  Registers and the timer are read from an
    [io] record: one record per iteration of the receive loop, with one clock
    reading for each place of the iteration that reads the timer. *)
From Stdlib Require Import String.
From S2P Require Import Prelude Words Messages Crc Encode Decode Cobs Framing Postcard.
From S2P Require Import TransmitBuf FrameSink Timing Relocation.

(** The pieces that [core::fmt] passes to [write_str] for a line. *)
Class Render := render : string -> list Z -> list (list Z).
Class RenderLaws `{Render} : Prop := {
  render_bytes s args : Forall (Forall (fits 8)) (render s args);
  render_short s args : Z.of_nat (length (List.concat (render s args))) < 2 ^ 24;
}.

(** ** What a handler answers *)

(** What a handler asks of the receive loop; [Entered] is a jump into the
    loaded program, [Unfinished] a loop that outran its fuel. *)
Inductive ProtocolStatus (P : Type) : Type :=
  | Continue
  | Abcon
  | Abend
  | Switch (p : P)
  | Entered (m : memory) (entry : Z)
  | Unfinished.
Arguments Continue {P}.
Arguments Abcon {P}.
Arguments Abend {P}.
Arguments Switch {P} p.
Arguments Entered {P} m entry.
Arguments Unfinished {P}.

(** ** What a handler may touch *)

Inductive uart_event : Type :=
  | UartTx (b : Z)
  | UartDivider (d : Z).

Section with_libraries.
Context `{Crc, Postcard, Render}.

Record device : Type := MkDevice {
  dv_sink : frame_sink;
  dv_timeouts : timeouts;
  dv_memory : memory;
  dv_inflate_buffer : list Z;
  dv_uart : list uart_event;
}.

Definition set_sink (s : frame_sink) (d : device) : device :=
  MkDevice s (dv_timeouts d) (dv_memory d) (dv_inflate_buffer d) (dv_uart d).
Definition set_timeouts (t : timeouts) (d : device) : device :=
  MkDevice (dv_sink d) t (dv_memory d) (dv_inflate_buffer d) (dv_uart d).
Definition set_memory (m : memory) (d : device) : device :=
  MkDevice (dv_sink d) (dv_timeouts d) m (dv_inflate_buffer d) (dv_uart d).
Definition set_inflate_buffer (b : list Z) (d : device) : device :=
  MkDevice (dv_sink d) (dv_timeouts d) (dv_memory d) b (dv_uart d).
Definition uart_write (e : uart_event) (d : device) : device :=
  MkDevice (dv_sink d) (dv_timeouts d) (dv_memory d) (dv_inflate_buffer d) (dv_uart d ++ [e]).

Definition set_tx (t : transmit_buffer) (s : frame_sink) : frame_sink :=
  MkSink t (fs_encoder s) (fs_postcard s).

(** [legacy_print_string!] and [rpc_println!], whose results are ignored. *)
Definition say_legacy (s : string) (args : list Z) (d : device) : run device :=
  '(t, _) ← legacy_print_string (fs_tx (dv_sink d)) (render s args);
  Val (set_sink (set_tx t (dv_sink d)) d).
Definition say (s : string) (args : list Z) (d : device) : run device :=
  '(fs, _) ← rpc_println (dv_sink d) (render s args);
  Val (set_sink fs d).

(** [send] *)
Definition dev_send (msg : message) (d : device) : run (device * result unit SendError) :=
  '(fs, r) ← sink_send (dv_sink d) msg;
  Val (set_sink fs d, r).

(** [flush_to_fifo]: one byte of fuel per byte that waits. *)
Fixpoint flush_loop (fuel : nat) (d : device) : run device :=
  match fuel with
  | O => Val d
  | S fuel =>
    '(t, b) ← shift_byte (fs_tx (dv_sink d));
    let d := set_sink (set_tx t (dv_sink d)) d in
    match b with
    | None => Val d
    | Some b => flush_loop fuel (uart_write (UartTx b) d)
    end
  end.
Definition flush_to_fifo (d : device) : run device :=
  flush_loop (S (circle_len (fs_tx (dv_sink d)))) d.

(** ** The registers and the timer, per iteration *)

(** [io_divider] is the baud divider that is set, [io_readback d] what the
    register reads after [d] was written to it. *)
Record io : Type := MkIo {
  io_byte : option Z;
  io_can_write : bool;
  io_overrun : bool;
  io_clock : nat -> Z;
  io_divider : Z;
  io_readback : Z -> Z;
}.

(** The places of an iteration that read the timer. *)
Definition clk_overrun : nat := 0.
Definition clk_gpi_elapsed : nat := 1.
Definition clk_gpi_now : nat := 2.
Definition clk_heartbeat_elapsed : nat := 3.
Definition clk_heartbeat_now : nat := 4.
Definition clk_packet : nat := 5.
Definition clk_error : nat := 6.
Definition clk_packet_now : nat := 7.
Definition clk_byte_elapsed : nat := 8.
Definition clk_byte_now : nat := 9.
Definition clk_switch : nat := 10.

(** ** Well-formed devices *)

Record device_ok (d : device) : Prop := {
  do_sink : sink_ok (dv_sink d);
  do_capacity : Z.of_nat (length (tx_storage (fs_tx (dv_sink d)))) < 2 ^ 24;
  do_postcard : match fs_postcard (dv_sink d) with
                | Some px => Z.of_nat px < 2 ^ 24 | None => False end;
  do_inflate : Z.of_nat (length (dv_inflate_buffer d)) = 0x20000;
}.
End with_libraries.

(** ** Printing and sending keep a device well formed *)

Section quiet.
Context `{CrcLaws, PostcardLaws, RenderLaws}.
Implicit Types (d : device).

(** A step that only touches the sink and the UART. *)
Record quiet d d' : Prop := {
  qu_ok : device_ok d';
  qu_timeouts : dv_timeouts d' = dv_timeouts d;
  qu_memory : dv_memory d' = dv_memory d;
  qu_inflate : dv_inflate_buffer d' = dv_inflate_buffer d;
}.

Lemma quiet_refl d : device_ok d -> quiet d d.
Proof. by split. Qed.
Lemma quiet_trans d1 d2 d3 : quiet d1 d2 -> quiet d2 d3 -> quiet d1 d3.
Proof. intros [] []. split; [done|congruence..]. Qed.

Lemma quiet_sink fs d :
  device_ok d -> sink_ok fs -> same_shape (dv_sink d) fs -> quiet d (set_sink fs d).
Proof.
  intros [] Hfs [Hc Hp]. split; [|done..]. split; cbn [dv_sink set_sink dv_inflate_buffer].
  - done.
  - by rewrite Hc.
  - by rewrite Hp.
  - done.
Qed.

Lemma set_tx_ok t s :
  sink_ok s -> tx_ok t -> length (tx_storage t) = length (tx_storage (fs_tx s)) ->
  sink_ok (set_tx t s) /\ same_shape s (set_tx t s).
Proof. intros [] Ht Hl. split; [by split|]. by split. Qed.

Lemma say_legacy_quiet s args d :
  device_ok d -> exists d', say_legacy s args d = Val d' /\ quiet d d'.
Proof.
  intros Hd. pose proof Hd as [Hs Hcap _ _]. unfold say_legacy.
  destruct (legacy_print_string_total (fs_tx (dv_sink d)) (render s args))
    as (t & ok & -> & Ht & Hl & _); [apply Hs|lia|].
  rewrite run_bind_Val. eexists. split; [done|].
  destruct (set_tx_ok t _ Hs Ht Hl). by apply quiet_sink.
Qed.

Lemma say_quiet s args d :
  device_ok d -> exists d', say s args d = Val d' /\ quiet d d'.
Proof.
  intros Hd. pose proof Hd as [Hs Hcap _ _]. unfold say.
  destruct (rpc_println_spec (dv_sink d) (render s args))
    as (fs & ok & w & -> & Hok & Hsh & _); [done|apply render_bytes|apply render_short|].
  rewrite run_bind_Val. eexists. split; [done|]. by apply quiet_sink.
Qed.

Lemma dev_send_quiet msg d :
  device_ok d -> message_ok msg -> exists d' r, dev_send msg d = Val (d', r) /\ quiet d d'.
Proof.
  intros Hd Hm. pose proof Hd as [Hs Hcap Hpx _]. unfold dev_send.
  destruct (fs_postcard (dv_sink d)) as [px|] eqn:Hp; [|done].
  destruct (sink_send_spec (dv_sink d) px msg Hs Hp Hpx Hm) as (fs & r & -> & Hok & Hsh & _).
  rewrite run_bind_Val. eexists _, _. split; [done|]. by apply quiet_sink.
Qed.

Lemma shift_byte_quiet d :
  device_ok d -> exists t b, shift_byte (fs_tx (dv_sink d)) = Val (t, b) /\
    quiet d (set_sink (set_tx t (dv_sink d)) d).
Proof.
  intros Hd. pose proof Hd as [Hs _ _ _].
  destruct (shift_byte_spec (fs_tx (dv_sink d))) as (t & b & Hsh & Ht & Hl & _); [apply Hs|].
  exists t, b. split; [done|]. destruct (set_tx_ok t _ Hs Ht Hl). by apply quiet_sink.
Qed.

Lemma uart_write_quiet e d : device_ok d -> quiet d (uart_write e d).
Proof. intros []. split; [by split|done..]. Qed.

Lemma flush_to_fifo_quiet d :
  device_ok d -> exists d', flush_to_fifo d = Val d' /\ quiet d d'.
Proof.
  unfold flush_to_fifo. generalize (S (circle_len (fs_tx (dv_sink d)))) as fuel.
  intros fuel. revert d. induction fuel as [|fuel IH]; intros d Hd; cbn [flush_loop].
  - exists d. split; [done|by apply quiet_refl].
  - destruct (shift_byte_quiet d Hd) as (t & b & -> & Hq). rewrite run_bind_Val.
    destruct b as [b|]; [|by eexists].
    set (d1 := set_sink _ d) in *. pose proof (uart_write_quiet (UartTx b) d1 (qu_ok _ _ Hq)) as Hu.
    destruct (IH _ (qu_ok _ _ Hu)) as (d' & -> & Hq'). exists d'. split; [done|].
    eauto using quiet_trans.
Qed.
End quiet.

(** ** The interface of a protocol *)

Class Protocol `{Crc, Postcard} (P : Type) : Type := {
  protocol_default : P;
  handle_packet : io -> FrameHeader -> list Z -> P -> device -> run (P * device * ProtocolStatus P);
  heartbeat : io -> P -> device -> run (P * device * ProtocolStatus P);
}.

(** What a handler promises the receive loop: on a well-formed device it leaves
    a well-formed device and stays in the protocol's invariant, the state it
    switches to included; it panics only on a packet that it does not accept,
    and a heartbeat does not narrow what it accepts. *)
Class ProtocolLaws `{Crc, Postcard} (P : Type) `{!Protocol P} (inv : P -> Prop)
    (accepts : P -> FrameHeader -> list Z -> Prop) : Prop := {
  default_inv : inv protocol_default;
  handle_packet_sound i h payload p d :
    inv p -> device_ok d -> bytes payload ->
    match handle_packet i h payload p d with
    | Val (p', d', s) =>
      inv p' /\ device_ok d' /\ match s with Switch q => inv q | _ => True end
    | Panic => ~ accepts p h payload
    end;
  heartbeat_total i p d :
    inv p -> device_ok d ->
    exists p' d' s, heartbeat i p d = Val (p', d', s) /\ inv p' /\ device_ok d' /\
      forall h payload, accepts p h payload -> accepts p' h payload;
}.
