(* ===== verification/Receiver.v ===== *)
(** The device's receive loop: [run] of [device/okboot/src/protocol.rs],
    generic in the protocol it drives.  One iteration of the loop is
    [loop_step]; its input is what the registers and the timer read. *)
From Stdlib Require Import String.
From S2P Require Import Prelude Words Messages Crc Encode Decode Cobs Framing FrameDriver.
From S2P Require Import Postcard TransmitBuf FrameSink Timing Relocation Device.

Module Receiver.

Inductive ReceiveError : Type :=
  | RxBufferOverflow
  | FifoOverrun
  | ProtocolError
  | DecodeError (e : FrameError).

Inductive ReceiveState : Type :=
  | Waiting (initial : bool)
  | RError (at_instant : Z) (receive_error : option ReceiveError).

(** [ReceiveState::error] *)
Definition receive_error_state (now : Z) (e : ReceiveError) : ReceiveState := RError now (Some e).

(** [BYTE_READ] and the like, as the receive loop compares them. *)
Definition is_initial (s : ReceiveState) : bool :=
  match s with Waiting i => i | RError _ _ => false end.

(** The line that [{receive_error}] selects. *)
Definition receive_error_line (e : ReceiveError) : string :=
  match e with
  | RxBufferOverflow => "[device]: receive error: incoming message overflowed receive buffer"
  | FifoOverrun => "[device]: receive error: incoming message overran the FIFO"
  | ProtocolError => "[device]: receive error: protocol error"
  | DecodeError _ => "[device]: receive error: error decoding message"
  end.

(** [GetProgInfoSender::tick]: the instant of the last request, and whether one
    was sent. *)
Definition GET_PROG_INFO : list Z := [0x22; 0x22; 0x11; 0x11].
Definition gpi_tick `{Crc, Postcard, Render} (i : io) (last_sent_at : Z) (d : device)
  : run (Z * device) :=
  if (GET_PROG_INFO_INTERVAL <=? instant_elapsed last_sent_at (io_clock i clk_gpi_elapsed))
     && tx_is_empty (fs_tx (dv_sink d))
  then
    '(t, _) ← extend_from_slice (fs_tx (dv_sink d)) GET_PROG_INFO;
    Val (io_clock i clk_gpi_now, set_sink (set_tx t (dv_sink d)) d)
  else Val (last_sent_at, d).

Section receive_loop.
Context `{Crc, Postcard, Render} {P : Type} `{!Protocol P}.

(** The variables of [run]. *)
Record loop_state : Type := MkLoop {
  ls_device : device;
  ls_rx : receive_buffer;
  ls_decoder : frame_layer;
  ls_last_byte : Z;
  ls_last_packet : Z;
  ls_recv : ReceiveState;
  ls_gpi : Z;
  ls_protocol : P;
  ls_header : option FrameHeader;
}.

Inductive step_end : Type :=
  | Running (st : loop_state)
  | LegacyDownload (d : device)
  | Jumped (m : memory) (entry : Z)
  | OutOfFuel.

Definition with_recv (r : ReceiveState) (st : loop_state) : loop_state :=
  MkLoop (ls_device st) (ls_rx st) (ls_decoder st) (ls_last_byte st) (ls_last_packet st) r
    (ls_gpi st) (ls_protocol st) (ls_header st).
Definition with_device (d : device) (st : loop_state) : loop_state :=
  MkLoop d (ls_rx st) (ls_decoder st) (ls_last_byte st) (ls_last_packet st) (ls_recv st)
    (ls_gpi st) (ls_protocol st) (ls_header st).
Definition with_rx (b : receive_buffer) (st : loop_state) : loop_state :=
  MkLoop (ls_device st) b (ls_decoder st) (ls_last_byte st) (ls_last_packet st) (ls_recv st)
    (ls_gpi st) (ls_protocol st) (ls_header st).
Definition with_decoder (l : frame_layer) (st : loop_state) : loop_state :=
  MkLoop (ls_device st) (ls_rx st) l (ls_last_byte st) (ls_last_packet st) (ls_recv st)
    (ls_gpi st) (ls_protocol st) (ls_header st).
Definition with_last_byte (t : Z) (st : loop_state) : loop_state :=
  MkLoop (ls_device st) (ls_rx st) (ls_decoder st) t (ls_last_packet st) (ls_recv st)
    (ls_gpi st) (ls_protocol st) (ls_header st).
Definition with_last_packet (t : Z) (st : loop_state) : loop_state :=
  MkLoop (ls_device st) (ls_rx st) (ls_decoder st) (ls_last_byte st) t (ls_recv st)
    (ls_gpi st) (ls_protocol st) (ls_header st).
Definition with_gpi (t : Z) (st : loop_state) : loop_state :=
  MkLoop (ls_device st) (ls_rx st) (ls_decoder st) (ls_last_byte st) (ls_last_packet st)
    (ls_recv st) t (ls_protocol st) (ls_header st).
Definition with_protocol (p : P) (st : loop_state) : loop_state :=
  MkLoop (ls_device st) (ls_rx st) (ls_decoder st) (ls_last_byte st) (ls_last_packet st)
    (ls_recv st) (ls_gpi st) p (ls_header st).
Definition with_frame_header (h : option FrameHeader) (st : loop_state) : loop_state :=
  MkLoop (ls_device st) (ls_rx st) (ls_decoder st) (ls_last_byte st) (ls_last_packet st)
    (ls_recv st) (ls_gpi st) (ls_protocol st) h.

(** [FrameOutput::Finished]: the packet goes to the protocol. *)
Definition on_finished (i : io) (st : loop_state) : run step_end :=
  frame_header ← unwrap (ls_header st);
  '(rx, payload) ← rx_finalize (ls_rx st);
  let st := with_decoder (frame_reset (ls_decoder st)) (with_rx rx (with_frame_header None st)) in
  '(p, d, status) ← handle_packet i frame_header payload (ls_protocol st) (ls_device st);
  let st := with_device d (with_protocol p st) in
  let finish (st : loop_state) (res : option ReceiveState) :=
    Val (Running (with_recv (default (Waiting false) res)
      (with_last_packet (io_clock i clk_packet_now) (with_rx (rx_clear (ls_rx st)) st)))) in
  let error := receive_error_state (io_clock i clk_error) ProtocolError in
  match status with
  | Continue => finish st None
  | Abcon => finish st (Some error)
  | Abend => finish (with_protocol protocol_default st) (Some error)
  | Switch pe => finish (with_protocol pe st) None
  | Entered m entry => Val (Jumped m entry)
  | Unfinished => Val OutOfFuel
  end.

(** A byte while waiting: one step of the decoder. *)
Definition on_byte (i : io) (st : loop_state) (b : Z) : run step_end :=
  '(l, r) ← frame_feed (ls_decoder st) b;
  let st := with_decoder l st in
  let next st r := Val (Running (with_recv r st)) in
  match r with
  | Ok FSkip => next st (Waiting false)
  | Ok (FHeader hdr) => next (with_frame_header (Some hdr) st) (Waiting false)
  | Ok (FPayload p) =>
    '(rx, e) ← rx_push_u8 (ls_rx st) p;
    let st := with_rx rx st in
    match e with
    | Ok _ => next st (Waiting false)
    | Err _ => next st (receive_error_state (io_clock i clk_error) RxBufferOverflow)
    end
  | Ok FFinished => on_finished i st
  | Ok FLegacy =>
    Val (LegacyDownload (ls_device (with_decoder (frame_reset (ls_decoder st)) st)))
  | Ok (FLegacyPrintStringByte _ _) =>
    let st := with_decoder (frame_reset (ls_decoder st)) st in
    d ← say_legacy "[device] received legacy PRINT_STRING from" [] (ls_device st);
    next (with_device d st) (receive_error_state (io_clock i clk_error) ProtocolError)
  | Err e =>
    let st := with_decoder (frame_reset (ls_decoder st)) st in
    next st (receive_error_state (io_clock i clk_error) (DecodeError e))
  end.

(** In the error state bytes are dropped until the recovery time has passed. *)
Definition on_error (i : io) (st : loop_state) (at_instant : Z) (e : option ReceiveError)
  : run step_end :=
  d ← match e with
      | Some e => say_legacy (receive_error_line e) [] (ls_device st)
      | None => Val (ls_device st)
      end;
  let st := with_device d st in
  if instant_elapsed at_instant (io_clock i clk_error) <? error_recovery (dv_timeouts d)
  then Val (Running (with_recv (RError at_instant None) st))
  else Val (Running (with_recv (Waiting false) st)).

(** No byte: session and byte timeouts. *)
Definition on_idle (i : io) (st : loop_state) : run step_end :=
  let d := ls_device st in
  let packet_elapsed := instant_elapsed (ls_last_packet st) (io_clock i clk_packet) in
  let byte_elapsed := instant_elapsed (ls_last_byte st) (io_clock i clk_byte_elapsed) in
  let session_timeout :=
    default (session_expires (dv_timeouts d)) (override_session_timeout (dv_timeouts d)) in
  if (session_timeout <=? packet_elapsed) && negb (is_initial (ls_recv st))
     && (byte_read (dv_timeouts d) <=? byte_elapsed)
  then
    let st := with_last_packet (io_clock i clk_packet_now) st in
    d ← say_legacy "[device]: session expired after {packet_elapsed:?}, dumping."
          [packet_elapsed] d;
    d ← flush_to_fifo d;
    t ← timeouts_new_8n1 INITIAL_BAUD_RATE;
    Val (Running (with_recv (Waiting true)
      (with_protocol protocol_default (with_device (set_timeouts t d) st))))
  else if (byte_read (dv_timeouts d) <=? byte_elapsed) && negb (is_initial (ls_recv st))
  then Val (Running (with_recv (Waiting false)
         (with_last_byte (io_clock i clk_byte_now) st)))
  else Val (Running st).

(** A byte of the ring to the UART, when it can take one. *)
Definition transmit_one (i : io) (d : device) : run device :=
  if io_can_write i then
    '(t, b) ← shift_byte (fs_tx (dv_sink d));
    let d := set_sink (set_tx t (dv_sink d)) d in
    Val (match b with Some b => uart_write (UartTx b) d | None => d end)
  else Val d.

(** The request for a program, while nothing was ever received. *)
Definition poll_if_initial (i : io) (st : loop_state) : run loop_state :=
  if is_initial (ls_recv st) then
    '(g, d) ← gpi_tick i (ls_gpi st) (ls_device st);
    Val (with_gpi g (with_device d st))
  else Val st.

(** The [match] on the byte and the receive state. *)
Definition receive (i : io) (st : loop_state) : run step_end :=
  match io_byte i, ls_recv st with
  | Some b, Waiting _ => on_byte i st b
  | _, RError at_instant e => on_error i st at_instant e
  | _, _ => on_idle i st
  end.

(** One iteration of [loop]. *)
Definition loop_step (i : io) (st : loop_state) : run step_end :=
  d ← transmit_one i (ls_device st);
  let st := with_device d st in
  let st := if io_overrun i
    then with_recv (receive_error_state (io_clock i clk_overrun) FifoOverrun) st else st in
  st ← poll_if_initial i st;
  '(p, d, _) ← heartbeat i (ls_protocol st) (ls_device st);
  let st := with_device d (with_protocol p st) in
  r ← receive i st;
  Val (match r, io_byte i with
       | Running st, Some _ => Running (with_last_byte (io_clock i clk_byte_now) st)
       | _, _ => r
       end).

(** The loop over a sequence of iterations. *)
Fixpoint loop_run (ios : list io) (st : loop_state) : run step_end :=
  match ios with
  | [] => Val (Running st)
  | i :: ios =>
    r ← loop_step i st;
    match r with Running st => loop_run ios st | _ => Val r end
  end.

(** [run] up to the loop: the static buffers, the sink, the timeouts. *)
Definition run_start (now : Z) (m : memory) : run loop_state :=
  let zeros n := replicate (Z.to_nat n) 0 in
  let sink := sink_new (tx_new (zeros 0x10000)) (MkBuffered (zeros 255) COBS_XOR)
                (Z.to_nat 0x10000) in
  t ← timeouts_new_8n1 INITIAL_BAUD_RATE;
  let d := MkDevice sink t m (zeros 0x20000) [] in
  d ← say_legacy "[device]: starting state machine" [] d;
  d ← flush_to_fifo d;
  d ← say_legacy "[device]: timeout configuration={timeouts:?}" [] d;
  Val (MkLoop d (rx_new (zeros 0x10000)) (frame_new COBS_XOR) now now (Waiting true) now
         protocol_default None).
End receive_loop.
End Receiver.
Export Receiver.

(** ** The loop never panics *)

Section safety.
Context `{CrcLaws, PostcardLaws, RenderLaws} {P : Type} `{!Protocol P} (inv : P -> Prop).
Context (accepts : P -> FrameHeader -> list Z -> Prop) `{!ProtocolLaws P inv accepts}.
Implicit Types (st : loop_state (P := P)).

(** The invariant of the loop: the device, the protocol, the receive buffer and
    the decoder are well formed, and a decoder inside a packet body has left
    its header in [frame_header]. *)
Record loop_ok st : Prop := {
  lk_device : device_ok (ls_device st);
  lk_protocol : inv (ls_protocol st);
  lk_rx : rx_ok (ls_rx st);
  lk_rx_bytes : bytes (rx_storage (ls_rx st));
  lk_decoder : exists os, decoding (ls_decoder st) os;
  lk_header : forall i h, decode_state (ls_decoder st) = SPacketBody i h -> ls_header st = Some h;
}.

(** A complete frame is there that the protocol does not accept. *)
Definition refused st : Prop :=
  exists h, ls_header st = Some h /\ ~ accepts (ls_protocol st) h (rx_received (ls_rx st)).

(** A step from [st] that keeps the invariant if the loop goes on, and panics
    only on a frame that the protocol does not accept. *)
Definition step_fine st (r : run (step_end (P := P))) : Prop :=
  match r with
  | Val (Running st') => loop_ok st'
  | Val _ => True
  | Panic => refused st
  end.

Lemma running_fine st st' : loop_ok st' -> step_fine st (Val (Running st')).
Proof. done. Qed.

Lemma with_device_ok d st : loop_ok st -> device_ok d -> loop_ok (with_device d st).
Proof. intros []. by split. Qed.
Lemma with_recv_ok r st : loop_ok st -> loop_ok (with_recv r st).
Proof. intros []. by split. Qed.
Lemma with_protocol_ok p st : loop_ok st -> inv p -> loop_ok (with_protocol p st).
Proof. intros []. by split. Qed.
Lemma with_last_byte_ok t st : loop_ok st -> loop_ok (with_last_byte t st).
Proof. intros []. by split. Qed.
Lemma with_last_packet_ok t st : loop_ok st -> loop_ok (with_last_packet t st).
Proof. intros []. by split. Qed.
Lemma with_gpi_ok t st : loop_ok st -> loop_ok (with_gpi t st).
Proof. intros []. by split. Qed.
Lemma with_rx_ok b st : loop_ok st -> rx_ok b -> bytes (rx_storage b) -> loop_ok (with_rx b st).
Proof. intros []. by split. Qed.
Lemma with_reset_ok st :
  layer_sizes (ls_decoder st) -> device_ok (ls_device st) -> inv (ls_protocol st) ->
  rx_ok (ls_rx st) -> bytes (rx_storage (ls_rx st)) ->
  loop_ok (with_decoder (frame_reset (ls_decoder st)) st).
Proof.
  intros Hl ????. split; try done. exists []. by apply reset_decoding.
Qed.

Lemma rx_clear_ok b : rx_ok (rx_clear b) /\ bytes (rx_storage (rx_clear b)).
Proof.
  split; [unfold rx_ok; cbn; lia|]. apply Forall_replicate. unfold fits. lia.
Qed.

Lemma on_finished_fine i st h :
  loop_ok st -> ls_header st = Some h -> step_fine st (on_finished i st).
Proof.
  intros [Hd Hp Hrx Hrxb [os Hdec] _] Hh. unfold on_finished.
  rewrite Hh. cbn [unwrap]. rewrite run_bind_Val, rx_finalize_spec, run_bind_Val by done.
  cbv zeta. cbn [ls_protocol ls_device with_decoder with_rx with_frame_header].
  pose proof (handle_packet_sound (inv := inv) (accepts := accepts) i h (rx_received (ls_rx st))
    (ls_protocol st) (ls_device st) Hp Hd ltac:(by apply Forall_take)) as Hsound.
  destruct (handle_packet _ _ _ _ _) as [[[p d] s]|]; [|by exists h].
  destruct Hsound as (Hp' & Hd' & Hs).
  rewrite run_bind_Val. set (st1 := with_device d _).
  assert (loop_ok st1) as Hst1.
  { unfold st1. apply with_device_ok; [|done]. apply with_protocol_ok; [|done].
    apply (with_reset_ok (with_rx _ (with_frame_header None st))); try done.
    - apply Hdec.
    - unfold rx_ok. cbn. lia. }
  assert (forall st t r, loop_ok st ->
    loop_ok (with_recv r (with_last_packet t (with_rx (rx_clear (ls_rx st)) st)))) as Hfin.
  { intros st2 t r Hst2. destruct (rx_clear_ok (ls_rx st2)).
    apply with_recv_ok, with_last_packet_ok. by apply with_rx_ok. }
  destruct s; try done; apply running_fine, Hfin; [done|done| |].
  - apply with_protocol_ok; [done|]. apply (default_inv (inv := inv) (accepts := accepts)).
  - by apply with_protocol_ok.
Qed.

Lemma on_byte_fine i st b : loop_ok st -> u8 b -> step_fine st (on_byte i st b).
Proof.
  intros Hst Hb. pose proof Hst as [Hd Hp Hrx Hrxb [os Hdec] Hh]. unfold on_byte.
  destruct (frame_feed_ok (ls_decoder st) os b Hdec Hb) as ([l r] & Hf & Hok).
  rewrite Hf, run_bind_Val. cbv zeta.
  assert (layer_sizes l -> loop_ok (with_decoder (frame_reset l) (with_decoder l st))) as Hreset.
  { intros Hl. by apply (with_reset_ok (with_decoder l st)). }
  destruct r as [o|e]; [|by apply running_fine, with_recv_ok, Hreset].
  destruct Hok as [Hdec' _]. destruct (frame_feed_header _ _ _ _ Hf) as [Hfin Hbody].
  assert ((forall h, o <> FHeader h) -> loop_ok (with_decoder l st)) as Hnext.
  { intros Hno. split; try done; [by eexists|]. intros j h Hs.
    destruct (Hbody j h Hs) as [->|[_ [k Hk]]]; [by destruct (Hno h)|]. by eapply Hh. }
  destruct o as [|h|x| | |n x].
  - by apply running_fine, with_recv_ok, Hnext.
  - apply running_fine, with_recv_ok. split; try done; [by eexists|].
    intros j h' Hs. destruct (Hbody j h' Hs) as [[= ->]|[Hno _]]; [done|by destruct (Hno h)].
  - destruct (rx_push_u8_spec (ls_rx st) x Hrx) as (rx & e & Hpush & Hrx' & _ & _).
    cbn [ls_rx with_decoder]. rewrite Hpush, run_bind_Val.
    assert (loop_ok (with_rx rx (with_decoder l st))) as Hst'.
    { apply with_rx_ok; [by apply Hnext|done|]. unfold rx_push_u8 in Hpush.
      pose proof (frame_feed_payload _ _ _ _ _ Hdec Hb Hf).
      unfold slice_set in Hpush. repeat case_decide; try done; cbn in Hpush;
        simplify_eq/=; [done|]. by apply Forall_insert. }
    destruct e; by apply running_fine, with_recv_ok.
  - destruct (Hfin eq_refl) as (j & h & Hs). apply (on_finished_fine i (with_decoder l st) h).
    + by apply Hnext.
    + by eapply Hh.
  - done.
  - pose proof (Hreset (dg_sizes _ _ Hdec')) as Hst'.
    destruct (say_legacy_quiet "[device] received legacy PRINT_STRING from" []
      (ls_device st)) as (d & Hsay & Hq); [done|].
    cbn [ls_device with_decoder]. rewrite Hsay, run_bind_Val.
    apply running_fine, with_recv_ok, with_device_ok; [done|apply Hq].
Qed.

Lemma on_error_fine i st t e : loop_ok st -> step_fine st (on_error i st t e).
Proof.
  intros Hst. unfold on_error.
  assert (exists d, match e with Some e => say_legacy (receive_error_line e) [] (ls_device st)
    | None => Val (ls_device st) end = Val d /\ device_ok d) as (d & -> & Hd).
  { destruct e as [e|]; [|eexists; split; [done|apply Hst]].
    destruct (say_legacy_quiet (receive_error_line e) [] (ls_device st)) as (d & -> & Hq);
      [apply Hst|]. eexists. split; [done|apply Hq]. }
  rewrite run_bind_Val. cbv zeta.
  destruct (_ <? _); apply running_fine, with_recv_ok; by apply with_device_ok.
Qed.

Lemma initial_timeouts : exists t, timeouts_new_8n1 INITIAL_BAUD_RATE = Val t.
Proof. eexists. vm_compute. reflexivity. Qed.

Lemma set_timeouts_ok t d : device_ok d -> device_ok (set_timeouts t d).
Proof. intros []. by split. Qed.

Lemma on_idle_fine i st : loop_ok st -> step_fine st (on_idle i st).
Proof.
  intros Hst. unfold on_idle. cbv zeta. destruct (_ && _ && _).
  - edestruct (say_legacy_quiet "[device]: session expired after {packet_elapsed:?}, dumping."
      [instant_elapsed (ls_last_packet st) (io_clock i clk_packet)]
      (ls_device st)) as (d & -> & Hq); [apply Hst|].
    rewrite run_bind_Val. destruct (flush_to_fifo_quiet d (qu_ok _ _ Hq)) as (d' & -> & Hq').
    rewrite run_bind_Val. destruct initial_timeouts as [t ->]. rewrite run_bind_Val.
    apply running_fine, with_recv_ok, with_protocol_ok;
      [|apply (default_inv (inv := inv) (accepts := accepts))].
    apply with_device_ok; [by apply with_last_packet_ok|]. apply set_timeouts_ok, Hq'.
  - destruct (_ && _); apply running_fine; [|done]. by apply with_recv_ok, with_last_byte_ok.
Qed.

Lemma gpi_tick_fine i g d :
  device_ok d -> exists g' d', gpi_tick i g d = Val (g', d') /\ device_ok d'.
Proof.
  intros Hd. unfold gpi_tick. destruct (_ && _); [|by eexists _, _].
  pose proof Hd as [Hs _ _ _].
  destruct (extend_from_slice_spec (fs_tx (dv_sink d)) GET_PROG_INFO) as (t & r & -> & Ht & _ & Hl & _);
    [apply Hs|]. rewrite run_bind_Val. eexists _, _. split; [done|].
  destruct (set_tx_ok t _ Hs Ht Hl). by apply quiet_sink.
Qed.

(** What the registers may read: a received byte is a byte. *)
Definition io_ok (i : io) : Prop := match io_byte i with Some b => u8 b | None => True end.

Lemma transmit_one_quiet i d :
  device_ok d -> exists d', transmit_one i d = Val d' /\ quiet d d'.
Proof.
  intros Hd. unfold transmit_one. destruct (io_can_write i); [|eauto using quiet_refl].
  destruct (shift_byte_quiet d Hd) as (t & b & -> & Hq). rewrite run_bind_Val.
  eexists. split; [done|]. destruct b; [|done].
  eapply quiet_trans; [exact Hq|]. apply uart_write_quiet, Hq.
Qed.

Lemma poll_if_initial_fine i st :
  loop_ok st -> exists st', poll_if_initial i st = Val st' /\ loop_ok st' /\
    ls_recv st' = ls_recv st /\ ls_rx st' = ls_rx st /\ ls_decoder st' = ls_decoder st /\
    ls_header st' = ls_header st /\ ls_protocol st' = ls_protocol st.
Proof.
  intros Hst. unfold poll_if_initial. destruct (is_initial (ls_recv st)); [|by eexists].
  destruct (gpi_tick_fine i (ls_gpi st) (ls_device st)) as (g & d2 & -> & Hd2); [apply Hst|].
  rewrite run_bind_Val. eexists. split; [done|]. split; [|done].
  by apply with_gpi_ok, with_device_ok.
Qed.

Lemma receive_fine i st : loop_ok st -> io_ok i -> step_fine st (receive i st).
Proof.
  unfold io_ok, receive. destruct (io_byte i), (ls_recv st);
    auto using on_byte_fine, on_error_fine, on_idle_fine.
Qed.

(** What an iteration does before it looks at the byte. *)
Lemma loop_step_prefix i st :
  loop_ok st -> exists st', loop_step i st =
      (r ← receive i st';
       Val (match r, io_byte i with
            | Running st, Some _ => Running (with_last_byte (io_clock i clk_byte_now) st)
            | _, _ => r
            end)) /\ loop_ok st' /\
    ls_rx st' = ls_rx st /\ ls_decoder st' = ls_decoder st /\ ls_header st' = ls_header st /\
    (io_overrun i = false -> ls_recv st' = ls_recv st) /\ (refused st' -> refused st).
Proof.
  intros Hst. unfold loop_step.
  destruct (transmit_one_quiet i (ls_device st)) as (d & -> & Hd); [apply Hst|].
  rewrite run_bind_Val. cbv zeta. set (st1 := if io_overrun i then _ else _).
  assert (loop_ok st1 /\ ls_rx st1 = ls_rx st /\ ls_decoder st1 = ls_decoder st /\
    ls_header st1 = ls_header st /\ ls_protocol st1 = ls_protocol st /\
    (io_overrun i = false -> ls_recv st1 = ls_recv st)) as (Hst1 & E1 & E2 & E3 & E5 & E4).
  { unfold st1. pose proof (with_device_ok _ _ Hst (qu_ok _ _ Hd)).
    destruct (io_overrun i); [split; [by apply with_recv_ok|done]|done]. }
  clearbody st1.
  destruct (poll_if_initial_fine i st1 Hst1) as (st2 & -> & Hst2 & F0 & F1 & F2 & F3 & F4).
  rewrite run_bind_Val.
  destruct (heartbeat_total (inv := inv) (accepts := accepts) i (ls_protocol st2) (ls_device st2))
    as (p & d3 & s & -> & Hp & Hd3 & Hacc); [apply Hst2|apply Hst2|].
  rewrite run_bind_Val. eexists. split; [done|].
  split; [by apply with_device_ok, Hd3; apply with_protocol_ok|].
  cbn [ls_rx ls_decoder ls_header ls_recv with_device with_protocol].
  split_and!; [congruence..| |].
  - intros Hov. by rewrite F0, E4.
  - unfold refused. cbn [ls_rx ls_header ls_protocol with_device with_protocol].
    rewrite F1, E1, F3, E3. intros (h & ? & Hno). exists h. split; [done|].
    intros Ha. apply Hno, Hacc. by rewrite F4, E5.
Qed.

Lemma loop_step_fine i st : loop_ok st -> io_ok i -> step_fine st (loop_step i st).
Proof.
  intros Hst Hi. destruct (loop_step_prefix i st Hst) as (st' & -> & Hst' & _ & _ & _ & _ & Href).
  pose proof (receive_fine i st' Hst' Hi) as Hr. unfold step_fine in *.
  destruct (receive i st') as [r|]; [|by apply Href]. rewrite run_bind_Val.
  destruct r, (io_byte i); try done. by apply with_last_byte_ok.
Qed.

Lemma loop_run_fine ios st :
  loop_ok st -> Forall io_ok ios ->
  match loop_run ios st with
  | Val (Running st') => loop_ok st'
  | Val _ => True
  | Panic => exists ios1 i ios2 st', ios = ios1 ++ i :: ios2 /\
      loop_run ios1 st = Val (Running st') /\ refused st'
  end.
Proof.
  intros Hst Hi. revert st Hst. induction Hi as [|i ios Hi Hios IH]; intros st Hst; [done|].
  cbn [loop_run]. pose proof (loop_step_fine i st Hst Hi) as Hr. unfold step_fine in Hr.
  destruct (loop_step i st) as [r|] eqn:Hs; [|by exists [], i, ios, st].
  rewrite run_bind_Val. destruct r as [st1|d|m e|]; [|done..].
  specialize (IH st1 Hr). destruct (loop_run ios st1) as [[]|]; try done.
  destruct IH as (ios1 & j & ios2 & st' & -> & Hrun & Href).
  exists (i :: ios1), j, ios2, st'. cbn [loop_run app]. by rewrite Hs, run_bind_Val.
Qed.

(** ** What the protocol is handed *)

(** An iteration that receives [b]. *)
Definition receives (i : io) (b : Z) : Prop := io_byte i = Some b /\ io_overrun i = false.

Lemma loop_run_app ios1 ios2 st :
  loop_run (ios1 ++ ios2) st =
  (r ← loop_run ios1 st; match r with Running st => loop_run ios2 st | _ => Val r end).
Proof.
  revert st. induction ios1 as [|i ios1 IH]; intros st; [done|]. cbn [app loop_run].
  destruct (loop_step i st) as [[st1|d|m e|]|]; try done. rewrite !run_bind_Val. apply IH.
Qed.

Lemma loop_step_byte i b st w :
  loop_ok st -> receives i b -> ls_recv st = Waiting w ->
  exists st', loop_step i st =
      (r ← on_byte i st' b;
       Val (match r with
            | Running st => Running (with_last_byte (io_clock i clk_byte_now) st)
            | _ => r
            end)) /\ loop_ok st' /\
    ls_rx st' = ls_rx st /\ ls_decoder st' = ls_decoder st /\ ls_header st' = ls_header st.
Proof.
  intros Hst [Hb Ho] Hw. destruct (loop_step_prefix i st Hst) as (st' & Heq & Hst' & E1 & E2 & E3 & E4 & _).
  exists st'. rewrite Heq. unfold receive. rewrite Hb, E4, Hw by done.
  split; [|done]. destruct (on_byte i st' b) as [[]|]; done.
Qed.

(** Outputs that keep the loop waiting for more of the frame. *)
Definition collecting (o : FrameOutput) : Prop :=
  match o with FSkip | FHeader _ | FPayload _ => True | _ => False end.
Definition payload_of (os : list FrameOutput) : list Z :=
  os ≫= (fun o => match o with FPayload b => [b] | _ => [] end).
Definition header_of (h : option FrameHeader) (os : list FrameOutput) : option FrameHeader :=
  foldl (fun h o => match o with FHeader h' => Some h' | _ => h end) h os.

Lemma collect_step i b st w l o :
  loop_ok st -> receives i b -> u8 b -> ls_recv st = Waiting w ->
  frame_feed (ls_decoder st) b = Val (l, Ok o) -> collecting o ->
  (rx_cursor (ls_rx st) + length (payload_of [o]) <= length (rx_storage (ls_rx st)))%nat ->
  exists st', loop_step i st = Val (Running st') /\ loop_ok st' /\ ls_recv st' = Waiting false /\
    ls_decoder st' = l /\ rx_received (ls_rx st') = rx_received (ls_rx st) ++ payload_of [o] /\
    ls_header st' = header_of (ls_header st) [o] /\
    rx_cursor (ls_rx st') = (rx_cursor (ls_rx st) + length (payload_of [o]))%nat /\
    length (rx_storage (ls_rx st')) = length (rx_storage (ls_rx st)).
Proof.
  intros Hst Hr Hu Hw Hf Ho Hcap.
  assert (io_ok i) as Hi by (unfold io_ok; destruct Hr as [-> _]; done).
  pose proof (loop_step_fine i st Hst Hi) as Hok.
  destruct (loop_step_byte i b st w Hst Hr Hw) as (st1 & Heq & Hst1 & E1 & E2 & E3).
  rewrite Heq in Hok |- *. unfold on_byte in *. rewrite E2, Hf, run_bind_Val in *.
  destruct o as [|h|x| | |]; try done.
  - rewrite run_bind_Val in *. eexists. split; [done|].
    split; [exact Hok|]. cbn. rewrite E1, E3, Nat.add_0_r, app_nil_r. done.
  - rewrite run_bind_Val in *. eexists. split; [done|].
    split; [exact Hok|]. cbn. rewrite E1, Nat.add_0_r, app_nil_r. done.
  - destruct (rx_push_u8_spec (ls_rx st1) x) as (rx & e1 & Hpush & Hrx & Hsz & Hspec);
      [apply Hst1|].
    cbn [ls_rx with_decoder] in *. rewrite Hpush, run_bind_Val in *.
    cbn in Hcap. rewrite <- E1 in Hcap. rewrite decide_True in Hspec by lia.
    destruct Hspec as (-> & Hrec & Hcur). rewrite run_bind_Val in *.
    eexists. split; [done|]. split; [exact Hok|]. cbn. rewrite E1, E3 in *.
    split_and!; try done. lia.
Qed.

Lemma collect_all bs ios st w l os :
  loop_ok st -> Forall2 receives ios bs -> bytes bs -> ls_recv st = Waiting w ->
  frame_feed_all (ls_decoder st) bs = Val (l, os, None) -> Forall collecting os ->
  (rx_cursor (ls_rx st) + length (payload_of os) <= length (rx_storage (ls_rx st)))%nat ->
  exists st' w', loop_run ios st = Val (Running st') /\ loop_ok st' /\ ls_recv st' = Waiting w' /\
    ls_decoder st' = l /\ rx_received (ls_rx st') = rx_received (ls_rx st) ++ payload_of os /\
    ls_header st' = header_of (ls_header st) os /\
    length (rx_storage (ls_rx st')) = length (rx_storage (ls_rx st)).
Proof.
  revert ios st w os. induction bs as [|b bs IH]; intros ios st w os Hst Hr Hb Hw Hf Hos Hcap.
  - inversion Hr; subst. injection Hf as <- <-. exists st, w. rewrite app_nil_r. done.
  - inversion Hr as [|i ? ios' ? Hi Hr']; subst. inversion Hb; subst. cbn [frame_feed_all] in Hf.
    destruct (frame_feed (ls_decoder st) b) as [[l1 [o|e]]|] eqn:Hfeed; [|done..].
    rewrite run_bind_Val in Hf.
    destruct (frame_feed_all l1 bs) as [[[l2 o2] e2]|] eqn:Hall; [|done].
    rewrite run_bind_Val in Hf. injection Hf as <- <- ->. inversion Hos; subst.
    assert (payload_of (o :: o2) = payload_of [o] ++ payload_of o2) as Hp by (by destruct o).
    rewrite Hp, length_app in Hcap.
    destruct (collect_step i b st w l1 o) as (st1 & Hs1 & Hok1 & Hw1 & Hd1 & Hrx1 & Hh1 & Hc1 & Hl1);
      try done; [lia|].
    destruct (IH ios' st1 false o2) as (st2 & w2 & Hs2 & Hok2 & Hw2 & Hd2 & Hrx2 & Hh2 & Hl2);
      try done; [by rewrite Hd1|lia|].
    exists st2, w2. cbn [loop_run]. rewrite Hs1, run_bind_Val, Hs2.
    split_and!; try done.
    + by rewrite Hrx2, Hrx1, Hp, app_assoc.
    + rewrite Hh2, Hh1. done.
    + by rewrite Hl2, Hl1.
Qed.

Lemma visible_collecting os h p :
  visible os = FHeader h :: map FPayload p ->
  Forall collecting os /\ payload_of os = p /\ forall h0, header_of h0 os = Some h.
Proof.
  assert (forall os p, visible os = map FPayload p ->
    Forall collecting os /\ payload_of os = p /\ forall h0, header_of h0 os = h0) as Hpay.
  { clear. intros os. induction os as [|o os IH]; intros p Hv.
    - destruct p; [|done]. done.
    - unfold visible in *. rewrite filter_cons in Hv. case_decide.
      + destruct p as [|b p]; [done|]. injection Hv as -> Hv.
        destruct (IH p Hv) as (E1 & E2 & E3). split_and!; [by constructor| |done].
        cbn. by rewrite <- E2.
      + destruct (IH p Hv) as (E1 & E2 & E3). assert (o = FSkip) as -> by (destruct o; naive_solver).
        split_and!; [by constructor|done|done]. }
  induction os as [|o os IH]; [done|]. unfold visible in *. rewrite filter_cons.
  case_decide as Hd; intros Hv.
  - injection Hv as -> Hv. destruct (Hpay os p Hv) as (E1 & E2 & E3).
    split_and!; [by constructor|done|]. intros h0. apply (E3 (Some h)).
  - destruct (IH Hv) as (E1 & E2 & E3). assert (o = FSkip) as -> by (destruct o; naive_solver).
    split_and!; [by constructor|done|done].
Qed.

Lemma frame_delivered_lemma st w t p ios wire :
  loop_ok st -> ls_recv st = Waiting w -> between_frames COBS_XOR (ls_decoder st) ->
  payload_ok (t, p) ->
  (rx_cursor (ls_rx st) + length p <= length (rx_storage (ls_rx st)))%nat ->
  wire_encode t p = Val wire -> Forall2 receives ios wire ->
  exists ios0 i st1, ios = ios0 ++ [i] /\ loop_ok st1 /\
    ls_header st1 = Some (MkHeader t (Z.of_nat (length p))) /\
    rx_received (ls_rx st1) = rx_received (ls_rx st) ++ p /\
    loop_run ios st =
      (r ← on_finished i st1;
       Val (match r with
            | Running st => Running (with_last_byte (io_clock i clk_byte_now) st)
            | _ => r
            end)).
Proof.
  intros Hst Hw Hbf [Hp Hlen] Hcap Hwire Hios.
  destruct (decode_frame (ls_decoder st) t p Hbf Hp Hlen)
    as (wire' & l' & os & Hwire' & Hfeed & Hvis & _ & os0 & ->).
  rewrite Hwire in Hwire'. injection Hwire' as <-.
  assert (bytes wire) as Hbw.
  { destruct (wire_format_shape t p (conj Hp Hlen)) as (inside & Hw' & Hin & _).
    rewrite Hwire in Hw'. injection Hw' as ->.
    assert (u8 85) as H85 by (unfold fits; lia).
    repeat (constructor; [done|]). apply Forall_app_2; [|by constructor].
    revert Hin. apply List.Forall_impl. by intros x [Hx _]. }
  rewrite visible_app in Hvis. change (visible [FFinished]) with [FFinished] in Hvis.
  rewrite app_comm_cons in Hvis. apply app_inj_tail in Hvis as [Hvis _].
  destruct (visible_collecting _ _ _ Hvis) as (Hcol & Hpay & Hhdr).
  destruct (frame_feed_all_snoc _ _ _ _ _ Hfeed) as (bs0 & b & l0 & -> & Hf0 & Hfb).
  apply Forall2_app_inv_r in Hios as (ios0 & ios1 & Hr0 & Hr1 & ->).
  inversion Hr1 as [|i ? ? ? Hi Hnil]; subst. inversion Hnil; subst.
  apply Forall_app in Hbw as [Hb0 Hb1].
  destruct (collect_all bs0 ios0 st w l0 os0) as (st1 & w1 & Hrun & Hok1 & Hw1 & Hd1 & Hrx1 & Hh1 & _);
    try done.
  destruct (loop_step_byte i b st1 w1 Hok1 Hi Hw1) as (st2 & Hs2 & Hok2 & E1 & E2 & E3).
  assert (loop_ok (with_decoder l' st2)) as Hok3.
  { destruct Hok2 as [? ? ? ? [os2 Hdec] ?]. split; try done.
    - assert (u8 b) as Hbu by (by inversion Hb1).
      destruct (frame_feed_ok (ls_decoder st2) os2 b Hdec Hbu) as ([l2 r2] & Hf2 & Hok).
      rewrite E2, Hd1, Hfb in Hf2. injection Hf2 as <- <-. by eexists; apply Hok.
    - intros j h Hs. cbn [ls_decoder with_decoder ls_header] in *.
      destruct (frame_feed_header _ _ _ _ Hfb) as [_ Hbody].
      destruct (Hbody j h Hs) as [?|[_ [k Hk]]]; [done|]. eapply lk_header0. by rewrite E2, Hd1. }
  exists ios0, i, (with_decoder l' st2). split; [done|]. split; [exact Hok3|].
  cbn [ls_header ls_rx with_decoder]. rewrite E3, Hh1, Hhdr, E1, Hrx1.
  split; [done|]. split; [done|].
  rewrite loop_run_app, Hrun, run_bind_Val. cbn [loop_run]. rewrite Hs2.
  unfold on_byte. rewrite E2, Hd1, Hfb, run_bind_Val. cbv zeta.
  destruct (on_finished i (with_decoder l' st2)) as [[]|]; done.
Qed.

(** A loop that has just started over [d]. *)
Definition fresh_loop (d : device) (capacity : nat) (now : Z) : loop_state :=
  MkLoop d (rx_new (replicate capacity 0)) (frame_new COBS_XOR) now now (Waiting true) now
    protocol_default None.

Lemma fresh_loop_ok d capacity now : device_ok d -> loop_ok (fresh_loop d capacity now).
Proof.
  intros Hd. split; cbn [fresh_loop ls_device ls_protocol ls_rx ls_decoder ls_header rx_new]; try done.
  - apply (default_inv (inv := inv) (accepts := accepts)).
  - unfold rx_ok. cbn. lia.
  - apply Forall_replicate. unfold fits. lia.
  - exists []. apply new_decoding. unfold fits, COBS_XOR. lia.
Qed.

(** Starting up: two lines are printed, the first is flushed. *)
Lemma run_start_fresh now m :
  exists d, run_start now m = Val (fresh_loop d (Z.to_nat 0x10000) now) /\ device_ok d /\
    dv_memory d = m.
Proof.
  unfold run_start. cbv zeta. destruct initial_timeouts as [t ->]. rewrite run_bind_Val.
  set (d0 := MkDevice _ _ _ _ _).
  assert (device_ok d0) as Hd0.
  { unfold d0. split; cbn [dv_sink dv_inflate_buffer sink_new fs_tx fs_postcard tx_storage tx_new];
      rewrite ?length_replicate; try done.
    split; cbn [sink_new fs_tx fs_encoder]; try done.
    apply tx_new_ok. rewrite length_replicate. lia. }
  destruct (say_legacy_quiet "[device]: starting state machine" [] d0 Hd0) as (d1 & -> & Q1).
  rewrite run_bind_Val.
  destruct (flush_to_fifo_quiet d1 (qu_ok _ _ Q1)) as (d2 & -> & Q2). rewrite run_bind_Val.
  destruct (say_legacy_quiet "[device]: timeout configuration={timeouts:?}" [] d2 (qu_ok _ _ Q2))
    as (d3 & -> & Q3). rewrite run_bind_Val.
  exists d3. split; [done|]. split; [apply Q3|].
  pose proof (quiet_trans _ _ _ Q1 (quiet_trans _ _ _ Q2 Q3)) as Q. apply (qu_memory _ _ Q).
Qed.

(** Without a byte, the receive buffer and the decoder stay as they are. *)
Lemma silent_step i st st' :
  loop_ok st -> io_byte i = None -> loop_step i st = Val (Running st') ->
  loop_ok st' /\ rx_received (ls_rx st') = rx_received (ls_rx st) /\
  rx_cursor (ls_rx st') = rx_cursor (ls_rx st) /\
  length (rx_storage (ls_rx st')) = length (rx_storage (ls_rx st)) /\
  ls_decoder st' = ls_decoder st.
Proof.
  intros Hst Hi Hs.
  assert (io_ok i) as Hio by (unfold io_ok; by rewrite Hi).
  pose proof (loop_step_fine i st Hst Hio) as Hok. rewrite Hs in Hok. split; [exact Hok|].
  destruct (loop_step_prefix i st Hst) as (st1 & Heq & Hst1 & E1 & E2 & _).
  rewrite Heq in Hs. unfold receive in Hs. rewrite Hi in Hs.
  rewrite <- E1, <- E2. clear E1 E2 Heq Hok.
  destruct (ls_recv st1) as [w|t e].
  - unfold on_idle in Hs. cbv zeta in Hs. destruct (_ && _ && _) in Hs.
    + destruct (say_legacy _ _ _) as [d|] in Hs; [|done]. rewrite run_bind_Val in Hs.
      destruct (flush_to_fifo d) as [d'|] in Hs; [|done]. rewrite run_bind_Val in Hs.
      destruct initial_timeouts as [t Ht]. rewrite Ht, run_bind_Val in Hs.
      rewrite run_bind_Val in Hs. by injection Hs as <-.
    + destruct (_ && _) in Hs; rewrite run_bind_Val in Hs; by injection Hs as <-.
  - unfold on_error in Hs. destruct (match e with Some _ => _ | None => _ end) as [d|] in Hs; [|done].
    rewrite run_bind_Val in Hs. cbv zeta in Hs.
    destruct (_ <? _) in Hs; rewrite run_bind_Val in Hs; by injection Hs as <-.
Qed.

Lemma silent_run ios st st' :
  loop_ok st -> Forall (fun i => io_byte i = None) ios -> loop_run ios st = Val (Running st') ->
  loop_ok st' /\ rx_received (ls_rx st') = rx_received (ls_rx st) /\
  rx_cursor (ls_rx st') = rx_cursor (ls_rx st) /\
  length (rx_storage (ls_rx st')) = length (rx_storage (ls_rx st)) /\
  ls_decoder st' = ls_decoder st.
Proof.
  intros Hst Hi. revert st Hst. induction Hi as [|i ios Hi Hios IH]; intros st Hst.
  - intros [= <-]. done.
  - cbn [loop_run]. destruct (loop_step i st) as [[st1|d|m e|]|] eqn:Hs; try done.
    rewrite run_bind_Val. intros Hrun.
    destruct (silent_step i st st1 Hst Hi Hs) as (Hst1 & E1 & E2 & E3 & E4).
    destruct (IH st1 Hst1 Hrun) as (Hst' & F1 & F2 & F3 & F4).
    split; [done|]. split_and!; congruence.
Qed.
End safety.

(** ** A protocol that records what it is handed *)

Module Recorder.
Definition recorder : Type := list (FrameHeader * list Z).
#[export] Instance recorder_protocol `{Crc, Postcard} : Protocol recorder := {|
  protocol_default := [];
  handle_packet _ h payload p d := Val (p ++ [(h, payload)], d, Continue);
  heartbeat _ p d := Val (p, d, Continue);
|}.
#[export] Instance recorder_laws `{Crc, Postcard} :
  ProtocolLaws recorder (fun _ => True) (fun _ _ _ => True).
Proof.
  split; [done|by intros i h payload p d|]. intros i p d _ Hd. by exists p, d, Continue.
Qed.
(** Lines without text. *)
#[export] Instance no_text : Render := fun _ _ => [].
#[export] Instance no_text_laws : RenderLaws.
Proof. split; [constructor|]. intros. cbn. lia. Qed.
End Recorder.
Export Recorder.

(** An iteration without a byte, one that receives [b]; the timer reads [t]. *)
Definition tick (t : Z) : io := MkIo None false false (fun _ => t) 270 (fun x => x).
Definition tock (t b : Z) : io := MkIo (Some b) false false (fun _ => t) 270 (fun x => x).

Lemma tocks_receive t bs : Forall2 receives (map (tock t) bs) bs.
Proof. induction bs; by constructor. Qed.

(** ** The claims *)

(** C32: the receive loop of the device starts without a panic and never
    panics, whatever bytes arrive in whatever timing, unless a complete frame
    is there that the protocol does not accept; as long as it runs its buffers
    stay well formed. *)
Theorem receive_loop_safe `{CrcLaws, PostcardLaws, RenderLaws} {P : Type} `{!Protocol P} inv
    accepts `{!ProtocolLaws P inv accepts} now m ios :
  Forall io_ok ios ->
  exists st : loop_state (P := P), run_start now m = Val st /\ loop_ok inv st /\
    match loop_run ios st with
    | Val (Running st') => loop_ok inv st'
    | Val _ => True
    | Panic => exists ios1 i ios2 st', ios = ios1 ++ i :: ios2 /\
        loop_run ios1 st = Val (Running st') /\ refused accepts st'
    end.
Proof.
  intros Hios. destruct (run_start_fresh (P := P) now m) as (d & Hr & Hd & _).
  pose proof (fresh_loop_ok inv accepts d (Z.to_nat 0x10000) now Hd) as Hst.
  eexists. split; [exact Hr|]. split; [exact Hst|]. by apply loop_run_fine.
Qed.

(** A frame that arrives while the loop waits between frames is handed to
    the protocol in the iteration of its last byte, with its own type and
    length, and with the bytes of the receive buffer before its payload. *)
Theorem frame_delivered `{CrcLaws, PostcardLaws, RenderLaws} {P : Type} `{!Protocol P} inv
    accepts `{!ProtocolLaws P inv accepts} (st : loop_state (P := P)) w t p ios wire :
  loop_ok inv st -> ls_recv st = Waiting w -> between_frames COBS_XOR (ls_decoder st) ->
  payload_ok (t, p) ->
  (rx_cursor (ls_rx st) + length p <= length (rx_storage (ls_rx st)))%nat ->
  wire_encode t p = Val wire -> Forall2 receives ios wire ->
  exists ios0 i st1, ios = ios0 ++ [i] /\ loop_ok inv st1 /\
    ls_header st1 = Some (MkHeader t (Z.of_nat (length p))) /\
    rx_received (ls_rx st1) = rx_received (ls_rx st) ++ p /\
    loop_run ios st =
      (r ← on_finished i st1;
       Val (match r with
            | Running st => Running (with_last_byte (io_clock i clk_byte_now) st)
            | _ => r
            end)).
Proof. apply (frame_delivered_lemma inv accepts). Qed.

Section decode_errors.
Context `{CrcLaws, PostcardLaws, RenderLaws} {P : Type} `{!Protocol P} (inv : P -> Prop).
Context (accepts : P -> FrameHeader -> list Z -> Prop) `{!ProtocolLaws P inv accepts}.
Implicit Types (st : loop_state (P := P)).

(** The bytes [bs], then a byte [b] that the decoder rejects. *)
Lemma decode_error_run st w bs b os l l' e ios :
  loop_ok inv st -> ls_recv st = Waiting w -> bytes (bs ++ [b]) ->
  cobs_xor (fl_cobs (ls_decoder st)) = COBS_XOR ->
  frame_feed_all (ls_decoder st) bs = Val (l, os, None) -> Forall collecting os ->
  frame_feed l b = Val (l', Err e) ->
  (rx_cursor (ls_rx st) + length (payload_of os) <= length (rx_storage (ls_rx st)))%nat ->
  Forall2 receives ios (bs ++ [b]) ->
  exists st', loop_run ios st = Val (Running st') /\ loop_ok inv st' /\
    (exists now, ls_recv st' = receive_error_state now (DecodeError e)) /\
    between_frames COBS_XOR (ls_decoder st') /\
    rx_received (ls_rx st') = rx_received (ls_rx st) ++ payload_of os /\
    length (rx_storage (ls_rx st')) = length (rx_storage (ls_rx st)).
Proof.
  intros Hst Hw Hb Hx Hf Hos Hfb Hcap Hr.
  assert (between_frames COBS_XOR (frame_reset l')) as Hbf.
  { assert (frame_drive (ls_decoder st) (bs ++ [b]) =
      Val (frame_reset l', map Ok os ++ [Err e])) as Hd.
    { by rewrite frame_drive_app, (frame_drive_feed_all _ _ _ _ Hf), run_bind_Val; cbn;
        rewrite Hfb. }
    pose proof (frame_reset_xor _ _ _ _ Hd) as Hx'. rewrite Hx in Hx'.
    pose proof (frame_reset_between l') as Hl. cbn in Hx'. by rewrite Hx' in Hl. }
  apply Forall2_app_inv_r in Hr as (ios0 & ios1 & Hr0 & Hr1 & ->).
  inversion Hr1 as [|i ? ? ? Hi Hnil]; subst. inversion Hnil; subst.
  apply Forall_app in Hb as [Hb0 Hb1].
  destruct (collect_all inv accepts bs ios0 st w l os) as (st1 & w1 & Hrun & Hok1 & Hw1 & Hd1 & Hrx1 & _ & Hl1); try done.
  assert (io_ok i) as Hio by (unfold io_ok; destruct Hi as [-> _]; by inversion Hb1).
  pose proof (loop_step_fine inv accepts i st1 Hok1 Hio) as Hfine.
  destruct (loop_step_byte inv accepts i b st1 w1 Hok1 Hi Hw1) as (st2 & Hs2 & Hok2 & E1 & E2 & E3).
  rewrite loop_run_app, Hrun, run_bind_Val. cbn [loop_run].
  rewrite Hs2 in Hfine |- *. unfold on_byte in *. rewrite E2, Hd1, Hfb, run_bind_Val in *.
  cbv zeta in *. rewrite run_bind_Val in *. eexists. split; [done|]. split; [exact Hfine|].
  cbn [ls_recv ls_rx ls_decoder with_last_byte with_recv with_decoder].
  split; [by eexists|]. split; [exact Hbf|]. rewrite E1. by split.
Qed.
End decode_errors.

Lemma rx_cursor_received rx : rx_ok rx -> rx_cursor rx = length (rx_received rx).
Proof. unfold rx_ok, rx_received. intros. rewrite length_take. lia. Qed.

(** What the loop does with a frame that is broken in transit.  The bytes
    of its payload that were decoded before the error stay in the receive
    buffer: the protocol is handed the next good frame with these bytes in
    front of its payload, although the header says [length p]. *)
Theorem stale_payload `{CrcLaws, PostcardLaws, RenderLaws} {P : Type} `{!Protocol P} inv
    accepts `{!ProtocolLaws P inv accepts} (st : loop_state (P := P))
    w bs b os l l' e ios_broken ios_silent w' st2 t p wire ios :
  loop_ok inv st -> ls_recv st = Waiting w -> rx_received (ls_rx st) = [] ->
  bytes (bs ++ [b]) -> cobs_xor (fl_cobs (ls_decoder st)) = COBS_XOR ->
  frame_feed_all (ls_decoder st) bs = Val (l, os, None) -> Forall collecting os ->
  frame_feed l b = Val (l', Err e) -> Forall2 receives ios_broken (bs ++ [b]) ->
  Forall (fun i => io_byte i = None) ios_silent ->
  loop_run (ios_broken ++ ios_silent) st = Val (Running st2) -> ls_recv st2 = Waiting w' ->
  payload_ok (t, p) -> wire_encode t p = Val wire -> Forall2 receives ios wire ->
  (length (payload_of os) + length p <= length (rx_storage (ls_rx st)))%nat ->
  exists ios0 i st3, ios = ios0 ++ [i] /\
    ls_header st3 = Some (MkHeader t (Z.of_nat (length p))) /\
    rx_received (ls_rx st3) = payload_of os ++ p /\
    loop_run (ios_broken ++ ios_silent ++ ios) st =
      (r ← on_finished i st3;
       Val (match r with
            | Running st => Running (with_last_byte (io_clock i clk_byte_now) st)
            | _ => r
            end)).
Proof.
  intros Hst Hw Hempty Hb Hx Hf Hos Hfb Hr Hsil Hrun2 Hw2 Hp Hwire Hios Hcap.
  pose proof (rx_cursor_received _ (lk_rx _ _ Hst)) as Hcur. rewrite Hempty in Hcur.
  destruct (decode_error_run inv accepts st w bs b os l l' e ios_broken)
    as (st1 & Hrun1 & Hst1 & _ & Hbf & Hrx1 & Hl1); try done; [cbn in Hcur; lia|].
  rewrite Hempty in Hrx1. cbn [app] in Hrx1. rewrite loop_run_app, Hrun1, run_bind_Val in Hrun2.
  destruct (silent_run inv accepts ios_silent st1 st2 Hst1 Hsil Hrun2)
    as (Hst2 & E1 & E2 & E3 & E4).
  rewrite <- E4 in Hbf.
  destruct (frame_delivered_lemma inv accepts st2 w' t p ios wire)
    as (ios0 & i & st3 & -> & _ & Hh & Hrx & Hrun3); try done.
  { rewrite E2, E3, Hl1, (rx_cursor_received _ (lk_rx _ _ Hst1)), Hrx1. done. }
  exists ios0, i, st3. split; [done|]. split; [done|]. split; [by rewrite Hrx, E1, Hrx1|].
  by rewrite loop_run_app, Hrun1, run_bind_Val, loop_run_app, Hrun2, run_bind_Val.
Qed.

(** ** Witnesses *)

Definition demo_device : device :=
  MkDevice (sink_of 64) (MkTimeouts 1 1 100 None) (fun _ => 0)
    (replicate (Z.to_nat 0x20000) 0) [].
Lemma demo_device_ok : device_ok demo_device.
Proof.
  split; [apply sink_of_ok; lia| | |];
    cbn [demo_device dv_sink dv_inflate_buffer sink_of sink_new fs_tx fs_postcard tx_new tx_storage];
    rewrite ?length_replicate; lia.
Qed.
Definition demo_loop : loop_state (P := Recorder.recorder) := fresh_loop demo_device 16 0.
Lemma demo_loop_ok : loop_ok (fun _ => True) demo_loop.
Proof.
  exact (fresh_loop_ok (fun _ => True) (fun _ _ _ => True) demo_device 16 0 demo_device_ok).
Qed.

Lemma receive_loop_safe_witness :
  exists st : loop_state (P := Recorder.recorder),
    run_start 0 (fun _ => 0) = Val st /\ loop_run [tock 1 0x55; tick 2; tock 3 0x5e] st <> Panic.
Proof.
  destruct (receive_loop_safe (P := Recorder.recorder) (fun _ => True) (fun _ _ _ => True)
    0 (fun _ => 0) [tock 1 0x55; tick 2; tock 3 0x5e]) as (st & Hr & _ & Hrun).
  - repeat apply Forall_cons_2; [cbn; unfold fits; lia|exact I|cbn; unfold fits; lia|].
    apply Forall_nil_2.
  - exists st. split; [exact Hr|]. intros Hp. rewrite Hp in Hrun.
    destruct Hrun as (ios1 & i & ios2 & st' & _ & _ & h & _ & Hno). exact (Hno I).
Defined.

Lemma frame_delivered_witness :
  exists wire ios0 i st1, wire_encode Chunk [7; 85] = Val wire /\
    map (tock 1) wire = ios0 ++ [i] /\
    ls_header st1 = Some (MkHeader Chunk 2) /\ rx_received (ls_rx st1) = [7; 85] /\
    loop_run (map (tock 1) wire) demo_loop =
      (r ← on_finished i st1;
       Val (match r with
            | Running st => Running (with_last_byte (io_clock i clk_byte_now) st)
            | _ => r
            end)).
Proof.
  assert (payload_ok (Chunk, [7; 85])) as Hp by (split; [decide_now|cbn; lia]).
  destruct (wire_format_shape Chunk [7; 85] Hp) as (inside & Hw & _).
  destruct (frame_delivered (fun _ => True) (fun _ _ _ => True) demo_loop true Chunk [7; 85]
    (map (tock 1) _) _ demo_loop_ok eq_refl (frame_new_between COBS_XOR) Hp
    ltac:(cbn; lia) Hw (tocks_receive 1 _)) as (ios0 & i & st1 & Hi & _ & Hh & Hrx & Hr).
  eexists _, ios0, i, st1. split; [exact Hw|]. split; [exact Hi|]. split; [exact Hh|].
  split; [exact Hrx|exact Hr].
Defined.

(** The frame of a [Probe] with the payload [1; 2], one bit of its CRC flipped. *)
Definition broken_frame : list Z :=
  [85; 85; 85; 94; 194; 192; 192; 192; 87; 156; 84; 84; 82; 84; 87; 230; 235; 101; 37].
Lemma broken_frame_rejected :
  exists l l' os e, frame_feed_all (frame_new COBS_XOR) broken_frame = Val (l, os, None) /\
    Forall collecting os /\ payload_of os = [1; 2] /\ frame_feed l 85 = Val (l', Err e).
Proof.
  assert (match frame_feed_all (frame_new COBS_XOR) broken_frame with
    | Val (l, os, None) =>
      forallb (fun o => match o with FSkip | FHeader _ | FPayload _ => true | _ => false end) os
      && bool_decide (payload_of os = [1; 2])
      && match frame_feed l 85 with Val (_, Err _) => true | _ => false end
    | _ => false
    end = true) as Hb by (vm_compute; reflexivity).
  destruct (frame_feed_all _ _) as [[[l os] [e|]]|]; try done.
  apply andb_true_iff in Hb as [Hb Hf]. apply andb_true_iff in Hb as [Hc Hp].
  destruct (frame_feed l 85) as [[l' [o|e]]|] eqn:Hfeed; try done.
  exists l, l', os, e. split; [done|]. split; [|split; [by apply bool_decide_eq_true in Hp|done]].
  apply List.Forall_forall. intros o Ho. rewrite forallb_forall in Hc. specialize (Hc o Ho).
  by destruct o.
Qed.
Lemma broken_frame_recovers :
  exists st2, loop_run (map (tock 1) (broken_frame ++ [85]) ++ [tick 5; tick 9]) demo_loop =
    Val (Running st2) /\ ls_recv st2 = Waiting false.
Proof.
  assert (match loop_run (map (tock 1) (broken_frame ++ [85]) ++ [tick 5; tick 9]) demo_loop with
    | Val (Running st2) => match ls_recv st2 with Waiting false => true | _ => false end
    | _ => false
    end = true) as Hb by (vm_compute; reflexivity).
  destruct (loop_run _ _) as [[st2| | |]|]; try done. exists st2. split; [done|].
  by destruct (ls_recv st2) as [[]|].
Qed.

Lemma stale_payload_witness :
  exists wire i st3, wire_encode Probe [3] = Val wire /\
    ls_header st3 = Some (MkHeader Probe 1) /\ rx_received (ls_rx st3) = [1; 2; 3] /\
    loop_run (map (tock 1) (broken_frame ++ [85]) ++ [tick 5; tick 9] ++ map (tock 9) wire)
      demo_loop =
      (r ← on_finished i st3;
       Val (match r with
            | Running st => Running (with_last_byte (io_clock i clk_byte_now) st)
            | _ => r
            end)).
Proof.
  assert (payload_ok (Probe, [3])) as Hp by (split; [decide_now|cbn; lia]).
  destruct (wire_format_shape Probe [3] Hp) as (inside & Hw & _).
  destruct broken_frame_rejected as (l & l' & os & e & Hf & Hos & Hpay & Hfb).
  destruct broken_frame_recovers as (st2 & Hrun & Hw2).
  destruct (stale_payload (fun _ => True) (fun _ _ _ => True) demo_loop true broken_frame 85 os
    l l' e (map (tock 1) (broken_frame ++ [85])) [tick 5; tick 9] false st2 Probe [3] _
    (map (tock 9) _) demo_loop_ok eq_refl eq_refl ltac:(decide_now) eq_refl Hf Hos Hfb
    (tocks_receive 1 _) ltac:(repeat constructor) Hrun Hw2 Hp Hw (tocks_receive 9 _))
    as (ios0 & i & st3 & _ & Hh & Hrx & Hr).
  - rewrite Hpay. cbn. lia.
  - rewrite Hpay in Hrx. eexists _, i, st3. split; [exact Hw|]. split; [exact Hh|].
    split; [exact Hrx|exact Hr].
Defined.
