(* ===== verification/ElfLoader.v ===== *)
(** Loading an ELF executable: [ElfLoader] of
    [device/okboot/src/protocol/v2.rs], module [elf] of
    [device/okboot/src/stub.rs], and the stub that moves the segments,
    [device/okboot/extern/elf.S].

    The parser is the crate [elf], a parameter: what the loader reads of its
    result is the record [elf_file]. *)
From Stdlib Require Import String.
From S2P Require Import Prelude Words Messages Crc Encode Decode Cobs Framing Postcard.
From S2P Require Import TransmitBuf FrameSink Timing Relocation Device Receiver.

Module ElfLoader.

(** [Elf32_Phdr], with the 64-bit fields of [ProgramHeader] before the casts. *)
Record phdr : Type := MkPhdr {
  p_type : Z;
  p_offset : Z;
  p_vaddr : Z;
  p_paddr : Z;
  p_filesz : Z;
  p_memsz : Z;
  p_flags : Z;
  p_align : Z;
}.

(** What [minimal_parse] and [segments] give. *)
Record elf_file : Type := MkElfFile {
  ef_elf32 : bool;
  ef_little : bool;
  ef_osabi : Z;
  ef_type : Z;
  ef_machine : Z;
  ef_version : Z;
  ef_entry : Z;
  ef_segments : option (list phdr);
}.

Class ElfParse := {
  parse_error : Type;
  minimal_parse : list Z -> result elf_file parse_error;
}.

Definition ET_EXEC : Z := 2.
Definition EM_ARM : Z := 40.
Definition PT_LOAD : Z := 1.
Definition PT_NOTE : Z := 4.
Definition PT_TLS : Z := 7.
Definition PT_GNU_STACK : Z := 0x6474e551.

Section with_libraries.
Context `{Crc, Postcard, Render, ElfParse}.

Inductive ElfError : Type :=
  | EParse (e : parse_error)
  | EClass
  | EMachine
  | EType
  | EVersion
  | EEntry
  | EEndianness
  | EOsAbi
  | ENoSegmentTable
  | ETls
  | ESegmentType
  | ESegmentSize.

Inductive LoadError : Type :=
  | LoadCrc
  | LoadElf (e : ElfError).

Inductive Booter : Type :=
  | BRelocation (r : relocation)
  | BElf (program_headers : list phdr) (elf : list Z) (entry : Z).

Record elf_loader : Type := MkElfLoader {
  el_metadata : metadata;
  el_bytes : list Z;
  el_program_headers : list phdr;
}.
Definition elf_loader_new (md : metadata) : elf_loader := MkElfLoader md [] [].

Definition elf_receive_bytes (l : elf_loader) (bs : list Z) : elf_loader :=
  MkElfLoader (el_metadata l) (el_bytes l ++ bs) (el_program_headers l).

(** The fields that are cast to 32 bits. *)
Definition phdr32 (s : phdr) : phdr :=
  MkPhdr (p_type s) (wrap 32 (p_offset s)) (wrap 32 (p_vaddr s)) (wrap 32 (p_paddr s))
    (wrap 32 (p_filesz s)) (wrap 32 (p_memsz s)) (p_flags s) (wrap 32 (p_align s)).

(** The loop over the segment table. *)
Fixpoint elf_segments (segs phs : list phdr) (d : device)
  : run (device * result (list phdr) LoadError) :=
  match segs with
  | [] => Val (d, Ok phs)
  | s :: segs =>
    if p_type s =? PT_TLS then Val (d, Err (LoadElf ETls))
    else if p_type s =? PT_LOAD then
      if negb (p_filesz s =? p_memsz s) && negb (p_filesz s =? 0)
      then Val (d, Err (LoadElf ESegmentSize))
      else elf_segments segs (phs ++ [phdr32 s]) d
    else if p_type s =? PT_GNU_STACK then
      d ← say "[device/v2/elf] ignoring PT_GNU_STACK" [] d;
      elf_segments segs phs d
    else if p_type s =? PT_NOTE then
      d ← say "[device/v2/elf] ignoring PT_NOTE" [] d;
      elf_segments segs phs d
    else Val (d, Err (LoadElf ESegmentType))
  end.

(** The header's checks, in their order. *)
Definition elf_header_error (eb : elf_file) : option ElfError :=
  if negb (ef_elf32 eb) then Some EClass
  else if negb (ef_little eb) then Some EEndianness
  else if negb (ef_osabi eb =? 0) then Some EOsAbi
  else if negb (ef_type eb =? ET_EXEC) then Some EType
  else if negb (ef_machine eb =? EM_ARM) then Some EMachine
  else if negb (ef_version eb =? 1) then Some EVersion
  else if 0x10000000 <=? ef_entry eb then Some EEntry
  else None.

(** [Loader::finalize] *)
Definition elf_finalize (l : elf_loader) (d : device) : run (device * result Booter LoadError) :=
  let calculated_crc := crc32_hash (el_bytes l) in
  if negb (calculated_crc =? deflated_crc (el_metadata l)) then
    d ← say "[device/v2] CRC mismatch: expected {:#010x} calculated {:#010x}"
          [deflated_crc (el_metadata l); calculated_crc] d;
    Val (d, Err LoadCrc)
  else
    match minimal_parse (el_bytes l) with
    | Err e => Val (d, Err (LoadElf (EParse e)))
    | Ok eb =>
      match elf_header_error eb with
      | Some e => Val (d, Err (LoadElf e))
      | None =>
        match ef_segments eb with
        | None => Val (d, Err (LoadElf ENoSegmentTable))
        | Some segs =>
          '(d, r) ← elf_segments segs (el_program_headers l) d;
          Val (d, match r with
                  | Ok phs => Ok (BElf phs (el_bytes l) (ef_entry eb))
                  | Err e => Err e
                  end)
        end
      end
    end.
End with_libraries.

(** ** The stub *)

(** [memset], of [len] zero bytes. *)
Fixpoint fill_fine (fuel : nat) (m : memory) (dst r8 : Z) : option memory :=
  match fuel with
  | O => None
  | S fuel =>
    let m := mem_write m dst (replicate 4 0) in
    let r8 := wrap 32 (r8 - 4) in
    if r8 =? 0 then Some m else fill_fine fuel m (dst + 4) r8
  end.
Fixpoint fill_coarse (k : nat) (m : memory) (dst : Z) : memory * Z :=
  match k with
  | O => (m, dst)
  | S k => fill_coarse k (mem_write m dst (replicate 16 0)) (dst + 16)
  end.
Definition stub_memset (fuel : nat) (m : memory) (dst len : Z) : option memory :=
  let '(m, dst) := fill_coarse (Z.to_nat (len / 16)) m dst in
  let r8 := Z.land len 0xf in
  if r8 =? 0 then Some m else fill_fine fuel m dst r8.

(** [memcpy]: the loops of the flat-binary stub. *)
Definition stub_memcpy (fuel : nat) (m : memory) (dst src len : Z) : option memory :=
  relocation_stub fuel m dst src len.

(** [copy_segments]: what is copied or filled depends on [p_memsz].  The loop
    tests its counter at the end, so an empty table reads past its end. *)
Definition copy_segment (fuel : nat) (m : memory) (elf_base : Z) (ph : phdr) : option memory :=
  if p_memsz ph =? 0 then stub_memset fuel m (p_vaddr ph) (p_memsz ph)
  else stub_memcpy fuel m (p_vaddr ph) (wrap 32 (p_offset ph + elf_base)) (p_memsz ph).
Fixpoint copy_segments (fuel : nat) (m : memory) (elf_base : Z) (phs : list phdr)
  : option memory :=
  match phs with
  | [] => None
  | ph :: phs =>
    m ← copy_segment fuel m elf_base ph;
    match phs with
    | [] => Some m
    | _ => copy_segments fuel m elf_base phs
    end
  end.

(** [stub::elf::final_relocation]: the file is where the allocator put it. *)
Definition elf_final_relocation (fuel : nat) (m : memory) (elf_base : Z) (phs : list phdr)
  (entry : Z) : option (memory * Z) :=
  m ← copy_segments fuel m elf_base phs;
  Some (m, entry).

End ElfLoader.
Export ElfLoader.

(** ** What is accepted *)

Section accepted.
Context `{CrcLaws, PostcardLaws, RenderLaws, ElfParse}.

(** A segment the loader can place. *)
Definition segment_ok (s : phdr) : Prop :=
  p_type s = PT_LOAD /\ (p_filesz s = p_memsz s \/ p_filesz s = 0) \/
  p_type s = PT_GNU_STACK \/ p_type s = PT_NOTE.
Definition loadable (segs : list phdr) : list phdr := filter (fun s => p_type s = PT_LOAD) segs.

(** A header the loader accepts. *)
Record header_ok (eb : elf_file) : Prop := {
  ho_class : ef_elf32 eb = true;
  ho_little : ef_little eb = true;
  ho_osabi : ef_osabi eb = 0;
  ho_type : ef_type eb = ET_EXEC;
  ho_machine : ef_machine eb = EM_ARM;
  ho_version : ef_version eb = 1;
  ho_entry : ef_entry eb < 0x10000000;
}.

Lemma elf_header_error_spec eb : elf_header_error eb = None <-> header_ok eb.
Proof.
  unfold elf_header_error. split.
  - intros He. destruct (ef_elf32 eb) eqn:E1; [|done]. destruct (ef_little eb) eqn:E2; [|done].
    cbn [negb] in He. repeat (case_match; [done|]).
    repeat match goal with Hn : negb _ = false |- _ => apply negb_false_iff, Z.eqb_eq in Hn end.
    split; try done. lia.
  - intros [-> -> -> -> -> -> He]. cbn [negb]. rewrite !Z.eqb_refl. cbn [negb].
    destruct (Z.leb_spec 0x10000000 (ef_entry eb)); [lia|done].
Qed.

Lemma elf_segments_spec segs phs d :
  device_ok d ->
  exists d' r, elf_segments segs phs d = Val (d', r) /\ quiet d d' /\
    match r with
    | Ok phs' => Forall segment_ok segs /\ phs' = phs ++ map phdr32 (loadable segs)
    | Err _ => ~ Forall segment_ok segs
    end.
Proof.
  intros Hd. revert phs d Hd. induction segs as [|s segs IH]; intros phs d Hd; cbn [elf_segments].
  - exists d, (Ok phs). split; [done|]. split; [by apply quiet_refl|]. by rewrite app_nil_r.
  - assert (forall text, exists d', say text [] d = Val d' /\ quiet d d') as Hsay
      by (intros text; by apply say_quiet).
    assert (forall d1 phs1, quiet d d1 -> segment_ok s ->
      phs1 ++ map phdr32 (loadable segs) = phs ++ map phdr32 (loadable (s :: segs)) ->
      exists d' r, elf_segments segs phs1 d1 = Val (d', r) /\ quiet d d' /\
      match r with
      | Ok phs' => Forall segment_ok (s :: segs) /\ phs' = phs ++ map phdr32 (loadable (s :: segs))
      | Err _ => ~ Forall segment_ok (s :: segs)
      end) as Hgo.
    { intros d1 phs1 Hq Hs Hphs. destruct (IH phs1 d1 (qu_ok _ _ Hq)) as (d' & r & -> & Hq' & Hr).
      exists d', r. split; [done|]. split; [by eapply quiet_trans|].
      destruct r; [destruct Hr as [? ->]; split; [by constructor|done]|].
      intros Hall. apply Hr. by inversion Hall. }
    assert (forall e : LoadError, ~ segment_ok s ->
      exists d' r, @Val _ (d, @Err (list phdr) _ e) = Val (d', r) /\ quiet d d' /\
      match r with
      | Ok phs' => Forall segment_ok (s :: segs) /\ phs' = phs ++ map phdr32 (loadable (s :: segs))
      | Err _ => ~ Forall segment_ok (s :: segs)
      end) as Hno.
    { intros e Hs. exists d, (Err e). split; [done|]. split; [by apply quiet_refl|].
      intros Hall. apply Hs. by inversion Hall. }
    unfold loadable in Hgo, Hno |- *. rewrite filter_cons in Hgo, Hno.
    unfold segment_ok at 1 in Hno. unfold segment_ok at 1 in Hgo.
    destruct (Z.eqb_spec (p_type s) PT_TLS) as [Ht|Ht].
    { apply Hno. rewrite Ht. intros [[? _]|[?|?]]; done. }
    destruct (Z.eqb_spec (p_type s) PT_LOAD) as [Hl|Hl].
    { destruct (Z.eqb_spec (p_filesz s) (p_memsz s)), (Z.eqb_spec (p_filesz s) 0); cbn [negb andb].
      4: { apply Hno. rewrite Hl. intros [[_ [?|?]]|[?|?]]; done. }
      all: apply Hgo; [by apply quiet_refl|by auto|]; rewrite decide_True by done;
        cbn [map]; by rewrite <- app_assoc. }
    destruct (Z.eqb_spec (p_type s) PT_GNU_STACK).
    { destruct (Hsay "[device/v2/elf] ignoring PT_GNU_STACK"%string) as (d1 & -> & Hq).
      rewrite run_bind_Val. apply Hgo; [done|by auto|]. by rewrite decide_False. }
    destruct (Z.eqb_spec (p_type s) PT_NOTE).
    { destruct (Hsay "[device/v2/elf] ignoring PT_NOTE"%string) as (d1 & -> & Hq).
      rewrite run_bind_Val. apply Hgo; [done|by auto|]. by rewrite decide_False. }
    apply Hno. intros [[? _]|[?|?]]; done.
Qed.
End accepted.

(** ** What the stub does *)

(** A segment below the heap, which starts at [0x1000_0000], of whole words,
    and whose file image is in the heap. *)
Record placed (elf_base : Z) (ph : phdr) : Prop := {
  pl_vaddr : 0 <= p_vaddr ph;
  pl_memsz : 0 < p_memsz ph;
  pl_words : p_memsz ph mod 4 = 0;
  pl_below : p_vaddr ph + p_memsz ph <= 0x10000000;
  pl_offset : 0 <= p_offset ph;
  pl_heap : 0x10000000 <= elf_base;
  pl_end : elf_base + p_offset ph + p_memsz ph < 2 ^ 32;
}.

(** The byte that a segment puts at [x], if it covers [x]. *)
Definition in_segment (x : Z) (ph : phdr) : Prop := p_vaddr ph <= x < p_vaddr ph + p_memsz ph.
#[export] Instance in_segment_dec x ph : Decision (in_segment x ph).
Proof. unfold in_segment. apply _. Defined.

(** The image of a segment table: the last segment that covers a byte gives it. *)
Definition image (m : memory) (elf_base : Z) (phs : list phdr) (x : Z) : Z :=
  foldl (fun b ph => if decide (in_segment x ph)
    then m (elf_base + p_offset ph + (x - p_vaddr ph)) else b) (m x) phs.

Section stub_image.
Implicit Types (m : memory).

Lemma copy_segment_image m base ph :
  placed base ph -> exists m', copy_segment 3 m base ph = Some m' /\
    (forall x, m' x = image m base [ph] x) /\ (forall x, 0x10000000 <= x -> m' x = m x).
Proof.
  intros [Hv Hm Hw Hb Ho Hh He]. unfold copy_segment, stub_memcpy.
  destruct (Z.eqb_spec (p_memsz ph) 0); [lia|]. rewrite wrap_id by (unfold fits; lia).
  destruct (relocation_stub_copied m (p_vaddr ph) (p_offset ph + base) (p_memsz ph))
    as (m' & -> & Hc); [lia|done|lia|].
  exists m'. split; [done|]. split.
  - intros x. rewrite Hc. cbn [image foldl]. unfold in_segment.
    case_decide as Hx; [rewrite decide_True by done|by rewrite decide_False].
    f_equal. lia.
  - intros x Hx. rewrite Hc, decide_False by lia. done.
Qed.

Lemma image_ext m m' base phs x b b' :
  Forall (placed base) phs -> (forall y, 0x10000000 <= y -> m' y = m y) -> b = b' ->
  foldl (fun b ph => if decide (in_segment x ph)
    then m' (base + p_offset ph + (x - p_vaddr ph)) else b) b phs =
  foldl (fun b ph => if decide (in_segment x ph)
    then m (base + p_offset ph + (x - p_vaddr ph)) else b) b' phs.
Proof.
  intros Hp He ->. revert b'. induction Hp as [|ph phs Hph Hp IH]; intros b'; [done|].
  cbn [foldl]. rewrite IH. f_equal. case_decide as Hx; [|done].
  apply He. destruct Hph, Hx. lia.
Qed.

Lemma copy_segments_spec m base phs :
  phs <> [] -> Forall (placed base) phs ->
  exists m', copy_segments 3 m base phs = Some m' /\ forall x, m' x = image m base phs x.
Proof.
  intros Hne Hp. revert m Hne. induction Hp as [|ph phs Hph Hp IH]; intros m Hne; [done|].
  cbn [copy_segments]. destruct (copy_segment_image m base ph Hph) as (m1 & -> & Him & Hhi).
  cbn [mbind option_bind]. destruct phs as [|ph' phs]; [by eexists|].
  destruct (IH m1) as (m' & -> & Him'); [done|]. exists m'. split; [done|].
  intros x. rewrite Him'. unfold image at 1. rewrite Him. cbn [image foldl].
  by apply (image_ext m m1 base (ph' :: phs)).
Qed.
End stub_image.

(** ** The verdict on a file *)

Lemma elf_finalize_spec `{CrcLaws, PostcardLaws, RenderLaws, ElfParse} (l : elf_loader) d :
  device_ok d ->
  exists d' r, elf_finalize l d = Val (d', r) /\ quiet d d' /\
    forall b, r = Ok b <->
      crc32_hash (el_bytes l) = deflated_crc (el_metadata l) /\
      exists eb segs, minimal_parse (el_bytes l) = Ok eb /\ header_ok eb /\
        ef_segments eb = Some segs /\ Forall segment_ok segs /\
        b = BElf (el_program_headers l ++ map phdr32 (loadable segs)) (el_bytes l) (ef_entry eb).
Proof.
  intros Hd. unfold elf_finalize.
  assert (forall d' (r : result Booter LoadError), quiet d d' -> forall Q,
    (forall b, r = Ok b <-> Q b) ->
    exists d1 r1, Val (d', r) = Val (d1, r1) /\ quiet d d1 /\
      forall b, r1 = Ok b <-> Q b) as Hend by eauto.
  destruct (Z.eqb_spec (crc32_hash (el_bytes l)) (deflated_crc (el_metadata l))) as [Hc|Hc]; cbn [negb].
  2: { destruct (say_quiet "[device/v2] CRC mismatch: expected {:#010x} calculated {:#010x}"
         [deflated_crc (el_metadata l); crc32_hash (el_bytes l)] d Hd) as (d' & -> & Hq).
       rewrite run_bind_Val. apply Hend; [done|]. intros b. split; [done|]. by intros [? _]. }
  pose proof (quiet_refl d Hd) as Hq0.
  destruct (minimal_parse (el_bytes l)) as [eb|e].
  2: { apply Hend; [done|]. intros b. split; [done|]. by intros (_ & ? & ? & ? & _). }
  pose proof (elf_header_error_spec eb) as Hh.
  destruct (elf_header_error eb) as [e|].
  { apply Hend; [done|]. intros b. split; [done|]. intros (_ & eb' & ? & [= <-] & Hok & _).
    by apply Hh in Hok. }
  destruct (ef_segments eb) as [segs|] eqn:Hseg.
  2: { apply Hend; [done|]. intros b. split; [done|].
       intros (_ & eb' & ? & [= <-] & _ & Hs & _). by rewrite Hseg in Hs. }
  destruct (elf_segments_spec segs (el_program_headers l) d Hd) as (d' & r & -> & Hq & Hr). rewrite run_bind_Val.
  apply Hend; [done|]. intros b. destruct r as [phs|e].
  - destruct Hr as [Hall ->]. split.
    + intros [= <-]. split; [done|]. exists eb, segs. split_and!; try done. by apply Hh.
    + intros (_ & eb' & segs' & [= <-] & _ & Hs & _ & ->).
      rewrite Hseg in Hs. by injection Hs as <-.
  - split; [done|]. intros (_ & eb' & segs' & [= <-] & _ & Hs & Hall & _).
    rewrite Hseg in Hs. by injection Hs as <-.
Qed.

(** ** The claims *)

(** An ELF is accepted exactly when the CRC of the received, inflated bytes
    is the announced CRC of the deflated file, and the file is a 32-bit
    little-endian ARM executable with an entry below the heap and no segment
    but loadable ones of equal or absent file size, stack and note segments;
    the segments to copy are the loadable ones, in order. *)
Theorem elf_finalize_verdict `{CrcLaws, PostcardLaws, RenderLaws, ElfParse} md bs d :
  device_ok d ->
  exists d' r, elf_finalize (elf_receive_bytes (elf_loader_new md) bs) d = Val (d', r) /\
    device_ok d' /\ dv_memory d' = dv_memory d /\
    forall b, r = Ok b <->
      crc32_hash bs = deflated_crc md /\
      exists eb segs, minimal_parse bs = Ok eb /\ header_ok eb /\ ef_segments eb = Some segs /\
        Forall segment_ok segs /\ b = BElf (map phdr32 (loadable segs)) bs (ef_entry eb).
Proof.
  intros Hd.
  destruct (elf_finalize_spec (elf_receive_bytes (elf_loader_new md) bs) d Hd)
    as (d' & r & Hr & Hq & Hok).
  exists d', r. split; [exact Hr|]. split; [apply Hq|]. split; [apply Hq|exact Hok].
Qed.


(** A segment without bytes in the file (a BSS, [p_filesz] = 0), which the
    loader accepts, is not cleared: the stub looks at [p_memsz] only and fills
    it with what the file holds at its offset. *)
Theorem bss_not_cleared m elf_base ph entry :
  p_type ph = PT_LOAD -> p_filesz ph = 0 -> placed elf_base ph ->
  segment_ok ph /\
  exists m', elf_final_relocation 3 m elf_base [ph] entry = Some (m', entry) /\
    forall i, 0 <= i < p_memsz ph -> m' (p_vaddr ph + i) = m (elf_base + p_offset ph + i).
Proof.
  intros Ht Hf Hp. split; [left; by auto|].
  unfold elf_final_relocation.
  destruct (copy_segments_spec m elf_base [ph]) as (m' & -> & Him); [done|by constructor|].
  exists m'. split; [done|]. intros i Hi. rewrite Him. unfold image. cbn [foldl].
  rewrite decide_True by (unfold in_segment; lia). f_equal. lia.
Qed.

(** ** Witnesses *)

Module ElfDemo.
(** A parser that takes every file for the same one. *)
Definition demo_segment : phdr := MkPhdr PT_LOAD 4 0x8000 0x8000 8 8 5 4.
Definition demo_file : elf_file :=
  MkElfFile true true 0 ET_EXEC EM_ARM 1 0x8000
    (Some [demo_segment; MkPhdr PT_NOTE 0 0 0 4 4 4 4]).
#[export] Instance demo_parse : ElfParse := {| parse_error := unit; minimal_parse _ := Ok demo_file |}.
End ElfDemo.
Export ElfDemo.

Lemma elf_finalize_verdict_witness :
  exists d' r,
    elf_finalize (elf_receive_bytes
      (elf_loader_new (MkMetadata (crc32_hash [1; 2]) 9 0 2 Elf)) [1; 2]) demo_device = Val (d', r) /\
    r = Ok (BElf [demo_segment] [1; 2] 0x8000).
Proof.
  destruct (elf_finalize_verdict (MkMetadata (crc32_hash [1; 2]) 9 0 2 Elf) [1; 2] demo_device
    demo_device_ok) as (d' & r & Hr & _ & _ & Hok).
  exists d', r. split; [exact Hr|]. apply Hok. split; [reflexivity|].
  exists demo_file, [demo_segment; MkPhdr PT_NOTE 0 0 0 4 4 4 4].
  split; [reflexivity|]. split; [apply elf_header_error_spec; reflexivity|].
  split; [reflexivity|]. split; [|reflexivity].
  repeat apply Forall_cons_2; [left; split; [reflexivity|left; reflexivity]|right; right; reflexivity|].
  apply Forall_nil_2.
Defined.

Lemma demo_placed : placed 0x10000100 demo_segment.
Proof. split; decide_now. Qed.

Definition demo_bss : phdr := MkPhdr PT_LOAD 12 0x9000 0x9000 0 8 6 4.
Lemma bss_not_cleared_witness :
  segment_ok demo_bss /\
  exists m', elf_final_relocation 3 (fun x => x mod 256) 0x10000100 [demo_bss] 0x8000
    = Some (m', 0x8000) /\
    forall i, 0 <= i < 8 -> m' (0x9000 + i) = (0x10000100 + 12 + i) mod 256.
Proof.
  apply (bss_not_cleared (fun x => x mod 256) 0x10000100 demo_bss 0x8000);
    [reflexivity|reflexivity|split; decide_now].
Defined.
