(* ===== verification/V2.v ===== *)
(** Protocol V2, the device side: [device/okboot/src/protocol/v2.rs].

    The inflater is the crate [miniz_oxide], a parameter with the laws its
    documentation states.  [inflate_bound] bounds the number of calls that can
    still produce output; it is the fuel of [recv_chunk]'s loop. *)
From Stdlib Require Import String.
From S2P Require Import Prelude Words Messages Crc Encode Decode Cobs Framing Postcard.
From S2P Require Import TransmitBuf FrameSink Timing Relocation Device Receiver ElfLoader.

(** ** The inflater *)

Inductive MZStatus : Type := MZOk | StreamEnd | NeedDict.
Inductive MZError : Type := ErrNo | Stream | Data | Mem | Buf | Version | Param.

(** [StreamResult], with the bytes written instead of their number. *)
Record stream_result : Type := MkStreamResult {
  bytes_consumed : nat;
  bytes_out : list Z;
  mz_status : result MZStatus MZError;
}.

Class Inflate := {
  inflate_state : Type;
  inflate_new : inflate_state;
  inflate : inflate_state -> list Z -> nat -> inflate_state * stream_result;
  inflate_bound : inflate_state -> list Z -> nat;
}.

(** A call consumes a prefix of its input and fills a prefix of its output;
    [Buf] means that no progress was possible; [NeedDict] is never returned;
    calls that produce output are bounded. *)
Class InflateLaws `{Inflate} : Prop := {
  inflate_consumed st input room :
    (bytes_consumed (inflate st input room).2 <= length input)%nat;
  inflate_room st input room : (length (bytes_out (inflate st input room).2) <= room)%nat;
  inflate_bytes st input room : bytes input -> bytes (bytes_out (inflate st input room).2);
  inflate_buf st input room :
    mz_status (inflate st input room).2 = Err Buf ->
    bytes_consumed (inflate st input room).2 = 0%nat /\ bytes_out (inflate st input room).2 = [];
  inflate_no_dict st input room : mz_status (inflate st input room).2 <> Ok NeedDict;
  inflate_bounded st input room st' r :
    inflate st input room = (st', r) -> mz_status r = Ok MZOk -> bytes_out r <> [] ->
    (inflate_bound st' (drop (bytes_consumed r) input) < inflate_bound st input)%nat;
}.

(** ** The machine below the protocol *)

(** The end of the loader's image ([locate_end]), the code of the relocation
    stub, and where the allocator put the ELF's bytes. *)
Class Machine := {
  self_end : Z;
  stub_code : list Z;
  elf_address : list Z -> Z;
}.

Module V2.
Section with_libraries.
Context `{Crc, Postcard, Render, ElfParse, Inflate, Machine}.

(** ** Loaders and booters *)

Inductive LoaderEnum : Type :=
  | BinLoader (l : bin_loader)
  | ElfLoader (l : elf_loader).

Definition receive_bytes (l : LoaderEnum) (d : device) (bs : list Z)
  : LoaderEnum * device * result unit LoadError :=
  match l with
  | BinLoader l =>
    let '(l, m) := bin_receive_bytes l (dv_memory d) bs in
    (BinLoader l, set_memory m d, Ok tt)
  | ElfLoader l => (ElfLoader (elf_receive_bytes l bs), d, Ok tt)
  end.

(** [BinLoader::finalize], with its prints. *)
Definition bin_loader_finalize (l : bin_loader) (d : device)
  : run (device * result Booter LoadError) :=
  d ← say "[device/v2] booter={self:?}" [] d;
  match verify_integrity (bl_relocation l) (dv_memory d) (inflated_crc (bl_metadata l))
          (inflated_len (bl_metadata l)) with
  | IntegrityOk =>
    d ← say "[device/v2] CRCs okay, running relocation stub" [] d;
    d ← flush_to_fifo d;
    Val (d, Ok (BRelocation (bl_relocation l)))
  | CrcMismatch expected calculated =>
    d ← say "[device/v2] CRC mismatch: expected {:#010x} calculated {:#010x}"
          [expected; calculated] d;
    d ← flush_to_fifo d;
    Val (d, Err LoadCrc)
  end.

Definition loader_finalize (l : LoaderEnum) (d : device) : run (device * result Booter LoadError) :=
  match l with
  | BinLoader l => bin_loader_finalize l d
  | ElfLoader l => elf_finalize l d
  end.

(** The loops of both stubs end within three rounds of four bytes or not at
    all ([relocation_stub_words]). *)
Definition stub_fuel : nat := 3.
Definition booter_enter {P} (b : Booter) (d : device) : ProtocolStatus P :=
  let entered := match b with
    | BRelocation r => final_relocation stub_fuel r stub_code (dv_memory d)
    | BElf phs elf entry =>
      elf_final_relocation stub_fuel (mem_write (dv_memory d) (elf_address elf) elf)
        (elf_address elf) phs entry
    end in
  match entered with
  | Some (m, entry) => Entered m entry
  | None => Unfinished
  end.

(** ** The state *)

Inductive v2_state : Type :=
  | RequestMetadata
  | AckMetadata (md : metadata)
  | RequestChunk (which count : Z) (loader : LoaderEnum)
  | Boot (booter : Booter).

Record v2 : Type := MkV2 {
  v2_st : v2_state;
  v2_once : bool;
  v2_retry_buffer : bool;
  v2_heartbeat : Z;
  v2_baud : Z;
  v2_timeouts : v1_timeouts;
  v2_inflate_state : inflate_state;
  v2_remainder : nat;
}.
Definition set_st (s : v2_state) (v : v2) : v2 :=
  MkV2 s (v2_once v) (v2_retry_buffer v) (v2_heartbeat v) (v2_baud v) (v2_timeouts v)
    (v2_inflate_state v) (v2_remainder v).
Definition set_once (b : bool) (v : v2) : v2 :=
  MkV2 (v2_st v) b (v2_retry_buffer v) (v2_heartbeat v) (v2_baud v) (v2_timeouts v)
    (v2_inflate_state v) (v2_remainder v).
Definition set_retry (b : bool) (v : v2) : v2 :=
  MkV2 (v2_st v) (v2_once v) b (v2_heartbeat v) (v2_baud v) (v2_timeouts v)
    (v2_inflate_state v) (v2_remainder v).
Definition set_heartbeat (t : Z) (v : v2) : v2 :=
  MkV2 (v2_st v) (v2_once v) (v2_retry_buffer v) t (v2_baud v) (v2_timeouts v)
    (v2_inflate_state v) (v2_remainder v).
Definition set_inflate (st : inflate_state) (rem : nat) (v : v2) : v2 :=
  MkV2 (v2_st v) (v2_once v) (v2_retry_buffer v) (v2_heartbeat v) (v2_baud v) (v2_timeouts v)
    st rem.

(** [V2::new] *)
Definition v2_new (now baud : Z) : run v2 :=
  t ← v1_timeouts_new_8n1 baud;
  Val (MkV2 RequestMetadata true false now baud t inflate_new 0).

(** ** Receiving *)

Definition with_override (t : Z) (ts : timeouts) : timeouts :=
  MkTimeouts (error_recovery ts) (byte_read ts) (session_expires ts) (Some t).

(** Whether the metadata is acceptable, and what is said about it. *)
Definition check_metadata (md : metadata) (d : device) : run (device * bool) :=
  match format_details md with
  | Bin load_address =>
    if 0x10000000 <=? load_address then
      d ← say "[device/v2] BIN file load address too high (must be below 0x1000_0000)" [] d;
      Val (d, false)
    else if negb (Z.land load_address 3 =? 0) then
      d ← say "[device/v2] BIN file load address must be 4-byte aligned" [] d;
      Val (d, false)
    else Val (d, true)
  | Elf =>
    d ← say "[device/v2] Loading ELF file" [] d;
    Val (d, true)
  end.

Definition recv_metadata (msg : metadata) (v : v2) (d : device) : run (v2 * device) :=
  match v2_st v with
  | RequestMetadata =>
    '(d, ok) ← check_metadata msg d;
    if ok : bool then
      t ← at_baud_8n1 TRY_RESEND_CHUNK (v2_baud v);
      Val (set_once true (set_st (AckMetadata msg) v),
           set_timeouts (with_override (t * 2) (dv_timeouts d)) d)
    else Val (v, d)
  | _ =>
    d ← say "[device/v2] received unexpected V2/Metadata in state: {:?}, ignoring." [] d;
    Val (v, d)
  end.

(** The chunk count, in 32-bit [usize] arithmetic. *)
Definition chunk_count (md : metadata) : Z :=
  wrap 32 (deflated_len md + CHUNK_SIZE - 1) / CHUNK_SIZE.

Definition new_loader (md : metadata) : run LoaderEnum :=
  match format_details md with
  | Bin load_address =>
    a ← unwrap (if decide (u32 load_address) then Some load_address else None);
    Val (BinLoader (bin_loader_new self_end a md))
  | Elf => Val (ElfLoader (elf_loader_new md))
  end.

Definition recv_metadata_ack_ack (is_ok : bool) (v : v2) (d : device) : run (v2 * device) :=
  match v2_st v with
  | AckMetadata md =>
    if is_ok then
      loader ← new_loader md;
      Val (set_once true (set_st (RequestChunk 0 (chunk_count md) loader) v), d)
    else
      d ← say "[device/v2] received V2/MetadataAckAck(ok=false), requesting metadata again" [] d;
      Val (set_st RequestMetadata v, d)
  | _ =>
    d ← say "[device/v2] received V2/MetadataAckAck in state: {:?}, ignoring." [] d;
    Val (v, d)
  end.

(** How the loop of [recv_chunk] ends. *)
Inductive inflate_end : Type := InflateBreak | InflateReturnFalse | InflateOutOfFuel.

Definition INPUT_SIZE : nat := Z.to_nat 0x2000.

(** One round of the loop: the first [remainder] bytes of the inflate buffer
    are the input, everything from 0x2000 on is the output.  [None] goes round
    again. *)
Definition inflate_step (st : inflate_state) (rem : nat) (l : LoaderEnum) (d : device)
  : run (inflate_state * nat * LoaderEnum * device * option inflate_end) :=
  let a := take INPUT_SIZE (dv_inflate_buffer d) in
  let b := drop INPUT_SIZE (dv_inflate_buffer d) in
  input ← slice_range a 0 rem;
  let '(st, r) := inflate st input (length b) in
  let out := bytes_out r in
  let d := set_inflate_buffer (a ++ out ++ drop (length out) b) d in
  let load rem d (go_on : option inflate_end) :=
    let '(l, d, e) := receive_bytes l d out in
    match e with
    | Ok _ => Val (st, rem, l, d, go_on)
    | Err _ =>
      d ← say "[device/v2] unrecoverable load error: {}" [] d;
      Val (st, rem, l, d, Some InflateReturnFalse)
    end in
  match mz_status r with
  | Ok MZOk =>
    rest ← slice_range a (bytes_consumed r) rem;
    let a := rest ++ drop (length rest) a in
    let d := set_inflate_buffer (a ++ out ++ drop (length out) b) d in
    let rem := (rem - bytes_consumed r)%nat in
    if decide (out = []) then Val (st, rem, l, d, Some InflateBreak) else load rem d None
  | Ok StreamEnd => load (rem - bytes_consumed r)%nat d (Some InflateBreak)
  | Ok NeedDict => Panic
  | Err Buf =>
    _ ← rust_assert (bool_decide (bytes_consumed r = 0%nat));
    _ ← rust_assert (bool_decide (out = []));
    Val (st, rem, l, d, Some InflateBreak)
  | Err Data =>
    d ← say "[device/v2] MZError::Data probably indicates data corruption" [] d;
    Val (st, rem, l, d, Some InflateReturnFalse)
  | Err _ =>
    d ← say "[device/v2] unexpected error while inflating: {:?}" [] d;
    Val (st, rem, l, d, Some InflateReturnFalse)
  end.

Fixpoint inflate_loop (fuel : nat) (st : inflate_state) (rem : nat) (l : LoaderEnum) (d : device)
  : run (inflate_state * nat * LoaderEnum * device * inflate_end) :=
  match fuel with
  | O => Val (st, rem, l, d, InflateOutOfFuel)
  | S fuel =>
    '(st, rem, l, d, e) ← inflate_step st rem l d;
    match e with
    | None => inflate_loop fuel st rem l d
    | Some e => Val (st, rem, l, d, e)
    end
  end.

(** How a handler of a chunk ends: [true], [false], or never. *)
Inductive chunk_end : Type := ChunkTrue | ChunkFalse | ChunkHangs.

(** The loader is done: a booter, or everything starts over. *)
Definition finish_chunks (l : LoaderEnum) (v : v2) (d : device) : run (v2 * device * chunk_end) :=
  let v := set_st RequestMetadata v in
  '(d, r) ← loader_finalize l d;
  match r with
  | Ok booter => Val (set_st (Boot booter) v, d, ChunkTrue)
  | Err _ =>
    d ← say "[device/v2] can't finalize, retrying: {e}" [] d;
    Val (v, d, ChunkFalse)
  end.

(** A chunk that is the one asked for. *)
Definition accept_chunk (chunk : list Z) (which count : Z) (l : LoaderEnum) (v : v2) (d : device)
  : run (v2 * device * chunk_end) :=
  let a := take INPUT_SIZE (dv_inflate_buffer d) in
  let b := drop INPUT_SIZE (dv_inflate_buffer d) in
  let new_end := (length chunk + v2_remainder v)%nat in
  _ ← rust_assert (bool_decide (new_end <= length a)%nat);
  a ← slice_copy a (v2_remainder v) new_end chunk;
  let d := set_inflate_buffer (a ++ b) d in
  input ← slice_range a 0 new_end;
  '(st, rem, l, d, e) ←
    inflate_loop (S (inflate_bound (v2_inflate_state v) input)) (v2_inflate_state v) new_end l d;
  let v := set_inflate st rem v in
  match e with
  | InflateOutOfFuel => Val (v, d, ChunkHangs)
  | InflateReturnFalse => Val (set_st (RequestChunk which count l) v, d, ChunkFalse)
  | InflateBreak =>
    let which := wrap 32 (which + 1) in
    let v := set_once true (set_st (RequestChunk which count l) v) in
    if which =? count then
      d ← say "[device/v2] processed last chunk" [] d;
      finish_chunks l v d
    else Val (v, d, ChunkTrue)
  end.

Definition recv_chunk (msg_which : Z) (chunk : list Z) (v : v2) (d : device)
  : run (v2 * device * chunk_end) :=
  match v2_st v with
  | RequestChunk which count l =>
    if which =? msg_which then accept_chunk chunk which count l v d
    else
      d ← say "[device/v2] wrong chunk, expected {} got {}" [which; msg_which] d;
      Val (set_once true v, d, ChunkTrue)
  | _ =>
    d ← say "[device/v2] received unexpected V2/Chunk(which={}) in state: {:?}, ignoring."
          [msg_which] d;
    Val (v, d, ChunkTrue)
  end.

Definition recv_booting_ack {P} (v : v2) (d : device) : run (v2 * device * ProtocolStatus P) :=
  match v2_st v with
  | Boot booter =>
    d ← say "[device/v2] received V2/BootingAck, booting" [] d;
    Val (set_st RequestMetadata v, d, booter_enter booter d)
  | _ =>
    d ← say "[device/v2] received unexpected V2/BootingAck in state {:?}, ignoring." [] d;
    Val (v, d, Continue)
  end.

(** ** Sending *)

(** The result of [frame_sink.send]: [Some true] when it went out, [Some false]
    when the ring was full, [None] after any other error. *)
Definition send_report (msg : message) (text : string) (d : device) : run (device * option bool) :=
  '(d, r) ← dev_send msg d;
  match r with
  | Ok _ => Val (d, Some true)
  | Err Truncated => Val (d, Some false)
  | Err _ =>
    d ← say text [] d;
    Val (d, None)
  end.
Definition send_metadata_request (d : device) : run (device * option bool) :=
  send_report MMetadataReq "[device/v2] failed to send V2/MetadataReq: {}" d.
Definition send_metadata_ack (md : metadata) (d : device) : run (device * option bool) :=
  send_report (MMetadataAck CHUNK_SIZE md) "[device/v2] failed to send V2/MetadataAck: {}" d.
Definition send_chunk_request (which : Z) (d : device) : run (device * option bool) :=
  send_report (MChunkReq (wrap 32 which)) "[device/v2] failed to send V2/ChunkReq: {}" d.
Definition send_boot_msg (d : device) : run (device * option bool) :=
  send_report MBooting "[device/v2] failed to send V2/Booting: {}" d.

(** ** The handlers *)

Definition is_request_chunk (s : v2_state) : bool :=
  match s with RequestChunk _ _ _ => true | _ => false end.

Definition should_send (i : io) (v : v2) : bool :=
  let elapsed := instant_elapsed (v2_heartbeat v) (io_clock i clk_heartbeat_elapsed) in
  v2_once v
  || ((if is_request_chunk (v2_st v) then try_resend_chunk (v2_timeouts v)
       else try_resend (v2_timeouts v)) <? elapsed)
  || (v2_retry_buffer v && (buffer_retry (v2_timeouts v) <? elapsed)).

(** The message of a state. *)
Definition send_state (v : v2) (d : device) : run (device * option bool) :=
  match v2_st v with
  | RequestMetadata => send_metadata_request d
  | AckMetadata md => send_metadata_ack md d
  | RequestChunk which _ _ => send_chunk_request which d
  | Boot _ => send_boot_msg d
  end.

Definition v2_beat {P} (i : io) (v : v2) (d : device) : run (v2 * device * ProtocolStatus P) :=
  let send := should_send i v in
  let v := set_once false v in
  if send then
    '(d, r) ← send_state v d;
    match r with
    | Some sent =>
      Val (set_heartbeat (io_clock i clk_heartbeat_now) (set_retry (negb sent) v), d, Continue)
    | None => Val (v, d, Abend)
    end
  else Val (v, d, Continue).

(** A message that does not parse is reported and dropped. *)
Definition v2_handle_packet {P} (h : FrameHeader) (payload : list Z) (v : v2) (d : device)
  : run (v2 * device * ProtocolStatus P) :=
  let failed text := d ← say text [] d; Val (v, d, Continue) in
  match message_type h with
  | Metadata =>
    d ← say "[device/v2] V2Timeouts={:?}" [] d;
    match from_bytes Metadata payload with
    | Ok (MMetadata msg) => '(v, d) ← recv_metadata msg v d; Val (v, d, Continue)
    | _ =>
      d ← say "[device/v2] failed to parse payload (V2/Metadata): {:?}" [] d;
      Val (v, d, Continue)
    end
  | MetadataAckAck =>
    match from_bytes MetadataAckAck payload with
    | Ok (MMetadataAckAck is_ok) =>
      '(v, d) ← recv_metadata_ack_ack is_ok v d; Val (v, d, Continue)
    | _ => failed "[device/v2] failed to parse payload (V2/MetadataAckAck): {:?}"%string
    end
  | Chunk =>
    match from_bytes Chunk payload with
    | Ok (MChunk which chunk) =>
      '(v, d, e) ← recv_chunk which chunk v d;
      Val (v, d, match e with
                 | ChunkTrue => Continue
                 | ChunkFalse => Abend
                 | ChunkHangs => Unfinished
                 end)
    | _ => failed "[device/v2] failed to parse payload (V2/Chunk): {:?}"%string
    end
  | BootingAck => recv_booting_ack v d
  | _ =>
    d ← say "[device/v2] unrecognized message type: {:?}, ignoring" [] d;
    Val (v, d, Continue)
  end.
End with_libraries.
End V2.
Export V2.

(** ** The handlers never panic on what they accept *)

Section v2_safety.
Context `{CrcLaws, PostcardLaws, RenderLaws, ElfParse, InflateLaws, Machine}.
Implicit Types (v : v2) (d : device) (l : LoaderEnum).

(** A binary that may be loaded: below the heap and word-aligned. *)
Definition load_ok (md : metadata) : Prop :=
  metadata_ok md /\
  match format_details md with
  | Bin a => a < 0x10000000 /\ Z.land a 3 = 0
  | Elf => True
  end.

Record v2_ok v : Prop := {
  vo_state : match v2_st v with AckMetadata md => load_ok md | _ => True end;
  vo_baud : 10 <= v2_baud v;
  vo_remainder : (v2_remainder v <= INPUT_SIZE)%nat;
}.

(** What a V2 session accepts: a chunk that it asked for fits its input buffer. *)
Definition v2_accepts v (h : FrameHeader) (payload : list Z) : Prop :=
  forall which count l chunk, v2_st v = RequestChunk which count l -> message_type h = Chunk ->
    from_bytes Chunk payload = Ok (MChunk which chunk) ->
    (length chunk + v2_remainder v <= INPUT_SIZE)%nat.

Lemma at_baud_total n baud : 10 <= baud -> exists t, at_baud_8n1 n baud = Val t.
Proof.
  intros Hb. unfold at_baud_8n1. destruct (Z.eqb_spec (baud / 10) 0) as [Hz|Hz]; [|by eexists].
  Z.to_euclidean_division_equations; lia.
Qed.

(** A device that only differs from another one in its sink, UART, memory and
    inflate buffer. *)
Definition fine_with d d' : Prop := device_ok d' /\ dv_timeouts d' = dv_timeouts d.
Lemma quiet_fine d d' : quiet d d' -> fine_with d d'.
Proof. intros Hq. split; apply Hq. Qed.
Lemma fine_trans d1 d2 d3 : fine_with d1 d2 -> fine_with d2 d3 -> fine_with d1 d3.
Proof. intros [? E1] [? E2]. split; [done|congruence]. Qed.
Lemma fine_refl d : device_ok d -> fine_with d d.
Proof. done. Qed.

Lemma set_memory_ok m d : device_ok d -> device_ok (set_memory m d).
Proof. intros []. by split. Qed.
Lemma set_inflate_ok b d :
  device_ok d -> length b = length (dv_inflate_buffer d) -> device_ok (set_inflate_buffer b d).
Proof. intros [? ? ? Hi] Hl. split; try done. cbn. by rewrite Hl. Qed.

(** What a loader does with a piece, on the memory alone, and with a sequence. *)
Definition loader_feed l (m : memory) (bs : list Z) : LoaderEnum * memory :=
  match l with
  | BinLoader l => let '(l, m) := bin_receive_bytes l m bs in (BinLoader l, m)
  | ElfLoader l => (ElfLoader (elf_receive_bytes l bs), m)
  end.
Definition loader_feed_all l (m : memory) (pieces : list (list Z)) : LoaderEnum * memory :=
  foldl (fun lm bs => loader_feed lm.1 lm.2 bs) (l, m) pieces.

Lemma receive_bytes_feed l d bs :
  receive_bytes l d bs =
    ((loader_feed l (dv_memory d) bs).1, set_memory (loader_feed l (dv_memory d) bs).2 d, Ok tt).
Proof.
  unfold receive_bytes, loader_feed. destruct l as [b|e].
  - by destruct (bin_receive_bytes b (dv_memory d) bs).
  - by destruct d.
Qed.

(** One call of the inflater, on the device's buffer. *)
Definition input_of (rem : nat) d : list Z := take rem (dv_inflate_buffer d).
Definition room_of d : nat := length (drop INPUT_SIZE (dv_inflate_buffer d)).

Lemma input_slice rem d :
  (rem <= INPUT_SIZE)%nat -> device_ok d ->
  slice_range (take INPUT_SIZE (dv_inflate_buffer d)) 0 rem = Val (input_of rem d) /\
  length (input_of rem d) = rem.
Proof.
  intros Hr [_ _ _ Hi]. unfold INPUT_SIZE, input_of in *.
  assert (rem <= length (dv_inflate_buffer d))%nat by lia.
  split; [|rewrite length_take; lia].
  rewrite slice_range_Val by (rewrite ?length_take; lia). f_equal.
  rewrite Nat.sub_0_r, drop_0, take_take. f_equal. lia.
Qed.

(** The input of the next round, when the rest is moved to the front. *)
Lemma next_input rem k d a' b' :
  (k <= rem)%nat -> (rem <= INPUT_SIZE)%nat -> device_ok d ->
  a' = drop k (input_of rem d) ->
  take (rem - k) ((a' ++ drop (length a') (take INPUT_SIZE (dv_inflate_buffer d))) ++ b') =
  drop k (input_of rem d).
Proof.
  intros Hk Hrem Hd ->. rewrite <- app_assoc, take_app_length'; [done|].
  destruct (input_slice rem d Hrem Hd) as [_ Hl]. rewrite length_drop. lia.
Qed.

(** The outcome of a round, by the status of the call. *)
Definition step_post st rem l d st' rem' l' d' (e : option inflate_end) r : Prop :=
  inflate st (input_of rem d) (room_of d) = (st', r) /\ fine_with d d' /\
  match mz_status r with
  | Ok MZOk =>
    rem' = (rem - bytes_consumed r)%nat /\
    input_of rem' d' = drop (bytes_consumed r) (input_of rem d) /\
    if decide (bytes_out r = [])
    then e = Some InflateBreak /\ l' = l /\ dv_memory d' = dv_memory d
    else e = None /\ loader_feed l (dv_memory d) (bytes_out r) = (l', dv_memory d')
  | Ok StreamEnd =>
    rem' = (rem - bytes_consumed r)%nat /\ e = Some InflateBreak /\
    loader_feed l (dv_memory d) (bytes_out r) = (l', dv_memory d')
  | Ok NeedDict => False
  | Err Buf =>
    rem' = rem /\ bytes_out r = [] /\ bytes_consumed r = 0%nat /\ e = Some InflateBreak /\
    l' = l /\ dv_memory d' = dv_memory d
  | Err _ => rem' = rem /\ e = Some InflateReturnFalse
  end.

Lemma written_length d (out : list Z) :
  (length out <= room_of d)%nat ->
  length (out ++ drop (length out) (drop INPUT_SIZE (dv_inflate_buffer d))) = room_of d.
Proof. unfold room_of. intros. rewrite length_app, length_drop. lia. Qed.

Lemma buffer_split d :
  device_ok d -> length (take INPUT_SIZE (dv_inflate_buffer d)) = INPUT_SIZE /\
    (INPUT_SIZE + room_of d)%nat = length (dv_inflate_buffer d).
Proof.
  intros [_ _ _ Hi]. unfold room_of, INPUT_SIZE in *. rewrite length_take, length_drop. lia.
Qed.

Lemma inflate_step_spec st rem l d :
  device_ok d -> (rem <= INPUT_SIZE)%nat ->
  exists st' rem' l' d' e r, inflate_step st rem l d = Val (st', rem', l', d', e) /\
    step_post st rem l d st' rem' l' d' e r.
Proof.
  intros Hd Hrem. unfold inflate_step, step_post.
  destruct (input_slice rem d Hrem Hd) as [-> Hlen]. rewrite run_bind_Val.
  pose proof (inflate_consumed st (input_of rem d) (room_of d)) as Hcons.
  pose proof (inflate_room st (input_of rem d) (room_of d)) as Hroom.
  pose proof (inflate_buf st (input_of rem d) (room_of d)) as Hbuf.
  pose proof (inflate_no_dict st (input_of rem d) (room_of d)) as Hdict.
  fold (room_of d). destruct (inflate st (input_of rem d) (room_of d)) as [st' r].
  cbn [snd] in *. pose proof (written_length d _ Hroom) as Hw.
  destruct (buffer_split d Hd) as [Ha Hab].
  set (b := bytes_out r ++ _) in *. set (a := take INPUT_SIZE _) in *.
  assert (forall a', length a' = INPUT_SIZE -> device_ok (set_inflate_buffer (a' ++ b) d)) as Hset.
  { intros a' Ha'. apply set_inflate_ok; [done|]. rewrite length_app. lia. }
  assert (forall text, exists d2, say text [] (set_inflate_buffer (a ++ b) d) = Val d2 /\
    fine_with d d2) as Hsay.
  { intros text. destruct (say_quiet text [] (set_inflate_buffer (a ++ b) d)) as (d2 & -> & Hq);
      [by apply Hset|]. exists d2. split; [done|]. split; apply Hq. }
  destruct (mz_status r) as [[| |]|e] eqn:Hstat; try done.
  - rewrite slice_range_Val by lia. rewrite run_bind_Val. cbv zeta.
    assert (drop (bytes_consumed r) (input_of rem d) =
      take (rem - bytes_consumed r) (drop (bytes_consumed r) a)) as Hin.
    { unfold input_of, a. rewrite !skipn_firstn_comm, take_take. f_equal. lia. }
    set (a' := _ ++ drop _ a). assert (length a' = INPUT_SIZE) as Ha'.
    { unfold a'. rewrite length_app, length_drop, length_take, length_drop. lia. }
    case_decide as Hout; [|rewrite receive_bytes_feed];
      eexists _, _, _, _, _, r; rewrite Hstat; (split; [done|]); (split; [done|]);
      (split; [split; [first [apply Hset|apply set_memory_ok, Hset]; exact Ha'|done]|]);
      (split; [done|]);
      (split; [apply next_input; [lia|done|done|by symmetry]|]).
    + by rewrite decide_True.
    + rewrite decide_False by done. split; [done|]. by destruct (loader_feed _ _ _).
  - rewrite receive_bytes_feed. eexists _, _, _, _, _, r. rewrite Hstat. split; [done|].
    split; [done|]. split; [by split; [apply set_memory_ok, Hset|]|].
    split; [done|]. split; [done|]. by destruct (loader_feed _ _ _).
  - destruct e.
    5: { destruct (Hbuf eq_refl) as [Hc Ho]. rewrite !bool_decide_true by done. cbn [rust_assert].
      rewrite !run_bind_Val. eexists _, _, _, _, _, r. rewrite Hstat. split; [done|].
      split; [done|]. by split; [split; [apply Hset|]|]. }
    all: edestruct Hsay as (d2 & -> & Hf); rewrite run_bind_Val;
      eexists _, _, _, _, _, r; rewrite Hstat; by split_and!.
Qed.

Lemma inflate_loop_total fuel st rem l d :
  device_ok d -> (rem <= INPUT_SIZE)%nat ->
  exists st' rem' l' d' e, inflate_loop fuel st rem l d = Val (st', rem', l', d', e) /\
    fine_with d d' /\ (rem' <= rem)%nat /\
    ((inflate_bound st (input_of rem d) < fuel)%nat -> e <> InflateOutOfFuel).
Proof.
  revert st rem l d. induction fuel as [|fuel IH]; intros st rem l d Hd Hrem.
  { exists st, rem, l, d, InflateOutOfFuel. split_and!; [done|by apply fine_refl|done|lia]. }
  cbn [inflate_loop].
  destruct (inflate_step_spec st rem l d Hd Hrem) as (st1 & rem1 & l1 & d1 & e & r & -> & Hi & Hf & Hr).
  rewrite run_bind_Val.
  pose proof (inflate_bounded _ _ _ _ _ Hi) as Hbound.
  assert ((rem1 <= rem)%nat /\ match e with Some InflateOutOfFuel => False | Some _ => True
    | None => mz_status r = Ok MZOk /\ bytes_out r <> [] /\
              input_of rem1 d1 = drop (bytes_consumed r) (input_of rem d) end) as [Hrem1 He].
  { destruct (mz_status r) as [[| |]|[]]; try done; try (destruct Hr as [-> ->]; done);
      try case_decide; destruct_and?; subst; done || (split; [lia|done]). }
  destruct e as [e|].
  - exists st1, rem1, l1, d1, e. split_and!; try done. by destruct e.
  - destruct He as (Hs & Ho & Hin). specialize (Hbound Hs Ho). rewrite <- Hin in Hbound.
    destruct (IH st1 rem1 l1 d1) as (st2 & rem2 & l2 & d2 & e & -> & Hf2 & Hr2 & He); [apply Hf|lia|].
    exists st2, rem2, l2, d2, e. split; [done|]. split; [by eapply fine_trans|].
    split; [lia|]. intros. apply He. lia.
Qed.
Lemma bin_loader_finalize_spec (bl : bin_loader) d :
  device_ok d -> exists d' r, bin_loader_finalize bl d = Val (d', r) /\ quiet d d' /\
    r = match bin_finalize bl (dv_memory d) with Some b => Ok (BRelocation b) | None => Err LoadCrc end.
Proof.
  intros Hd. unfold bin_loader_finalize, bin_finalize.
  destruct (say_quiet "[device/v2] booter={self:?}" [] d Hd) as (d1 & -> & Q1).
  rewrite run_bind_Val, (qu_memory _ _ Q1).
  assert (forall text args (r : result Booter LoadError), exists d' r',
    (d ← say text args d1; d ← flush_to_fifo d; Val (d, r)) = Val (d', r') /\ quiet d d' /\ r' = r)
    as Hend.
  { intros text args r. destruct (say_quiet text args d1 (qu_ok _ _ Q1)) as (d2 & -> & Q2).
    rewrite run_bind_Val. destruct (flush_to_fifo_quiet d2 (qu_ok _ _ Q2)) as (d3 & -> & Q3).
    rewrite run_bind_Val. exists d3, r. split; [done|]. split; [|done].
    eauto using quiet_trans. }
  destruct (verify_integrity _ _ _ _); apply Hend.
Qed.

(** What finalizing decides: a function of the loader and the memory. *)
Definition loader_verdict l (m : memory) (r : result Booter LoadError) : Prop :=
  match l with
  | BinLoader l =>
    r = match bin_finalize l m with Some b => Ok (BRelocation b) | None => Err LoadCrc end
  | ElfLoader l => forall b, r = Ok b <->
      crc32_hash (el_bytes l) = deflated_crc (el_metadata l) /\
      exists eb segs, minimal_parse (el_bytes l) = Ok eb /\ header_ok eb /\
        ef_segments eb = Some segs /\ Forall segment_ok segs /\
        b = BElf (el_program_headers l ++ map phdr32 (loadable segs)) (el_bytes l) (ef_entry eb)
  end.

Lemma loader_finalize_spec l d :
  device_ok d -> exists d' r, loader_finalize l d = Val (d', r) /\ quiet d d' /\
    loader_verdict l (dv_memory d) r.
Proof.
  intros Hd. destruct l as [l|l]; [by apply bin_loader_finalize_spec|by apply elf_finalize_spec].
Qed.

(** What the last chunk leads to. *)
Definition finished l (m : memory) v' (e : chunk_end) : Prop :=
  exists r, loader_verdict l m r /\
    match r with
    | Ok b => v2_st v' = Boot b /\ e = ChunkTrue
    | Err _ => v2_st v' = RequestMetadata /\ e = ChunkFalse
    end.

Lemma finish_chunks_spec l v d :
  device_ok d -> exists v' d' e, finish_chunks l v d = Val (v', d', e) /\ quiet d d' /\
    (exists s, v' = set_st s v) /\ finished l (dv_memory d) v' e.
Proof.
  intros Hd. unfold finish_chunks.
  destruct (loader_finalize_spec l d Hd) as (d1 & r & -> & Q1 & Hr). rewrite run_bind_Val.
  destruct r as [b|e].
  - eexists _, _, _. split; [done|]. split; [done|]. split; [by eexists|]. by exists (Ok b).
  - destruct (say_quiet "[device/v2] can't finalize, retrying: {e}" [] d1 (qu_ok _ _ Q1))
      as (d2 & -> & Q2).
    rewrite run_bind_Val. eexists _, _, _. split; [done|].
    split; [by eapply quiet_trans|]. split; [by eexists|]. by exists (Err e).
Qed.

(** The session's fields that no handler touches, and what every handler keeps. *)
Record kept v v' : Prop := {
  kp_baud : v2_baud v' = v2_baud v;
  kp_remainder : (v2_remainder v' <= INPUT_SIZE)%nat;
}.

(** The chunk, put behind what is left of the input. *)
Definition with_chunk (chunk : list Z) v d : device :=
  let a := take INPUT_SIZE (dv_inflate_buffer d) in
  set_inflate_buffer ((take (v2_remainder v) a ++ chunk ++
    drop (length chunk + v2_remainder v) a) ++ drop INPUT_SIZE (dv_inflate_buffer d)) d.

Lemma with_chunk_ok chunk v d :
  device_ok d -> (length chunk + v2_remainder v <= INPUT_SIZE)%nat ->
  device_ok (with_chunk chunk v d) /\
  input_of (length chunk + v2_remainder v) (with_chunk chunk v d) =
    input_of (v2_remainder v) d ++ chunk.
Proof.
  intros Hd Hl. destruct (buffer_split d Hd) as [Ha Hr]. unfold with_chunk, input_of. split.
  - apply set_inflate_ok; [done|]. rewrite !length_app, length_take, !length_drop. lia.
  - cbn [dv_inflate_buffer set_inflate_buffer]. rewrite take_take, <- !app_assoc.
    replace (v2_remainder v `min` INPUT_SIZE)%nat with (v2_remainder v) by lia.
    rewrite app_assoc, take_app_length'; [done|]. rewrite length_app, length_take. lia.
Qed.

(** The start of [accept_chunk]: the chunk is copied, then the loop runs. *)
Lemma accept_chunk_start chunk which count l v d :
  device_ok d -> (length chunk + v2_remainder v <= INPUT_SIZE)%nat ->
  accept_chunk chunk which count l v d =
    ('(st, rem, l, d, e) ←
       inflate_loop (S (inflate_bound (v2_inflate_state v) (input_of (v2_remainder v) d ++ chunk)))
         (v2_inflate_state v) (length chunk + v2_remainder v) l (with_chunk chunk v d);
     let v := set_inflate st rem v in
     match e with
     | InflateOutOfFuel => Val (v, d, ChunkHangs)
     | InflateReturnFalse => Val (set_st (RequestChunk which count l) v, d, ChunkFalse)
     | InflateBreak =>
       let which := wrap 32 (which + 1) in
       let v := set_once true (set_st (RequestChunk which count l) v) in
       if which =? count then
         d ← say "[device/v2] processed last chunk" [] d;
         finish_chunks l v d
       else Val (v, d, ChunkTrue)
     end).
Proof.
  intros Hd Hl. destruct (buffer_split d Hd) as [Ha Hr]. unfold accept_chunk.
  rewrite bool_decide_true by lia. cbn [rust_assert]. rewrite run_bind_Val.
  rewrite slice_copy_Val by lia. rewrite run_bind_Val. cbv zeta.
  destruct (with_chunk_ok chunk v d Hd Hl) as [Hok Hin].
  rewrite slice_range_Val.
  2: rewrite ?length_app, ?length_take, ?length_drop; lia.
  rewrite run_bind_Val. fold (with_chunk chunk v d).
  replace (take _ (drop 0 _)) with (input_of (v2_remainder v) d ++ chunk); [done|].
  rewrite drop_0, Nat.sub_0_r, app_assoc, take_app_length'.
  2: { rewrite length_app, length_take. lia. }
  unfold input_of. rewrite take_take. f_equal. f_equal. lia.
Qed.

Lemma accept_chunk_overflow chunk which count l v d :
  device_ok d -> (INPUT_SIZE < length chunk + v2_remainder v)%nat ->
  accept_chunk chunk which count l v d = Panic.
Proof.
  intros Hd Hl. destruct (buffer_split d Hd) as [Ha _]. unfold accept_chunk.
  by rewrite bool_decide_false by lia.
Qed.

Lemma accept_chunk_total chunk which count l v d :
  device_ok d -> (length chunk + v2_remainder v <= INPUT_SIZE)%nat ->
  exists v' d' e, accept_chunk chunk which count l v d = Val (v', d', e) /\
    device_ok d' /\ kept v v' /\ e <> ChunkHangs /\
    match v2_st v' with AckMetadata _ => False | _ => True end.
Proof.
  intros Hd Hl. rewrite accept_chunk_start by done.
  destruct (with_chunk_ok chunk v d Hd Hl) as [Hok Hin].
  destruct (inflate_loop_total
    (S (inflate_bound (v2_inflate_state v) (input_of (v2_remainder v) d ++ chunk)))
    (v2_inflate_state v) (length chunk + v2_remainder v) l (with_chunk chunk v d) Hok Hl)
    as (st & rem & l' & d1 & e & -> & [Hd1 _] & Hrem & He).
  rewrite run_bind_Val. cbv zeta. rewrite Hin in He. specialize (He ltac:(lia)).
  destruct e; [|by eexists _, _, _; split_and!; try done; split; cbn; lia|done].
  destruct (_ =? _); [|by eexists _, _, _; split_and!; try done; split; cbn; lia].
  destruct (say_quiet "[device/v2] processed last chunk" [] d1 Hd1) as (d2 & -> & Q2).
  rewrite run_bind_Val.
  match goal with |- context [finish_chunks _ ?w _] =>
    destruct (finish_chunks_spec l' w d2 (qu_ok _ _ Q2))
      as (v' & d3 & e & -> & Q3 & (s & Hv) & (r & _ & Hr))
  end.
  exists v', d3, e. split; [done|]. split; [apply Q3|].
  split; [rewrite Hv; split; cbn; [done|lia]|]. destruct r; destruct Hr as [-> ->]; done.
Qed.

Lemma recv_chunk_total c chunk v d :
  v2_ok v -> device_ok d ->
  (forall which count l, v2_st v = RequestChunk which count l -> which = c ->
     (length chunk + v2_remainder v <= INPUT_SIZE)%nat) ->
  exists v' d' e, recv_chunk c chunk v d = Val (v', d', e) /\ v2_ok v' /\ device_ok d' /\
    e <> ChunkHangs.
Proof.
  intros [Hs Hb Hr] Hd Hacc. unfold recv_chunk.
  destruct (v2_st v) as [|md|which count l|b] eqn:Hst.
  1, 2, 4: edestruct say_quiet as (d' & -> & Q); [exact Hd|]; rewrite run_bind_Val;
    eexists _, _, _; split; [done|]; split; [by split; rewrite ?Hst|]; split; [apply Q|done].
  destruct (Z.eqb_spec which c) as [->|].
  - destruct (accept_chunk_total chunk c count l v d Hd) as (v' & d' & e & -> & Hd' & [Kb Kr] & He & Hs');
      [by eapply Hacc|].
    exists v', d', e. split; [done|]. split; [|done]. split; [|lia|done].
    by destruct (v2_st v').
  - destruct (say_quiet "[device/v2] wrong chunk, expected {} got {}" [which; c] d Hd) as (d' & -> & Q).
    rewrite run_bind_Val. eexists _, _, _. split; [done|].
    split; [by split; cbn; rewrite ?Hst|]. split; [apply Q|done].
Qed.

Lemma check_metadata_spec md d :
  metadata_ok md -> device_ok d ->
  exists d' ok, check_metadata md d = Val (d', ok) /\ quiet d d' /\ (ok = true <-> load_ok md).
Proof.
  intros Hmd Hd. unfold check_metadata, load_ok.
  destruct (format_details md) as [a|].
  - destruct (Z.leb_spec 0x10000000 a).
    { edestruct say_quiet as (d' & -> & Q); [exact Hd|]. rewrite run_bind_Val.
      exists d', false. split_and!; [done..|]. split; [done|]. intros [_ [? _]]. lia. }
    destruct (Z.eqb_spec (Z.land a 3) 0); cbn [negb].
    { exists d, true. split; [done|]. split; [by apply quiet_refl|done]. }
    edestruct say_quiet as (d' & -> & Q); [exact Hd|]. rewrite run_bind_Val.
    exists d', false. split_and!; [done..|]. split; [done|]. by intros [_ [_ ?]].
  - destruct (say_quiet "[device/v2] Loading ELF file" [] d Hd) as (d' & -> & Q).
    rewrite run_bind_Val. by exists d', true.
Qed.

Lemma recv_metadata_total md v d :
  metadata_ok md -> v2_ok v -> device_ok d ->
  exists v' d', recv_metadata md v d = Val (v', d') /\ v2_ok v' /\ device_ok d'.
Proof.
  intros Hmd Hv Hd. unfold recv_metadata. destruct (v2_st v) eqn:Hst.
  2-4: edestruct say_quiet as (d' & -> & Q); [exact Hd|]; rewrite run_bind_Val;
    exists v, d'; split; [done|]; split; [done|apply Q].
  destruct (check_metadata_spec md d Hmd Hd) as (d1 & ok & -> & Q & Hok). rewrite run_bind_Val.
  destruct ok.
  - destruct (at_baud_total TRY_RESEND_CHUNK _ (vo_baud _ Hv)) as [t ->]. rewrite run_bind_Val.
    eexists _, _. split; [done|]. destruct Hv. split; [by split; [apply Hok|..]|].
    apply set_timeouts_ok, Q.
  - exists v, d1. split; [done|]. split; [done|apply Q].
Qed.

Lemma new_loader_total md : load_ok md -> exists l, new_loader md = Val l.
Proof.
  intros [(_ & _ & _ & _ & Hu) Hl]. unfold new_loader.
  destruct (format_details md) as [a|]; [|by eexists].
  cbn in Hu. rewrite decide_True by (unfold fits in *; lia). by eexists.
Qed.

Lemma recv_metadata_ack_ack_total ok v d :
  v2_ok v -> device_ok d ->
  exists v' d', recv_metadata_ack_ack ok v d = Val (v', d') /\ v2_ok v' /\ device_ok d'.
Proof.
  intros [Hs Hb Hr] Hd. unfold recv_metadata_ack_ack. destruct (v2_st v) as [|md| |] eqn:Hst.
  1, 3, 4: edestruct say_quiet as (d' & -> & Q); [exact Hd|]; rewrite run_bind_Val;
    exists v, d'; split; [done|]; split; [by split; rewrite ?Hst|apply Q].
  destruct ok.
  - destruct (new_loader_total md Hs) as [l ->]. rewrite run_bind_Val.
    eexists _, _. split; [done|]. by split; [split|].
  - edestruct say_quiet as (d' & -> & Q); [exact Hd|]. rewrite run_bind_Val.
    eexists _, _. split; [done|]. split; [by split|apply Q].
Qed.

Lemma v2_handle_packet_sound {P} h payload v d :
  v2_ok v -> device_ok d -> bytes payload ->
  match v2_handle_packet (P := P) h payload v d with
  | Val (v', d', s) => v2_ok v' /\ device_ok d' /\ match s with Switch _ => False | _ => True end
  | Panic => ~ v2_accepts v h payload
  end.
Proof.
  intros Hv Hd Hb. unfold v2_handle_packet.
  assert (forall text, match (d ← say text [] d; Val (v, d, @Continue P)) with
    | Val (v', d', s) => v2_ok v' /\ device_ok d' /\ match s with Switch _ => False | _ => True end
    | Panic => ~ v2_accepts v h payload end) as Hfail.
  { intros text. destruct (say_quiet text [] d Hd) as (d' & -> & Q). rewrite run_bind_Val.
    split; [done|]. split; [apply Q|done]. }
  destruct (message_type h) eqn:Ht; try apply Hfail.
  - destruct (say_quiet "[device/v2] V2Timeouts={:?}" [] d Hd) as (d1 & -> & Q1).
    rewrite run_bind_Val.
    destruct (from_bytes Metadata payload) as [m|] eqn:Hm.
    2: { edestruct say_quiet as (d' & -> & Q); [apply Q1|]. rewrite run_bind_Val.
         split; [done|]. split; [apply Q|done]. }
    destruct (from_bytes_ok _ _ _ Hb Hm) as [Htype Hok].
    destruct m; try done. destruct (recv_metadata_total m v d1 Hok Hv) as (v' & d' & -> & ? & ?);
      [apply Q1|]. by rewrite run_bind_Val.
  - destruct (from_bytes MetadataAckAck payload) as [m|] eqn:Hm; [|apply Hfail].
    destruct (from_bytes_ok _ _ _ Hb Hm) as [Htype _]. destruct m; try done.
    destruct (recv_metadata_ack_ack_total is_ok v d Hv Hd) as (v' & d' & -> & ? & ?).
    by rewrite run_bind_Val.
  - destruct (from_bytes Chunk payload) as [m|] eqn:Hm; [|apply Hfail].
    destruct (from_bytes_ok _ _ _ Hb Hm) as [Htype _]. destruct m; try done.
    destruct (recv_chunk which chunk_bytes v d) as [[[v' d'] e]|] eqn:Hc; rewrite ?run_bind_Val.
    + destruct (recv_chunk_total which chunk_bytes v d Hv Hd) as (v2 & d2 & e2 & Heq & ? & ? & _).
      { intros w count l Hs ->. destruct (decide (length chunk_bytes + v2_remainder v <= INPUT_SIZE)%nat);
          [done|]. unfold recv_chunk in Hc.
        rewrite Hs, Z.eqb_refl, accept_chunk_overflow in Hc by (done || lia). done. }
      rewrite Hc in Heq. injection Heq as <- <- <-. split; [done|]. split; [done|]. by destruct e.
    + intros Hacc.
      destruct (recv_chunk_total which chunk_bytes v d Hv Hd) as (v2 & d2 & e2 & Heq & _);
        [|by rewrite Hc in Heq].
      intros w count l Hs ->. by eapply Hacc.
  - unfold recv_booting_ack. destruct (v2_st v) as [| | |b] eqn:Hst; try apply Hfail.
    edestruct say_quiet as (d' & -> & Q); [exact Hd|]. rewrite run_bind_Val.
    split; [by destruct Hv; split|]. split; [apply Q|].
    unfold booter_enter. by repeat case_match.
Qed.

Lemma send_report_quiet msg text d :
  message_ok msg -> device_ok d ->
  exists d' r, send_report msg text d = Val (d', r) /\ quiet d d'.
Proof.
  intros Hm Hd. unfold send_report.
  destruct (dev_send_quiet msg d Hd Hm) as (d1 & r & -> & Q1). rewrite run_bind_Val.
  destruct r as [|[]]; try by eexists _, _.
  all: destruct (say_quiet text [] d1 (qu_ok _ _ Q1)) as (d2 & -> & Q2); rewrite run_bind_Val;
    eexists _, _; split; [done|by eapply quiet_trans].
Qed.

Lemma send_state_quiet v d :
  v2_ok v -> device_ok d -> exists d' r, send_state v d = Val (d', r) /\ quiet d d'.
Proof.
  intros Hv Hd. pose proof (vo_state _ Hv) as Hs. unfold send_state.
  destruct (v2_st v); apply send_report_quiet; try done; cbn.
  - split; [unfold fits, CHUNK_SIZE; lia|apply Hs].
  - apply wrap_fits. lia.
Qed.

(** A heartbeat changes when and what is sent, nothing else. *)
Lemma v2_beat_spec {P} i v d :
  v2_ok v -> device_ok d ->
  exists v' d' s, v2_beat (P := P) i v d = Val (v', d', s) /\ quiet d d' /\
    v2_st v' = v2_st v /\ v2_baud v' = v2_baud v /\ v2_remainder v' = v2_remainder v /\
    v2_inflate_state v' = v2_inflate_state v.
Proof.
  intros Hv Hd. unfold v2_beat. destruct (should_send i v).
  - destruct (send_state_quiet (set_once false v) d) as (d1 & r & -> & Q1); [by destruct Hv; split|done|].
    rewrite run_bind_Val. destruct r; by eexists _, _, _.
  - eexists _, _, _. split; [done|]. by split; [apply quiet_refl|].
Qed.
End v2_safety.

(** ** The claims *)

(** The size of a chunk is not checked before it is copied: a frame whose
    CRC is right, with the number of the chunk that is asked for and more bytes
    than the 0x2000 bytes of the inflater's input have left, panics. *)
Theorem oversized_chunk_panics
    `{CrcLaws, PostcardLaws, RenderLaws, ElfParse, InflateLaws, Machine} {P}
    h payload v d which count l chunk :
  device_ok d -> v2_st v = RequestChunk which count l -> message_type h = Chunk ->
  from_bytes Chunk payload = Ok (MChunk which chunk) ->
  (INPUT_SIZE < length chunk + v2_remainder v)%nat ->
  v2_handle_packet (P := P) h payload v d = Panic.
Proof.
  intros Hd Hst Ht Hm Hl. unfold v2_handle_packet. rewrite Ht, Hm. unfold recv_chunk.
  rewrite Hst, Z.eqb_refl. by rewrite accept_chunk_overflow.
Qed.

(** ** A concrete inflater and machine *)

Module StoredInflate.
(** The format without compression: what is consumed is what is written. *)
#[export] Instance stored_inflate : Inflate := {|
  inflate_state := unit;
  inflate_new := tt;
  inflate st input room :=
    match input with
    | [] => (st, MkStreamResult 0 [] (Err Buf))
    | _ => (st, MkStreamResult (length (take room input)) (take room input) (Ok MZOk))
    end;
  inflate_bound _ input := length input;
|}.

#[export] Instance stored_inflate_laws : InflateLaws.
Proof.
  split; cbn [inflate stored_inflate inflate_bound].
  - intros st [|x l] room; cbn [snd bytes_consumed]; [done|]. rewrite length_take. lia.
  - intros st [|x l] room; cbn [snd bytes_out]; [cbn; lia|]. rewrite length_take. lia.
  - intros st [|x l] room Hb; [constructor|]. by apply Forall_take.
  - by intros st [|x l] room.
  - by intros st [|x l] room.
  - intros st [|x l] room st' r [= <- <-] Hs Ho; [done|]. cbn [bytes_consumed bytes_out] in *.
    rewrite length_drop. destruct room; [done|]. cbn [take length]. lia.
Qed.

#[export] Instance demo_machine : Machine := {|
  self_end := 0x20000;
  stub_code := [9];
  elf_address _ := 0x10000100;
|}.
End StoredInflate.
Export StoredInflate.

(** A session that waits for chunk 0 of 1. *)
Definition sample_session (s : v2_state) : v2 :=
  MkV2 s true false 0 1500000 (MkV1Timeouts 1 1 1) inflate_new 0.
Definition sample_loader : LoaderEnum :=
  BinLoader (bin_loader_new 0x20000 0x8000 (MkMetadata 0 8 (crc32_hash [1; 2; 3; 4; 5; 6; 7; 8]) 8 (Bin 0x8000))).

Lemma oversized_chunk_panics_witness :
  v2_handle_packet (P := unit) (MkHeader Chunk 0x2005) (le_bytes 4 0 ++ replicate 0x2001 7)
    (sample_session (RequestChunk 0 1 sample_loader)) demo_device = Panic.
Proof.
  apply (oversized_chunk_panics (P := unit) (MkHeader Chunk 0x2005)
    (le_bytes 4 0 ++ replicate 0x2001 7) (sample_session (RequestChunk 0 1 sample_loader))
    demo_device 0 1 sample_loader (replicate 0x2001 7));
    [exact demo_device_ok|reflexivity|reflexivity|vm_compute; reflexivity|].
  apply Nat.ltb_lt. vm_compute. reflexivity.
Defined.
