(* ===== verification/V2Upload.v ===== *)
(** An upload over protocol V2, whatever is repeated or lost: the transfer of
    the chunks as a refinement of handing the inflated program to the loader,
    piece by piece.

    [inflating st rest out] is what the documentation of the inflater promises:
    a decompressor in state [st] that is still to be given [rest] will give
    [out]. *)
From Stdlib Require Import String.
From S2P Require Import Prelude Words Messages Crc Encode Decode Cobs Framing Postcard.
From S2P Require Import TransmitBuf FrameSink Timing Relocation Device Receiver ElfLoader V2.

Class InflateStream `{Inflate} := {
  inflating : inflate_state -> list Z -> list Z -> Prop;
}.

(** A call stops when its input is used up or its output is full; with all of
    the rest of the stream before it, it gives output if there is any left. *)
Class InflateStreamLaws `{InflateStream} : Prop := {
  inflating_step st input later out room st' r :
    inflating st (input ++ later) out -> (0 < room)%nat -> inflate st input room = (st', r) ->
    exists out', out = bytes_out r ++ out' /\
      inflating st' (drop (bytes_consumed r) input ++ later) out' /\
      match mz_status r with
      | Ok MZOk => bytes_consumed r = length input \/ length (bytes_out r) = room
      | Ok StreamEnd => out' = [] /\ drop (bytes_consumed r) input ++ later = []
      | Err Buf => input = []
      | _ => False
      end;
  inflating_progress st input out room st' r :
    inflating st input out -> (0 < room)%nat -> inflate st input room = (st', r) ->
    bytes_out r = [] -> out = [];
}.

Section upload.
Context `{CrcLaws, PostcardLaws, RenderLaws, ElfParse, InflateLaws, Machine}.
Context `{!InflateStream, !InflateStreamLaws}.
Implicit Types (v : v2) (d : device) (l : LoaderEnum).

Lemma room_pos d : device_ok d -> (0 < room_of d)%nat.
Proof.
  intros Hd. destruct (buffer_split d Hd) as [_ Hr]. destruct Hd as [_ _ _ Hi].
  unfold INPUT_SIZE in *. lia.
Qed.

Lemma loader_feed_all_cons l m p pieces :
  loader_feed_all l m (p :: pieces) =
  loader_feed_all (loader_feed l m p).1 (loader_feed l m p).2 pieces.
Proof. unfold loader_feed_all. cbn [foldl fst snd]. by destruct (loader_feed l m p). Qed.
Lemma loader_feed_all_app l m ps qs :
  loader_feed_all l m (ps ++ qs) =
  loader_feed_all (loader_feed_all l m ps).1 (loader_feed_all l m ps).2 qs.
Proof. unfold loader_feed_all. rewrite foldl_app. by destruct (foldl _ _ ps). Qed.

(** The loop of [recv_chunk], inside a stream: it hands a prefix of the output
    to the loader, in pieces, and uses up its input; at the end of the stream
    it hands over everything. *)
Lemma inflate_loop_stream fuel st rem l d later out :
  device_ok d -> (rem <= INPUT_SIZE)%nat -> inflating st (input_of rem d ++ later) out ->
  (inflate_bound st (input_of rem d) < fuel)%nat ->
  exists st' l' d' pieces out', inflate_loop fuel st rem l d = Val (st', 0%nat, l', d', InflateBreak) /\
    device_ok d' /\ out = List.concat pieces ++ out' /\
    loader_feed_all l (dv_memory d) pieces = (l', dv_memory d') /\
    inflating st' later out' /\ (later = [] -> out' = []).
Proof.
  revert st rem l d out. induction fuel as [|fuel IH]; intros st rem l d out Hd Hrem Hin Hb; [lia|].
  cbn [inflate_loop].
  destruct (inflate_step_spec st rem l d Hd Hrem) as (st1 & rem1 & l1 & d1 & e & r & -> & Hi & Hf & Hr).
  rewrite run_bind_Val. pose proof (room_pos d Hd) as Hroom.
  destruct (input_slice rem d Hrem Hd) as [_ Hlen].
  destruct (inflating_step _ _ _ _ _ _ _ Hin Hroom Hi) as (out1 & Hout & Hin1 & Hst).
  assert (later = [] -> bytes_out r = [] -> out = []) as Hend.
  { intros ->. rewrite app_nil_r in Hin. by eapply inflating_progress. }
  destruct (mz_status r) as [[| |]|[]] eqn:Hstat; try done.
  - destruct Hr as (-> & Hnext & Hr). rewrite <- Hnext in Hin1. case_decide as Ho.
    + destruct Hr as (-> & -> & Hm). rewrite Ho in Hout, Hst. cbn in Hout, Hst. subst out1.
      assert (rem - bytes_consumed r = 0)%nat as Hz by lia. rewrite Hz in *.
      exists st1, l, d1, [], out. cbn. rewrite Hm. split_and!; try done; [apply Hf|].
      intros ->. by apply Hend.
    + destruct Hr as [-> Hfeed].
      destruct (IH st1 (rem - bytes_consumed r)%nat l1 d1 out1)
        as (st2 & l2 & d2 & pieces & out2 & -> & Hd2 & Hout2 & Hfeed2 & Hin2 & Hend2);
        [apply Hf|lia|done| |].
      { pose proof (inflate_bounded _ _ _ _ _ Hi Hstat Ho). rewrite Hnext. lia. }
      exists st2, l2, d2, (bytes_out r :: pieces), out2. split; [done|]. split; [done|].
      split; [cbn; by rewrite <- app_assoc, Hout, Hout2|].
      split; [by rewrite loader_feed_all_cons, Hfeed|done].
  - destruct Hr as (-> & -> & Hfeed). destruct Hst as [-> Hrest].
    apply app_nil in Hrest as [Hrest ->].
    assert (rem - bytes_consumed r = 0)%nat as ->.
    { apply (f_equal length) in Hrest. rewrite length_drop in Hrest. cbn in Hrest. lia. }
    exists st1, l1, d1, [bytes_out r], []. cbn [List.concat].
    split; [done|]. split; [apply Hf|]. rewrite app_nil_r. split; [done|].
    split; [rewrite loader_feed_all_cons, Hfeed; done|]. split; [by rewrite Hrest in Hin1|done].
  - destruct Hr as (-> & Ho & Hc & -> & -> & Hm). rewrite Hst in *. cbn in Hlen. subst rem.
    exists st1, l, d1, [], out. rewrite Ho in Hout. cbn in Hout. subst out1.
    rewrite drop_nil in Hin1. cbn. rewrite Hm. split_and!; try done; [apply Hf|].
    intros ->. by apply Hend.
Qed.

(** ** The transfer *)

(** Chunks [k] and later of an upload of [program] are still to come; the
    loader started as [l0] over the memory [m0]. *)
Record transferring (chunks : list (list Z)) (program : list Z) l0 (m0 : memory) (k : nat) v d
  : Prop := {
  tr_ok : v2_ok v;
  tr_device : device_ok d;
  tr_more : (k < length chunks)%nat;
  tr_state : exists l, v2_st v = RequestChunk (Z.of_nat k) (Z.of_nat (length chunks)) l /\
    exists pieces out, program = List.concat pieces ++ out /\
      loader_feed_all l0 m0 pieces = (l, dv_memory d) /\
      inflating (v2_inflate_state v) (List.concat (drop k chunks)) out;
  tr_remainder : v2_remainder v = 0%nat;
}.

(** The whole program went to the loader, which wrote it to the memory, now
    [m], and has given its verdict [r]. *)
Definition delivered (program : list Z) l0 (m0 m : memory) (r : result Booter LoadError) : Prop :=
  exists pieces l, List.concat pieces = program /\ loader_feed_all l0 m0 pieces = (l, m) /\
    loader_verdict l m r.

(** An upload whose chunks fit the input buffer and the 32-bit counter. *)
Record chunks_ok (chunks : list (list Z)) : Prop := {
  ck_size : Forall (fun c => (length c <= INPUT_SIZE)%nat) chunks;
  ck_count : Z.of_nat (length chunks) < 2 ^ 32;
}.

(** The chunk that is asked for. *)
Lemma recv_right_chunk chunks program l0 m0 k v d chunk :
  chunks_ok chunks -> transferring chunks program l0 m0 k v d -> chunks !! k = Some chunk ->
  exists v' d' e, recv_chunk (Z.of_nat k) chunk v d = Val (v', d', e) /\
    (transferring chunks program l0 m0 (S k) v' d' /\ e = ChunkTrue \/
     exists r, S k = length chunks /\ delivered program l0 m0 (dv_memory d') r /\ v2_ok v' /\ device_ok d' /\
       match r with
       | Ok b => v2_st v' = Boot b /\ e = ChunkTrue
       | Err _ => v2_st v' = RequestMetadata /\ e = ChunkFalse
       end).
Proof.
  intros [Hsize Hcount] [Hok Hd Hk (l & Hst & pieces & out & Hp & Hfeed & Hin) Hrem] Hch.
  unfold recv_chunk. rewrite Hst, Z.eqb_refl.
  assert (length chunk <= INPUT_SIZE)%nat as Hc by (by eapply (proj1 (Forall_lookup _ _) Hsize)).
  assert (length chunk + v2_remainder v <= INPUT_SIZE)%nat as Hfit by lia.
  rewrite accept_chunk_start by done. destruct (with_chunk_ok chunk v d Hd Hfit) as [Hd1 Hin1].
  rewrite (drop_S _ _ _ Hch) in Hin. cbn [List.concat] in Hin.
  assert (input_of (v2_remainder v) d = []) as Hempty by (unfold input_of; by rewrite Hrem).
  rewrite Hempty in *. cbn [app] in Hin1 |- *. rewrite <- Hin1 in Hin.
  destruct (inflate_loop_stream
    (S (inflate_bound (v2_inflate_state v) chunk)) _ _ l (with_chunk chunk v d) _ _ Hd1 Hfit Hin)
    as (st' & l' & d' & ps & out' & -> & Hd' & Hout & Hfeed' & Hin' & Hend);
    [rewrite Hin1; lia|].
  rewrite run_bind_Val. cbv zeta. rewrite wrap_id by (unfold fits; lia).
  assert (program = List.concat (pieces ++ ps) ++ out') as Hp'
    by (by rewrite Hp, Hout, concat_app, app_assoc).
  assert (loader_feed_all l0 m0 (pieces ++ ps) = (l', dv_memory d')) as Hfeed2
    by (rewrite loader_feed_all_app, Hfeed; exact Hfeed').
  assert (v2_ok (set_once true (set_st (RequestChunk (Z.of_nat k + 1) (Z.of_nat (length chunks)) l')
    (set_inflate st' 0 v)))) as Hok' by (destruct Hok; split; cbn; [done|done|lia]).
  destruct (Z.eqb_spec (Z.of_nat k + 1) (Z.of_nat (length chunks))) as [Hlast|Hlast].
  - destruct (say_quiet "[device/v2] processed last chunk" [] d' Hd') as (d2 & -> & Q2).
    rewrite run_bind_Val.
    match goal with |- context [finish_chunks _ ?w _] =>
      destruct (finish_chunks_spec l' w d2 (qu_ok _ _ Q2))
        as (v' & d3 & e & -> & Q3 & (s & Hv) & (r & Hr & Hfin)) end.
    exists v', d3, e. split; [done|]. right. exists r. split; [lia|].
    rewrite drop_ge in Hend by lia. rewrite (Hend eq_refl), app_nil_r in Hp'.
    rewrite (qu_memory _ _ Q2) in Hr. rewrite (qu_memory _ _ Q3), (qu_memory _ _ Q2).
    split; [by exists (pieces ++ ps), l'|].
    split; [|split; [apply Q3|done]].
    rewrite Hv in Hfin |- *. destruct Hok'. split; cbn [set_st v2_st v2_baud v2_remainder]; try done.
    cbn in Hfin. by destruct r; destruct Hfin as [-> _].
  - eexists _, _, _. split; [done|]. left. split; [|done].
    split; [done|done|lia| |done].
    exists l'. split; [cbn; do 2 f_equal; lia|]. by exists (pieces ++ ps), out'.
Qed.

(** A chunk that is not the one asked for. *)
Lemma recv_wrong_chunk chunks program l0 m0 k v d c chunk :
  transferring chunks program l0 m0 k v d -> c <> Z.of_nat k ->
  exists v' d', recv_chunk c chunk v d = Val (v', d', ChunkTrue) /\
    transferring chunks program l0 m0 k v' d'.
Proof.
  intros [Hok Hd Hk (l & Hst & Hl) Hrem] Hc. unfold recv_chunk. rewrite Hst.
  destruct (Z.eqb_spec (Z.of_nat k) c); [congruence|].
  destruct (say_quiet "[device/v2] wrong chunk, expected {} got {}" [Z.of_nat k; c] d Hd)
    as (d' & -> & Q). rewrite run_bind_Val. eexists _, _. split; [done|].
  split; [by destruct Hok; split|apply Q|done| |done].
  exists l. by rewrite (qu_memory _ _ Q).
Qed.

(** ** Sessions *)

(** What can happen to a session: the receive loop polls it, or hands it a
    packet.  The status of a heartbeat is ignored, as in the loop. *)
Inductive v2_event : Type :=
  | EvBeat (i : io)
  | EvPacket (h : FrameHeader) (payload : list Z).

Definition v2_event_step {P} (ev : v2_event) v d : run (v2 * device * ProtocolStatus P) :=
  match ev with
  | EvBeat i => '(v, d, _) ← v2_beat (P := P) i v d; Val (v, d, Continue)
  | EvPacket h payload => v2_handle_packet h payload v d
  end.

(** A session goes on while the status is [Continue]. *)
Fixpoint v2_run {P} (evs : list v2_event) v d : run (v2 * device * ProtocolStatus P) :=
  match evs with
  | [] => Val (v, d, Continue)
  | ev :: evs =>
    '(v, d, s) ← v2_event_step ev v d;
    match s with
    | Continue => v2_run evs v d
    | _ => Val (v, d, s)
    end
  end.

(** Every chunk that arrives is one of the upload's, under its own number. *)
Definition honest (chunks : list (list Z)) (ev : v2_event) : Prop :=
  match ev with
  | EvBeat _ => True
  | EvPacket h payload => bytes payload /\
      forall k bs chunk, message_type h = Chunk ->
        from_bytes Chunk payload = Ok (MChunk (Z.of_nat k) bs) ->
        chunks !! k = Some chunk -> bs = chunk
  end.

(** The program is complete and waits for the host's last word. *)
Record booting (program : list Z) l0 (m0 : memory) b v d : Prop := {
  bt_ok : v2_ok v;
  bt_device : device_ok d;
  bt_state : v2_st v = Boot b;
  bt_delivered : delivered program l0 m0 (dv_memory d) (Ok b);
}.

(** Where a session may be after a part of an upload. *)
Definition session_end {P} (chunks : list (list Z)) program l0 m0 k v d (s : ProtocolStatus P)
  : Prop :=
  match s with
  | Continue =>
    (exists k', (k <= k')%nat /\ transferring chunks program l0 m0 k' v d) \/
    (exists b, booting program l0 m0 b v d)
  | Abend => exists e, delivered program l0 m0 (dv_memory d) (Err e)
  | Entered _ _ | Unfinished =>
    exists b, delivered program l0 m0 (dv_memory d) (Ok b) /\ s = booter_enter b d
  | _ => False
  end.

(** Packets that change nothing: everything but a chunk that parses, while
    chunks are expected; everything but a [BootingAck], afterwards. *)
Lemma v2_packet_ignored {P} h payload v d :
  device_ok d ->
  match v2_st v with
  | RequestChunk _ _ _ =>
    forall c bs, message_type h = Chunk -> from_bytes Chunk payload <> Ok (MChunk c bs)
  | Boot _ => message_type h <> BootingAck
  | _ => False
  end ->
  exists d', v2_handle_packet (P := P) h payload v d = Val (v, d', Continue) /\ quiet d d'.
Proof.
  intros Hd Hign.
  assert (forall text args d1, quiet d d1 -> exists d',
    (d ← say text args d1; Val (v, d, @Continue P)) = Val (v, d', Continue) /\ quiet d d') as Hsay.
  { intros text args d1 Q1. destruct (say_quiet text args d1 (qu_ok _ _ Q1)) as (d' & -> & Q).
    exists d'. split; [done|by eapply quiet_trans]. }
  pose proof (quiet_refl d Hd) as Q0. unfold v2_handle_packet.
  destruct (message_type h) eqn:Ht; try (by apply Hsay).
  - destruct (say_quiet "[device/v2] V2Timeouts={:?}" [] d Hd) as (d1 & -> & Q1).
    rewrite run_bind_Val. destruct (from_bytes Metadata payload) as [[]|]; try by apply Hsay.
    unfold recv_metadata. destruct (v2_st v); try done.
    all: edestruct say_quiet as (d2 & -> & Q2); [apply Q1|]; do 2 rewrite run_bind_Val;
      exists d2; split; [done|by eapply quiet_trans].
  - destruct (from_bytes MetadataAckAck payload) as [[]|]; try by apply Hsay.
    unfold recv_metadata_ack_ack. destruct (v2_st v); try done.
    all: edestruct say_quiet as (d2 & -> & Q2); [exact Hd|]; do 2 rewrite run_bind_Val; by exists d2.
  - destruct (from_bytes Chunk payload) as [[| | | |c bs| | | | | |]|] eqn:Hm; try by apply Hsay.
    unfold recv_chunk. destruct (v2_st v); try done; [by destruct (Hign c bs)|].
    edestruct say_quiet as (d2 & -> & Q2); [exact Hd|]. do 2 rewrite run_bind_Val. by exists d2.
  - unfold recv_booting_ack. destruct (v2_st v); try done. by apply Hsay.
Qed.

Lemma transferring_quiet chunks program l0 m0 k v v' d d' :
  transferring chunks program l0 m0 k v d -> quiet d d' ->
  v2_st v' = v2_st v -> v2_baud v' = v2_baud v -> v2_remainder v' = v2_remainder v ->
  v2_inflate_state v' = v2_inflate_state v ->
  transferring chunks program l0 m0 k v' d'.
Proof.
  intros [[Hs Hb Hr] Hd Hk Hst Hrem] Q E1 E2 E3 E4.
  split; [split; by rewrite ?E1, ?E2, ?E3|apply Q|done| |congruence].
  by rewrite E1, E4, (qu_memory _ _ Q).
Qed.

Lemma booting_quiet program l0 m0 b v v' d d' :
  booting program l0 m0 b v d -> quiet d d' ->
  v2_st v' = v2_st v -> v2_baud v' = v2_baud v -> v2_remainder v' = v2_remainder v ->
  booting program l0 m0 b v' d'.
Proof.
  intros [[Hs Hb Hr] Hd Hst Hdel] Q E1 E2 E3.
  split; [split; by rewrite ?E1, ?E2, ?E3|apply Q|congruence|]. by rewrite (qu_memory _ _ Q).
Qed.

Lemma transferring_step {P} chunks program l0 m0 k v d ev :
  chunks_ok chunks -> transferring chunks program l0 m0 k v d -> honest chunks ev ->
  exists v' d' s, v2_event_step (P := P) ev v d = Val (v', d', s) /\
    session_end chunks program l0 m0 k v' d' s.
Proof.
  intros Hck Htr Hev. pose proof Htr as [Hok Hd Hk (l & Hst & Hl) Hrem]. destruct ev as [i|h payload].
  - cbn [v2_event_step].
    destruct (v2_beat_spec (P := P) i v d Hok Hd) as (v' & d' & s & -> & Q & E1 & E2 & E3 & E4).
    rewrite run_bind_Val. eexists _, _, _. split; [done|]. left. exists k. split; [done|].
    by eapply transferring_quiet.
  - destruct Hev as [Hb Hev]. cbn [v2_event_step].
    destruct (decide (message_type h = Chunk)) as [Ht|Ht].
    2: { destruct (v2_packet_ignored (P := P) h payload v d Hd) as (d' & -> & Q).
         { rewrite Hst. by intros. }
         eexists _, _, _. split; [done|]. left. exists k. split; [done|].
         by eapply transferring_quiet. }
    destruct (from_bytes Chunk payload) as [m|e] eqn:Hm.
    2: { destruct (v2_packet_ignored (P := P) h payload v d Hd) as (d' & -> & Q).
         { rewrite Hst, Hm. by intros. }
         eexists _, _, _. split; [done|]. left. exists k. split; [done|].
         by eapply transferring_quiet. }
    destruct (from_bytes_ok _ _ _ Hb Hm) as [Hty Hmok]. destruct m as [| | | |c bs| | | | | |]; try done.
    destruct Hmok as [Hc _]. unfold v2_handle_packet. rewrite Ht, Hm.
    destruct (decide (c = Z.of_nat k)) as [->|Hne].
    + destruct (lookup_lt_is_Some_2 chunks k Hk) as [chunk Hch].
      rewrite (Hev k bs chunk Ht eq_refl Hch).
      destruct (recv_right_chunk chunks program l0 m0 k v d chunk Hck Htr Hch)
        as (v' & d' & e & -> & Hr). rewrite run_bind_Val. eexists _, _, _. split; [done|].
      destruct Hr as [[Htr' ->]|(r & _ & Hdel & Hok' & Hd' & Hr)].
      * left. exists (S k). by split; [lia|].
      * destruct r as [b|er]; destruct Hr as [Hst' ->]; [right; by exists b|by exists er].
    + destruct (recv_wrong_chunk chunks program l0 m0 k v d c bs Htr Hne) as (v' & d' & -> & Htr').
      rewrite run_bind_Val. eexists _, _, _. split; [done|]. left. by exists k.
Qed.

Lemma booter_enter_leaves {P} b d :
  match booter_enter (P := P) b d with Entered _ _ | Unfinished => True | _ => False end.
Proof. unfold booter_enter. by repeat case_match. Qed.

Lemma booting_step {P} chunks program l0 m0 k b v d ev :
  booting program l0 m0 b v d ->
  exists v' d' s, v2_event_step (P := P) ev v d = Val (v', d', s) /\
    session_end chunks program l0 m0 k v' d' s /\
    (s = Continue -> booting program l0 m0 b v' d').
Proof.
  intros Hbt. pose proof Hbt as [Hok Hd Hst Hdel]. destruct ev as [i|h payload]; cbn [v2_event_step].
  - destruct (v2_beat_spec (P := P) i v d Hok Hd) as (v' & d' & s & -> & Q & E1 & E2 & E3 & E4).
    rewrite run_bind_Val. eexists _, _, _. split; [done|].
    assert (booting program l0 m0 b v' d') by (by eapply booting_quiet).
    split; [right; by exists b|done].
  - destruct (decide (message_type h = BootingAck)) as [Ht|Ht].
    + unfold v2_handle_packet. rewrite Ht. unfold recv_booting_ack. rewrite Hst.
      edestruct say_quiet as (d' & -> & Q); [exact Hd|]. rewrite run_bind_Val.
      eexists _, _, _. split; [done|]. rewrite <- (qu_memory _ _ Q) in Hdel.
      pose proof (booter_enter_leaves (P := P) b d') as Hl.
      destruct (booter_enter b d') eqn:He; try done; (split; [|done]);
        exists b; (split; [exact Hdel|]); by rewrite He.
    + destruct (v2_packet_ignored (P := P) h payload v d Hd) as (d' & -> & Q); [by rewrite Hst|].
      eexists _, _, _. split; [done|].
      assert (booting program l0 m0 b v d') by (by eapply booting_quiet).
      split; [right; by exists b|done].
Qed.

Lemma session_run {P} chunks program l0 m0 k v d evs :
  chunks_ok chunks ->
  (transferring chunks program l0 m0 k v d \/ exists b, booting program l0 m0 b v d) ->
  Forall (honest chunks) evs ->
  exists v' d' s, v2_run (P := P) evs v d = Val (v', d', s) /\
    session_end chunks program l0 m0 k v' d' s.
Proof.
  intros Hck Hst Hev. revert k v d Hst. induction Hev as [|ev evs Hev Hevs IH]; intros k v d Hst.
  - eexists _, _, _. split; [done|]. destruct Hst as [Htr|Hb]; [left; by exists k|by right].
  - cbn [v2_run].
    assert (exists v' d' s, v2_event_step (P := P) ev v d = Val (v', d', s) /\
      session_end chunks program l0 m0 k v' d' s) as (v1 & d1 & s & -> & Hend).
    { destruct Hst as [Htr|[b Hb]]; [by apply transferring_step|].
      destruct (booting_step (P := P) chunks program l0 m0 k b v d ev Hb) as (v1 & d1 & s & ? & ? & _).
      eauto. }
    rewrite run_bind_Val. destruct s; [|done| |done| |]; [|by eexists _, _, _..].
    destruct Hend as [(k1 & Hk1 & Htr)|Hb].
    + destruct (IH k1 v1 d1) as (v2 & d2 & s & -> & Hend); [by left|].
      eexists _, _, _. split; [done|]. destruct s; try done.
      destruct Hend as [(k2 & Hk2 & Htr2)|Hb]; [|by right]. left. exists k2. by split; [lia|].
    + destruct (IH k v1 d1) as (v2 & d2 & s & -> & Hend); [by right|]. by eexists _, _, _.
Qed.
End upload.

(** ** The claims *)

Section claims.
Context `{CrcLaws, PostcardLaws, RenderLaws, ElfParse, InflateLaws, Machine}.
Context `{!InflateStream, !InflateStreamLaws}.

Lemma ack_starts md chunks program v d l0 :
  chunks_ok chunks -> chunks <> [] -> v2_ok v -> device_ok d ->
  v2_st v = AckMetadata md -> new_loader md = Val l0 -> chunk_count md = Z.of_nat (length chunks) ->
  v2_remainder v = 0%nat -> inflating (v2_inflate_state v) (List.concat chunks) program ->
  exists v', recv_metadata_ack_ack true v d = Val (v', d) /\
    transferring chunks program l0 (dv_memory d) 0 v' d.
Proof.
  intros Hck Hne Hok Hd Hst Hl Hcount Hrem Hin. unfold recv_metadata_ack_ack.
  rewrite Hst, Hl, run_bind_Val. eexists. split; [done|].
  split; [by destruct Hok; split|done|destruct chunks; [done|cbn; lia]| |done].
  exists l0. split; [by rewrite <- Hcount|]. by exists [], program.
Qed.

(** Loading keeps the relocation and the metadata. *)
Lemma bin_feed_keeps bl0 m0 pieces l m :
  loader_feed_all (BinLoader bl0) m0 pieces = (l, m) ->
  exists bl, l = BinLoader bl /\ bl_relocation bl = bl_relocation bl0 /\
    bl_metadata bl = bl_metadata bl0.
Proof.
  revert m0 bl0. induction pieces as [|p pieces IH]; intros m0 bl0.
  - intros [= <- _]. by exists bl0.
  - rewrite loader_feed_all_cons. cbn [loader_feed].
    destruct (bin_receive_bytes bl0 m0 p) as [bl1 m1] eqn:He. unfold bin_receive_bytes in He.
    injection He as <- _. intros Hf. destruct (IH _ _ Hf) as (bl & -> & E1 & E2). by exists bl.
Qed.

(** The boot of a flat binary, from what the session knows. *)
Lemma delivered_boots {P} program md a m0 d b :
  layout_ok a (inflated_len md) self_end -> a < self_end ->
  (Z.min (a + inflated_len md) self_end - a) mod 4 = 0 ->
  delivered program (BinLoader (bin_loader_new self_end a md)) m0 (dv_memory d) (Ok b) ->
  exists m, booter_enter (P := P) b d = Entered m a /\
    crc32_hash (mem_read m a (Z.to_nat (inflated_len md))) = inflated_crc md.
Proof.
  intros Hly Hlt Hwords (pieces & l & _ & Hfeed & Hv).
  destruct (bin_feed_keeps _ _ _ _ _ Hfeed) as (bl & -> & Hr & Hmd).
  cbn [bin_loader_new bl_relocation bl_metadata] in Hr, Hmd.
  cbn [loader_verdict] in Hv. unfold bin_finalize in Hv. rewrite Hr, Hmd in Hv.
  destruct (verify_integrity _ _ _ _) eqn:Hver; [|done]. injection Hv as ->.
  destruct (calculate_relocated _ _ _ Hly Hlt) as [_ Hbase Hn _ _ _].
  destruct (verified_boots_spec a (inflated_len md) self_end (inflated_crc md) stub_code (dv_memory d) Hly)
    as (m & e & Hf & He & Hc); [by rewrite Hn|exact Hver|].
  rewrite Hbase in He. subst e. exists m. split; [|exact Hc].
  unfold booter_enter, stub_fuel. by rewrite Hf.
Qed.
End claims.


(** An upload makes progress.  A session that waits for chunk [k] asks for
    chunk [k]; when it arrives, the session waits for the next one, or, after
    the last one, has delivered the program and waits to boot or gives up. *)
Theorem chunk_progress `{CrcLaws, PostcardLaws, RenderLaws, ElfParse, InflateLaws, Machine}
    `{!InflateStream, !InflateStreamLaws} {P} chunks program l0 m0 k v d chunk h payload :
  chunks_ok chunks -> transferring chunks program l0 m0 k v d -> chunks !! k = Some chunk ->
  message_type h = Chunk -> from_bytes Chunk payload = Ok (MChunk (Z.of_nat k) chunk) ->
  send_state v d = send_chunk_request (Z.of_nat k) d /\
  exists v' d' s, v2_handle_packet (P := P) h payload v d = Val (v', d', s) /\
    (transferring chunks program l0 m0 (S k) v' d' /\ s = Continue \/
     exists r, S k = length chunks /\ delivered program l0 m0 (dv_memory d') r /\
       match r with
       | Ok b => booting program l0 m0 b v' d' /\ s = Continue
       | Err _ => v2_st v' = RequestMetadata /\ s = Abend
       end).
Proof.
  intros Hck Htr Hch Ht Hm. pose proof Htr as [_ _ _ (l & Hst & _) _]. split.
  - unfold send_state. by rewrite Hst.
  - unfold v2_handle_packet. rewrite Ht, Hm.
    destruct (recv_right_chunk chunks program l0 m0 k v d chunk Hck Htr Hch)
      as (v' & d' & e & -> & Hr). rewrite run_bind_Val. eexists _, _, _. split; [done|].
    destruct Hr as [[? ->]|(r & ? & Hdel & ? & ? & Hr)]; [by left|right].
    exists r. split; [done|]. split; [done|]. destruct r; destruct Hr as [? ->]; done.
Qed.

(** What an upload of a flat binary boots.  For a program below the end of
    the loader, with a whole number of words to relocate, a session of honest
    chunks does not hang, and if it enters a program, it enters at the load
    address, where the announced number of bytes have the announced CRC. *)
Theorem upload_boots `{CrcLaws, PostcardLaws, RenderLaws, ElfParse, InflateLaws, Machine}
    `{!InflateStream, !InflateStreamLaws} {P} chunks program md a m0 k v d evs :
  chunks_ok chunks ->
  transferring chunks program (BinLoader (bin_loader_new self_end a md)) m0 k v d ->
  Forall (honest chunks) evs ->
  layout_ok a (inflated_len md) self_end -> a < self_end ->
  (Z.min (a + inflated_len md) self_end - a) mod 4 = 0 ->
  exists v' d' s, v2_run (P := P) evs v d = Val (v', d', s) /\
    match s with
    | Entered m e =>
      e = a /\ crc32_hash (mem_read m e (Z.to_nat (inflated_len md))) = inflated_crc md
    | Unfinished | Abcon | Switch _ => False
    | _ => True
    end.
Proof.
  intros Hck Htr Hev Hly Hlt Hwords.
  destruct (session_run (P := P) chunks program _ m0 k v d evs Hck (or_introl Htr) Hev)
    as (v' & d' & s & Hr & Hend).
  exists v', d', s. split; [exact Hr|]. destruct s; try done.
  all: destruct Hend as (b & Hdel & He).
  all: destruct (delivered_boots (P := P) program md a m0 d' b Hly Hlt Hwords Hdel) as (m1 & E & Hc);
    rewrite E in He; try discriminate He; by injection He as -> ->.
Qed.

(** ** Witnesses *)

#[export] Instance stored_stream : InflateStream := {| inflating _ rest out := rest = out |}.
#[export] Instance stored_stream_laws : InflateStreamLaws.
Proof.
  split; cbn [inflating stored_stream].
  - intros st input later out room st' r <- Hroom Hi.
    exists (drop (bytes_consumed r) input ++ later).
    cbn [inflate stored_inflate] in Hi. destruct input as [|x input]; injection Hi as <- <-.
    + by cbn.
    + cbn [bytes_consumed bytes_out mz_status]. split_and!; [|done|].
      * rewrite app_assoc. f_equal. rewrite length_take.
        destruct (Nat.min_spec room (length (x :: input))) as [[? ->]|[? ->]].
        -- by rewrite take_drop.
        -- rewrite take_ge by lia. rewrite drop_ge by lia. by rewrite app_nil_r.
      * rewrite length_take. lia.
  - intros st input out room st' r <- Hroom Hi Ho. cbn [inflate stored_inflate] in Hi.
    destruct input as [|x input]; [done|]. injection Hi as <- <-. cbn in Ho. destruct room; [lia|done].
Qed.

Definition sample_program : list Z := [1; 2; 3; 4; 5; 6; 7; 8].
Definition upload_metadata : metadata :=
  MkMetadata 0 8 (crc32_hash [1; 2; 3; 4; 5; 6; 7; 8]) 8 (Bin 0x8000).
Definition chunk_packet : v2_event :=
  EvPacket (MkHeader Chunk 12) (le_bytes 4 0 ++ sample_program).

Lemma sample_chunks_ok : chunks_ok [sample_program].
Proof.
  split; [|cbn; lia]. apply Forall_cons_2; [|apply Forall_nil_2].
  apply Nat.leb_le. vm_compute. reflexivity.
Qed.
Lemma chunk_packet_parses :
  from_bytes Chunk (le_bytes 4 0 ++ sample_program) = Ok (MChunk 0 sample_program).
Proof. vm_compute. reflexivity. Qed.
Lemma sample_honest : Forall (honest [sample_program]) [EvBeat (tick 5); chunk_packet; chunk_packet].
Proof.
  assert (honest [sample_program] chunk_packet) as Hp.
  { split; [decide_now|]. intros k bs chunk _. rewrite chunk_packet_parses.
    intros [= Hk <-] Hch. replace k with 0%nat in Hch by lia. by injection Hch. }
  apply Forall_cons_2; [exact I|]. repeat (apply Forall_cons_2; [exact Hp|]). apply Forall_nil_2.
Qed.
Lemma sample_v2_ok s :
  match s with AckMetadata md => load_ok md | _ => True end -> v2_ok (sample_session s).
Proof. intros. split; cbn [sample_session v2_st v2_baud v2_remainder]; [done|lia|unfold INPUT_SIZE; lia]. Qed.
Lemma upload_metadata_ok : load_ok upload_metadata.
Proof.
  assert (u32 (inflated_crc upload_metadata)) as Hc by (apply (wrap_fits 32); lia).
  unfold load_ok, metadata_ok. cbn [upload_metadata format_details deflated_crc deflated_len
    inflated_len details_ok] in *.
  split_and!; try (unfold fits; lia); [exact Hc|reflexivity].
Qed.


Lemma sample_transferring :
  transferring [sample_program] sample_program sample_loader (fun _ => 0) 0
    (sample_session (RequestChunk 0 1 sample_loader)) demo_device.
Proof.
  split; [by apply sample_v2_ok|exact demo_device_ok|cbn; lia| |done].
  exists sample_loader. split; [done|]. by exists [], sample_program.
Qed.

Lemma chunk_progress_witness :
  exists v' d' s,
    v2_handle_packet (P := unit) (MkHeader Chunk 12) (le_bytes 4 0 ++ sample_program)
      (sample_session (RequestChunk 0 1 sample_loader)) demo_device = Val (v', d', s) /\
    exists r, delivered sample_program sample_loader (fun _ => 0) (dv_memory d') r.
Proof.
  destruct (chunk_progress (P := unit) [sample_program] sample_program sample_loader (fun _ => 0) 0
    (sample_session (RequestChunk 0 1 sample_loader)) demo_device sample_program
    (MkHeader Chunk 12) (le_bytes 4 0 ++ sample_program) sample_chunks_ok sample_transferring
    eq_refl eq_refl chunk_packet_parses) as [_ (v' & d' & s & Hr & Hend)].
  exists v', d', s. split; [exact Hr|]. destruct Hend as [[Htr _]|(r & _ & Hdel & _)].
  - destruct Htr as [_ _ Hk _ _]. cbn in Hk. lia.
  - exists r. exact Hdel.
Defined.

Lemma upload_boots_witness :
  exists v' d' s,
    v2_run (P := unit) [EvBeat (tick 5); chunk_packet; chunk_packet]
      (sample_session (RequestChunk 0 1 sample_loader)) demo_device = Val (v', d', s) /\
    match s with
    | Entered m e =>
      e = 0x8000 /\ crc32_hash (mem_read m e 8) = crc32_hash [1; 2; 3; 4; 5; 6; 7; 8]
    | Unfinished | Abcon | Switch _ => False
    | _ => True
    end.
Proof.
  apply (upload_boots (P := unit) [sample_program] sample_program upload_metadata 0x8000
    (fun _ => 0) 0 (sample_session (RequestChunk 0 1 sample_loader)) demo_device
    [EvBeat (tick 5); chunk_packet; chunk_packet]).
  - exact sample_chunks_ok.
  - exact sample_transferring.
  - exact sample_honest.
  - split; cbn; lia.
  - cbn; lia.
  - reflexivity.
Defined.
