(* ===== verification/Handshake.v ===== *)
(** The handshake, and the protocol the receive loop runs: [Handshake] of
    [device/okboot/src/protocol/handshake.rs] and [ProtocolEnum] of
    [device/okboot/src/protocol.rs]. *)
From Stdlib Require Import String.
From S2P Require Import Prelude Words Messages Crc Encode Decode Cobs Framing Postcard.
From S2P Require Import TransmitBuf FrameSink Timing Relocation Device Receiver ElfLoader V2.

Module Handshake.

Inductive Expecting : Type := ExpectProbe | ExpectVersion.
#[export] Instance Expecting_eq_dec : EqDecision Expecting.
Proof. solve_decision. Defined.

Record handshake : Type := MkHandshake { expecting : Expecting }.
Definition handshake_default : handshake := MkHandshake ExpectProbe.

Definition SUPPORTED_PROTOCOL_VERSIONS : list Z := [supported_protocol_to_u32 Messages.V2].

Section with_libraries.
Context `{Crc, Postcard, Render, ElfParse, Inflate, Machine}.

(** [ProtocolEnum] *)
Inductive ProtocolEnum : Type :=
  | PHandshake (h : handshake)
  | PV2 (v : v2).

Definition status : Type := ProtocolStatus ProtocolEnum.

(** A line, then an answer. *)
Definition say_then (text : string) (args : list Z) (s : status) (h : handshake) (d : device)
  : run (handshake * device * status) :=
  d ← say_legacy text args d;
  Val (h, d, s).

Definition handle_probe (h : handshake) (d : device) : run (handshake * device * status) :=
  match expecting h with
  | ExpectVersion =>
    say_then "[device]: received Handshake/Probe, expected Handshake/UseVersion" [] Abcon h d
  | ExpectProbe =>
    d ← say_legacy "[device]: Received Handshake/Probe" [] d;
    let h := MkHandshake ExpectVersion in
    '(d, r) ← dev_send (MAllowedVersions (allowed_versions_new SUPPORTED_PROTOCOL_VERSIONS)) d;
    match r with
    | Err _ => say_then "[device]: failed to send Handshake/AllowedVersions: {}" [] Abcon h d
    | Ok _ => say_then "[device]: sent Handshake/AllowedVersions" [] Continue h d
    end
  end.

(** The baud rate changes: what waits is flushed at the old rate, the divider
    is written and read back; the event is the divider that stays. *)
Definition switch_baud (i : io) (version : Z) (p : SupportedProtocol) (h : handshake) (d : device)
  : run (handshake * device * status) :=
  let baud := protocol_baud_rate p in
  divider ← baud_to_clock_divider baud;
  d ← say_legacy "[device]: setting baud rate to: {}Bd, divider={}" [baud; divider] d;
  d ← flush_to_fifo d;
  let '(set, ok) := mini_uart1_set_clock (io_readback i) (io_divider i) divider in
  let d := uart_write (UartDivider set) d in
  if negb ok then
    say_then "[device]: setting baud rate failed (divider readback failed)" [] Abend h d
  else
    d ← say_legacy "[device:v{}]: set baud rate to: {}Bd, divider={}" [version; baud; divider] d;
    d ← say "[device:v{}]: transitioned baud rate!" [version] d;
    v ← v2_new (io_clock i clk_switch) baud;
    Val (h, d, Switch (PV2 v)).

Definition handle_use_version (i : io) (payload : list Z) (h : handshake) (d : device)
  : run (handshake * device * status) :=
  match expecting h with
  | ExpectProbe =>
    say_then "[device]: received Handshake/UseVersion, expected Handshake/Probe" [] Abend h d
  | ExpectVersion =>
    d ← say_legacy "[device]: received Handshake/UseVersion" [] d;
    match from_bytes UseVersion payload with
    | Ok (MUseVersion version) =>
      match supported_protocol_try_from version with
      | Err _ =>
        say_then "[device]: Handshake/UseVersion: unsupported version number: {}" [version] Abend h d
      | Ok p => switch_baud i version p h d
      end
    | _ =>
      say_then "[device]: failed to receive Handshake/UseVersion: deserialization error: {}" []
        Abend h d
    end
  end.

(** [Handshake::handle_packet] *)
Definition handshake_handle_packet (i : io) (fh : FrameHeader) (payload : list Z) (h : handshake)
  (d : device) : run (handshake * device * status) :=
  match message_type fh with
  | Probe => handle_probe h d
  | UseVersion => handle_use_version i payload h d
  | _ =>
    say_then "[device]: in Handshake protocol, unexpected message type: {:?}"
      [message_type_to_u32 (message_type fh)] Abend h d
  end.

(** The dispatch of [ProtocolEnum]. *)
#[export] Instance okboot_protocol : Protocol ProtocolEnum := {|
  protocol_default := PHandshake handshake_default;
  handle_packet i fh payload p d :=
    match p with
    | PHandshake h =>
      '(h, d, s) ← handshake_handle_packet i fh payload h d; Val (PHandshake h, d, s)
    | PV2 v => '(v, d, s) ← v2_handle_packet fh payload v d; Val (PV2 v, d, s)
    end;
  heartbeat i p d :=
    match p with
    | PHandshake h => Val (PHandshake h, d, Continue)
    | PV2 v => '(v, d, s) ← v2_beat i v d; Val (PV2 v, d, s)
    end;
|}.
End with_libraries.
End Handshake.
Export Handshake.

(** ** The laws of the interface *)

Section laws.
Context `{CrcLaws, PostcardLaws, RenderLaws, ElfParse, InflateLaws, Machine}.
Implicit Types (d : device) (h : handshake).

Definition okboot_inv (p : ProtocolEnum) : Prop :=
  match p with PHandshake _ => True | PV2 v => v2_ok v end.
Definition okboot_accepts (p : ProtocolEnum) (fh : FrameHeader) (payload : list Z) : Prop :=
  match p with PHandshake _ => True | PV2 v => v2_accepts v fh payload end.

(** A handshake step that stays in the handshake. *)
Definition no_switch (s : status) : Prop :=
  match s with Switch _ | Entered _ _ | Unfinished => False | _ => True end.
Definition step_plain (r : run (handshake * device * status)) : Prop :=
  exists h' d' s, r = Val (h', d', s) /\ device_ok d' /\ no_switch s.

Lemma say_then_plain text args s h d :
  device_ok d -> no_switch s -> step_plain (say_then text args s h d).
Proof.
  intros Hd Hs. unfold say_then. destruct (say_legacy_quiet text args d Hd) as (d' & -> & Q).
  rewrite run_bind_Val. exists h, d', s. split; [done|]. split; [apply Q|done].
Qed.

Lemma handle_probe_plain h d : device_ok d -> step_plain (handle_probe h d).
Proof.
  intros Hd. unfold handle_probe. destruct (expecting h); [|by apply say_then_plain].
  edestruct say_legacy_quiet as (d1 & -> & Q1); [exact Hd|]. rewrite run_bind_Val.
  destruct (dev_send_quiet (MAllowedVersions (allowed_versions_new SUPPORTED_PROTOCOL_VERSIONS)) d1)
    as (d2 & r & -> & Q2); [apply Q1|cbn; decide_now|]. rewrite run_bind_Val.
  destruct r; (apply say_then_plain; [apply Q2|done]).
Qed.

Lemma v2_parameters :
  baud_to_clock_divider 1500000 = Val 19 /\ exists t, v1_timeouts_new_8n1 1500000 = Val t.
Proof. split; [vm_compute; reflexivity|]. eexists. vm_compute. reflexivity. Qed.

(** A successful switch: the new divider is the last one written. *)
Definition switched (i : io) d d' (s : status) : Prop :=
  exists t sent,
    s = Switch (PV2 (MkV2 RequestMetadata true false (io_clock i clk_switch) 1500000 t inflate_new 0)) /\
    v1_timeouts_new_8n1 1500000 = Val t /\
    dv_uart d' = dv_uart d ++ map UartTx sent ++ [UartDivider 19].

(** Printing does not touch the UART. *)
Lemma say_legacy_uart text args d d' : say_legacy text args d = Val d' -> dv_uart d' = dv_uart d.
Proof.
  unfold say_legacy. destruct (legacy_print_string _ _) as [[t r]|]; [|done].
  rewrite run_bind_Val. by intros [= <-].
Qed.
Lemma say_uart text args d d' : say text args d = Val d' -> dv_uart d' = dv_uart d.
Proof.
  unfold say. destruct (rpc_println _ _) as [[t r]|]; [|done].
  rewrite run_bind_Val. by intros [= <-].
Qed.
Lemma flush_loop_uart fuel d d' :
  flush_loop fuel d = Val d' -> exists sent, dv_uart d' = dv_uart d ++ map UartTx sent.
Proof.
  revert d. induction fuel as [|fuel IH]; intros d; cbn [flush_loop].
  - intros [= <-]. exists []. by rewrite app_nil_r.
  - destruct (shift_byte _) as [[t [b|]]|]; [| |done]; rewrite run_bind_Val.
    + intros Hf. destruct (IH _ Hf) as [sent Hs]. exists (b :: sent).
      rewrite Hs. cbn. by rewrite <- app_assoc.
    + intros [= <-]. exists []. by rewrite app_nil_r.
Qed.

Lemma switch_baud_spec i version h d :
  device_ok d ->
  exists h' d' s, switch_baud i version Messages.V2 h d = Val (h', d', s) /\ device_ok d' /\
    if io_readback i 19 =? 19 then switched i d d' s else no_switch s.
Proof.
  intros Hd. unfold switch_baud. cbn [protocol_baud_rate]. change BAUD_RATE with 1500000.
  destruct v2_parameters as (-> & t & Ht). rewrite run_bind_Val.
  destruct (say_legacy_quiet "[device]: setting baud rate to: {}Bd, divider={}" [1500000; 19] d Hd)
    as (d1 & E1 & Q1). rewrite E1, run_bind_Val.
  destruct (flush_to_fifo_quiet d1 (qu_ok _ _ Q1)) as (d2 & E2 & Q2). rewrite E2, run_bind_Val.
  unfold mini_uart1_set_clock. destruct (Z.eqb_spec (io_readback i 19) 19) as [Hrb|Hrb]; cbn [negb].
  - set (d3 := uart_write _ d2).
    assert (device_ok d3) as Hd3 by (apply uart_write_quiet, Q2).
    destruct (say_legacy_quiet "[device:v{}]: set baud rate to: {}Bd, divider={}"
      [version; 1500000; 19] d3 Hd3) as (d4 & E4 & Q4). rewrite E4, run_bind_Val.
    destruct (say_quiet "[device:v{}]: transitioned baud rate!" [version] d4 (qu_ok _ _ Q4))
      as (d5 & E5 & Q5). rewrite E5, run_bind_Val.
    unfold v2_new. rewrite Ht, !run_bind_Val. eexists _, _, _. split; [done|]. split; [apply Q5|].
    destruct (flush_loop_uart _ _ _ E2) as [sent Hs]. exists t, sent. split_and!; try done.
    rewrite (say_uart _ _ _ _ E5), (say_legacy_uart _ _ _ _ E4). unfold d3.
    cbn [uart_write dv_uart]. by rewrite Hs, (say_legacy_uart _ _ _ _ E1), app_assoc.
  - apply say_then_plain; [apply uart_write_quiet, Q2|done].
Qed.

Lemma v2_new_ok now baud t : 10 <= baud ->
  v2_ok (MkV2 RequestMetadata true false now baud t inflate_new 0).
Proof. intros. split; cbn; [done|done|unfold INPUT_SIZE; lia]. Qed.

(** What it takes to leave the handshake. *)
Definition version_ok (i : io) (payload : list Z) h : Prop :=
  expecting h = ExpectVersion /\ from_bytes UseVersion payload = Ok (MUseVersion 2) /\
  io_readback i 19 = 19.

Lemma supported_protocol_spec v :
  supported_protocol_try_from v = if decide (v = 2) then Ok Messages.V2 else Err v.
Proof.
  case_decide as Hv; [by subst|]. destruct v as [|p|]; [done| |done].
  destruct p as [p|[p|p|]|]; done.
Qed.

Lemma handle_use_version_spec i payload h d :
  device_ok d ->
  exists h' d' s, handle_use_version i payload h d = Val (h', d', s) /\ device_ok d' /\
    (version_ok i payload h /\ switched i d d' s \/ ~ version_ok i payload h /\ no_switch s).
Proof.
  intros Hd. unfold handle_use_version.
  assert (forall r, step_plain r -> ~ version_ok i payload h ->
    exists h' d' s, r = Val (h', d', s) /\ device_ok d' /\
    (version_ok i payload h /\ switched i d d' s \/ ~ version_ok i payload h /\ no_switch s)) as Hno.
  { intros r (h' & d' & s & -> & ? & ?) ?. exists h', d', s. auto. }
  destruct (expecting h) eqn:He.
  { apply Hno; [by apply say_then_plain|]. intros (? & _). congruence. }
  destruct (say_legacy_quiet "[device]: received Handshake/UseVersion" [] d Hd) as (d1 & E1 & Q1).
  rewrite E1, run_bind_Val.
  destruct (from_bytes UseVersion payload) as [m|] eqn:Hm.
  2: { apply Hno; [apply say_then_plain; [apply Q1|done]|]. intros (_ & ? & _). congruence. }
  destruct (decide (m = MUseVersion 2)) as [->|Hne].
  - rewrite supported_protocol_spec, decide_True by done.
    destruct (switch_baud_spec i 2 h d1 (qu_ok _ _ Q1)) as (h' & d' & s & -> & Hd' & Hs).
    exists h', d', s. split; [done|]. split; [done|].
    destruct (Z.eqb_spec (io_readback i 19) 19);
      [left; split; [done|]|right; split; [by intros (_ & _ & ?)|done]].
    destruct Hs as (t & sent & ? & ? & Hu). exists t, sent.
    by rewrite Hu, (say_legacy_uart _ _ _ _ E1).
  - assert (~ version_ok i payload h) as Hnv by (intros (_ & ? & _); congruence).
    destruct m; try (apply Hno; [apply say_then_plain; [apply Q1|done]|exact Hnv]).
    rewrite supported_protocol_spec, decide_False by congruence.
    apply Hno; [apply say_then_plain; [apply Q1|done]|exact Hnv].
Qed.

Lemma handshake_spec i fh payload h d :
  device_ok d ->
  exists h' d' s, handshake_handle_packet i fh payload h d = Val (h', d', s) /\ device_ok d' /\
    (message_type fh = UseVersion /\ version_ok i payload h /\ switched i d d' s \/
     ~ (message_type fh = UseVersion /\ version_ok i payload h) /\ no_switch s).
Proof.
  intros Hd.
  assert (forall r, step_plain r -> message_type fh <> UseVersion ->
    exists h' d' s, r = Val (h', d', s) /\ device_ok d' /\
    (message_type fh = UseVersion /\ version_ok i payload h /\ switched i d d' s \/
     ~ (message_type fh = UseVersion /\ version_ok i payload h) /\ no_switch s)) as Hno.
  { intros r (h' & d' & s & -> & ? & ?) Hne. exists h', d', s. split; [done|]. split; [done|].
    right. by split; [intros [? _]|]. }
  unfold handshake_handle_packet.
  destruct (message_type fh) eqn:Ht; try (by apply Hno; [apply say_then_plain|]).
  - by apply Hno; [apply handle_probe_plain|].
  - destruct (handle_use_version_spec i payload h d Hd) as (h' & d' & s & -> & ? & [[??]|[??]]);
      exists h', d', s; (split; [done|]); (split; [done|]); [by left|right].
    split; [by intros [_ ?]|done].
Qed.

#[export] Instance okboot_laws : ProtocolLaws ProtocolEnum okboot_inv okboot_accepts.
Proof.
  split.
  - done.
  - intros i fh payload p d Hp Hd Hb. destruct p as [h|v]; cbn [handle_packet okboot_protocol].
    + destruct (handshake_spec i fh payload h d Hd) as (h' & d' & s & -> & Hd' & Hs).
      rewrite run_bind_Val. split; [done|]. split; [done|].
      destruct Hs as [(_ & _ & t & sent & -> & _)|[_ Hs]]; [apply v2_new_ok; lia|by destruct s].
    + pose proof (v2_handle_packet_sound (P := ProtocolEnum) fh payload v d Hp Hd Hb) as Hs.
      destruct (v2_handle_packet fh payload v d) as [[[v' d'] s]|]; rewrite ?run_bind_Val; [|done].
      destruct Hs as (? & ? & ?). split; [done|]. split; [done|]. by destruct s.
  - intros i p d Hp Hd. destruct p as [h|v]; cbn [heartbeat okboot_protocol].
    + by exists (PHandshake h), d, Continue.
    + destruct (v2_beat_spec (P := ProtocolEnum) i v d Hp Hd)
        as (v' & d' & s & -> & Q & E1 & E2 & E3 & E4).
      rewrite run_bind_Val. exists (PV2 v'), d', s. split; [done|]. split.
      { destruct Hp. split; by rewrite ?E1, ?E2, ?E3. }
      split; [apply Q|]. intros fh payload Hacc which count l chunk.
      rewrite E1, E3. apply Hacc.
Qed.
End laws.

(** ** The claims *)

(** C8: the boot loader's receive loop, with the handshake and protocol V2, can
    panic in one way only: while V2 waits for a chunk, a complete frame is
    there that carries this chunk and overflows the 0x2000 bytes of the
    inflater's input.  Nothing else that arrives, in whatever timing, panics. *)
Theorem okboot_loop_safe `{CrcLaws, PostcardLaws, RenderLaws, ElfParse, InflateLaws, Machine}
    now m ios :
  Forall io_ok ios ->
  exists st : loop_state (P := ProtocolEnum), run_start now m = Val st /\
    match loop_run ios st with
    | Val (Running st') => loop_ok okboot_inv st'
    | Val _ => True
    | Panic => exists ios1 i ios2 st' v which count l chunk,
        ios = ios1 ++ i :: ios2 /\ loop_run ios1 st = Val (Running st') /\
        ls_protocol st' = PV2 v /\ v2_st v = RequestChunk which count l /\
        from_bytes Chunk (rx_received (ls_rx st')) = Ok (MChunk which chunk) /\
        (INPUT_SIZE < length chunk + v2_remainder v)%nat
    end.
Proof.
  intros Hios. destruct (run_start_fresh (P := ProtocolEnum) now m) as (d & Hr & Hd & _).
  pose proof (fresh_loop_ok okboot_inv okboot_accepts d (Z.to_nat 0x10000) now Hd) as Hst.
  generalize dependent (fresh_loop (P := ProtocolEnum) d (Z.to_nat 0x10000) now).
  intros st Hr Hst. exists st. split; [exact Hr|].
  pose proof (loop_run_fine okboot_inv okboot_accepts ios _ Hst Hios) as Hrun.
  destruct (loop_run ios st) as [[st'|d'|m' e|]|]; [exact Hrun|exact I|exact I|exact I|].
  destruct Hrun as (ios1 & i & ios2 & st' & -> & Hrun & h & Hh & Hno).
  destruct (ls_protocol st') as [hs|v] eqn:Hp; [by destruct Hno|]. cbn in Hno.
  assert (exists which count l chunk, v2_st v = RequestChunk which count l /\
    from_bytes Chunk (rx_received (ls_rx st')) = Ok (MChunk which chunk) /\
    (INPUT_SIZE < length chunk + v2_remainder v)%nat) as (which & count & l & chunk & E1 & E2 & E3).
  { destruct (v2_st v) as [| |which count l|] eqn:Hs; try (by destruct Hno; intros ????; congruence).
    destruct (from_bytes Chunk (rx_received (ls_rx st'))) as [[| | | |c bs| | | | | |]|] eqn:Hm;
      try (by destruct Hno; intros ????; congruence).
    destruct (decide (c = which)) as [->|Hne].
    2: { destruct Hno. intros ???? E1 _ E2. congruence. }
    exists which, count, l, bs. split; [done|]. split; [done|].
    destruct (decide (length bs + v2_remainder v <= INPUT_SIZE)%nat); [|lia].
    destruct Hno. intros ???? E1 _ E2. congruence. }
  exists ios1, i, ios2, st', v, which, count, l, chunk.
  exact (conj eq_refl (conj Hrun (conj Hp (conj E1 (conj E2 E3))))).
Qed.

(** The handshake hands over to protocol V2 exactly when a version is
    expected, a [UseVersion] of version 2 arrives and the new divider, 19, can
    be read back; then what waited was sent, the divider is set, and V2 starts
    by asking for metadata. *)
Theorem handshake_switch `{CrcLaws, PostcardLaws, RenderLaws, ElfParse, InflateLaws, Machine}
    i fh payload h d :
  device_ok d ->
  exists h' d' s, handshake_handle_packet i fh payload h d = Val (h', d', s) /\
    ((exists p, s = Switch p) <->
     expecting h = ExpectVersion /\ message_type fh = UseVersion /\
     from_bytes UseVersion payload = Ok (MUseVersion 2) /\ io_readback i 19 = 19) /\
    forall p, s = Switch p -> exists t sent,
      p = PV2 (MkV2 RequestMetadata true false (io_clock i clk_switch) 1500000 t inflate_new 0) /\
      v1_timeouts_new_8n1 1500000 = Val t /\
      dv_uart d' = dv_uart d ++ map UartTx sent ++ [UartDivider 19].
Proof.
  intros Hd. destruct (handshake_spec i fh payload h d Hd) as (h' & d' & s & Hr & _ & Hs).
  exists h', d', s. split; [exact Hr|]. destruct Hs as [(Ht & (H1' & H2' & H3') & t & sent & -> & Hsw)|[Hno Hs]].
  - split; [split; [done|by eexists]|]. intros p [= <-]. by exists t, sent.
  - assert (forall p, s <> Switch p) as Hns by (by intros p ->).
    split; [|intros p Hp; by destruct (Hns p)].
    split; [intros [p Hp]; by destruct (Hns p)|]. intros (? & ? & ? & ?). by destruct Hno.
Qed.

(** ** Witnesses *)

Lemma okboot_loop_safe_witness :
  exists st : loop_state (P := ProtocolEnum), run_start 0 (fun _ => 0) = Val st /\
    match loop_run [tock 1 0x55; tick 2] st with
    | Val (Running st') => loop_ok okboot_inv st'
    | Val _ => True
    | Panic => exists ios1 i ios2 st' v which count l chunk,
        [tock 1 0x55; tick 2] = ios1 ++ i :: ios2 /\ loop_run ios1 st = Val (Running st') /\
        ls_protocol st' = PV2 v /\ v2_st v = RequestChunk which count l /\
        from_bytes Chunk (rx_received (ls_rx st')) = Ok (MChunk which chunk) /\
        (INPUT_SIZE < length chunk + v2_remainder v)%nat
    end.
Proof.
  apply (okboot_loop_safe 0 (fun _ => 0) [tock 1 0x55; tick 2]).
  apply Forall_cons_2; [cbn; unfold fits; lia|]. apply Forall_cons_2; [exact I|apply Forall_nil_2].
Defined.

Lemma handshake_switch_witness :
  exists h' d' p,
    handshake_handle_packet (tick 3) (MkHeader UseVersion 4) (le_bytes 4 2)
      (MkHandshake ExpectVersion) demo_device = Val (h', d', Switch p).
Proof.
  destruct (handshake_switch (tick 3) (MkHeader UseVersion 4) (le_bytes 4 2)
    (MkHandshake ExpectVersion) demo_device demo_device_ok) as (h' & d' & s & Hr & [_ Hs] & _).
  destruct Hs as [p Hp].
  - split; [reflexivity|]. split; [reflexivity|]. split; [vm_compute; reflexivity|reflexivity].
  - exists h', d', p. rewrite <- Hp. exact Hr.
Defined.
