(* ===== verification/Legacy.v ===== *)
(** The legacy download of the boot loader: [perform_download] of
    [device/okboot/src/legacy.rs], the bounded print buffer of
    [legacy/fmt.rs], and the word-wise UART access of [legacy/uart1.rs].

    The UART is the list of bytes that arrive and the list of bytes that were
    written; a blocking read waits for the next byte, so a run that needs more
    bytes than the list has is a run that waits, [Waits]. *)
From Stdlib Require Import String.
From S2P Require Import Prelude Words Messages Crc Relocation.
Import su_boot.

Module LegacyFmt.

(** ** [FixedArrayBuffer] *)

(** A text is the list of its characters, each its UTF-8 encoding. *)
Record fixed_array_buffer : Type := MkFixed {
  fab_inner : list Z;
  fab_curs : nat;
  fab_truncated : bool;
}.
Definition fab_new (n : nat) : fixed_array_buffer := MkFixed (replicate n 0) 0 false.
Definition fab_clear (b : fixed_array_buffer) : fixed_array_buffer :=
  MkFixed (replicate (length (fab_inner b)) 0) 0 false.
Definition fab_as_str (b : fixed_array_buffer) : run (list Z) :=
  slice_range (fab_inner b) 0 (fab_curs b).

(** ["<truncated>"] *)
Definition TRUNCATION_NOTICE : list Z :=
  [0x3c; 0x74; 0x72; 0x75; 0x6e; 0x63; 0x61; 0x74; 0x65; 0x64; 0x3e].

(** Bytes at the cursor. *)
Definition fab_put (b : fixed_array_buffer) (bs : list Z) (truncated : bool)
  : run fixed_array_buffer :=
  inner ← slice_copy (fab_inner b) (fab_curs b) (fab_curs b + length bs) bs;
  Val (MkFixed inner (fab_curs b + length bs) truncated).

(** The loop of [write_str] over the characters. *)
Fixpoint fab_chars (b : fixed_array_buffer) (s : list (list Z)) : run fixed_array_buffer :=
  match s with
  | [] => Val b
  | enc :: s =>
    if decide (length (fab_inner b) - length TRUNCATION_NOTICE <= fab_curs b + length enc)%nat
    then fab_put b TRUNCATION_NOTICE true
    else b ← fab_put b enc (fab_truncated b); fab_chars b s
  end.
Definition fab_write_str (b : fixed_array_buffer) (s : list (list Z)) : run fixed_array_buffer :=
  if fab_truncated b then Val b else fab_chars b s.

(** [write!]: one [write_str] per piece. *)
Fixpoint fab_write_pieces (b : fixed_array_buffer) (pieces : list (list (list Z)))
  : run fixed_array_buffer :=
  match pieces with
  | [] => Val b
  | s :: pieces => b ← fab_write_str b s; fab_write_pieces b pieces
  end.

(** [BOOT_UMSG_BUF] *)
Definition BOOT_UMSG_BUF_SIZE : nat := 256.

(** ** Writing *)

(** [uart1_write32], the bytes it writes. *)
Definition uart1_write32 (x : Z) : list Z := u32_to_le_bytes x.

(** [UartWrite::write_str] *)
Definition uart_write_str (s : list Z) : list Z :=
  uart1_write32 (command_to_u32 CmdPrintString) ++
  uart1_write32 (wrap 32 (Z.of_nat (length s))) ++ s.

(** [legacy_print_string_blocking!]: the bytes it writes. *)
Definition print_blocking (pieces : list (list (list Z))) : run (list Z) :=
  b ← fab_write_pieces (fab_clear (fab_new BOOT_UMSG_BUF_SIZE)) pieces;
  s ← fab_as_str b;
  Val (uart_write_str s).
End LegacyFmt.
Export LegacyFmt.

(** ** The download *)

(** The pieces of a line, as characters, from its format string and its numeric
    arguments. *)
Class RenderChars := render_chars : string -> list Z -> list (list (list Z)).

Module Legacy.

(** [uart1_read32_blocking] *)
Definition uart1_read32 (input : list Z) : option (Z * list Z) :=
  if decide (4 <= length input)%nat then Some (u32_from_le_bytes (take 4 input), drop 4 input)
  else None.

(** The lines of a message, one after the other. *)
Fixpoint print_lines `{RenderChars} (lines : list (string * list Z)) : run (list Z) :=
  match lines with
  | [] => Val []
  | (text, args) :: lines =>
    o ← print_blocking (render_chars text args);
    os ← print_lines lines;
    Val (o ++ os)
  end.

Inductive put_code_state : Type := CLR | PC1 | PC2 | PC3 | PutCodeSeen.
Definition put_code_step (s : put_code_state) (byte : Z) : put_code_state :=
  match s, byte with
  | CLR, 0x88 => PC1
  | PC1, 0x88 => PC2
  | PC2, 0x77 => PC3
  | PC3, 0x77 => PutCodeSeen
  | _, _ => CLR
  end.
Fixpoint wait_put_code (s : put_code_state) (input : list Z) : option (list Z) :=
  match input with
  | [] => None
  | b :: input =>
    match put_code_step s b with
    | PutCodeSeen => Some input
    | s => wait_put_code s input
    end
  end.

(** [write_bytes_from_uart] *)
Definition write_bytes_from_uart (n : nat) (to_addr : Z) (input : list Z) (m : memory)
  : option (list Z * memory) :=
  if decide (n <= length input)%nat then Some (drop n input, mem_write m to_addr (take n input))
  else None.

(** Where the program and the stub go, in [u32] arithmetic. *)
Record placement : Type := MkPlacement {
  pc_relocate : bool;
  prog_from : Z;
  prog_len : Z;
  prog_to : Z;
  stub_to : Z;
}.
Definition place (self_end addr len : Z) : placement :=
  let prog_end := wrap 32 (addr + len) in
  if addr <? self_end then
    let n := Z.min (wrap 32 (self_end - addr)) len in
    let to := Z.max prog_end self_end in
    MkPlacement true addr n to (wrap 32 (to + n))
  else MkPlacement false 0 0 0 0.

(** The program comes in: the rest of the input, the memory, the CRC of what
    was written. *)
Definition receive_program `{Crc} (p : placement) (addr len : Z) (input : list Z) (m : memory)
  : option (list Z * memory * Z) :=
  if pc_relocate p then
    let stationary := Z.to_nat (wrap 32 (len - prog_len p)) in
    let stationary_ptr := prog_to p + prog_len p in
    '(input, m) ← write_bytes_from_uart (Z.to_nat (prog_len p)) (prog_to p) input m;
    '(input, m) ← write_bytes_from_uart stationary stationary_ptr input m;
    let h := hasher_update hasher_new (mem_read m (prog_to p) (Z.to_nat (prog_len p))) in
    let h := hasher_update h (mem_read m stationary_ptr stationary) in
    Some (input, m, hasher_finalize h)
  else
    '(input, m) ← write_bytes_from_uart (Z.to_nat len) addr input m;
    Some (input, m, crc32_hash (mem_read m addr (Z.to_nat len))).

(** [relocate_stub_inner]: the stub is copied and run. *)
Definition relocate_stub (p : placement) (stub : list Z) (m : memory) : option memory :=
  relocation_stub 3 (mem_write m (stub_to p) stub) (prog_from p) (prog_to p) (prog_len p).

(** How a download ends, with the bytes written before; [Stuck] when the stub
    never ends. *)
Inductive download_end : Type :=
  | Waits (out : list Z)
  | BootFailed (out : list Z) (rest : list Z) (m : memory)
  | Booted (out : list Z) (m : memory) (entry : Z)
  | Stuck (out : list Z).

Definition line (text : string) (args : list Z) : string * list Z := (text, args).

Definition header_lines (p : placement) (addr len crc : Z) : list (string * list Z) :=
  [line "[theseus-device]: host is not THESEUS-compatible; switching to legacy SU-BOOT compatibility mode." [];
   line "[theseus-device]: received PUT_PROGRAM_INFO: addr={addr:#010x} len={len} crc32={crc:#010x}" [addr; len; crc];
   line "[theseus-device]: relocation configuration:" [];
   line "\tRelocate: {}" [if pc_relocate p then 1 else 0]] ++
  (if pc_relocate p then
    [line "\tTarget: [{:#010x}..{:#010x}] to [{:#010x}..{:#010x}]"
      [prog_from p; wrap 32 (prog_from p + prog_len p); prog_to p; wrap 32 (prog_to p + prog_len p)];
     line "\tStub: [{:#010x}]" [stub_to p];
     line "\tSize: {}/{} KiB" [wrap 32 (prog_len p + 1023) / 1024; wrap 32 (len + 1023) / 1024]]
   else []).

Definition stub_lines (p : placement) (addr : Z) (stub : list Z) : list (string * list Z) :=
  [line "[theseus-device]: relocation_stub parameters:" [];
   line "\tstub_dst={stub_dst:#?}" [stub_to p];
   line "\tstub_loc={stub_begin:#?}" [];
   line "\tstub_len={stub_len} bytes" [Z.of_nat (length stub)];
   line "\tprog_dst={prog_dst:#?}" [prog_from p];
   line "\tprog_src={prog_src:#?}" [prog_to p];
   line "\tprog_len={prog_len} bytes" [prog_len p];
   line "\tentry={entry:#?}" [addr];
   line "[theseus-device]: loaded relocation-stub, jumping to relocated stub." []].

Definition crc_line (verify crc : Z) : list (string * list Z) :=
  [line "[theseus-device]: received program, calculated CRC32 is {:#010x}, expected {:#010x}: {}" [verify; crc; if verify =? crc then 1 else 0]].

(** [perform_download] after the header has been read. *)
Definition download_program `{Crc, RenderChars} (self_end : Z) (stub : list Z)
  (addr len crc : Z) (input : list Z) (m : memory) : run download_end :=
  let p := place self_end addr len in
  out ← print_lines (header_lines p addr len crc);
  let out := out ++ uart1_write32 (command_to_u32 GetCode) ++ uart1_write32 crc in
  match wait_put_code CLR input with
  | None => Val (Waits out)
  | Some input =>
    match receive_program p addr len input m with
    | None => Val (Waits out)
    | Some (input, m, verify) =>
      o ← print_lines (crc_line verify crc);
      let out := out ++ o in
      if negb (verify =? crc) then
        o ← print_lines [line "[theseus-device]: fatal CRC mismatch, rebooting" []];
        Val (BootFailed (out ++ o ++ uart1_write32 (command_to_u32 BootError)) input m)
      else
        o ← print_lines (stub_lines p addr stub);
        let out := out ++ o ++ uart1_write32 (command_to_u32 BootSuccess) in
        Val (match relocate_stub p stub m with
             | Some m => Booted out m addr
             | None => Stuck out
             end)
    end
  end.

(** [perform_download] *)
Definition perform_download `{Crc, RenderChars} (self_end : Z) (stub : list Z)
  (input : list Z) (m : memory) : run download_end :=
  match uart1_read32 input with
  | None => Val (Waits [])
  | Some (addr, input) =>
    match uart1_read32 input with
    | None => Val (Waits [])
    | Some (len, input) =>
      match uart1_read32 input with
      | None => Val (Waits [])
      | Some (crc, input) => download_program self_end stub addr len crc input m
      end
    end
  end.
End Legacy.
Export Legacy.

(** ** The bounded buffer *)

Section fixed_buffer.
Implicit Types (b : fixed_array_buffer) (s : list (list Z)).

(** What a text leaves in a buffer of [n] bytes that holds [t]: all of it, or
    its longest prefix of whole characters that leaves room, and the notice. *)
Fixpoint bounded (n : nat) (t : list Z) (s : list (list Z)) : list Z * bool :=
  match s with
  | [] => (t, false)
  | enc :: s =>
    if decide (n - length TRUNCATION_NOTICE <= length t + length enc)%nat
    then (t ++ TRUNCATION_NOTICE, true)
    else bounded n (t ++ enc) s
  end.

(** The text in a buffer; room for the notice until it is there. *)
Record holds (n : nat) b (t : list Z) : Prop := {
  hd_size : length (fab_inner b) = n;
  hd_text : take (fab_curs b) (fab_inner b) = t;
  hd_curs : (fab_curs b <= n)%nat;
  hd_room : fab_truncated b = false -> (fab_curs b + length TRUNCATION_NOTICE < n)%nat;
}.

Lemma holds_length n b t : holds n b t -> length t = fab_curs b.
Proof. intros [Hs <- Hc _]. rewrite length_take. lia. Qed.

Lemma fab_put_holds n b t bs tr :
  holds n b t -> (fab_curs b + length bs <= n)%nat ->
  (tr = false -> (fab_curs b + length bs + length TRUNCATION_NOTICE < n)%nat) ->
  exists b', fab_put b bs tr = Val b' /\ holds n b' (t ++ bs) /\ fab_truncated b' = tr.
Proof.
  intros Hh Hl Htr. pose proof (holds_length _ _ _ Hh) as Hlen. destruct Hh as [Hs Ht Hc _].
  unfold fab_put. rewrite slice_copy_Val by lia. rewrite run_bind_Val. eexists. split; [done|].
  split; [|done]. split; cbn [fab_inner fab_curs fab_truncated]; [|rewrite Ht|lia|exact Htr].
  - rewrite !length_app, length_take, length_drop. lia.
  - rewrite app_assoc, take_app_length'; [done|]. rewrite length_app. lia.
Qed.

Lemma fab_chars_bounded n b t s :
  holds n b t -> fab_truncated b = false ->
  exists b', fab_chars b s = Val b' /\ holds n b' (bounded n t s).1 /\
    fab_truncated b' = (bounded n t s).2.
Proof.
  revert b t. induction s as [|enc s IH]; intros b t Hh Hb; cbn [fab_chars bounded].
  - by exists b.
  - pose proof (hd_size _ _ _ Hh) as Hs. pose proof (hd_room _ _ _ Hh Hb) as Hr.
    rewrite Hs, <- (holds_length _ _ _ Hh). rewrite <- (holds_length _ _ _ Hh) in Hr.
    case_decide as Hd.
    + apply fab_put_holds; [done| |done]. rewrite <- (holds_length _ _ _ Hh). lia.
    + destruct (fab_put_holds n b t enc (fab_truncated b)) as (b1 & -> & Hh1 & Hb1);
        [done|rewrite <- (holds_length _ _ _ Hh); lia| |].
      { intros _. rewrite <- (holds_length _ _ _ Hh). cbn [length TRUNCATION_NOTICE] in *. lia. }
      rewrite run_bind_Val. apply IH; [done|congruence].
Qed.

Lemma bounded_app n t s1 s2 :
  bounded n t (s1 ++ s2) =
  if (bounded n t s1).2 then bounded n t s1 else bounded n (bounded n t s1).1 s2.
Proof.
  revert t. induction s1 as [|enc s1 IH]; intros t; [done|]. cbn [app bounded].
  case_decide; [done|]. apply IH.
Qed.

Lemma fab_write_pieces_full b pieces :
  fab_truncated b = true -> fab_write_pieces b pieces = Val b.
Proof.
  intros Hb. induction pieces as [|s pieces IH]; [done|]. cbn [fab_write_pieces].
  unfold fab_write_str. by rewrite Hb, run_bind_Val.
Qed.

Lemma fab_write_pieces_bounded n b t pieces :
  holds n b t -> fab_truncated b = false ->
  exists b', fab_write_pieces b pieces = Val b' /\ holds n b' (bounded n t (List.concat pieces)).1.
Proof.
  revert b t. induction pieces as [|s pieces IH]; intros b t Hh Hb; [by exists b|].
  cbn [fab_write_pieces List.concat]. unfold fab_write_str. rewrite Hb.
  destruct (fab_chars_bounded n b t s Hh Hb) as (b1 & -> & Hh1 & Hb1). rewrite run_bind_Val.
  rewrite bounded_app. destruct (bounded n t s) as [t1 []]; cbn [fst snd] in *; [|by apply IH].
  exists b1. by rewrite fab_write_pieces_full.
Qed.

(** The text that a blocking print sends. *)
Definition printed (pieces : list (list (list Z))) : list Z :=
  (bounded BOOT_UMSG_BUF_SIZE [] (List.concat pieces)).1.

Lemma print_blocking_spec pieces :
  print_blocking pieces = Val (uart_write_str (printed pieces)) /\
  (length (printed pieces) <= BOOT_UMSG_BUF_SIZE)%nat.
Proof.
  unfold print_blocking, printed.
  destruct (fab_write_pieces_bounded BOOT_UMSG_BUF_SIZE (fab_clear (fab_new BOOT_UMSG_BUF_SIZE)) [] pieces)
    as (b & -> & Hh); [split; [done|done|apply Nat.le_0_l|]|done|].
  { intros _. apply Nat.ltb_lt. reflexivity. }
  rewrite run_bind_Val. unfold fab_as_str. pose proof (holds_length _ _ _ Hh) as Hl.
  destruct Hh as [Hs Ht Hc _]. rewrite slice_range_Val by lia.
  rewrite run_bind_Val, Nat.sub_0_r, drop_0, Ht. split; [done|]. by rewrite Hl.
Qed.

(** The text and the notice: nothing is lost from a short text, a long one
    keeps its beginning and says so. *)
Lemma bounded_spec n t s :
  (length t + length TRUNCATION_NOTICE < n)%nat ->
  if decide (length t + length (List.concat s) + length TRUNCATION_NOTICE < n)%nat
  then bounded n t s = (t ++ List.concat s, false)
  else exists s1 s2, s = s1 ++ s2 /\
    bounded n t s = (t ++ List.concat s1 ++ TRUNCATION_NOTICE, true).
Proof.
  revert t. induction s as [|enc s IH]; intros t Hn; cbn [bounded List.concat].
  - rewrite decide_True by (cbn [length]; lia). by rewrite app_nil_r.
  - rewrite length_app. destruct (decide (n - length TRUNCATION_NOTICE <= length t + length enc)%nat).
    + rewrite decide_False by lia. by exists [], (enc :: s).
    + specialize (IH (t ++ enc)). rewrite length_app in IH. specialize (IH ltac:(lia)).
      replace (length t + (length enc + length (List.concat s)))%nat
        with (length t + length enc + length (List.concat s))%nat by lia.
      case_decide; [by rewrite IH, app_assoc|].
      destruct IH as (s1 & s2 & -> & ->). exists (enc :: s1), s2. cbn. by rewrite !app_assoc.
Qed.
End fixed_buffer.

(** ** What a download does *)

Section download.
Context `{CrcLaws, RenderChars}.
Implicit Types (m : memory).

Lemma print_lines_spec lines :
  exists texts, print_lines lines = Val (texts ≫= uart_write_str) /\
    Forall (fun t => Z.of_nat (length t) < 2 ^ 32) texts.
Proof.
  induction lines as [|[text args] lines (texts & IH & Hl)]; cbn [print_lines].
  - by exists [].
  - destruct (print_blocking_spec (render_chars text args)) as [-> Hn].
    rewrite run_bind_Val, IH, run_bind_Val. exists (printed (render_chars text args) :: texts).
    split; [done|]. constructor; [|done]. unfold BOOT_UMSG_BUF_SIZE in Hn. lia.
Qed.

Lemma mem_write_app m a l1 l2 x :
  mem_write (mem_write m a l1) (a + Z.of_nat (length l1)) l2 x = mem_write m a (l1 ++ l2) x.
Proof.
  unfold mem_write. rewrite length_app.
  destruct (decide (a + Z.of_nat (length l1) <= x < a + Z.of_nat (length l1) + Z.of_nat (length l2))).
  - rewrite decide_True, app_nth2 by lia. f_equal. lia.
  - destruct (decide (a <= x < a + Z.of_nat (length l1))).
    + by rewrite decide_True, app_nth1 by lia.
    + by rewrite decide_False by lia.
Qed.

Lemma mem_write_read m m' a bs :
  (forall x, m' x = mem_write m a bs x) -> mem_read m' a (length bs) = bs.
Proof.
  intros He. rewrite (mem_read_ext (mem_write m a bs)) by (intros; apply He).
  apply mem_read_write.
Qed.

(** The placement of a program that begins below the end of the loader. *)
Lemma place_relocated addr len self_end :
  layout_ok addr len self_end -> addr < self_end ->
  let n := Z.min (self_end - addr) len in
  let to := Z.max (addr + len) self_end in
  place self_end addr len = MkPlacement true addr n to (to + n).
Proof.
  intros [] Hlt n to. unfold place. destruct (Z.ltb_spec addr self_end); [|lia].
  by rewrite !wrap_id by (unfold fits; lia).
Qed.

Lemma receive_program_spec self_end addr data rest m :
  let len := Z.of_nat (length data) in
  let p := place self_end addr len in
  layout_ok addr len self_end -> addr < self_end ->
  exists m2, receive_program p addr len (data ++ rest) m = Some (rest, m2, crc32_hash data) /\
    forall x, m2 x = mem_write m (prog_to p) data x.
Proof.
  intros len p Hly Hlt. pose proof Hly as []. unfold p.
  rewrite (place_relocated addr len self_end) by done. cbv zeta.
  unfold receive_program. cbn [pc_relocate prog_len prog_to].
  set (n := Z.min (self_end - addr) len). set (to := Z.max (addr + len) self_end).
  rewrite wrap_id by (unfold fits; lia). unfold write_bytes_from_uart.
  rewrite decide_True by (rewrite length_app; lia). cbn [mbind option_bind].
  rewrite take_app_le by lia. rewrite drop_app_le by lia.
  assert (length (drop (Z.to_nat n) data) = Z.to_nat (len - n)) as Hd by (rewrite length_drop; lia).
  assert (Z.of_nat (length (take (Z.to_nat n) data)) = n) as Ht by (rewrite length_take; lia).
  rewrite decide_True by (rewrite length_app; lia). cbn [mbind option_bind].
  rewrite take_app_length', drop_app_length' by done.
  set (m2 := mem_write (mem_write _ _ _) _ _).
  assert (forall x, m2 x = mem_write m to data x) as Hm2.
  { intros x. unfold m2.
    replace (to + n) with (to + Z.of_nat (length (take (Z.to_nat n) data))) by lia.
    by rewrite mem_write_app, take_drop. }
  exists m2. split; [|done]. do 2 f_equal.
  rewrite hasher_update_app, crc32_hash_spec. do 2 f_equal.
  replace (to + n) with (to + Z.of_nat (Z.to_nat n)) by lia. rewrite <- mem_read_app.
  replace (Z.to_nat n + Z.to_nat (len - n))%nat with (length data) by lia.
  by apply (mem_write_read m).
Qed.

(** The stub of a download: what is at the program's address and behind it. *)
Lemma relocate_stub_spec self_end addr data stub m m2 :
  let len := Z.of_nat (length data) in
  let p := place self_end addr len in
  layout_ok addr len self_end -> addr < self_end -> prog_len p mod 4 = 0 ->
  (forall x, m2 x = mem_write m (prog_to p) data x) ->
  exists m', relocate_stub p stub m2 = Some m' /\
    (forall i, 0 <= i < prog_len p -> m' (addr + i) = nth (Z.to_nat i) data 0) /\
    (forall x, self_end <= x < addr + len -> m' x = m x) /\
    (forall x, x < self_end -> ~ (addr <= x < addr + prog_len p) -> m' x = m x).
Proof.
  intros len p Hly Hlt Hwords Hm2. pose proof Hly as [].
  pose proof (place_relocated addr len self_end Hly Hlt) as Hp. cbv zeta in Hp. fold p in Hp.
  unfold relocate_stub. rewrite Hp in *. cbn [prog_from prog_to prog_len stub_to] in *.
  set (n := Z.min (self_end - addr) len) in *. set (to := Z.max (addr + len) self_end) in *.
  destruct (relocation_stub_copied (mem_write m2 (to + n) stub) addr to n) as (m' & -> & Hc);
    [lia|done|lia|].
  exists m'. split; [done|]. split_and!.
  - intros i Hi. rewrite Hc, decide_True by lia. rewrite mem_write_out by lia.
    rewrite Hm2. unfold mem_write. rewrite decide_True by lia. f_equal. lia.
  - intros x Hx. rewrite Hc, decide_False by lia. rewrite mem_write_out by lia.
    rewrite Hm2. apply mem_write_out. lia.
  - intros x Hx Hno. rewrite Hc, decide_False by lia. rewrite mem_write_out by lia.
    rewrite Hm2. apply mem_write_out. lia.
Qed.
End download.

(** ** The claims *)

(** A blocking print never overruns its buffer of 256 bytes: it sends one
    [PRINT_STRING] whose text is the whole line if there is room for the
    truncation notice behind it, and otherwise a prefix of whole characters
    followed by the notice. *)
Theorem print_blocking_bounded pieces :
  let line := List.concat (List.concat pieces) in
  exists text, print_blocking pieces = Val (uart_write_str text) /\
    (length text <= BOOT_UMSG_BUF_SIZE)%nat /\
    if decide (length line + length TRUNCATION_NOTICE < BOOT_UMSG_BUF_SIZE)%nat
    then text = line
    else exists s1 s2, List.concat pieces = s1 ++ s2 /\ text = List.concat s1 ++ TRUNCATION_NOTICE.
Proof.
  intros line. destruct (print_blocking_spec pieces) as [Hp Hl].
  exists (printed pieces). split; [exact Hp|]. split; [exact Hl|].
  pose proof (bounded_spec BOOT_UMSG_BUF_SIZE [] (List.concat pieces)) as Hb.
  unfold printed. fold line in Hb. cbn [length app] in Hb.
  change (0 + length line)%nat with (length line) in Hb.
  assert (length TRUNCATION_NOTICE < BOOT_UMSG_BUF_SIZE)%nat as Hn
    by (apply Nat.ltb_lt; reflexivity).
  specialize (Hb Hn). destruct (decide _); [by rewrite Hb|].
  destruct Hb as (s1 & s2 & -> & ->). by exists s1, s2.
Qed.

(** A legacy download loses the end of a program that reaches beyond the
    loader.  Although its CRC is accepted, the part from the end of the loader
    on is not written to its place: what was there before stays there. *)
Theorem legacy_tail_lost `{CrcLaws, RenderChars} self_end stub addr data m :
  let len := Z.of_nat (length data) in
  layout_ok addr len self_end -> addr < self_end < addr + len -> (self_end - addr) mod 4 = 0 ->
  exists out m',
    download_program self_end stub addr len (crc32_hash data)
      ([0x88; 0x88; 0x77; 0x77] ++ data) m = Val (Booted out m' addr) /\
    (forall i, 0 <= i < self_end - addr -> m' (addr + i) = nth (Z.to_nat i) data 0) /\
    (forall x, self_end <= x < addr + len -> m' x = m x).
Proof.
  intros len Hly Hse Hwords. unfold download_program. cbv zeta.
  destruct (print_lines_spec (header_lines (place self_end addr len) addr len (crc32_hash data)))
    as (t1 & -> & _). rewrite run_bind_Val. cbn [app wait_put_code put_code_step].
  destruct (receive_program_spec self_end addr data [] m Hly ltac:(lia)) as (m2 & Hrec & Hm2).
  rewrite app_nil_r in Hrec. fold len in Hrec. rewrite Hrec.
  destruct (print_lines_spec (crc_line (crc32_hash data) (crc32_hash data))) as (t2 & -> & _).
  rewrite run_bind_Val, Z.eqb_refl. cbn [negb].
  destruct (print_lines_spec (stub_lines (place self_end addr len) addr stub)) as (t3 & -> & _).
  rewrite run_bind_Val.
  assert (prog_len (place self_end addr len) = self_end - addr) as Hn.
  { rewrite (place_relocated addr len self_end Hly) by lia. cbn [prog_len]. lia. }
  destruct (relocate_stub_spec self_end addr data stub m m2 Hly ltac:(lia)) as (m' & Hst & H1' & H2' & _);
    [by fold len; rewrite Hn|done|].
  fold len in Hst, H1', H2'. rewrite Hst. eexists _, m'. split; [done|].
  split; [by rewrite Hn in H1'|done].
Qed.

#[export] Instance no_chars : RenderChars := fun _ _ => [].

Lemma legacy_tail_lost_witness :
  exists out m',
    download_program 0x8004 [9] 0x8000 6 (crc32_hash [1; 2; 3; 4; 5; 6])
      ([0x88; 0x88; 0x77; 0x77] ++ [1; 2; 3; 4; 5; 6]) (fun _ => 7) = Val (Booted out m' 0x8000) /\
    m' (0x8000 + 1) = 2 /\ m' 0x8004 = 7.
Proof.
  destruct (legacy_tail_lost 0x8004 [9] 0x8000 [1; 2; 3; 4; 5; 6] (fun _ => 7)) as (out & m' & Hr & H1 & H2).
  - split; cbn; lia.
  - cbn. lia.
  - reflexivity.
  - exists out, m'. split; [exact Hr|]. split; [apply (H1 1); lia|apply H2; cbn; lia].
Defined.
