(* ===== verification/Suboot.v ===== *)
(** The host side of the legacy download, [host/okdude/src/suboot.rs], and the
    two sides together.

    The terminal is the list of bytes that arrive; a read that times out is
    repeated by the code, so a run that needs more bytes than the list has is a
    run that waits. *)
From Stdlib Require Import String.
From S2P Require Import Prelude Words Messages Crc Relocation Legacy.
Import su_boot.

Module Suboot.

(** One byte of the loops that look for two four-byte words and for a
    [PRINT_STRING]; the second word is [lo lo hi hi]. *)
Inductive scan_event : Type :=
  | ScanTo (status switch : nat)
  | ScanPrint.

Definition scan_if (b : bool) (status switch : nat) : scan_event :=
  if b then ScanTo status switch else ScanTo 0 0.
Definition suboot_step (lo hi : Z) (status switch : nat) (byte : Z) : scan_event :=
  match status, switch with
  | 0, 0 =>
    if (byte =? 0xcc)%Z then ScanTo 1 1
    else if (byte =? lo)%Z then ScanTo 1 2
    else if (byte =? 0xee)%Z then ScanTo 1 3
    else ScanTo 0 0
  | 1, 1 => scan_if (byte =? 0xcc)%Z 2 1
  | 2, 1 => scan_if (byte =? 0xbb)%Z 3 1
  | 3, 1 => scan_if (byte =? 0xbb)%Z 4 1
  | 1, 2 => scan_if (byte =? lo)%Z 2 2
  | 2, 2 => scan_if (byte =? hi)%Z 3 2
  | 3, 2 => scan_if (byte =? hi)%Z 4 2
  | 1, 3 => scan_if (byte =? 0xee)%Z 2 3
  | 2, 3 => scan_if (byte =? 0xdd)%Z 3 3
  | 3, 3 => if (byte =? 0xdd)%Z then ScanPrint else ScanTo 0 0
  | _, _ => ScanTo 0 0
  end%nat.

(** The text of a [PRINT_STRING] is read and logged. *)
Definition skip_print_string (input : list Z) : option (list Z) :=
  '(len, input) ← uart1_read32 input;
  if decide (Z.to_nat len <= length input)%nat then Some (drop (Z.to_nat len) input) else None.

(** The loop: which word was found, and what follows it.  One byte of fuel per
    byte of the input. *)
Fixpoint suboot_scan (fuel : nat) (lo hi : Z) (status switch : nat) (input : list Z)
  : option (nat * list Z) :=
  match fuel, input with
  | S fuel, b :: input =>
    match suboot_step lo hi status switch b with
    | ScanPrint => input ← skip_print_string input; suboot_scan fuel lo hi 0 0 input
    | ScanTo status switch =>
      if decide (status = 4)%nat then Some (switch, input)
      else suboot_scan fuel lo hi status switch input
    end
  | _, _ => None
  end.

(** How [run] ends, with the bytes written. *)
Inductive suboot_end : Type :=
  | HostWaits (sent : list Z)
  | HostExit (sent : list Z)
  | HostDone (sent : list Z).

(** A conversion that the code unwraps. *)
Definition to_u32 (x : Z) : run Z := unwrap (if decide (u32 x) then Some x else None).

(** [run], for the program [prog_data] and the load address of its format. *)
Definition suboot_run `{Crc} (prog_data : list Z) (load_address : Z) (input : list Z)
  : run suboot_end :=
  let crc := crc32_hash prog_data in
  addr ← to_u32 load_address;
  len ← to_u32 (Z.of_nat (length prog_data));
  let sent := u32_to_le_bytes (command_to_u32 PutProgInfo) ++ u32_to_le_bytes addr ++
    u32_to_le_bytes len ++ u32_to_le_bytes crc in
  match suboot_scan (length input) 0x66 0x55 0 0 input with
  | None => Val (HostWaits sent)
  | Some (switch, input) =>
    if decide (switch = 1)%nat then Val (HostExit sent)
    else
      match uart1_read32 input with
      | None => Val (HostWaits sent)
      | Some (retransmitted_crc, input) =>
        if negb (retransmitted_crc =? crc) then Val (HostExit sent)
        else
          let sent := sent ++ u32_to_le_bytes (command_to_u32 PutCode) ++ prog_data in
          match suboot_scan (length input) 0xaa 0x99 0 0 input with
          | None => Val (HostWaits sent)
          | Some (switch, _) =>
            if decide (switch = 1)%nat then Val (HostExit sent) else Val (HostDone sent)
          end
      end
  end.
End Suboot.
Export Suboot.

(** ** The scanner *)

Section scanner.
Implicit Types (lo hi : Z) (input : list Z).

Lemma suboot_scan_fuel fuel fuel' lo hi st sw input :
  (length input <= fuel)%nat -> (length input <= fuel')%nat ->
  suboot_scan fuel lo hi st sw input = suboot_scan fuel' lo hi st sw input.
Proof.
  revert fuel' st sw input. induction fuel as [|fuel IH]; intros fuel' st sw input Hf Hf'.
  - destruct input; [by destruct fuel'|cbn in Hf; lia].
  - destruct fuel' as [|fuel']; [destruct input; [done|cbn in Hf'; lia]|].
    destruct input as [|b input]; [done|]. cbn in Hf, Hf'. cbn [suboot_scan].
    destruct (suboot_step lo hi st sw b) as [st' sw'|].
    + case_decide; [done|]. apply IH; lia.
    + destruct (skip_print_string input) as [rest|] eqn:Hs; [|done]. cbn [mbind option_bind].
      assert (length rest <= length input)%nat as Hl.
      { unfold skip_print_string, uart1_read32 in Hs. case_decide; [|done].
        cbn [mbind option_bind] in Hs. case_decide; [|done]. injection Hs as <-.
        rewrite !length_drop. lia. }
      apply IH; lia.
Qed.

(** The scan with the fuel that [run] gives it. *)
Definition scan lo hi st sw input : option (nat * list Z) :=
  suboot_scan (length input) lo hi st sw input.

Lemma suboot_scan_scan lo hi input :
  suboot_scan (length input) lo hi 0 0 input = scan lo hi 0 0 input.
Proof. done. Qed.

Lemma scan_cons lo hi st sw b input :
  scan lo hi st sw (b :: input) =
  match suboot_step lo hi st sw b with
  | ScanPrint => rest ← skip_print_string input; scan lo hi 0 0 rest
  | ScanTo st sw => if decide (st = 4)%nat then Some (sw, input) else scan lo hi st sw input
  end.
Proof.
  unfold scan. cbn [length suboot_scan].
  destruct (suboot_step lo hi st sw b) as [st' sw'|]; [done|].
  destruct (skip_print_string input) as [rest|] eqn:Hs; [|done]. cbn [mbind option_bind].
  apply suboot_scan_fuel; [|done].
  unfold skip_print_string, uart1_read32 in Hs. case_decide; [|done].
  cbn [mbind option_bind] in Hs. case_decide; [|done]. injection Hs as <-.
  rewrite !length_drop. lia.
Qed.

Lemma scan_to lo hi st sw b input st' sw' :
  suboot_step lo hi st sw b = ScanTo st' sw' -> st' <> 4%nat ->
  scan lo hi st sw (b :: input) = scan lo hi st' sw' input.
Proof. intros Hs Hne. by rewrite scan_cons, Hs, decide_False. Qed.

Lemma read32_le x input : u32 x -> uart1_read32 (u32_to_le_bytes x ++ input) = Some (x, input).
Proof.
  intros Hx. unfold uart1_read32, u32_to_le_bytes.
  rewrite decide_True by (rewrite length_app, length_le_bytes; lia).
  rewrite take_app_length', drop_app_length' by (by rewrite length_le_bytes).
  f_equal. f_equal. by apply (u32_le_roundtrip x).
Qed.

(** A second word that is not mixed up with the others. *)
Definition scan_word lo : Prop := lo <> 0xcc /\ lo <> 0xee.

(** A blocking print is passed over. *)
Lemma scan_print lo hi text input :
  scan_word lo -> Z.of_nat (length text) < 2 ^ 32 ->
  scan lo hi 0 0 (uart_write_str text ++ input) = scan lo hi 0 0 input.
Proof.
  intros [Hc He] Hl. unfold uart_write_str, uart1_write32.
  change (u32_to_le_bytes (command_to_u32 CmdPrintString)) with [0xee; 0xee; 0xdd; 0xdd].
  rewrite wrap_id by (unfold fits; lia). cbn [app].
  assert (suboot_step lo hi 0 0 0xee = ScanTo 1 3) as H0.
  { cbn [suboot_step]. destruct (Z.eqb_spec 0xee lo); [congruence|done]. }
  rewrite (scan_to _ _ _ _ _ _ _ _ H0) by done.
  rewrite (scan_to _ _ 1 3 _ _ 2 3), (scan_to _ _ 2 3 _ _ 3 3) by done.
  rewrite scan_cons. cbn [suboot_step]. change (0xdd =? 0xdd) with true. cbv iota.
  unfold skip_print_string. rewrite <- app_assoc, read32_le by (unfold fits; lia).
  cbn [mbind option_bind]. rewrite Nat2Z.id, decide_True by (rewrite length_app; lia).
  by rewrite drop_app_length.
Qed.

Lemma scan_prints lo hi texts input :
  scan_word lo -> Forall (fun t => Z.of_nat (length t) < 2 ^ 32) texts ->
  scan lo hi 0 0 ((texts ≫= uart_write_str) ++ input) = scan lo hi 0 0 input.
Proof.
  intros Hlo Ht. induction Ht as [|t texts Ht Hts IH]; [done|].
  cbn [mbind list_bind]. by rewrite <- app_assoc, scan_print.
Qed.

(** Bytes that begin no word are passed over. *)
Definition quiet_byte lo (b : Z) : Prop := b <> 0xcc /\ b <> lo /\ b <> 0xee.
Lemma scan_noise lo hi noise input :
  Forall (quiet_byte lo) noise -> scan lo hi 0 0 (noise ++ input) = scan lo hi 0 0 input.
Proof.
  intros Hn. induction Hn as [|b noise (H1 & H2 & H3) Hn IH]; [done|].
  cbn [app]. rewrite scan_cons. cbn [suboot_step].
  destruct (Z.eqb_spec b 0xcc), (Z.eqb_spec b lo), (Z.eqb_spec b 0xee); done.
Qed.

(** The second word is found. *)
Lemma scan_found lo hi input :
  scan_word lo -> scan lo hi 0 0 (lo :: lo :: hi :: hi :: input) = Some (2%nat, input).
Proof.
  intros [Hc He].
  assert (suboot_step lo hi 0 0 lo = ScanTo 1 2) as H0.
  { cbn [suboot_step]. destruct (Z.eqb_spec lo 0xcc); [done|]. by rewrite Z.eqb_refl. }
  rewrite (scan_to _ _ _ _ _ _ _ _ H0) by done.
  rewrite (scan_to _ _ 1 2 _ _ 2 2), (scan_to _ _ 2 2 _ _ 3 2), scan_cons
    by (cbn [suboot_step]; by rewrite ?Z.eqb_refl).
  cbn [suboot_step]. by rewrite Z.eqb_refl.
Qed.
End scanner.

(** ** Both sides *)

(** C31: the legacy download, from both sides.  For a program that ends below
    the end of the loader, of a whole number of words, the host that hears the
    device's answers sends exactly what the device expects and finishes, and
    the device, fed what the host sends, answers exactly what the host heard
    and boots with the program in its place, nothing else below the end of the
    loader changed.  Bytes that were under way before are passed over. *)
Theorem legacy_download_agrees `{CrcLaws, RenderChars} self_end stub addr data noise m :
  let len := Z.of_nat (length data) in
  layout_ok addr len self_end -> addr < self_end -> addr + len <= self_end -> len mod 4 = 0 ->
  Forall (quiet_byte 0x66) noise ->
  exists to_device to_host m',
    perform_download self_end stub to_device m = Val (Booted to_host m' addr) /\
    suboot_run data addr (noise ++ to_host) =
      Val (HostDone (u32_to_le_bytes (command_to_u32 PutProgInfo) ++ to_device)) /\
    mem_read m' addr (length data) = data /\
    forall x, x < self_end -> ~ (addr <= x < addr + len) -> m' x = m x.
Proof.
  intros len Hly Hlt Hend Hwords Hnoise. pose proof Hly as [].
  assert (u32 (crc32_hash data)) as Hcrc.
  { rewrite crc32_hash_spec. apply hasher_finalize_u32. }
  assert (u32 addr) as Ha by (unfold fits; lia). assert (u32 len) as Hl by (unfold fits; lia).
  set (p := place self_end addr len).
  assert (prog_len p = len) as Hn.
  { unfold p. rewrite (place_relocated addr len self_end Hly) by lia. cbn [prog_len]. lia. }
  destruct (print_lines_spec (header_lines p addr len (crc32_hash data))) as (t1 & E1 & T1).
  destruct (print_lines_spec (crc_line (crc32_hash data) (crc32_hash data))) as (t2 & E2 & T2).
  destruct (print_lines_spec (stub_lines p addr stub)) as (t3 & E3 & T3).
  destruct (receive_program_spec self_end addr data [] m Hly Hlt) as (m2 & Hrec & Hm2).
  rewrite app_nil_r in Hrec. fold len p in Hrec, Hm2.
  destruct (relocate_stub_spec self_end addr data stub m m2 Hly Hlt)
    as (m' & Hst & Hprog & _ & Hrest); [by fold len p; rewrite Hn|done|].
  fold len p in Hst, Hprog, Hrest. rewrite Hn in Hprog, Hrest.
  exists (u32_to_le_bytes addr ++ u32_to_le_bytes len ++ u32_to_le_bytes (crc32_hash data) ++
    [0x88; 0x88; 0x77; 0x77] ++ data).
  exists (((t1 ≫= uart_write_str) ++ [0x66; 0x66; 0x55; 0x55] ++ u32_to_le_bytes (crc32_hash data)) ++
    (t2 ≫= uart_write_str) ++ (t3 ≫= uart_write_str) ++ [0xaa; 0xaa; 0x99; 0x99]).
  exists m'. split_and!.
  - unfold perform_download. rewrite !read32_le by done. unfold download_program. cbv zeta.
    fold p. rewrite E1, run_bind_Val. cbn [app wait_put_code put_code_step].
    rewrite Hrec, E2, run_bind_Val, Z.eqb_refl. cbn [negb]. rewrite E3, run_bind_Val, Hst.
    do 2 f_equal. by rewrite <- !app_assoc.
  - unfold suboot_run, to_u32. fold len. rewrite !decide_True by done. cbn [unwrap].
    rewrite !run_bind_Val. cbv zeta. rewrite !suboot_scan_scan.
    rewrite scan_noise, <- !app_assoc, scan_prints by done. cbn [app].
    rewrite scan_found by done. rewrite decide_False by done.
    rewrite read32_le, Z.eqb_refl by done. cbn [negb].
    rewrite suboot_scan_scan, !scan_prints, scan_found by done. rewrite decide_False by done.
    done.
  - unfold mem_read. apply list_eq. intros i. rewrite list_lookup_fmap.
    destruct (decide (i < length data)%nat).
    + rewrite lookup_seq_lt by done. cbn. rewrite Hprog, Nat2Z.id by lia.
      destruct (lookup_lt_is_Some_2 data i) as [b Hb]; [done|]. rewrite Hb. f_equal.
      by apply nth_lookup_Some.
    + by rewrite lookup_seq_ge, lookup_ge_None_2 by lia.
  - exact Hrest.
Qed.

Lemma legacy_download_agrees_witness :
  exists to_device to_host m',
    perform_download 0x20000 [9] to_device (fun _ => 7) = Val (Booted to_host m' 0x8000) /\
    suboot_run [1; 2; 3; 4; 5; 6; 7; 8] 0x8000 ([0x22; 0x22; 0x11; 0x11] ++ to_host) =
      Val (HostDone (u32_to_le_bytes (command_to_u32 PutProgInfo) ++ to_device)) /\
    mem_read m' 0x8000 8 = [1; 2; 3; 4; 5; 6; 7; 8].
Proof.
  destruct (legacy_download_agrees 0x20000 [9] 0x8000 [1; 2; 3; 4; 5; 6; 7; 8]
    [0x22; 0x22; 0x11; 0x11] (fun _ => 7)) as (to_device & to_host & m' & H1 & H2 & H3 & _).
  - split; cbn; lia.
  - lia.
  - cbn. lia.
  - reflexivity.
  - repeat apply Forall_cons_2; try apply Forall_nil_2; unfold quiet_byte; lia.
  - exists to_device, to_host, m'. split; [exact H1|]. split; [exact H2|exact H3].
Defined.
