(* ===== verification/HostDecoder.v ===== *)
(** The receiving half of the uploader: [Decoder] and [drive] of
    [host/okdude/src/v2.rs].

    The terminal delivers reads of some bytes each.  What the decoder does to the
    outside, a message put into the queue or a text shown, is a list of events;
    a text is shown by its bytes, before the conversion to UTF-8 and the removal
    of trailing white space. *)
From S2P Require Import Prelude Words Messages Crc Encode Decode Cobs Framing FrameDriver Relocation Legacy.

Module HostDecoder.

Inductive host_event : Type :=
  | HMessage (t : MessageType) (payload : list Z)
  | HPrint (text : list Z).

Inductive host_error : Type :=
  | SecondHeader
  | PayloadWithoutHeader
  | FinishedWithoutHeader
  | SubootFrame
  | QueueClosed
  | HFrameError (e : FrameError).

#[export] Instance host_event_eq_dec : EqDecision host_event.
Proof. solve_decision. Defined.
#[export] Instance host_error_eq_dec : EqDecision host_error.
Proof. solve_decision. Defined.

Section with_crc.
Context `{Crc}.

(** [Decoder]; the queue is the list of events. *)
Record host_decoder : Type := MkHostDecoder {
  hd_decoder : frame_layer;
  hd_frame_header : option FrameHeader;
  hd_buffer : list Z;
}.
Definition host_decoder_new : host_decoder := MkHostDecoder (frame_new COBS_XOR) None [].
Definition host_reset (d : host_decoder) : host_decoder :=
  MkHostDecoder (frame_reset (hd_decoder d)) None [].

(** The arms of the match on a [FrameOutput]; [connected] tells whether the
    queue still has a reader. *)
Definition host_output (connected : bool) (d : host_decoder) (o : FrameOutput)
  : host_decoder * result (list host_event) host_error :=
  let 'MkHostDecoder l header buffer := d in
  match o with
  | FSkip => (d, Ok [])
  | FHeader h =>
    match header with
    | Some _ => (d, Err SecondHeader)
    | None => (MkHostDecoder l (Some h) [], Ok [])
    end
  | FPayload byte =>
    match header with
    | None => (d, Err PayloadWithoutHeader)
    | Some _ => (MkHostDecoder l header (buffer ++ [byte]), Ok [])
    end
  | FFinished =>
    match header with
    | None => (d, Err FinishedWithoutHeader)
    | Some h =>
      if decide (FrameLayer.message_type h = PrintString)
      then (MkHostDecoder l None buffer, Ok [HPrint buffer])
      else if connected then (MkHostDecoder l None [], Ok [HMessage (FrameLayer.message_type h) buffer])
      else (MkHostDecoder l None [], Err QueueClosed)
    end
  | FLegacy => (d, Err SubootFrame)
  | FLegacyPrintStringByte length byte =>
    let buffer := buffer ++ [byte] in
    if length =? Z.of_nat (List.length buffer)
    then (host_reset (MkHostDecoder l header buffer), Ok [HPrint buffer])
    else (MkHostDecoder l header buffer, Ok [])
  end.

(** One byte of [process_incoming_bytes]. *)
Definition host_byte (connected : bool) (d : host_decoder) (byte : Z)
  : run (host_decoder * result (list host_event) host_error) :=
  '(l, r) ← frame_feed (hd_decoder d) byte;
  let d := MkHostDecoder l (hd_frame_header d) (hd_buffer d) in
  match r with
  | Ok o => Val (host_output connected d o)
  | Err e => Val (host_reset d, Err (HFrameError e))
  end.

(** [process_incoming_bytes]: an error ends it. *)
Fixpoint process_incoming_bytes (connected : bool) (d : host_decoder) (buf : list Z)
  : run (host_decoder * list host_event * option host_error) :=
  match buf with
  | [] => Val (d, [], None)
  | byte :: buf =>
    '(d, r) ← host_byte connected d byte;
    match r with
    | Err e => Val (d, [], Some e)
    | Ok evs =>
      '(d, evs', e) ← process_incoming_bytes connected d buf;
      Val (d, evs ++ evs', e)
    end
  end.

(** The reads of [drive]: an error is logged and the next read goes on. *)
Fixpoint drive_reads (connected : bool) (d : host_decoder) (reads : list (list Z))
  : run (host_decoder * list host_event * list host_error) :=
  match reads with
  | [] => Val (d, [], [])
  | buf :: reads =>
    '(d, evs, e) ← process_incoming_bytes connected d buf;
    '(d, evs', es) ← drive_reads connected d reads;
    Val (d, evs ++ evs', option_list e ++ es)
  end.
End with_crc.
End HostDecoder.
Export HostDecoder.

(** ** Frames *)

Section frames.
Context `{CrcLaws}.
Implicit Types (d : host_decoder) (l : frame_layer).

Lemma process_app con d a b d1 e1 :
  process_incoming_bytes con d a = Val (d1, e1, None) ->
  process_incoming_bytes con d (a ++ b) =
  ('(d2, e2, e) ← process_incoming_bytes con d1 b; Val (d2, e1 ++ e2, e)).
Proof.
  revert d e1. induction a as [|x a IH]; intros d e1; cbn [app process_incoming_bytes].
  - intros [= <- <-]. by destruct (process_incoming_bytes con d b) as [[[]]|].
  - destruct (host_byte con d x) as [[d2 [evs|]]|]; [|done..]. rewrite !run_bind_Val.
    destruct (process_incoming_bytes con d2 a) as [[[d3 e3] e]|] eqn:Ha; [|done].
    rewrite run_bind_Val. intros [= <- <- ->]. rewrite (IH _ _ Ha).
    destruct (process_incoming_bytes con d3 b) as [[[]]|]; [|done].
    by rewrite !run_bind_Val, app_assoc.
Qed.

(** What follows the byte that fails is never looked at. *)
Lemma process_error_app con d a b d1 e1 e :
  process_incoming_bytes con d a = Val (d1, e1, Some e) ->
  process_incoming_bytes con d (a ++ b) = Val (d1, e1, Some e).
Proof.
  revert d e1. induction a as [|x a IH]; intros d e1; cbn [app process_incoming_bytes]; [done|].
  destruct (host_byte con d x) as [[d2 [evs|]]|]; [|done..]. rewrite !run_bind_Val.
  destruct (process_incoming_bytes con d2 a) as [[[d3 e3] e4]|] eqn:Ha; [|done].
  rewrite run_bind_Val. intros [= <- <- ->]. by rewrite (IH _ _ Ha).
Qed.

(** The header and the buffer under outputs that carry no legacy print. *)
Fixpoint consume (header : option FrameHeader) (buffer : list Z) (os : list FrameOutput)
  : option (option FrameHeader * list Z * list host_event) :=
  match os with
  | [] => Some (header, buffer, [])
  | FLegacyPrintStringByte _ _ :: _ => None
  | o :: os =>
    match host_output true (MkHostDecoder (frame_new 0) header buffer) o with
    | (d, Ok evs) =>
      '(h, b, evs') ← consume (hd_frame_header d) (hd_buffer d) os; Some (h, b, evs ++ evs')
    | (_, Err _) => None
    end
  end.

Lemma consume_visible header buffer os : consume header buffer os = consume header buffer (visible os).
Proof.
  revert header buffer. induction os as [|o os IH]; intros header buffer; [done|].
  unfold visible. destruct (decide (o = FSkip)) as [->|Hne].
  - rewrite filter_cons_False by naive_solver. cbn. fold (visible os). rewrite IH.
    by destruct (consume header buffer (visible os)) as [[[]]|].
  - rewrite filter_cons_True by done. fold (visible os). cbn [consume].
    destruct o; try done; destruct (host_output _ _ _) as [d [evs|]]; try done; by rewrite IH.
Qed.

Lemma consume_app header buffer a b h1 b1 e1 :
  consume header buffer a = Some (h1, b1, e1) ->
  consume header buffer (a ++ b) = ('(h, b, e2) ← consume h1 b1 b; Some (h, b, e1 ++ e2)).
Proof.
  revert header buffer e1. induction a as [|o a IH]; intros header buffer e1; cbn [consume app].
  - intros [= <- <- <-]. by destruct (consume header buffer b) as [[[]]|].
  - destruct o; try done; destruct (host_output _ _ _) as [d [evs|]]; try done;
      (destruct (consume (hd_frame_header d) (hd_buffer d) a) as [[[h2 b2] e2]|] eqn:Ha; [|done]);
      intros [= <- <- <-]; rewrite (IH _ _ _ Ha);
      (destruct (consume h2 b2 b) as [[[]]|]; [|done]); cbn; by rewrite app_assoc.
Qed.

Lemma host_output_layer l header buffer o d evs :
  (forall n b, o <> FLegacyPrintStringByte n b) ->
  host_output true (MkHostDecoder (frame_new 0) header buffer) o = (d, Ok evs) ->
  host_output true (MkHostDecoder l header buffer) o =
    (MkHostDecoder l (hd_frame_header d) (hd_buffer d), Ok evs).
Proof.
  intros Hno. unfold host_output. destruct o; try (by destruct (Hno length byte));
    try (by intros [= <- <-]); destruct header; try done; try (by intros [= <- <-]).
  by case_decide; intros [= <- <-].
Qed.

Lemma process_feed l header buffer bs l' os header' buffer' evs :
  frame_feed_all l bs = Val (l', os, None) ->
  consume header buffer os = Some (header', buffer', evs) ->
  process_incoming_bytes true (MkHostDecoder l header buffer) bs =
    Val (MkHostDecoder l' header' buffer', evs, None).
Proof.
  revert l os header buffer evs. induction bs as [|b bs IH]; intros l os header buffer evs;
    cbn [frame_feed_all process_incoming_bytes].
  - intros [= <- <-] [= <- <- <-]. done.
  - unfold host_byte. cbn [hd_decoder hd_frame_header hd_buffer].
    destruct (frame_feed l b) as [[l1 [o|]]|]; [|done..]. rewrite !run_bind_Val.
    destruct (frame_feed_all l1 bs) as [[[l2 os2] e]|] eqn:Hf; [|done]. rewrite run_bind_Val.
    intros [= <- <- ->] Hc. cbn [consume] in Hc.
    assert (forall n x, o <> FLegacyPrintStringByte n x) as Hno by (intros n x ->; done).
    assert (match host_output true (MkHostDecoder (frame_new 0) header buffer) o with
      | (d, Ok evs) =>
        '(h, b, evs') ← consume (hd_frame_header d) (hd_buffer d) os2; Some (h, b, evs ++ evs')
      | (_, Err _) => None
      end = Some (header', buffer', evs)) as Hc' by (destruct o; done).
    clear Hc. destruct (host_output true _ o) as [d [evs1|]] eqn:Ho; [|done].
    rewrite (host_output_layer _ _ _ _ _ _ Hno Ho).
    destruct (consume (hd_frame_header d) (hd_buffer d) os2) as [[[h2 b2] e2]|] eqn:Hc; [|done].
    injection Hc' as <- <- <-. by rewrite (IH _ _ _ _ _ Hf Hc).
Qed.

(** What the receiver of a frame sees, and what it leaves in the buffer. *)
Definition frame_event (m : MessageType * list Z) : host_event :=
  if decide (m.1 = PrintString) then HPrint m.2 else HMessage m.1 m.2.
Definition leftover (m : MessageType * list Z) : list Z :=
  if decide (m.1 = PrintString) then m.2 else [].

Lemma consume_frame buffer m :
  consume None buffer (frame_outputs m) = Some (None, leftover m, [frame_event m]).
Proof.
  destruct m as [t p]. unfold frame_outputs, leftover, frame_event. cbn [fst snd consume].
  cbn [host_output hd_frame_header hd_buffer].
  set (h := MkHeader t (Z.of_nat (length p))).
  assert (forall buf, consume (Some h) buf (map FPayload p ++ [FFinished]) =
    Some (None, if decide (t = PrintString) then buf ++ p else [],
      [if decide (t = PrintString) then HPrint (buf ++ p) else HMessage t (buf ++ p)])) as Hp.
  { clear. generalize (eq_refl : FrameLayer.message_type h = t). generalize h. clear h.
    intros h Hh. induction p as [|b p IH]; intros buf.
    - cbn. rewrite app_nil_r, Hh. by case_decide.
    - cbn [map app consume host_output hd_frame_header hd_buffer]. rewrite IH, <- app_assoc.
      by cbn. }
  by rewrite Hp.
Qed.

(** Between frames, with nothing of a frame kept. *)
Record host_idle d : Prop := {
  hi_layer : between_frames COBS_XOR (hd_decoder d);
  hi_header : hd_frame_header d = None;
}.

Lemma new_idle : host_idle host_decoder_new.
Proof. split; [apply frame_new_between|done]. Qed.

Lemma process_frame d t p :
  host_idle d -> payload_ok (t, p) ->
  exists wire d', wire_encode t p = Val wire /\
    process_incoming_bytes true d wire = Val (d', [frame_event (t, p)], None) /\
    host_idle d' /\ hd_buffer d' = leftover (t, p).
Proof.
  destruct d as [l header buffer]. intros [Hl Hh] [Hb Hn]. cbn in Hl, Hh. subst header.
  destruct (decode_frame l t p Hl Hb Hn) as (wire & l' & os & Hw & Hf & Hv & Hl' & _).
  pose proof (consume_frame buffer (t, p)) as Hc. unfold frame_outputs in Hc. cbn [fst snd] in Hc.
  rewrite <- Hv, <- consume_visible in Hc.
  exists wire, (MkHostDecoder l' None (leftover (t, p))). split; [done|]. split; [|done].
  exact (process_feed _ _ _ _ _ _ _ _ _ Hf Hc).
Qed.
End frames.

(** ** Legacy prints *)

Section prints.
Context `{CrcLaws}.
Implicit Types (d : host_decoder) (l : frame_layer) (text : list Z).

(** The decoder inside a legacy print. *)
Definition in_print l (n i : Z) : frame_layer := with_state (SLegacyPrintString n i) l.

Lemma process_print_header d text :
  host_idle d -> Z.of_nat (length text) < 2 ^ 32 ->
  process_incoming_bytes true d (take 8 (uart_write_str text)) =
  Val (MkHostDecoder (in_print (hd_decoder d) (Z.of_nat (length text)) 0) None (hd_buffer d), [], None).
Proof.
  destruct d as [[pre cb lb hb crb st h] header buffer]. intros [[Hp _ _ _ _ Hs _] Hh] Hn.
  cbn in Hp, Hs, Hh. subst pre st header. unfold uart_write_str, uart1_write32.
  rewrite wrap_id by (unfold fits; lia).
  set (n := Z.of_nat (length text)) in *.
  pose proof (u32_le_roundtrip n ltac:(unfold fits; lia)) as Hrt. unfold u32_to_le_bytes in *.
  pose proof (length_le_bytes 4 n) as Hl.
  destruct (le_bytes 4 n) as [|n0 [|n1 [|n2 [|n3 [|]]]]] eqn:E; try done.
  rewrite <- Hrt. unfold n. reflexivity.
Qed.

Lemma in_print_feed l n i b :
  frame_feed (in_print l n i) b =
  Val (if n <=? i + 1 then with_state SPreamble l else in_print l n (i + 1),
       Ok (FLegacyPrintStringByte n b)).
Proof. unfold frame_feed, in_print. cbn. unfold feed_print_string. by destruct (n <=? i + 1). Qed.

(** Text that does not fill the buffer up to the length of the print. *)
Lemma process_text l n i buffer text :
  preamble_layer l = Initial -> 0 <= i ->
  i + Z.of_nat (length text) <= n -> i < n ->
  (Z.of_nat (length buffer) + Z.of_nat (length text) < n \/ n <= Z.of_nat (length buffer)) ->
  process_incoming_bytes true (MkHostDecoder (in_print l n i) None buffer) text =
  Val (MkHostDecoder (if decide (i + Z.of_nat (length text) < n)
                      then in_print l n (i + Z.of_nat (length text))
                      else with_state SPreamble l) None (buffer ++ text), [], None).
Proof.
  intros Hp. revert i buffer. induction text as [|b text IH]; intros i buffer Hi Hin Hlt Hb.
  - cbn. rewrite Z.add_0_r, decide_True, app_nil_r by done. done.
  - cbn [length] in *. cbn [process_incoming_bytes]. unfold host_byte. cbn [hd_decoder].
    rewrite in_print_feed, run_bind_Val. cbn [hd_frame_header hd_buffer].
    assert (forall l', host_output true (MkHostDecoder l' None buffer) (FLegacyPrintStringByte n b) =
      (MkHostDecoder l' None (buffer ++ [b]), Ok [])) as Ho.
    { intros l'. cbn [host_output]. rewrite length_app. cbn [length].
      destruct (Z.eqb_spec n (Z.of_nat (length buffer + 1))); [lia|done]. }
    destruct (Z.leb_spec n (i + 1)).
    + destruct text; [|cbn [length] in *; lia]. cbn [length process_incoming_bytes] in *.
      by rewrite Ho, run_bind_Val, run_bind_Val, decide_False by lia.
    + rewrite Ho, run_bind_Val.
      rewrite IH, run_bind_Val by (rewrite ?length_app; cbn [length]; lia).
      rewrite <- app_assoc. cbn [app].
      by replace (i + 1 + Z.of_nat (length text)) with (i + Z.of_nat (S (length text))) by lia.
Qed.

(** The byte that does. *)
Lemma process_last l n i buffer b :
  between_frames COBS_XOR l -> n = Z.of_nat (length buffer) + 1 ->
  exists d', process_incoming_bytes true (MkHostDecoder (in_print l n i) None buffer) [b] =
    Val (d', [HPrint (buffer ++ [b])], None) /\ host_idle d' /\ hd_buffer d' = [].
Proof.
  intros Hl Hn. cbn [process_incoming_bytes]. unfold host_byte. cbn [hd_decoder].
  rewrite in_print_feed, run_bind_Val.
  assert (exists s, (if n <=? i + 1 then with_state SPreamble l else in_print l n (i + 1)) =
    with_state s l) as [s ->] by (destruct (n <=? i + 1); by eexists).
  cbn [host_output hd_frame_header hd_buffer].
  rewrite length_app. cbn [length].
  destruct (Z.eqb_spec n (Z.of_nat (length buffer + 1))); [|lia]. rewrite !run_bind_Val.
  eexists. split; [done|]. split; [split; [|done]|done]. cbn [host_reset hd_decoder].
  pose proof (frame_reset_between (with_state s l)) as Hr.
  cbn [fl_cobs with_state] in Hr. by rewrite (bf_cobs _ _ Hl) in Hr.
Qed.

Lemma length_print_head text : length (take 8 (uart_write_str text)) = 8%nat.
Proof. done. Qed.
Lemma take_print k text :
  take (8 + k) (uart_write_str text) = take 8 (uart_write_str text) ++ take k text.
Proof.
  rewrite <- (take_drop 8 (uart_write_str text)) at 1. by rewrite take_app_add'.
Qed.

(** A print, up to the byte with which it is over for the decoder. *)
Lemma legacy_print_spec d text :
  let old := hd_buffer d in
  let k := (length text - length old)%nat in
  host_idle d -> text <> [] -> Z.of_nat (length text) < 2 ^ 32 ->
  exists d', host_idle d' /\
    if decide (length old < length text)%nat then
      process_incoming_bytes true d (take (8 + k) (uart_write_str text)) =
        Val (d', [HPrint (old ++ take k text)], None) /\ hd_buffer d' = []
    else
      process_incoming_bytes true d (uart_write_str text) = Val (d', [], None) /\
      hd_buffer d' = old ++ text.
Proof.
  intros old k Hd Hne Hn. pose proof (process_print_header d text Hd Hn) as Hh. fold old in Hh.
  assert (preamble_layer (hd_decoder d) = Initial) as Hp by apply Hd.
  destruct (decide _).
  - rewrite take_print, (process_app _ _ _ _ _ _ Hh).
    assert (exists pre b, take k text = pre ++ [b]) as (pre & b & Hk).
    { destruct (list.last (take k text)) as [x|] eqn:Hx; [apply last_Some in Hx as [pre Hx]; eauto|].
      apply last_None in Hx. pose proof (length_take text k) as Hl. rewrite Hx in Hl.
      cbn [length] in Hl. lia. }
    assert (length (take k text) = k) as Hlen by (rewrite length_take; lia).
    rewrite Hk in Hlen |- *. rewrite length_app in Hlen. cbn [length] in Hlen.
    pose proof (process_text (hd_decoder d) (Z.of_nat (length text)) 0 old pre Hp) as Ht.
    rewrite decide_True in Ht by lia. specialize (Ht ltac:(lia) ltac:(lia) ltac:(lia) ltac:(lia)).
    rewrite (process_app _ _ _ _ _ _ Ht).
    destruct (process_last (hd_decoder d) (Z.of_nat (length text)) (0 + Z.of_nat (length pre))
      (old ++ pre) b) as (d' & -> & Hi & Hb); [apply Hd|rewrite length_app; lia|].
    exists d'. split; [done|]. rewrite !run_bind_Val. cbn [app]. by rewrite <- app_assoc.
  - rewrite <- (take_drop 8 (uart_write_str text)), (process_app _ _ _ _ _ _ Hh).
    change (drop 8 (uart_write_str text)) with text.
    rewrite process_text, decide_False by (destruct text; cbn [length] in *; (done || lia)).
    rewrite run_bind_Val. eexists. split; [|done].
    split; [|done]. cbn [hd_decoder]. destruct Hd as [[] _]. by split.
Qed.
End prints.

(** ** Runs *)

Section runs.
Context `{CrcLaws}.
Implicit Types (d : host_decoder) (l : frame_layer).

Lemma process_app_inv con d a b d' evs :
  process_incoming_bytes con d (a ++ b) = Val (d', evs, None) ->
  exists d1 e1 e2, process_incoming_bytes con d a = Val (d1, e1, None) /\
    process_incoming_bytes con d1 b = Val (d', e2, None) /\ evs = e1 ++ e2.
Proof.
  revert d evs. induction a as [|x a IH]; intros d evs; cbn [app process_incoming_bytes].
  - intros Hb. by exists d, [], evs.
  - destruct (host_byte con d x) as [[d2 [e2|]]|]; [|done..]. rewrite !run_bind_Val.
    destruct (process_incoming_bytes con d2 (a ++ b)) as [[[d3 e3] e]|] eqn:Hab; [|done].
    rewrite run_bind_Val. intros [= -> <- ->].
    destruct (IH _ _ Hab) as (d1 & e1 & e4 & -> & Hb & ->). rewrite run_bind_Val.
    exists d1, (e2 ++ e1), e4. by rewrite app_assoc.
Qed.

(** Without an error it does not matter how the bytes are cut into reads. *)
Lemma drive_process con d reads d' evs :
  process_incoming_bytes con d (List.concat reads) = Val (d', evs, None) ->
  drive_reads con d reads = Val (d', evs, []).
Proof.
  revert d evs. induction reads as [|buf reads IH]; intros d evs; cbn [List.concat drive_reads].
  - by intros [= <- <-].
  - intros Hp. apply process_app_inv in Hp as (d1 & e1 & e2 & -> & Hb & ->).
    by rewrite run_bind_Val, (IH _ _ Hb), run_bind_Val.
Qed.

(** What a device sends: frames and legacy prints. *)
Inductive item : Type :=
  | IFrame (t : MessageType) (p : list Z)
  | IPrint (text : list Z).
Definition item_ok (i : item) : Prop :=
  match i with
  | IFrame t p => payload_ok (t, p)
  | IPrint text => text <> [] /\ Z.of_nat (length text) < 2 ^ 32
  end.
Definition item_wire (i : item) : run (list Z) :=
  match i with IFrame t p => wire_encode t p | IPrint text => Val (uart_write_str text) end.
Fixpoint items_wire (items : list item) : run (list Z) :=
  match items with
  | [] => Val []
  | i :: items => w ← item_wire i; ws ← items_wire items; Val (w ++ ws)
  end.
Definition item_event (i : item) : host_event :=
  match i with IFrame t p => frame_event (t, p) | IPrint text => HPrint text end.

(** No legacy print comes right after a [PrintString] frame. *)
Fixpoint in_order (printed : bool) (items : list item) : Prop :=
  match items with
  | [] => True
  | IFrame t _ :: items => in_order (bool_decide (t = PrintString)) items
  | IPrint _ :: items => printed = false /\ in_order false items
  end.

Lemma process_item d i :
  host_idle d -> item_ok i -> (forall text, i = IPrint text -> hd_buffer d = []) ->
  exists wire d', item_wire i = Val wire /\
    process_incoming_bytes true d wire = Val (d', [item_event i], None) /\ host_idle d' /\
    match i with IFrame PrintString _ => True | _ => hd_buffer d' = [] end.
Proof.
  intros Hd Hi Hb. destruct i as [t p|text]; cbn [item_ok item_wire item_event] in *.
  - destruct (process_frame d t p Hd Hi) as (wire & d' & Hw & Hp & Hd' & Hb').
    exists wire, d'. split_and!; try done. by destruct t.
  - destruct Hi as [Hne Hn]. destruct (legacy_print_spec d text Hd Hne Hn) as (d' & Hd' & Hr).
    rewrite (Hb text eq_refl), Nat.sub_0_r in Hr. cbn [length app] in Hr.
    rewrite decide_True in Hr by (destruct text; [done|cbn; lia]).
    rewrite !take_ge in Hr; [|done|done]. exists (uart_write_str text), d'.
    split_and!; [done|apply Hr|done|apply Hr].
Qed.

Lemma process_items d items printed :
  host_idle d -> Forall item_ok items -> in_order printed items ->
  (printed = false -> hd_buffer d = []) ->
  exists wire d', items_wire items = Val wire /\
    process_incoming_bytes true d wire = Val (d', map item_event items, None) /\ host_idle d'.
Proof.
  intros Hd Hi. revert d printed Hd. induction Hi as [|i items Hi Hitems IH]; intros d printed Hd Ho Hb.
  - by exists [], d.
  - assert (forall text, i = IPrint text -> hd_buffer d = []) as Hpr.
    { intros text ->. apply Hb, Ho. }
    destruct (process_item d i Hd Hi Hpr) as (w & d1 & Hw & Hp & Hd1 & Hb1).
    assert (exists pr, in_order pr items /\ (pr = false -> hd_buffer d1 = [])) as (pr & Ho' & Hb').
    { destruct i as [t p|text]; cbn [in_order] in Ho.
      - exists (bool_decide (t = PrintString)). split; [done|]. by destruct t.
      - exists false. split; [apply Ho|done]. }
    destruct (IH d1 pr Hd1 Ho' Hb') as (ws & d' & Hws & Hps & Hd').
    exists (w ++ ws), d'. cbn [items_wire map]. rewrite Hw, run_bind_Val, Hws, run_bind_Val.
    split; [done|]. split; [|done]. by rewrite (process_app _ _ _ _ _ _ Hp), Hps.
Qed.

(** ** Any input *)

(** The frame whose payload is being received. *)
Definition in_body l : option FrameHeader :=
  match decode_state l with SPacketBody _ h => Some h | _ => None end.

Lemma frame_feed_in_body l b l' o :
  frame_feed l b = Val (l', Ok o) ->
  match o with
  | FHeader h => in_body l = None /\ in_body l' = Some h
  | FPayload _ => in_body l <> None /\ in_body l' = in_body l
  | FFinished => in_body l <> None /\ in_body l' = None
  | FSkip => in_body l' = in_body l
  | FLegacy | FLegacyPrintStringByte _ _ => in_body l = None /\ in_body l' = None
  end.
Proof.
  unfold frame_feed, feed_preamble, feed_length, feed_header, feed_body, feed_print_string,
    header_event, body_event, slice_set, in_body.
  destruct (decode_state l) eqn:Hs; repeat (case_match; cbn [mbind run_bind]);
    intros; simplify_eq/=; rewrite ?Hs; try done; try congruence.
Qed.

(** What holds of the host's decoder at any time. *)
Record host_ok d : Prop := {
  hk_decoding : exists os, decoding (hd_decoder d) os;
  hk_header : hd_frame_header d = in_body (hd_decoder d);
}.

Definition host_error_ok (con : bool) (e : host_error) : Prop :=
  match e with
  | HFrameError _ | SubootFrame => True
  | QueueClosed => con = false
  | _ => False
  end.

Lemma reset_host_ok l header buffer :
  layer_sizes l -> host_ok (host_reset (MkHostDecoder l header buffer)).
Proof. intros Hl. split; [|done]. exists []. by apply reset_decoding. Qed.

Lemma host_byte_ok con d b :
  host_ok d -> u8 b ->
  exists d' r, host_byte con d b = Val (d', r) /\ host_ok d' /\
    match r with Ok _ => True | Err e => host_error_ok con e end.
Proof.
  destruct d as [l header buffer]. intros [[os Hd] Hh] Hb. cbn in Hd, Hh.
  destruct (frame_feed_ok l os b Hd Hb) as ([l1 r] & Hf & Hs).
  unfold host_byte. cbn [hd_decoder hd_frame_header hd_buffer]. rewrite Hf, run_bind_Val.
  destruct r as [o|e]; cbn [step_ok] in Hs.
  2: { eexists _, _. split; [done|]. split; [by apply reset_host_ok|done]. }
  destruct Hs as [Hd1 _]. pose proof (frame_feed_in_body _ _ _ _ Hf) as Hbody.
  assert (forall hdr buf, hdr = in_body l1 -> host_ok (MkHostDecoder l1 hdr buf)) as Hk.
  { intros hdr buf ->. split; [by exists (os ++ [o])|done]. }
  subst header. destruct o; cbn [host_output].
  - eexists _, _. split; [done|]. split; [|done]. by apply Hk.
  - destruct Hbody as [-> Hb1]. eexists _, _. split; [done|]. split; [|done]. by apply Hk.
  - destruct Hbody as [Hne Hb1]. destruct (in_body l) as [h|]; [|done].
    eexists _, _. split; [done|]. split; [|done]. by apply Hk.
  - destruct Hbody as [Hne Hb1]. destruct (in_body l) as [h|]; [|done].
    repeat case_match; eexists _, _; (split; [done|]); (split; [by apply Hk|]); by simplify_eq/=.
  - destruct Hbody as [-> Hb1]. eexists _, _. split; [done|]. split; [|done]. by apply Hk.
  - destruct Hbody as [-> Hb1]. case_match; (eexists _, _; split; [done|]; split; [|done]).
    + apply reset_host_ok, Hd1.
    + by apply Hk.
Qed.

Lemma process_ok con d buf :
  host_ok d -> bytes buf ->
  exists d' evs e, process_incoming_bytes con d buf = Val (d', evs, e) /\ host_ok d' /\
    match e with Some e => host_error_ok con e | None => True end.
Proof.
  intros Hd Hb. revert d Hd. induction Hb as [|b buf Hb Hbuf IH]; intros d Hd.
  - by exists d, [], None.
  - cbn [process_incoming_bytes].
    destruct (host_byte_ok con d b Hd Hb) as (d1 & r & -> & Hd1 & Hr). rewrite run_bind_Val.
    destruct r as [evs|e]; [|by exists d1, [], (Some e)].
    destruct (IH d1 Hd1) as (d2 & evs2 & e & -> & Hd2 & He). rewrite run_bind_Val. by eexists _, _, _.
Qed.

Lemma drive_ok con d reads :
  host_ok d -> Forall bytes reads ->
  exists d' evs es, drive_reads con d reads = Val (d', evs, es) /\ host_ok d' /\
    Forall (host_error_ok con) es.
Proof.
  intros Hd Hb. revert d Hd. induction Hb as [|buf reads Hb Hreads IH]; intros d Hd.
  - by exists d, [], [].
  - cbn [drive_reads]. destruct (process_ok con d buf Hd Hb) as (d1 & evs & e & -> & Hd1 & He).
    rewrite run_bind_Val. destruct (IH d1 Hd1) as (d2 & evs2 & es & -> & Hd2 & Hes).
    rewrite run_bind_Val. eexists _, _, _. split; [done|]. split; [done|].
    destruct e; cbn; [by constructor|done].
Qed.

Lemma new_host_ok : host_ok host_decoder_new.
Proof. split; [|done]. exists []. apply new_decoding. unfold fits, COBS_XOR. lia. Qed.

(** The mask of the decoder does not change. *)
Lemma host_byte_xor con d b d' r :
  host_byte con d b = Val (d', r) ->
  cobs_xor (fl_cobs (hd_decoder d')) = cobs_xor (fl_cobs (hd_decoder d)).
Proof.
  destruct d as [l header buffer]. unfold host_byte. cbn [hd_decoder hd_frame_header hd_buffer].
  destruct (frame_feed l b) as [[l1 o]|] eqn:Hf; [|done]. rewrite run_bind_Val.
  assert (cobs_xor (fl_cobs l1) = cobs_xor (fl_cobs l)) as Hx.
  { pose proof (frame_reset_xor l [b]) as Hr. cbn [frame_drive] in Hr.
    rewrite Hf, !run_bind_Val in Hr. rewrite <- (Hr _ _ eq_refl). by destruct o. }
  destruct o as [o|e]; [|by intros [= <- _]].
  unfold host_output. repeat case_match; intros; by simplify_eq/=.
Qed.

Lemma process_xor con d buf d' evs e :
  process_incoming_bytes con d buf = Val (d', evs, e) ->
  cobs_xor (fl_cobs (hd_decoder d')) = cobs_xor (fl_cobs (hd_decoder d)).
Proof.
  revert d evs. induction buf as [|b buf IH]; intros d evs; cbn [process_incoming_bytes].
  - by intros [= <- _ _].
  - destruct (host_byte con d b) as [[d1 r]|] eqn:Hb; [|done]. rewrite run_bind_Val.
    rewrite <- (host_byte_xor _ _ _ _ _ Hb). destruct r as [evs1|e1]; [|by intros [= <- _ _]].
    destruct (process_incoming_bytes con d1 buf) as [[[d2 e2] e3]|] eqn:Hp; [|done].
    rewrite run_bind_Val. intros [= <- _ ->]. by apply (IH _ _ Hp).
Qed.

(** After a frame error the decoder is as good as new. *)
Lemma process_frame_error con d buf d' evs e :
  process_incoming_bytes con d buf = Val (d', evs, Some (HFrameError e)) ->
  exists l, d' = MkHostDecoder (frame_reset l) None [].
Proof.
  revert d evs. induction buf as [|b buf IH]; intros d evs; cbn [process_incoming_bytes]; [done|].
  destruct (host_byte con d b) as [[d1 r]|] eqn:Hb; [|done]. rewrite run_bind_Val.
  destruct r as [evs1|e1].
  - destruct (process_incoming_bytes con d1 buf) as [[[d2 e2] e3]|] eqn:Hp; [|done].
    rewrite run_bind_Val. intros [= -> _ ->]. by apply (IH _ _ Hp).
  - intros [= -> _ ->]. unfold host_byte in Hb.
    destruct (frame_feed (hd_decoder d) b) as [[l1 [o|e1]]|]; [|..|done]; rewrite run_bind_Val in Hb.
    + unfold host_output in Hb. repeat case_match; by simplify_eq/=.
    + injection Hb as <- _. by eexists.
Qed.
End runs.

(** ** The claims *)

(** C11: the uploader reads what the loader sends.  Frames and legacy prints, in
    any number and cut into reads in any way, come out as the messages and
    texts that were sent, in order and without an error, provided that no
    legacy print directly follows a [PrintString] frame. *)
Theorem host_reads_stream `{CrcLaws} items reads wire :
  Forall item_ok items -> in_order false items ->
  items_wire items = Val wire -> List.concat reads = wire ->
  exists d, drive_reads true host_decoder_new reads = Val (d, map item_event items, []) /\
    host_idle d.
Proof.
  intros Hi Ho Hw Hr.
  destruct (process_items host_decoder_new items false new_idle) as (wire' & d & Hw' & Hp & Hd); try done.
  rewrite Hw in Hw'. injection Hw' as <-. rewrite <- Hr in Hp.
  exists d. split; [by apply drive_process|done].
Qed.

Lemma host_reads_stream_witness :
  exists d wire,
    items_wire [IFrame PrintString [0x68; 0x69]; IFrame ChunkReq [3]; IPrint [0x6f; 0x6b]] = Val wire /\
    drive_reads true host_decoder_new [take 9 wire; drop 9 wire] =
      Val (d, [HPrint [0x68; 0x69]; HMessage ChunkReq [3]; HPrint [0x6f; 0x6b]], []).
Proof.
  destruct (items_wire [IFrame PrintString [0x68; 0x69]; IFrame ChunkReq [3]; IPrint [0x6f; 0x6b]])
    as [wire|] eqn:Hw; [|vm_compute in Hw; discriminate Hw].
  destruct (host_reads_stream [IFrame PrintString [0x68; 0x69]; IFrame ChunkReq [3]; IPrint [0x6f; 0x6b]]
    [take 9 wire; drop 9 wire] wire) as (d & Hd & _).
  - apply Forall_cons_2; [split; [decide_now|cbn; lia]|].
    apply Forall_cons_2; [split; [decide_now|cbn; lia]|].
    apply Forall_cons_2; [split; [discriminate|cbn; lia]|]. by apply Forall_nil_2.
  - cbn [in_order]. split; [reflexivity|exact I].
  - exact Hw.
  - cbn [List.concat]. rewrite app_nil_r. apply take_drop.
  - exists d, wire. split; [reflexivity|exact Hd].
Defined.

(** No input makes the uploader's decoder panic, however it is cut into
    reads, and the three errors that its own state could raise never occur: what
    is reported is a broken frame, a legacy [PUT_PROG_INFO], or a queue that has
    been closed. *)
Theorem host_decoder_safe `{CrcLaws} con reads :
  Forall bytes reads ->
  exists d evs es, drive_reads con host_decoder_new reads = Val (d, evs, es) /\
    Forall (host_error_ok con) es.
Proof.
  intros Hb. destruct (drive_ok con host_decoder_new reads) as (d & evs & es & Hd & _ & He);
    [apply new_host_ok|done|eauto].
Qed.

Lemma host_decoder_safe_witness :
  exists d evs es, drive_reads false host_decoder_new [[1; 2]; [0x44; 0x44; 0x33]; [0x33]] = Val (d, evs, es) /\
    Forall (host_error_ok false) es.
Proof.
  apply (host_decoder_safe false [[1; 2]; [0x44; 0x44; 0x33]; [0x33]]).
  repeat (apply Forall_cons_2; [decide_now|]). by apply Forall_nil_2.
Defined.

(** A broken frame costs the rest of the read.  What follows the rejected
    byte in the same read has no effect at all, whole frames included; the
    frames of later reads are received. *)
Theorem host_error_drops_rest `{CrcLaws} junk rest d evs e msgs :
  process_incoming_bytes true host_decoder_new junk = Val (d, evs, Some (HFrameError e)) ->
  Forall payload_ok msgs ->
  exists wire d', wire_encode_all msgs = Val wire /\
    drive_reads true host_decoder_new [junk ++ rest; wire] =
      Val (d', evs ++ map frame_event msgs, [HFrameError e]) /\ host_idle d'.
Proof.
  intros Hj Hm. pose proof (process_xor _ _ _ _ _ _ Hj) as Hx.
  destruct (process_frame_error _ _ _ _ _ _ Hj) as [l ->].
  assert (host_idle (MkHostDecoder (frame_reset l) None [])) as Hd.
  { split; [|done]. pose proof (frame_reset_between l) as Hr. cbn in Hx. by rewrite Hx in Hr. }
  assert (forall d, host_idle d -> exists wire d', wire_encode_all msgs = Val wire /\
    process_incoming_bytes true d wire = Val (d', map frame_event msgs, None) /\ host_idle d') as Hall.
  { clear -Hm H0. induction Hm as [|[t p] msgs Hp Hm IH]; intros d Hd; [by exists [], d|].
    destruct (process_frame d t p Hd Hp) as (w & d1 & Hw & Hf & Hd1 & _).
    destruct (IH d1 Hd1) as (ws & d2 & Hws & Hfs & Hd2). exists (w ++ ws), d2.
    cbn [wire_encode_all map]. rewrite Hw, run_bind_Val, Hws, run_bind_Val.
    split; [done|]. split; [|done]. by rewrite (process_app _ _ _ _ _ _ Hf), Hfs. }
  destruct (Hall _ Hd) as (wire & d' & Hw & Hp & Hd'). exists wire, d'.
  split; [done|]. split; [|done]. cbn [drive_reads].
  by rewrite (process_error_app _ _ _ _ _ _ _ Hj), run_bind_Val, Hp, !run_bind_Val, app_nil_r.
Qed.

(** Runs that end with a frame error, as a boolean check. *)
Lemma ends_host_error `{Crc} (r : run (host_decoder * list host_event * option host_error)) :
  (match r with Val (_, _, Some (HFrameError _)) => true | _ => false end) = true ->
  exists d evs e, r = Val (d, evs, Some (HFrameError e)).
Proof. destruct r as [[[d evs] [[]|]]|]; try done. eauto. Qed.

Lemma host_error_drops_rest_witness :
  exists evs e wire d',
    wire_encode_all [(ChunkReq, [3])] = Val wire /\
    drive_reads true host_decoder_new [[0x55; 0x55; 3] ++ finished_wire; wire] =
      Val (d', evs ++ [HMessage ChunkReq [3]], [HFrameError e]).
Proof.
  destruct (ends_host_error (process_incoming_bytes true host_decoder_new [0x55; 0x55; 3]))
    as (d & evs & e & Hj); [vm_compute; reflexivity|].
  destruct (host_error_drops_rest [0x55; 0x55; 3] finished_wire d evs e [(ChunkReq, [3])] Hj)
    as (wire & d' & Hw & Hd & _).
  - apply Forall_cons_2; [split; [decide_now|cbn; lia]|]. by apply Forall_nil_2.
  - exists evs, e, wire, d'. split; [exact Hw|exact Hd].
Defined.

(** When a legacy print is over.  A print is shown whole if the buffer is
    empty; what a [PrintString] frame left in the buffer is otherwise shown
    before it, and so many bytes of the print's end are cut off and read as the
    beginning of a frame; and a print that is not longer than what was left is
    not shown at all. *)
Theorem host_legacy_print `{CrcLaws} d text :
  let old := hd_buffer d in
  let k := (length text - length old)%nat in
  host_idle d -> text <> [] -> Z.of_nat (length text) < 2 ^ 32 ->
  exists d', host_idle d' /\
    if decide (length old < length text)%nat then
      process_incoming_bytes true d (take (8 + k) (uart_write_str text)) =
        Val (d', [HPrint (old ++ take k text)], None) /\ hd_buffer d' = []
    else
      process_incoming_bytes true d (uart_write_str text) = Val (d', [], None) /\
      hd_buffer d' = old ++ text.
Proof. apply legacy_print_spec. Qed.

Lemma host_legacy_print_witness :
  exists d',
    process_incoming_bytes true (MkHostDecoder (frame_new COBS_XOR) None [0x61; 0x62])
      (take (8 + 3) (uart_write_str [1; 2; 3; 4; 5])) =
      Val (d', [HPrint [0x61; 0x62; 1; 2; 3]], None).
Proof.
  destruct (host_legacy_print (MkHostDecoder (frame_new COBS_XOR) None [0x61; 0x62]) [1; 2; 3; 4; 5])
    as (d' & _ & Hr & _).
  - split; [apply frame_new_between|reflexivity].
  - discriminate.
  - cbn. lia.
  - exists d'. exact Hr.
Defined.
