(* ===== verification/HostUpload.v ===== *)
(** The uploader's side of protocol V2: [upload_inner] and the handlers it
    dispatches to ([host/okdude/src/v2.rs]), [encode] of
    [host/okdude/src/upload.rs], and an upload seen from both sides.

    The messages that arrive are a list; the frames that are sent are the list
    of their bytes.  Sending fails only if the message cannot be serialised:
    the thread that writes the frames ends only after the upload. *)
From S2P Require Import Prelude Words Messages Crc Encode Decode Cobs Framing Postcard.
From S2P Require Import TransmitBuf FrameSink Timing Relocation Device Receiver ElfLoader V2 V2Upload.

(** [miniz_oxide::deflate::compress_to_vec] *)
Class Deflate := compress_to_vec : list Z -> Z -> list Z.

Module HostUpload.

Record host_info : Type := MkInfo {
  hi_compressed_len : Z;
  hi_decompressed_len : Z;
  hi_compressed_crc : Z;
  hi_decompressed_crc : Z;
  hi_chunk_size : Z;
}.

Section with_libraries.
Context `{Crc, Postcard}.

(** [encode] *)
Definition encode (msg : message) : run (result (list Z) postcard_error) :=
  match to_stdvec msg with
  | Err e => Val (Err e)
  | Ok serialized_message =>
    wire_bytes ← wire_encode (encode_message_type msg) serialized_message;
    Val (Ok wire_bytes)
  end.

(** The frames of a [send] whose failure is logged. *)
Definition sent (r : result (list Z) postcard_error) : list (list Z) :=
  match r with Ok w => [w] | Err _ => [] end.

(** [Info { chunk_size, ..*info }] *)
Definition set_chunk_size (chunk_size : Z) (info : host_info) : host_info :=
  MkInfo (hi_compressed_len info) (hi_decompressed_len info) (hi_compressed_crc info)
    (hi_decompressed_crc info) chunk_size.

(** [info], as [upload_inner] sets it up. *)
Definition info_new (uncompressed compressed : list Z) : host_info :=
  MkInfo (wrap 32 (Z.of_nat (length compressed))) (wrap 32 (Z.of_nat (length uncompressed)))
    (crc32_hash compressed) (crc32_hash uncompressed) 0.

Definition info_metadata (info : host_info) (details : FormatDetails) : metadata :=
  MkMetadata (hi_compressed_crc info) (hi_compressed_len info) (hi_decompressed_crc info)
    (hi_decompressed_len info) details.

Definition dispatch_metadata_req (info : host_info) (details : FormatDetails)
  : run (list (list Z)) :=
  r ← encode (MMetadata (info_metadata info details));
  Val (sent r).

Definition metadata_agrees (info : host_info) (details : FormatDetails) (md : metadata) : bool :=
  (deflated_crc md =? hi_compressed_crc info) && (deflated_len md =? hi_compressed_len info) &&
  (inflated_crc md =? hi_decompressed_crc info) && (inflated_len md =? hi_decompressed_len info) &&
  bool_decide (format_details md = details).

(** The frames sent, and the new [info] if there is one. *)
Definition dispatch_metadata_ack (chunk_size : Z) (md : metadata) (info : host_info)
  (details : FormatDetails) : run (list (list Z) * option host_info) :=
  let ok := metadata_agrees info details md in
  r ← encode (MMetadataAckAck ok);
  Val (sent r,
    match r with
    | Err _ => None
    | Ok _ =>
      if ok then Some (set_chunk_size chunk_size info) else None
    end).

(** [usize] has 64 bits on the host. *)
Definition dispatch_chunk_req (which : Z) (info : host_info) (compressed_data : list Z)
  : run (list (list Z)) :=
  let chunk_begin := wrap 64 (which * hi_chunk_size info) in
  let chunk_end := Z.min (wrap 64 (chunk_begin + hi_chunk_size info))
                     (Z.of_nat (length compressed_data)) in
  bs ← slice_range compressed_data (Z.to_nat chunk_begin) (Z.to_nat chunk_end);
  r ← encode (MChunk which bs);
  Val (sent r).

(** One message of the loop of [upload_inner]: the new [info], the frames sent,
    and whether the loop ends. *)
Definition upload_step (details : FormatDetails) (compressed : list Z) (info : host_info)
  (m : MessageType * list Z) : run (host_info * list (list Z) * bool) :=
  let '(typ, msg) := m in
  match typ with
  | MetadataReq =>
    match from_bytes MetadataReq msg with
    | Ok MMetadataReq =>
      out ← dispatch_metadata_req info details;
      Val (info, out, false)
    | _ => Val (info, [], false)
    end
  | MetadataAck =>
    match from_bytes MetadataAck msg with
    | Ok (MMetadataAck chunk_size md) =>
      '(out, new_info) ← dispatch_metadata_ack chunk_size md info details;
      Val (default info new_info, out, false)
    | _ => Val (info, [], false)
    end
  | ChunkReq =>
    match from_bytes ChunkReq msg with
    | Ok (MChunkReq which) =>
      out ← dispatch_chunk_req which info compressed;
      Val (info, out, false)
    | _ => Val (info, [], false)
    end
  | Booting =>
    r ← encode MBootingAck;
    Val (info, sent r, true)
  | _ => Val (info, [], false)
  end.

(** The loop, over the messages that arrive. *)
Fixpoint upload_loop (details : FormatDetails) (compressed : list Z) (info : host_info)
  (incoming : list (MessageType * list Z)) : run (host_info * list (list Z) * bool) :=
  match incoming with
  | [] => Val (info, [], false)
  | m :: incoming =>
    '(info, out, finished) ← upload_step details compressed info m;
    if (finished : bool) then Val (info, out, true)
    else
      '(info, out', finished) ← upload_loop details compressed info incoming;
      Val (info, out ++ out', finished)
  end.

(** [upload_inner] of a flat binary. *)
Definition upload_bin `{Deflate} (load_address : Z) (uncompressed : list Z)
  (incoming : list (MessageType * list Z)) : run (host_info * list (list Z) * bool) :=
  let compressed := compress_to_vec uncompressed 5 in
  upload_loop (Bin load_address) compressed (info_new uncompressed compressed) incoming.
End with_libraries.
End HostUpload.
Export HostUpload.

(** ** Chunks *)

Section slices.
Implicit Types (l : list Z).

(** Chunk [k] of the compressed program. *)
Definition chunk_at (size : nat) l (k : nat) : list Z := take size (drop (k * size) l).
Definition slices (size n : nat) l : list (list Z) := map (chunk_at size l) (seq 0 n).

Lemma slices_S size n l : slices size (S n) l = take size l :: slices size n (drop size l).
Proof.
  unfold slices. cbn [seq map]. f_equal. rewrite <- seq_shift, map_map. apply map_ext.
  intros k. unfold chunk_at. by rewrite drop_drop.
Qed.

Lemma concat_slices size n l : (length l <= n * size)%nat -> List.concat (slices size n l) = l.
Proof.
  revert l. induction n as [|n IH]; intros l Hl.
  - destruct l; [done|cbn in Hl; lia].
  - rewrite slices_S. cbn [List.concat]. rewrite IH; [apply take_drop|].
    rewrite length_drop. lia.
Qed.

Lemma slices_lookup size n l k chunk :
  slices size n l !! k = Some chunk -> (k < n)%nat /\ chunk = chunk_at size l k.
Proof.
  unfold slices. rewrite list_lookup_fmap. intros Hk.
  destruct (decide (k < n)%nat); [|by rewrite lookup_seq_ge in Hk by lia].
  rewrite lookup_seq_lt in Hk by lia. by injection Hk as <-.
Qed.
End slices.

(** ** What the uploader sends *)

Section upload.
Context `{CrcLaws, PostcardLaws}.
Implicit Types (info : host_info) (compressed : list Z).

Lemma wire_encode_total t payload :
  payload_ok (t, payload) -> exists w, wire_encode t payload = Val w.
Proof. intros [Hb Hn]. eexists. by apply wire_encode_spec. Qed.

(** A frame is made from one message type and one payload only. *)
Lemma wire_encode_inj t1 p1 t2 p2 w :
  payload_ok (t1, p1) -> payload_ok (t2, p2) ->
  wire_encode t1 p1 = Val w -> wire_encode t2 p2 = Val w -> t1 = t2 /\ p1 = p2.
Proof.
  intros [Hb1 Hn1] [Hb2 Hn2] Hw1 Hw2. pose proof (frame_new_between COBS_XOR) as Hl.
  destruct (decode_frame _ t1 p1 Hl Hb1 Hn1) as (w1 & l1 & o1 & E1 & Hf1 & Hv1 & _).
  destruct (decode_frame _ t2 p2 Hl Hb2 Hn2) as (w2 & l2 & o2 & E2 & Hf2 & Hv2 & _).
  rewrite Hw1 in E1. injection E1 as <-. rewrite Hw2 in E2. injection E2 as <-.
  rewrite Hf1 in Hf2. injection Hf2 as <- <-. rewrite Hv1 in Hv2.
  injection Hv2 as Ht Hlen Hp. split; [done|].
  apply app_inj_2 in Hp as [Hp _]; [|done].
  assert (Inj (=) (=) FPayload) as Hinj by (intros x y; congruence).
  by apply (list_fmap_eq_inj FPayload) in Hp.
Qed.

Lemma encode_total msg :
  message_ok msg -> Z.of_nat (message_data msg) < 2 ^ 20 ->
  exists r, encode msg = Val r /\ forall w, r = Ok w ->
    exists payload, to_stdvec msg = Ok payload /\ payload_ok (encode_message_type msg, payload) /\
      wire_encode (encode_message_type msg) payload = Val w.
Proof.
  intros Hok Hd. unfold encode. destruct (to_stdvec msg) as [bs|e] eqn:Hs; [|by exists (Err e)].
  assert (payload_ok (encode_message_type msg, bs)) as Hp.
  { split; cbn [fst snd]; [by eapply to_stdvec_bytes|]. apply to_stdvec_size in Hs.
    lia. }
  destruct (wire_encode_total _ _ Hp) as [w Hw]. exists (Ok w). rewrite Hw, run_bind_Val.
  split; [done|]. intros w' [= <-]. eauto.
Qed.

Lemma serve_chunk which info compressed :
  u32 which -> u32 (hi_chunk_size info) -> Z.of_nat (length compressed) < 2 ^ 63 ->
  dispatch_chunk_req which info compressed =
  if decide (which * hi_chunk_size info <= Z.of_nat (length compressed)) then
    r ← encode (MChunk which (take (Z.to_nat (hi_chunk_size info))
      (drop (Z.to_nat (which * hi_chunk_size info)) compressed)));
    Val (sent r)
  else Panic.
Proof.
  intros Hw Hs Hc. unfold fits in *. unfold dispatch_chunk_req. set (size := hi_chunk_size info) in *.
  assert (which * size + size < 2 ^ 64) by nia. assert (0 <= which * size) by nia.
  rewrite !wrap_id by (unfold fits; (lia || rewrite wrap_id; unfold fits; lia)).
  case_decide.
  - rewrite slice_range_Val by lia. rewrite run_bind_Val. f_equal. f_equal. f_equal.
    destruct (Z.min_spec (which * size + size) (Z.of_nat (length compressed))) as [[? ->]|[? ->]].
    + f_equal. lia.
    + rewrite !take_ge; [done|rewrite length_drop; lia..].
  - unfold slice_range. rewrite decide_False by lia. done.
Qed.

(** ** A session with a device *)

(** The chunks of an upload. *)
Definition chunk_number compressed : nat :=
  Z.to_nat ((Z.of_nat (length compressed) + CHUNK_SIZE - 1) / CHUNK_SIZE).
Definition chunks_of compressed : list (list Z) :=
  slices (Z.to_nat CHUNK_SIZE) (chunk_number compressed) compressed.

Lemma chunk_number_bounds compressed :
  0 <= Z.of_nat (chunk_number compressed) /\
  (Z.of_nat (chunk_number compressed) - 1) * CHUNK_SIZE < Z.of_nat (length compressed) <=
    Z.of_nat (chunk_number compressed) * CHUNK_SIZE.
Proof.
  unfold chunk_number, CHUNK_SIZE. set (len := Z.of_nat (length compressed)).
  pose proof (Z.div_mod (len + 4096 - 1) 4096 ltac:(lia)).
  pose proof (Z.mod_pos_bound (len + 4096 - 1) 4096 ltac:(lia)).
  pose proof (Z.div_pos (len + 4096 - 1) 4096 ltac:(lia) ltac:(lia)). lia.
Qed.

Lemma concat_chunks_of compressed : List.concat (chunks_of compressed) = compressed.
Proof.
  apply concat_slices. pose proof (chunk_number_bounds compressed) as [? [_ Hc]].
  generalize dependent (chunk_number compressed). intros n ? Hc. unfold CHUNK_SIZE in *. lia.
Qed.

End upload.

(** ** The claims *)

(** Which bytes answer a chunk request.  A request for a chunk that begins
    within the compressed program is answered with the bytes from there on, one
    chunk size of them or as many as are left; a request beyond its end panics.
    The 64-bit arithmetic never wraps. *)
Theorem host_serves_chunk `{CrcLaws, PostcardLaws} which info compressed :
  u32 which -> u32 (hi_chunk_size info) -> Z.of_nat (length compressed) < 2 ^ 63 ->
  dispatch_chunk_req which info compressed =
  if decide (which * hi_chunk_size info <= Z.of_nat (length compressed)) then
    r ← encode (MChunk which (take (Z.to_nat (hi_chunk_size info))
      (drop (Z.to_nat (which * hi_chunk_size info)) compressed)));
    Val (sent r)
  else Panic.
Proof. apply serve_chunk. Qed.

Lemma host_serves_chunk_witness :
  dispatch_chunk_req 1 (MkInfo 5 9 0 0 3) [1; 2; 3; 4; 5] =
    (r ← encode (MChunk 1 [4; 5]); Val (sent r)) /\
  dispatch_chunk_req 2 (MkInfo 5 9 0 0 3) [1; 2; 3; 4; 5] = Panic.
Proof.
  split.
  - rewrite (host_serves_chunk 1 (MkInfo 5 9 0 0 3) [1; 2; 3; 4; 5]).
    + reflexivity.
    + decide_now.
    + decide_now.
    + reflexivity.
  - rewrite (host_serves_chunk 2 (MkInfo 5 9 0 0 3) [1; 2; 3; 4; 5]).
    + reflexivity.
    + decide_now.
    + decide_now.
    + reflexivity.
Defined.
