(* ===== verification/UploadSystem.v ===== *)
(** An upload of a flat binary seen from both sides: the device of [V2], the
    uploader of [HostUpload], and a line between them that may lose, repeat and
    reorder frames.

    The system is a step relation.  A frame that was sent once can arrive any
    number of times, or never; a message that the device tried to send counts as
    sent, whether or not its transmit buffer had room for it. *)
From Stdlib Require Import String.
From stdpp Require Import relations.
From S2P Require Import Prelude Words Messages Crc Encode Decode Cobs Framing Postcard.
From S2P Require Import TransmitBuf FrameSink Timing Relocation Device Receiver ElfLoader V2 V2Upload HostUpload.

Module UploadSystem.
Section with_libraries.
Context `{Crc, Postcard, Render, ElfParse, Inflate, Machine, Deflate}.

(** What a session sends in its state. *)
Definition state_message (v : v2) : message :=
  match v2_st v with
  | RequestMetadata => MMetadataReq
  | AckMetadata md => MMetadataAck CHUNK_SIZE md
  | RequestChunk which _ _ => MChunkReq (wrap 32 which)
  | Boot _ => MBooting
  end.

(** A message as the other side's decoder reports it. *)
Definition packet_of (m : message) : list (MessageType * list Z) :=
  match to_stdvec m with Ok p => [(encode_message_type m, p)] | Err _ => [] end.

(** A frame that arrives is one that was sent. *)
Definition from_line (down : list (list Z)) (h : FrameHeader) (payload : list Z) : Prop :=
  payload_ok (message_type h, payload) /\
  exists w, w ∈ down /\ wire_encode (message_type h) payload = Val w.

(** The device's session, what it sent, the uploader's [info], and what it sent;
    the status is [Continue] while the session goes on. *)
Record system : Type := MkSystem {
  sy_v2 : v2;
  sy_device : device;
  sy_status : ProtocolStatus unit;
  sy_up : list (MessageType * list Z);
  sy_info : host_info;
  sy_down : list (list Z);
  sy_done : bool;
}.

Section upload.
Variables (load_address : Z) (program : list Z).

Definition upload_compressed : list Z := compress_to_vec program 5.

Definition sys_init (v : v2) (d : device) : system :=
  MkSystem v d Continue [] (info_new program upload_compressed) [] false.

Inductive sys_step : system -> system -> Prop :=
  | sys_beat i v d up info down fin v' d' s :
    v2_beat (P := unit) i v d = Val (v', d', s) ->
    sys_step (MkSystem v d Continue up info down fin)
      (MkSystem v' d' Continue (up ++ if should_send i v then packet_of (state_message v) else [])
        info down fin)
  | sys_packet h payload v d up info down fin v' d' s :
    from_line down h payload ->
    v2_handle_packet (P := unit) h payload v d = Val (v', d', s) ->
    sys_step (MkSystem v d Continue up info down fin) (MkSystem v' d' s up info down fin)
  | sys_host m v d st up info down info' out fin :
    m ∈ up ->
    upload_step (Bin load_address) upload_compressed info m = Val (info', out, fin) ->
    sys_step (MkSystem v d st up info down false) (MkSystem v d st up info' (down ++ out) fin).

(** No panic is possible, and a session that ends has put the program where it
    belongs. *)
Record sys_safe (s : system) : Prop := {
  ss_status : match sy_status s with
    | Continue => True
    | Entered m e => e = load_address /\ mem_read m load_address (length program) = program
    | _ => False
    end;
  ss_beat i : sy_status s = Continue -> v2_beat (P := unit) i (sy_v2 s) (sy_device s) <> Panic;
  ss_packet h payload : sy_status s = Continue -> from_line (sy_down s) h payload ->
    v2_handle_packet (P := unit) h payload (sy_v2 s) (sy_device s) <> Panic;
  ss_host m : m ∈ sy_up s ->
    upload_step (Bin load_address) upload_compressed (sy_info s) m <> Panic;
}.
End upload.
End with_libraries.
End UploadSystem.
Export UploadSystem.

(** The inflater inflates what the compressor compressed. *)
Class DeflateLaws `{Deflate, InflateStream} : Prop := {
  compress_inflates data level : inflating inflate_new (compress_to_vec data level) data;
  compress_bytes data level : bytes data -> bytes (compress_to_vec data level);
  compress_nonempty data level : data <> [] -> compress_to_vec data level <> [];
}.

(** ** What ends up in memory *)

Section delivered.
Context `{CrcLaws, PostcardLaws, RenderLaws, ElfParse, InflateLaws, Machine}.

Lemma loader_feed_all_bin bl m pieces :
  loader_feed_all (BinLoader bl) m pieces =
  (BinLoader (bin_receive_all bl m pieces).1, (bin_receive_all bl m pieces).2).
Proof.
  revert bl m. induction pieces as [|p pieces IH]; intros bl m; [done|].
  rewrite loader_feed_all_cons. cbn [loader_feed bin_receive_all].
  destruct (bin_receive_bytes bl m p) as [bl1 m1]. cbn [fst snd]. apply IH.
Qed.

(** Nothing straddles the end of a program that is moved as a whole. *)
Lemma no_straddle_whole n w pieces :
  w + Z.of_nat (length (List.concat pieces)) <= n -> no_straddle n w pieces.
Proof.
  revert w. induction pieces as [|p pieces IH]; intros w Hn; [done|].
  cbn [List.concat no_straddle] in *. rewrite length_app in Hn. split; [lia|].
  apply IH. lia.
Qed.

Lemma delivered_enters {P} program md a m0 d r :
  layout_ok a (inflated_len md) self_end -> a + inflated_len md <= self_end -> a < self_end ->
  inflated_len md mod 4 = 0 -> inflated_len md = Z.of_nat (length program) ->
  inflated_crc md = crc32_hash program ->
  delivered program (BinLoader (bin_loader_new self_end a md)) m0 (dv_memory d) r ->
  exists b m, r = Ok b /\ booter_enter (P := P) b d = Entered m a /\
    mem_read m a (length program) = program.
Proof.
  intros Hly Hend Hlt Hwords Hlen Hcrc (pieces & l & <- & Hf & Hv).
  rewrite loader_feed_all_bin in Hf. injection Hf as <- Hm. cbn [loader_verdict] in Hv.
  destruct (bin_upload_boots_spec md self_end a pieces stub_code m0 Hly Hlt Hlen Hcrc)
    as (rel & m' & Hb & Hprog).
  - rewrite Z.min_l by lia. replace (a + inflated_len md - a) with (inflated_len md) by lia.
    apply no_straddle_whole. lia.
  - rewrite Z.min_l by lia. by replace (a + inflated_len md - a) with (inflated_len md) by lia.
  - destruct (bin_receive_all _ m0 pieces) as [bl m1]. cbn [fst snd] in *. subst m1.
    destruct Hb as [Hfin Hrel]. rewrite Hfin in Hv.
    exists (BRelocation rel), m'. split; [done|]. split; [|done].
    unfold booter_enter, stub_fuel. by rewrite Hrel.
Qed.
End delivered.

(** ** The invariant *)

Section invariant.
Context `{CrcLaws, PostcardLaws, RenderLaws, ElfParse, InflateLaws, Machine}.
Context `{!Deflate, !InflateStream, !InflateStreamLaws, !DeflateLaws}.
Implicit Types (v : v2) (d : device) (info : host_info).
Variables (a : Z) (program : list Z).

Definition up_compressed : list Z := upload_compressed program.
Definition up_info : host_info := info_new program up_compressed.
Definition up_metadata : metadata := info_metadata up_info (Bin a).
Definition up_chunks : list (list Z) := chunks_of up_compressed.
Definition up_loader : LoaderEnum := BinLoader (bin_loader_new self_end a up_metadata).

(** The programs that this is about: a word-aligned load address, the whole
    program below the end of the loader, a whole number of words. *)
Record upload_ok : Prop := {
  uo_bytes : bytes program;
  uo_compressed : Z.of_nat (length up_compressed) + CHUNK_SIZE <= 2 ^ 32;
  uo_layout : layout_ok a (Z.of_nat (length program)) self_end;
  uo_below : a < self_end /\ a + Z.of_nat (length program) <= self_end;
  uo_words : Z.land a 3 = 0 /\ Z.of_nat (length program) mod 4 = 0;
  uo_low : a < 0x10000000;
  uo_nonempty : program <> [];
}.
Hypothesis Hup : upload_ok.

Lemma up_lens :
  inflated_len up_metadata = Z.of_nat (length program) /\
  deflated_len up_metadata = Z.of_nat (length up_compressed).
Proof.
  destruct Hup as [_ Hc [] _ _ _ _]. unfold CHUNK_SIZE in Hc.
  cbn [up_metadata info_metadata inflated_len deflated_len up_info info_new hi_decompressed_len
    hi_compressed_len]. rewrite !wrap_id by (unfold fits; lia). done.
Qed.

Lemma crc_fits l : u32 (crc32_hash l).
Proof. rewrite crc32_hash_spec. apply hasher_finalize_u32. Qed.

Lemma up_metadata_ok : load_ok up_metadata.
Proof.
  destruct Hup as [_ _ [] _ [Ha _] Hlow _].
  split; [|done]. unfold metadata_ok. cbn [up_metadata info_metadata inflated_len deflated_len
    up_info info_new hi_decompressed_len hi_compressed_len deflated_crc inflated_crc
    hi_compressed_crc hi_decompressed_crc format_details details_ok].
  repeat split; try apply crc_fits; try (apply wrap_fits; lia); lia.
Qed.

Lemma length_up_chunks : length up_chunks = chunk_number up_compressed.
Proof. unfold up_chunks, chunks_of, slices. by rewrite length_map, length_seq. Qed.

Lemma up_chunks_ok : chunks_ok up_chunks.
Proof.
  destruct Hup as [_ Hc _ _ _ _ _]. split.
  - apply list.Forall_forall. intros c Hin. apply list_elem_of_lookup in Hin as [k Hk].
    apply slices_lookup in Hk as [_ ->]. unfold chunk_at. rewrite length_take.
    unfold INPUT_SIZE, CHUNK_SIZE. lia.
  - rewrite length_up_chunks. pose proof (chunk_number_bounds up_compressed).
    unfold CHUNK_SIZE in *. lia.
Qed.

Lemma up_chunk_count : chunk_count up_metadata = Z.of_nat (length up_chunks).
Proof.
  destruct Hup as [_ Hc _ _ _ _ _]. unfold chunk_count. rewrite (proj2 up_lens), length_up_chunks.
  rewrite wrap_id by (unfold fits, CHUNK_SIZE in *; lia). unfold chunk_number.
  rewrite Z2Nat.id; [done|]. apply Z.div_pos; unfold CHUNK_SIZE; lia.
Qed.

Lemma up_chunks_nonempty : up_chunks <> [].
Proof.
  intros Hn. pose proof (concat_chunks_of up_compressed) as Hc. fold up_chunks in Hc.
  rewrite Hn in Hc. by apply (compress_nonempty program 5 (uo_nonempty Hup)).
Qed.

Lemma new_up_loader : new_loader up_metadata = Val up_loader.
Proof.
  destruct Hup as [_ _ [] _ _ _ _]. unfold new_loader. cbn [up_metadata info_metadata format_details].
  by rewrite decide_True by (unfold fits; lia).
Qed.

(** The uploader's [info] starts without a chunk size and may get one. *)
Definition ready info : Prop := hi_chunk_size info = CHUNK_SIZE.
Definition info_fine info : Prop :=
  info = up_info \/ info = set_chunk_size CHUNK_SIZE up_info.

Definition up_message info (msg : message) : Prop :=
  msg = MMetadataReq \/ msg = MMetadataAck CHUNK_SIZE up_metadata \/ msg = MBooting \/
  (ready info /\ exists k, msg = MChunkReq (Z.of_nat k) /\ (k < length up_chunks)%nat).
Definition up_ok info (m : MessageType * list Z) : Prop :=
  exists msg, to_stdvec msg = Ok m.2 /\ m.1 = encode_message_type msg /\ message_ok msg /\
    up_message info msg.

Definition down_message info (msg : message) : Prop :=
  msg = MMetadata up_metadata \/ msg = MBootingAck \/
  (ready info /\ msg = MMetadataAckAck true) \/
  exists k chunk, msg = MChunk (Z.of_nat k) chunk /\ up_chunks !! k = Some chunk.
Definition down_ok info (w : list Z) : Prop :=
  exists msg payload, message_ok msg /\ to_stdvec msg = Ok payload /\
    payload_ok (encode_message_type msg, payload) /\
    wire_encode (encode_message_type msg) payload = Val w /\ down_message info msg.

(** Where the session is. *)
Definition early v d : Prop :=
  v2_ok v /\ device_ok d /\ (v2_st v = RequestMetadata \/ v2_st v = AckMetadata up_metadata) /\
  v2_inflate_state v = inflate_new /\ v2_remainder v = 0%nat.
Definition late v d : Prop :=
  exists m0, (exists k, transferring up_chunks program up_loader m0 k v d) \/
             (exists b, booting program up_loader m0 b v d).
Definition phase info v d : Prop := early v d \/ ready info /\ late v d.

Definition sys_inv (s : system) : Prop :=
  info_fine (sy_info s) /\ Forall (up_ok (sy_info s)) (sy_up s) /\
  Forall (down_ok (sy_info s)) (sy_down s) /\
  match sy_status s with
  | Continue => phase (sy_info s) (sy_v2 s) (sy_device s)
  | Entered m e => e = a /\ mem_read m a (length program) = program
  | _ => False
  end.

Lemma phase_ok info v d : phase info v d -> v2_ok v /\ device_ok d.
Proof. intros [(? & ? & _)|(_ & m0 & [[k []]|[b []]])]; done. Qed.

(** What a session sends in any phase. *)
Lemma phase_message info v d :
  phase info v d -> message_ok (state_message v) /\ up_message info (state_message v).
Proof.
  pose proof (proj1 up_metadata_ok) as Hmd. pose proof up_chunks_ok as [_ Hn]. unfold up_message.
  intros [(_ & _ & Hst & _)|(Hr & m0 & [[k [_ _ Hk (l & Hst & _) _]]|[b [_ _ Hst _]]])];
    unfold state_message.
  - destruct Hst as [->| ->]; (split; [done|auto]).
  - rewrite Hst, wrap_id by (unfold fits; lia). split; [cbn; unfold fits; lia|].
    right; right; right. split; [done|]. by exists k.
  - rewrite Hst. split; [done|auto].
Qed.

Lemma packet_of_ok info v d : phase info v d -> Forall (up_ok info) (packet_of (state_message v)).
Proof.
  intros Hp. destruct (phase_message info v d Hp) as [Hok Hm]. unfold packet_of.
  destruct (to_stdvec (state_message v)) as [p|] eqn:Hs; [|done].
  constructor; [|done]. by exists (state_message v).
Qed.

(** A packet that arrives carries one of the uploader's messages. *)
Lemma from_line_message info down h payload :
  Forall (down_ok info) down -> from_line down h payload ->
  bytes payload /\ exists msg, message_type h = encode_message_type msg /\
    from_bytes (message_type h) payload = Ok msg /\ down_message info msg.
Proof.
  intros Hd (Hp & w & Hw & He). split; [apply Hp|]. rewrite list.Forall_forall in Hd.
  destruct (Hd w Hw) as (msg & payload' & Hok & Hs & Hp' & He' & Hm).
  destruct (wire_encode_inj _ _ _ _ _ Hp Hp' He He') as [Ht ->].
  exists msg. split; [done|]. split; [|done]. rewrite Ht. by apply from_bytes_to_stdvec.
Qed.

Lemma down_honest info down h payload :
  Forall (down_ok info) down -> from_line down h payload -> honest up_chunks (EvPacket h payload).
Proof.
  intros Hd Hf. destruct (from_line_message info down h payload Hd Hf) as (Hb & msg & Ht & Hm & Hdm).
  split; [done|]. intros k bs chunk Hty Hp Hk. rewrite Hty, Hp in Hm. injection Hm as <-.
  destruct Hdm as [|[|[[_ ?]|(k' & chunk' & Heq & Hk')]]]; try done.
  injection Heq as Hkk ->. replace k' with k in Hk' by lia. congruence.
Qed.

(** ** The device's steps *)

Lemma early_quiet info v d d' :
  early v d -> quiet d d' -> phase info v d'.
Proof. intros (? & ? & ? & ? & ?) Q. left. split; [done|]. split; [apply Q|done]. Qed.

Lemma early_metadata {P} info h payload v d :
  early v d -> message_type h = Metadata -> from_bytes Metadata payload = Ok (MMetadata up_metadata) ->
  exists v' d', v2_handle_packet (P := P) h payload v d = Val (v', d', Continue) /\
    phase info v' d' /\ v2_st v' = AckMetadata up_metadata.
Proof.
  intros He Ht Hm. pose proof He as (Hok & Hd & Hst & Hi & Hr).
  unfold v2_handle_packet. rewrite Ht, Hm.
  destruct (say_quiet "[device/v2] V2Timeouts={:?}" [] d Hd) as (d1 & -> & Q1).
  rewrite run_bind_Val. unfold recv_metadata. destruct Hst as [Hst|Hst]; rewrite Hst.
  - destruct (check_metadata_spec up_metadata d1 (proj1 up_metadata_ok) (qu_ok _ _ Q1))
      as (d2 & ok & -> & Q2 & Hiff). rewrite run_bind_Val.
    rewrite (proj2 Hiff up_metadata_ok).
    destruct (at_baud_total TRY_RESEND_CHUNK _ (vo_baud _ Hok)) as [t ->]. rewrite !run_bind_Val.
    eexists _, _. split; [done|]. split; [|done]. left. destruct Hok.
    split; [split; [apply up_metadata_ok|done..]|].
    split; [apply set_timeouts_ok, Q2|]. cbn [v2_st set_once set_st]. auto.
  - edestruct say_quiet as (d2 & -> & Q2); [apply Q1|]. rewrite !run_bind_Val.
    eexists _, _. split; [done|]. split; [|done]. by eapply early_quiet; [|eapply quiet_trans].
Qed.

Lemma early_ack {P} info h payload v d :
  early v d -> ready info -> message_type h = MetadataAckAck ->
  from_bytes MetadataAckAck payload = Ok (MMetadataAckAck true) ->
  exists v' d', v2_handle_packet (P := P) h payload v d = Val (v', d', Continue) /\
    phase info v' d' /\
    (v2_st v = AckMetadata up_metadata -> exists m0, transferring up_chunks program up_loader m0 0 v' d').
Proof.
  intros He Hrd Ht Hm. pose proof He as (Hok & Hd & Hst & Hi & Hr).
  unfold v2_handle_packet. rewrite Ht, Hm. destruct Hst as [Hst|Hst].
  - unfold recv_metadata_ack_ack. rewrite Hst.
    edestruct say_quiet as (d2 & -> & Q2); [exact Hd|]. rewrite !run_bind_Val.
    eexists _, _. split; [done|]. split; [by eapply early_quiet|]. congruence.
  - destruct (ack_starts up_metadata up_chunks program v d up_loader) as (v' & -> & Htr);
      try done; [apply up_chunks_ok|apply up_chunks_nonempty|apply new_up_loader|apply up_chunk_count| |].
    { unfold up_chunks. rewrite concat_chunks_of, Hi. apply compress_inflates. }
    rewrite run_bind_Val. eexists _, _. split; [done|]. split; [|by eexists].
    right. split; [done|]. eexists. left. eauto.
Qed.

Lemma early_other {P} info h payload v d :
  early v d -> message_type h = Chunk \/ message_type h = BootingAck ->
  exists v' d', v2_handle_packet (P := P) h payload v d = Val (v', d', Continue) /\ phase info v' d'.
Proof.
  intros He Ht. pose proof He as (Hok & Hd & Hst & Hi & Hr).
  assert (forall text args, exists v' d', (d ← say text args d; Val (v, d, @Continue P)) =
    Val (v', d', Continue) /\ phase info v' d') as Hsay.
  { intros text args. destruct (say_quiet text args d Hd) as (d' & -> & Q). rewrite run_bind_Val.
    eexists _, _. split; [done|]. by eapply early_quiet. }
  unfold v2_handle_packet. destruct Ht as [-> | ->].
  - destruct (from_bytes Chunk payload) as [[]|]; try apply Hsay. unfold recv_chunk.
    destruct Hst as [-> | ->]; (edestruct say_quiet as (d2 & -> & Q2); [exact Hd|];
      rewrite !run_bind_Val; eexists _, _; split; [done|]; by eapply early_quiet).
  - unfold recv_booting_ack. destruct Hst as [-> | ->]; apply Hsay.
Qed.

Lemma early_step {P} info down h payload v d :
  early v d -> Forall (down_ok info) down -> from_line down h payload ->
  exists v' d', v2_handle_packet (P := P) h payload v d = Val (v', d', Continue) /\ phase info v' d'.
Proof.
  intros He Hd Hf. destruct (from_line_message info down h payload Hd Hf) as (_ & msg & Ht & Hm & Hdm).
  destruct Hdm as [->|[->|[[Hr ->]|(k & chunk & -> & Hk)]]]; rewrite Ht in Hm.
  - destruct (early_metadata (P := P) info h payload v d) as (v' & d' & ? & ? & _); eauto.
  - apply early_other; [done|by right].
  - destruct (early_ack (P := P) info h payload v d) as (v' & d' & ? & ? & _); eauto.
  - apply early_other; [done|by left].
Qed.

(** What an arriving packet does in any phase. *)
Lemma packet_step {P} info down h payload v d :
  phase info v d -> Forall (down_ok info) down -> from_line down h payload ->
  exists v' d' s, v2_handle_packet (P := P) h payload v d = Val (v', d', s) /\
    match s with
    | Continue => phase info v' d'
    | Entered m e => e = a /\ mem_read m a (length program) = program
    | _ => False
    end.
Proof.
  intros [He|[Hr Hl]] Hd Hf.
  { destruct (early_step (P := P) info down h payload v d He Hd Hf) as (v' & d' & -> & Hp). by eexists _, _, _. }
  pose proof (down_honest info down h payload Hd Hf) as Hh. destruct Hl as [m0 Hl].
  assert (exists v' d' s, v2_handle_packet (P := P) h payload v d = Val (v', d', s) /\
    exists k, session_end up_chunks program up_loader m0 k v' d' s) as (v' & d' & s & He & k & Hend).
  { destruct Hl as [[k Htr]|[b Hb]].
    - destruct (transferring_step (P := P) _ _ _ _ _ _ _ _ up_chunks_ok Htr Hh)
        as (v' & d' & s & ? & ?). by eexists _, _, _; split; [|eexists].
    - destruct (booting_step (P := P) up_chunks _ _ _ 0 _ _ _ (EvPacket h payload) Hb)
        as (v' & d' & s & ? & ? & _). by eexists _, _, _; split; [|eexists]. }
  exists v', d', s. split; [done|]. pose proof up_lens as [Hlen _].
  assert (forall r, delivered program up_loader m0 (dv_memory d') r ->
    exists b m, r = Ok b /\ booter_enter (P := P) b d' = Entered m a /\
      mem_read m a (length program) = program) as Hdel.
  { destruct Hup as [_ _ Hly [] [] _ _]. intros r. apply delivered_enters; by rewrite ?Hlen. }
  destruct s; cbn [session_end] in Hend; try done.
  - right. split; [done|]. exists m0. destruct Hend as [(k' & _ & Htr)|Hb]; [left; by eexists|by right].
  - destruct Hend as [e Hd']. by destruct (Hdel _ Hd') as (? & ? & ? & _).
  - destruct Hend as (b & Hd' & Hb). destruct (Hdel _ Hd') as (b' & m' & [= <-] & E & Hm).
    rewrite E in Hb. by injection Hb as -> ->.
  - destruct Hend as (b & Hd' & Hb). destruct (Hdel _ Hd') as (b' & m' & [= <-] & E & Hm).
    by rewrite E in Hb.
Qed.

Lemma beat_step {P} info i v d :
  phase info v d ->
  exists v' d' s, v2_beat (P := P) i v d = Val (v', d', s) /\ phase info v' d'.
Proof.
  intros Hp. destruct (phase_ok info v d Hp) as [Hok Hd].
  destruct (v2_beat_spec (P := P) i v d Hok Hd) as (v' & d' & s & -> & Q & E1 & E2 & E3 & E4).
  exists v', d', s. split; [done|].
  assert (v2_ok v') as Hok' by (destruct Hok as [? ? ?]; split; by rewrite ?E1, ?E2, ?E3).
  destruct Hp as [(_ & _ & Hst & Hi & Hr)|(Hr & m0 & [[k Htr]|[b Hb]])].
  - left. split; [done|]. split; [apply Q|]. by rewrite E1, E3, E4.
  - right. split; [done|]. exists m0. left. exists k. by eapply transferring_quiet.
  - right. split; [done|]. exists m0. right. exists b. by eapply booting_quiet.
Qed.

(** ** The uploader's steps *)

Lemma info_fine_metadata info : info_fine info -> info_metadata info (Bin a) = up_metadata.
Proof. by intros [->| ->]. Qed.

Lemma agrees info : info_fine info -> metadata_agrees info (Bin a) up_metadata = true.
Proof.
  unfold metadata_agrees. intros [->| ->];
    cbn [set_chunk_size up_metadata info_metadata deflated_crc deflated_len inflated_crc
      inflated_len format_details hi_compressed_crc hi_compressed_len hi_decompressed_crc
      hi_decompressed_len]; by rewrite !Z.eqb_refl, bool_decide_true.
Qed.

Lemma encode_down info msg :
  message_ok msg -> Z.of_nat (message_data msg) < 2 ^ 20 ->
  exists r, encode msg = Val r /\
    (down_message info msg -> Forall (down_ok info) (sent r)).
Proof.
  intros Hok Hd. destruct (encode_total msg Hok Hd) as (r & He & Hr). exists r. split; [done|].
  intros Hm. destruct r as [w|]; [|by constructor]. constructor; [|done].
  destruct (Hr w eq_refl) as (payload & ? & ? & ?). by exists msg, payload.
Qed.

Lemma up_chunks_lookup k :
  (k < length up_chunks)%nat ->
  up_chunks !! k = Some (chunk_at (Z.to_nat CHUNK_SIZE) up_compressed k).
Proof.
  rewrite length_up_chunks. intros Hk. unfold up_chunks, chunks_of, slices.
  by rewrite list_lookup_fmap, lookup_seq_lt.
Qed.

Lemma up_compressed_bytes : bytes up_compressed.
Proof. apply compress_bytes, Hup. Qed.

(** The answer to a chunk request. *)
Definition up_chunk (k : nat) : message :=
  MChunk (Z.of_nat k) (chunk_at (Z.to_nat CHUNK_SIZE) up_compressed k).

Lemma up_chunk_ok k :
  (k < length up_chunks)%nat ->
  message_ok (up_chunk k) /\ Z.of_nat (message_data (up_chunk k)) < 2 ^ 20.
Proof.
  intros Hk. pose proof up_chunks_ok as [_ Hn]. split.
  - split; [unfold fits; lia|]. apply Forall_take, Forall_drop, up_compressed_bytes.
  - cbn [up_chunk message_data]. unfold chunk_at. rewrite length_take. unfold CHUNK_SIZE. lia.
Qed.

Lemma dispatch_up_chunk info k :
  ready info -> (k < length up_chunks)%nat ->
  dispatch_chunk_req (Z.of_nat k) info up_compressed = (r ← encode (up_chunk k); Val (sent r)).
Proof.
  intros Hr Hk. pose proof Hup as [_ Hc _ _ _ _ _]. pose proof (chunk_number_bounds up_compressed) as (_ & Hlo & _).
  pose proof Hk as Hk'. rewrite length_up_chunks in Hk'. unfold ready, CHUNK_SIZE in *.
  rewrite serve_chunk by (rewrite ?Hr; unfold fits; lia). rewrite Hr, decide_True by lia.
  replace (Z.to_nat (Z.of_nat k * 4096)) with (k * Z.to_nat 4096)%nat by lia.
  done.
Qed.

Lemma chunk_request info k :
  ready info -> (k < length up_chunks)%nat ->
  exists out, dispatch_chunk_req (Z.of_nat k) info up_compressed = Val out /\
    Forall (down_ok info) out.
Proof.
  intros Hr Hk. rewrite dispatch_up_chunk by done. destruct (up_chunk_ok k Hk) as [Hok Hn].
  destruct (encode_down info (up_chunk k) Hok Hn) as (r & -> & Hs).
  rewrite run_bind_Val. eexists. split; [done|]. apply Hs.
  right; right; right. eexists k, _. split; [done|]. by apply up_chunks_lookup.
Qed.

Lemma host_step info m :
  info_fine info -> up_ok info m ->
  exists info' out fin, upload_step (Bin a) up_compressed info m = Val (info', out, fin) /\
    info_fine info' /\ (ready info -> ready info') /\ Forall (down_ok info') out.
Proof.
  intros Hi (msg & Hs & Ht & Hok & Hm). destruct m as [typ p]. cbn [fst snd] in *. subst typ.
  pose proof (from_bytes_to_stdvec _ _ Hok Hs) as Hp. unfold upload_step.
  destruct Hm as [->|[->|[->|(Hr & k & -> & Hk)]]]; cbn [encode_message_type] in *; rewrite ?Hp.
  - unfold dispatch_metadata_req. rewrite info_fine_metadata by done.
    destruct (encode_down info (MMetadata up_metadata)) as (r & -> & Hd);
      [apply up_metadata_ok|done|]. rewrite !run_bind_Val.
    eexists _, _, _. split; [done|]. split; [done|]. split; [done|]. apply Hd. by left.
  - unfold dispatch_metadata_ack.
    rewrite agrees by done.
    destruct (encode_down (set_chunk_size CHUNK_SIZE info) (MMetadataAckAck true)) as (r & -> & Hd);
      [done..|]. rewrite !run_bind_Val. cbn [default].
    assert (Forall (down_ok (set_chunk_size CHUNK_SIZE info)) (sent r)) as Hsent.
    { apply Hd. right; right; left. done. }
    eexists _, _, _. split; [done|]. destruct r as [w|e]; cbn [sent default from_option id].
    + split; [right; by destruct Hi as [->| ->]|done].
    + done.
  - destruct (encode_down info MBootingAck) as (r & -> & Hd); [done..|]. rewrite run_bind_Val.
    eexists _, _, _. split; [done|]. split; [done|]. split; [done|]. apply Hd. by right; left.
  - destruct (chunk_request info k Hr Hk) as (out & -> & Hd). rewrite run_bind_Val.
    by eexists _, _, _.
Qed.

Lemma up_ok_mono info info' m : (ready info -> ready info') -> up_ok info m -> up_ok info' m.
Proof.
  intros Hr (msg & ? & ? & ? & Hm). exists msg. split_and!; try done.
  destruct Hm as [?|[?|[?|[? ?]]]]; [by left|by right; left|by right; right; left|].
  right; right; right. split; [by apply Hr|done].
Qed.
Lemma down_ok_mono info info' w : (ready info -> ready info') -> down_ok info w -> down_ok info' w.
Proof.
  intros Hr (msg & payload & ? & ? & ? & ? & Hm). exists msg, payload. split_and!; try done.
  destruct Hm as [?|[?|[[? ?]|?]]]; [by left|by right; left| |by right; right; right].
  right; right; left. split; [by apply Hr|done].
Qed.

(** ** The invariant holds *)

Lemma sys_inv_init v d :
  v2_ok v -> device_ok d -> v2_st v = RequestMetadata -> v2_inflate_state v = inflate_new ->
  v2_remainder v = 0%nat -> sys_inv (sys_init program v d).
Proof.
  intros Hok Hd Hst Hi Hr. split; [by left|]. split; [done|]. split; [done|].
  left. by split_and!; [..|left|done|done].
Qed.

Lemma sys_inv_step s s' : sys_inv s -> sys_step a program s s' -> sys_inv s'.
Proof.
  intros (Hi & Hu & Hd & Hst) Hstep. destruct Hstep as
    [i v d up info down fin v' d' s Hb|h payload v d up info down fin v' d' s Hf Hp
    |m v d st up info down info' out fin Hm Hs]; cbn [sy_status sy_info sy_up sy_down sy_v2 sy_device] in *.
  - destruct (beat_step (P := unit) info i v d Hst) as (v1 & d1 & s1 & Hb' & Hph). rewrite Hb in Hb'.
    injection Hb' as -> -> ->. split; [done|]. split; [|done]. apply Forall_app_2; [done|].
    destruct (should_send i v); [by eapply packet_of_ok|done].
  - destruct (packet_step (P := unit) info down h payload v d Hst Hd Hf) as (v1 & d1 & s1 & Hp' & Hph).
    rewrite Hp in Hp'. injection Hp' as -> -> ->. split; [done|]. split; [done|]. by split.
  - rewrite list.Forall_forall in Hu. pose proof (Hu m Hm) as Hmo.
    destruct (host_step info m Hi Hmo) as (info1 & out1 & fin1 & Hs' & Hi' & Hr & Ho).
    unfold up_compressed in Hs'. rewrite Hs in Hs'. injection Hs' as -> -> ->.
    split; [done|]. split; [|split].
    + apply list.Forall_forall. intros m' Hm'. apply (up_ok_mono info); [done|by apply Hu].
    + apply Forall_app_2; [|done]. revert Hd. apply List.Forall_impl. intros w. by apply down_ok_mono.
    + cbn. destruct st; try done. destruct Hst as [He|[Hrd Hl]]; [by left|]. right. split; [by apply Hr|done].
Qed.

(** What a state of the invariant promises. *)
Lemma sys_inv_safe s : sys_inv s -> sys_safe a program s.
Proof.
  intros (Hi & Hu & Hd & Hst). split.
  - by destruct (sy_status s).
  - intros i Hc. rewrite Hc in Hst. by destruct (beat_step (P := unit) _ i _ _ Hst) as (? & ? & ? & -> & _).
  - intros h payload Hc Hf. rewrite Hc in Hst.
    by destruct (packet_step (P := unit) _ _ _ _ _ _ Hst Hd Hf) as (? & ? & ? & -> & _).
  - intros m Hm. rewrite list.Forall_forall in Hu.
    destruct (host_step _ m Hi (Hu m Hm)) as (? & ? & ? & He & _).
    unfold up_compressed in He. by rewrite He.
Qed.

Lemma sys_reachable s0 s : sys_inv s0 -> rtc (sys_step a program) s0 s -> sys_inv s.
Proof. intros Hi Hr. induction Hr; [done|]. eauto using sys_inv_step. Qed.

(** ** What was asked for *)

(** A session's message is under way, unless it is about to be sent; only a
    complete program is announced as booting; and an uploader that is done has
    answered that. *)
Record asked (s : system) : Prop := {
  as_once : v2_once (sy_v2 s) = true \/
    forall p, to_stdvec (state_message (sy_v2 s)) = Ok p ->
      (encode_message_type (state_message (sy_v2 s)), p) ∈ sy_up s;
  as_boot p : (Booting, p) ∈ sy_up s -> exists m0 b, booting program up_loader m0 b (sy_v2 s) (sy_device s);
  as_done : sy_done s = true -> (exists p, (Booting, p) ∈ sy_up s) /\
    forall p w, to_stdvec MBootingAck = Ok p -> wire_encode BootingAck p = Val w -> w ∈ sy_down s;
}.
Definition sys_inv2 (s : system) : Prop :=
  sys_inv s /\ (sy_status s = Continue -> asked s).

Lemma accept_chunk_once chunk which count l v d v' d' :
  accept_chunk chunk which count l v d = Val (v', d', ChunkTrue) -> v2_once v' = true.
Proof.
  unfold accept_chunk. cbv zeta. intros E.
  apply run_bind_inv in E as (? & _ & E). apply run_bind_inv in E as (? & _ & E).
  apply run_bind_inv in E as (? & _ & E). apply run_bind_inv in E as ([[[[st rem] l'] d1] e] & _ & E).
  destruct e; try done. destruct (_ =? _); [|by injection E as <- _].
  apply run_bind_inv in E as (? & _ & E). unfold finish_chunks in E.
  apply run_bind_inv in E as ([? [b|e]] & _ & E); [by injection E as <- _|].
  by apply run_bind_inv in E as (? & _ & [=]).
Qed.

(** A packet that leaves a session going changes nothing that it sends, or makes
    it send at once. *)
Lemma packet_once h payload v d v' d' :
  v2_handle_packet (P := unit) h payload v d = Val (v', d', Continue) ->
  (message_type h = MetadataAckAck -> from_bytes MetadataAckAck payload <> Ok (MMetadataAckAck false)) ->
  v' = v \/ v2_once v' = true.
Proof.
  assert (forall text args, (d ← say text args d; Val (v, d, @Continue unit)) = Val (v', d', Continue) ->
    v' = v \/ v2_once v' = true) as Hsay.
  { intros text args E. apply run_bind_inv in E as (? & _ & [= <- _]). by left. }
  unfold v2_handle_packet. intros E Hno. destruct (message_type h); try (by eapply Hsay).
  - apply run_bind_inv in E as (d1 & _ & E). destruct (from_bytes Metadata payload) as [[]|];
      try (apply run_bind_inv in E as (? & _ & [= <- _]); by left).
    apply run_bind_inv in E as ([v1 d2] & E & [= <- _]). unfold recv_metadata in E.
    destruct (v2_st v); try (apply run_bind_inv in E as (? & _ & [= <- _]); by left).
    apply run_bind_inv in E as ([d3 []] & _ & E); [|injection E as <- _; by left].
    apply run_bind_inv in E as (? & _ & [= <- _]). by right.
  - destruct (from_bytes MetadataAckAck payload) as [[| | |ok| | | | | | |]|] eqn:Hm; try (by eapply Hsay).
    destruct ok; [|by destruct (Hno eq_refl)].
    apply run_bind_inv in E as ([v1 d2] & E & [= <- _]). unfold recv_metadata_ack_ack in E.
    destruct (v2_st v); try (apply run_bind_inv in E as (? & _ & [= <- _]); by left).
    apply run_bind_inv in E as (? & _ & [= <- _]). by right.
  - destruct (from_bytes Chunk payload) as [[]|]; try (by eapply Hsay).
    apply run_bind_inv in E as ([[v1 d1] e] & E & E2). unfold recv_chunk in E.
    destruct e; try done. injection E2 as <- _.
    destruct (v2_st v); try (apply run_bind_inv in E as (? & _ & [= <- _]); by left).
    destruct (_ =? _); [right; by eapply accept_chunk_once|].
    apply run_bind_inv in E as (? & _ & [= <- _]). by right.
  - unfold recv_booting_ack in E. destruct (v2_st v) as [| | |b]; try (by eapply Hsay).
    apply run_bind_inv in E as (d1 & _ & [= _ _ E]).
    pose proof (booter_enter_leaves (P := unit) b d1) as Hl. by rewrite E in Hl.
Qed.

Lemma down_no_nack info down h payload :
  Forall (down_ok info) down -> from_line down h payload -> message_type h = MetadataAckAck ->
  from_bytes MetadataAckAck payload <> Ok (MMetadataAckAck false).
Proof.
  intros Hd Hf Hty. destruct (from_line_message info down h payload Hd Hf) as (_ & msg & Ht & Hm & Hdm).
  rewrite Hty in Hm, Ht. rewrite Hm. intros [= ->].
  by destruct Hdm as [|[|[[_ ?]|(? & ? & ? & _)]]].
Qed.

(** An announcement of booting in the list is one that a session made. *)
Lemma boot_state v p :
  (Booting, p) ∈ packet_of (state_message v) -> exists b, v2_st v = Boot b.
Proof.
  unfold packet_of, state_message. destruct (v2_st v); [..|eauto];
    destruct (to_stdvec _); cbn [encode_message_type]; set_solver.
Qed.

Lemma asked_beat i v d up info down fin v' d' s :
  phase info v d -> v2_beat (P := unit) i v d = Val (v', d', s) ->
  asked (MkSystem v d Continue up info down fin) ->
  asked (MkSystem v' d' Continue (up ++ if should_send i v then packet_of (state_message v) else [])
    info down fin).
Proof.
  intros Hp Hb [Honce Hboot Hdone]. cbn [sy_v2 sy_device sy_up sy_down sy_done] in *.
  destruct (phase_ok info v d Hp) as [Hok Hd].
  destruct (v2_beat_spec (P := unit) i v d Hok Hd) as (v1 & d1 & s1 & Hb' & Q & E1 & E2 & E3 & E4).
  rewrite Hb in Hb'. injection Hb' as <- <- <-.
  assert (state_message v' = state_message v) as Hsm by (unfold state_message; by rewrite E1).
  split; cbn [sy_v2 sy_device sy_up sy_down sy_done].
  - right. rewrite Hsm. intros p Hs. destruct (should_send i v) eqn:Hsend.
    + apply elem_of_app. right. unfold packet_of. rewrite Hs. by apply list_elem_of_singleton.
    + rewrite app_nil_r. destruct Honce as [Ho|Ho]; [|by apply Ho].
      unfold should_send in Hsend. by rewrite Ho in Hsend.
  - intros p [Hin|Hin]%elem_of_app.
    + destruct (Hboot p Hin) as (m0 & b & Hbt). exists m0, b. by eapply booting_quiet.
    + destruct (should_send i v); [|by apply not_elem_of_nil in Hin].
      apply boot_state in Hin as [b Hst].
      destruct Hp as [(_ & _ & [Hs|Hs] & _)|(_ & m0 & [[k [_ _ _ (l & Hs & _) _]]|[b' Hbt]])];
        [congruence..|]. exists m0, b'. by eapply booting_quiet.
  - intros Hf. destruct (Hdone Hf) as [[p Hin] ?]. split; [|done]. exists p. set_solver.
Qed.

Lemma asked_packet h payload v d up info down fin v' d' :
  phase info v d -> Forall (down_ok info) down -> from_line down h payload ->
  v2_handle_packet (P := unit) h payload v d = Val (v', d', Continue) ->
  asked (MkSystem v d Continue up info down fin) -> asked (MkSystem v' d' Continue up info down fin).
Proof.
  intros Hp Hd Hf Hh [Honce Hboot Hdone]. cbn [sy_v2 sy_device sy_up sy_down sy_done] in *.
  split; cbn [sy_v2 sy_device sy_up sy_down sy_done]; [..|done].
  - destruct (packet_once _ _ _ _ _ _ Hh) as [->|]; [|done|by left]. by eapply down_no_nack.
  - intros p Hin. destruct (Hboot p Hin) as (m0 & b & Hbt). exists m0, b.
    destruct (booting_step (P := unit) up_chunks _ _ _ 0 _ _ _ (EvPacket h payload) Hbt)
      as (v1 & d1 & s & He & _ & Hc). cbn [v2_event_step] in He. rewrite Hh in He.
    injection He as <- <- <-. by apply Hc.
Qed.

Lemma asked_host m v d up info down info' out fin :
  info_fine info -> up_ok info m -> m ∈ up ->
  upload_step (Bin a) up_compressed info m = Val (info', out, fin) ->
  asked (MkSystem v d Continue up info down false) ->
  asked (MkSystem v d Continue up info' (down ++ out) fin).
Proof.
  intros Hi (msg & Hs & Ht & Hok & Hm) Hin Hu [Honce Hboot Hdone].
  cbn [sy_v2 sy_device sy_up sy_down sy_done] in *.
  split; cbn [sy_v2 sy_device sy_up sy_down sy_done]; [done..|].
  intros ->. destruct m as [typ p]. cbn [fst snd] in *. subst typ.
  pose proof (from_bytes_to_stdvec _ _ Hok Hs) as Hp. unfold upload_step in Hu.
  destruct Hm as [->|[->|[->|(Hr & k & -> & Hk)]]]; cbn [encode_message_type] in *; rewrite ?Hp in Hu.
  - by apply run_bind_inv in Hu as (? & _ & [=]).
  - by apply run_bind_inv in Hu as ([? ?] & _ & [=]).
  - split; [by exists p|]. intros q w Hq Hw. unfold encode in Hu. rewrite Hq in Hu.
    cbn [encode_message_type] in Hu. rewrite Hw, !run_bind_Val in Hu. injection Hu as _ <-.
    cbn [sent]. set_solver.
  - by apply run_bind_inv in Hu as (? & _ & [=]).
Qed.

Lemma sys_inv2_step s s' : sys_inv2 s -> sys_step a program s s' -> sys_inv2 s'.
Proof.
  intros [Hi Ha] Hstep. split; [by eapply sys_inv_step|]. pose proof Hi as (Hif & Hu & Hd & Hst).
  destruct Hstep as
    [i v d up info down fin v' d' s Hb|h payload v d up info down fin v' d' s Hf Hp
    |m v d st up info down info' out fin Hm Hs]; cbn [sy_status sy_info sy_up sy_down sy_v2 sy_device] in *.
  - intros _. eapply asked_beat; eauto.
  - intros ->. eapply asked_packet; eauto.
  - intros ->. rewrite list.Forall_forall in Hu. eapply asked_host; eauto.
Qed.

Lemma sys_inv2_rtc s0 s : sys_inv2 s0 -> rtc (sys_step a program) s0 s -> sys_inv2 s.
Proof. intros Hi Hr. induction Hr; [done|]. eauto using sys_inv2_step. Qed.

Lemma sys_inv2_reachable v d s :
  v2_ok v -> device_ok d -> v2_st v = RequestMetadata -> v2_inflate_state v = inflate_new ->
  v2_remainder v = 0%nat -> v2_once v = true ->
  rtc (sys_step a program) (sys_init program v d) s -> sys_inv2 s.
Proof.
  intros Hok Hd Hst Hi Hr Ho Hreach.
  apply (sys_inv2_rtc (sys_init program v d)); [|done].
  split; [by apply sys_inv_init|]. intros _. split; cbn; [by left|set_solver|done].
Qed.

(** ** An upload can always be completed *)

Hypothesis Hser : forall m, message_ok m -> exists p, to_stdvec m = Ok p.

Lemma encode_ok msg :
  message_ok msg -> Z.of_nat (message_data msg) < 2 ^ 20 ->
  exists p w, to_stdvec msg = Ok p /\ payload_ok (encode_message_type msg, p) /\
    wire_encode (encode_message_type msg) p = Val w /\ encode msg = Val (Ok w).
Proof.
  intros Hok Hd. destruct (Hser msg Hok) as [p Hp].
  destruct (encode_total msg Hok Hd) as (r & He & Hr). unfold encode in *. rewrite Hp in *.
  destruct (wire_encode (encode_message_type msg) p) as [w|] eqn:Hw; [|done].
  rewrite run_bind_Val in *. injection He as <-. destruct (Hr w eq_refl) as (p' & [= <-] & Hpo & _).
  eauto 7.
Qed.

(** What the uploader answers. *)
Definition answer (msg : message) : message :=
  match msg with
  | MMetadataReq => MMetadata up_metadata
  | MMetadataAck _ _ => MMetadataAckAck true
  | MChunkReq k => up_chunk (Z.to_nat k)
  | _ => MBootingAck
  end.

(** A message that can arrive at the device. *)
Definition on_line (msg : message) (down : list (list Z)) : Prop :=
  exists h p, message_type h = encode_message_type msg /\
    from_bytes (encode_message_type msg) p = Ok msg /\ from_line down h p.

Lemma on_line_intro msg p w down :
  message_ok msg -> to_stdvec msg = Ok p -> payload_ok (encode_message_type msg, p) ->
  wire_encode (encode_message_type msg) p = Val w -> w ∈ down -> on_line msg down.
Proof.
  intros Hok Hs Hp Hw Hin. exists (MkHeader (encode_message_type msg) (Z.of_nat (length p))), p.
  split; [done|]. split; [by apply from_bytes_to_stdvec|]. split; [done|]. by exists w.
Qed.

Lemma host_answers info msg p down :
  info_fine info -> message_ok msg -> up_message info msg -> to_stdvec msg = Ok p ->
  exists info' out, upload_step (Bin a) up_compressed info (encode_message_type msg, p) =
    Val (info', out, bool_decide (msg = MBooting)) /\ on_line (answer msg) (down ++ out).
Proof.
  intros Hi Hok Hm Hs. pose proof (from_bytes_to_stdvec _ _ Hok Hs) as Hp. unfold upload_step.
  assert (forall ans w q, message_ok ans -> to_stdvec ans = Ok q ->
    payload_ok (encode_message_type ans, q) -> wire_encode (encode_message_type ans) q = Val w ->
    on_line ans (down ++ sent (Ok w))) as Hon.
  { intros ans w q Hans Hq Hpo Hw. eapply on_line_intro; try done. cbn [sent]. set_solver. }
  destruct Hm as [->|[->|[->|(Hr & k & -> & Hk)]]]; cbn [encode_message_type] in *; rewrite ?Hp.
  - unfold dispatch_metadata_req. rewrite info_fine_metadata by done.
    destruct (encode_ok (MMetadata up_metadata)) as (q & w & Hq & Hpo & Hw & ->);
      [apply up_metadata_ok|done|]. rewrite !run_bind_Val.
    eexists _, _. split; [done|]. eapply Hon; try done. apply up_metadata_ok.
  - unfold dispatch_metadata_ack.
    rewrite agrees by done.
    destruct (encode_ok (MMetadataAckAck true)) as (q & w & Hq & Hpo & Hw & ->); [done..|].
    rewrite !run_bind_Val. eexists _, _. split; [done|]. by eapply Hon.
  - destruct (encode_ok MBootingAck) as (q & w & Hq & Hpo & Hw & ->); [done..|].
    rewrite run_bind_Val. eexists _, _. split; [done|]. by eapply Hon.
  - rewrite dispatch_up_chunk by done. destruct (up_chunk_ok k Hk) as [Hcok Hn].
    destruct (encode_ok (up_chunk k) Hcok Hn) as (q & w & Hq & Hpo & Hw & ->).
    rewrite !run_bind_Val. eexists _, _. split; [done|]. cbn [answer]. rewrite Nat2Z.id. by eapply Hon.
Qed.

(** A running state whose answer is on the line. *)
Record answered (s : system) : Prop := {
  an_inv : sys_inv2 s;
  an_running : sy_status s = Continue;
  an_line : on_line (answer (state_message (sy_v2 s))) (sy_down s);
}.

(** The session's message goes out. *)
Lemma can_ask s :
  sys_inv2 s -> sy_status s = Continue ->
  exists s' p, rtc (sys_step a program) s s' /\ sys_inv2 s' /\ sy_status s' = Continue /\
    v2_st (sy_v2 s') = v2_st (sy_v2 s) /\ sy_done s' = sy_done s /\
    to_stdvec (state_message (sy_v2 s')) = Ok p /\
    (encode_message_type (state_message (sy_v2 s')), p) ∈ sy_up s'.
Proof.
  intros Hi Hc. pose proof Hi as [(Hif & Hu & Hd & Hst) Ha]. specialize (Ha Hc). rewrite Hc in Hst.
  destruct (phase_message _ _ _ Hst) as [Hok _]. destruct (Hser _ Hok) as [p Hp].
  destruct (as_once _ Ha) as [Ho|Hin].
  2: { exists s, p. split; [apply rtc_refl|]. split_and!; try done. by apply Hin. }
  destruct s as [v d st up info down fin]. cbn [sy_status sy_v2 sy_device sy_info sy_up sy_done] in *. subst st.
  set (i := MkIo None false false (fun _ => 0) 0 (fun x => x)).
  destruct (phase_ok _ _ _ Hst) as [Hvok Hdok].
  destruct (v2_beat_spec (P := unit) i v d Hvok Hdok) as (v' & d' & s & Hb & Q & E1 & _).
  pose proof (sys_beat a program i v d up info down fin v' d' s Hb) as Hstep.
  assert (should_send i v = true) as Hsend by (unfold should_send; by rewrite Ho).
  assert (state_message v' = state_message v) as Hsm by (unfold state_message; by rewrite E1).
  rewrite Hsend in Hstep. eexists _, p. split; [by apply rtc_once|].
  split; [by eapply sys_inv2_step|]. cbn [sy_status sy_v2 sy_up sy_done]. rewrite Hsm.
  split_and!; try done. unfold packet_of. rewrite Hp. set_solver.
Qed.

(** An uploader that is not done answers it. *)
Lemma can_answer s :
  sys_inv2 s -> sy_status s = Continue -> sy_done s = false ->
  exists s', rtc (sys_step a program) s s' /\ answered s' /\ v2_st (sy_v2 s') = v2_st (sy_v2 s).
Proof.
  intros Hi Hc Hf. destruct (can_ask s Hi Hc) as (s1 & p & Hr & Hi1 & Hc1 & Hst1 & Hd1 & Hp & Hin).
  pose proof Hi1 as [(Hif & Hu & Hd & Hst) _]. rewrite Hc1 in Hst.
  destruct (phase_message _ _ _ Hst) as [Hok Hm]. rewrite Hf in Hd1.
  destruct s1 as [v d st up info down fin]. cbn [sy_status sy_v2 sy_device sy_info sy_up sy_done] in *. subst st fin.
  destruct (host_answers info (state_message v) p down Hif Hok Hm Hp) as (info' & out & Hs & Hon).
  pose proof (sys_host a program _ v d Continue up info down info' out _ Hin Hs) as Hstep.
  eexists. split; [by eapply rtc_r|]. split; [|done]. split; [by eapply sys_inv2_step|done..].
Qed.

Definition completes (s : system) : Prop :=
  exists s' m, rtc (sys_step a program) s s' /\ sy_status s' = Entered m a /\
    mem_read m a (length program) = program.

Lemma completes_rtc s s' : rtc (sys_step a program) s s' -> completes s' -> completes s.
Proof. intros Hr (s2 & m & Hr2 & Hm). exists s2, m. split; [by etrans|done]. Qed.

(** The uploader is done only when the session boots. *)
Lemma not_done s :
  sys_inv2 s -> sy_status s = Continue -> (forall b, v2_st (sy_v2 s) <> Boot b) -> sy_done s = false.
Proof.
  intros [_ Ha] Hc Hst. specialize (Ha Hc). destruct (sy_done s) eqn:Hf; [|done].
  destruct (as_done _ Ha Hf) as [[p Hp] _]. destruct (as_boot _ Ha p Hp) as (m0 & b & [_ _ Hs _]).
  by destruct (Hst b).
Qed.

(** A packet on the line arrives. *)
Lemma arrive s h p v' d' st :
  sy_status s = Continue -> from_line (sy_down s) h p ->
  v2_handle_packet (P := unit) h p (sy_v2 s) (sy_device s) = Val (v', d', st) ->
  sys_step a program s (MkSystem v' d' st (sy_up s) (sy_info s) (sy_down s) (sy_done s)).
Proof. destruct s. cbn. intros ->. apply sys_packet. Qed.

Lemma boot_completes s b :
  sys_inv2 s -> sy_status s = Continue -> v2_st (sy_v2 s) = Boot b -> completes s.
Proof.
  intros Hi Hc Hst.
  assert (exists s1, rtc (sys_step a program) s s1 /\ sys_inv2 s1 /\ sy_status s1 = Continue /\
    v2_st (sy_v2 s1) = Boot b /\ on_line MBootingAck (sy_down s1)) as (s1 & Hr & Hi1 & Hc1 & Hst1 & Hon).
  { destruct (sy_done s) eqn:Hf.
    - exists s. split; [apply rtc_refl|]. split_and!; try done. destruct Hi as [_ Ha].
      destruct (as_done _ (Ha Hc) Hf) as [_ Hack].
      destruct (encode_ok MBootingAck) as (q & w & Hq & Hpo & Hw & _); [done..|].
      eapply on_line_intro; try done. by eapply Hack.
    - destruct (can_answer s Hi Hc Hf) as (s1 & Hr & [Hi1 Hc1 Hon] & Hst1).
      exists s1. split_and!; try done; [congruence|].
      unfold state_message in Hon. by rewrite Hst1, Hst in Hon. }
  apply (completes_rtc s s1 Hr). destruct Hon as (h & p & Ht & Hm & Hf).
  pose proof Hi1 as [(Hif & Hu & Hd & Hph) _]. rewrite Hc1 in Hph.
  destruct (packet_step (P := unit) _ _ _ _ _ _ Hph Hd Hf) as (v' & d' & st & Hh & Hend).
  pose proof (arrive s1 h p v' d' st Hc1 Hf Hh) as Hstep.
  assert (exists d1, st = booter_enter b d1) as [d1 Hb].
  { unfold v2_handle_packet in Hh. rewrite Ht in Hh. cbn [encode_message_type] in Hh.
    unfold recv_booting_ack in Hh. rewrite Hst1 in Hh.
    apply run_bind_inv in Hh as (d1 & _ & [= _ _ <-]). by exists d1. }
  pose proof (booter_enter_leaves (P := unit) b d1) as Hl. rewrite <- Hb in Hl.
  destruct st as [| | | |m e|]; try done. destruct Hend as [-> Hprog].
  eexists _, m. split; [by apply rtc_once|]. done.
Qed.

Lemma transfer_completes n s m0 k :
  (length up_chunks <= n + k)%nat -> sys_inv2 s -> sy_status s = Continue ->
  transferring up_chunks program up_loader m0 k (sy_v2 s) (sy_device s) -> completes s.
Proof.
  revert s m0 k. induction n as [|n IH]; intros s m0 k Hn Hi Hc Htr;
    pose proof Htr as [_ _ Hk (l & Hst & _) _]; [lia|].
  destruct (can_answer s Hi Hc) as (s1 & Hr & [Hi1 Hc1 Hon] & Hst1).
  { apply not_done; [done..|]. intros b. congruence. }
  apply (completes_rtc s s1 Hr). pose proof up_chunks_ok as [_ Hcount].
  rewrite Hst in Hst1. unfold state_message in Hon. rewrite Hst1 in Hon.
  rewrite wrap_id in Hon by (unfold fits; lia). cbn [answer] in Hon. rewrite Nat2Z.id in Hon.
  destruct Hon as (h & p & Ht & Hm & Hf).
  pose proof Hi1 as [(Hif & Hu & Hd & Hph) _]. rewrite Hc1 in Hph.
  assert (exists m1, transferring up_chunks program up_loader m1 k (sy_v2 s1) (sy_device s1))
    as [m1 Htr1].
  { destruct Hph as [(_ & _ & [Hs|Hs] & _)|(_ & m1 & [[k1 Htr1]|[b [_ _ Hs _]]])]; [congruence..| |congruence].
    exists m1. pose proof Htr1 as [_ _ _ (l1 & Hs1 & _) _]. rewrite Hst1 in Hs1.
    injection Hs1 as Hkk _. by replace k with k1 by lia. }
  destruct (recv_right_chunk _ _ _ _ _ _ _ _ up_chunks_ok Htr1 (up_chunks_lookup k Hk))
    as (v' & d' & e & Hrc & Hcase).
  assert (v2_handle_packet (P := unit) h p (sy_v2 s1) (sy_device s1) =
    Val (v', d', match e with ChunkTrue => Continue | ChunkFalse => Abend | ChunkHangs => Unfinished end)) as Hh.
  { unfold v2_handle_packet. rewrite Ht. unfold up_chunk in Hm |- *. cbn [encode_message_type] in *.
    by rewrite Hm, Hrc, run_bind_Val. }
  destruct (packet_step (P := unit) _ _ _ _ _ _ Hph Hd Hf) as (v2' & d2' & st & Hh' & Hend).
  rewrite Hh in Hh'. injection Hh' as <- <- <-.
  pose proof (arrive s1 h p _ _ _ Hc1 Hf Hh) as Hstep.
  pose proof (sys_inv2_step _ _ Hi1 Hstep) as Hi2.
  destruct Hcase as [[Htr2 ->]|(r & _ & _ & _ & _ & Hr2)].
  - apply (completes_rtc _ _ (rtc_once _ _ Hstep)). by apply (IH _ m1 (S k)); [lia|..].
  - destruct r as [b|er]; destruct Hr2 as [Hs2 ->]; [|done].
    apply (completes_rtc _ _ (rtc_once _ _ Hstep)). by apply (boot_completes _ b).
Qed.

Lemma ack_completes s :
  sys_inv2 s -> sy_status s = Continue -> v2_st (sy_v2 s) = AckMetadata up_metadata -> completes s.
Proof.
  intros Hi Hc Hst.
  destruct (can_answer s Hi Hc) as (s1 & Hr & [Hi1 Hc1 Hon] & Hst1).
  { apply not_done; [done..|]. intros b. congruence. }
  apply (completes_rtc s s1 Hr). rewrite Hst in Hst1. unfold state_message in Hon.
  rewrite Hst1 in Hon. destruct Hon as (h & p & Ht & Hm & Hf).
  pose proof Hi1 as [(Hif & Hu & Hd & Hph) _]. rewrite Hc1 in Hph.
  destruct (from_line_message _ _ _ _ Hd Hf) as (_ & msg & Ht' & Hm' & Hdm).
  rewrite Ht, Hm in Hm'. injection Hm' as <-.
  assert (ready (sy_info s1)) as Hrd by (by destruct Hdm as [|[|[[? _]|(? & ? & ? & _)]]]).
  assert (early (sy_v2 s1) (sy_device s1)) as He.
  { destruct Hph as [He|(_ & m1 & [[k [_ _ _ (l & Hs & _) _]]|[b [_ _ Hs _]]])]; [done|congruence..]. }
  destruct (early_ack (P := unit) (sy_info s1) h p _ _ He Hrd Ht Hm) as (v' & d' & Hh & _ & Htr).
  destruct (Htr Hst1) as [m1 Htr']. pose proof (arrive s1 h p _ _ _ Hc1 Hf Hh) as Hstep.
  pose proof (sys_inv2_step _ _ Hi1 Hstep) as Hi2.
  apply (completes_rtc _ _ (rtc_once _ _ Hstep)).
  by apply (transfer_completes (length up_chunks) _ m1 0); [lia|..].
Qed.

Lemma request_completes s :
  sys_inv2 s -> sy_status s = Continue -> v2_st (sy_v2 s) = RequestMetadata -> completes s.
Proof.
  intros Hi Hc Hst.
  destruct (can_answer s Hi Hc) as (s1 & Hr & [Hi1 Hc1 Hon] & Hst1).
  { apply not_done; [done..|]. intros b. congruence. }
  apply (completes_rtc s s1 Hr). rewrite Hst in Hst1. unfold state_message in Hon.
  rewrite Hst1 in Hon. destruct Hon as (h & p & Ht & Hm & Hf).
  pose proof Hi1 as [(Hif & Hu & Hd & Hph) _]. rewrite Hc1 in Hph.
  assert (early (sy_v2 s1) (sy_device s1)) as He.
  { destruct Hph as [He|(_ & m1 & [[k [_ _ _ (l & Hs & _) _]]|[b [_ _ Hs _]]])]; [done|congruence..]. }
  destruct (early_metadata (P := unit) (sy_info s1) h p _ _ He Ht Hm) as (v' & d' & Hh & _ & Hst').
  pose proof (arrive s1 h p _ _ _ Hc1 Hf Hh) as Hstep.
  pose proof (sys_inv2_step _ _ Hi1 Hstep) as Hi2.
  apply (completes_rtc _ _ (rtc_once _ _ Hstep)). by apply ack_completes.
Qed.

Lemma running_completes s : sys_inv2 s -> sy_status s = Continue -> completes s.
Proof.
  intros Hi Hc. pose proof Hi as [(_ & _ & _ & Hph) _]. rewrite Hc in Hph.
  destruct Hph as [(_ & _ & [Hs|Hs] & _)|(_ & m0 & [[k Htr]|[b [_ _ Hs _]]])].
  - by apply request_completes.
  - by apply ack_completes.
  - by apply (transfer_completes (length up_chunks) _ m0 k); [lia|..].
  - by apply (boot_completes _ b).
Qed.
End invariant.

(** ** The claims *)



(** ** Witnesses *)

#[export] Instance stored_deflate : Deflate := fun data _ => data.
#[export] Instance stored_deflate_laws : DeflateLaws.
Proof. split; [done..|]. by intros data level. Qed.

Lemma sample_upload_ok : upload_ok 0x8000 sample_program.
Proof.
  split; cbn.
  - decide_now.
  - unfold CHUNK_SIZE. lia.
  - split; cbn; lia.
  - lia.
  - split; reflexivity.
  - lia.
  - discriminate.
Qed.
Lemma sample_start : v2_ok (sample_session RequestMetadata).
Proof. by apply sample_v2_ok. Qed.

(** The device's first heartbeat. *)
Lemma sample_beat :
  exists s, sy_status s = Continue /\
    rtc (sys_step 0x8000 sample_program)
      (sys_init sample_program (sample_session RequestMetadata) demo_device) s.
Proof.
  destruct (v2_beat_spec (P := unit) (tick 5) (sample_session RequestMetadata) demo_device
    sample_start demo_device_ok) as (v' & d' & st & Hb & _).
  eexists. split; [|apply rtc_once; eapply sys_beat; exact Hb]. reflexivity.
Qed.


