(* ===== verification/UploadWire.v ===== *)
(** The upload of [UploadSystem] with the receive loop of the device in the place of
    its session: frames arrive byte by byte, in the iterations of [Receiver], and
    are decoded there.

    A frame arrives as a whole or not at all; between its bytes there may be
    pauses, and between frames any number of iterations, as long as the session
    does not expire. *)
From stdpp Require Import relations.
From S2P Require Import Prelude Words Messages Crc Encode Decode Cobs Framing FrameDriver Postcard.
From S2P Require Import TransmitBuf FrameSink Timing Relocation Device Receiver ElfLoader V2 V2Upload Handshake HostUpload UploadSystem.

Module UploadWire.
Section with_libraries.
Context `{Crc, Postcard, Render, ElfParse, Inflate, Machine, Deflate}.

(** The receive loop, or where it has gone; what is still to come of the frame that
    arrives; and the rest as in [system]. *)
Record wire_system : Type := MkWire {
  wi_loop : step_end (P := ProtocolEnum);
  wi_frame : list Z;
  wi_up : list (MessageType * list Z);
  wi_info : host_info;
  wi_down : list (list Z);
  wi_done : bool;
}.

(** What the heartbeat of an iteration sends. *)
Definition beat_sends (i : io) (p : ProtocolEnum) : list (MessageType * list Z) :=
  match p with
  | PV2 v => if should_send i v then packet_of (state_message v) else []
  | PHandshake _ => []
  end.

(** What an iteration reads: the next byte of the frame, or none while the session
    lasts. *)
Definition session_lasts (i : io) (st : loop_state (P := ProtocolEnum)) : Prop :=
  let ts := dv_timeouts (ls_device st) in
  instant_elapsed (ls_last_packet st) (io_clock i clk_packet) < default (session_expires ts) (override_session_timeout ts).
Definition reads (i : io) (st : loop_state (P := ProtocolEnum)) (frame frame' : list Z) : Prop :=
  io_overrun i = false /\
  match io_byte i with
  | Some b => frame = b :: frame'
  | None => frame = frame' /\ session_lasts i st
  end.

Section upload.
Variables (load_address : Z) (program : list Z).

Inductive wire_step : wire_system -> wire_system -> Prop :=
  | wire_take w l up info down fin :
    w ∈ down -> wire_step (MkWire l [] up info down fin) (MkWire l w up info down fin)
  | wire_iteration i st frame frame' r up info down fin :
    reads i st frame frame' -> loop_step i st = Val r ->
    wire_step (MkWire (Running st) frame up info down fin)
      (MkWire r frame' (up ++ beat_sends i (ls_protocol st)) info down fin)
  | wire_host m l frame up info down info' out fin :
    m ∈ up -> upload_step (Bin load_address) (upload_compressed program) info m = Val (info', out, fin) ->
    wire_step (MkWire l frame up info down false) (MkWire l frame up info' (down ++ out) fin).

(** The loop waits for a byte, and can go on with any; or the program runs, with its
    bytes in place. *)
Record wire_safe (s : wire_system) : Prop := {
  ws_loop : match wi_loop s with
    | Running st => ls_recv st = Waiting false /\
        forall i frame', reads i st (wi_frame s) frame' -> loop_step i st <> Panic
    | Jumped m e => e = load_address /\ mem_read m load_address (length program) = program
    | _ => False
    end;
  ws_host m : m ∈ wi_up s -> upload_step (Bin load_address) (upload_compressed program) (wi_info s) m <> Panic;
}.
End upload.
End with_libraries.
End UploadWire.
Export UploadWire.

(** ** Decoding a frame byte by byte *)

Section frames.
Context `{CrcLaws}.

Lemma payload_of_app os os' : payload_of (os ++ os') = payload_of os ++ payload_of os'.
Proof. unfold payload_of. apply bind_app. Qed.
Lemma header_of_app h os os' : header_of h (os ++ os') = header_of (header_of h os) os'.
Proof. unfold header_of. apply foldl_app. Qed.

(** The next byte of a frame of which the bytes [bs] have been decoded. *)
Lemma decode_next l0 t p w bs b rest l os :
  between_frames COBS_XOR l0 -> payload_ok (t, p) -> wire_encode t p = Val w -> w = bs ++ b :: rest ->
  frame_feed_all l0 bs = Val (l, os, None) ->
  exists l' o, frame_feed l b = Val (l', Ok o) /\ frame_feed_all l0 (bs ++ [b]) = Val (l', os ++ [o], None) /\
    (length (payload_of (os ++ [o])) <= length p)%nat /\
    match rest with
    | [] => o = FFinished /\ payload_of os = p /\ (forall h0, header_of h0 os = Some (MkHeader t (Z.of_nat (length p)))) /\
            between_frames COBS_XOR l'
    | _ => collecting o
    end.
Proof.
  intros Hbf [Hp Hlen] Hw -> Hf.
  destruct (decode_frame l0 t p Hbf Hp Hlen) as (w' & lw & osw & Hw' & Hfw & Hvis & Hbw & os0 & ->).
  rewrite Hw in Hw'. injection Hw' as <-.
  rewrite visible_app in Hvis. change (visible [FFinished]) with [FFinished] in Hvis.
  rewrite app_comm_cons in Hvis. apply app_inj_tail in Hvis as [Hvis _].
  destruct (visible_collecting _ _ _ Hvis) as (Hcol & Hpay & Hhdr).
  rewrite (feed_all_app _ _ _ _ _ Hf) in Hfw. cbn [frame_feed_all] in Hfw.
  destruct (frame_feed l b) as [[l' [o|e]]|] eqn:Hb; [|done..]. rewrite run_bind_Val in Hfw.
  destruct (frame_feed_all l' rest) as [[[l2 o2] e2]|] eqn:Hr; [|done]. rewrite !run_bind_Val in Hfw. injection Hfw as <- Ho ->.
  exists l', o. split; [done|]. split; [rewrite (feed_all_app _ _ _ _ _ Hf); cbn; by rewrite Hb|].
  destruct rest as [|c rest].
  - injection Hr as <- <-. apply app_inj_tail in Ho as [-> ->]. by rewrite payload_of_app, Hpay, app_nil_r.
  - assert (exists o2', o2 = o2' ++ [FFinished] /\ os0 = os ++ o :: o2') as (o2' & -> & ->).
    { destruct (decide (o2 = [])) as [->|Hne].
      { cbn [frame_feed_all] in Hr. destruct (frame_feed l' c) as [[l3 [o3|e3]]|]; [|done..]. rewrite run_bind_Val in Hr.
        by destruct (frame_feed_all l3 rest) as [[[]]|]. }
      destruct (exists_last Hne) as (o2' & x & ->). exists o2'. rewrite app_comm_cons, app_assoc in Ho.
      by apply app_inj_tail in Ho as [<- ->]. }
    split; [|by apply Forall_app in Hcol as [_ Hcol]; inversion Hcol].
    change (o :: o2') with ([o] ++ o2') in Hpay. rewrite app_assoc, payload_of_app in Hpay. rewrite <- Hpay, length_app. lia.
Qed.
End frames.

(** ** The invariant *)

Section invariant.
Context `{CrcLaws, PostcardLaws, RenderLaws, ElfParse, InflateLaws, Machine}.
Context `{!Deflate, !InflateStream, !InflateStreamLaws, !DeflateLaws}.
Implicit Types (v : v2) (d : device) (info : host_info) (st : loop_state (P := ProtocolEnum)).
Variables (a : Z) (program : list Z).
Hypothesis Hup : upload_ok a program.

Definition BUFFER_SIZE : nat := Z.to_nat 0x10000.

(** A frame that the device can receive whole. *)
Definition fitting (down : list (list Z)) (t : MessageType) (p w : list Z) : Prop :=
  w ∈ down /\ payload_ok (t, p) /\ (length p <= BUFFER_SIZE)%nat /\ wire_encode t p = Val w.

(** A packet of such a frame. *)
Definition fits_line (down : list (list Z)) (t : MessageType) (p : list Z) : Prop :=
  payload_ok (t, p) /\ exists w, w ∈ down /\ wire_encode t p = Val w.

(** How far the loop has come with the frame that arrives. *)
Definition arriving st (frame : list Z) (down : list (list Z)) : Prop :=
  match frame with
  | [] => between_frames COBS_XOR (ls_decoder st) /\ rx_received (ls_rx st) = []
  | _ => exists t p bs l0 os h0, fitting down t p (bs ++ frame) /\ between_frames COBS_XOR l0 /\
      frame_feed_all l0 bs = Val (ls_decoder st, os, None) /\
      rx_received (ls_rx st) = payload_of os /\ ls_header st = header_of h0 os
  end.

Record running (info : host_info) (down : list (list Z)) (frame : list Z) st : Prop := {
  rn_ok : loop_ok okboot_inv st;
  rn_waiting : ls_recv st = Waiting false;
  rn_phase : exists v, ls_protocol st = PV2 v /\ phase a program info v (ls_device st);
  rn_buffer : length (rx_storage (ls_rx st)) = BUFFER_SIZE;
  rn_frame : arriving st frame down;
}.
Definition wire_inv (s : wire_system) : Prop :=
  info_fine program (wi_info s) /\ Forall (up_ok a program (wi_info s)) (wi_up s) /\
  Forall (down_ok a program (wi_info s)) (wi_down s) /\
  match wi_loop s with
  | Running st => running (wi_info s) (wi_down s) (wi_frame s) st
  | Jumped m e => e = a /\ mem_read m a (length program) = program
  | _ => False
  end.

Lemma phase_quiet info v d d' : phase a program info v d -> quiet d d' -> phase a program info v d'.
Proof.
  intros [He|(Hr & m0 & [[k Htr]|[b Hb]])] Q; [by eapply early_quiet| |].
  - right. split; [done|]. exists m0. left. exists k. by eapply transferring_quiet.
  - right. split; [done|]. exists m0. right. exists b. by eapply booting_quiet.
Qed.

(** A message of the uploader fits the receive buffer. *)
Lemma down_fitting info down w :
  Forall (down_ok a program info) down -> w ∈ down -> exists t p, fitting down t p w.
Proof.
  intros Hd Hw. rewrite list.Forall_forall in Hd. destruct (Hd w Hw) as (msg & p & Hok & Hs & Hp & He & Hm).
  exists (encode_message_type msg), p. split; [done|]. split; [done|]. split; [|done].
  pose proof (to_stdvec_size _ _ Hs) as Hl. unfold BUFFER_SIZE.
  assert (message_data msg <= 0x1000)%nat as Hmd.
  { destruct Hm as [->|[->|[[_ ->]|(k & chunk & -> & Hk)]]]; cbn [message_data]; try lia.
    apply slices_lookup in Hk as [_ ->]. unfold chunk_at. rewrite length_take. unfold CHUNK_SIZE. lia. }
  lia.
Qed.
Lemma fitting_mono down down' t p w : fitting down t p w -> fitting (down ++ down') t p w.
Proof. intros (Hw & Hrest). split; [|done]. apply elem_of_app. by left. Qed.

(** What an iteration does before it looks at the byte. *)
Lemma iteration_prefix i st info v :
  loop_ok okboot_inv st -> ls_recv st = Waiting false -> io_overrun i = false ->
  ls_protocol st = PV2 v -> phase a program info v (ls_device st) ->
  exists v' d', let st' := with_device d' (with_protocol (PV2 v') st) in
    loop_step i st =
      (r ← receive i st';
       Val (match r, io_byte i with
            | Running st, Some _ => Running (with_last_byte (io_clock i clk_byte_now) st)
            | _, _ => r
            end)) /\
    phase a program info v' d' /\ dv_timeouts d' = dv_timeouts (ls_device st) /\ loop_ok okboot_inv st'.
Proof.
  intros Hst Hw Ho Hpr Hph. unfold loop_step.
  destruct (transmit_one_quiet i (ls_device st)) as (d1 & -> & Q1); [apply Hst|]. rewrite run_bind_Val, Ho. cbv zeta.
  pose proof (phase_quiet _ _ _ _ Hph Q1) as Hph1. unfold poll_if_initial. cbn [ls_recv with_device]. rewrite Hw.
  cbn [is_initial]. rewrite run_bind_Val. cbn [ls_protocol with_device ls_device]. rewrite Hpr.
  destruct (phase_ok _ _ _ _ _ Hph1) as [Hok Hd1].
  destruct (beat_step (P := ProtocolEnum) a program info i v d1 Hph1) as (v' & d' & s & Hb & Hph').
  destruct (v2_beat_spec (P := ProtocolEnum) i v d1 Hok Hd1) as (v1 & d2 & s1 & Hb' & Q2 & _).
  rewrite Hb in Hb'. injection Hb' as <- <- <-. cbn [heartbeat okboot_protocol]. rewrite Hb, !run_bind_Val.
  exists v', d'. split; [done|]. split; [done|]. split; [by rewrite (qu_timeouts _ _ Q2), (qu_timeouts _ _ Q1)|].
  apply with_device_ok; [|apply Q2]. apply with_protocol_ok; [done|]. exact (proj1 (phase_ok _ _ _ _ _ Hph')).
Qed.

(** An iteration without a byte. *)
Lemma silent_iteration i st info down frame :
  running info down frame st -> io_byte i = None -> io_overrun i = false -> session_lasts i st ->
  exists st', loop_step i st = Val (Running st') /\ running info down frame st'.
Proof.
  intros [Hst Hw (v & Hpr & Hph) Hbuf Hfr] Hb Ho Hl.
  destruct (iteration_prefix i st info v Hst Hw Ho Hpr Hph) as (v' & d' & Hs & Hph' & Ht & Hok).
  rewrite Hs. unfold receive. rewrite Hb. cbn [ls_recv with_device with_protocol]. rewrite Hw.
  unfold on_idle. cbn [ls_device ls_recv ls_last_packet ls_last_byte with_device with_protocol]. rewrite Hw, Ht.
  unfold session_lasts in Hl. rewrite (proj2 (Z.leb_gt _ _) Hl). cbn [andb is_initial negb]. rewrite andb_true_r.
  destruct (_ <=? _); rewrite run_bind_Val; eexists; (split; [reflexivity|]).
  - split; [by apply with_recv_ok, with_last_byte_ok|done|by exists v'|done|exact Hfr].
  - split; [done|done|by exists v'|done|exact Hfr].
Qed.

(** The last byte of a frame: the session handles the packet. *)
Lemma finished_iteration i st info down v t p l :
  loop_ok okboot_inv st -> Forall (down_ok a program info) down -> fits_line down t p ->
  ls_protocol st = PV2 v -> phase a program info v (ls_device st) ->
  ls_header st = Some (MkHeader t (Z.of_nat (length p))) -> rx_received (ls_rx st) = p ->
  length (rx_storage (ls_rx st)) = BUFFER_SIZE -> between_frames COBS_XOR l ->
  exists r, on_finished i (with_decoder l st) = Val r /\
    match r with
    | Running st' => ls_recv st' = Waiting false /\ (exists v', ls_protocol st' = PV2 v' /\ phase a program info v' (ls_device st')) /\
        length (rx_storage (ls_rx st')) = BUFFER_SIZE /\ arriving st' [] down
    | Jumped m e => e = a /\ mem_read m a (length program) = program
    | _ => False
    end.
Proof.
  intros Hst Hdown Hline Hpr Hph Hh Hrx Hbuf Hl. unfold on_finished.
  change (ls_header (with_decoder l st)) with (ls_header st). rewrite Hh. cbn [unwrap].
  change (ls_rx (with_decoder l st)) with (ls_rx st).
  rewrite run_bind_Val, rx_finalize_spec, run_bind_Val by apply Hst. cbv zeta.
  cbn [ls_protocol ls_device with_decoder with_rx with_frame_header ls_rx ls_decoder]. rewrite Hrx, Hpr.
  destruct (packet_step (P := ProtocolEnum) a program Hup info down (MkHeader t (Z.of_nat (length p))) p v (ls_device st) Hph Hdown)
    as (v' & d' & s & Hp & Hs); [exact Hline|].
  cbn [handle_packet okboot_protocol]. rewrite Hp, !run_bind_Val.
  destruct s; try done; eexists; (split; [reflexivity|]); [|done].
  cbn [default]. split; [done|]. split; [by exists v'|].
  cbn [ls_rx with_recv with_last_packet with_rx with_device with_protocol ls_decoder with_decoder rx_clear rx_storage].
  split; [by rewrite length_replicate|]. split; [|done].
  pose proof (frame_reset_between l) as Hr. by rewrite (bf_cobs _ _ Hl) in Hr.
Qed.

(** An iteration with the next byte of a frame. *)
Lemma byte_iteration i b st info down frame' :
  running info down (b :: frame') st -> Forall (down_ok a program info) down -> io_byte i = Some b -> io_overrun i = false ->
  exists r, loop_step i st = Val r /\
    match r with
    | Running st' => running info down frame' st'
    | Jumped m e => e = a /\ mem_read m a (length program) = program
    | _ => False
    end.
Proof.
  intros [Hst Hw (v & Hpr & Hph) Hbuf (t & p & bs & l0 & os & h0 & (Hin & Hp & Hfit & Hwire) & Hbf & Hfeed & Hrx & Hh)] Hdown Hb Ho.
  destruct (decode_next l0 t p _ bs b frame' _ os Hbf Hp Hwire eq_refl Hfeed) as (l' & o & Hnext & Hfeed' & Hlen & Hrest).
  assert (io_ok i) as Hio.
  { unfold io_ok. rewrite Hb. destruct (wire_format_shape t p Hp) as (inside & Hw' & Hinside & _).
    rewrite Hwire in Hw'. injection Hw' as Hw'. assert (bytes (bs ++ b :: frame')) as Hby.
    { rewrite Hw'. assert (u8 85) as H85 by (unfold fits; lia). repeat (constructor; [done|]).
      apply Forall_app_2; [|by constructor]. revert Hinside. apply List.Forall_impl. by intros x [Hx _]. }
    apply Forall_app in Hby as [_ Hby]. by inversion Hby. }
  pose proof (loop_step_fine okboot_inv okboot_accepts i st Hst Hio) as Hfine.
  destruct (iteration_prefix i st info v Hst Hw Ho Hpr Hph) as (v' & d' & Hs & Hph' & _ & Hok).
  rewrite Hs in Hfine |- *. unfold receive in *. rewrite Hb in *. cbn [ls_recv with_device with_protocol] in *. rewrite Hw in *.
  set (st1 := with_device d' (with_protocol (PV2 v') st)) in *. unfold on_byte in *.
  change (ls_decoder st1) with (ls_decoder st) in *. rewrite Hnext, run_bind_Val in *. cbv zeta in *.
  destruct frame' as [|c frame'].
  - destruct Hrest as (-> & Hpay & Hhdr & Hbet).
    destruct (finished_iteration i st1 info down v' t p l' Hok Hdown) as (r & Hr & Hpost); try done;
      [by split; [|exists (bs ++ [b])]|by change (ls_header st1) with (ls_header st); rewrite Hh|by change (ls_rx st1) with (ls_rx st); rewrite Hrx|].
    rewrite Hr, run_bind_Val in *. eexists. split; [reflexivity|]. destruct r as [st'|d|m e|]; try done.
    destruct Hpost as (Hw' & Hphase & Hbuf' & Harr). by split.
  - assert (fitting down t p ((bs ++ [b]) ++ c :: frame')) as Hfit' by (by rewrite <- app_assoc).
    assert (forall st', ls_decoder st' = l' -> rx_received (ls_rx st') = rx_received (ls_rx st) ++ payload_of [o] ->
      ls_header st' = header_of (ls_header st) [o] -> arriving st' (c :: frame') down) as Harr.
    { intros st' E1 E2 E3. exists t, p, (bs ++ [b]), l0, (os ++ [o]), h0. rewrite E1, E2, E3, payload_of_app, header_of_app, Hrx, Hh. done. }
    destruct o as [|h|x| | |]; try done.
    + rewrite run_bind_Val in *. eexists. split; [reflexivity|]. split; [exact Hfine|done|by exists v'|done|].
      apply Harr; [done|by rewrite app_nil_r|done].
    + rewrite run_bind_Val in *. eexists. split; [reflexivity|]. split; [exact Hfine|done|by exists v'|done|].
      apply Harr; [done|by rewrite app_nil_r|done].
    + change (ls_rx (with_decoder l' st1)) with (ls_rx st) in *.
      destruct (rx_push_u8_spec (ls_rx st) x) as (rx & e & Hpush & _ & Hsz & Hspec); [apply Hst|]. rewrite Hpush, run_bind_Val in *.
      assert (rx_cursor (ls_rx st) < length (rx_storage (ls_rx st)))%nat as Hroom.
      { rewrite (rx_cursor_received _ (lk_rx _ _ Hst)), Hrx, Hbuf. rewrite payload_of_app, length_app in Hlen. cbn in Hlen. lia. }
      rewrite decide_True in Hspec by done. destruct Hspec as (-> & Hrec & _). cbv zeta in *. rewrite run_bind_Val in *.
      eexists. split; [reflexivity|]. split; [exact Hfine|done|by exists v'|by rewrite <- Hbuf, <- Hsz|].
      by apply Harr.
Qed.

(** Taking up a frame, and new answers of the uploader. *)
Lemma running_take w st info down :
  running info down [] st -> Forall (down_ok a program info) down -> w ∈ down -> running info down w st.
Proof.
  intros [Hst Hw Hph Hbuf [Hbf Hrx]] Hdown Hin. split; try done. destruct w as [|b w]; [done|].
  destruct (down_fitting info down _ Hdown Hin) as (t & p & Hfit). by exists t, p, [], (ls_decoder st), [], (ls_header st).
Qed.
Lemma running_answered frame st info info' down out :
  running info down frame st -> (ready info -> ready info') -> running info' (down ++ out) frame st.
Proof.
  intros [Hst Hw (v & Hpr & Hph) Hbuf Harr] Hr. split; try done.
  - exists v. split; [done|]. destruct Hph as [He|[Hrd Hl]]; [by left|right; auto].
  - destruct frame as [|b frame]; [done|]. destruct Harr as (t & p & bs & l0 & os & h0 & Hfit & Hrest).
    exists t, p, bs, l0, os, h0. split; [by apply fitting_mono|done].
Qed.

Lemma wire_inv_step s s' : wire_inv s -> wire_step a program s s' -> wire_inv s'.
Proof.
  intros (Hi & Hu & Hd & Hl) Hstep.
  destruct Hstep as [w l up info down fin Hw|i st frame frame' r up info down fin [Ho Hb] Hs|m l frame up info down info' out fin Hm Hs];
    cbn [wi_loop wi_frame wi_up wi_info wi_down] in *.
  - do 3 (split; [done|]). destruct l; try done. by apply running_take.
  - split; [done|]. split; [|split; [done|]].
    + apply Forall_app_2; [done|]. destruct (rn_phase _ _ _ _ Hl) as (v & -> & Hph). cbn [beat_sends].
      destruct (should_send i v); [by eapply packet_of_ok|done].
    + cbn [wi_loop wi_frame wi_info wi_down]. destruct (io_byte i) as [b|] eqn:Hbyte.
      * subst frame. destruct (byte_iteration i b st info down frame' Hl Hd Hbyte Ho) as (r' & Hr & Hpost).
        rewrite Hs in Hr. by injection Hr as <-.
      * destruct Hb as [-> Hlast]. destruct (silent_iteration i st info down frame' Hl Hbyte Ho Hlast) as (st' & Hr & Hpost).
        rewrite Hs in Hr. by injection Hr as ->.
  - rewrite list.Forall_forall in Hu. pose proof (Hu m Hm) as Hmo.
    destruct (host_step a program Hup info m Hi Hmo) as (info1 & out1 & fin1 & Hs' & Hi' & Hr & Hout).
    unfold up_compressed in Hs'. rewrite Hs in Hs'. injection Hs' as -> -> ->.
    split; [done|]. split; [|split].
    + apply list.Forall_forall. intros m' Hm'. apply (up_ok_mono a program info); [done|by apply Hu].
    + apply Forall_app_2; [|done]. revert Hd. apply List.Forall_impl. intros w. by apply down_ok_mono.
    + cbn [wi_loop wi_frame wi_info wi_down]. destruct l; try done. by eapply running_answered.
Qed.
Lemma wire_reachable s0 s : wire_inv s0 -> rtc (wire_step a program) s0 s -> wire_inv s.
Proof. intros Hi Hr. induction Hr; [done|]. eauto using wire_inv_step. Qed.

Lemma wire_inv_safe s : wire_inv s -> wire_safe a program s.
Proof.
  intros (Hi & Hu & Hd & Hl). split.
  - destruct (wi_loop s) as [st|d|m e|]; try done. split; [apply Hl|]. intros i frame' [Ho Hb].
    destruct (io_byte i) as [b|] eqn:Hbyte.
    + rewrite Hb in Hl. by destruct (byte_iteration i b st _ _ frame' Hl Hd Hbyte Ho) as (r & -> & _).
    + destruct Hb as [_ Hlast]. by destruct (silent_iteration i st _ _ _ Hl Hbyte Ho Hlast) as (st' & -> & _).
  - intros m Hm. rewrite list.Forall_forall in Hu.
    destruct (host_step a program Hup _ m Hi (Hu m Hm)) as (? & ? & ? & He & _). unfold up_compressed in He. by rewrite He.
Qed.
End invariant.

(** ** The start of a session *)

(** The loop as the handshake leaves it. *)
Record session_start `{Crc, Postcard, Render, ElfParse, Inflate, Machine} (st : loop_state (P := ProtocolEnum)) : Prop := {
  ss_ok : loop_ok okboot_inv st;
  ss_waiting : ls_recv st = Waiting false;
  ss_session : exists v, ls_protocol st = PV2 v /\ v2_st v = RequestMetadata /\ v2_inflate_state v = inflate_new /\ v2_remainder v = 0%nat;
  ss_buffer : length (rx_storage (ls_rx st)) = BUFFER_SIZE;
  ss_between : between_frames COBS_XOR (ls_decoder st) /\ rx_received (ls_rx st) = [];
}.

Lemma session_running `{CrcLaws, PostcardLaws, RenderLaws, ElfParse, InflateLaws, Machine}
    `{!Deflate, !InflateStream, !InflateStreamLaws, !DeflateLaws} a program st :
  session_start st -> running a program (info_new program (upload_compressed program)) [] [] st.
Proof.
  intros [Hok Hw (v & Hpr & Hst & Hi & Hr) Hbuf Hbet]. split; try done. exists v. split; [done|]. left.
  pose proof (lk_protocol _ _ Hok) as Hv. rewrite Hpr in Hv. split_and!; [exact Hv|apply Hok|by left|done|done].
Qed.

(** ** The claims *)


(** The handshake leads there: when a complete frame makes the loop run another
    protocol, the session of that protocol starts with an empty receive buffer and a
    decoder between frames, at the very beginning of its work. *)
Theorem handshake_starts_session
    `{CrcLaws, PostcardLaws, RenderLaws, ElfParse, InflateLaws, Machine} i (st st' : loop_state (P := ProtocolEnum)) h fh v :
  loop_ok okboot_inv st -> ls_protocol st = PHandshake h -> ls_header st = Some fh ->
  cobs_xor (fl_cobs (ls_decoder st)) = COBS_XOR -> length (rx_storage (ls_rx st)) = BUFFER_SIZE ->
  on_finished i st = Val (Running st') -> ls_protocol st' = PV2 v ->
  session_start st' /\ message_type fh = UseVersion /\ v2_once v = true.
Proof.
  intros Hok Hpr Hh Hx Hbuf Hfin Hv. pose proof (on_finished_fine okboot_inv okboot_accepts i st fh Hok Hh) as Hfine.
  rewrite Hfin in Hfine. cbn [step_fine] in Hfine. unfold on_finished in Hfin. rewrite Hh in Hfin. cbn [unwrap] in Hfin.
  rewrite run_bind_Val, rx_finalize_spec, run_bind_Val in Hfin by apply Hok. cbv zeta in Hfin.
  cbn [ls_protocol ls_device with_decoder with_rx with_frame_header] in Hfin. rewrite Hpr in Hfin.
  cbn [handle_packet okboot_protocol] in Hfin.
  destruct (handshake_spec i fh (rx_received (ls_rx st)) h (ls_device st)) as (h' & d' & s & Hs & _ & Hsw); [apply Hok|].
  rewrite Hs, !run_bind_Val in Hfin. destruct Hsw as [(Ht & _ & t & sent & -> & _)|[_ Hno]].
  - injection Hfin as Hfin. pose proof (frame_reset_between (ls_decoder st)) as Hr. rewrite Hx in Hr. rewrite <- Hfin in Hv.
    injection Hv as <-. split; [|done]. subst st'. split; [exact Hfine|done| | |].
    + by eexists.
    + cbn. by rewrite length_replicate.
    + split; [exact Hr|done].
  - exfalso. destruct s; try done; injection Hfin as Hfin; rewrite <- Hfin in Hv; done.
Qed.

(** ** Witnesses *)

(** A session that has just begun, and an iteration of it without a byte. *)
Definition sample_loop : loop_state (P := ProtocolEnum) :=
  with_recv (Waiting false) (with_protocol (PV2 (sample_session RequestMetadata)) (fresh_loop demo_device BUFFER_SIZE 0)).
Lemma sample_session_start : session_start sample_loop.
Proof.
  split.
  - apply with_recv_ok, with_protocol_ok; [|exact sample_start].
    exact (fresh_loop_ok okboot_inv okboot_accepts demo_device BUFFER_SIZE 0 demo_device_ok).
  - reflexivity.
  - exists (sample_session RequestMetadata). done.
  - cbn [sample_loop ls_rx with_recv with_protocol fresh_loop rx_new rx_storage]. apply length_replicate.
  - split; [exact (frame_new_between COBS_XOR)|done].
Qed.
Lemma sample_iteration :
  exists s, rtc (wire_step 0x8000 sample_program)
      (MkWire (Running sample_loop) [] [] (info_new sample_program (upload_compressed sample_program)) [] false) s /\
    exists st, wi_loop s = Running st.
Proof.
  assert (session_lasts (tick 5) sample_loop) as Hl by reflexivity.
  pose proof (session_running 0x8000 sample_program sample_loop sample_session_start) as Hrun.
  destruct (silent_iteration 0x8000 sample_program (tick 5) sample_loop _ _ _ Hrun eq_refl eq_refl Hl) as (st' & Hs & _).
  eexists. split; [apply rtc_once; eapply wire_iteration; [|exact Hs]; exact (conj eq_refl (conj eq_refl Hl))|].
  exists st'. reflexivity.
Qed.


(** A device that has answered a probe, with a complete [UseVersion] in its buffer. *)
Definition greeted_loop : loop_state (P := ProtocolEnum) :=
  with_frame_header (Some (MkHeader UseVersion 4))
    (with_rx (MkRx (le_bytes 4 2 ++ replicate (BUFFER_SIZE - 4) 0) 4)
      (with_protocol (PHandshake (MkHandshake ExpectVersion)) (with_recv (Waiting false) (fresh_loop demo_device BUFFER_SIZE 0)))).
Lemma greeted_buffer : length (rx_storage (ls_rx greeted_loop)) = BUFFER_SIZE.
Proof.
  change (length (le_bytes 4 2 ++ replicate (BUFFER_SIZE - 4) 0) = BUFFER_SIZE). rewrite length_app, length_replicate.
  change (length (le_bytes 4 2)) with 4%nat. unfold BUFFER_SIZE. lia.
Qed.
Lemma greeted_ok : loop_ok okboot_inv greeted_loop.
Proof.
  destruct (fresh_loop_ok okboot_inv okboot_accepts demo_device BUFFER_SIZE 0 demo_device_ok) as [Hd Hp Hrx Hb Hdec Hh].
  split; [exact Hd|exact I| | |exact Hdec|].
  - unfold rx_ok. rewrite greeted_buffer. change (rx_cursor (ls_rx greeted_loop)) with 4%nat. unfold BUFFER_SIZE. lia.
  - change (bytes (le_bytes 4 2 ++ replicate (BUFFER_SIZE - 4) 0)). apply Forall_app_2; [decide_now|].
    apply Forall_replicate. unfold fits. lia.
  - intros i h Hs. discriminate (Hs : SPreamble = SPacketBody i h).
Qed.
Lemma greeted_switches :
  exists st' v, on_finished (tick 3) greeted_loop = Val (Running st') /\ ls_protocol st' = PV2 v.
Proof.
  unfold on_finished. change (ls_header greeted_loop) with (Some (MkHeader UseVersion 4)). cbn [unwrap].
  rewrite run_bind_Val, rx_finalize_spec, run_bind_Val by apply greeted_ok. cbv zeta.
  change (rx_received (ls_rx greeted_loop)) with (le_bytes 4 2).
  cbn [ls_protocol ls_device with_decoder with_rx with_frame_header greeted_loop with_protocol handle_packet okboot_protocol].
  destruct (handshake_spec (tick 3) (MkHeader UseVersion 4) (le_bytes 4 2) (MkHandshake ExpectVersion) demo_device demo_device_ok)
    as (h' & d' & s & Hs & _ & Hsw).
  change (ls_device (with_recv (Waiting false) (fresh_loop demo_device BUFFER_SIZE 0))) with demo_device. rewrite Hs, !run_bind_Val.
  destruct Hsw as [(_ & _ & t & sent & -> & _)|[Hno _]].
  - eexists _, _. split; reflexivity.
  - exfalso. apply Hno. split; [reflexivity|]. split; [reflexivity|]. split; reflexivity.
Qed.

Lemma handshake_starts_session_witness :
  exists st' v, on_finished (tick 3) greeted_loop = Val (Running st') /\ session_start st' /\ v2_once v = true.
Proof.
  destruct greeted_switches as (st' & v & Hr & Hv). exists st', v. split; [exact Hr|].
  destruct (handshake_starts_session (tick 3) greeted_loop st' (MkHandshake ExpectVersion) (MkHeader UseVersion 4) v
    greeted_ok eq_refl eq_refl eq_refl greeted_buffer Hr Hv) as (Hst & _ & Ho).
  exact (conj Hst Ho).
Defined.
