(* ===== verification/Promotion.v ===== *)
(** How the uploader gets a device to speak protocol V2: [recv_with_print_string]
    and [try_promotion_handshake] of [host/okdude/src/upload.rs].

    The input is the list of bytes that arrive before the time limit; when it is
    used up, the time is over. *)
From S2P Require Import Prelude Words Messages Crc Encode Decode Cobs Framing Postcard Relocation.
From S2P Require Import Legacy Suboot TransmitBuf FrameSink Timing Device Receiver ElfLoader V2 V2Upload HostUpload.

Module Promotion.

(** One byte of the search for a preamble. *)
Inductive rps_event : Type :=
  | RpsTo (state : nat)
  | RpsPreamble
  | RpsPrint.
Definition rps_step (state : nat) (byte : Z) : rps_event :=
  match state, byte with
  | 0%nat, 0x55 => RpsTo 1
  | 1%nat, 0x55 => RpsTo 2
  | 2%nat, 0x55 => RpsTo 3
  | 3%nat, 0x5e => RpsPreamble
  | 3%nat, 0x55 => RpsTo 3
  | 0%nat, 0xee => RpsTo 5
  | 5%nat, 0xee => RpsTo 6
  | 6%nat, 0xee => RpsTo 6
  | 6%nat, 0xdd => RpsTo 7
  | 7%nat, 0xdd => RpsPrint
  | _, _ => RpsTo 0
  end.

(** The search; a text is read and logged.  One unit of fuel per byte. *)
Fixpoint rps_scan (fuel : nat) (state : nat) (input : list Z) : option (list Z) :=
  match fuel, input with
  | S fuel, b :: input =>
    match rps_step state b with
    | RpsTo state => rps_scan fuel state input
    | RpsPreamble => Some input
    | RpsPrint => input ← skip_print_string input; rps_scan fuel 0 input
    end
  | _, _ => None
  end.

(** How [recv_with_print_string] ends. *)
Inductive recv_end : Type :=
  | RecvNone
  | RecvErr
  | RecvFrame (t : MessageType) (payload : list Z).

Section with_libraries.
Context `{Crc, Postcard}.

(** The loop behind the preamble. *)
Fixpoint recv_frame (l : frame_layer) (header : option FrameHeader) (payload : list Z)
  (input : list Z) : run recv_end :=
  match input with
  | [] => Val RecvErr
  | byte :: input =>
    '(l, out) ← frame_feed l byte;
    match out with
    | Err _ => Val RecvErr
    | Ok FSkip => recv_frame l header payload input
    | Ok (FHeader hdr) =>
      match header with
      | Some _ => Val RecvErr
      | None => recv_frame l (Some hdr) payload input
      end
    | Ok (FPayload x) =>
      match header with
      | None => Val RecvErr
      | Some h =>
        let payload := payload ++ [x] in
        if payload_len h <? Z.of_nat (length payload) then Val RecvErr
        else recv_frame l header payload input
      end
    | Ok FFinished =>
      match header with
      | None => Val RecvErr
      | Some h =>
        if negb (payload_len h =? Z.of_nat (length payload)) then Val RecvErr
        else Val (RecvFrame (FrameLayer.message_type h) payload)
      end
    | Ok FLegacy | Ok (FLegacyPrintStringByte _ _) => Panic
    end
  end.

Definition recv_with_print_string (input : list Z) : run recv_end :=
  match rps_scan (length input) 0 input with
  | None => Val RecvNone
  | Some input => recv_frame (skip_preamble (frame_new COBS_XOR)) None [] input
  end.

Definition SUPPORTED_VERSIONS : list Z := [2].

(** [allowed_versions.iter().rev().find(..)] *)
Definition choose_version (allowed_versions : list Z) : option Z :=
  List.find (fun x => bool_decide (x ∈ SUPPORTED_VERSIONS)) (reverse allowed_versions).

(** The frames sent, and the version and baud rate that are agreed on, if any;
    [set_baud_rate] tells whether the terminal accepts a rate. *)
Definition try_promotion_handshake (set_baud_rate : Z -> bool) (input : list Z)
  : run (list (list Z) * option (Z * Z)) :=
  probe ← encode MProbe;
  match probe with
  | Err _ => Val ([], None)
  | Ok probe =>
    msg ← recv_with_print_string input;
    match msg with
    | RecvFrame AllowedVersions payload =>
      match from_bytes AllowedVersions payload with
      | Ok (MAllowedVersions versions) =>
        allowed_versions ← allowed_versions_iter versions;
        match choose_version allowed_versions with
        | None => Val ([probe], None)
        | Some version =>
          config ← encode (MUseVersion version);
          match config with
          | Err _ => Val ([probe], None)
          | Ok config =>
            p ← unwrap (match supported_protocol_try_from version with Ok p => Some p | Err _ => None end);
            let new_baud_rate := protocol_baud_rate p in
            if set_baud_rate new_baud_rate
            then Val ([probe; config], Some (version, new_baud_rate))
            else Val ([probe; config], None)
          end
        end
      | _ => Val ([probe], None)
      end
    | _ => Val ([probe], None)
    end
  end.
End with_libraries.
End Promotion.
Export Promotion.

(** ** The search *)

Section search.
Implicit Types (input : list Z).

Lemma skip_print_length input rest :
  skip_print_string input = Some rest -> (length rest <= length input)%nat.
Proof.
  unfold skip_print_string, uart1_read32. case_decide; [|done]. cbn [mbind option_bind].
  case_decide; [|done]. intros [= <-]. rewrite !length_drop. lia.
Qed.

Lemma rps_scan_fuel fuel fuel' st input :
  (length input <= fuel)%nat -> (length input <= fuel')%nat ->
  rps_scan fuel st input = rps_scan fuel' st input.
Proof.
  revert fuel' st input. induction fuel as [|fuel IH]; intros fuel' st input Hf Hf'.
  - destruct input; [by destruct fuel'|cbn in Hf; lia].
  - destruct fuel' as [|fuel']; [destruct input; [done|cbn in Hf'; lia]|].
    destruct input as [|b input]; [done|]. cbn in Hf, Hf'. cbn [rps_scan].
    destruct (rps_step st b); [apply IH; lia|done|].
    destruct (skip_print_string input) as [rest|] eqn:Hs; [|done]. cbn [mbind option_bind].
    apply skip_print_length in Hs. apply IH; lia.
Qed.

Definition search st input : option (list Z) := rps_scan (length input) st input.

Lemma search_cons st b input :
  search st (b :: input) =
  match rps_step st b with
  | RpsTo st => search st input
  | RpsPreamble => Some input
  | RpsPrint => rest ← skip_print_string input; search 0 rest
  end.
Proof.
  unfold search. cbn [length rps_scan]. destruct (rps_step st b); try done.
  destruct (skip_print_string input) as [rest|] eqn:Hs; [|done]. cbn [mbind option_bind].
  apply rps_scan_fuel; [|done]. by apply skip_print_length.
Qed.

(** Bytes that begin neither a preamble nor a print. *)
Definition idle_byte (b : Z) : Prop := b <> 0x55 /\ b <> 0xee.
Lemma search_noise noise input :
  Forall idle_byte noise -> search 0 (noise ++ input) = search 0 input.
Proof.
  intros Hn. induction Hn as [|b noise [H1 H2] Hn IH]; [done|]. cbn [app]. rewrite search_cons.
  assert (rps_step 0 b = RpsTo 0) as ->; [|done].
  cbn [rps_step]. repeat (case_match; try done).
Qed.

Lemma search_print text input :
  Z.of_nat (length text) < 2 ^ 32 -> search 0 (uart_write_str text ++ input) = search 0 input.
Proof.
  intros Hl. unfold uart_write_str, uart1_write32.
  change (u32_to_le_bytes (su_boot.command_to_u32 su_boot.CmdPrintString)) with [0xee; 0xee; 0xdd; 0xdd].
  rewrite wrap_id by (unfold fits; lia). cbn [app].
  do 4 (rewrite search_cons; cbn [rps_step]).
  unfold skip_print_string. rewrite <- app_assoc, read32_le by (unfold fits; lia).
  cbn [mbind option_bind]. rewrite Nat2Z.id, decide_True by (rewrite length_app; lia).
  by rewrite drop_app_length.
Qed.

Lemma search_prints texts input :
  Forall (fun t => Z.of_nat (length t) < 2 ^ 32) texts ->
  search 0 ((texts ≫= uart_write_str) ++ input) = search 0 input.
Proof.
  intros Ht. induction Ht as [|t texts Ht Hts IH]; [done|].
  cbn [mbind list_bind]. by rewrite <- app_assoc, search_print.
Qed.

Lemma search_preamble input : search 0 (PREAMBLE_BYTES ++ input) = Some input.
Proof. unfold PREAMBLE_BYTES. cbn [app]. by do 4 (rewrite search_cons; cbn [rps_step]). Qed.
End search.

(** ** The frame *)

Section frame.
Context `{CrcLaws, PostcardLaws}.
Implicit Types (l : frame_layer).

(** What the outputs of an error-free run add up to. *)
Fixpoint gather (header : option FrameHeader) (payload : list Z) (os : list FrameOutput)
  : option recv_end :=
  match os, header with
  | FSkip :: os, _ => gather header payload os
  | FHeader h :: os, None => gather (Some h) payload os
  | FPayload x :: os, Some h =>
    if payload_len h <? Z.of_nat (length (payload ++ [x])) then None
    else gather header (payload ++ [x]) os
  | FFinished :: _, Some h =>
    if payload_len h =? Z.of_nat (length payload)
    then Some (RecvFrame (FrameLayer.message_type h) payload) else None
  | _, _ => None
  end.

Lemma gather_visible header payload os : gather header payload os = gather header payload (visible os).
Proof.
  revert header payload. induction os as [|o os IH]; intros header payload; [done|]. unfold visible.
  destruct (decide (o = FSkip)) as [->|Hne].
  - rewrite filter_cons_False by naive_solver. cbn. apply IH.
  - rewrite filter_cons_True by done. fold (visible os). destruct o, header; cbn; try done; try apply IH.
    case_match; [done|apply IH].
Qed.

Lemma recv_frame_gather l bs rest l' os header payload r :
  frame_feed_all l bs = Val (l', os, None) -> gather header payload os = Some r ->
  recv_frame l header payload (bs ++ rest) = Val r.
Proof.
  revert l os header payload. induction bs as [|b bs IH]; intros l os header payload;
    cbn [frame_feed_all app recv_frame]; [by intros [= _ <-]|].
  destruct (frame_feed l b) as [[l1 [o|]]|]; [|done..]. rewrite !run_bind_Val.
  destruct (frame_feed_all l1 bs) as [[[l2 os2] e]|] eqn:Hf; [|done]. rewrite run_bind_Val.
  intros [= <- <- ->]. cbn [gather]. destruct o as [|hh|x| | |n x];
    destruct header as [h|]; try done; try (by intros; eapply IH).
  - destruct (payload_len h <? _); [done|]. intros; by eapply IH.
  - by destruct (payload_len h =? Z.of_nat (length payload)); cbn [negb]; [intros [= <-]|].
Qed.

Lemma gather_payload h pre p :
  payload_len h = Z.of_nat (length pre + length p) ->
  gather (Some h) pre (map FPayload p ++ [FFinished]) =
  Some (RecvFrame (FrameLayer.message_type h) (pre ++ p)).
Proof.
  revert pre. induction p as [|b p IH]; intros pre Hn; cbn [map app gather].
  - cbn [length] in Hn. rewrite Hn, Nat.add_0_r, Z.eqb_refl, app_nil_r. done.
  - rewrite length_app. cbn [length] in *. destruct (Z.ltb_spec (payload_len h) (Z.of_nat (length pre + 1))); [lia|].
    rewrite IH by (rewrite length_app; cbn [length]; lia). by rewrite <- app_assoc.
Qed.

(** The first frame of the input, behind noise and prints, is received. *)
Lemma recv_first_frame noise texts t p rest :
  Forall idle_byte noise -> Forall (fun x => Z.of_nat (length x) < 2 ^ 32) texts -> payload_ok (t, p) ->
  exists wire, wire_encode t p = Val wire /\
    recv_with_print_string (noise ++ (texts ≫= uart_write_str) ++ wire ++ rest) = Val (RecvFrame t p).
Proof.
  intros Hn Ht [Hb Hp]. pose proof (wire_encode_spec t p Hb Hp) as Hw.
  match type of Hw with _ = Val (PREAMBLE_BYTES ++ ?r) => set (tail := r) in Hw end.
  destruct (decode_frame (frame_new COBS_XOR) t p (frame_new_between _) Hb Hp)
    as (wire & l' & os & Hw' & Hf & Hv & _).
  rewrite Hw in Hw'. assert (wire = PREAMBLE_BYTES ++ tail) as -> by congruence. clear Hw'.
  exists (PREAMBLE_BYTES ++ tail). split; [done|]. unfold recv_with_print_string.
  change (rps_scan (length (noise ++ (texts ≫= uart_write_str) ++ (PREAMBLE_BYTES ++ tail) ++ rest)) 0
    (noise ++ (texts ≫= uart_write_str) ++ (PREAMBLE_BYTES ++ tail) ++ rest))
    with (search 0 (noise ++ (texts ≫= uart_write_str) ++ (PREAMBLE_BYTES ++ tail) ++ rest)).
  rewrite search_noise, search_prints, <- app_assoc, search_preamble by done.
  assert (frame_feed_all (frame_new COBS_XOR) PREAMBLE_BYTES =
    Val (skip_preamble (frame_new COBS_XOR), [FSkip; FSkip; FSkip; FSkip], None)) as Hpre
    by apply feed_preamble_bytes.
  rewrite (feed_all_app _ _ _ _ _ Hpre) in Hf.
  destruct (frame_feed_all (skip_preamble (frame_new COBS_XOR)) tail) as [[[l2 os2] e]|] eqn:Hf2; [|done].
  rewrite run_bind_Val in Hf. injection Hf as <- <- ->.
  eapply recv_frame_gather; [done|]. rewrite gather_visible.
  pose proof (Hv : visible os2 = _) as Hv2. rewrite Hv2. cbn [gather].
  by rewrite gather_payload by done.
Qed.
End frame.

(** ** The claims *)

Lemma choose_version_spec versions :
  choose_version versions = if decide (2 ∈ versions) then Some 2 else None.
Proof.
  unfold choose_version, SUPPORTED_VERSIONS.
  destruct (List.find _ (reverse versions)) as [x|] eqn:Hf.
  - apply List.find_some in Hf as [Hin Hx]. apply bool_decide_eq_true in Hx.
    apply list_elem_of_singleton in Hx. subst x. apply list_elem_of_In in Hin.
    by rewrite decide_True by (by rewrite <- elem_of_reverse).
  - rewrite decide_False; [done|]. intros Hin.
    assert (bool_decide (2 ∈ [2]) = false) as Hno; [|done].
    apply (List.find_none _ _ Hf). apply list_elem_of_In. by rewrite elem_of_reverse.
Qed.


