(* ===== verification/Args.v ===== *)
(** Arguments of an uploaded program: [serialize_args] of
    [host/okdude/src/v2.rs] writes them into the [.data.args] section,
    [arg_count] and [get_nth_arg] of [device/bismuth/src/lib.rs] read them
    there. *)
From S2P Require Import Prelude Words.

Module Args.

(** ** The uploader *)

(** One argument. *)
Definition serialize_arg (sub_v : list Z) : list Z :=
  u32_to_le_bytes (wrap 32 (Z.of_nat (length sub_v))) ++ sub_v ++
  replicate (4 - length sub_v mod 4) 0.

(** The loop over the arguments, with its assertion. *)
Fixpoint serialize_loop (v_out : list Z) (v : list (list Z)) : run (list Z) :=
  match v with
  | [] => Val v_out
  | sub_v :: v =>
    let v_out := v_out ++ serialize_arg sub_v in
    _ ← rust_assert (bool_decide (length v_out mod 4 = 0)%nat);
    serialize_loop v_out v
  end.
Definition serialize_args (v : list (list Z)) : run (list Z) :=
  serialize_loop (u32_to_le_bytes (wrap 32 (Z.of_nat (length v)))) v.

(** ** The program *)

(** [core::str::from_utf8] *)
Definition continuation (b : Z) : bool := (0x80 <=? b) && (b <=? 0xbf).
Definition between (lo hi b : Z) : bool := (lo <=? b) && (b <=? hi).
Fixpoint valid_utf8 (s : list Z) : bool :=
  match s with
  | [] => true
  | a :: s =>
    if a <=? 0x7f then valid_utf8 s
    else match s with
    | [] => false
    | b :: s =>
      if between 0xc2 0xdf a then continuation b && valid_utf8 s
      else match s with
      | [] => false
      | c :: s =>
        if between 0xe0 0xef a then
          between (if a =? 0xe0 then 0xa0 else 0x80) (if a =? 0xed then 0x9f else 0xbf) b &&
          continuation c && valid_utf8 s
        else match s with
        | [] => false
        | d :: s =>
          between 0xf0 0xf4 a &&
          between (if a =? 0xf0 then 0x90 else 0x80) (if a =? 0xf4 then 0x8f else 0xbf) b &&
          continuation c && continuation d && valid_utf8 s
        end
      end
    end
  end.

(** [u32::from_le_bytes(area[j..j + 4].try_into().unwrap()) as usize] *)
Definition read_word (area : list Z) (j : Z) : run Z :=
  four ← slice_range area (Z.to_nat j) (Z.to_nat (wrap 32 (j + 4)));
  Val (u32_from_le_bytes four).

Definition arg_count (area : list Z) : run Z := read_word area 0.

(** The loop over the arguments that are skipped; [usize] has 32 bits. *)
Fixpoint skip_args (area : list Z) (n : nat) (j : Z) : run Z :=
  match n with
  | O => Val j
  | S n =>
    slice_len ← read_word area j;
    skip_args area n (wrap 32 (j + wrap 32 (4 + Z.land (wrap 32 (slice_len + 3)) (Z.lnot 3))))
  end.

Definition get_nth_arg (area : list Z) (idx : nat) : run (option (list Z)) :=
  slice_count ← arg_count area;
  if slice_count <=? Z.of_nat idx then Val None
  else
    j ← skip_args area idx 4;
    len ← read_word area j;
    slice ← slice_range area (Z.to_nat (wrap 32 (j + 4))) (Z.to_nat (wrap 32 (wrap 32 (j + 4) + len)));
    if valid_utf8 slice then Val (Some slice) else Panic.
End Args.
Export Args.

(** ** The layout *)

Section layout.
Implicit Types (area : list Z) (args : list (list Z)).

Definition args_body args : list Z := args ≫= serialize_arg.

Lemma length_serialize_arg a : (length (serialize_arg a) mod 4 = 0)%nat.
Proof.
  unfold serialize_arg, u32_to_le_bytes. rewrite !length_app, length_le_bytes, length_replicate.
  pose proof (Nat.mod_upper_bound (length a) 4 ltac:(lia)).
  pose proof (Nat.div_mod_eq (length a) 4) as Hd.
  replace (4 + (length a + (4 - length a mod 4)))%nat with ((length a / 4 + 2) * 4)%nat by lia.
  by apply Nat.Div0.mod_mul.
Qed.

Lemma serialize_loop_spec out args :
  (length out mod 4 = 0)%nat -> serialize_loop out args = Val (out ++ args_body args).
Proof.
  revert out. induction args as [|a args IH]; intros out Ho; cbn [serialize_loop args_body mbind list_bind].
  - by rewrite app_nil_r.
  - assert (length (out ++ serialize_arg a) mod 4 = 0)%nat as Ha.
    { rewrite length_app, Nat.Div0.add_mod, Ho, length_serialize_arg. done. }
    unfold rust_assert. rewrite bool_decide_true, run_bind_Val, IH by done. by rewrite <- app_assoc.
Qed.

(** A word of the area. *)
Lemma read_word_at pre x post :
  u32 x -> Z.of_nat (length pre) + 4 < 2 ^ 32 ->
  read_word (pre ++ u32_to_le_bytes x ++ post) (Z.of_nat (length pre)) = Val x.
Proof.
  intros Hx Hl. unfold read_word. rewrite wrap_id by (unfold fits; lia).
  replace (Z.to_nat (Z.of_nat (length pre) + 4)) with (length pre + 4)%nat by lia.
  rewrite Nat2Z.id, slice_range_Val.
  - rewrite drop_app_length. replace (length pre + 4 - length pre)%nat with 4%nat by lia.
    rewrite take_app_length' by done. by rewrite run_bind_Val, u32_le_roundtrip.
  - rewrite !length_app. unfold u32_to_le_bytes. rewrite length_le_bytes. lia.
Qed.

(** The reader skips an argument as the uploader wrote it, unless its length is a
    multiple of four. *)
Lemma skip_width n :
  0 <= n < 2 ^ 31 ->
  wrap 32 (4 + Z.land (wrap 32 (n + 3)) (Z.lnot 3)) = 4 + (n + 3) / 4 * 4.
Proof.
  intros Hn. rewrite (wrap_id 32 (n + 3)) by (unfold fits; lia).
  replace (Z.land (n + 3) (Z.lnot 3)) with ((n + 3) / 4 * 4).
  - rewrite wrap_id; [done|]. unfold fits.
    pose proof (Z.div_mod (n + 3) 4 ltac:(lia)). pose proof (Z.mod_pos_bound (n + 3) 4 ltac:(lia)). lia.
  - replace (Z.lnot 3) with (Z.lnot (Z.ones 2)) by done. rewrite <- Z.ldiff_land, Z.ldiff_ones_r by lia.
    by rewrite Z.shiftr_div_pow2, Z.shiftl_mul_pow2 by lia.
Qed.

(** Arguments before which every length is no multiple of four. *)
Definition odd_sized args : Prop := Forall (fun a => (length a mod 4 <> 0)%nat) args.

Lemma serialized_width a :
  (length a mod 4 <> 0)%nat ->
  Z.of_nat (length (serialize_arg a)) = 4 + (Z.of_nat (length a) + 3) / 4 * 4.
Proof.
  intros Hm. unfold serialize_arg, u32_to_le_bytes.
  rewrite !length_app, length_le_bytes, length_replicate.
  pose proof (Nat.mod_upper_bound (length a) 4 ltac:(lia)).
  pose proof (Nat.div_mod_eq (length a) 4) as Hd.
  replace ((Z.of_nat (length a) + 3) / 4) with (Z.of_nat (length a / 4) + 1); [lia|].
  apply (Z.div_unique _ _ _ (Z.of_nat (length a mod 4) - 1)); lia.
Qed.

Lemma read_arg_length pre a post :
  Z.of_nat (length a) < 2 ^ 31 -> Z.of_nat (length pre) + 4 < 2 ^ 32 ->
  read_word (pre ++ serialize_arg a ++ post) (Z.of_nat (length pre)) = Val (Z.of_nat (length a)).
Proof.
  intros Ha Hp. unfold serialize_arg. rewrite <- app_assoc, read_word_at by (done || apply wrap_fits; lia).
  by rewrite wrap_id by (unfold fits; lia).
Qed.

Lemma skip_one pre a post n :
  (length a mod 4 <> 0)%nat -> Z.of_nat (length (pre ++ serialize_arg a)) < 2 ^ 31 ->
  skip_args (pre ++ serialize_arg a ++ post) (S n) (Z.of_nat (length pre)) =
  skip_args (pre ++ serialize_arg a ++ post) n (Z.of_nat (length (pre ++ serialize_arg a))).
Proof.
  intros Hm Hl. pose proof (serialized_width a Hm) as Hw. rewrite length_app in Hl.
  assert (Z.of_nat (length a) + 4 <= Z.of_nat (length (serialize_arg a))) as Hla.
  { unfold serialize_arg, u32_to_le_bytes. rewrite !length_app, length_le_bytes. lia. }
  cbn [skip_args]. rewrite read_arg_length, run_bind_Val, skip_width, <- Hw by lia.
  rewrite wrap_id by (unfold fits; lia). f_equal. rewrite length_app. lia.
Qed.

Lemma skip_args_spec pre args post :
  odd_sized args -> Z.of_nat (length (pre ++ args_body args)) < 2 ^ 31 ->
  skip_args (pre ++ args_body args ++ post) (length args) (Z.of_nat (length pre)) =
  Val (Z.of_nat (length (pre ++ args_body args))).
Proof.
  intros Ho. revert pre. induction Ho as [|a args Ha Ho IH]; intros pre Hl.
  - cbn. by rewrite app_nil_r.
  - change (args_body (a :: args)) with (serialize_arg a ++ args_body args) in *.
    rewrite app_assoc in Hl. cbn [length]. rewrite <- app_assoc, skip_one; [|done|].
    + rewrite app_assoc, IH by done. by rewrite <- app_assoc.
    + rewrite length_app in Hl. lia.
Qed.

(** What the reader finds behind arguments that it skips rightly. *)
Lemma get_arg_behind args a post :
  odd_sized args -> valid_utf8 a = true ->
  let n := Z.of_nat (length args) + 1 in
  Z.of_nat (length (args_body args ++ serialize_arg a)) + 4 < 2 ^ 31 ->
  forall total rest, n <= total < 2 ^ 32 ->
  rest = serialize_arg a ++ post ->
  get_nth_arg (u32_to_le_bytes total ++ args_body args ++ rest) (length args) = Val (Some a).
Proof.
  intros Ho Ha n Hl total rest Ht ->. unfold get_nth_arg, arg_count.
  change 0 with (Z.of_nat (@length Z [])).
  pose proof (read_word_at [] total (args_body args ++ serialize_arg a ++ post)) as Hc. cbn [app] in Hc.
  rewrite Hc, run_bind_Val by (cbn; unfold fits; lia).
  destruct (Z.leb_spec total (Z.of_nat (length args))); [lia|].
  rewrite length_app in Hl.
  assert (length (u32_to_le_bytes total) = 4%nat) as H4 by done.
  change 4 with (Z.of_nat (length (u32_to_le_bytes total))) at 1.
  rewrite skip_args_spec by (done || rewrite length_app; lia). rewrite run_bind_Val.
  set (pre := u32_to_le_bytes total ++ args_body args).
  assert (length pre = 4 + length (args_body args))%nat as Hpre by (unfold pre; rewrite length_app; lia).
  assert (length a + 4 <= length (serialize_arg a))%nat as Hla.
  { unfold serialize_arg, u32_to_le_bytes. rewrite !length_app, length_le_bytes. lia. }
  rewrite app_assoc. fold pre. rewrite read_arg_length, run_bind_Val by lia.
  rewrite !wrap_id by (unfold fits; rewrite ?wrap_id by (unfold fits; lia); lia).
  unfold serialize_arg. rewrite <- !app_assoc, (app_assoc pre).
  rewrite slice_middle, run_bind_Val, Ha; [done| |];
    rewrite length_app; unfold u32_to_le_bytes; rewrite !length_le_bytes; lia.
Qed.
(** Where the reader lands behind an argument whose length is a multiple of
    four: on the padding, four bytes before the next argument. *)
Lemma skip_padded pre a post :
  (length a mod 4 = 0)%nat -> Z.of_nat (length pre) + Z.of_nat (length a) + 8 < 2 ^ 31 ->
  skip_args (pre ++ serialize_arg a ++ post) 1 (Z.of_nat (length pre)) =
  Val (Z.of_nat (length pre) + 4 + Z.of_nat (length a)).
Proof.
  intros Hm Hl. cbn [skip_args]. rewrite read_arg_length, run_bind_Val, skip_width by lia.
  pose proof (Nat.div_mod_eq (length a) 4) as Hd.
  replace ((Z.of_nat (length a) + 3) / 4) with (Z.of_nat (length a / 4))
    by (apply (Z.div_unique _ _ _ 3); lia).
  rewrite wrap_id by (unfold fits; lia). f_equal. lia.
Qed.

Lemma serialize_arg_padded a :
  (length a mod 4 = 0)%nat ->
  serialize_arg a = (u32_to_le_bytes (wrap 32 (Z.of_nat (length a))) ++ a) ++ u32_to_le_bytes 0 ++ [].
Proof. intros Hm. unfold serialize_arg. by rewrite Hm, <- app_assoc, app_nil_r. Qed.

Lemma read_empty pre post :
  Z.of_nat (length pre) + 4 < 2 ^ 31 ->
  let area := pre ++ (u32_to_le_bytes 0 ++ []) ++ post in let j := Z.of_nat (length pre) in
  (len ← read_word area j;
   slice ← slice_range area (Z.to_nat (wrap 32 (j + 4))) (Z.to_nat (wrap 32 (wrap 32 (j + 4) + len)));
   if valid_utf8 slice then Val (Some slice) else Panic) = Val (Some []).
Proof.
  intros Hl area j. unfold area, j. rewrite app_nil_r, read_word_at, run_bind_Val by (unfold fits; lia).
  rewrite !wrap_id by (unfold fits; rewrite ?wrap_id by (unfold fits; lia); lia).
  rewrite app_assoc. pose proof (slice_middle (pre ++ u32_to_le_bytes 0) [] post
    (Z.to_nat (Z.of_nat (length pre) + 4)) (Z.to_nat (Z.of_nat (length pre) + 4 + 0))) as Hs.
  cbn [app] in Hs. rewrite Hs; [done| |]; rewrite length_app; unfold u32_to_le_bytes; rewrite length_le_bytes; cbn; lia.
Qed.

Lemma skip_args_app area n m j :
  skip_args area (n + m) j = (j' ← skip_args area n j; skip_args area m j').
Proof.
  revert j. induction n as [|n IH]; intros j; cbn [Nat.add skip_args]; [done|].
  destruct (read_word area j) as [x|] eqn:Hx; [|done]. rewrite !run_bind_Val. apply IH.
Qed.
End layout.

(** ** The claims *)

(** An argument reads as it was given, if it is valid UTF-8, the area is
    large enough, and no argument before it has a length that is a multiple of
    four; an index beyond the arguments reads as none. *)
Theorem args_roundtrip args area_rest idx :
  Z.of_nat (length (args_body args)) + 4 < 2 ^ 31 -> Z.of_nat (length args) < 2 ^ 32 ->
  odd_sized (take idx args) -> Forall (fun a => valid_utf8 a = true) args ->
  exists serialized, serialize_args args = Val serialized /\
    get_nth_arg (serialized ++ area_rest) idx = Val (args !! idx).
Proof.
  intros Hl Hn Ho Hu. unfold serialize_args. rewrite wrap_id by (unfold fits; lia).
  eexists. split; [by apply serialize_loop_spec|]. rewrite <- app_assoc.
  destruct (args !! idx) as [a|] eqn:Hi.
  - pose proof (take_drop_middle _ _ _ Hi) as Hargs. pose proof (lookup_lt_Some _ _ _ Hi) as Hlt.
    assert (args_body args = args_body (take idx args) ++ serialize_arg a ++ args_body (drop (S idx) args)) as Hb.
    { rewrite <- Hargs at 1. unfold args_body. rewrite bind_app. done. }
    rewrite Hb, <- !app_assoc. rewrite Hb, !length_app in Hl.
    assert (length (take idx args) = idx) as Hti by (rewrite length_take; lia).
    rewrite <- Hti at 3. apply (get_arg_behind _ _ (args_body (drop (S idx) args) ++ area_rest)); try done.
    + by apply (proj1 (Forall_lookup _ _) Hu _ _ Hi).
    + rewrite length_app. lia.
    + rewrite Hti. lia.
  - apply lookup_ge_None in Hi. unfold get_nth_arg, arg_count.
    change 0 with (Z.of_nat (@length Z [])).
    pose proof (read_word_at [] (Z.of_nat (length args)) (args_body args ++ area_rest)) as Hc. cbn [app] in Hc.
    rewrite Hc, run_bind_Val by (cbn; unfold fits; lia).
    destruct (Z.leb_spec (Z.of_nat (length args)) (Z.of_nat idx)); [done|lia].
Qed.

Lemma args_roundtrip_witness :
  exists serialized, serialize_args [[0x64; 0x65; 0x62; 0x75; 0x67]; [0xc3; 0xa4]] = Val serialized /\
    get_nth_arg (serialized ++ replicate 9 0) 1 = Val (Some [0xc3; 0xa4]).
Proof.
  apply (args_roundtrip [[0x64; 0x65; 0x62; 0x75; 0x67]; [0xc3; 0xa4]] (replicate 9 0) 1).
  - reflexivity.
  - reflexivity.
  - repeat (apply Forall_cons_2; [discriminate|]). by apply Forall_nil_2.
  - repeat (apply Forall_cons_2; [reflexivity|]). by apply Forall_nil_2.
Defined.

(** The uploader pads an argument whose length is a multiple of four with
    four bytes where the reader expects none: the argument behind it reads as
    the empty string, whatever it is. *)
Theorem padded_arg_hides_next args a next later area_rest :
  let all := args ++ a :: next :: later in
  Z.of_nat (length (args_body all)) + 4 < 2 ^ 31 -> Z.of_nat (length all) < 2 ^ 32 ->
  odd_sized args -> (length a mod 4 = 0)%nat ->
  exists serialized, serialize_args all = Val serialized /\
    get_nth_arg (serialized ++ area_rest) (S (length args)) = Val (Some []).
Proof.
  intros all Hl Hn Ho Ha. unfold serialize_args. rewrite wrap_id by (unfold fits; lia).
  eexists. split; [by apply serialize_loop_spec|]. rewrite <- app_assoc.
  set (count := Z.of_nat (length all)) in *.
  assert (args_body all = args_body args ++ serialize_arg a ++ args_body (next :: later)) as Hb
    by (unfold all, args_body; by rewrite bind_app).
  rewrite Hb, <- !app_assoc. rewrite Hb, !length_app in Hl.
  set (post := args_body (next :: later) ++ area_rest).
  assert (4 + Z.of_nat (length a) + 4 = Z.of_nat (length (serialize_arg a))) as Hla.
  { rewrite serialize_arg_padded by done. unfold u32_to_le_bytes.
    rewrite !length_app, !length_le_bytes. cbn. lia. }
  assert (S (length args) < length all)%nat as Hc by (unfold all; rewrite length_app; cbn; lia).
  set (pre := u32_to_le_bytes count ++ args_body args).
  assert (Z.of_nat (length pre) = 4 + Z.of_nat (length (args_body args))) as Hp
    by (unfold pre, u32_to_le_bytes; rewrite length_app, length_le_bytes; lia).
  unfold get_nth_arg, arg_count. change 0 with (Z.of_nat (@length Z [])) at 1.
  pose proof (read_word_at [] count (args_body args ++ serialize_arg a ++ post)) as Hrd. cbn [app] in Hrd.
  rewrite Hrd, run_bind_Val by (cbn; unfold count, fits; lia). clear Hrd.
  destruct (Z.leb_spec count (Z.of_nat (S (length args)))); [lia|].
  replace (S (length args)) with (length args + 1)%nat by lia. rewrite skip_args_app.
  pose proof (skip_args_spec (u32_to_le_bytes count) args (serialize_arg a ++ post) Ho) as Hs.
  change (Z.of_nat (length (u32_to_le_bytes count))) with 4 in Hs. fold pre in Hs.
  rewrite Hs, run_bind_Val by lia.
  rewrite app_assoc. fold pre. rewrite skip_padded, run_bind_Val by (done || lia).
  rewrite serialize_arg_padded, <- (app_assoc (_ ++ a)), (app_assoc pre) by done.
  replace (Z.of_nat (length pre) + 4 + Z.of_nat (length a))
    with (Z.of_nat (length (pre ++ u32_to_le_bytes (wrap 32 (Z.of_nat (length a))) ++ a)))
    by (rewrite !length_app; unfold u32_to_le_bytes; rewrite length_le_bytes; lia).
  apply read_empty. unfold u32_to_le_bytes. rewrite !length_app, length_le_bytes. lia.
Qed.

Lemma padded_arg_hides_next_witness :
  exists serialized, serialize_args [[0x67]; [0x65; 0x63; 0x68; 0x6f]; [0x2d; 0x76; 0x76]] = Val serialized /\
    get_nth_arg (serialized ++ replicate 16 0) 2 = Val (Some []).
Proof.
  apply (padded_arg_hides_next [[0x67]] [0x65; 0x63; 0x68; 0x6f] [0x2d; 0x76; 0x76] [] (replicate 16 0)).
  - reflexivity.
  - reflexivity.
  - apply Forall_cons_2; [discriminate|]. by apply Forall_nil_2.
  - reflexivity.
Defined.
