(* ===== verification/Hdlc.v ===== *)
(** PPP in HDLC-like framing on the antimony board: the frame check sequence of
    [device/antimony/src/net/hdlc.rs], the outbound [Buffer] and the inbound
    [try_from_hdlc_frame] of [device/antimony/src/net.rs]. *)
From S2P Require Import Prelude Words.

Module Hdlc.

Definition HDLC_FLAG : Z := 0x7e.
Definition HDLC_ADDRESS : Z := 0xff.
Definition HDLC_CONTROL : Z := 0x03.
Definition HDLC_ESC : Z := 0x7d.
Definition HDLC_ESC_XOR : Z := 0x20.
Definition HDLC_FLAG_LEN : nat := 1.
Definition HDLC_ADDRESS_LEN : nat := 1.
Definition HDLC_CONTROL_LEN : nat := 1.
Definition HDLC_FCS_LEN : nat := 2.

(** ** The frame check sequence *)

Definition FCS_TABLE : list Z := [
   0x0000; 0x1189; 0x2312; 0x329b; 0x4624; 0x57ad; 0x6536; 0x74bf;
   0x8c48; 0x9dc1; 0xaf5a; 0xbed3; 0xca6c; 0xdbe5; 0xe97e; 0xf8f7;
   0x1081; 0x0108; 0x3393; 0x221a; 0x56a5; 0x472c; 0x75b7; 0x643e;
   0x9cc9; 0x8d40; 0xbfdb; 0xae52; 0xdaed; 0xcb64; 0xf9ff; 0xe876;
   0x2102; 0x308b; 0x0210; 0x1399; 0x6726; 0x76af; 0x4434; 0x55bd;
   0xad4a; 0xbcc3; 0x8e58; 0x9fd1; 0xeb6e; 0xfae7; 0xc87c; 0xd9f5;
   0x3183; 0x200a; 0x1291; 0x0318; 0x77a7; 0x662e; 0x54b5; 0x453c;
   0xbdcb; 0xac42; 0x9ed9; 0x8f50; 0xfbef; 0xea66; 0xd8fd; 0xc974;
   0x4204; 0x538d; 0x6116; 0x709f; 0x0420; 0x15a9; 0x2732; 0x36bb;
   0xce4c; 0xdfc5; 0xed5e; 0xfcd7; 0x8868; 0x99e1; 0xab7a; 0xbaf3;
   0x5285; 0x430c; 0x7197; 0x601e; 0x14a1; 0x0528; 0x37b3; 0x263a;
   0xdecd; 0xcf44; 0xfddf; 0xec56; 0x98e9; 0x8960; 0xbbfb; 0xaa72;
   0x6306; 0x728f; 0x4014; 0x519d; 0x2522; 0x34ab; 0x0630; 0x17b9;
   0xef4e; 0xfec7; 0xcc5c; 0xddd5; 0xa96a; 0xb8e3; 0x8a78; 0x9bf1;
   0x7387; 0x620e; 0x5095; 0x411c; 0x35a3; 0x242a; 0x16b1; 0x0738;
   0xffcf; 0xee46; 0xdcdd; 0xcd54; 0xb9eb; 0xa862; 0x9af9; 0x8b70;
   0x8408; 0x9581; 0xa71a; 0xb693; 0xc22c; 0xd3a5; 0xe13e; 0xf0b7;
   0x0840; 0x19c9; 0x2b52; 0x3adb; 0x4e64; 0x5fed; 0x6d76; 0x7cff;
   0x9489; 0x8500; 0xb79b; 0xa612; 0xd2ad; 0xc324; 0xf1bf; 0xe036;
   0x18c1; 0x0948; 0x3bd3; 0x2a5a; 0x5ee5; 0x4f6c; 0x7df7; 0x6c7e;
   0xa50a; 0xb483; 0x8618; 0x9791; 0xe32e; 0xf2a7; 0xc03c; 0xd1b5;
   0x2942; 0x38cb; 0x0a50; 0x1bd9; 0x6f66; 0x7eef; 0x4c74; 0x5dfd;
   0xb58b; 0xa402; 0x9699; 0x8710; 0xf3af; 0xe226; 0xd0bd; 0xc134;
   0x39c3; 0x284a; 0x1ad1; 0x0b58; 0x7fe7; 0x6e6e; 0x5cf5; 0x4d7c;
   0xc60c; 0xd785; 0xe51e; 0xf497; 0x8028; 0x91a1; 0xa33a; 0xb2b3;
   0x4a44; 0x5bcd; 0x6956; 0x78df; 0x0c60; 0x1de9; 0x2f72; 0x3efb;
   0xd68d; 0xc704; 0xf59f; 0xe416; 0x90a9; 0x8120; 0xb3bb; 0xa232;
   0x5ac5; 0x4b4c; 0x79d7; 0x685e; 0x1ce1; 0x0d68; 0x3ff3; 0x2e7a;
   0xe70e; 0xf687; 0xc41c; 0xd595; 0xa12a; 0xb0a3; 0x8238; 0x93b1;
   0x6b46; 0x7acf; 0x4854; 0x59dd; 0x2d62; 0x3ceb; 0x0e70; 0x1ff9;
   0xf78f; 0xe606; 0xd49d; 0xc514; 0xb1ab; 0xa022; 0x92b9; 0x8330;
   0x7bc7; 0x6a4e; 0x58d5; 0x495c; 0x3de3; 0x2c6a; 0x1ef1; 0x0f78].

Definition PPP_INIT_FCS16 : Z := 0xffff.

(** One byte; the index is masked to the size of the table. *)
Definition fcs_byte (fcs b : Z) : Z :=
  Z.lxor (Z.shiftr fcs 8) (FCS_TABLE !!! Z.to_nat (Z.land (Z.lxor fcs b) 0xff)).
Definition ppp_fcs16 (fcs : Z) (buf : list Z) : Z := foldl fcs_byte fcs buf.
(** [!fcs] on 16 bits *)
Definition ppp_calc_fcs (buf : list Z) : Z := Z.lxor (ppp_fcs16 PPP_INIT_FCS16 buf) 0xffff.

(** ** Outbound frames *)

Definition PPP_PROTOCOL_BYTES : nat := 2.
Definition PPP_MRU : nat := 1500.
Definition PROTO_LCP : Z := 0xc021.
Definition PROTO_IPCP : Z := 0x8021.
Definition PROTO_IP : Z := 0x0021.
Definition MAX_FRAME : nat :=
  HDLC_FLAG_LEN + HDLC_ADDRESS_LEN + HDLC_CONTROL_LEN + PPP_PROTOCOL_BYTES + PPP_MRU + HDLC_FCS_LEN.

Record Buffer : Type := MkBuffer {
  buf_len : nat;
  buf_bytes : list Z;
}.
Definition buffer_new : Buffer := MkBuffer 0 (replicate MAX_FRAME 0).

Definition begin_ppp (b : Buffer) (proto : Z) : run Buffer :=
  bs ← slice_set (buf_bytes b) 0 HDLC_FLAG;
  bs ← slice_set bs 1 HDLC_ADDRESS;
  bs ← slice_set bs 2 HDLC_CONTROL;
  bs ← slice_copy bs 3 5 (u16_to_be_bytes proto);
  Val (MkBuffer 5 bs).
Definition buffer_write (b : Buffer) (s : list Z) : run Buffer :=
  bs ← slice_copy (buf_bytes b) (buf_len b) (buf_len b + length s) s;
  Val (MkBuffer (buf_len b + length s) bs).
Definition finish_ppp (b : Buffer) : run Buffer :=
  covered ← slice_range (buf_bytes b) 1 (buf_len b);
  let fcs := ppp_calc_fcs covered in
  bs ← slice_copy (buf_bytes b) (buf_len b) (buf_len b + 2) (u16_to_le_bytes fcs);
  bs ← slice_set bs (buf_len b + 2) HDLC_FLAG;
  Val (MkBuffer (buf_len b + 3) bs).

(** ** Inbound frames *)

Definition try_from_hdlc_frame (hdlc_frame : list Z) : run (result (list Z) unit) :=
  let len := length hdlc_frame in
  if bool_decide (len < 7)%nat then Val (Err tt)
  else
    b0 ← slice_get hdlc_frame 0;
    b1 ← slice_get hdlc_frame 1;
    b2 ← slice_get hdlc_frame 2;
    if negb (b0 =? HDLC_FLAG) || negb (b1 =? HDLC_ADDRESS) || negb (b2 =? HDLC_CONTROL)
    then Val (Err tt)
    else
      tail ← slice_range hdlc_frame (len - 2) len;
      let fcs_field := u16_from_le_bytes tail in
      covered ← slice_range hdlc_frame 1 (len - 2);
      let fcs_calc := ppp_calc_fcs covered in
      if negb (fcs_calc =? fcs_field) then Val (Err tt)
      else packet ← slice_range hdlc_frame 3 (len - 2); Val (Ok packet).
End Hdlc.
Export Hdlc.

(** ** The table and the polynomial *)

(** The CRC of RFC 1662, one bit at a time: polynomial x^16 + x^12 + x^5 + 1,
    least significant bit first. *)
Definition fcs_bit (x : Z) : Z :=
  if Z.odd x then Z.lxor (Z.shiftr x 1) 0x8408 else Z.shiftr x 1.
Definition fcs_shift8 (x : Z) : Z := Nat.iter 8 fcs_bit x.
Definition fcs_reference (fcs : Z) (buf : list Z) : Z :=
  foldl (fun fcs b => fcs_shift8 (Z.lxor fcs b)) fcs buf.

Section crc.
Implicit Types (x y fcs b : Z).

Lemma fcs_bit_fits x : u16 x -> u16 (fcs_bit x).
Proof.
  intros Hx. unfold fcs_bit. assert (u16 (Z.shiftr x 1)) as Hs.
  { unfold fits in *. rewrite Z.shiftr_div_pow2 by lia. change (2 ^ 1) with 2.
    split; [apply Z.div_pos; lia|apply Z.div_lt_upper_bound; lia]. }
  destruct (Z.odd x); [|done]. apply lxor_fits; [lia|done|unfold fits; lia].
Qed.

Lemma fcs_bit_lxor x y : fcs_bit (Z.lxor x y) = Z.lxor (fcs_bit x) (fcs_bit y).
Proof.
  unfold fcs_bit. rewrite <- !Z.bit0_odd, Z.lxor_spec, Z.shiftr_lxor.
  destruct (Z.testbit x 0), (Z.testbit y 0); cbn [xorb];
    apply Z.bits_inj'; intros i Hi; rewrite !Z.lxor_spec;
    destruct (Z.testbit (Z.shiftr x 1) i), (Z.testbit (Z.shiftr y 1) i), (Z.testbit 0x8408 i); done.
Qed.

(** A step back: bit 15 of the result tells whether the polynomial was added. *)
Definition fcs_unbit (y : Z) : Z :=
  if Z.testbit y 15 then 2 * Z.lxor y 0x8408 + 1 else 2 * y.
Lemma fcs_unbit_bit x : u16 x -> fcs_unbit (fcs_bit x) = x.
Proof.
  intros Hx. unfold fcs_unbit, fcs_bit.
  assert (Z.testbit (Z.shiftr x 1) 15 = false) as H15
    by (rewrite Z.shiftr_spec by lia; by apply (fits_testbit 16)).
  pose proof (Z.div2_odd x) as Hd. rewrite Z.div2_spec in Hd.
  destruct (Z.odd x); cbn [Z.b2z] in Hd.
  - rewrite Z.lxor_spec, H15. change (xorb false (Z.testbit 0x8408 15)) with true. cbn iota.
    rewrite lxor_cancel. lia.
  - rewrite H15. lia.
Qed.

Lemma fcs_shift8_fits x : u16 x -> u16 (fcs_shift8 x).
Proof. intros Hx. unfold fcs_shift8. induction (8%nat) as [|n IH]; [done|]. by apply fcs_bit_fits. Qed.
Lemma fcs_shift8_lxor x y : fcs_shift8 (Z.lxor x y) = Z.lxor (fcs_shift8 x) (fcs_shift8 y).
Proof.
  unfold fcs_shift8. induction (8%nat) as [|n IH]; [done|]. by rewrite !Nat.iter_succ, IH, fcs_bit_lxor.
Qed.
Lemma fcs_shift8_inj x y : u16 x -> u16 y -> fcs_shift8 x = fcs_shift8 y -> x = y.
Proof.
  intros Hx Hy. unfold fcs_shift8.
  assert (forall n, u16 (Nat.iter n fcs_bit x) /\ u16 (Nat.iter n fcs_bit y)) as Hf.
  { intros n. induction n as [|n [IHx IHy]]; [done|]. split; by apply fcs_bit_fits. }
  induction (8%nat) as [|n IH]; [done|]. rewrite !Nat.iter_succ. intros He. apply IH.
  destruct (Hf n) as [Hnx Hny].
  rewrite <- (fcs_unbit_bit _ Hnx), <- (fcs_unbit_bit _ Hny). by rewrite He.
Qed.

(** Eight steps move the upper byte down and replace the lower byte by its table
    entry. *)
Lemma fcs_table_entry i :
  (i < 256)%nat -> FCS_TABLE !!! i = fcs_shift8 (Z.of_nat i).
Proof.
  intros Hi. assert (Forall (fun i => FCS_TABLE !!! i = fcs_shift8 (Z.of_nat i)) (seq 0 256)) as Hall.
  { apply (bool_decide_unpack _). vm_compute. exact I. }
  rewrite Forall_seq in Hall. apply Hall. lia.
Qed.

Lemma fcs_bit_even x : fcs_bit (2 * x) = x.
Proof.
  unfold fcs_bit. rewrite Z.odd_mul. cbn [Z.odd andb].
  rewrite Z.shiftr_div_pow2 by lia. change (2 ^ 1) with 2. rewrite Z.mul_comm. apply Z.div_mul. lia.
Qed.
Lemma fcs_shift8_high x : fcs_shift8 (256 * x) = x.
Proof.
  unfold fcs_shift8.
  assert (forall n x, Nat.iter n fcs_bit (2 ^ Z.of_nat n * x) = x) as Hn; [|apply (Hn 8%nat)].
  clear x. intros n. induction n as [|n IH]; intros x; [cbn; lia|].
  rewrite Nat.iter_succ_r, Nat2Z.inj_succ, Z.pow_succ_r by lia.
  rewrite <- Z.mul_assoc, fcs_bit_even. apply IH.
Qed.

Lemma split_byte x : Z.lxor (256 * Z.shiftr x 8) (Z.land x 0xff) = x.
Proof.
  apply Z.bits_inj'. intros i Hi. rewrite Z.lxor_spec, Z.land_spec.
  change 256 with (2 ^ 8). rewrite Z.mul_comm, <- Z.shiftl_mul_pow2 by lia.
  change 0xff with (Z.ones 8).
  destruct (Z.lt_ge_cases i 8).
  - rewrite Z.shiftl_spec_low, Z.ones_spec_low by lia. by rewrite andb_true_r.
  - rewrite Z.shiftl_spec, Z.shiftr_spec, Z.ones_spec_high by lia.
    rewrite andb_false_r, xorb_false_r. f_equal. lia.
Qed.

Lemma fcs_byte_reference fcs b :
  u8 b -> fcs_byte fcs b = fcs_shift8 (Z.lxor fcs b).
Proof.
  intros Hb. unfold fcs_byte.
  pose proof (Z.land_ones (Z.lxor fcs b) 8 ltac:(lia)) as Hl. change (Z.ones 8) with 0xff in Hl.
  pose proof (Z.mod_pos_bound (Z.lxor fcs b) (2 ^ 8) ltac:(lia)) as Hm.
  rewrite fcs_table_entry by lia. rewrite Z2Nat.id by lia.
  rewrite <- (split_byte (Z.lxor fcs b)) at 2. rewrite fcs_shift8_lxor, fcs_shift8_high.
  f_equal. rewrite Z.shiftr_lxor.
  assert (Z.shiftr b 8 = 0) as ->; [|by rewrite Z.lxor_0_r].
  rewrite Z.shiftr_div_pow2 by lia. apply Z.div_small. done.
Qed.

Lemma fcs16_reference fcs buf : bytes buf -> ppp_fcs16 fcs buf = fcs_reference fcs buf.
Proof.
  intros Hb. unfold ppp_fcs16, fcs_reference. revert fcs.
  induction Hb as [|b buf Hb Hbuf IH]; intros fcs; [done|]. cbn [foldl].
  by rewrite fcs_byte_reference, IH.
Qed.

Lemma fcs_byte_fits fcs b : u16 fcs -> u8 b -> u16 (fcs_byte fcs b).
Proof.
  intros Hf Hb. rewrite fcs_byte_reference by done. apply fcs_shift8_fits, lxor_fits; [lia|done|].
  unfold fits in *. lia.
Qed.
Lemma ppp_fcs16_fits fcs buf : u16 fcs -> bytes buf -> u16 (ppp_fcs16 fcs buf).
Proof.
  intros Hf Hb. unfold ppp_fcs16. revert fcs Hf.
  induction Hb as [|b buf Hb Hbuf IH]; intros fcs Hf; [done|]. cbn [foldl].
  apply IH. by apply fcs_byte_fits.
Qed.
Lemma ppp_calc_fcs_fits buf : bytes buf -> u16 (ppp_calc_fcs buf).
Proof.
  intros Hb. apply lxor_fits; [lia| |unfold fits; lia].
  apply ppp_fcs16_fits; [unfold PPP_INIT_FCS16, fits; lia|done].
Qed.
Lemma ppp_fcs16_app fcs s t : ppp_fcs16 fcs (s ++ t) = ppp_fcs16 (ppp_fcs16 fcs s) t.
Proof. apply foldl_app. Qed.
Lemma ppp_fcs16_inj fcs fcs' s :
  u16 fcs -> u16 fcs' -> bytes s -> ppp_fcs16 fcs s = ppp_fcs16 fcs' s -> fcs = fcs'.
Proof.
  intros Hf Hf' Hb. revert fcs fcs' Hf Hf'.
  induction Hb as [|b s Hb Hs IH]; intros fcs fcs' Hf Hf' He; [done|].
  apply IH in He; [|by apply fcs_byte_fits..]. rewrite !fcs_byte_reference in He by done.
  assert (u16 b) as Hb16 by (unfold fits in *; lia).
  apply fcs_shift8_inj in He; [|by apply lxor_fits..].
  rewrite <- (lxor_cancel fcs b), He. apply lxor_cancel.
Qed.

(** ** Errors of up to two bytes *)

(** Two bytes into the register. *)
Lemma fcs_two fcs b0 b1 :
  u8 b0 -> u8 b1 ->
  ppp_fcs16 fcs [b0; b1] = fcs_shift8 (fcs_shift8 (Z.lxor fcs (Z.lxor b0 (256 * b1)))).
Proof.
  intros H0 H1. unfold ppp_fcs16. cbn [foldl]. rewrite !fcs_byte_reference by done. f_equal.
  rewrite <- (fcs_shift8_high b1) at 1. by rewrite <- fcs_shift8_lxor, Z.lxor_assoc.
Qed.
Lemma lxor_two b0 b1 : u8 b0 -> u8 b1 -> Z.lxor b0 (256 * b1) = b0 + 256 * b1.
Proof.
  intros H0 H1. rewrite Z.add_nocarry_lxor; [done|]. apply Z.bits_inj'. intros i Hi.
  rewrite Z.land_spec, Z.bits_0. change 256 with (2 ^ 8).
  rewrite Z.mul_comm, <- Z.shiftl_mul_pow2 by lia. destruct (Z.lt_ge_cases i 8).
  - by rewrite Z.shiftl_spec_low, andb_false_r.
  - by rewrite (fits_testbit 8 b0).
Qed.
Lemma two_bytes_u16 b0 b1 : u8 b0 -> u8 b1 -> u16 (b0 + 256 * b1).
Proof. unfold fits. lia. Qed.

(** A register that reads different pairs of bytes ends differently: the code
    detects every error within two adjacent bytes. *)
Lemma fcs_two_inj fcs b0 b1 c0 c1 :
  u16 fcs -> u8 b0 -> u8 b1 -> u8 c0 -> u8 c1 ->
  ppp_fcs16 fcs [b0; b1] = ppp_fcs16 fcs [c0; c1] -> b0 = c0 /\ b1 = c1.
Proof.
  intros Hf H0 H1 H2 H3. rewrite !fcs_two, !lxor_two by done.
  pose proof (two_bytes_u16 _ _ H0 H1). pose proof (two_bytes_u16 _ _ H2 H3). intros He.
  repeat (apply fcs_shift8_inj in He;
    [|repeat first [apply fcs_shift8_fits|apply lxor_fits; [lia|done|done]]..]).
  assert (b0 + 256 * b1 = c0 + 256 * c1) as Heq.
  { rewrite <- (lxor_cancel (b0 + 256 * b1) fcs), (Z.lxor_comm (b0 + 256 * b1) fcs), He, (Z.lxor_comm fcs). apply lxor_cancel. }
  unfold fits in *. lia.
Qed.

(** The residue: a sequence is followed by its check sequence exactly if the
    register ends in the constant of RFC 1662. *)
Definition PPP_GOOD_FCS16 : Z := 0xf0b8.
Lemma fcs_residue s f0 f1 :
  bytes s -> u8 f0 -> u8 f1 ->
  ppp_calc_fcs s = u16_from_le_bytes [f0; f1] <-> ppp_fcs16 PPP_INIT_FCS16 (s ++ [f0; f1]) = PPP_GOOD_FCS16.
Proof.
  intros Hb H0 H1. rewrite ppp_fcs16_app. unfold ppp_calc_fcs.
  assert (u16 (ppp_fcs16 PPP_INIT_FCS16 s)) as Hf
    by (apply ppp_fcs16_fits; [unfold PPP_INIT_FCS16, fits; lia|done]).
  generalize dependent (ppp_fcs16 PPP_INIT_FCS16 s). intros c Hc. rewrite fcs_two, lxor_two by done.
  assert (u16_from_le_bytes [f0; f1] = f0 + 256 * f1) as -> by (cbn; lia).
  pose proof (two_bytes_u16 _ _ H0 H1) as Hw. generalize dependent (f0 + 256 * f1). intros w Hw.
  assert (u16 0xffff) as Hffff by (unfold fits; lia).
  change PPP_GOOD_FCS16 with (fcs_shift8 (fcs_shift8 0xffff)). split.
  - intros <-. by rewrite <- Z.lxor_assoc, Z.lxor_nilpotent, Z.lxor_0_l.
  - intros He. repeat (apply fcs_shift8_inj in He;
      [|repeat first [apply fcs_shift8_fits|apply lxor_fits; [lia|done|done]|done]..]).
    rewrite <- He, <- Z.lxor_assoc, Z.lxor_nilpotent, Z.lxor_0_l. done.
Qed.
End crc.

(** ** Frames *)

Section frames.
Implicit Types (frame packet p s : list Z).

(** A frame of legal length, taken apart. *)
Lemma frame_split frame :
  (7 <= length frame)%nat ->
  exists a b c packet f0 f1, frame = [a; b; c] ++ packet ++ [f0; f1] /\ (2 <= length packet)%nat.
Proof.
  intros Hl. destruct frame as [|a [|b [|c rest]]]; cbn [length] in Hl; try lia.
  destruct (drop (length rest - 2) rest) as [|f0 [|f1 [|x l]]] eqn:Hd;
    apply (f_equal length) in Hd as Hn; rewrite length_drop in Hn; cbn [length] in Hn; try lia.
  exists a, b, c, (take (length rest - 2) rest), f0, f1. split.
  - cbn [app]. do 3 f_equal. by rewrite <- Hd, take_drop.
  - rewrite length_take. lia.
Qed.

Lemma try_from_eval a b c packet f0 f1 :
  (2 <= length packet)%nat ->
  try_from_hdlc_frame ([a; b; c] ++ packet ++ [f0; f1]) =
  Val (if negb (a =? HDLC_FLAG) || negb (b =? HDLC_ADDRESS) || negb (c =? HDLC_CONTROL) then Err tt
       else if negb (ppp_calc_fcs ([b; c] ++ packet) =? u16_from_le_bytes [f0; f1]) then Err tt
       else Ok packet).
Proof.
  intros Hl. unfold try_from_hdlc_frame. set (frame := [a; b; c] ++ packet ++ [f0; f1]).
  assert (length frame = 5 + length packet)%nat as Hn
    by (unfold frame; rewrite !length_app; cbn [length]; lia).
  rewrite bool_decide_false by lia.
  change (slice_get frame 0) with (Val a). change (slice_get frame 1) with (Val b).
  change (slice_get frame 2) with (Val c). rewrite !run_bind_Val.
  destruct (_ || _); [done|].
  rewrite !slice_range_Val, !run_bind_Val by lia. rewrite Hn.
  replace (drop (5 + length packet - 2) frame) with [f0; f1].
  2:{ unfold frame. rewrite app_assoc, drop_app_length'; [done|]. rewrite length_app. cbn [length]. lia. }
  replace (take (5 + length packet - 2 - 1) (drop 1 frame)) with ([b; c] ++ packet).
  2:{ unfold frame. change (drop 1 _) with ((b :: c :: packet) ++ [f0; f1]).
      rewrite take_app_length'; [done|]. cbn [length]. lia. }
  replace (take (5 + length packet - 2 - 3) (drop 3 frame)) with packet.
  2:{ unfold frame. change (drop 3 _) with (packet ++ [f0; f1]). rewrite take_app_length'; [done|lia]. }
  replace (5 + length packet - (5 + length packet - 2))%nat with 2%nat by lia. cbn [take].
  by destruct (negb _).
Qed.

(** The frames that are accepted, and what is taken from them: a flag behind
    which the whole frame leaves the good residue. *)
Lemma try_from_accepts frame packet :
  bytes frame ->
  try_from_hdlc_frame frame = Val (Ok packet) <->
  exists f0 f1, (2 <= length packet)%nat /\
    frame = [HDLC_FLAG; HDLC_ADDRESS; HDLC_CONTROL] ++ packet ++ [f0; f1] /\
    ppp_fcs16 PPP_INIT_FCS16 (drop 1 frame) = PPP_GOOD_FCS16.
Proof.
  intros Hb. destruct (decide (7 <= length frame)%nat) as [Hl|Hl].
  - destruct (frame_split frame Hl) as (a & b & c & pk & f0 & f1 & -> & Hp).
    rewrite try_from_eval by done.
    assert (bytes ([b; c] ++ pk) /\ u8 f0 /\ u8 f1) as (Hbs & Hf0 & Hf1).
    { cbn [app] in Hb. apply Forall_cons_1 in Hb as [_ Hb].
      change (b :: c :: pk ++ [f0; f1]) with (([b; c] ++ pk) ++ [f0; f1]) in Hb. rewrite Forall_app in Hb.
      destruct Hb as [Hb Hf]. apply Forall_cons_1 in Hf as [? Hf]. by apply Forall_cons_1 in Hf as [? _]. }
    pose proof (fcs_residue ([b; c] ++ pk) f0 f1 Hbs Hf0 Hf1) as Hr.
    rewrite <- (app_assoc [b; c] pk [f0; f1]) in Hr.
    change (drop 1 ([a; b; c] ++ pk ++ [f0; f1])) with ([b; c] ++ pk ++ [f0; f1]). split.
    + destruct (Z.eqb_spec a HDLC_FLAG) as [->|], (Z.eqb_spec b HDLC_ADDRESS) as [->|],
        (Z.eqb_spec c HDLC_CONTROL) as [->|]; cbn [negb orb]; try done.
      destruct (Z.eqb_spec (ppp_calc_fcs ([HDLC_ADDRESS; HDLC_CONTROL] ++ pk)) (u16_from_le_bytes [f0; f1]));
        cbn [negb]; [|done].
      intros [= <-]. exists f0, f1. split_and!; [done|done|by apply Hr].
    + intros (g0 & g1 & Hlp & Hfr & Hg). injection Hfr as -> -> -> Hpk.
      apply app_inj_2 in Hpk as [-> [= -> ->]]; [|done]. rewrite !Z.eqb_refl. cbn [negb orb].
      rewrite (proj2 Hr Hg), Z.eqb_refl. done.
  - unfold try_from_hdlc_frame. rewrite bool_decide_true by lia. split; [done|].
    intros (f0 & f1 & Hlp & -> & _). rewrite !length_app in Hl. cbn [length] in Hl. lia.
Qed.

Lemma try_from_total frame : exists r, try_from_hdlc_frame frame = Val r.
Proof.
  unfold try_from_hdlc_frame. case_bool_decide; [eauto|].
  destruct frame as [|a [|b [|c frame]]]; cbn [length] in *; try lia.
  unfold slice_get. cbn [lookup list_lookup unwrap]. rewrite !run_bind_Val.
  destruct (_ || _); [eauto|]. rewrite !slice_range_Val, !run_bind_Val by (cbn [length]; lia).
  destruct (negb _); eauto.
Qed.
End frames.

(** ** Building a frame *)

Section building.
Implicit Types (p s : list Z).

Lemma max_frame : MAX_FRAME = 1507%nat.
Proof. done. Qed.

(** A buffer that holds [s]. *)
Definition carries (b : Buffer) (s : list Z) : Prop :=
  length (buf_bytes b) = MAX_FRAME /\ buf_len b = length s /\ take (length s) (buf_bytes b) = s.

Lemma slice_copy_full (l : list Z) a b s :
  a = length (take a l) -> b = (a + length s)%nat -> (b <= length l)%nat ->
  exists l', slice_copy l a b s = Val l' /\ length l' = length l /\ take b l' = take a l ++ s.
Proof.
  intros Ha -> Hb. rewrite slice_copy_Val by lia. eexists. split; [done|]. split.
  - rewrite !length_app, length_drop, <- Ha. lia.
  - rewrite app_assoc, take_app_length'; [done|]. rewrite length_app. lia.
Qed.
Lemma slice_set_end (l : list Z) a x :
  (a < length l)%nat ->
  exists l', slice_set l a x = Val l' /\ length l' = length l /\ take (a + 1) l' = take a l ++ [x].
Proof.
  intros Ha. rewrite slice_set_Val by done. eexists. split; [done|]. split; [by rewrite length_insert|].
  replace (a + 1)%nat with (S a) by lia. rewrite (take_S_r _ _ x) by (by rewrite list_lookup_insert_eq).
  by rewrite take_insert_ge by lia.
Qed.

Lemma buffer_write_holds b s p :
  carries b s -> (length s + length p <= MAX_FRAME)%nat ->
  exists b', buffer_write b p = Val b' /\ carries b' (s ++ p).
Proof.
  intros (Hm & Hl & Hs) Hp. unfold buffer_write. rewrite Hl.
  destruct (slice_copy_full (buf_bytes b) (length s) (length s + length p) p) as (l' & -> & Hl' & Ht).
  - by rewrite Hs.
  - done.
  - lia.
  - rewrite run_bind_Val. eexists. split; [done|]. unfold carries. cbn [buf_len buf_bytes].
    rewrite length_app, Ht, Hs. split_and!; [lia|done|done].
Qed.
Lemma buffer_write_overrun b s p :
  carries b s -> (MAX_FRAME < length s + length p)%nat -> buffer_write b p = Panic.
Proof.
  intros (Hm & Hl & Hs) Hp. unfold buffer_write, slice_copy.
  rewrite decide_False; [done|]. lia.
Qed.

Definition leader (proto : Z) : list Z :=
  [HDLC_FLAG; HDLC_ADDRESS; HDLC_CONTROL] ++ u16_to_be_bytes proto.
Lemma begin_ppp_holds b proto :
  length (buf_bytes b) = MAX_FRAME -> exists b', begin_ppp b proto = Val b' /\ carries b' (leader proto).
Proof.
  intros Hm. unfold begin_ppp. destruct (buf_bytes b) as [|x0 [|x1 [|x2 [|x3 [|x4 l]]]]] eqn:Hb; try done.
  eexists. split; [reflexivity|]. unfold carries. cbn [buf_len buf_bytes]. split_and!; [done..|]. reflexivity.
Qed.

(** What is sent for a packet. *)
Definition ppp_frame (proto : Z) (p : list Z) : list Z :=
  leader proto ++ p ++
  u16_to_le_bytes (ppp_calc_fcs ([HDLC_ADDRESS; HDLC_CONTROL] ++ u16_to_be_bytes proto ++ p)) ++ [HDLC_FLAG].

Lemma length_leader proto : length (leader proto) = 5%nat.
Proof. done. Qed.

Lemma finish_ppp_holds b proto p :
  carries b (leader proto ++ p) ->
  if decide (length p <= 1499)%nat
  then exists b', finish_ppp b = Val b' /\ carries b' (ppp_frame proto p)
  else finish_ppp b = Panic.
Proof.
  intros (Hm & Hl & Hs). rewrite length_app, length_leader in Hl. unfold finish_ppp.
  assert (length (leader proto ++ p) <= MAX_FRAME)%nat as Hmax.
  { rewrite <- Hs, length_take. lia. }
  rewrite length_app, length_leader in Hmax. rewrite length_app, length_leader in Hs.
  rewrite slice_range_Val, run_bind_Val by lia.
  replace (take (buf_len b - 1) (drop 1 (buf_bytes b)))
    with ([HDLC_ADDRESS; HDLC_CONTROL] ++ u16_to_be_bytes proto ++ p).
  2:{ rewrite take_drop_commute. replace (1 + (buf_len b - 1))%nat with (5 + length p)%nat by lia. by rewrite Hs. }
  set (fcs := ppp_calc_fcs _). cbn zeta.
  assert (length (u16_to_le_bytes fcs) = 2%nat) as H2 by done.
  destruct (decide (buf_len b + 2 <= MAX_FRAME)%nat) as [Hc|Hc].
  2:{ rewrite max_frame in Hc. rewrite decide_False by lia. unfold slice_copy.
      rewrite decide_False; [done|]. rewrite Hm, max_frame. lia. }
  destruct (slice_copy_full (buf_bytes b) (buf_len b) (buf_len b + 2) (u16_to_le_bytes fcs))
    as (l1 & -> & Hl1 & Ht1); [rewrite length_take; lia|lia|lia|]. rewrite run_bind_Val.
  case_decide as Hd.
  - destruct (slice_set_end l1 (buf_len b + 2) HDLC_FLAG) as (l2 & -> & Hl2 & Ht2);
      [rewrite Hl1, Hm, max_frame; lia|]. rewrite run_bind_Val. eexists. split; [done|].
    unfold carries, ppp_frame. cbn [buf_len buf_bytes]. fold fcs.
    rewrite !length_app, length_leader, H2. cbn [length].
    split_and!; [lia|lia|].
    replace (5 + (length p + (2 + 1)))%nat with (buf_len b + 2 + 1)%nat by lia.
    rewrite Ht2, Ht1, Hl, Hs, <- !app_assoc. done.
  - unfold slice_set. rewrite decide_False; [done|]. rewrite Hl1, Hm, max_frame. lia.
Qed.

(** A frame, without its closing flag, is accepted. *)
Lemma frame_accepted proto p :
  u16 proto -> bytes p ->
  try_from_hdlc_frame (leader proto ++ p ++
    u16_to_le_bytes (ppp_calc_fcs ([HDLC_ADDRESS; HDLC_CONTROL] ++ u16_to_be_bytes proto ++ p))) =
  Val (Ok (u16_to_be_bytes proto ++ p)).
Proof.
  intros Hp Hb. set (fcs := u16_to_le_bytes _). destruct fcs as [|f0 [|f1 [|]]] eqn:Hf; try done.
  change (leader proto ++ p ++ [f0; f1])
    with ([HDLC_FLAG; HDLC_ADDRESS; HDLC_CONTROL] ++ (u16_to_be_bytes proto ++ p) ++ [f0; f1]).
  rewrite try_from_eval by (rewrite length_app; unfold u16_to_be_bytes; rewrite length_be_bytes; lia).
  rewrite !Z.eqb_refl. cbn [negb orb]. rewrite <- Hf. unfold fcs. rewrite u16_le_roundtrip.
  - by rewrite Z.eqb_refl.
  - apply ppp_calc_fcs_fits. apply Forall_app. split; [decide_now|]. apply Forall_app. split; [|done].
    apply be_bytes_bytes.
Qed.

(** [begin_ppp], the writes and [finish_ppp], as [send] and its variants in
    [control.rs] and [net.rs] call them. *)
Definition build_frame (proto : Z) (parts : list (list Z)) : run Buffer :=
  b ← begin_ppp buffer_new proto;
  b ← foldl (fun b p => b ← b; buffer_write b p) (Val b) parts;
  finish_ppp b.

Lemma fold_write_Panic parts : foldl (fun b p => b ← b; buffer_write b p) Panic parts = Panic.
Proof. by induction parts. Qed.

Lemma build_frame_spec proto parts :
  if decide (length (concat parts) <= 1499)%nat
  then exists b, build_frame proto parts = Val b /\ carries b (ppp_frame proto (concat parts))
  else build_frame proto parts = Panic.
Proof.
  unfold build_frame.
  destruct (begin_ppp_holds buffer_new proto) as (b0 & -> & Hb0);
    [unfold buffer_new; cbn [buf_bytes]; apply length_replicate|]. rewrite run_bind_Val.
  rewrite <- (app_nil_r (leader proto)) in Hb0.
  change (concat parts) with ([] ++ concat parts). generalize dependent (@nil Z).
  revert b0. induction parts as [|p parts IH]; intros b0 s Hs.
  - cbn [concat foldl]. rewrite run_bind_Val, app_nil_r. by apply finish_ppp_holds.
  - cbn [concat foldl]. rewrite run_bind_Val.
    destruct (decide (length (leader proto ++ s) + length p <= MAX_FRAME)%nat) as [Hm|Hm].
    + destruct (buffer_write_holds b0 _ p Hs Hm) as (b1 & -> & Hb1).
      rewrite app_assoc. apply IH. by rewrite <- app_assoc in Hb1.
    + rewrite (buffer_write_overrun b0 _ p Hs), fold_write_Panic by lia.
      rewrite !length_app, length_leader, max_frame in Hm.
      rewrite decide_False; [done|]. rewrite !length_app. lia.
Qed.
End building.

(** ** The claims *)

(** The table computes the CRC of RFC 1662, bit by bit the remainder of
    x^16 + x^12 + x^5 + 1. *)
Theorem fcs_table_correct fcs buf :
  bytes buf -> ppp_fcs16 fcs buf = fcs_reference fcs buf.
Proof. apply fcs16_reference. Qed.

Lemma fcs_table_correct_witness :
  ppp_fcs16 0xffff [0x31; 0x32; 0x33; 0x34; 0x35; 0x36; 0x37; 0x38; 0x39] =
  fcs_reference 0xffff [0x31; 0x32; 0x33; 0x34; 0x35; 0x36; 0x37; 0x38; 0x39].
Proof. apply fcs_table_correct. decide_now. Defined.

(** C38: a frame that is accepted is no longer accepted when one byte of it, or
    two adjacent ones, are changed, wherever they are. *)
Theorem hdlc_detects_burst pre post b0 b1 c0 c1 packet :
  bytes (pre ++ [b0; b1] ++ post) -> u8 c0 -> u8 c1 -> (b0 <> c0 \/ b1 <> c1) ->
  try_from_hdlc_frame (pre ++ [b0; b1] ++ post) = Val (Ok packet) ->
  try_from_hdlc_frame (pre ++ [c0; c1] ++ post) = Val (Err tt).
Proof.
  intros Hb H2 H3 Hne Hok. destruct (try_from_total (pre ++ [c0; c1] ++ post)) as [[q|[]] Hr]; [|done].
  exfalso. rewrite !Forall_app in Hb. destruct Hb as (Hbpre & Hb01 & Hbpost).
  apply Forall_cons_1 in Hb01 as [H0 Hb1]. apply Forall_cons_1 in Hb1 as [H1 _].
  apply try_from_accepts in Hr as (g0 & g1 & _ & Hg & Hgr).
  2:{ apply Forall_app. split; [done|]. by repeat apply Forall_cons_2. }
  apply try_from_accepts in Hok as (f0 & f1 & _ & Hf & Hfr).
  2:{ apply Forall_app. split; [done|]. by repeat apply Forall_cons_2. }
  destruct pre as [|x pre].
  - injection Hg as -> ->. injection Hf as -> ->. by destruct Hne.
  - rewrite <- Hfr in Hgr. clear Hf Hg Hfr.
    change (ppp_fcs16 PPP_INIT_FCS16 (pre ++ [c0; c1] ++ post) = ppp_fcs16 PPP_INIT_FCS16 (pre ++ [b0; b1] ++ post))
      in Hgr.
    apply Forall_cons_1 in Hbpre as [_ Hbpre].
    rewrite !ppp_fcs16_app in Hgr.
    assert (u16 (ppp_fcs16 PPP_INIT_FCS16 pre)) as Hp
      by (apply ppp_fcs16_fits; [unfold PPP_INIT_FCS16, fits; lia|done]).
    apply ppp_fcs16_inj in Hgr; [|apply ppp_fcs16_fits; [done|by repeat apply Forall_cons_2]..|done].
    apply fcs_two_inj in Hgr as [-> ->]; [by destruct Hne|done..].
Qed.

Lemma hdlc_detects_burst_witness :
  try_from_hdlc_frame [0x7e; 0xff; 0x03; 0xc0; 0x21; 9; 1; 0; 8; 0; 0; 0; 0; 0x6e; 0xf1] = Val (Ok [0xc0; 0x21; 9; 1; 0; 8; 0; 0; 0; 0]) /\
  try_from_hdlc_frame [0x7e; 0xff; 0x03; 0xc0; 0x21; 9; 2; 1; 8; 0; 0; 0; 0; 0x6e; 0xf1] = Val (Err tt).
Proof.
  split; [vm_compute; reflexivity|].
  apply (hdlc_detects_burst [0x7e; 0xff; 0x03; 0xc0; 0x21; 9] [8; 0; 0; 0; 0; 0x6e; 0xf1] 1 0 2 1
    [0xc0; 0x21; 9; 1; 0; 8; 0; 0; 0; 0]).
  - decide_now.
  - decide_now.
  - decide_now.
  - left. discriminate.
  - vm_compute. reflexivity.
Defined.

(** A packet of up to 1499 bytes is framed, and the frame without its closing
    flag is accepted and gives back protocol and packet; a longer one makes the
    frame writer panic, even one of 1500 bytes, the size that the link promises
    to carry. *)
Theorem ppp_frame_roundtrip proto parts :
  u16 proto -> bytes (concat parts) ->
  if decide (length (concat parts) < PPP_MRU)%nat
  then exists b frame, build_frame proto parts = Val b /\
    take (buf_len b) (buf_bytes b) = frame ++ [HDLC_FLAG] /\
    try_from_hdlc_frame frame = Val (Ok (u16_to_be_bytes proto ++ concat parts))
  else build_frame proto parts = Panic.
Proof.
  intros Hp Hb. pose proof (build_frame_spec proto parts) as Hs. unfold PPP_MRU.
  destruct (decide (length (concat parts) <= 1499)%nat) as [Hl|Hl];
    [rewrite decide_True by lia|rewrite decide_False by lia; done].
  destruct Hs as (b & Hbf & Hm & Hlen & Hh). set (p := concat parts) in *.
  set (fcs := u16_to_le_bytes (ppp_calc_fcs ([HDLC_ADDRESS; HDLC_CONTROL] ++ u16_to_be_bytes proto ++ p))).
  exists b, (leader proto ++ p ++ fcs). split_and!; [done| |].
  - rewrite Hlen, Hh. unfold ppp_frame. fold fcs. by rewrite <- !app_assoc.
  - by apply frame_accepted.
Qed.

Lemma ppp_frame_roundtrip_witness :
  (exists b frame, build_frame PROTO_IP [[0x45; 0]; [1; 2; 3]] = Val b /\
    take (buf_len b) (buf_bytes b) = frame ++ [HDLC_FLAG] /\
    try_from_hdlc_frame frame = Val (Ok [0; 0x21; 0x45; 0; 1; 2; 3])) /\
  build_frame PROTO_IP [replicate 1500 7] = Panic.
Proof.
  split.
  - apply (ppp_frame_roundtrip PROTO_IP [[0x45; 0]; [1; 2; 3]]); decide_now.
  - apply (ppp_frame_roundtrip PROTO_IP [replicate 1500 7]); decide_now.
Defined.
