(* ===== verification/PppXmit.v ===== *)
(** The transmit channel of [device/antimony/src/net/phy.rs]: a queue of frames
    that the UART interrupt empties, with the byte escapes of RFC 1662.

    The UART is the number of bytes its transmit FIFO takes before it reports
    that it is full, and the bytes it was given; the environment changes the
    first between two calls. *)
From S2P Require Import Prelude Words Hdlc.

Module PppXmit.

Record TxBuffer : Type := MkTxBuffer {
  tx_buffer : Buffer;
  tx_index : nat;
  tx_pending_escape : bool;
}.
Record XmitChannel : Type := MkXmitChannel {
  xc_buffers : list TxBuffer;
  xc_writing : bool;
  xc_needs_escape : list bool;
}.
Definition xmit_new : XmitChannel := MkXmitChannel [] false (replicate 256 false).
Definition needs_escape (c : Z) (x : XmitChannel) : run XmitChannel :=
  t ← slice_set (xc_needs_escape x) (Z.to_nat c) true;
  Val (MkXmitChannel (xc_buffers x) (xc_writing x) t).
(** [link_init] of [net.rs]. *)
Definition link_init (x : XmitChannel) : run XmitChannel :=
  x ← needs_escape HDLC_ESC x; needs_escape HDLC_FLAG x.

Record Uart : Type := MkUart {
  uart_room : nat;
  uart_sent : list Z;
  uart_etbei : bool;
}.
Definition set_etbei (e : bool) (u : Uart) : Uart := MkUart (uart_room u) (uart_sent u) e.

(** The loop over the head buffer: every round writes one byte.  [None] for a
    frame that is written out, else where it goes on. *)
Fixpoint tx_loop (needs : list bool) (b : Buffer) (i : nat) (pending : bool) (room : nat)
  (sent : list Z) : run (option (nat * bool) * nat * list Z) :=
  match room with
  | O => Val (Some (i, pending), O, sent)
  | S room =>
    byte ← slice_get (buf_bytes b) i;
    '(i, pending, w) ←
      (if (pending : bool) then Val (S i, false, Z.lxor HDLC_ESC_XOR byte)
       else
         e ← slice_get needs (Z.to_nat byte);
         if e && negb ((bool_decide (i = 0%nat) || bool_decide (i = (buf_len b - 1)%nat)) && (byte =? 0x7e))
         then Val (i, true, HDLC_ESC)
         else Val (S i, false, byte));
    let sent := sent ++ [w] in
    if bool_decide (i = buf_len b) then Val (None, room, sent)
    else tx_loop needs b i pending room sent
  end.

(** One head buffer at most: the loop ends after it is popped. *)
Definition write_out (x : XmitChannel) (u : Uart) : run (XmitChannel * Uart * bool) :=
  match xc_buffers x with
  | [] => Val (x, u, true)
  | t :: rest =>
    '(end_, room, sent) ←
      tx_loop (xc_needs_escape x) (tx_buffer t) (tx_index t) (tx_pending_escape t) (uart_room u) (uart_sent u);
    let buffers := match end_ with
      | Some (i, pending) => MkTxBuffer (tx_buffer t) i pending :: rest
      | None => rest
      end in
    Val (MkXmitChannel buffers (xc_writing x) (xc_needs_escape x), MkUart room sent (uart_etbei u),
         match buffers with [] => true | _ => false end)
  end.

Definition push (b : Buffer) (x : XmitChannel) (u : Uart) : run (XmitChannel * Uart) :=
  let x := MkXmitChannel (xc_buffers x ++ [MkTxBuffer b 0 false]) (xc_writing x) (xc_needs_escape x) in
  if negb (xc_writing x) && match xc_buffers x with [] => true | _ => false end then
    '(x, u, finished) ← write_out x u;
    if (finished : bool) then Val (x, u)
    else Val (MkXmitChannel (xc_buffers x) true (xc_needs_escape x), set_etbei true u)
  else Val (x, u).

(** The transmit half of the UART interrupt. *)
Definition dump_uart_buffer (x : XmitChannel) (u : Uart) : run (XmitChannel * Uart) :=
  '(x, u, finished) ← write_out x u;
  if (finished : bool) then Val (MkXmitChannel (xc_buffers x) false (xc_needs_escape x), set_etbei false u)
  else Val (x, u).
End PppXmit.
Export PppXmit.

(** ** The bytes of a frame on the wire *)

Section wire.
Context (needs : list bool).
Implicit Types (b : Buffer) (s : list Z) (t : TxBuffer).

Definition needed (c : Z) : bool := default false (needs !! Z.to_nat c).
Definition stuff (c : Z) : list Z := if needed c then [HDLC_ESC; Z.lxor HDLC_ESC_XOR c] else [c].

(** The byte at index [i] of a frame of [n] bytes. *)
Definition stuff_at (n i : nat) (c : Z) : list Z :=
  if needed c && negb ((bool_decide (i = 0%nat) || bool_decide (i = (n - 1)%nat)) && (c =? 0x7e))
  then [HDLC_ESC; Z.lxor HDLC_ESC_XOR c] else [c].
Fixpoint stuff_from (n i : nat) s : list Z :=
  match s with [] => [] | c :: s => stuff_at n i c ++ stuff_from n (S i) s end.

(** What is left to write of the frame [s]. *)
Definition rest_of s (i : nat) (pending : bool) : list Z :=
  drop (if pending then 1 else 0) (stuff_from (length s) i (drop i s)).

(** Where the loop can be in [s]: the index is inside, and only an escaped byte
    is half written. *)
Definition at_byte s (i : nat) (pending : bool) (c : Z) : Prop :=
  s !! i = Some c /\ (pending = true -> stuff_at (length s) i c = [HDLC_ESC; Z.lxor HDLC_ESC_XOR c]).

Lemma rest_of_step s i pending c :
  at_byte s i pending c ->
  rest_of s i pending = drop (if pending then 1 else 0) (stuff_at (length s) i c) ++ rest_of s (S i) false.
Proof.
  intros [Hi Hp]. unfold rest_of. rewrite (drop_S s c i Hi). cbn [stuff_from].
  rewrite (drop_0 (stuff_from _ _ (drop (S i) s))).
  destruct pending; [by rewrite Hp|by rewrite !drop_0].
Qed.
Lemma rest_of_end s i : (length s <= i)%nat -> rest_of s i false = [].
Proof. intros Hi. unfold rest_of. by rewrite (drop_ge s). Qed.
Lemma rest_of_pos s i pending c : at_byte s i pending c -> (0 < length (rest_of s i pending))%nat.
Proof.
  intros Ha. rewrite (rest_of_step _ _ _ _ Ha), length_app. destruct Ha as [_ Hp].
  destruct pending; [rewrite Hp by done; cbn; lia|].
  rewrite drop_0. unfold stuff_at. case_match; cbn [length]; lia.
Qed.

Lemma slice_get_holds b s i c : carries b s -> s !! i = Some c -> slice_get (buf_bytes b) i = Val c.
Proof.
  intros (_ & _ & Hs) Hi. apply slice_get_Val. rewrite <- Hs in Hi. by apply lookup_take_Some in Hi as [Hi _].
Qed.
Context (Hneeds : length needs = 256%nat).

Lemma slice_get_needs c : u8 c -> slice_get needs (Z.to_nat c) = Val (needed c).
Proof.
  intros Hc. unfold needed. destruct (lookup_lt_is_Some_2 needs (Z.to_nat c)) as [e He].
  - rewrite Hneeds. unfold fits in Hc. lia.
  - rewrite He. by apply slice_get_Val.
Qed.

(** One round: the next byte of the rest is written. *)
Lemma tx_round b s i (pending : bool) c room sent :
  carries b s -> bytes s -> at_byte s i pending c ->
  exists w i' pending', rest_of s i pending = w :: rest_of s i' pending' /\
    (i' = length s /\ pending' = false \/ exists c', at_byte s i' pending' c') /\
    tx_loop needs b i pending (S room) sent =
    (if bool_decide (i' = length s) then Val (None, room, sent ++ [w])
     else tx_loop needs b i' pending' room (sent ++ [w])).
Proof.
  intros Hh Hb Ha. pose proof (rest_of_step _ _ _ _ Ha) as Hr. pose proof Ha as [Hi Hp].
  pose proof Hh as (_ & Hl & _). pose proof (lookup_lt_Some _ _ _ Hi) as Hlt.
  assert (u8 c) as Hc by (by apply (proj1 (Forall_lookup _ _) Hb _ _ Hi)).
  cbn [tx_loop]. rewrite (slice_get_holds _ _ _ _ Hh Hi), run_bind_Val, slice_get_needs, run_bind_Val, Hl by done.
  assert (S i = length s /\ false = false \/ exists c', at_byte s (S i) false c') as Hnext.
  { destruct (decide (S i = length s)) as [|Hne]; [by left|right].
    destruct (lookup_lt_is_Some_2 s (S i)) as [c' Hc']; [lia|]. by exists c'. }
  destruct pending.
  - rewrite run_bind_Val. eexists _, (S i), false. split_and!; [|done|done]. by rewrite Hr, Hp.
  - rewrite drop_0 in Hr. unfold stuff_at in Hr. destruct (needed c && _) eqn:He; rewrite run_bind_Val.
    + assert (at_byte s i true c) as Ha' by (split; [done|]; intros _; unfold stuff_at; by rewrite He).
      eexists _, i, true. split_and!; [|eauto|done].
      rewrite Hr, (rest_of_step _ _ _ _ Ha'). unfold stuff_at. by rewrite He.
    + eexists _, (S i), false. split_and!; [|done|done]. by rewrite Hr.
Qed.

(** The loop writes the next bytes of the frame, as many as there is room for. *)
Lemma tx_loop_spec room b s i c (pending : bool) sent :
  carries b s -> bytes s -> at_byte s i pending c ->
  let rest := rest_of s i pending in
  exists e, tx_loop needs b i pending room sent = Val (e, (room - length rest)%nat, sent ++ take room rest) /\
    match e with
    | None => (length rest <= room)%nat
    | Some (i', pending') => (room < length rest)%nat /\ (exists c', at_byte s i' pending' c') /\
        rest_of s i' pending' = drop room rest
    end.
Proof.
  intros Hh Hb. revert i c pending sent. induction room as [|room IH]; intros i c pending sent Ha.
  - cbn zeta. exists (Some (i, pending)). rewrite take_0, app_nil_r. split; [done|].
    split_and!; [by apply (rest_of_pos _ _ _ c)|by exists c|done].
  - destruct (tx_round b s i pending c room sent Hh Hb Ha) as (w & i' & p' & -> & Hn & ->).
    cbn [length take Nat.sub]. cbn zeta. case_bool_decide as Hend.
    + destruct Hn as [[_ ->]|[c' [Hc' _]]]; [|apply lookup_lt_Some in Hc'; lia].
      exists None. rewrite rest_of_end by lia. rewrite take_nil. cbn [length].
      rewrite Nat.sub_0_r. split; [done|lia].
    + destruct Hn as [[? _]|[c' Ha']]; [done|].
      destruct (IH i' c' p' (sent ++ [w]) Ha') as (e & -> & He). exists e.
      rewrite <- app_assoc. split; [done|]. destruct e as [[i2 p2]|]; [|lia]. destruct He as (? & ? & ?). split_and!; [lia|done|done].
Qed.
End wire.

(** ** The channel as a queue *)

(** What the channel promises: every frame in the queue has a rest to be
    written; an interrupt writes as much of the first rest as there is room for,
    a push adds the whole wire form of a frame. *)
Definition wire_of (needs : list bool) (s : list Z) : list Z := rest_of needs s 0 false.
Definition rest_step (rests : list (list Z)) (room : nat) : list (list Z) * list Z :=
  match rests with
  | [] => ([], [])
  | r :: rs => (if bool_decide (room < length r)%nat then drop room r :: rs else rs, take room r)
  end.

Definition owes (needs : list bool) (t : TxBuffer) (r : list Z) : Prop :=
  exists s c, carries (tx_buffer t) s /\ bytes s /\
    at_byte needs s (tx_index t) (tx_pending_escape t) c /\ r = rest_of needs s (tx_index t) (tx_pending_escape t).
Definition xmit_rel (needs : list bool) (x : XmitChannel) (rests : list (list Z)) : Prop :=
  xc_needs_escape x = needs /\ Forall2 (owes needs) (xc_buffers x) rests.

(** A push only queues the frame: it looks for an empty queue after it has put
    the frame into it. *)
Lemma push_queues b x u :
  push b x u =
  Val (MkXmitChannel (xc_buffers x ++ [MkTxBuffer b 0 false]) (xc_writing x) (xc_needs_escape x), u).
Proof. unfold push. cbn [xc_buffers xc_writing]. destruct (xc_buffers x); cbn [app]; by rewrite andb_false_r. Qed.

Section queue.
Context (needs : list bool) (Hneeds : length needs = 256%nat).
Implicit Types (x : XmitChannel) (u : Uart) (b : Buffer).

Lemma write_out_refines x u rests :
  xmit_rel needs x rests ->
  let '(rests', out) := rest_step rests (uart_room u) in
  exists x' room, write_out x u =
    Val (x', MkUart room (uart_sent u ++ out) (uart_etbei u), bool_decide (rests' = [])) /\
    xmit_rel needs x' rests' /\ xc_writing x' = xc_writing x.
Proof.
  intros [Hn Hq]. unfold write_out. destruct (xc_buffers x) as [|t ts] eqn:Hx.
  - apply Forall2_nil_inv_l in Hq as ->. cbn [rest_step]. exists x, (uart_room u).
    rewrite app_nil_r. destruct u. split_and!; [done| |done]. split; [done|]. by rewrite Hx.
  - apply Forall2_cons_inv_l in Hq as (r & rs & (s & c & Hh & Hb & Ha & ->) & Hq & ->).
    cbn [rest_step]. rewrite Hn.
    destruct (tx_loop_spec needs Hneeds (uart_room u) (tx_buffer t) s _ c _ (uart_sent u) Hh Hb Ha)
      as (e & -> & He). rewrite run_bind_Val. destruct e as [[i p]|].
    + destruct He as (Hlt & [c' Ha'] & Hr). rewrite (bool_decide_true (_ < _)%nat) by exact Hlt.
      eexists _, _. split_and!; [done| |done]. split; [done|]. cbn [xc_buffers].
      apply Forall2_cons_2; [|done]. exists s, c'. split_and!; [done|done|done|exact (eq_sym Hr)].
    + rewrite (bool_decide_false (_ < _)%nat) by lia. eexists (MkXmitChannel ts (xc_writing x) needs), _.
      split_and!; [by destruct Hq|by split|done].
Qed.

Lemma dump_refines x u rests :
  xmit_rel needs x rests ->
  let '(rests', out) := rest_step rests (uart_room u) in
  exists x' room etbei, dump_uart_buffer x u = Val (x', MkUart room (uart_sent u ++ out) etbei) /\
    xmit_rel needs x' rests'.
Proof.
  intros Hx. pose proof (write_out_refines x u rests Hx) as Hw. unfold dump_uart_buffer.
  destruct (rest_step rests (uart_room u)) as [rests' out]. destruct Hw as (x' & room & -> & [Hn Hr] & _).
  rewrite run_bind_Val. case_bool_decide; eexists _, _, _; (split; [done|]); by split.
Qed.

Lemma push_refines x u rests b s c :
  xmit_rel needs x rests -> carries b s -> bytes s -> s !! 0%nat = Some c ->
  exists x', push b x u = Val (x', u) /\ xmit_rel needs x' (rests ++ [wire_of needs s]).
Proof.
  intros [Hn Hq] Hh Hb Hs. rewrite push_queues. eexists. split; [done|]. split; [done|]. cbn [xc_buffers].
  apply Forall2_app; [done|]. apply Forall2_cons_2; [|by apply Forall2_nil_2].
  exists s, c. cbn [tx_buffer tx_index tx_pending_escape]. done.
Qed.
End queue.

Lemma queue_step_conserves rests room :
  let '(rests', out) := rest_step rests room in out ++ concat rests' = concat rests.
Proof.
  destruct rests as [|r rs]; [done|]. cbn [rest_step concat]. case_bool_decide.
  - cbn [concat]. by rewrite app_assoc, take_drop.
  - by rewrite take_ge by lia.
Qed.

(** ** Histories *)

(** What happens to the channel: the program pushes a frame, the UART interrupts
    with some room in its FIFO. *)
Inductive xmit_op : Type :=
  | XPush (b : Buffer)
  | XInterrupt (room : nat).
Definition xmit_do (op : xmit_op) (xu : XmitChannel * Uart) : run (XmitChannel * Uart) :=
  match op with
  | XPush b => push b (fst xu) (snd xu)
  | XInterrupt room => dump_uart_buffer (fst xu) (MkUart room (uart_sent (snd xu)) (uart_etbei (snd xu)))
  end.
Fixpoint xmit_run (ops : list xmit_op) (xu : XmitChannel * Uart) : run (XmitChannel * Uart) :=
  match ops with [] => Val xu | op :: ops => xu ← xmit_do op xu; xmit_run ops xu end.

(** The frames a history pushes, and the rooms it offers. *)
Definition pushes (ops : list xmit_op) : list Buffer :=
  ops ≫= fun op => match op with XPush b => [b] | XInterrupt _ => [] end.
Definition framed (b : Buffer) (s : list Z) : Prop := carries b s /\ bytes s /\ s <> [].

Section history.
Context (needs : list bool) (Hneeds : length needs = 256%nat).

Lemma xmit_run_refines ops x u rests frames :
  xmit_rel needs x rests -> Forall2 framed (pushes ops) frames ->
  exists x' u' rests', xmit_run ops (x, u) = Val (x', u') /\ xmit_rel needs x' rests' /\
    uart_sent u' ++ concat rests' = uart_sent u ++ concat rests ++ concat (wire_of needs <$> frames).
Proof.
  revert x u rests frames. induction ops as [|op ops IH]; intros x u rests frames Hx Hf.
  - apply Forall2_nil_inv_l in Hf as ->. exists x, u, rests. split_and!; [done|done|].
    cbn. by rewrite app_nil_r.
  - destruct op as [b|room]; cbn [xmit_run xmit_do fst snd].
    + apply Forall2_cons_inv_l in Hf as (s & frames' & (Hh & Hb & Hne) & Hf & ->).
      destruct s as [|c s]; [done|].
      destruct (push_refines needs x u rests b (c :: s) c Hx Hh Hb eq_refl) as (x' & -> & Hx').
      rewrite run_bind_Val. destruct (IH x' u _ frames' Hx' Hf) as (x2 & u2 & r2 & Hr & Hx2 & He).
      exists x2, u2, r2. split_and!; [done|done|]. rewrite He, concat_app. cbn [concat fmap list_fmap].
      by rewrite app_nil_r, !app_assoc.
    + pose proof (dump_refines needs Hneeds x (MkUart room (uart_sent u) (uart_etbei u)) rests Hx) as Hd.
      cbn [uart_room uart_sent] in Hd. pose proof (queue_step_conserves rests room) as Hc.
      destruct (rest_step rests room) as [rests1 out]. destruct Hd as (x1 & room1 & e1 & -> & Hx1).
      rewrite run_bind_Val. destruct (IH x1 (MkUart room1 (uart_sent u ++ out) e1) rests1 frames Hx1 Hf) as (x2 & u2 & r2 & Hr & Hx2 & He).
      exists x2, u2, r2. split_and!; [done|done|]. rewrite He. cbn [uart_sent].
      by rewrite <- Hc, <- !app_assoc.
Qed.
End history.

Definition link_needs : list bool :=
  <[Z.to_nat HDLC_FLAG := true]> (<[Z.to_nat HDLC_ESC := true]> (replicate 256 false)).
Lemma link_init_new : link_init xmit_new = Val (MkXmitChannel [] false link_needs).
Proof. reflexivity. Qed.

(** ** The claims *)

(** C34: whatever the pushes and interrupts, and however much room the UART has
    at each, what it was given followed by what is still owed is the
    concatenation of the escaped frames in the order of their pushes; nothing
    is given to the UART by a push, and an interrupt with room for a byte gives
    it one if any is owed. *)
Theorem xmit_stream ops frames :
  Forall2 framed (pushes ops) frames ->
  exists x u rests, link_init xmit_new = Val x /\
    xmit_run ops (x, MkUart 0 [] false) = Val u /\ xmit_rel link_needs (fst u) rests /\
    uart_sent (snd u) ++ concat rests = concat (wire_of link_needs <$> frames) /\
    (forall b, exists x', push b (fst u) (snd u) = Val (x', snd u)) /\
    (forall room, rests <> [] -> (0 < room)%nat ->
      exists x' u', xmit_do (XInterrupt room) u = Val (x', u') /\
        (length (uart_sent (snd u)) < length (uart_sent u'))%nat).
Proof.
  intros Hf. eexists. destruct (xmit_run_refines link_needs ltac:(done) ops
    (MkXmitChannel [] false link_needs) (MkUart 0 [] false) [] frames) as (x & u & rests & Hr & Hx & He).
  { by split; [|apply Forall2_nil_2]. } { done. }
  exists (x, u), rests. split; [by rewrite link_init_new|]. split; [done|]. cbn [fst snd].
  split; [done|]. split; [done|]. split.
  - intros b. eexists. apply push_queues.
  - intros room Hne Hroom. cbn [xmit_do fst snd].
    pose proof (dump_refines link_needs ltac:(done) x (MkUart room (uart_sent u) (uart_etbei u)) rests Hx) as Hd.
    cbn [uart_room uart_sent] in Hd. destruct rests as [|r rs]; [done|]. cbn [rest_step] in Hd.
    destruct Hd as (x' & room' & e' & -> & _). eexists _, _. split; [done|]. cbn [uart_sent].
    rewrite length_app, length_take. destruct Hx as [_ Hq].
    apply Forall2_cons_inv_r in Hq as (t & ts & (s & c & _ & _ & Ha & ->) & _ & _).
    pose proof (rest_of_pos _ _ _ _ _ Ha). lia.
Qed.

Lemma xmit_stream_witness :
  exists b, build_frame PROTO_IP [[0x7e; 0x45]] = Val b /\
  exists x u rests, link_init xmit_new = Val x /\
    xmit_run [XPush b; XInterrupt 4; XInterrupt 2] (x, MkUart 0 [] false) = Val u /\
    xmit_rel link_needs (fst u) rests /\
    uart_sent (snd u) ++ concat rests = concat (wire_of link_needs <$> [ppp_frame PROTO_IP [0x7e; 0x45]]) /\
    (forall b, exists x', push b (fst u) (snd u) = Val (x', snd u)) /\
    (forall room, rests <> [] -> (0 < room)%nat ->
      exists x' u', xmit_do (XInterrupt room) u = Val (x', u') /\
        (length (uart_sent (snd u)) < length (uart_sent u'))%nat).
Proof.
  eexists. split; [reflexivity|].
  apply (xmit_stream [XPush _; XInterrupt 4; XInterrupt 2] [ppp_frame PROTO_IP [0x7e; 0x45]]).
  apply Forall2_cons_2; [|by apply Forall2_nil_2].
  split; [repeat split; vm_compute; reflexivity|split; [decide_now|discriminate]].
Defined.
