(* ===== verification/PppRecv.v ===== *)
(** The receive channel of [device/antimony/src/net/phy.rs]: a ring of 128
    buffers that the UART interrupt fills and the main loop of
    [device/antimony/src/net.rs] empties.

    A drain is given the bytes that the receive FIFO holds until it is empty. *)
From Stdlib Require Import ZifyNat.
From S2P Require Import Prelude Words Hdlc.

#[local] Ltac Zify.zify_post_hook ::= Z.to_euclidean_division_equations.

Module PppRecv.

Definition CHANNEL_MAX_FRAMES : nat := 128.

Record RecvChannel : Type := MkRecvChannel {
  rc_write_head : nat;
  rc_finished_head : nat;
  rc_read_head : nat;
  rc_free_buffers : nat;
  rc_in_packet : bool;
  rc_last_esc : bool;
  rc_buffers : list Buffer;
}.
Definition recv_new : RecvChannel :=
  MkRecvChannel 0 0 0 CHANNEL_MAX_FRAMES false false (replicate CHANNEL_MAX_FRAMES buffer_new).

Definition free_buffer (ch : RecvChannel) : RecvChannel :=
  MkRecvChannel (rc_write_head ch) (rc_finished_head ch) ((rc_read_head ch + 1) mod CHANNEL_MAX_FRAMES)
    (rc_free_buffers ch + 1) (rc_in_packet ch) (rc_last_esc ch) (rc_buffers ch).

Definition try_alloc_buffer (ch : RecvChannel) : option (nat * RecvChannel) :=
  let free_buffers := rc_free_buffers ch in
  if bool_decide (free_buffers = 0%nat) then None
  else
    let buf := rc_write_head ch in
    Some (buf, MkRecvChannel ((buf + 1) mod CHANNEL_MAX_FRAMES) (rc_finished_head ch) (rc_read_head ch)
      (free_buffers - 1) (rc_in_packet ch) (rc_last_esc ch) (rc_buffers ch)).

Definition read_head_buf (ch : RecvChannel) : run (option Buffer) :=
  if bool_decide (rc_free_buffers ch = CHANNEL_MAX_FRAMES) || bool_decide (rc_read_head ch = rc_finished_head ch)
  then Val None
  else b ← slice_get (rc_buffers ch) (rc_read_head ch); Val (Some b).

(** [channel.buffers[i].len = n] and [channel.buffers[i].bytes[j] = x] *)
Definition update_buffer (i : nat) (f : Buffer -> run Buffer) (ch : RecvChannel) : run RecvChannel :=
  b ← slice_get (rc_buffers ch) i;
  b ← f b;
  bs ← slice_set (rc_buffers ch) i b;
  Val (MkRecvChannel (rc_write_head ch) (rc_finished_head ch) (rc_read_head ch) (rc_free_buffers ch)
    (rc_in_packet ch) (rc_last_esc ch) bs).
Definition set_len (n : nat) (b : Buffer) : run Buffer := Val (MkBuffer n (buf_bytes b)).
Definition set_byte (j : nat) (x : Z) (b : Buffer) : run Buffer :=
  bs ← slice_set (buf_bytes b) j x; Val (MkBuffer (buf_len b) bs).

(** The channel and the local variables of the loop. *)
Record rx_locals : Type := MkRx {
  rx_ch : RecvChannel;
  rx_in_packet : bool;
  rx_denied : bool;
  rx_buf : nat;
  rx_last_esc : bool;
  rx_bi : nat;
}.

Definition finish_frame (ch : RecvChannel) : RecvChannel :=
  MkRecvChannel (rc_write_head ch) ((rc_finished_head ch + 1) mod CHANNEL_MAX_FRAMES) (rc_read_head ch)
    (rc_free_buffers ch) (rc_in_packet ch) (rc_last_esc ch) (rc_buffers ch).

(** A flag. *)
Definition drain_flag (d : rx_locals) (byte : Z) : run rx_locals :=
  let did_finish_frame := rx_in_packet d && bool_decide (1 < rx_bi d)%nat in
  ch ← (if did_finish_frame then update_buffer (rx_buf d) (set_len (rx_bi d)) (rx_ch d) else Val (rx_ch d));
  let bi := if did_finish_frame then 0%nat else rx_bi d in
  if bool_decide (bi = 1%nat)
  then Val (MkRx ch (rx_in_packet d) (rx_denied d) (rx_buf d) (rx_last_esc d) bi)
  else
    let ch := if rx_in_packet d && did_finish_frame then finish_frame ch else ch in
    match try_alloc_buffer ch with
    | None => Val (MkRx ch (rx_in_packet d) true (rx_buf d) (rx_last_esc d) bi)
    | Some (a_buf, ch) =>
      ch ← update_buffer a_buf (set_byte 0 byte) ch;
      ch ← update_buffer a_buf (set_len 1) ch;
      Val (MkRx ch true (rx_denied d) a_buf false 1)
    end.

(** A byte of a packet. *)
Definition drain_store (d : rx_locals) (byte : Z) : run rx_locals :=
  ch ← update_buffer (rx_buf d) (set_byte (rx_bi d) byte) (rx_ch d);
  Val (MkRx ch (rx_in_packet d) (rx_denied d) (rx_buf d) false (rx_bi d + 1)).

Definition drain_byte (d : rx_locals) (byte : Z) : run rx_locals :=
  if rx_denied d then Val d
  else if byte =? HDLC_FLAG then drain_flag d byte
  else if rx_in_packet d then
    if rx_last_esc d then drain_store d (Z.lxor byte HDLC_ESC_XOR)
    else if byte =? HDLC_ESC
    then Val (MkRx (rx_ch d) (rx_in_packet d) (rx_denied d) (rx_buf d) true (rx_bi d))
    else drain_store d byte
  else Val d.

Fixpoint drain_loop (d : rx_locals) (input : list Z) : run rx_locals :=
  match input with
  | [] => Val d
  | byte :: input => d ← drain_byte d byte; drain_loop d input
  end.

(** What is written back when the receive FIFO is empty. *)
Definition drain_end (d : rx_locals) : run RecvChannel :=
  let ch := rx_ch d in
  let ch := MkRecvChannel (rc_write_head ch) (rc_finished_head ch) (rc_read_head ch) (rc_free_buffers ch)
    (rx_in_packet d) (rc_last_esc ch) (rc_buffers ch) in
  if rx_in_packet d then update_buffer (rx_buf d) (set_len (rx_bi d)) ch else Val ch.

Definition drain_uart_buffer (ch : RecvChannel) (input : list Z) : run RecvChannel :=
  let in_packet := rc_in_packet ch in
  let buf := ((CHANNEL_MAX_FRAMES + rc_write_head ch - 1) mod CHANNEL_MAX_FRAMES)%nat in
  bi ← (if in_packet then b ← slice_get (rc_buffers ch) buf; Val (buf_len b) else Val 0%nat);
  d ← drain_loop (MkRx ch in_packet false buf (rc_last_esc ch) bi) input;
  drain_end d.

(** One turn of the main loop: the head frame, which is then discarded. *)
Definition read_frame (ch : RecvChannel) : run (option (list Z) * RecvChannel) :=
  b ← read_head_buf ch;
  match b with
  | None => Val (None, ch)
  | Some b => hdlc_frame ← slice_range (buf_bytes b) 0 (buf_len b); Val (Some hdlc_frame, free_buffer ch)
  end.
End PppRecv.
Export PppRecv.

(** ** The abstract receiver *)

(** The finished frames, the frame that is being received, and whether its last
    byte was an escape. *)
Record rx_abs : Type := MkRxAbs {
  finished : list (list Z);
  current : option (list Z);
  escaped : bool;
}.
Definition abs_store (a : rx_abs) (s : list Z) (x : Z) : option rx_abs :=
  if bool_decide (length s < MAX_FRAME)%nat then Some (MkRxAbs (finished a) (Some (s ++ [x])) false) else None.
Definition abs_flag (a : rx_abs) : option rx_abs :=
  match current a with
  | None => Some (MkRxAbs (finished a) (Some [HDLC_FLAG]) false)
  | Some s =>
    if bool_decide (length s = 1%nat) then Some a
    else if bool_decide (length (finished a) + 1 < CHANNEL_MAX_FRAMES)%nat
    then Some (MkRxAbs (finished a ++ [s]) (Some [HDLC_FLAG]) false) else None
  end.
Definition abs_byte (a : rx_abs) (byte : Z) : option rx_abs :=
  if byte =? HDLC_FLAG then abs_flag a
  else match current a with
  | None => Some a
  | Some s =>
    if escaped a then abs_store a s (Z.lxor byte HDLC_ESC_XOR)
    else if byte =? HDLC_ESC then Some (MkRxAbs (finished a) (Some s) true)
    else abs_store a s byte
  end.
Fixpoint abs_bytes (a : rx_abs) (input : list Z) : option rx_abs :=
  match input with [] => Some a | b :: input => a ← abs_byte a b; abs_bytes a input end.

(** ** The ring *)

Section ring.
Implicit Types (ch : RecvChannel) (q : list (list Z)) (s : list Z) (b : Buffer).

Definition slot ch (k : nat) : nat := ((rc_read_head ch + k) mod CHANNEL_MAX_FRAMES)%nat.

(** [q] lies in the ring from the read head on, and [used] more buffers behind
    it are taken. *)
Record ring q (used : nat) ch : Prop := {
  ring_length : length (rc_buffers ch) = CHANNEL_MAX_FRAMES;
  ring_bytes : Forall (fun b => length (buf_bytes b) = MAX_FRAME) (rc_buffers ch);
  ring_read : (rc_read_head ch < CHANNEL_MAX_FRAMES)%nat;
  ring_used : (used <= 1)%nat;
  ring_room : (length q < CHANNEL_MAX_FRAMES)%nat;
  ring_finished : rc_finished_head ch = slot ch (length q);
  ring_write : rc_write_head ch = slot ch (length q + used);
  ring_free : (rc_free_buffers ch + length q + used = CHANNEL_MAX_FRAMES)%nat;
  ring_esc : rc_last_esc ch = false;
  ring_frames : forall k s, q !! k = Some s -> exists b, rc_buffers ch !! slot ch k = Some b /\ carries b s;
}.

Definition set_buffers ch (bs : list Buffer) : RecvChannel :=
  MkRecvChannel (rc_write_head ch) (rc_finished_head ch) (rc_read_head ch) (rc_free_buffers ch)
    (rc_in_packet ch) (rc_last_esc ch) bs.

(** The bytes of a buffer begin with [s]. *)
Definition fills b s : Prop := length (buf_bytes b) = MAX_FRAME /\ take (length s) (buf_bytes b) = s.

Lemma carries_fills b s : carries b s <-> buf_len b = length s /\ fills b s.
Proof. unfold carries, fills. tauto. Qed.

Lemma fills_length b s : fills b s -> (length s <= MAX_FRAME)%nat.
Proof. intros [Hm Hs]. rewrite <- Hs, length_take. lia. Qed.

Lemma carries_length b s : carries b s -> (length s <= MAX_FRAME)%nat.
Proof. intros [_ Hf]%carries_fills. by apply (fills_length b). Qed.

Lemma set_byte_fills b s x :
  fills b s -> (length s < MAX_FRAME)%nat -> exists b', set_byte (length s) x b = Val b' /\ fills b' (s ++ [x]).
Proof.
  intros [Hm Hs] Hl. unfold set_byte.
  destruct (slice_set_end (buf_bytes b) (length s) x ltac:(lia)) as (l' & -> & Hl' & Ht).
  rewrite run_bind_Val. eexists. split; [done|]. split; cbn [buf_bytes]; [lia|].
  rewrite length_app. cbn [length]. by rewrite Ht, Hs.
Qed.
Lemma set_byte_overrun b s x :
  fills b s -> (MAX_FRAME <= length s)%nat -> set_byte (length s) x b = Panic.
Proof. intros [Hm Hs] Hl. unfold set_byte. by rewrite slice_set_Panic by lia. Qed.

Lemma slot_lt ch k : (slot ch k < CHANNEL_MAX_FRAMES)%nat.
Proof. unfold slot. by apply Nat.mod_upper_bound. Qed.
Lemma slot_inj ch j k :
  (j < CHANNEL_MAX_FRAMES)%nat -> (k < CHANNEL_MAX_FRAMES)%nat -> slot ch j = slot ch k -> j = k.
Proof. unfold slot, CHANNEL_MAX_FRAMES. intros Hj Hk. lia. Qed.
Lemma slot_succ ch k : ((slot ch k + 1) mod CHANNEL_MAX_FRAMES)%nat = slot ch (k + 1).
Proof. unfold slot, CHANNEL_MAX_FRAMES. lia. Qed.

Lemma update_at ch i b b' f :
  rc_buffers ch !! i = Some b -> f b = Val b' ->
  update_buffer i f ch = Val (set_buffers ch (<[i := b']> (rc_buffers ch))).
Proof.
  intros Hb Hf. pose proof (lookup_lt_Some _ _ _ Hb) as Hlt. unfold update_buffer.
  by rewrite (slice_get_Val _ _ _ Hb), run_bind_Val, Hf, run_bind_Val, slice_set_Val.
Qed.

(** A buffer outside the queue can be changed. *)
Lemma update_buffer_ring q used ch i b b' f :
  ring q used ch -> rc_buffers ch !! i = Some b -> f b = Val b' -> length (buf_bytes b') = MAX_FRAME ->
  (forall k, (k < length q)%nat -> slot ch k <> i) ->
  update_buffer i f ch = Val (set_buffers ch (<[i := b']> (rc_buffers ch))) /\
  ring q used (set_buffers ch (<[i := b']> (rc_buffers ch))).
Proof.
  intros Hr Hb Hf Hm Hi. pose proof (lookup_lt_Some _ _ _ Hb) as Hlt. split.
  - by apply (update_at _ _ b).
  - destruct Hr. split; cbn [set_buffers rc_buffers rc_read_head rc_finished_head rc_write_head rc_free_buffers];
      try done.
    + by rewrite length_insert.
    + by apply Forall_insert.
    + intros k s Hk. destruct (ring_frames0 k s Hk) as (b0 & Hb0 & Hh). exists b0. split; [|done].
      rewrite list_lookup_insert_ne; [done|]. intros Hik.
      apply (Hi k); [by apply lookup_lt_Some in Hk|done].
Qed.

Lemma ring_slot q used ch k :
  ring q used ch -> exists b, rc_buffers ch !! slot ch k = Some b /\ length (buf_bytes b) = MAX_FRAME.
Proof.
  intros Hr. destruct (lookup_lt_is_Some_2 (rc_buffers ch) (slot ch k)) as [b Hb].
  { rewrite (ring_length _ _ _ Hr). apply slot_lt. }
  exists b. split; [done|]. apply (proj1 (Forall_lookup _ _) (ring_bytes _ _ _ Hr) _ _ Hb).
Qed.

Lemma alloc_ring q ch :
  ring q 0 ch -> exists ch', try_alloc_buffer ch = Some (slot ch (length q), ch') /\
    ring q 1 ch' /\ slot ch' = slot ch /\ rc_buffers ch' = rc_buffers ch.
Proof.
  intros Hr. pose proof Hr as []. unfold try_alloc_buffer. rewrite bool_decide_false by lia.
  rewrite ring_write0, Nat.add_0_r. eexists. split; [done|]. split; [|done].
  split; cbn [rc_buffers rc_read_head rc_finished_head rc_write_head rc_free_buffers]; try done; try lia.
  - exact (slot_succ ch (length q)).
Qed.

Lemma finish_ring q s ch b :
  ring q 1 ch -> rc_buffers ch !! slot ch (length q) = Some b -> carries b s ->
  (length q + 1 < CHANNEL_MAX_FRAMES)%nat -> ring (q ++ [s]) 0 (finish_frame ch).
Proof.
  intros Hr Hb Hh Hl. pose proof Hr as [].
  split; cbn [finish_frame rc_buffers rc_read_head rc_finished_head rc_write_head rc_free_buffers]; try done; try lia.
  - rewrite length_app. cbn [length]. lia.
  - rewrite ring_finished0, slot_succ, length_app. done.
  - rewrite ring_write0, length_app. cbn [length]. by rewrite Nat.add_0_r.
  - rewrite length_app. cbn [length]. lia.
  - intros k s' Hk. destruct (decide (k < length q)%nat) as [Hlt|Hge].
    + rewrite lookup_app_l in Hk by done. by apply ring_frames0.
    + rewrite lookup_app_r in Hk by lia.
      apply list_lookup_singleton_Some in Hk as [Hk <-]. exists b. split; [|done].
      by replace k with (length q) by lia.
Qed.

Lemma free_ring s q used ch : ring (s :: q) used ch -> ring q used (free_buffer ch).
Proof.
  intros []. assert (forall k, slot (free_buffer ch) k = slot ch (S k)) as Hsl.
  { intros k. unfold slot, free_buffer, CHANNEL_MAX_FRAMES. cbn [rc_read_head]. lia. }
  cbn [length] in *.
  split; cbn [free_buffer rc_buffers rc_read_head rc_finished_head rc_write_head rc_free_buffers]; try done; try lia.
  - by rewrite ring_finished0, Hsl.
  - rewrite ring_write0, Hsl. f_equal. 
  - intros k s' Hk. rewrite Hsl. by apply ring_frames0.
Qed.
End ring.

(** ** Refinement *)

Section refinement.
Implicit Types (ch : RecvChannel) (d : rx_locals) (a : rx_abs) (s : list Z).

Definition taken a : nat := match current a with Some _ => 1%nat | None => 0%nat end.

(** The local variables, while the abstract receiver is in state [a]. *)
Definition rx_rel a d : Prop :=
  ring (finished a) (taken a) (rx_ch d) /\ rx_denied d = false /\ rx_last_esc d = escaped a /\
  match current a with
  | None => rx_in_packet d = false /\ rx_bi d = 0%nat
  | Some s => rx_in_packet d = true /\ rx_bi d = length s /\ (0 < length s)%nat /\
      rx_buf d = slot (rx_ch d) (length (finished a)) /\
      exists b, rc_buffers (rx_ch d) !! rx_buf d = Some b /\ fills b s
  end.

(** The channel between two drains: a pending escape is not kept. *)
Definition channel_rel a ch : Prop :=
  ring (finished a) (taken a) ch /\
  match current a with
  | None => rc_in_packet ch = false
  | Some s => rc_in_packet ch = true /\ (0 < length s)%nat /\
      exists b, rc_buffers ch !! slot ch (length (finished a)) = Some b /\ carries b s
  end.

(** The buffer behind the queue is changed. *)
Lemma update_current q used ch b b' f :
  ring q used ch -> rc_buffers ch !! slot ch (length q) = Some b -> f b = Val b' ->
  length (buf_bytes b') = MAX_FRAME ->
  let ch' := set_buffers ch (<[slot ch (length q) := b']> (rc_buffers ch)) in
  update_buffer (slot ch (length q)) f ch = Val ch' /\ ring q used ch' /\
  rc_buffers ch' !! slot ch' (length q) = Some b'.
Proof.
  intros Hr Hb Hf Hm. destruct (update_buffer_ring q used ch _ b b' f Hr Hb Hf Hm) as [Hu Hr'].
  { intros k Hk He. apply slot_inj in He; [lia| |]; pose proof (ring_room _ _ _ Hr); lia. }
  split_and!; [done|done|]. apply list_lookup_insert_eq. by apply lookup_lt_Some in Hb.
Qed.

(** A new buffer is opened with its flag. *)
Lemma open_frame q ch (in_packet denied : bool) buf bi :
  ring q 0 ch -> exists d',
    match try_alloc_buffer ch with
    | None => Val (MkRx ch in_packet true buf false bi)
    | Some (a_buf, ch) =>
      ch ← update_buffer a_buf (set_byte 0 HDLC_FLAG) ch;
      ch ← update_buffer a_buf (set_len 1) ch;
      Val (MkRx ch true denied a_buf false 1)
    end = Val d' /\ (denied = false -> rx_rel (MkRxAbs q (Some [HDLC_FLAG]) false) d').
Proof.
  intros Hr. destruct (alloc_ring q ch Hr) as (ch1 & -> & Hr1 & Hs1 & Hb1). rewrite <- Hs1.
  destruct (ring_slot q 1 ch1 (length q) Hr1) as (b & Hb & Hm).
  destruct (set_byte_fills b [] HDLC_FLAG) as (b1 & Hsb & Hf1); [by split|cbn [length]; rewrite max_frame; lia|].
  destruct (update_current q 1 ch1 b b1 (set_byte 0 HDLC_FLAG) Hr1 Hb Hsb (proj1 Hf1)) as (-> & Hr2 & Hb2).
  rewrite run_bind_Val. set (ch2 := set_buffers ch1 _) in *.
  destruct (update_current q 1 ch2 b1 (MkBuffer 1 (buf_bytes b1)) (set_len 1) Hr2 Hb2 eq_refl (proj1 Hf1))
    as (Hu & Hr3 & Hb3).
  change (slot ch1 (length q)) with (slot ch2 (length q)). rewrite Hu, run_bind_Val.
  eexists. split; [done|]. intros ->. unfold rx_rel.
  cbn [current finished escaped taken rx_ch rx_denied rx_last_esc rx_in_packet rx_bi rx_buf length].
  split_and!; [done|done|done|done|done|lia|done|]. eexists. split; [exact Hb3|]. exact Hf1.
Qed.

Lemma flag_refines a d a' :
  rx_rel a d -> abs_flag a = Some a' -> exists d', drain_flag d HDLC_FLAG = Val d' /\ rx_rel a' d'.
Proof.
  intros (Hr & Hd & He & Hc) Ha. destruct d as [ch ip dn buf le bi], a as [q cur esc].
  cbn [rx_ch rx_denied rx_last_esc rx_in_packet rx_bi rx_buf finished current escaped] in *. subst dn le.
  unfold abs_flag in Ha. unfold drain_flag.
  cbn [rx_ch rx_denied rx_last_esc rx_in_packet rx_bi rx_buf finished current escaped] in *.
  unfold taken in Hr. destruct cur as [s|]; cbn [current] in Hr.
  - destruct Hc as (-> & -> & Hl & -> & b & Hb & Hf). cbn [andb]. case_bool_decide as H1.
    + injection Ha as <-. rewrite (bool_decide_false (1 < length s)%nat), run_bind_Val, bool_decide_true by lia.
      eexists. split; [done|].
      unfold rx_rel. cbn [finished taken current escaped]. split_and!; try done. by exists b.
    + rewrite (bool_decide_true (1 < length s)%nat) by lia. case_bool_decide as H2; [|done]. injection Ha as <-.
      destruct (update_current q 1 ch b (MkBuffer (length s) (buf_bytes b)) (set_len (length s)) Hr Hb eq_refl
        (proj1 Hf)) as (-> & Hr1 & Hb1). rewrite run_bind_Val. cbn [andb].
      rewrite bool_decide_false by done.
      assert (ring (q ++ [s]) 0 (finish_frame (set_buffers ch
        (<[slot ch (length q) := MkBuffer (length s) (buf_bytes b)]> (rc_buffers ch))))) as Hr2.
      { apply (finish_ring _ _ _ (MkBuffer (length s) (buf_bytes b))); [done|done| |done]. by apply carries_fills. }
      destruct (open_frame _ _ true false (slot ch (length q)) 0 Hr2) as (d' & Hd' & Hrel).
      exists d'. split; [|by apply Hrel]. rewrite <- Hd'.
      destruct (alloc_ring _ _ Hr2) as (ch3 & -> & _). done.
  - destruct Hc as [-> ->]. injection Ha as <-. cbn [andb].
    rewrite run_bind_Val, bool_decide_false by done.
    destruct (open_frame q ch false false buf 0 Hr) as (d' & Hd' & Hrel).
    exists d'. split; [|by apply Hrel]. rewrite <- Hd'.
    destruct (alloc_ring _ _ Hr) as (ch3 & -> & _). done.
Qed.

Lemma store_refines q s x esc d :
  rx_rel (MkRxAbs q (Some s) esc) d ->
  if decide (length s < MAX_FRAME)%nat
  then exists d', drain_store d x = Val d' /\ rx_rel (MkRxAbs q (Some (s ++ [x])) false) d'
  else drain_store d x = Panic.
Proof.
  intros (Hr & Hd & He & Hip & Hbi & Hl & Hbuf & b & Hb & Hf). cbn [finished taken current] in *.
  unfold drain_store. rewrite Hbi, Hbuf in *. case_decide as Hm.
  - destruct (set_byte_fills b s x Hf Hm) as (b' & Hsb & Hf').
    destruct (update_current q 1 (rx_ch d) b b' _ Hr Hb Hsb (proj1 Hf')) as (-> & Hr' & Hb').
    rewrite run_bind_Val. eexists. split; [done|]. unfold rx_rel.
    cbn [finished taken current escaped rx_ch rx_denied rx_last_esc rx_in_packet rx_bi rx_buf].
    rewrite length_app. cbn [length]. split_and!; [done|done|done|done|done|lia|done|]. by exists b'.
  - unfold update_buffer. rewrite (slice_get_Val _ _ _ Hb), run_bind_Val, set_byte_overrun by (done || lia). done.
Qed.

Lemma byte_refines a d x a' :
  rx_rel a d -> abs_byte a x = Some a' -> exists d', drain_byte d x = Val d' /\ rx_rel a' d'.
Proof.
  intros Hr Ha. pose proof Hr as (Hring & Hd & He & Hc). unfold abs_byte in Ha. unfold drain_byte. rewrite Hd.
  destruct (Z.eqb_spec x HDLC_FLAG) as [->|Hx]; [by apply (flag_refines a)|].
  destruct a as [q [s|] esc]; cbn [current escaped finished] in *.
  - destruct Hc as (-> & _). rewrite He. unfold abs_store in Ha. cbn [finished] in Ha.
    pose proof (store_refines q s (Z.lxor x HDLC_ESC_XOR) esc d Hr) as Hs1.
    pose proof (store_refines q s x esc d Hr) as Hs2.
    destruct esc; [|destruct (x =? HDLC_ESC)];
      try (case_bool_decide; [|done]; injection Ha as <-; rewrite decide_True in Hs1, Hs2 by done; done).
    injection Ha as <-. eexists. split; [done|]. unfold rx_rel in *.
    cbn [finished taken current escaped rx_ch rx_denied rx_last_esc rx_in_packet rx_bi rx_buf] in *.
    destruct Hr as (? & ? & ? & ? & ? & ? & ? & ?). by split_and!.
  - destruct Hc as (-> & _). injection Ha as <-. by exists d.
Qed.

Lemma loop_refines input a d a' :
  rx_rel a d -> abs_bytes a input = Some a' -> exists d', drain_loop d input = Val d' /\ rx_rel a' d'.
Proof.
  revert a d. induction input as [|x input IH]; intros a d Hr Ha.
  - injection Ha as <-. by exists d.
  - cbn [abs_bytes] in Ha. apply bind_Some in Ha as (a1 & Ha1 & Ha).
    destruct (byte_refines a d x a1 Hr Ha1) as (d1 & Hd1 & Hr1). cbn [drain_loop]. rewrite Hd1, run_bind_Val.
    by apply (IH a1).
Qed.

Lemma ring_in_packet q used ch (ip : bool) :
  ring q used ch ->
  ring q used (MkRecvChannel (rc_write_head ch) (rc_finished_head ch) (rc_read_head ch) (rc_free_buffers ch)
    ip (rc_last_esc ch) (rc_buffers ch)).
Proof. by intros []. Qed.

Lemma drain_enter a ch input :
  channel_rel a ch -> escaped a = false ->
  exists d, rx_rel a d /\ rx_ch d = ch /\
    drain_uart_buffer ch input = (d ← drain_loop d input; drain_end d).
Proof.
  intros (Hr & Hc) Hesc. unfold drain_uart_buffer. rewrite (ring_esc _ _ _ Hr).
  set (buf := ((CHANNEL_MAX_FRAMES + rc_write_head ch - 1) mod CHANNEL_MAX_FRAMES)%nat).
  assert (exists bi, (if rc_in_packet ch then b ← slice_get (rc_buffers ch) buf; Val (buf_len b) else Val 0%nat) = Val bi /\
    rx_rel a (MkRx ch (rc_in_packet ch) false buf false bi)) as (bi & -> & Hrel).
  { unfold rx_rel. cbn [rx_ch rx_denied rx_last_esc rx_in_packet rx_bi rx_buf]. rewrite Hesc.
    unfold taken in *. destruct (current a) as [s|].
    - destruct Hc as (-> & Hl & b & Hb & Hh). assert (buf = slot ch (length (finished a))) as ->.
      { unfold buf. rewrite (ring_write _ _ _ Hr). unfold slot, CHANNEL_MAX_FRAMES. lia. }
      rewrite (slice_get_Val _ _ _ Hb), run_bind_Val. apply carries_fills in Hh as [-> Hf].
      eexists. split; [done|]. split_and!; [done..|]. by exists b.
    - rewrite Hc. eexists. by split_and!. }
  rewrite run_bind_Val. by eexists.
Qed.

Lemma drain_end_refines a d :
  rx_rel a d -> exists ch, drain_end d = Val ch /\ channel_rel (MkRxAbs (finished a) (current a) false) ch.
Proof.
  intros (Hr & _ & _ & Hc). unfold drain_end, channel_rel, taken in *. cbn [finished current].
  apply (ring_in_packet _ _ _ (rx_in_packet d)) in Hr.
  destruct (current a) as [s|]; [|destruct Hc as [Hip _]; rewrite Hip in *; eexists; split; [done|]; by split].
  destruct Hc as (Hip & -> & Hl & -> & b & Hb & Hf). rewrite Hip in *.
  destruct (update_current _ _ _ b (MkBuffer (length s) (buf_bytes b)) (set_len (length s)) Hr Hb eq_refl
    (proj1 Hf)) as (Hu & Hr2 & Hb2).
  eexists. split; [exact Hu|]. split_and!; [done|done|done|]. eexists. split; [done|]. by apply carries_fills.
Qed.

(** A drain, from a channel without a pending escape. *)
Lemma drain_refines input a ch a' :
  channel_rel a ch -> escaped a = false -> abs_bytes a input = Some a' ->
  exists ch', drain_uart_buffer ch input = Val ch' /\ channel_rel (MkRxAbs (finished a') (current a') false) ch'.
Proof.
  intros Hr He Ha. destruct (drain_enter a ch input Hr He) as (d & Hd & _ & ->).
  destruct (loop_refines input a d a' Hd Ha) as (d' & -> & Hd'). by apply drain_end_refines.
Qed.

Lemma drain_loop_app d s t : drain_loop d (s ++ t) = (d ← drain_loop d s; drain_loop d t).
Proof.
  revert d. induction s as [|x s IH]; intros d; [done|]. cbn [app drain_loop].
  destruct (drain_byte d x); [apply IH|done].
Qed.

(** Bytes that are stored as they are. *)
Definition plain (x : Z) : Prop := x <> HDLC_FLAG /\ x <> HDLC_ESC.
Lemma plain_bytes data q s :
  Forall plain data -> (length s + length data <= MAX_FRAME)%nat ->
  abs_bytes (MkRxAbs q (Some s) false) data = Some (MkRxAbs q (Some (s ++ data)) false).
Proof.
  intros Hp. revert s. induction Hp as [|x data [H1 H2] Hp IH]; intros s Hl; [by rewrite app_nil_r|].
  cbn [abs_bytes length] in *. unfold abs_byte.
  rewrite (proj2 (Z.eqb_neq _ _) H1), (proj2 (Z.eqb_neq _ _) H2). cbn [current escaped]. unfold abs_store.
  rewrite bool_decide_true by lia. cbn [mbind option_bind finished]. rewrite IH, <- app_assoc; [done|].
  rewrite length_app. cbn [length]. lia.
Qed.
End refinement.

(** ** Histories *)

(** The interrupt drains the receive FIFO, the main loop takes a frame. *)
Inductive recv_op : Type :=
  | RDrain (input : list Z)
  | RRead.
Definition recv_do (op : recv_op) (ch : RecvChannel) : run (option (list Z) * RecvChannel) :=
  match op with
  | RDrain input => ch ← drain_uart_buffer ch input; Val (None, ch)
  | RRead => read_frame ch
  end.
Fixpoint recv_run (ops : list recv_op) (ch : RecvChannel) : run (list (list Z) * RecvChannel) :=
  match ops with
  | [] => Val ([], ch)
  | op :: ops =>
    '(o, ch) ← recv_do op ch;
    '(os, ch) ← recv_run ops ch;
    Val (option_list o ++ os, ch)
  end.

Definition abs_new : rx_abs := MkRxAbs [] None false.
Definition abs_do (op : recv_op) (a : rx_abs) : option (option (list Z) * rx_abs) :=
  match op with
  | RDrain input => a ← abs_bytes a input; Some (None, MkRxAbs (finished a) (current a) false)
  | RRead =>
    match finished a with
    | [] => Some (None, a)
    | s :: q => Some (Some s, MkRxAbs q (current a) false)
    end
  end.
Fixpoint abs_run (ops : list recv_op) (a : rx_abs) : option (list (list Z) * rx_abs) :=
  match ops with
  | [] => Some ([], a)
  | op :: ops => '(o, a) ← abs_do op a; '(os, a) ← abs_run ops a; Some (option_list o ++ os, a)
  end.

Section history.
Implicit Types (ch : RecvChannel) (a : rx_abs).

Lemma recv_new_rel : channel_rel abs_new recv_new.
Proof.
  unfold recv_new, channel_rel, taken, abs_new. cbn [current finished].
  split; [|done]. split; cbn [rc_buffers rc_read_head rc_finished_head rc_write_head rc_free_buffers length]; try done.
  - apply Forall_replicate. unfold buffer_new. cbn [buf_bytes]. apply length_replicate.
  - unfold CHANNEL_MAX_FRAMES. lia.
  - lia.
  - unfold CHANNEL_MAX_FRAMES. lia.
Qed.

Lemma read_refines a ch :
  channel_rel a ch -> escaped a = false ->
  exists o ch' a', abs_do RRead a = Some (o, a') /\ read_frame ch = Val (o, ch') /\
    channel_rel a' ch' /\ escaped a' = false.
Proof.
  intros [Hr Hc] He. destruct a as [q cur esc]. cbn [abs_do finished current escaped] in *. unfold taken in *.
  cbn [current] in *. unfold read_frame, read_head_buf.
  rewrite (ring_finished _ _ _ Hr).
  assert (rc_read_head ch = slot ch 0) as Hrd
    by (pose proof (ring_read _ _ _ Hr); unfold slot, CHANNEL_MAX_FRAMES in *; lia).
  destruct q as [|s q].
  - rewrite (bool_decide_true (rc_read_head ch = slot ch (length []))), orb_true_r by done.
    eexists _, _, _. split; [done|]. split; [done|]. done.
  - pose proof (ring_free _ _ _ Hr) as Hfree. pose proof (ring_room _ _ _ Hr) as Hroom. cbn [length] in Hfree, Hroom.
    rewrite !bool_decide_false; [|rewrite Hrd; intros Hs; apply slot_inj in Hs; cbn [length] in *; lia|lia].
    cbn [orb]. destruct (ring_frames _ _ _ Hr 0%nat s eq_refl) as (b & Hb & Hm & Hl & Ht).
    rewrite <- Hrd in Hb. rewrite (slice_get_Val _ _ _ Hb), !run_bind_Val, Hl.
    rewrite slice_range_Val, run_bind_Val, drop_0, Nat.sub_0_r, Ht
      by (rewrite Hm; split; [lia|by apply (carries_length b)]).
    eexists _, _, _. split; [done|]. split; [done|]. split; [|done]. split; [by apply (free_ring s)|].
    destruct cur as [c|]; [|done]. cbn [finished] in *. destruct Hc as (? & ? & b2 & Hb2 & Hh2). split_and!; [done|done|].
    exists b2. split; [|done]. cbn [free_buffer rc_buffers].
    rewrite <- Hb2. f_equal. unfold slot, CHANNEL_MAX_FRAMES. cbn [free_buffer rc_read_head length].
    unfold CHANNEL_MAX_FRAMES. lia.
Qed.

Lemma recv_run_refines ops a ch os a' :
  channel_rel a ch -> escaped a = false -> abs_run ops a = Some (os, a') ->
  exists ch', recv_run ops ch = Val (os, ch') /\ channel_rel a' ch'.
Proof.
  revert a ch os. induction ops as [|op ops IH]; intros a ch os Hr He Ha.
  - injection Ha as <- <-. by exists ch.
  - cbn [abs_run] in Ha. apply bind_Some in Ha as ([o a1] & Ho & Ha).
    apply bind_Some in Ha as ([os1 a2] & Ho1 & Ha). injection Ha as <- <-. cbn [recv_run].
    assert (exists ch1, recv_do op ch = Val (o, ch1) /\ channel_rel a1 ch1 /\ escaped a1 = false)
      as (ch1 & -> & Hr1 & He1).
    { destruct op as [input|]; cbn [recv_do].
      - cbn [abs_do] in Ho. apply bind_Some in Ho as (a3 & Ha3 & [= <- <-]).
        destruct (drain_refines input a ch a3 Hr He Ha3) as (ch1 & -> & Hr1). by exists ch1.
      - destruct (read_refines a ch Hr He) as (o' & ch1 & a3 & Ho' & -> & Hr1 & He1).
        rewrite Ho in Ho'. injection Ho' as <- <-. by exists ch1. }
    rewrite run_bind_Val. destruct (IH a1 ch1 os1 Hr1 He1 Ho1) as (ch2 & -> & Hr2).
    rewrite run_bind_Val. by exists ch2.
Qed.
End history.

(** A frame is finished while no buffer is free. *)
Lemma flag_denied q s d :
  rx_rel (MkRxAbs q (Some s) false) d -> (1 < length s)%nat -> (length q + 1 = CHANNEL_MAX_FRAMES)%nat ->
  exists ch1 b, drain_flag d HDLC_FLAG = Val (MkRx (finish_frame ch1) true true (rx_buf d) false 0) /\
    ring q 1 ch1 /\ slot ch1 = slot (rx_ch d) /\ rx_buf d = slot ch1 (length q) /\
    rc_buffers ch1 !! rx_buf d = Some b.
Proof.
  intros (Hring & Hdn & Hle & Hip & Hbi & _ & Hbuf & b & Hb & Hf) Hl Hn.
  destruct d as [ch ip dn buf le bi].
  cbn [finished current escaped taken rx_ch rx_denied rx_last_esc rx_in_packet rx_bi rx_buf] in *. subst.
  destruct (update_current q 1 ch b (MkBuffer (length s) (buf_bytes b)) (set_len (length s)) Hring Hb eq_refl
    (proj1 Hf)) as (Hu & Hr1 & Hb1).
  set (ch1 := set_buffers ch _) in *. exists ch1. eexists. split; [|by split_and!].
  unfold drain_flag. cbn [rx_ch rx_denied rx_last_esc rx_in_packet rx_bi rx_buf andb].
  rewrite (bool_decide_true (1 < length s)%nat), Hu, run_bind_Val, bool_decide_false by done.
  pose proof (ring_free _ _ _ Hr1) as Hfree. unfold try_alloc_buffer.
  rewrite bool_decide_true; [done|]. cbn [finish_frame rc_free_buffers]. lia.
Qed.

(** ** The claims *)

(** C25: as long as no more than 127 frames wait and no frame is longer than a
    buffer, the ring is a queue: the main loop takes the frames in the order in
    which they were finished, unescaped, whatever the drains they came in; only
    an escape at the end of a drain is forgotten. *)
Theorem recv_refines_queue ops frames a :
  abs_run ops abs_new = Some (frames, a) ->
  exists ch, recv_run ops recv_new = Val (frames, ch) /\ channel_rel a ch.
Proof. apply recv_run_refines; [apply recv_new_rel|done]. Qed.

Lemma recv_refines_queue_witness :
  exists ch, recv_run [RDrain [0x11; 0x7e; 0xff]; RDrain [0x7d; 0x5e; 3; 0x7e; 9]; RRead; RRead] recv_new =
    Val ([[0x7e; 0xff; 0x7e; 3]], ch) /\ channel_rel (MkRxAbs [] (Some [0x7e; 9]) false) ch.
Proof. apply recv_refines_queue. vm_compute. reflexivity. Defined.

(** An escape that ends a drain is lost: the byte that follows it in the next
    drain is stored as it is, and not exclusive-ored with 0x20 as it would be
    if both came in one drain. *)
Theorem split_escape_corrupts a ch s x :
  channel_rel a ch -> escaped a = false -> current a = Some s -> (length s < MAX_FRAME)%nat ->
  x <> HDLC_FLAG -> x <> HDLC_ESC ->
  exists ch1 ch2 ch', drain_uart_buffer ch [HDLC_ESC] = Val ch1 /\ drain_uart_buffer ch1 [x] = Val ch2 /\
    drain_uart_buffer ch [HDLC_ESC; x] = Val ch' /\
    channel_rel (MkRxAbs (finished a) (Some (s ++ [x])) false) ch2 /\
    channel_rel (MkRxAbs (finished a) (Some (s ++ [Z.lxor x HDLC_ESC_XOR])) false) ch'.
Proof.
  intros Hr He Hc Hl Hx1 Hx2. destruct a as [q cur esc]. cbn [finished current escaped] in *. subst.
  assert ((x =? HDLC_FLAG) = false /\ (x =? HDLC_ESC) = false) as [Hf He] by (by rewrite !Z.eqb_neq).
  assert (forall i p, abs_bytes (MkRxAbs q (Some s) false) i = Some p ->
    exists ch', drain_uart_buffer ch i = Val ch' /\ channel_rel (MkRxAbs (finished p) (current p) false) ch') as Hd
    by (intros i p; by apply drain_refines).
  destruct (Hd [HDLC_ESC] (MkRxAbs q (Some s) true) eq_refl) as (ch1 & H1 & Hr1).
  destruct (Hd [HDLC_ESC; x] (MkRxAbs q (Some (s ++ [Z.lxor x HDLC_ESC_XOR])) false)) as (ch' & H2 & Hr2).
  { cbn. unfold abs_byte. rewrite Hf. cbn [current escaped]. unfold abs_store. by rewrite bool_decide_true. }
  destruct (drain_refines [x] _ ch1 (MkRxAbs q (Some (s ++ [x])) false) Hr1 eq_refl) as (ch2 & H3 & Hr3).
  { cbn. unfold abs_byte. rewrite Hf. cbn [current escaped]. rewrite He. unfold abs_store. by rewrite bool_decide_true. }
  exists ch1, ch2, ch'. by split_and!.
Qed.

Lemma split_escape_corrupts_witness :
  exists ch ch1 ch2 ch', drain_uart_buffer recv_new [0x7e; 0xff] = Val ch /\
    drain_uart_buffer ch [HDLC_ESC] = Val ch1 /\ drain_uart_buffer ch1 [0x5e] = Val ch2 /\
    drain_uart_buffer ch [HDLC_ESC; 0x5e] = Val ch' /\
    channel_rel (MkRxAbs [] (Some ([0x7e; 0xff] ++ [0x5e])) false) ch2 /\
    channel_rel (MkRxAbs [] (Some ([0x7e; 0xff] ++ [Z.lxor 0x5e HDLC_ESC_XOR])) false) ch'.
Proof.
  destruct (drain_refines [0x7e; 0xff] abs_new recv_new (MkRxAbs [] (Some [0x7e; 0xff]) false)
    recv_new_rel eq_refl eq_refl) as (ch & Hd & Hr).
  destruct (split_escape_corrupts _ ch [0x7e; 0xff] 0x5e Hr eq_refl eq_refl)
    as (ch1 & ch2 & ch' & H1 & H2 & H3 & H4 & H5); [rewrite max_frame; cbn; lia|discriminate|discriminate|].
  exists ch, ch1, ch2, ch'. split; [exact Hd|]. split; [exact H1|]. split; [exact H2|].
  split; [exact H3|]. split; [exact H4|exact H5].
Defined.

(** A frame that goes on beyond the 1507 bytes of a buffer makes the
    interrupt handler panic, whatever the sender put into it. *)
Theorem overlong_frame_panics a ch s data x rest :
  channel_rel a ch -> current a = Some s -> escaped a = false -> Forall plain (data ++ [x]) ->
  (length s + length data = MAX_FRAME)%nat ->
  drain_uart_buffer ch (data ++ x :: rest) = Panic.
Proof.
  intros Hr Hc He [Hp Hx]%Forall_app Hl. apply Forall_cons_1 in Hx as [[Hx1 Hx2] _].
  destruct (drain_enter a ch (data ++ x :: rest) Hr He) as (d & Hd & _ & ->).
  destruct a as [q cur esc]. cbn [current escaped] in *. subst.
  destruct (loop_refines data _ d _ Hd (plain_bytes data q s Hp ltac:(lia))) as (d' & Hd' & Hr').
  rewrite drain_loop_app, Hd', run_bind_Val. cbn [drain_loop]. unfold drain_byte.
  pose proof (store_refines q (s ++ data) x false d' Hr') as Hs. rewrite length_app in Hs.
  rewrite decide_False in Hs by lia. destruct Hr' as (_ & -> & -> & -> & _).
  by rewrite (proj2 (Z.eqb_neq _ _) Hx1), (proj2 (Z.eqb_neq _ _) Hx2), Hs.
Qed.

Lemma overlong_frame_panics_witness :
  exists ch, drain_uart_buffer recv_new [0x7e] = Val ch /\
    drain_uart_buffer ch (replicate 1506 7 ++ [7; 0x7e]) = Panic.
Proof.
  destruct (drain_refines [0x7e] abs_new recv_new (MkRxAbs [] (Some [0x7e]) false)
    recv_new_rel eq_refl eq_refl) as (ch & Hd & Hr). exists ch. split; [done|].
  apply (overlong_frame_panics _ ch [0x7e] (replicate 1506 7) 7 [0x7e] Hr eq_refl eq_refl).
  - apply Forall_app. split; [by apply Forall_replicate|by apply Forall_cons_2, Forall_nil_2].
  - reflexivity.
Defined.

(** When the 128th frame is finished before one was taken, no frame can be
    taken any more although every buffer holds one: the read head has met the
    finished head.  The length of the last frame is overwritten with zero. *)
Theorem full_ring_hides_frames a ch s :
  channel_rel a ch -> current a = Some s -> escaped a = false -> (1 < length s)%nat ->
  (length (finished a) + 1 = CHANNEL_MAX_FRAMES)%nat ->
  exists ch' b, drain_uart_buffer ch [HDLC_FLAG] = Val ch' /\
    rc_free_buffers ch' = 0%nat /\ read_frame ch' = Val (None, ch') /\
    rc_buffers ch' !! slot ch (length (finished a)) = Some b /\ buf_len b = 0%nat.
Proof.
  intros Hr Hc He Hl Hn. destruct (drain_enter a ch [HDLC_FLAG] Hr He) as (d & Hd & Hdch & ->).
  destruct a as [q cur esc]. cbn [finished current escaped] in *. subst cur esc.
  destruct (flag_denied q s d Hd Hl Hn) as (ch1 & b & Hfl & Hr1 & Hsl & Hbuf & Hb). subst ch.
  assert (drain_loop d [HDLC_FLAG] = Val (MkRx (finish_frame ch1) true true (rx_buf d) false 0)) as ->.
  { cbn [drain_loop]. unfold drain_byte. destruct Hd as (_ & -> & _). by rewrite Z.eqb_refl, Hfl. }
  rewrite run_bind_Val. unfold drain_end. cbn [rx_ch rx_in_packet rx_buf rx_bi].
  erewrite update_at; [|exact Hb|done].
  eexists _, (MkBuffer 0 (buf_bytes b)). split; [done|]. cbn [set_buffers rc_free_buffers rc_buffers].
  pose proof (ring_free _ _ _ Hr1) as Hfree. pose proof (ring_read _ _ _ Hr1) as Hrd.
  split_and!; [cbn [finish_frame rc_free_buffers]; lia| | |done].
  - unfold read_frame, read_head_buf. cbn [rc_read_head rc_finished_head finish_frame].
    rewrite (ring_finished _ _ _ Hr1), slot_succ, Hn.
    rewrite (bool_decide_true (rc_read_head ch1 = _)), orb_true_r; [done|].
    cbn [set_buffers rc_finished_head]. unfold slot, CHANNEL_MAX_FRAMES in *. lia.
  - rewrite <- Hsl, Hbuf. apply list_lookup_insert_eq. rewrite <- Hbuf. by apply lookup_lt_Some in Hb.
Qed.

(** 128 frames of a flag and one byte, none taken. *)
Lemma full_ring_hides_frames_witness :
  exists ch, drain_uart_buffer recv_new (HDLC_FLAG :: concat (replicate 127 [5; HDLC_FLAG]) ++ [5]) = Val ch /\
  exists ch' b, drain_uart_buffer ch [HDLC_FLAG] = Val ch' /\
    rc_free_buffers ch' = 0%nat /\ read_frame ch' = Val (None, ch') /\
    rc_buffers ch' !! slot ch (length (replicate 127 [HDLC_FLAG; 5])) = Some b /\ buf_len b = 0%nat.
Proof.
  destruct (drain_refines (HDLC_FLAG :: concat (replicate 127 [5; HDLC_FLAG]) ++ [5]) abs_new recv_new
    (MkRxAbs (replicate 127 [HDLC_FLAG; 5]) (Some [HDLC_FLAG; 5]) false) recv_new_rel eq_refl)
    as (ch & Hd & Hr); [vm_compute; reflexivity|].
  exists ch. split; [done|].
  apply (full_ring_hides_frames (MkRxAbs (replicate 127 [HDLC_FLAG; 5]) (Some [HDLC_FLAG; 5]) false) ch
    [HDLC_FLAG; 5] Hr eq_refl eq_refl).
  - cbn. lia.
  - reflexivity.
Defined.
