(* ===== verification/PppLink.v ===== *)
(** The PPP link from end to end: frames that the transmit channel of
    [device/antimony/src/net/phy.rs] writes to the wire, received by its receive
    channel and accepted by [try_from_hdlc_frame] of [net.rs]. *)
From S2P Require Import Prelude Words Hdlc PppXmit PppRecv.

(** ** The wire *)

(** A frame without its flags. *)
Definition ppp_body (proto : Z) (p : list Z) : list Z :=
  [HDLC_ADDRESS; HDLC_CONTROL] ++ u16_to_be_bytes proto ++ p ++
  u16_to_le_bytes (ppp_calc_fcs ([HDLC_ADDRESS; HDLC_CONTROL] ++ u16_to_be_bytes proto ++ p)).

(** A list in which no escape is followed by a flag. *)
Definition no_escaped_flag (s : list Z) : Prop :=
  forall i, s !! i = Some HDLC_ESC -> s !! S i <> Some HDLC_FLAG.

Section wire.
Implicit Types (s mid : list Z) (a : rx_abs).

Lemma ppp_frame_body proto p : ppp_frame proto p = HDLC_FLAG :: ppp_body proto p ++ [HDLC_FLAG].
Proof. unfold ppp_frame, ppp_body, leader. cbn [app]. by rewrite <- !app_assoc. Qed.

Lemma needed_spec c : u8 c -> needed link_needs c = bool_decide (c = HDLC_FLAG \/ c = HDLC_ESC).
Proof.
  intros Hc. unfold fits in Hc.
  assert (Forall (fun n => needed link_needs (Z.of_nat n) =
    bool_decide (Z.of_nat n = HDLC_FLAG \/ Z.of_nat n = HDLC_ESC)) (seq 0 256)) as Hall by decide_now.
  rewrite Forall_seq in Hall. specialize (Hall (Z.to_nat c)). rewrite Z2Nat.id in Hall by lia. apply Hall. lia.
Qed.

Lemma stuff_from_inner n i mid :
  (0 < i)%nat -> (i + length mid < n)%nat -> stuff_from link_needs n i mid = mid ≫= stuff link_needs.
Proof.
  revert i. induction mid as [|c mid IH]; intros i Hi Hn; [done|]. cbn [stuff_from mbind list_bind length] in *.
  rewrite IH by lia. f_equal. unfold stuff_at, stuff. rewrite !bool_decide_false by lia. cbn [orb andb negb].
  by rewrite andb_true_r.
Qed.
Lemma stuff_from_app needs n i s t :
  stuff_from needs n i (s ++ t) = stuff_from needs n i s ++ stuff_from needs n (i + length s) t.
Proof.
  revert i. induction s as [|c s IH]; intros i; [by rewrite Nat.add_0_r|].
  cbn [app stuff_from length]. rewrite IH, <- app_assoc. do 3 f_equal. lia.
Qed.

(** Inside its flags a frame is stuffed byte by byte. *)
Lemma wire_of_frame mid :
  wire_of link_needs (HDLC_FLAG :: mid ++ [HDLC_FLAG]) =
  HDLC_FLAG :: (mid ≫= stuff link_needs) ++ [HDLC_FLAG].
Proof.
  unfold wire_of, rest_of. rewrite !drop_0. cbn [length]. rewrite length_app. cbn [length stuff_from].
  unfold stuff_at at 1. rewrite (bool_decide_true (0 = 0)%nat), Z.eqb_refl, andb_false_r by done.
  cbn [app]. f_equal. rewrite stuff_from_app, stuff_from_inner by lia. f_equal. cbn [stuff_from].
  unfold stuff_at. rewrite (bool_decide_true (1 + length mid = S (length mid + 1) - 1)%nat) by lia.
  by rewrite orb_true_r, Z.eqb_refl, andb_false_r.
Qed.

(** The receiver takes the stuffing out. *)
Lemma abs_stuffed mid q s :
  bytes mid -> (length s + length mid <= MAX_FRAME)%nat ->
  abs_bytes (MkRxAbs q (Some s) false) (mid ≫= stuff link_needs) = Some (MkRxAbs q (Some (s ++ mid)) false).
Proof.
  intros Hb. revert s. induction Hb as [|c mid Hc Hb IH]; intros s Hl; [by rewrite app_nil_r|].
  cbn [mbind list_bind length] in *. unfold stuff at 1. rewrite needed_spec by done.
  assert (forall s', s' = s ++ [c] -> abs_bytes (MkRxAbs q (Some s') false) (mid ≫= stuff link_needs) =
    Some (MkRxAbs q (Some (s ++ c :: mid)) false)) as Hrest.
  { intros s' ->. rewrite IH, <- app_assoc; [done|]. rewrite length_app. cbn [length]. lia. }
  case_bool_decide as Hn.
  - assert ((Z.lxor HDLC_ESC_XOR c =? HDLC_FLAG) = false /\ Z.lxor (Z.lxor HDLC_ESC_XOR c) HDLC_ESC_XOR = c)
      as [Hx1 Hx2] by (by destruct Hn as [-> | ->]).
    cbn [app abs_bytes].
    change (abs_byte (MkRxAbs q (Some s) false) HDLC_ESC) with (Some (MkRxAbs q (Some s) true)).
    cbn [mbind option_bind abs_bytes]. unfold abs_byte. rewrite Hx1. cbn [current escaped]. rewrite Hx2.
    unfold abs_store. rewrite bool_decide_true by lia. cbn [mbind option_bind finished]. by apply Hrest.
  - assert ((c =? HDLC_FLAG) = false /\ (c =? HDLC_ESC) = false) as [Hx1 Hx2] by (rewrite !Z.eqb_neq; tauto).
    cbn [app abs_bytes]. unfold abs_byte. rewrite Hx1. cbn [current escaped]. rewrite Hx2. unfold abs_store.
    rewrite bool_decide_true by lia. cbn [mbind option_bind finished]. by apply Hrest.
Qed.

Lemma abs_bytes_app a s t : abs_bytes a (s ++ t) = (a ← abs_bytes a s; abs_bytes a t).
Proof.
  revert a. induction s as [|x s IH]; intros a; [done|]. cbn [app abs_bytes].
  destruct (abs_byte a x); [apply IH|done].
Qed.

(** Where a frame can begin. *)
Definition idle a : Prop := escaped a = false /\ (current a = None \/ current a = Some [HDLC_FLAG]).

Lemma abs_frame a mid :
  idle a -> bytes mid -> mid <> [] -> (length mid < MAX_FRAME)%nat ->
  (length (finished a) + 1 < CHANNEL_MAX_FRAMES)%nat ->
  abs_bytes a (wire_of link_needs (HDLC_FLAG :: mid ++ [HDLC_FLAG])) =
  Some (MkRxAbs (finished a ++ [HDLC_FLAG :: mid]) (Some [HDLC_FLAG]) false).
Proof.
  intros [He Hc] Hb Hne Hl Hq. rewrite wire_of_frame. cbn [abs_bytes].
  assert (abs_byte a HDLC_FLAG = Some (MkRxAbs (finished a) (Some [HDLC_FLAG]) false)) as ->.
  { destruct a as [q cur esc]. cbn [finished current escaped] in *. subst. by destruct Hc as [-> | ->]. }
  cbn [mbind option_bind]. rewrite abs_bytes_app, abs_stuffed by (done || cbn [length]; lia).
  cbn [mbind option_bind abs_bytes]. unfold abs_byte. rewrite Z.eqb_refl. unfold abs_flag. cbn [current finished app].
  destruct mid as [|c mid]; [done|]. by rewrite bool_decide_false, bool_decide_true.
Qed.

Lemma abs_frames mids a :
  idle a -> Forall (fun mid => bytes mid /\ mid <> [] /\ (length mid < MAX_FRAME)%nat) mids ->
  (length (finished a) + length mids < CHANNEL_MAX_FRAMES)%nat ->
  exists a', abs_bytes a (concat ((fun mid => wire_of link_needs (HDLC_FLAG :: mid ++ [HDLC_FLAG])) <$> mids)) =
    Some a' /\ idle a' /\ finished a' = finished a ++ (cons HDLC_FLAG <$> mids).
Proof.
  intros Hi Hm. revert a Hi. induction Hm as [|mid mids (Hb & Hne & Hl) Hm IH]; intros a Hi Hq.
  - exists a. split; [done|]. split; [done|]. by rewrite app_nil_r.
  - cbn [fmap list_fmap concat length] in *. rewrite abs_bytes_app, abs_frame by (done || lia).
    cbn [mbind option_bind].
    destruct (IH (MkRxAbs (finished a ++ [HDLC_FLAG :: mid]) (Some [HDLC_FLAG]) false)) as (a' & Ha & Hi' & Hf).
    + split; [done|by right].
    + cbn [finished]. rewrite length_app. cbn [length]. lia.
    + exists a'. split; [done|]. split; [done|]. rewrite Hf. cbn [finished]. by rewrite <- app_assoc.
Qed.

(** ** Cutting the wire into drains *)

(** A receiver ends with a pending escape only behind an escape. *)
Lemma pending_behind_escape s a a' :
  no_escaped_flag s -> escaped a = false -> abs_bytes a s = Some a' -> escaped a' = true ->
  list.last s = Some HDLC_ESC /\ current a' <> None.
Proof.
  revert a'. induction s as [|x s IH] using rev_ind; intros a' Hn He Ha Hp.
  - injection Ha as <-. congruence.
  - rewrite abs_bytes_app in Ha. apply bind_Some in Ha as (a1 & Ha1 & Ha). rewrite last_snoc.
    cbn [abs_bytes] in Ha. apply bind_Some in Ha as (a2 & Ha & [= ->]).
    assert (no_escaped_flag s) as Hns.
    { intros i Hi Hi'. apply (Hn i); by apply lookup_app_l_Some. }
    specialize (IH a1 Hns He Ha1). unfold abs_byte in Ha.
    destruct (Z.eqb_spec x HDLC_FLAG) as [->|Hx].
    + unfold abs_flag in Ha. destruct (current a1) as [c|]; [|by injection Ha as <-].
      case_bool_decide; [|case_bool_decide; [by injection Ha as <-|done]]. injection Ha as <-.
      destruct (IH Hp) as [Hl _]. exfalso. rewrite last_lookup in Hl.
      destruct s as [|y s]; [done|]. cbn [length pred] in Hl.
      apply (Hn (length s)).
      * by apply lookup_app_l_Some.
      * rewrite lookup_app_r by done. by rewrite Nat.sub_diag.
    + destruct (current a1) as [c|] eqn:Hc.
      * destruct (escaped a1).
        { unfold abs_store in Ha. case_bool_decide; [|done]. by injection Ha as <-. }
        destruct (Z.eqb_spec x HDLC_ESC) as [->|]; [by injection Ha as <-|].
        unfold abs_store in Ha. case_bool_decide; [|done]. by injection Ha as <-.
      * injection Ha as <-. by destruct (IH Hp).
Qed.

Lemma no_escaped_flag_app s t : no_escaped_flag (s ++ t) -> no_escaped_flag s /\ no_escaped_flag t.
Proof.
  intros Hn. split; intros i Hi Hi'.
  - apply (Hn i); by apply lookup_app_l_Some.
  - apply (Hn (length s + i)%nat).
    + by rewrite lookup_app_r, Nat.add_sub' by lia.
    + rewrite lookup_app_r by lia. by replace (S (length s + i) - length s)%nat with (S i) by lia.
Qed.

(** Drains between which no escape is cut off act as one. *)
Lemma abs_run_drains pieces a a' :
  no_escaped_flag (concat pieces) -> Forall (fun p => list.last p <> Some HDLC_ESC) pieces ->
  escaped a = false -> abs_bytes a (concat pieces) = Some a' ->
  abs_run (RDrain <$> pieces) a = Some ([], a').
Proof.
  intros Hn Hp. revert a. induction Hp as [|p pieces Hp Hps IH]; intros a He Ha; [by injection Ha as <-|].
  cbn [concat] in *. apply no_escaped_flag_app in Hn as [Hn1 Hn2]. rewrite abs_bytes_app in Ha.
  apply bind_Some in Ha as (a1 & Ha1 & Ha). cbn [fmap list_fmap abs_run abs_do]. rewrite Ha1.
  cbn [mbind option_bind].
  assert (escaped a1 = false) as He1.
  { destruct (escaped a1) eqn:Hx; [|done]. by destruct (pending_behind_escape p a a1 Hn1 He Ha1 Hx). }
  assert (MkRxAbs (finished a1) (current a1) false = a1) as -> by (destruct a1; cbn in *; by subst).
  by rewrite (IH Hn2 a1 He1 Ha).
Qed.

Lemma abs_run_app ops1 ops2 a os1 a1 :
  abs_run ops1 a = Some (os1, a1) ->
  abs_run (ops1 ++ ops2) a = ('(os2, a2) ← abs_run ops2 a1; Some (os1 ++ os2, a2)).
Proof.
  revert a os1. induction ops1 as [|op ops1 IH]; intros a os1 Ha.
  - injection Ha as <- <-. cbn [app]. by destruct (abs_run ops2 a) as [[]|].
  - cbn [app abs_run] in *. apply bind_Some in Ha as ([o a2] & Ho & Ha).
    apply bind_Some in Ha as ([os a3] & Hos & [= <- <-]). rewrite Ho. cbn [mbind option_bind].
    rewrite (IH _ _ Hos). destruct (abs_run ops2 a3) as [[os2 a4]|]; [|done].
    cbn [mbind option_bind]. by rewrite app_assoc.
Qed.

Lemma abs_run_reads a :
  abs_run (replicate (length (finished a)) RRead) a = Some (finished a, MkRxAbs [] (current a)
    (match finished a with [] => escaped a | _ => false end)).
Proof.
  destruct a as [q cur esc]. cbn [finished current escaped]. revert esc.
  induction q as [|s q IH]; intros esc; [done|]. cbn [length replicate abs_run abs_do finished current].
  cbn [mbind option_bind]. rewrite IH. cbn. by destruct q.
Qed.

(** The wire never has an escape before a flag. *)
Lemma stuffed_no_escaped_flag mid rest :
  bytes mid -> no_escaped_flag rest -> rest !! 0%nat <> None ->
  no_escaped_flag ((mid ≫= stuff link_needs) ++ rest).
Proof.
  intros Hb Hr H0. induction Hb as [|c mid Hc Hb IH]; [done|].
  cbn [mbind list_bind]. rewrite <- app_assoc. unfold stuff at 1. rewrite needed_spec by done.
  case_bool_decide as Hn.
  - intros [|[|i]] Hi; cbn [app lookup list_lookup] in *.
    + by destruct Hn as [-> | ->].
    + by destruct Hn as [-> | ->].
    + by apply (IH i).
  - intros [|i] Hi; cbn [app lookup list_lookup] in *; [injection Hi as ->; tauto|by apply (IH i)].
Qed.
Lemma frames_no_escaped_flag mids :
  Forall (fun mid => bytes mid) mids ->
  no_escaped_flag (concat ((fun mid => wire_of link_needs (HDLC_FLAG :: mid ++ [HDLC_FLAG])) <$> mids)).
Proof.
  intros Hm. induction Hm as [|mid mids Hb Hm IH]; [done|]. cbn [fmap list_fmap concat].
  rewrite wire_of_frame. cbn [app]. intros [|i] Hi; cbn [lookup list_lookup] in *; [done|].
  revert i Hi. rewrite <- app_assoc. apply stuffed_no_escaped_flag; [done| |done].
  intros [|i] Hi; [done|]. by apply (IH i).
Qed.
End wire.

(** ** The claim *)

Section bodies.
Context (proto : Z) (p : list Z) (Hproto : u16 proto) (Hp : bytes p).

Lemma ppp_body_bytes : bytes (ppp_body proto p).
Proof using Hp.
  unfold ppp_body. apply Forall_app. split; [decide_now|]. apply Forall_app. split; [apply be_bytes_bytes|].
  apply Forall_app. split; [done|apply le_bytes_bytes].
Qed.
Lemma length_ppp_body : length (ppp_body proto p) = (6 + length p)%nat.
Proof using Type.
  unfold ppp_body, u16_to_be_bytes, u16_to_le_bytes.
  rewrite !length_app, length_be_bytes, length_le_bytes. cbn [length]. lia.
Qed.
Lemma ppp_body_accepted :
  try_from_hdlc_frame (HDLC_FLAG :: ppp_body proto p) = Val (Ok (u16_to_be_bytes proto ++ p)).
Proof using Hproto Hp.
  rewrite <- (frame_accepted proto p Hproto Hp). done.
Qed.
End bodies.

(** A packet that a frame can be built for. *)
Definition packet_ok (pk : Z * list (list Z)) : Prop := u16 (fst pk) /\ bytes (concat (snd pk)).

Lemma built_framed b pk :
  build_frame (fst pk) (snd pk) = Val b -> packet_ok pk ->
  framed b (ppp_frame (fst pk) (concat (snd pk))) /\ (length (concat (snd pk)) <= 1499)%nat.
Proof.
  intros Hb [Hp Hbs]. pose proof (build_frame_spec (fst pk) (snd pk)) as Hs. rewrite Hb in Hs.
  case_decide; [|done]. destruct Hs as (b' & [= <-] & Hh). split; [|done]. split; [done|].
  rewrite ppp_frame_body. split; [|done]. apply Forall_cons_2; [decide_now|].
  apply Forall_app. split; [by apply ppp_body_bytes|decide_now].
Qed.

(** C17: up to 127 packets that are framed and pushed, in any interleaving with
    the transmit interrupts, reach the other side: when all of it is written
    and the receiver drains the wire in pieces, none of which ends in an
    escape, it takes the packets in order. *)
Theorem ppp_link_delivers ops packets pieces x u :
  Forall2 (fun b pk => build_frame (fst pk) (snd pk) = Val b) (pushes ops) packets ->
  Forall packet_ok packets -> (length packets < CHANNEL_MAX_FRAMES)%nat ->
  link_init xmit_new = Val x -> xmit_run ops (x, MkUart 0 [] false) = Val u -> xc_buffers (fst u) = [] ->
  concat pieces = uart_sent (snd u) -> Forall (fun p => list.last p <> Some HDLC_ESC) pieces ->
  exists frames ch,
    recv_run ((RDrain <$> pieces) ++ replicate (length packets) RRead) recv_new = Val (frames, ch) /\
    Forall2 (fun f pk => try_from_hdlc_frame f = Val (Ok (u16_to_be_bytes (fst pk) ++ concat (snd pk))))
      frames packets.
Proof.
  intros Hb Hok Hn Hx Hu Hall Hpieces Hcut. rewrite link_init_new in Hx. injection Hx as <-.
  set (mids := (fun pk => ppp_body (fst pk) (concat (snd pk))) <$> packets).
  assert (Forall2 framed (pushes ops) ((fun mid => HDLC_FLAG :: mid ++ [HDLC_FLAG]) <$> mids) /\
    Forall (fun mid => bytes mid /\ mid <> [] /\ (length mid < MAX_FRAME)%nat) mids) as [Hfr Hmids].
  { subst mids. clear - Hb Hok. induction Hb as [|b pk bs packets Hb Hbs IH]; [by split; constructor|].
    apply Forall_cons_1 in Hok as [Hpk Hok]. destruct (IH Hok) as [IH1 IH2].
    destruct (built_framed b pk Hb Hpk) as [Hf Hl]. rewrite ppp_frame_body in Hf. cbn [fmap list_fmap].
    split; [by apply Forall2_cons_2|]. apply Forall_cons_2; [|done]. destruct Hpk as [? ?].
    split_and!; [by apply ppp_body_bytes|done|]. rewrite length_ppp_body, max_frame. lia. }
  destruct (xmit_run_refines link_needs ltac:(done) ops (MkXmitChannel [] false link_needs) (MkUart 0 [] false) []
    _ ltac:(by split; [|apply Forall2_nil_2]) Hfr) as (x' & u' & rests & Hu' & [_ Hr] & Hsent).
  rewrite Hu in Hu'. injection Hu' as ->. cbn [fst snd] in *. rewrite Hall in Hr.
  apply Forall2_nil_inv_l in Hr as ->. cbn [concat uart_sent] in Hsent. rewrite app_nil_r in Hsent. cbn [app] in Hsent.
  rewrite <- list_fmap_compose in Hsent.
  destruct (abs_frames mids abs_new) as (a & Ha & Hidle & Hfin); [by split; [|left]|done| |].
  { unfold mids. by rewrite length_fmap. }
  assert (abs_run (RDrain <$> pieces) abs_new = Some ([], a)) as Hdr.
  { apply abs_run_drains; [|done|done|]; rewrite Hpieces, Hsent; [|exact Ha].
    apply frames_no_escaped_flag. eapply Forall_impl; [|exact Hmids]. by intros mid (? & _). }
  assert (length packets = length (finished a)) as Hlen.
  { rewrite Hfin. cbn [app abs_new finished]. unfold mids. by rewrite !length_fmap. }
  pose proof (abs_run_reads a) as Hrd. pose proof (abs_run_app _ (replicate (length (finished a)) RRead) _ _ _ Hdr) as Hrun.
  rewrite Hrd in Hrun. cbn [mbind option_bind app] in Hrun.
  destruct (recv_run_refines _ _ _ _ _ recv_new_rel eq_refl Hrun) as (ch & Hch & _).
  exists (finished a), ch. rewrite Hlen. split; [done|]. rewrite Hfin. cbn [app abs_new finished].
  subst mids. clear - Hok. induction Hok as [|pk packets [Hp Hbs] Hok IH]; [constructor|].
  cbn [fmap list_fmap]. apply Forall2_cons_2; [|done]. by apply ppp_body_accepted.
Qed.

Lemma ppp_link_delivers_witness :
  exists b u, build_frame PROTO_IP [[0x7e; 0x45]] = Val b /\
    xmit_run [XPush b; XInterrupt 4; XInterrupt 99] (MkXmitChannel [] false link_needs, MkUart 0 [] false) = Val u /\
  exists frames ch,
    recv_run ((RDrain <$> [take 7 (uart_sent (snd u)); drop 7 (uart_sent (snd u))]) ++ replicate 1 RRead) recv_new =
      Val (frames, ch) /\
    Forall2 (fun f pk => try_from_hdlc_frame f = Val (Ok (u16_to_be_bytes (fst pk) ++ concat (snd pk))))
      frames [(PROTO_IP, [[0x7e; 0x45]])].
Proof.
  eexists _, _. split; [reflexivity|]. split; [vm_compute; reflexivity|].
  eapply (ppp_link_delivers [XPush _; XInterrupt 4; XInterrupt 99] [(PROTO_IP, [[0x7e; 0x45]])]).
  - apply Forall2_cons_2; [reflexivity|constructor].
  - apply Forall_cons_2; [split; decide_now|constructor].
  - decide_now.
  - apply link_init_new.
  - vm_compute. reflexivity.
  - reflexivity.
  - vm_compute. reflexivity.
  - repeat (apply Forall_cons_2; [vm_compute; discriminate|]). constructor.
Defined.
