(* ===== verification/PppControl.v ===== *)
(** The control protocols of the PPP link: [device/antimony/src/net/control.rs]
    with the options of [lcp.rs] and [ipcp.rs].

    A control protocol is a class, as the trait [ControlProtocol] is: its
    options, what it answers to them and what it asks for.  Logging is left
    out; a frame that is sent is the [Buffer] that is handed to [send]. *)
From S2P Require Import Prelude Words Hdlc.

Module PppControl.

Inductive Code : Type :=
  | ConfReq
  | ConfAck
  | ConfNak
  | ConfRej
  | TermReq
  | TermAck
  | CodeRej.
#[export] Instance Code_eq_dec : EqDecision Code.
Proof. solve_decision. Defined.
Definition code_to_u8 (c : Code) : Z :=
  match c with
  | ConfReq => 1 | ConfAck => 2 | ConfNak => 3 | ConfRej => 4 | TermReq => 5 | TermAck => 6 | CodeRej => 7
  end.
Definition code_try_from (value : Z) : result Code unit :=
  match value with
  | 1 => Ok ConfReq
  | 2 => Ok ConfAck
  | 3 => Ok ConfNak
  | 4 => Ok ConfRej
  | 5 => Ok TermReq
  | 6 => Ok TermAck
  | 7 => Ok CodeRej
  | _ => Err tt
  end.

Record Packet : Type := MkPacket {
  pkt_code : Code;
  pkt_id : Z;
  pkt_data : list Z;
}.

Inductive Verdict : Type :=
  | Ack
  | Nak (v : list Z)
  | Rej (v : list Z).
Definition is_reject (v : Verdict) : bool := match v with Rej _ => true | _ => false end.
Definition as_reject (v : Verdict) : option (list Z) := match v with Rej v => Some v | _ => None end.
Definition is_nak (v : Verdict) : bool := match v with Nak _ => true | _ => false end.
Definition as_nak (v : Verdict) : option (list Z) := match v with Nak v => Some v | _ => None end.

(** The type [S] of the source. *)
Inductive ControlState : Type :=
  | Closed
  | ReqSent
  | AckReceived
  | AckSent
  | Opened.
#[export] Instance ControlState_eq_dec : EqDecision ControlState.
Proof. solve_decision. Defined.

Class ControlProtocol (CP : Type) := {
  PROTOCOL : Z;
  Opt : Type;
  opt_from_bytes : Z -> list Z -> run (option Opt);
  received_nak_opt : CP -> Opt -> CP * bool;
  received_unknown_code : CP -> Z -> Z -> list Z -> run (list Buffer);
  judge : CP -> Opt -> list Z -> CP * Verdict;
  get_opts : CP -> list Z;
}.

(** ** Options *)

(** An item of the iterator, and the index behind it. *)
Definition options_next `{ControlProtocol CP} (buf : list Z) (index : nat)
  : run (option (result (Opt * list Z) (list Z) * nat)) :=
  if bool_decide (length buf <= index)%nat then Val None
  else
    ty ← slice_get buf index;
    len ← slice_get buf (index + 1);
    let len := Z.to_nat len in
    if bool_decide (length buf < index + len)%nat then Val (Some (Err [], index))
    else
      data ← slice_range buf (index + 2) (index + len);
      opt_buf ← slice_range buf index (index + len);
      opt ← opt_from_bytes ty data;
      let res := match opt with Some opt => Ok (opt, opt_buf) | None => Err opt_buf end in
      Val (Some (res, (index + len)%nat)).

Record ControlAutomaton (CP : Type) : Type := MkControl {
  inner : CP;
  state : ControlState;
  scr_id : Z;
  last_req_id : option Z;
}.
Arguments MkControl {CP}.
Arguments inner {CP}.
Arguments state {CP}.
Arguments scr_id {CP}.
Arguments last_req_id {CP}.

Section automaton.
Context {CP : Type} `{ControlProtocol CP}.
Implicit Types (a : ControlAutomaton CP).

Definition control_new (np : CP) : ControlAutomaton CP := MkControl np Closed 0 None.
Definition is_layer_up a : bool := bool_decide (state a = Opened).
Definition is_closed a : bool := bool_decide (state a = Closed).
Definition set_state (s : ControlState) a : ControlAutomaton CP := MkControl (inner a) s (scr_id a) (last_req_id a).
Definition set_inner (np : CP) a : ControlAutomaton CP := MkControl np (state a) (scr_id a) (last_req_id a).
Definition set_last_req_id (id : option Z) a : ControlAutomaton CP := MkControl (inner a) (state a) (scr_id a) id.

(** ** Sending *)

(** The frame of a packet. *)
Definition send_parts (code id : Z) (data : list (list Z)) (len : Z) : run Buffer :=
  b ← begin_ppp buffer_new PROTOCOL;
  b ← buffer_write b [code; id];
  b ← buffer_write b (u16_to_be_bytes (wrap 16 len));
  b ← foldl (fun b p => b ← b; buffer_write b p) (Val b) data;
  finish_ppp b.
Definition send (p : Packet) : run Buffer :=
  send_parts (code_to_u8 (pkt_code p)) (pkt_id p) [pkt_data p] (4 + Z.of_nat (length (pkt_data p))).

Definition next_scr_id a : Z * ControlAutomaton CP :=
  (scr_id a, MkControl (inner a) (state a) (wrap 8 (scr_id a + 1)) (last_req_id a)).
Definition send_configure_request a : run (ControlAutomaton CP * list Buffer) :=
  let opts := get_opts (inner a) in
  let '(id, a) := next_scr_id a in
  b ← send (MkPacket ConfReq id opts);
  Val (a, [b]).
Definition send_configure_ack (p : Packet) : run Buffer := send (MkPacket ConfAck (pkt_id p) (pkt_data p)).

(** [.map(len as u16).sum::<u16>()] *)
Definition sum_lengths (vs : list (list Z)) : Z :=
  foldl (fun acc v => wrap 16 (acc + wrap 16 (Z.of_nat (length v)))) 0 vs.
Definition send_configure_nak (id : Z) (verdicts : list Verdict) : run Buffer :=
  let naks := omap as_nak verdicts in
  send_parts (code_to_u8 ConfNak) id naks (4 + sum_lengths naks).
Definition send_configure_reject (id : Z) (verdicts : list Verdict) : run Buffer :=
  let rejects := omap as_reject verdicts in
  send_parts (code_to_u8 ConfRej) id rejects (4 + sum_lengths rejects).
Definition send_terminate_ack (id : Z) : run Buffer := send (MkPacket TermAck id []).

(** ** Receiving *)

(** The verdicts on all options; [Err] at the first that does not fit.  The
    protocol is changed by the options before it.  Every round takes at least
    two bytes, so the length of the buffer is fuel enough. *)
Fixpoint collect_verdicts (fuel : nat) (np : CP) (buf : list Z) (index : nat) (acc : list Verdict)
  : run (CP * result (list Verdict) unit) :=
  match fuel with
  | O => Val (np, Ok acc)
  | S fuel =>
    item ← options_next buf index;
    match item with
    | None => Val (np, Ok acc)
    | Some (Ok (opt, opt_buf), index) =>
      let '(np, v) := judge np opt opt_buf in
      collect_verdicts fuel np buf index (acc ++ [v])
    | Some (Err s, index) =>
      match s with
      | [] => Val (np, Err tt)
      | _ => collect_verdicts fuel np buf index (acc ++ [Rej s])
      end
    end
  end.

Definition received_configure_request a (p : Packet) : run (ControlAutomaton CP * bool * list Buffer) :=
  '(np, verdicts) ← collect_verdicts (S (length (pkt_data p))) (inner a) (pkt_data p) 0 [];
  let a := set_inner np a in
  match verdicts with
  | Err _ => Val (a, false, [])
  | Ok verdicts =>
    if existsb is_reject verdicts then b ← send_configure_reject (pkt_id p) verdicts; Val (a, false, [b])
    else if existsb is_nak verdicts then b ← send_configure_nak (pkt_id p) verdicts; Val (a, false, [b])
    else b ← send_configure_ack p; Val (a, true, [b])
  end.

(** The loop over the options of a [ConfNak]; [None] when the fuel is used up.
    The iterator does not move past an option that overflows, and the loop
    ignores it. *)
Fixpoint nak_loop (fuel : nat) (np : CP) (buf : list Z) (index : nat) (all_ok : bool)
  : run (option (CP * bool)) :=
  match fuel with
  | O => Val None
  | S fuel =>
    item ← options_next buf index;
    match item with
    | None => Val (Some (np, all_ok))
    | Some (Ok (opt, _), index) =>
      let '(np, ok) := received_nak_opt np opt in
      nak_loop fuel np buf index (if (ok : bool) then all_ok else false)
    | Some (Err _, index) => nak_loop fuel np buf index all_ok
    end
  end.

Definition decode_packet a (packet : list Z) : run (option Packet * list Buffer) :=
  if bool_decide (length packet < 4)%nat then Val (None, [])
  else
    code ← slice_get packet 0;
    id ← slice_get packet 1;
    l2 ← slice_get packet 2;
    l3 ← slice_get packet 3;
    let len := u16_from_be_bytes [l2; l3] in
    let data := drop 4 packet in
    if negb (len =? Z.of_nat (length packet)) then Val (None, [])
    else match code_try_from code with
    | Ok code => Val (Some (MkPacket code id data), [])
    | Err _ => bs ← received_unknown_code (inner a) code id data; Val (None, bs)
    end.

(** The part of [received] behind the decoding. *)
Definition received_packet (fuel : nat) a (p : Packet) : run (option (ControlAutomaton CP * list Buffer)) :=
  match state a with
  | Closed => b ← send_terminate_ack (pkt_id p); Val (Some (a, [b]))
  | st =>
    match pkt_code p with
    | ConfReq =>
      '(a, did_ack, out) ← received_configure_request a p;
      '(a, out) ←
        (match (did_ack : bool), st with
         | true, ReqSent => Val (set_state AckSent a, out)
         | true, AckReceived => Val (set_state Opened a, out)
         | false, AckSent => Val (set_state ReqSent a, out)
         | _, Opened =>
           if negb (bool_decide (last_req_id a = Some (pkt_id p))) then
             '(a, bs) ← send_configure_request (set_state (if did_ack then AckSent else ReqSent) a);
             Val (a, out ++ bs)
           else Val (a, out)
         | _, _ => Val (a, out)
         end);
      Val (Some (set_last_req_id (Some (pkt_id p)) a, out))
    | ConfAck =>
      match st with
      | ReqSent => Val (Some (set_state AckReceived a, []))
      | AckSent => Val (Some (set_state Opened a, []))
      | _ => r ← send_configure_request (set_state ReqSent a); Val (Some r)
      end
    | TermReq =>
      b ← send_terminate_ack (pkt_id p);
      match st with
      | Opened => Val (Some (set_last_req_id None (set_state Closed a), [b]))
      | _ => Val (Some (set_state ReqSent a, [b]))
      end
    | TermAck => Val (Some (a, []))
    | ConfNak =>
      r ← nak_loop fuel (inner a) (pkt_data p) 0 true;
      match r with
      | None => Val None
      | Some (np, all_ok) =>
        let a := set_inner np a in
        if (all_ok : bool) then r ← send_configure_request a; Val (Some r) else Val (Some (a, []))
      end
    | ConfRej | CodeRej => Val (Some (a, []))
    end
  end.

Definition received (fuel : nat) a (packet : list Z) : run (option (ControlAutomaton CP * list Buffer)) :=
  '(p, out) ← decode_packet a packet;
  match p with
  | None => Val (Some (a, out))
  | Some p => received_packet fuel a p
  end.

Definition control_open a : run (ControlAutomaton CP * list Buffer) :=
  _ ← rust_assert (bool_decide (state a = Closed));
  send_configure_request (set_state ReqSent a).
Definition control_close a : ControlAutomaton CP := set_state Closed a.
End automaton.

(** ** The link control protocol *)

Module lcp.
Inductive LcpOpt : Type :=
  | Mru (mru : Z)
  | Accm (accm : Z)
  | AuthProtocol (proto : Z) (data : list Z)
  | QualProtocol (proto : Z) (data : list Z)
  | Magic (magic : Z)
  | PFCompression
  | ACFCompression.
End lcp.
Import lcp.

Definition lcp_to_bytes (o : LcpOpt) : run (list Z) :=
  match o with
  | Mru mru => Val ([1; 4] ++ u16_to_be_bytes mru)
  | Accm accm => Val ([2; 6] ++ u32_to_be_bytes accm)
  | Magic magic => Val ([5; 6] ++ u32_to_be_bytes magic)
  | AuthProtocol _ _ | QualProtocol _ _ | PFCompression | ACFCompression => Panic
  end.

Definition lcp_from_bytes (ty : Z) (data : list Z) : run (option LcpOpt) :=
  let opt_len := (length data + 2)%nat in
  match ty with
  | 1 =>
    if negb (bool_decide (opt_len = 4%nat)) then Val None
    else d0 ← slice_get data 0; d1 ← slice_get data 1; Val (Some (Mru (u16_from_be_bytes [d0; d1])))
  | 2 =>
    if negb (bool_decide (opt_len = 6%nat)) then Val None else Val (Some (Accm (u32_from_be_bytes data)))
  | 3 =>
    if bool_decide (length data < 4)%nat then Val None
    else
      d0 ← slice_get data 0; d1 ← slice_get data 1;
      Val (Some (AuthProtocol (u16_from_be_bytes [d0; d1]) (drop 2 data)))
  | 4 =>
    if bool_decide (length data < 4)%nat then Val None
    else
      d0 ← slice_get data 0; d1 ← slice_get data 1;
      Val (Some (QualProtocol (u16_from_be_bytes [d0; d1]) (drop 2 data)))
  | 5 =>
    if negb (bool_decide (opt_len = 6%nat)) then Val None else Val (Some (Magic (u32_from_be_bytes data)))
  | 7 => if negb (bool_decide (opt_len = 2%nat)) then Val None else Val (Some PFCompression)
  | 8 => if negb (bool_decide (opt_len = 2%nat)) then Val None else Val (Some ACFCompression)
  | _ => Val None
  end.

Definition lcp_judge (option_ : LcpOpt) (buf : list Z) : Verdict :=
  match option_ with
  | Mru mru =>
    if mru =? Z.of_nat PPP_MRU then Ack else Nak ([1; 4] ++ u16_to_be_bytes (Z.of_nat PPP_MRU))
  | Accm accm => if accm =? 0 then Ack else Nak ([1; 4] ++ u16_to_be_bytes (Z.of_nat PPP_MRU))
  | AuthProtocol _ _ | QualProtocol _ _ | Magic _ | PFCompression | ACFCompression => Rej buf
  end.

Definition lcp_get_opts : list Z := ([5; 6] ++ u32_to_be_bytes 0) ++ [2; 6] ++ u32_to_be_bytes 0.

Inductive Lcp : Type := MkLcp.

Definition lcp_unknown_code (code id : Z) (data : list Z) : run (list Buffer) :=
  if code =? 9 then
    b ← begin_ppp buffer_new PROTO_LCP;
    b ← buffer_write b [10; id];
    b ← buffer_write b (u16_to_be_bytes (wrap 16 (4 + Z.of_nat (length data))));
    b ← buffer_write b data;
    b ← finish_ppp b;
    Val [b]
  else Val [].

#[export] Instance Lcp_protocol : ControlProtocol Lcp := {|
  PROTOCOL := PROTO_LCP;
  Opt := lcp.LcpOpt;
  opt_from_bytes := lcp_from_bytes;
  received_nak_opt np _ := (np, false);
  received_unknown_code _ := lcp_unknown_code;
  judge np o buf := (np, lcp_judge o buf);
  get_opts _ := lcp_get_opts;
|}.

(** ** The network control protocol *)

(** [Ipv4Addr], by its octets. *)
Record Ipv4Addr : Type := MkIpv4 {
  octet0 : Z;
  octet1 : Z;
  octet2 : Z;
  octet3 : Z;
}.
Definition octets (a : Ipv4Addr) : list Z := [octet0 a; octet1 a; octet2 a; octet3 a].

Module ipcp.
Inductive IpcpOpt : Type :=
  | IpCompressionProtocol (protocol : Z) (data : list Z)
  | IpAddress (ip_addr : Ipv4Addr).
End ipcp.
Import ipcp.

Definition ipcp_from_bytes (ty : Z) (data : list Z) : run (option IpcpOpt) :=
  let opt_len := (length data + 2)%nat in
  match ty with
  | 2 =>
    if bool_decide (opt_len < 4)%nat then Val None
    else
      d0 ← slice_get data 0; d1 ← slice_get data 1;
      rest ← slice_range data 4 (length data);
      Val (Some (IpCompressionProtocol (u16_from_be_bytes [d0; d1]) rest))
  | 3 =>
    if negb (bool_decide (opt_len = 6%nat)) then Val None
    else
      d0 ← slice_get data 0; d1 ← slice_get data 1; d2 ← slice_get data 2; d3 ← slice_get data 3;
      Val (Some (IpAddress (MkIpv4 d0 d1 d2 d3)))
  | _ => Val None
  end.

Record Ipcp : Type := MkIpcp {
  host_address : option Ipv4Addr;
  prev_host_address : option (option Ipv4Addr);
  peer_address : option Ipv4Addr;
}.
Definition ipcp_new : Ipcp := MkIpcp None None None.
Definition set_host_ip (np : Ipcp) (new_ip : Ipv4Addr) : Ipcp :=
  MkIpcp (Some new_ip) (Some (host_address np)) (peer_address np).
Definition get_host_addr_update (np : Ipcp) : run (Ipcp * option (option Ipv4Addr * Ipv4Addr)) :=
  match prev_host_address np with
  | Some addr => h ← unwrap (host_address np); Val (MkIpcp (host_address np) None (peer_address np), Some (addr, h))
  | None => Val (np, None)
  end.
Definition peer_addr (np : Ipcp) : option Ipv4Addr := peer_address np.

Definition ipcp_nak_opt (np : Ipcp) (o : ipcp.IpcpOpt) : Ipcp * bool :=
  match o with
  | ipcp.IpCompressionProtocol _ _ => (np, false)
  | ipcp.IpAddress ip_addr => (set_host_ip np ip_addr, true)
  end.
Definition ipcp_judge (np : Ipcp) (o : ipcp.IpcpOpt) (buf : list Z) : Ipcp * Verdict :=
  match o with
  | ipcp.IpCompressionProtocol _ _ => (np, Rej buf)
  | ipcp.IpAddress ip_addr => (MkIpcp (host_address np) (prev_host_address np) (Some ip_addr), Ack)
  end.
Definition ipcp_get_opts (np : Ipcp) : list Z := [3; 6] ++ octets (default (MkIpv4 0 0 0 0) (host_address np)).

#[export] Instance Ipcp_protocol : ControlProtocol Ipcp := {|
  PROTOCOL := PROTO_IPCP;
  Opt := ipcp.IpcpOpt;
  opt_from_bytes := ipcp_from_bytes;
  received_nak_opt := ipcp_nak_opt;
  received_unknown_code _ _ _ _ := Val [];
  judge := ipcp_judge;
  get_opts := ipcp_get_opts;
|}.
End PppControl.
Export PppControl.

(** ** Frames of packets *)

Section frames.
Context {CP : Type} `{ControlProtocol CP}.
Implicit Types (a : ControlAutomaton CP) (p : Packet).

(** The bytes of a packet. *)
Definition packet_bytes (code id : Z) (data : list Z) : list Z :=
  [code; id] ++ u16_to_be_bytes (4 + Z.of_nat (length data)) ++ data.

Lemma send_parts_build code id data len :
  send_parts code id data len = build_frame PROTOCOL ([code; id] :: u16_to_be_bytes (wrap 16 len) :: data).
Proof.
  unfold send_parts, build_frame. cbn [foldl].
  destruct (begin_ppp buffer_new PROTOCOL) as [b|]; [rewrite !run_bind_Val|done].
  destruct (buffer_write b [code; id]) as [b1|]; [rewrite !run_bind_Val|].
  - destruct (buffer_write b1 (u16_to_be_bytes (wrap 16 len))); [by rewrite !run_bind_Val|].
    by rewrite fold_write_Panic.
  - change (Panic ≫= fun b => buffer_write b (u16_to_be_bytes (wrap 16 len))) with (@Panic Buffer).
    by rewrite fold_write_Panic.
Qed.

(** A reply of up to 1495 bytes of data goes out as one frame. *)
Lemma send_parts_spec code id data len :
  len = 4 + Z.of_nat (length (concat data)) -> (length (concat data) <= 1495)%nat ->
  exists b, send_parts code id data len = Val b /\
    carries b (ppp_frame PROTOCOL (packet_bytes code id (concat data))).
Proof.
  intros -> Hl. rewrite send_parts_build.
  pose proof (build_frame_spec PROTOCOL ([code; id] :: u16_to_be_bytes (wrap 16 (4 + Z.of_nat (length (concat data)))) :: data)) as Hb.
  cbn [concat] in Hb. rewrite decide_True in Hb.
  - destruct Hb as (b & -> & Hh). exists b. split; [done|]. unfold packet_bytes.
    rewrite wrap_id in Hh by (unfold fits; lia). done.
  - rewrite !length_app. unfold u16_to_be_bytes. rewrite length_be_bytes. cbn [length]. lia.
Qed.

(** The peer decodes the packet that was sent. *)
Lemma decode_packet_bytes a p :
  (length (pkt_data p) <= 1495)%nat ->
  decode_packet a (packet_bytes (code_to_u8 (pkt_code p)) (pkt_id p) (pkt_data p)) = Val (Some p, []).
Proof.
  intros Hl. unfold decode_packet, packet_bytes.
  assert (u16 (4 + Z.of_nat (length (pkt_data p)))) as Hf by (unfold fits; lia).
  pose proof (u16_be_roundtrip _ Hf) as Hr. set (n := 4 + Z.of_nat (length (pkt_data p))) in *.
  destruct (u16_to_be_bytes n) as [|n0 [|n1 [|]]] eqn:Hn; try done.
  cbn [app]. rewrite bool_decide_false by (cbn [length]; lia).
  unfold slice_get. cbn [lookup list_lookup unwrap]. rewrite !run_bind_Val, Hr.
  replace (n =? Z.of_nat (length (code_to_u8 (pkt_code p) :: pkt_id p :: n0 :: n1 :: pkt_data p))) with true
    by (symmetry; apply Z.eqb_eq; unfold n; cbn [length]; lia).
  cbn [negb]. assert (code_try_from (code_to_u8 (pkt_code p)) = Ok (pkt_code p)) as -> by (by destruct (pkt_code p)).
  by destruct p.
Qed.
End frames.
