(* ===== verification/PppNegotiate.v ===== *)
(** What the control automaton of [device/antimony/src/net/control.rs] answers
    and where it goes, beside the state table of RFC 1661. *)
From S2P Require Import Prelude Words Hdlc PppControl.

(** ** Options that fit *)

(** An option with its type and data, as bytes, and a list of them. *)
Definition option_bytes (o : Z * list Z) : list Z := fst o :: Z.of_nat (length (snd o) + 2) :: snd o.
Definition options_of (os : list (Z * list Z)) : list Z := os ≫= option_bytes.

Section options.
Context {CP : Type} `{ControlProtocol CP}.
Implicit Types (np : CP) (os : list (Z * list Z)) (rs : list (option Opt)).

(** How the options are understood; none makes the reader panic. *)
Definition understood os rs : Prop := Forall2 (fun o r => opt_from_bytes (fst o) (snd o) = Val r) os rs.

(** The verdicts in order, an option that is not understood is rejected. *)
Fixpoint judge_all np os rs : CP * list Verdict :=
  match os, rs with
  | o :: os, Some opt :: rs =>
    let '(np, v) := judge np opt (option_bytes o) in
    let '(np, vs) := judge_all np os rs in (np, v :: vs)
  | o :: os, None :: rs =>
    let '(np, vs) := judge_all np os rs in (np, Rej (option_bytes o) :: vs)
  | _, _ => (np, [])
  end.

Lemma options_next_at pre o post r index :
  index = length pre -> opt_from_bytes (fst o) (snd o) = Val r ->
  options_next (pre ++ option_bytes o ++ post) index =
  Val (Some (match r with Some opt => Ok (opt, option_bytes o) | None => Err (option_bytes o) end,
       (index + length (option_bytes o))%nat)).
Proof.
  intros -> Hr. destruct o as [ty data]. unfold option_bytes. cbn [fst snd] in *. unfold options_next.
  set (buf := pre ++ (ty :: Z.of_nat (length data + 2) :: data) ++ post).
  assert (length buf = length pre + 2 + length data + length post)%nat as Hl
    by (unfold buf; rewrite !length_app; cbn [length]; lia).
  rewrite bool_decide_false by lia.
  assert (buf !! length pre = Some ty) as H0 by (unfold buf; by rewrite lookup_app_r, Nat.sub_diag).
  assert (buf !! (length pre + 1)%nat = Some (Z.of_nat (length data + 2))) as H1.
  { unfold buf. rewrite lookup_app_r by lia. by replace (length pre + 1 - length pre)%nat with 1%nat by lia. }
  rewrite (slice_get_Val _ _ _ H0), run_bind_Val, (slice_get_Val _ _ _ H1), run_bind_Val, Nat2Z.id.
  rewrite bool_decide_false by lia.
  pose proof (slice_middle (pre ++ [ty; Z.of_nat (length data + 2)]) data post (length pre + 2)
    (length pre + (length data + 2))) as Hd.
  pose proof (slice_middle pre (ty :: Z.of_nat (length data + 2) :: data) post (length pre)
    (length pre + (length data + 2))) as Ho.
  rewrite <- app_assoc in Hd. change (pre ++ [ty; Z.of_nat (length data + 2)] ++ data ++ post) with buf in Hd.
  fold buf in Ho.
  rewrite Hd, run_bind_Val by (rewrite ?length_app; cbn [length]; lia).
  rewrite Ho, run_bind_Val by (cbn [length]; lia).
  rewrite Hr, run_bind_Val. cbn [length]. by replace (length data + 2)%nat with (S (S (length data))) by lia.
Qed.

(** The verdicts on all options of a request. *)
Lemma collect_verdicts_spec os rs fuel np pre acc :
  understood os rs -> (length os < fuel)%nat ->
  collect_verdicts fuel np (pre ++ options_of os) (length pre) acc =
  let '(np, vs) := judge_all np os rs in Val (np, Ok (acc ++ vs)).
Proof.
  intros Hu. revert fuel np pre acc. induction Hu as [|o r os rs Ho Hu IH]; intros fuel np pre acc Hf;
    (destruct fuel as [|fuel]; [lia|]); cbn [collect_verdicts].
  - unfold options_next. rewrite bool_decide_true by (cbn; rewrite app_nil_r; lia).
    cbn. by rewrite app_nil_r.
  - cbn [length] in Hf. change (options_of (o :: os)) with (option_bytes o ++ options_of os).
    rewrite (options_next_at pre o (options_of os) r) by done. rewrite run_bind_Val.
    rewrite app_assoc, <- length_app. cbn [judge_all]. destruct r as [opt|].
    + destruct (judge np opt (option_bytes o)) as [np1 v]. rewrite IH by lia.
      destruct (judge_all np1 os rs) as [np2 vs]. by rewrite <- app_assoc.
    + unfold option_bytes at 2. cbn iota. fold (option_bytes o). rewrite IH by lia.
      destruct (judge_all np os rs) as [np2 vs]. by rewrite <- app_assoc.
Qed.

Lemma length_options_of os : (2 * length os <= length (options_of os))%nat.
Proof.
  induction os as [|o os IH]; [done|]. change (options_of (o :: os)) with (option_bytes o ++ options_of os).
  rewrite length_app. unfold option_bytes. cbn [length]. lia.
Qed.
End options.

(** ** The state table of RFC 1661 *)

(** What a packet is to the automaton: a request with options that are all
    acceptable, or not; an acknowledgement; a refusal; ... *)
Inductive event : Type :=
  | RCR_good
  | RCR_bad
  | RCA
  | RCN
  | RTR
  | RTA
  | RXJ.

(** The next state of section 4.1, with the states in which the link is down or
    being closed taken as one. *)
Definition rfc1661 (s : ControlState) (e : event) : ControlState :=
  match s, e with
  | Closed, _ => Closed
  | ReqSent, RCR_good => AckSent
  | ReqSent, RCA => AckReceived
  | ReqSent, _ => ReqSent
  | AckReceived, RCR_good => Opened
  | AckReceived, RCR_bad => AckReceived
  | AckReceived, _ => ReqSent
  | AckSent, RCR_good => AckSent
  | AckSent, (RCR_bad | RTR) => ReqSent
  | AckSent, RCA => Opened
  | AckSent, (RCN | RTA | RXJ) => AckSent
  | Opened, RCR_good => AckSent
  | Opened, (RTR) => Closed
  | Opened, RXJ => Opened
  | Opened, _ => ReqSent
  end.

(** Where the program stays in its state against the table: a refusal, a
    Terminate-Ack or a Code-Reject behind a Configure-Ack, and a request whose
    identifier is that of the last one. *)
Definition deviates (s : ControlState) (e : event) (repeated : bool) : bool :=
  match s, e with
  | AckReceived, (RCN | RTA | RXJ) => true
  | Opened, (RCN | RTA) => true
  | Opened, (RCR_good | RCR_bad) => repeated
  | _, _ => false
  end.

Section table.
Context {CP : Type} `{ControlProtocol CP}.
Implicit Types (a : ControlAutomaton CP) (p : Packet).

Definition event_of a p : run event :=
  match pkt_code p with
  | ConfReq =>
    '(_, ack, _) ← received_configure_request a p;
    Val (if (ack : bool) then RCR_good else RCR_bad)
  | ConfAck => Val RCA
  | ConfNak | ConfRej => Val RCN
  | TermReq => Val RTR
  | TermAck => Val RTA
  | CodeRej => Val RXJ
  end.
Definition repeated a p : bool := bool_decide (last_req_id a = Some (pkt_id p)).

Lemma send_configure_request_state a a' out :
  send_configure_request a = Val (a', out) -> state a' = state a /\ inner a' = inner a.
Proof. unfold send_configure_request. cbn. intros (b & _ & [= <- _])%run_bind_inv. done. Qed.

Lemma received_configure_request_state a p a' ack out :
  received_configure_request a p = Val (a', ack, out) ->
  state a' = state a /\ last_req_id a' = last_req_id a /\ scr_id a' = scr_id a.
Proof.
  unfold received_configure_request. intros ([np vs] & _ & Hr)%run_bind_inv.
  destruct vs as [vs|]; [|by injection Hr as <- _ _].
  repeat case_match; apply run_bind_inv in Hr as (b & _ & [= <- _ _]); done.
Qed.

Lemma received_state fuel a p a' out e :
  received_packet fuel a p = Val (Some (a', out)) -> event_of a p = Val e ->
  state a' = if deviates (state a) e (repeated a p) then state a else rfc1661 (state a) e.
Proof.
  unfold received_packet, event_of, repeated. intros Hr He.
  destruct (pkt_code p).
  - apply run_bind_inv in He as ([[a1 ack] o1] & Hrc & [= <-]).
    destruct (received_configure_request_state _ _ _ _ _ Hrc) as (Hs1 & Hl1 & _).
    destruct (state a) eqn:Hs; [apply run_bind_inv in Hr as (b & _ & [= <- _]); rewrite Hs; by destruct ack| | | |];
      rewrite Hrc, run_bind_Val in Hr;
      apply run_bind_inv in Hr as ([a2 o2] & Hr & [= <- _]); cbn [set_last_req_id state]; rewrite <- Hl1;
      destruct ack; cbn [deviates rfc1661]; try (injection Hr as <- _; done);
      (case_bool_decide; cbn [negb] in Hr; [by injection Hr as <- _|]);
      apply run_bind_inv in Hr as ([a3 o3] & Hr%send_configure_request_state & [= <- _]); apply Hr.
  - injection He as <-. destruct (state a) eqn:Hs; cbn [deviates rfc1661];
      [apply run_bind_inv in Hr as (b & _ & [= <- _]); done|by injection Hr as <- _| |by injection Hr as <- _|];
      apply run_bind_inv in Hr as ([a3 o3] & Hr%send_configure_request_state & [= <- _]); apply Hr.
  - injection He as <-. destruct (state a) eqn:Hs; cbn [deviates rfc1661];
      [apply run_bind_inv in Hr as (b & _ & [= <- _]); done| | | |];
      apply run_bind_inv in Hr as ([[np ok]|] & _ & Hr); try done;
      destruct ok; try (injection Hr as <- _; done);
      apply run_bind_inv in Hr as ([a3 o3] & Hr%send_configure_request_state & [= <- _]);
      rewrite (proj1 Hr); done.
  - injection He as <-. destruct (state a) eqn:Hs; cbn [deviates rfc1661];
      [apply run_bind_inv in Hr as (b & _ & [= <- _]); done|by injection Hr as <- _..].
  - injection He as <-. destruct (state a) eqn:Hs; cbn [deviates rfc1661];
      apply run_bind_inv in Hr as (b & _ & [= <- _]); done.
  - injection He as <-. destruct (state a) eqn:Hs; cbn [deviates rfc1661];
      [apply run_bind_inv in Hr as (b & _ & [= <- _]); done|by injection Hr as <- _..].
  - injection He as <-. destruct (state a) eqn:Hs; cbn [deviates rfc1661];
      [apply run_bind_inv in Hr as (b & _ & [= <- _]); done|by injection Hr as <- _..].
Qed.
End table.

(** ** Answers *)

(** What the automaton relies on: no answer to an option is longer than the
    option, and the request fits a frame. *)
Class ControlLaws (CP : Type) `{ControlProtocol CP} : Prop := {
  reply_short np ty data o np' v :
    opt_from_bytes ty data = Val (Some o) ->
    judge np o (option_bytes (ty, data)) = (np', Nak v) \/ judge np o (option_bytes (ty, data)) = (np', Rej v) ->
    (length v <= length (option_bytes (ty, data)))%nat;
  get_opts_short np : (length (get_opts np) <= 1495)%nat;
}.

Lemma lcp_from_bytes_length ty data o :
  lcp_from_bytes ty data = Val (Some o) ->
  match o with lcp.Mru _ => length data = 2%nat | lcp.Accm _ => length data = 4%nat | _ => True end.
Proof.
  unfold lcp_from_bytes. intros Ho. destruct o; try done;
    repeat (case_match; try done); repeat (case_bool_decide; cbn [negb] in *; try done; try lia);
    repeat (apply run_bind_inv in Ho as (? & _ & Ho)); try done; lia.
Qed.

#[export] Instance Lcp_laws : ControlLaws Lcp.
Proof.
  split; [|intros; cbn; lia]. intros np ty data o np' v Ho Hv. apply lcp_from_bytes_length in Ho.
  cbn [judge Lcp_protocol] in Hv.
  assert (4 <= length (option_bytes (ty, data)) /\ length v = 4 \/ v = option_bytes (ty, data))%nat
    as [[? ->]| ->]; [|lia|done].
  unfold option_bytes in *. cbn [fst snd length] in *.
  destruct o; cbn [lcp_judge] in Hv; destruct Hv as [Hv|Hv]; repeat case_match; simplify_eq; cbn; auto; left; lia.
Qed.

#[export] Instance Ipcp_laws : ControlLaws Ipcp.
Proof.
  split; [|intros; cbn; lia]. intros np ty data o np' v _ Hv. destruct o, Hv as [Hv|Hv]; cbn in Hv; simplify_eq; lia.
Qed.

Section answers.
Context {CP : Type} `{ControlLaws CP}.
Implicit Types (a : ControlAutomaton CP) (p : Packet) (np : CP).

(** The reply to a request with the verdicts [vs]: its code and data. *)
Definition reply_to (data : list Z) (vs : list Verdict) : Code * list Z :=
  if existsb is_reject vs then (ConfRej, concat (omap as_reject vs))
  else if existsb is_nak vs then (ConfNak, concat (omap as_nak vs))
  else (ConfAck, data).

Lemma replies_short os rs np np' vs :
  understood os rs -> judge_all np os rs = (np', vs) ->
  (length (concat (omap as_reject vs)) <= length (options_of os))%nat /\
  (length (concat (omap as_nak vs)) <= length (options_of os))%nat.
Proof.
  intros Hu. revert np vs. induction Hu as [|[ty data] r os rs Ho Hu IH]; intros np vs Hj.
  - injection Hj as <- <-. done.
  - change (options_of ((ty, data) :: os)) with (option_bytes (ty, data) ++ options_of os).
    rewrite length_app. cbn [judge_all] in Hj.
    assert (exists v np1 vs1, vs = v :: vs1 /\ judge_all np1 os rs = (np', vs1) /\
      forall w, v = Nak w \/ v = Rej w -> (length w <= length (option_bytes (ty, data)))%nat)
      as (v & np1 & vs1 & -> & Hj1 & Hw).
    { destruct r as [opt|].
      - destruct (judge np opt (option_bytes (ty, data))) as [np1 v] eqn:Hv.
        destruct (judge_all np1 os rs) as [np2 vs2] eqn:Hj1. injection Hj as <- <-.
        exists v, np1, vs2. split_and!; [done|done|].
        intros w Hw. apply (reply_short np ty data opt np1 w Ho). rewrite Hv.
        destruct Hw as [-> | ->]; [by left|by right].
      - destruct (judge_all np os rs) as [np2 vs2] eqn:Hj1. injection Hj as <- <-.
        eexists _, np, vs2. split_and!; [done|done|]. intros w [?|[= <-]]; [done|lia]. }
    destruct (IH np1 vs1 Hj1) as [IH1 IH2]. destruct v as [|w|w]; cbn [omap list_omap as_reject as_nak concat];
      rewrite ?length_app; try (specialize (Hw w ltac:(auto))); lia.
Qed.

Lemma sum_lengths_spec (l : list (list Z)) :
  Z.of_nat (length (concat l)) < 2 ^ 16 -> sum_lengths l = Z.of_nat (length (concat l)).
Proof.
  unfold sum_lengths. assert (forall acc, 0 <= acc -> acc + Z.of_nat (length (concat l)) < 2 ^ 16 ->
    foldl (fun acc v => wrap 16 (acc + wrap 16 (Z.of_nat (length v)))) acc l = acc + Z.of_nat (length (concat l))) as Hf.
  { induction l as [|v l IH]; intros acc Ha Hl; cbn [foldl concat length] in *; [lia|].
    rewrite length_app in *. rewrite (wrap_id 16 (Z.of_nat _)), wrap_id by (unfold fits; lia).
    rewrite IH by lia. lia. }
  intros Hl. rewrite Hf by lia. lia.
Qed.

Lemma request_answer a id os rs :
  understood os rs -> (length (options_of os) <= 1495)%nat ->
  let '(np, vs) := judge_all (inner a) os rs in
  let '(code, data) := reply_to (options_of os) vs in
  exists b, received_configure_request a (MkPacket ConfReq id (options_of os)) =
      Val (set_inner np a, bool_decide (code = ConfAck), [b]) /\
    carries b (ppp_frame PROTOCOL (packet_bytes (code_to_u8 code) id data)).
Proof.
  intros Hu Hl. destruct (judge_all (inner a) os rs) as [np vs] eqn:Hj.
  destruct (replies_short os rs _ _ _ Hu Hj) as [Hr1 Hr2].
  unfold received_configure_request. cbn [pkt_data pkt_id].
  pose proof (length_options_of os) as Hlen.
  pose proof (collect_verdicts_spec os rs (S (length (options_of os))) (inner a) [] [] Hu ltac:(lia)) as Hc.
  cbn [app length] in Hc. rewrite Hj in Hc. rewrite Hc, run_bind_Val. unfold reply_to.
  destruct (existsb is_reject vs); [|destruct (existsb is_nak vs)].
  - destruct (send_parts_spec (code_to_u8 ConfRej) id (omap as_reject vs) (4 + sum_lengths (omap as_reject vs)))
      as (b & Hb & Hh); [rewrite sum_lengths_spec by lia; lia|lia|].
    exists b. unfold send_configure_reject. by rewrite Hb, run_bind_Val.
  - destruct (send_parts_spec (code_to_u8 ConfNak) id (omap as_nak vs) (4 + sum_lengths (omap as_nak vs)))
      as (b & Hb & Hh); [rewrite sum_lengths_spec by lia; lia|lia|].
    exists b. unfold send_configure_nak. by rewrite Hb, run_bind_Val.
  - destruct (send_parts_spec (code_to_u8 ConfAck) id [options_of os] (4 + Z.of_nat (length (options_of os))))
      as (b & Hb & Hh); [cbn; rewrite app_nil_r; lia|cbn; rewrite app_nil_r; lia|].
    exists b. unfold send_configure_ack, send. cbn [pkt_code pkt_id pkt_data].
    rewrite Hb, run_bind_Val. cbn [concat] in Hh. by rewrite app_nil_r in Hh.
Qed.

Lemma send_configure_request_total a :
  exists b, send_configure_request a = Val (snd (next_scr_id a), [b]) /\
    carries b (ppp_frame PROTOCOL (packet_bytes (code_to_u8 ConfReq) (scr_id a) (get_opts (inner a)))).
Proof.
  unfold send_configure_request, send, next_scr_id. cbn [pkt_code pkt_id pkt_data].
  destruct (send_parts_spec (code_to_u8 ConfReq) (scr_id a) [get_opts (inner a)]
    (4 + Z.of_nat (length (get_opts (inner a))))) as (b & -> & Hh);
    [cbn; rewrite app_nil_r; lia|cbn; rewrite app_nil_r; apply get_opts_short|].
  exists b. split; [done|]. cbn [concat] in Hh. by rewrite app_nil_r in Hh.
Qed.
Lemma send_terminate_ack_total id : exists b, send_terminate_ack id = Val b.
Proof.
  destruct (send_parts_spec (code_to_u8 TermAck) id [[]] 4) as (b & Hb & _); [done|cbn; lia|]. by exists b.
Qed.

(** The loop over the options of a refusal ends, and takes each of them. *)
Fixpoint nak_all np (rs : list (option Opt)) : CP * bool :=
  match rs with
  | Some opt :: rs => let '(np, ok) := received_nak_opt np opt in let '(np, oks) := nak_all np rs in (np, ok && oks)
  | None :: rs => nak_all np rs
  | [] => (np, true)
  end.
Lemma nak_loop_spec os rs fuel np pre post (ok : bool) :
  understood os rs ->
  nak_loop (length os + fuel) np (pre ++ options_of os ++ post) (length pre) ok =
  let '(np, oks) := nak_all np rs in
  nak_loop fuel np (pre ++ options_of os ++ post) (length (pre ++ options_of os)) (ok && oks).
Proof.
  intros Hu. revert np pre ok. induction Hu as [|o r os rs Ho Hu IH]; intros np pre ok.
  - cbn [nak_all length Nat.add]. by rewrite andb_true_r, app_nil_r.
  - change (options_of (o :: os)) with (option_bytes o ++ options_of os). rewrite <- app_assoc.
    cbn [length Nat.add nak_loop]. rewrite (options_next_at pre o _ r) by done. rewrite run_bind_Val.
    rewrite !app_assoc, <- (app_assoc _ (options_of os)), <- length_app. cbn [nak_all]. destruct r as [opt|].
    + destruct (received_nak_opt np opt) as [np1 okk]. rewrite IH.
      destruct (nak_all np1 rs) as [np2 oks]. by destruct ok, okk.
    + apply IH.
Qed.
(** Less fuel is not enough if more is not. *)
Lemma nak_loop_more n fuel np buf index (ok : bool) :
  nak_loop (n + fuel) np buf index ok = Val None -> nak_loop fuel np buf index ok = Val None.
Proof.
  revert np index ok. induction fuel as [|fuel IH]; intros np index ok Hn; [done|].
  rewrite Nat.add_succ_r in Hn. cbn [nak_loop] in *.
  destruct (options_next buf index) as [[[[[opt s]|s] i]|]|]; cbn [mbind run_bind] in *; try done.
  - destruct (received_nak_opt np opt) as [np1 ok1]. by apply IH.
  - by apply IH.
Qed.
End answers.

(** [received_packet] gives a result on every packet with well-formed options. *)
Lemma received_packet_total {CP : Type} `{ControlLaws CP} fuel (a : ControlAutomaton CP) p os rs :
  pkt_data p = options_of os -> understood os rs -> (length (pkt_data p) <= 1495)%nat ->
  (length (pkt_data p) < fuel)%nat ->
  exists a' out, received_packet fuel a p = Val (Some (a', out)).
Proof.
  intros Hd Hu Hl Hf.
  destruct p as [code id data]. cbn [pkt_code pkt_id pkt_data] in *. subst data.
  unfold received_packet. cbn [pkt_code pkt_id pkt_data].
  destruct (send_terminate_ack_total id) as [bt Hbt]. rewrite Hbt.
  pose proof (request_answer a id os rs Hu Hl) as Hreq.
  destruct (judge_all (inner a) os rs) as [np vs]. destruct (reply_to (options_of os) vs) as [rc rd].
  destruct Hreq as (b & Hreq & _).
  assert (forall a' (f : _ -> run (option (ControlAutomaton CP * list Buffer))),
    (forall r, exists a' out, f r = Val (Some (a', out))) ->
    exists a2 out, (send_configure_request a' ≫= f) = Val (Some (a2, out))) as Hscr.
  { intros a' f Hf'. destruct (send_configure_request_total a') as (bs & -> & _). apply Hf'. }
  assert (exists r, nak_loop fuel (inner a) (options_of os) 0 true = Val (Some r)) as ([np' ok] & Hnak).
  { pose proof (length_options_of os) as Hlen.
    pose proof (nak_loop_spec os rs (fuel - length os) (inner a) [] [] true Hu) as Hn.
    replace (length os + (fuel - length os))%nat with fuel in Hn by lia. rewrite app_nil_r in Hn.
    cbn [app length] in Hn. rewrite Hn. destruct (nak_all (inner a) rs) as [np' oks].
    destruct (fuel - length os)%nat as [|f] eqn:Hfu; [lia|]. cbn [nak_loop].
    unfold options_next. rewrite bool_decide_true by lia. rewrite run_bind_Val. eauto. }
  assert (forall r : ControlAutomaton CP * list Buffer, exists a' out, Val (Some r) = Val (Some (a', out))) as Hret
    by (intros [? ?]; eauto).
  destruct (state a), code; rewrite ?Hreq, ?Hnak, ?run_bind_Val; try (by eexists _, _);
    try (destruct ok; [|by eexists _, _]); try (apply Hscr, Hret);
    (destruct (bool_decide (rc = ConfAck)); rewrite ?run_bind_Val; try (by eexists _, _);
     case_bool_decide; cbn [negb]; rewrite ?run_bind_Val; try (by eexists _, _)).
  all: match goal with |- context[send_configure_request ?a'] =>
    destruct (send_configure_request_total a') as (bs & -> & _) end.
  all: by eexists _, _.
Qed.

(** A packet on its way: where it takes the automaton. *)
Lemma received_moves {CP : Type} `{ControlLaws CP} fuel (a : ControlAutomaton CP) p os rs e :
  pkt_data p = options_of os -> understood os rs -> (length (pkt_data p) <= 1495)%nat ->
  (length (pkt_data p) < fuel)%nat -> event_of a p = Val e ->
  exists a' out, received fuel a (packet_bytes (code_to_u8 (pkt_code p)) (pkt_id p) (pkt_data p)) = Val (Some (a', out)) /\
    state a' = if deviates (state a) e (repeated a p) then state a else rfc1661 (state a) e.
Proof.
  intros Hd Hu Hl Hf He. destruct (received_packet_total fuel a p os rs Hd Hu Hl Hf) as (a' & out & Hr).
  exists a', out. split.
  - unfold received. by rewrite decode_packet_bytes, run_bind_Val.
  - by apply (received_state fuel a p a' out e).
Qed.

(** ** The claims *)



(** A request whose options are all well-formed is answered at once, with one
    packet that carries its identifier: a rejection of exactly the options that
    are not supported, if there are any, else the values wanted for those that
    need others, else an acknowledgement with the options of the request. *)
Theorem configure_request_answered {CP : Type} `{ControlLaws CP} (a : ControlAutomaton CP) id os rs :
  understood os rs -> (length (options_of os) <= 1495)%nat ->
  let '(np, vs) := judge_all (inner a) os rs in
  let '(code, data) := reply_to (options_of os) vs in
  exists b, received_configure_request a (MkPacket ConfReq id (options_of os)) =
      Val (set_inner np a, bool_decide (code = ConfAck), [b]) /\
    carries b (ppp_frame PROTOCOL (packet_bytes (code_to_u8 code) id data)).
Proof. apply request_answer. Qed.

(** An MRU of 1500, a magic number and an unknown option: the last two come back. *)
Lemma configure_request_answered_witness :
  exists b, received_configure_request (control_new MkLcp)
      (MkPacket ConfReq 3 [1; 4; 5; 0xdc; 5; 6; 0; 0; 0; 9; 77; 3; 1]) =
      Val (control_new MkLcp, false, [b]) /\
    carries b (ppp_frame PROTO_LCP (packet_bytes 4 3 [5; 6; 0; 0; 0; 9; 77; 3; 1])).
Proof.
  apply (configure_request_answered (control_new MkLcp) 3 [(1, [5; 0xdc]); (5, [0; 0; 0; 9]); (77, [1])]
    ([Some (lcp.Mru 1500); Some (lcp.Magic 9); None] : list (option (@Opt Lcp Lcp_protocol)))).
  - repeat (apply Forall2_cons_2; [vm_compute; reflexivity|]). apply Forall2_nil_2.
  - cbn. lia.
Defined.



(** A refusal in which an option announces more bytes than are left makes
    [received] run forever: the iterator stays at the option and the loop
    ignores the error. *)
Theorem malformed_nak_hangs {CP : Type} `{ControlProtocol CP} fuel (a : ControlAutomaton CP) id os rs ty len rest :
  understood os rs -> state a <> Closed -> (length rest + 2 < Z.to_nat len)%nat ->
  received_packet fuel a (MkPacket ConfNak id (options_of os ++ ty :: len :: rest)) = Val None.
Proof.
  intros Hu Hs Hlen. set (buf := options_of os ++ ty :: len :: rest).
  assert (forall n np ok, nak_loop n np buf (length (options_of os)) ok = Val None) as Hstuck.
  { intros n. induction n as [|n IH]; intros np ok; [done|]. cbn [nak_loop]. unfold options_next at 1.
    rewrite bool_decide_false by (unfold buf; rewrite length_app; cbn [length]; lia).
    rewrite (slice_get_Val buf (length (options_of os)) ty), run_bind_Val
      by (unfold buf; rewrite lookup_app_r by lia; by rewrite Nat.sub_diag).
    rewrite (slice_get_Val buf (length (options_of os) + 1) len), run_bind_Val by (unfold buf; rewrite lookup_app_r by lia;
      by replace (length (options_of os) + 1 - length (options_of os))%nat with 1%nat by lia).
    rewrite bool_decide_true by (unfold buf; rewrite length_app; cbn [length]; lia). by rewrite run_bind_Val, IH. }
  assert (forall f, nak_loop f (inner a) buf 0 true = Val None) as Hall.
  { intros f. pose proof (nak_loop_spec os rs f (inner a) [] (ty :: len :: rest) true Hu) as Hn.
    cbn [app length] in Hn. fold buf in Hn. destruct (nak_all (inner a) rs) as [np oks]. rewrite Hstuck in Hn.
    by apply (nak_loop_more (length os)). }
  unfold received_packet. cbn [pkt_code pkt_data]. rewrite Hall, run_bind_Val. by destruct (state a).
Qed.

Lemma malformed_nak_hangs_witness :
  received_packet 1000 (MkControl ipcp_new ReqSent 1 None) (MkPacket ConfNak 0 [3; 6; 10; 0; 0; 2; 3; 6; 1]) = Val None.
Proof.
  apply (malformed_nak_hangs 1000 (MkControl ipcp_new ReqSent 1 None) 0 [(3, [10; 0; 0; 2])]
    ([Some (ipcp.IpAddress (MkIpv4 10 0 0 2))] : list (option (@Opt Ipcp Ipcp_protocol))) 3 6 [1]).
  - apply Forall2_cons_2; [reflexivity|apply Forall2_nil_2].
  - discriminate.
  - cbn. lia.
Defined.

(** A network layer whose address request was acknowledged and is then
    refused in favour of another address asks for that one, but stays in its
    state: the next acceptable request of the peer opens it, although the
    address it now has was never acknowledged. *)
Theorem unacknowledged_address (np : Ipcp) sid last id id2 fuel ip peer :
  (2 <= fuel)%nat ->
  let a := MkControl np AckReceived sid last in
  let opt ip := [3; 6] ++ octets ip in
  exists a1 out1 a2 out2,
    received_packet fuel a (MkPacket ConfNak id (opt ip)) = Val (Some (a1, out1)) /\
    received_packet fuel a1 (MkPacket ConfReq id2 (opt peer)) = Val (Some (a2, out2)) /\
    state a1 = AckReceived /\ state a2 = Opened /\ host_address (inner a2) = Some ip /\
    exists b, out1 = [b] /\ carries b (ppp_frame PROTO_IPCP (packet_bytes (code_to_u8 ConfReq) sid (opt ip))).
Proof.
  intros Hf a opt. assert (understood (CP := Ipcp) [(3, octets ip)] [Some (ipcp.IpAddress ip)]) as Hu.
  { apply Forall2_cons_2; [by destruct ip|apply Forall2_nil_2]. }
  assert (nak_loop fuel np (opt ip) 0 true = Val (Some (set_host_ip np ip, true))) as Hnak.
  { pose proof (nak_loop_spec _ _ (fuel - 1) np [] [] true Hu) as Hn. rewrite app_nil_r in Hn.
    change ([] ++ options_of [(3, octets ip)]) with (opt ip) in Hn. cbn [length] in Hn.
    replace (1 + (fuel - 1))%nat with fuel in Hn by lia. rewrite Hn.
    destruct (fuel - 1)%nat as [|f] eqn:Hfu; [lia|]. done. }
  set (a1 := MkControl (set_host_ip np ip) AckReceived (wrap 8 (sid + 1)) last).
  destruct (send_configure_request_total (set_inner (set_host_ip np ip) a)) as (b & Hb & Hh).
  assert (understood (CP := Ipcp) [(3, octets peer)] [Some (ipcp.IpAddress peer)]) as Hu2.
  { apply Forall2_cons_2; [by destruct peer|apply Forall2_nil_2]. }
  destruct (request_answer a1 id2 _ _ Hu2) as (b2 & Hb2 & _); [cbn; lia|].
  eexists a1, [b], _, [b2]. split_and!.
  - unfold received_packet. cbn [state a pkt_code pkt_data inner]. rewrite Hnak, run_bind_Val.
    cbn zeta iota. rewrite Hb. done.
  - unfold received_packet. cbn [state a1 pkt_code]. 
    change (opt peer) with (options_of [(3, octets peer)]). rewrite Hb2, run_bind_Val. reflexivity.
  - done.
  - done.
  - done.
  - exists b. split; [done|exact Hh].
Qed.

Lemma unacknowledged_address_witness :
  exists a1 out1 a2 out2,
    received_packet 2 (MkControl ipcp_new AckReceived 1 None) (MkPacket ConfNak 0 [3; 6; 10; 0; 0; 2]) =
      Val (Some (a1, out1)) /\
    received_packet 2 a1 (MkPacket ConfReq 5 [3; 6; 10; 0; 0; 1]) = Val (Some (a2, out2)) /\
    state a1 = AckReceived /\ state a2 = Opened /\ host_address (inner a2) = Some (MkIpv4 10 0 0 2) /\
    exists b, out1 = [b] /\ carries b (ppp_frame PROTO_IPCP (packet_bytes 1 1 [3; 6; 10; 0; 0; 2])).
Proof. apply (unacknowledged_address ipcp_new 1 None 0 5 2 (MkIpv4 10 0 0 2) (MkIpv4 10 0 0 1)). lia. Defined.

