(* ===== verification/PppNet.v ===== *)
(** The PPP layer of [device/antimony/src/net.rs]: [PppInner], which holds both
    control automata and the queues of IP packets, and what the main loop does
    with a received frame.  The TCP/IP stack above it is a third-party
    library; it appears as the packets that are put into [ip_xmit_queue] and taken
    from [ip_recv_queue].  Its client, the HTTP server, is in [NetRun]. *)
From S2P Require Import Prelude Words Hdlc PppControl PppNegotiate.

Module PppNet.

Record PppInner : Type := MkPppInner {
  ppp_lcp : ControlAutomaton Lcp;
  ppp_ipcp : ControlAutomaton Ipcp;
  ip_recv_queue : list (list Z);
  ip_xmit_queue : list (list Z);
}.
Definition ppp_new : PppInner := MkPppInner (control_new MkLcp) (control_new ipcp_new) [] [].
Definition set_lcp (l : ControlAutomaton Lcp) (s : PppInner) : PppInner :=
  MkPppInner l (ppp_ipcp s) (ip_recv_queue s) (ip_xmit_queue s).
Definition set_ipcp (i : ControlAutomaton Ipcp) (s : PppInner) : PppInner :=
  MkPppInner (ppp_lcp s) i (ip_recv_queue s) (ip_xmit_queue s).

(** The frame of an IP packet. *)
Definition ip_frame (hd : list Z) : run Buffer :=
  b ← begin_ppp buffer_new PROTO_IP;
  b ← buffer_write b hd;
  finish_ppp b.
Fixpoint send_queue (q : list (list Z)) : run (list Buffer) :=
  match q with
  | [] => Val []
  | hd :: q => b ← ip_frame hd; bs ← send_queue q; Val (b :: bs)
  end.

Definition poll (s : PppInner) : run (PppInner * list Buffer) :=
  '(s, out1) ←
    (if is_closed (ppp_lcp s) then '(l, o) ← control_open (ppp_lcp s); Val (set_lcp l s, o) else Val (s, []));
  let s :=
    if negb (is_layer_up (ppp_lcp s)) && negb (is_closed (ppp_ipcp s))
    then set_ipcp (control_close (ppp_ipcp s)) s else s in
  '(s, out2) ←
    (if is_layer_up (ppp_lcp s) && is_closed (ppp_ipcp s)
     then '(i, o) ← control_open (ppp_ipcp s); Val (set_ipcp i s, o) else Val (s, []));
  if is_layer_up (ppp_ipcp s) then
    out3 ← send_queue (ip_xmit_queue s);
    Val (MkPppInner (ppp_lcp s) (ppp_ipcp s) (ip_recv_queue s) [], out1 ++ out2 ++ out3)
  else Val (s, out1 ++ out2).

Definition recv_lcp (fuel : nat) (packet : list Z) (s : PppInner) : run (option (PppInner * list Buffer)) :=
  r ← received fuel (ppp_lcp s) packet;
  Val (match r with Some (l, out) => Some (set_lcp l s, out) | None => None end).
Definition recv_ipcp (fuel : nat) (packet : list Z) (s : PppInner) : run (option (PppInner * list Buffer)) :=
  r ← received fuel (ppp_ipcp s) packet;
  Val (match r with Some (i, out) => Some (set_ipcp i s, out) | None => None end).
Definition recv_ip (packet : list Z) (s : PppInner) : PppInner :=
  MkPppInner (ppp_lcp s) (ppp_ipcp s) (ip_recv_queue s ++ [packet]) (ip_xmit_queue s).
Definition send_ip (packet : list Z) (s : PppInner) : PppInner :=
  MkPppInner (ppp_lcp s) (ppp_ipcp s) (ip_recv_queue s) (ip_xmit_queue s ++ [packet]).
Definition poll_ip (s : PppInner) : option (list Z) * PppInner :=
  match ip_recv_queue s with
  | [] => (None, s)
  | p :: q => (Some p, MkPppInner (ppp_lcp s) (ppp_ipcp s) q (ip_xmit_queue s))
  end.

(** The reply to a protocol that is not known. *)
Definition protocol_reject (lcp_rej_id protocol : Z) (packet : list Z) : run Buffer :=
  b ← begin_ppp buffer_new PROTO_LCP;
  b ← buffer_write b [8; lcp_rej_id];
  b ← buffer_write b (u16_to_be_bytes (wrap 16 (6 + wrap 16 (Z.of_nat (length packet)))));
  b ← buffer_write b (u16_to_be_bytes protocol);
  b ← buffer_write b packet;
  finish_ppp b.

(** A frame from the receive channel; [None] when a handler runs out of fuel. *)
Definition handle_frame (fuel : nat) (lcp_rej_id : Z) (hdlc_frame : list Z) (s : PppInner)
  : run (option (Z * PppInner * list Buffer)) :=
  r ← try_from_hdlc_frame hdlc_frame;
  match r with
  | Err _ => Val (Some (lcp_rej_id, s, []))
  | Ok ppp_frame =>
    protocol_bytes ← slice_range ppp_frame 0 2;
    let packet := drop 2 ppp_frame in
    let protocol := u16_from_be_bytes protocol_bytes in
    let keep r := match r with Some (s, out) => Some (lcp_rej_id, s, out) | None => None end in
    if protocol =? PROTO_LCP then r ← recv_lcp fuel packet s; Val (keep r)
    else if (protocol =? PROTO_IPCP) && is_layer_up (ppp_lcp s) then r ← recv_ipcp fuel packet s; Val (keep r)
    else if (protocol =? PROTO_IP) && is_layer_up (ppp_ipcp s) then Val (Some (lcp_rej_id, recv_ip packet s, []))
    else if is_layer_up (ppp_lcp s) then
      b ← protocol_reject lcp_rej_id protocol packet;
      Val (Some (wrap 8 (lcp_rej_id + 1), s, [b]))
    else Val (Some (lcp_rej_id, s, []))
  end.
End PppNet.
Export PppNet.

(** ** Frames *)

Section frames.
Implicit Types (s : PppInner) (packet : list Z).

(** What the main loop is given for a packet: the frame without its closing flag. *)
Definition received_frame (proto : Z) packet : list Z :=
  leader proto ++ packet ++
  u16_to_le_bytes (ppp_calc_fcs ([HDLC_ADDRESS; HDLC_CONTROL] ++ u16_to_be_bytes proto ++ packet)).

Lemma handle_frame_eval fuel rej proto packet s :
  u16 proto -> bytes packet ->
  handle_frame fuel rej (received_frame proto packet) s =
  let keep (r : option (PppInner * list Buffer)) := match r with Some (s, out) => Some (rej, s, out) | None => None end in
  if proto =? PROTO_LCP then r ← recv_lcp fuel packet s; Val (keep r)
  else if (proto =? PROTO_IPCP) && is_layer_up (ppp_lcp s) then r ← recv_ipcp fuel packet s; Val (keep r)
  else if (proto =? PROTO_IP) && is_layer_up (ppp_ipcp s) then Val (Some (rej, recv_ip packet s, []))
  else if is_layer_up (ppp_lcp s) then
    b ← protocol_reject rej proto packet; Val (Some (wrap 8 (rej + 1), s, [b]))
  else Val (Some (rej, s, [])).
Proof.
  intros Hp Hb. unfold handle_frame, received_frame. rewrite frame_accepted, run_bind_Val by done.
  assert (length (u16_to_be_bytes proto) = 2%nat) as H2 by done.
  pose proof (slice_middle [] (u16_to_be_bytes proto) packet 0 2 eq_refl ltac:(by rewrite H2)) as Hs.
  cbn [app] in Hs. rewrite Hs, run_bind_Val, u16_be_roundtrip by done.
  by rewrite drop_app_length' by done.
Qed.

Lemma ip_frame_build hd : ip_frame hd = build_frame PROTO_IP [hd].
Proof. done. Qed.

Lemma protocol_reject_build rej proto packet :
  protocol_reject rej proto packet =
  build_frame PROTO_LCP [[8; rej]; u16_to_be_bytes (wrap 16 (6 + wrap 16 (Z.of_nat (length packet))));
    u16_to_be_bytes proto; packet].
Proof.
  unfold protocol_reject, build_frame. cbn [foldl].
  destruct (begin_ppp buffer_new PROTO_LCP) as [b|]; [|done]. rewrite !run_bind_Val.
  do 4 (match goal with |- context[buffer_write ?b ?p] => destruct (buffer_write b p); [rewrite ?run_bind_Val|done] end).
  done.
Qed.

(** The queue goes out as one frame per packet. *)
Lemma send_queue_spec q :
  Forall (fun hd => (length hd < PPP_MRU)%nat) q ->
  exists bs, send_queue q = Val bs /\ Forall2 (fun b hd => carries b (ppp_frame PROTO_IP hd)) bs q.
Proof.
  intros Hq. induction Hq as [|hd q Hl Hq (bs & Hbs & Hh)]; [by exists []; split; [|apply Forall2_nil_2]|].
  cbn [send_queue]. pose proof (build_frame_spec PROTO_IP [hd]) as Hb. cbn [concat] in Hb.
  rewrite app_nil_r in Hb. unfold PPP_MRU in Hl. rewrite decide_True in Hb by lia. destruct Hb as (b & Hb & Hhb).
  rewrite ip_frame_build, Hb, run_bind_Val, Hbs, run_bind_Val.
  eexists. split; [done|]. by apply Forall2_cons_2.
Qed.
Lemma send_queue_long q hd :
  hd ∈ q -> (PPP_MRU <= length hd)%nat -> send_queue q = Panic.
Proof.
  intros Hin Hl. unfold PPP_MRU in Hl. induction q as [|h q IH]; [by apply elem_of_nil in Hin|].
  cbn [send_queue]. rewrite ip_frame_build. pose proof (build_frame_spec PROTO_IP [h]) as Hb. cbn [concat] in Hb.
  rewrite app_nil_r in Hb. apply elem_of_cons in Hin as [<-|Hin].
  - rewrite decide_False in Hb by lia. by rewrite Hb.
  - case_decide; [|by rewrite Hb]. destruct Hb as (b & -> & _). by rewrite run_bind_Val, IH.
Qed.
End frames.

(** ** Polling *)

Section polling.
Implicit Types (s : PppInner).

Lemma control_open_total {CP : Type} `{ControlLaws CP} (a : ControlAutomaton CP) :
  state a = Closed ->
  exists a' b, control_open a = Val (a', [b]) /\ state a' = ReqSent /\ inner a' = inner a /\
    carries b (ppp_frame PROTOCOL (packet_bytes (code_to_u8 ConfReq) (scr_id a) (get_opts (inner a)))).
Proof.
  intros Hs. unfold control_open, rust_assert. rewrite bool_decide_true, run_bind_Val by done.
  destruct (send_configure_request_total (set_state ReqSent a)) as (b & -> & Hh).
  by eexists _, b.
Qed.

Lemma is_closed_match {CP : Type} (a : ControlAutomaton CP) :
  is_closed a = match state a with Closed => true | _ => false end.
Proof. unfold is_closed. by destruct (state a). Qed.
Lemma is_layer_up_match {CP : Type} (a : ControlAutomaton CP) :
  is_layer_up a = match state a with Opened => true | _ => false end.
Proof. unfold is_layer_up. by destruct (state a). Qed.

(** Computes with the states of the layers. *)
Ltac layers :=
  repeat first [progress cbn [negb andb set_lcp set_ipcp ppp_lcp ppp_ipcp ip_recv_queue ip_xmit_queue control_close
      set_state state inner]
    |rewrite is_closed_match|rewrite is_layer_up_match].

(** What a poll does in each state of the layers. *)
Lemma poll_eval s :
  poll s =
  match state (ppp_lcp s), state (ppp_ipcp s) with
  | Closed, _ =>
    '(l, o) ← control_open (ppp_lcp s);
    Val (MkPppInner l (control_close (ppp_ipcp s)) (ip_recv_queue s) (ip_xmit_queue s), o)
  | Opened, Closed =>
    '(i, o) ← control_open (ppp_ipcp s); Val (set_ipcp i s, o)
  | Opened, Opened =>
    o ← send_queue (ip_xmit_queue s); Val (MkPppInner (ppp_lcp s) (ppp_ipcp s) (ip_recv_queue s) [], o)
  | Opened, _ => Val (s, [])
  | _, _ => Val (set_ipcp (control_close (ppp_ipcp s)) s, [])
  end.
Proof.
  destruct s as [[li ls lsc ll] [ii is_ isc il] rq xq]. unfold poll.
  destruct (control_open_total (MkControl li Closed lsc ll) eq_refl) as (l' & b & Hb & Hl' & _).
  destruct (control_open_total (MkControl ii Closed isc il) eq_refl) as (i' & b' & Hb' & Hi' & _).
  destruct ls; layers; rewrite ?Hb, ?run_bind_Val; layers; rewrite ?Hl'; layers;
    destruct is_; layers; rewrite ?Hl', ?Hb', ?run_bind_Val; layers; rewrite ?Hl', ?Hi', ?run_bind_Val; layers;
    by rewrite ?app_nil_r.
Qed.

(** The three layers of the link are consistent. *)
Definition layered s : Prop :=
  state (ppp_lcp s) <> Closed /\ (state (ppp_ipcp s) <> Closed -> state (ppp_lcp s) = Opened).

Lemma poll_total s :
  Forall (fun hd => (length hd < PPP_MRU)%nat) (ip_xmit_queue s) ->
  exists s' out, poll s = Val (s', out) /\ layered s' /\ ip_recv_queue s' = ip_recv_queue s /\
    (if is_layer_up (ppp_lcp s) && is_layer_up (ppp_ipcp s)
     then ip_xmit_queue s' = [] /\ Forall2 (fun b hd => carries b (ppp_frame PROTO_IP hd)) out (ip_xmit_queue s)
     else ip_xmit_queue s' = ip_xmit_queue s).
Proof.
  intros Hq. destruct (send_queue_spec _ Hq) as (bs & Hbs & Hh).
  rewrite poll_eval, !is_layer_up_match. unfold layered.
  destruct (state (ppp_lcp s)) eqn:Hl.
  1: { destruct (control_open_total (ppp_lcp s) Hl) as (l' & b & -> & Hl' & _). rewrite run_bind_Val.
    eexists _, _. split; [done|]. cbn. rewrite Hl'. done. }
  1-3: eexists _, _; (split; [done|]); cbn; rewrite Hl; done.
  destruct (state (ppp_ipcp s)) eqn:Hi.
  1: { destruct (control_open_total (ppp_ipcp s) Hi) as (i' & b & -> & Hi' & _). rewrite run_bind_Val.
    eexists _, _. split; [done|]. cbn. rewrite Hl. done. }
  1-3: eexists _, _; (split; [done|]); rewrite Hl; done.
  rewrite Hbs, run_bind_Val. eexists _, _. split; [done|]. cbn. rewrite Hl. done.
Qed.
End polling.

(** ** Bringing the link up *)

(** What the main loop does, one turn after the other. *)
Inductive net_event : Type :=
  | NPoll
  | NFrame (hdlc_frame : list Z).
Definition net_step (fuel : nat) (rej : Z) (e : net_event) (s : PppInner) : run (option (Z * PppInner * list Buffer)) :=
  match e with
  | NPoll => '(s, out) ← poll s; Val (Some (rej, s, out))
  | NFrame f => handle_frame fuel rej f s
  end.
Fixpoint net_run (fuel : nat) (rej : Z) (es : list net_event) (s : PppInner)
  : run (option (Z * PppInner * list Buffer)) :=
  match es with
  | [] => Val (Some (rej, s, []))
  | e :: es =>
    r ← net_step fuel rej e s;
    match r with
    | None => Val None
    | Some (rej, s, out) =>
      r ← net_run fuel rej es s;
      Val (match r with Some (rej, s, out') => Some (rej, s, out ++ out') | None => None end)
    end
  end.

Section bringing_up.
Implicit Types (s : PppInner).

Lemma net_run_step fuel rej e es s s1 out1 P :
  net_step fuel rej e s = Val (Some (rej, s1, out1)) ->
  (exists s' out, net_run fuel rej es s1 = Val (Some (rej, s', out)) /\ P s' (out1 ++ out)) ->
  exists s' out, net_run fuel rej (e :: es) s = Val (Some (rej, s', out)) /\ P s' out.
Proof.
  intros Hs (s' & out & Hr & HP). exists s', (out1 ++ out). split; [|done].
  cbn [net_run]. by rewrite Hs, run_bind_Val, Hr.
Qed.

Lemma packet_bytes_bytes code id data :
  u8 code -> u8 id -> bytes data -> bytes (packet_bytes code id data).
Proof.
  intros Hc Hi Hd. unfold packet_bytes. apply Forall_app. split; [by repeat apply Forall_cons_2|].
  apply Forall_app. split; [apply be_bytes_bytes|done].
Qed.
Lemma code_u8 c : u8 (code_to_u8 c).
Proof. destruct c; decide_now. Qed.

(** A packet that the automaton of its layer takes as the event [e]. *)
Definition packet_is {CP : Type} `{ControlProtocol CP} (p : Packet) (e : event) : Prop :=
  u8 (pkt_id p) /\ bytes (pkt_data p) /\ (length (pkt_data p) <= 1495)%nat /\
  (exists os rs, pkt_data p = options_of os /\ understood os rs) /\
  forall a : ControlAutomaton CP, event_of a p = Val e.
Definition packet_frame (proto : Z) (p : Packet) : list Z :=
  received_frame proto (packet_bytes (code_to_u8 (pkt_code p)) (pkt_id p) (pkt_data p)).

Lemma lcp_moves fuel rej p e s :
  packet_is (CP := Lcp) p e -> (length (pkt_data p) < fuel)%nat ->
  exists l out, net_step fuel rej (NFrame (packet_frame PROTO_LCP p)) s = Val (Some (rej, set_lcp l s, out)) /\
    state l = if deviates (state (ppp_lcp s)) e (repeated (ppp_lcp s) p) then state (ppp_lcp s)
              else rfc1661 (state (ppp_lcp s)) e.
Proof.
  intros (Hid & Hb & Hl & (os & rs & Hd & Hu) & He) Hf.
  destruct (received_moves fuel (ppp_lcp s) p os rs e Hd Hu Hl Hf (He _)) as (l & out & Hr & Hs).
  exists l, out. split; [|done]. cbn [net_step]. unfold packet_frame.
  rewrite handle_frame_eval; [|decide_now|apply packet_bytes_bytes; [apply code_u8|done|done]].
  cbn zeta. rewrite Z.eqb_refl. unfold recv_lcp. by rewrite Hr.
Qed.
Lemma ipcp_moves fuel rej p e s :
  state (ppp_lcp s) = Opened -> packet_is (CP := Ipcp) p e -> (length (pkt_data p) < fuel)%nat ->
  exists i out, net_step fuel rej (NFrame (packet_frame PROTO_IPCP p)) s = Val (Some (rej, set_ipcp i s, out)) /\
    state i = if deviates (state (ppp_ipcp s)) e (repeated (ppp_ipcp s) p) then state (ppp_ipcp s)
              else rfc1661 (state (ppp_ipcp s)) e.
Proof.
  intros Hlcp (Hid & Hb & Hl & (os & rs & Hd & Hu) & He) Hf.
  destruct (received_moves fuel (ppp_ipcp s) p os rs e Hd Hu Hl Hf (He _)) as (i & out & Hr & Hs).
  exists i, out. split; [|done]. cbn [net_step]. unfold packet_frame.
  rewrite handle_frame_eval; [|decide_now|apply packet_bytes_bytes; [apply code_u8|done|done]].
  cbn zeta. change (PROTO_IPCP =? PROTO_LCP) with false. rewrite Z.eqb_refl, is_layer_up_match, Hlcp.
  cbn [andb]. unfold recv_ipcp. by rewrite Hr.
Qed.

(** The two packets of a peer that agrees, in either order. *)
Definition agreement (proto : Z) (ack_first : bool) (ack req : Packet) : list net_event :=
  if ack_first then [NFrame (packet_frame proto ack); NFrame (packet_frame proto req)]
  else [NFrame (packet_frame proto req); NFrame (packet_frame proto ack)].

Lemma agree_lcp fuel rej (o : bool) ack req rest s P :
  packet_is (CP := Lcp) ack RCA -> packet_is (CP := Lcp) req RCR_good -> (1495 < fuel)%nat ->
  state (ppp_lcp s) = ReqSent ->
  (forall l out, state l = Opened ->
    exists s' o', net_run fuel rej rest (set_lcp l s) = Val (Some (rej, s', o')) /\ P s' (out ++ o')) ->
  exists s' o', net_run fuel rej (agreement PROTO_LCP o ack req ++ rest) s = Val (Some (rej, s', o')) /\ P s' o'.
Proof.
  intros Ha Hr Hf Hs Hrest. pose proof Ha as (_ & _ & Hla & _). pose proof Hr as (_ & _ & Hlr & _).
  assert (forall p1 p2 e1 e2, packet_is (CP := Lcp) p1 e1 -> packet_is (CP := Lcp) p2 e2 ->
    (length (pkt_data p1) < fuel)%nat -> (length (pkt_data p2) < fuel)%nat ->
    rfc1661 (rfc1661 ReqSent e1) e2 = Opened -> deviates (rfc1661 ReqSent e1) e2 false = false ->
    deviates (rfc1661 ReqSent e1) e2 true = false ->
    exists s' o', net_run fuel rej (NFrame (packet_frame PROTO_LCP p1) :: NFrame (packet_frame PROTO_LCP p2) :: rest) s =
      Val (Some (rej, s', o')) /\ P s' o') as Htwo.
  { intros p1 p2 e1 e2 H1 H2 Hl1 Hl2 He Hd1 Hd2.
    destruct (lcp_moves fuel rej p1 e1 s H1 Hl1) as (l1 & out1 & Hst1 & Hs1).
    apply (net_run_step _ _ _ _ _ _ _ _ Hst1). rewrite Hs in Hs1. cbn [deviates] in Hs1.
    destruct (lcp_moves fuel rej p2 e2 (set_lcp l1 s) H2 Hl2) as (l2 & out2 & Hst2 & Hs2).
    apply (net_run_step _ _ _ _ _ _ _ (fun s' o => P s' (out1 ++ o)) Hst2).
    cbn [set_lcp ppp_lcp] in Hs2. rewrite Hs1 in Hs2.
    assert (state l2 = Opened) as Hl2o by (by destruct (repeated l1 p2); rewrite ?Hd1, ?Hd2 in Hs2; rewrite Hs2).
    destruct (Hrest l2 (out1 ++ out2) Hl2o) as (s' & o' & Hr' & HP). exists s', o'. split; [done|].
    by rewrite <- app_assoc in HP. }
  destruct o; cbn [agreement app].
  - apply (Htwo _ _ RCA RCR_good); done || lia.
  - apply (Htwo _ _ RCR_good RCA); done || lia.
Qed.
Lemma agree_ipcp fuel rej (o : bool) ack req rest s P :
  packet_is (CP := Ipcp) ack RCA -> packet_is (CP := Ipcp) req RCR_good -> (1495 < fuel)%nat ->
  state (ppp_lcp s) = Opened -> state (ppp_ipcp s) = ReqSent ->
  (forall i out, state i = Opened ->
    exists s' o', net_run fuel rej rest (set_ipcp i s) = Val (Some (rej, s', o')) /\ P s' (out ++ o')) ->
  exists s' o', net_run fuel rej (agreement PROTO_IPCP o ack req ++ rest) s = Val (Some (rej, s', o')) /\ P s' o'.
Proof.
  intros Ha Hr Hf Hlcp Hs Hrest. pose proof Ha as (_ & _ & Hla & _). pose proof Hr as (_ & _ & Hlr & _).
  assert (forall p1 p2 e1 e2, packet_is (CP := Ipcp) p1 e1 -> packet_is (CP := Ipcp) p2 e2 ->
    (length (pkt_data p1) < fuel)%nat -> (length (pkt_data p2) < fuel)%nat ->
    rfc1661 (rfc1661 ReqSent e1) e2 = Opened -> deviates (rfc1661 ReqSent e1) e2 false = false ->
    deviates (rfc1661 ReqSent e1) e2 true = false ->
    exists s' o', net_run fuel rej (NFrame (packet_frame PROTO_IPCP p1) :: NFrame (packet_frame PROTO_IPCP p2) :: rest) s =
      Val (Some (rej, s', o')) /\ P s' o') as Htwo.
  { intros p1 p2 e1 e2 H1 H2 Hl1 Hl2 He Hd1 Hd2.
    destruct (ipcp_moves fuel rej p1 e1 s Hlcp H1 Hl1) as (l1 & out1 & Hst1 & Hs1).
    apply (net_run_step _ _ _ _ _ _ _ _ Hst1). rewrite Hs in Hs1. cbn [deviates] in Hs1.
    destruct (ipcp_moves fuel rej p2 e2 (set_ipcp l1 s) Hlcp H2 Hl2) as (l2 & out2 & Hst2 & Hs2).
    apply (net_run_step _ _ _ _ _ _ _ (fun s' o => P s' (out1 ++ o)) Hst2).
    cbn [set_ipcp ppp_ipcp] in Hs2. rewrite Hs1 in Hs2.
    assert (state l2 = Opened) as Hl2o by (by destruct (repeated l1 p2); rewrite ?Hd1, ?Hd2 in Hs2; rewrite Hs2).
    destruct (Hrest l2 (out1 ++ out2) Hl2o) as (s' & o' & Hr' & HP). exists s', o'. split; [done|].
    by rewrite <- app_assoc in HP. }
  destruct o; cbn [agreement app].
  - apply (Htwo _ _ RCA RCR_good); done || lia.
  - apply (Htwo _ _ RCR_good RCA); done || lia.
Qed.
End bringing_up.

(** ** The claims *)

(** A poll never panics if every queued packet is shorter than the MRU; after
    it the link layer is not closed and the network layer runs only above an
    opened link; if both layers are up the queue has gone out, one frame per
    packet in order, and otherwise it is kept. *)
Theorem poll_spec s :
  Forall (fun hd => (length hd < PPP_MRU)%nat) (ip_xmit_queue s) ->
  exists s' out, poll s = Val (s', out) /\ layered s' /\ ip_recv_queue s' = ip_recv_queue s /\
    (if is_layer_up (ppp_lcp s) && is_layer_up (ppp_ipcp s)
     then ip_xmit_queue s' = [] /\ Forall2 (fun b hd => carries b (ppp_frame PROTO_IP hd)) out (ip_xmit_queue s)
     else ip_xmit_queue s' = ip_xmit_queue s).
Proof. apply poll_total. Qed.

Definition both_up : PppInner :=
  MkPppInner (MkControl MkLcp Opened 1 (Some 1)) (MkControl ipcp_new Opened 1 (Some 1)) [] [[0x45; 0]; [0x46]].
Lemma poll_spec_witness :
  exists s' out, poll both_up = Val (s', out) /\ layered s' /\ ip_recv_queue s' = [] /\
    (ip_xmit_queue s' = [] /\ Forall2 (fun b hd => carries b (ppp_frame PROTO_IP hd)) out [[0x45; 0]; [0x46]]).
Proof. apply (poll_spec both_up). decide_now. Defined.

(** The panics of the network layer.  An outgoing packet as long as the MTU
    that the device announces (1500 bytes) panics, and so does an incoming
    frame with an unknown protocol and more than 1493 bytes, which a peer can
    send whenever the link is up; a shorter one is answered with a
    Protocol-Reject. *)
Theorem long_packets_panic fuel rej proto packet s hd :
  state (ppp_lcp s) = Opened ->
  (state (ppp_ipcp s) = Opened -> hd ∈ ip_xmit_queue s -> (PPP_MRU <= length hd)%nat -> poll s = Panic) /\
  (u16 proto -> bytes packet -> proto <> PROTO_LCP -> proto <> PROTO_IPCP -> proto <> PROTO_IP ->
   if decide (length packet <= 1493)%nat
   then exists b, handle_frame fuel rej (received_frame proto packet) s = Val (Some (wrap 8 (rej + 1), s, [b])) /\
     carries b (ppp_frame PROTO_LCP ([8; rej] ++ u16_to_be_bytes (6 + Z.of_nat (length packet)) ++
       u16_to_be_bytes proto ++ packet))
   else handle_frame fuel rej (received_frame proto packet) s = Panic).
Proof.
  intros Hl. split.
  - intros Hi Hin Hlong. rewrite poll_eval, Hl, Hi, (send_queue_long _ hd) by done. done.
  - intros Hp Hb H1 H2 H3. rewrite handle_frame_eval by done. cbn zeta.
    rewrite !(proj2 (Z.eqb_neq _ _)) by done. cbn [andb]. rewrite is_layer_up_match, Hl, protocol_reject_build.
    pose proof (build_frame_spec PROTO_LCP [[8; rej]; u16_to_be_bytes (wrap 16 (6 + wrap 16 (Z.of_nat (length packet))));
      u16_to_be_bytes proto; packet]) as Hs. cbn [concat] in Hs. rewrite app_nil_r, !length_app in Hs.
    assert (forall x, length (u16_to_be_bytes x) = 2%nat) as H2b by done. rewrite !H2b in Hs. cbn [length] in Hs.
    destruct (decide (length packet <= 1493)%nat) as [Hd|Hd].
    + rewrite decide_True in Hs by lia. destruct Hs as (b & -> & Hh). rewrite run_bind_Val. exists b. split; [done|].
      rewrite !wrap_id in Hh by (unfold fits; rewrite ?wrap_id by (unfold fits; lia); lia). done.
    + rewrite decide_False in Hs by lia. by rewrite Hs.
Qed.

Lemma long_packets_panic_witness :
  poll (send_ip (replicate 1500 0) both_up) = Panic /\
  handle_frame 9 0 (received_frame 0x8057 (replicate 1494 0)) both_up = Panic.
Proof.
  split.
  - apply (long_packets_panic 9 0 0x8057 [] (send_ip (replicate 1500 0) both_up) (replicate 1500 0) eq_refl).
    + reflexivity.
    + apply elem_of_app. right. apply list_elem_of_singleton. reflexivity.
    + rewrite length_replicate. unfold PPP_MRU. lia.
  - apply (long_packets_panic 9 0 0x8057 (replicate 1494 0) both_up [] eq_refl); try discriminate; decide_now.
Defined.

(** Frames that wait in the receive ring are handled without a poll between
    them: an IP packet behind a Terminate-Request is still accepted although
    the link layer is closed. *)
Theorem ip_after_terminate fuel rej id packet s :
  state (ppp_lcp s) = Opened -> state (ppp_ipcp s) = Opened -> u8 id -> bytes packet ->
  exists s1 out1, handle_frame fuel rej (received_frame PROTO_LCP (packet_bytes (code_to_u8 TermReq) id [])) s =
      Val (Some (rej, s1, out1)) /\ state (ppp_lcp s1) = Closed /\
    handle_frame fuel rej (received_frame PROTO_IP packet) s1 = Val (Some (rej, recv_ip packet s1, [])).
Proof.
  intros Hl Hi Hid Hb. destruct (send_terminate_ack_total (CP := Lcp) id) as [b Hbt].
  assert (bytes (packet_bytes (code_to_u8 TermReq) id [])) as Hpb.
  { unfold packet_bytes. apply Forall_app. split; [apply Forall_cons_2; [decide_now|by apply Forall_cons_2, Forall_nil_2]|].
    rewrite app_nil_r. apply be_bytes_bytes. }
  assert (u16 PROTO_LCP /\ u16 PROTO_IP) as [Hpl Hpi] by (split; decide_now).
  pose proof (decode_packet_bytes (ppp_lcp s) (MkPacket TermReq id [])) as Hdec. cbn [pkt_code pkt_id pkt_data] in Hdec.
  eexists _, _. split; [|split].
  - rewrite (handle_frame_eval _ _ _ _ _ Hpl Hpb). cbn zeta. rewrite Z.eqb_refl. unfold recv_lcp, received.
    rewrite Hdec by (cbn; lia). rewrite run_bind_Val. unfold received_packet. cbn [pkt_code pkt_id].
    rewrite Hl, Hbt. reflexivity.
  - done.
  - rewrite (handle_frame_eval _ _ _ _ _ Hpi Hb). cbn zeta.
    change (PROTO_IP =? PROTO_LCP) with false. change (PROTO_IP =? PROTO_IPCP) with false.
    cbn [andb set_lcp ppp_lcp ppp_ipcp]. rewrite Z.eqb_refl, (is_layer_up_match (ppp_ipcp s)), Hi. done.
Qed.

Lemma ip_after_terminate_witness :
  exists s1 out1, handle_frame 9 0 (received_frame PROTO_LCP (packet_bytes 5 3 [])) both_up =
      Val (Some (0, s1, out1)) /\ state (ppp_lcp s1) = Closed /\
    handle_frame 9 0 (received_frame PROTO_IP [0x45; 0]) s1 = Val (Some (0, recv_ip [0x45; 0] s1, [])).
Proof. apply (ip_after_terminate 9 0 3 [0x45; 0] both_up eq_refl eq_refl); decide_now. Defined.


Lemma lcp_options_good (a : ControlAutomaton Lcp) :
  event_of a (MkPacket ConfReq 1 [1; 4; 5; 0xdc; 2; 6; 0; 0; 0; 0]) = Val RCR_good.
Proof. destruct a as [[] st sc la]. vm_compute. reflexivity. Qed.
Lemma ipcp_options_good (a : ControlAutomaton Ipcp) :
  event_of a (MkPacket ConfReq 1 [3; 6; 10; 0; 0; 1]) = Val RCR_good.
Proof. destruct a as [[h p pe] st sc la]. vm_compute. reflexivity. Qed.

