(* ===== verification/TicketLock.v ===== *)
(** The ticket lock of [device/quartz/src/arch/arm1176/sync/ticket.rs], as steps
    of any number of threads on one word.

    A step is one atomic access of the word: the exclusive load and store of
    [lock] and [try_lock] that succeeded, one load of the owner in the waiting
    loop, the atomic addition of [unlock].  The memory barriers order the
    protected data and do not appear. *)
From S2P Require Import Prelude.

Module TicketLock.

Definition NEXT_LSB : Z := Z.shiftl 1 16.

(** The two views of the word: the owner is the lower half. *)
Definition owner (raw : Z) : Z := wrap 16 raw.
Definition next (raw : Z) : Z := Z.shiftr raw 16.

(** Where a thread is: outside, waiting with the owner it saw and its ticket, or
    inside. *)
Inductive thread : Type :=
  | Outside
  | Waiting (seen ticket : Z)
  | Inside (ticket : Z).

#[export] Instance thread_eq_dec : EqDecision thread.
Proof. solve_decision. Defined.

(** [lock], up to the loop: the word before the addition is the ticket. *)
Definition take_ticket (raw : Z) : Z * thread :=
  (wrap 32 (raw + NEXT_LSB), Waiting (owner raw) (next raw)).
(** One test of the loop, with the load behind it. *)
Definition wait_step (raw : Z) (th : thread) : thread :=
  match th with
  | Waiting seen ticket => if seen =? ticket then Inside ticket else Waiting (owner raw) ticket
  | _ => th
  end.
(** The subtraction of the word rotated by half is zero if both halves are equal. *)
Definition try_lock (raw : Z) : Z * thread :=
  let rotated := Z.lor (Z.shiftr raw 16) (wrap 32 (Z.shiftl raw 16)) in
  let contended := wrap 32 (raw - rotated) in
  if contended =? 0 then (wrap 32 (raw + NEXT_LSB), Inside (next raw)) else (raw, Outside).
Definition unlock (raw : Z) : Z := wrap 32 (raw + 1).

Record lock_state : Type := MkLock {
  raw : Z;
  threads : list thread;
}.
Definition lock_new (n : nat) : lock_state := MkLock 0 (replicate n Outside).

(** A step of thread [i]; the label says whether a ticket was given out. *)
Inductive lock_step (i : nat) : bool -> lock_state -> lock_state -> Prop :=
  | step_lock r ths :
    ths !! i = Some Outside ->
    lock_step i true (MkLock r ths) (MkLock (fst (take_ticket r)) (<[i := snd (take_ticket r)]> ths))
  | step_wait r ths seen ticket :
    ths !! i = Some (Waiting seen ticket) ->
    lock_step i false (MkLock r ths) (MkLock r (<[i := wait_step r (Waiting seen ticket)]> ths))
  | step_try r ths :
    ths !! i = Some Outside ->
    lock_step i (bool_decide (snd (try_lock r) <> Outside)) (MkLock r ths)
      (MkLock (fst (try_lock r)) (<[i := snd (try_lock r)]> ths))
  | step_unlock r ths ticket :
    ths !! i = Some (Inside ticket) ->
    lock_step i false (MkLock r ths) (MkLock (unlock r) (<[i := Outside]> ths)).

(** States reached from [s], with the number of tickets given out on the way. *)
Inductive lock_reach (s : lock_state) : Z -> lock_state -> Prop :=
  | reach_here : lock_reach s 0 s
  | reach_step n b i s1 s2 : lock_reach s n s1 -> lock_step i b s1 s2 -> lock_reach s (n + Z.b2z b) s2.
End TicketLock.
Export TicketLock.

(** ** The word *)

(** [k] tickets given out, [u] threads that went through. *)
Definition ticket_word (k u : Z) : Z := k * 2 ^ 16 + u.

Section word.
Implicit Types (k u : Z).

Lemma owner_word k u : 0 <= u < 2 ^ 16 -> owner (ticket_word k u) = u.
Proof. intros Hu. unfold owner, wrap, ticket_word. rewrite Z.add_comm, Z.mod_add by lia. by apply Z.mod_small. Qed.
Lemma next_word k u : 0 <= u < 2 ^ 16 -> next (ticket_word k u) = k.
Proof.
  intros Hu. unfold next, ticket_word. rewrite Z.shiftr_div_pow2, Z.add_comm, Z.div_add by lia.
  by rewrite Z.div_small.
Qed.
Lemma take_word k u :
  0 <= u < 2 ^ 16 -> 0 <= k -> k + 1 < 2 ^ 16 -> take_ticket (ticket_word k u) = (ticket_word (k + 1) u, Waiting u k).
Proof.
  intros Hu Hk Hk'. unfold take_ticket. rewrite owner_word, next_word by done. f_equal.
  unfold NEXT_LSB, ticket_word. change (Z.shiftl 1 16) with (2 ^ 16). rewrite wrap_id by (unfold fits; lia). lia.
Qed.
Lemma unlock_word k u : 0 <= u -> u + 1 < 2 ^ 16 -> 0 <= k < 2 ^ 16 -> unlock (ticket_word k u) = ticket_word k (u + 1).
Proof. intros Hu Hu' Hk. unfold unlock, ticket_word. rewrite wrap_id by (unfold fits; lia). lia. Qed.

(** The rotated word, and what the subtraction tells. *)
Lemma rotated_word k u :
  0 <= u < 2 ^ 16 -> 0 <= k < 2 ^ 16 ->
  Z.lor (Z.shiftr (ticket_word k u) 16) (wrap 32 (Z.shiftl (ticket_word k u) 16)) = ticket_word u k.
Proof.
  intros Hu Hk. change (Z.shiftr (ticket_word k u) 16) with (next (ticket_word k u)). rewrite next_word by done.
  assert (wrap 32 (Z.shiftl (ticket_word k u) 16) = Z.shiftl u 16) as ->.
  { unfold wrap, ticket_word. rewrite !Z.shiftl_mul_pow2 by lia.
    replace ((k * 2 ^ 16 + u) * 2 ^ 16) with (u * 2 ^ 16 + k * 2 ^ 32) by lia.
    rewrite Z.mod_add by lia. apply Z.mod_small. lia. }
  rewrite lor_shift_add by (unfold fits; lia). unfold ticket_word. lia.
Qed.
Lemma try_lock_word k u :
  0 <= u < 2 ^ 16 -> 0 <= k -> k + 1 < 2 ^ 16 ->
  try_lock (ticket_word k u) = if decide (u = k) then (ticket_word (k + 1) u, Inside k) else (ticket_word k u, Outside).
Proof.
  intros Hu Hk Hk'. unfold try_lock. rewrite rotated_word, next_word by lia.
  destruct (decide (u = k)) as [->|Hne].
  - rewrite Z.sub_diag. change (wrap 32 0 =? 0) with true. cbn iota. f_equal.
    unfold NEXT_LSB, ticket_word. change (Z.shiftl 1 16) with (2 ^ 16). rewrite wrap_id by (unfold fits; lia). lia.
  - assert (wrap 32 (ticket_word k u - ticket_word u k) <> 0) as Hnz; [|by rewrite (proj2 (Z.eqb_neq _ _) Hnz)].
    unfold wrap, ticket_word. intros Hm. apply Z.mod_divide in Hm as [c Hc]; [|lia].
    assert (c = 0) by lia. lia.
Qed.
End word.

(** ** The invariant *)

Definition ticket_of (th : thread) : option Z :=
  match th with Outside => None | Waiting _ t => Some t | Inside t => Some t end.

(** [k] tickets were given out, the first [u] of them are used up: every other
    one is with exactly one thread, and a thread is inside only with the oldest. *)
Record lock_inv (k u : Z) (s : lock_state) : Prop := {
  inv_raw : raw s = ticket_word k u;
  inv_range : 0 <= u <= k;
  inv_thread : forall i th, threads s !! i = Some th ->
    match th with
    | Outside => True
    | Waiting seen t => seen <= u /\ u <= t < k
    | Inside t => t = u /\ u < k
    end;
  inv_unique : forall i j th th' t, threads s !! i = Some th -> threads s !! j = Some th' ->
    ticket_of th = Some t -> ticket_of th' = Some t -> i = j;
  inv_served : forall t, u <= t < k -> exists i th, threads s !! i = Some th /\ ticket_of th = Some t;
}.

Section invariant.
Implicit Types (s : lock_state) (ths : list thread).

Lemma lookup_insert_cases ths i j x y :
  <[i := x]> ths !! j = Some y -> (i = j /\ y = x /\ (i < length ths)%nat) \/ (i <> j /\ ths !! j = Some y).
Proof.
  intros Hl. apply list_lookup_insert_Some in Hl as [(-> & -> & Hlt)|[Hne Hl]]; [left|right]; done.
Qed.

(** A thread changes its state but keeps its ticket. *)
Lemma inv_same_ticket k u r ths i th th' :
  lock_inv k u (MkLock r ths) -> ths !! i = Some th -> ticket_of th' = ticket_of th ->
  match th' with Outside => True | Waiting seen t => seen <= u /\ u <= t < k | Inside t => t = u /\ u < k end ->
  lock_inv k u (MkLock r (<[i := th']> ths)).
Proof.
  intros [Hr Hu Ht Huni Hs] Hi He Hth. cbn [threads raw] in *. pose proof (lookup_lt_Some _ _ _ Hi) as Hlt.
  split; cbn [threads raw]; [done|done| | |].
  - intros j x [(-> & -> & _)|(_ & Hj)]%lookup_insert_cases; [done|by apply (Ht j)].
  - assert (forall j x t, <[i := th']> ths !! j = Some x -> ticket_of x = Some t ->
      exists y, ths !! j = Some y /\ ticket_of y = Some t) as Hback.
    { intros j x t [(-> & -> & _)|(_ & Hj)]%lookup_insert_cases Hx; [exists th; by rewrite <- He|by exists x]. }
    intros i1 i2 x y t H1 H2 Hx Hy.
    destruct (Hback _ _ _ H1 Hx) as (x' & ? & ?), (Hback _ _ _ H2 Hy) as (y' & ? & ?). by apply (Huni i1 i2 x' y' t).
  - intros t Htr. destruct (Hs t Htr) as (j & x & Hj & Hx). destruct (decide (i = j)) as [<-|Hne].
    + exists i, th'. rewrite list_lookup_insert_eq by done. rewrite Hj in Hi. injection Hi as ->. by rewrite He.
    + exists j, x. by rewrite list_lookup_insert_ne.
Qed.

(** A thread that was outside takes the next ticket. *)
Lemma inv_new_ticket k u r ths i th' :
  lock_inv k u (MkLock r ths) -> ths !! i = Some Outside -> ticket_of th' = Some k ->
  match th' with Outside => True | Waiting seen t => seen <= u | Inside t => t = u end ->
  lock_inv (k + 1) u (MkLock (ticket_word (k + 1) u) (<[i := th']> ths)).
Proof.
  intros [Hr Hu Ht Huni Hs] Hi He Hth. cbn [threads raw] in *. pose proof (lookup_lt_Some _ _ _ Hi) as Hlt.
  assert (forall j x t, ths !! j = Some x -> ticket_of x = Some t -> t < k) as Hlow.
  { intros j x t Hj Hx. specialize (Ht j x Hj). destruct x; simplify_eq; cbn in *; simplify_eq; lia. }
  split; cbn [threads raw]; [done|lia| | |].
  - intros j x [(-> & -> & _)|(_ & Hj)]%lookup_insert_cases.
    + destruct th'; simplify_eq; cbn in *; simplify_eq; lia.
    + specialize (Ht j x Hj). destruct x; lia.
  - intros i1 i2 x y t [(-> & -> & _)|(Hn1 & H1)]%lookup_insert_cases [(-> & -> & _)|(Hn2 & H2)]%lookup_insert_cases Hx Hy;
      [done| | |by apply (Huni i1 i2 x y t)].
    + specialize (Hlow _ _ _ H2 Hy). simplify_eq. lia.
    + specialize (Hlow _ _ _ H1 Hx). simplify_eq. lia.
  - intros t Htr. destruct (decide (t = k)) as [->|Hne].
    + exists i, th'. by rewrite list_lookup_insert_eq.
    + destruct (Hs t ltac:(lia)) as (j & x & Hj & Hx). exists j, x. rewrite list_lookup_insert_ne; [done|].
      intros ->. rewrite Hj in Hi. by injection Hi as ->.
Qed.

Lemma inv_unlock k u r ths i t :
  lock_inv k u (MkLock r ths) -> ths !! i = Some (Inside t) ->
  lock_inv k (u + 1) (MkLock (ticket_word k (u + 1)) (<[i := Outside]> ths)).
Proof.
  intros [Hr Hu Ht Huni Hs] Hi. cbn [threads raw] in *. pose proof (lookup_lt_Some _ _ _ Hi) as Hlt.
  destruct (Ht i _ Hi) as [-> Huk]. split; cbn [threads raw]; [done|lia| | |].
  - intros j x [(-> & -> & _)|(Hne & Hj)]%lookup_insert_cases; [done|].
    pose proof (Ht j x Hj) as Hx. pose proof (Huni i j (Inside u) x u Hi Hj eq_refl) as Hun.
    destruct x as [|seen t|t]; [done| |].
    + assert (t <> u); [|lia]. intros ->. by apply Hne, Hun.
    + destruct Hx as [-> _]. exfalso. by apply Hne, Hun.
  - intros i1 i2 x y t [(-> & -> & _)|(Hn1 & H1)]%lookup_insert_cases [(-> & -> & _)|(Hn2 & H2)]%lookup_insert_cases Hx Hy;
      try done. by apply (Huni i1 i2 x y t).
  - intros t Htr. destruct (Hs t ltac:(lia)) as (j & x & Hj & Hx). exists j, x. rewrite list_lookup_insert_ne; [done|].
    intros ->. rewrite Hj in Hi. injection Hi as ->. cbn in Hx. simplify_eq. lia.
Qed.

Lemma lock_step_inv k u i b s s' :
  lock_inv k u s -> k + 1 < 2 ^ 16 -> lock_step i b s s' -> exists u', lock_inv (k + Z.b2z b) u' s'.
Proof.
  intros Hinv Hk Hs. pose proof (inv_raw _ _ _ Hinv) as Hraw. pose proof (inv_range _ _ _ Hinv) as Hr.
  destruct Hs as [r ths Hi|r ths seen ticket Hi|r ths Hi|r ths ticket Hi]; cbn [raw] in Hraw; subst r.
  - rewrite take_word by lia. exists u. apply (inv_new_ticket _ _ _ _ _ _ Hinv Hi); [done|]. cbn. lia.
  - exists u. rewrite Z.add_0_r. apply (inv_same_ticket _ _ _ _ _ _ _ Hinv Hi).
    + cbn [wait_step]. by destruct (seen =? ticket).
    + pose proof (inv_thread _ _ _ Hinv i _ Hi) as Ht. cbn [wait_step]. rewrite owner_word by lia.
      destruct (Z.eqb_spec seen ticket); cbn in *; lia.
  - rewrite try_lock_word by lia. destruct (decide (u = k)) as [->|Hne]; cbn [fst snd].
    + exists k. rewrite bool_decide_true by done. by apply (inv_new_ticket _ _ _ _ _ _ Hinv Hi).
    + exists u. rewrite bool_decide_false by (intros Hf; by apply Hf). rewrite Z.add_0_r.
      apply (inv_same_ticket _ _ _ _ _ _ _ Hinv Hi); done.
  - destruct (inv_thread _ _ _ Hinv i _ Hi) as [-> Huk]. rewrite unlock_word by lia. exists (u + 1). rewrite Z.add_0_r.
    by apply (inv_unlock _ _ _ _ _ _ Hinv Hi).
Qed.

Lemma lock_new_inv n : lock_inv 0 0 (lock_new n).
Proof.
  unfold lock_new. split; cbn [raw threads]; [done|lia| | |lia].
  - intros i th [-> _]%lookup_replicate. done.
  - intros i j th th' t [-> _]%lookup_replicate _ Ht. done.
Qed.

Lemma lock_reach_inv n k s : lock_reach (lock_new n) k s -> k + 1 < 2 ^ 16 -> exists u, lock_inv k u s.
Proof.
  intros Hr. induction Hr as [|k b i s1 s2 Hr IH Hs]; intros Hk; [exists 0; apply lock_new_inv|].
  destruct (IH ltac:(destruct b; cbn in Hk; lia)) as [u Hu].
  apply (lock_step_inv k u i b s1 s2 Hu); [destruct b; cbn in Hk; lia|done].
Qed.
End invariant.

(** ** Wearing out *)

Section wear.
Implicit Types (s : lock_state) (ths : list thread).

(** One thread alone: [try_lock] and [unlock]. *)
Lemma one_round u s :
  0 <= u -> u + 1 < 2 ^ 16 -> raw s = ticket_word u u -> threads s = [Outside] ->
  exists s1 s2, lock_step 0 true s s1 /\ lock_step 0 false s1 s2 /\ raw s2 = ticket_word (u + 1) (u + 1) /\ threads s2 = [Outside].
Proof.
  intros Hu Hu' Hr Ht. destruct s as [r ths]. cbn [raw threads] in *. subst.
  pose proof (try_lock_word u u ltac:(lia) ltac:(lia) Hu') as Htry. rewrite decide_True in Htry by done.
  eexists _, _. split; [|split].
  - pose proof (step_try 0 (ticket_word u u) [Outside] eq_refl) as Hs. rewrite Htry in Hs. exact Hs.
  - apply (step_unlock 0 _ _ u). done.
  - cbn [raw threads fst snd]. rewrite unlock_word by lia. done.
Qed.

Lemma rounds u :
  (0 <= u < 2 ^ 16) -> exists s, lock_reach (lock_new 1) u s /\ raw s = ticket_word u u /\ threads s = [Outside].
Proof.
  intros Hu. rewrite <- (Z2Nat.id u) in * by lia. induction (Z.to_nat u) as [|n IH].
  - exists (lock_new 1). split; [apply reach_here|done].
  - destruct IH as (s & Hr & Hw & Ht); [lia|].
    destruct (one_round (Z.of_nat n) s) as (s1 & s2 & H1 & H2 & Hw2 & Ht2); [lia|lia|done|done|].
    exists s2. split; [|split; [|done]].
    + pose proof (reach_step _ _ _ _ _ _ (reach_step _ _ _ _ _ _ Hr H1) H2) as Hr2. cbn [Z.b2z] in Hr2.
      by replace (Z.of_nat n + 1 + 0) with (Z.of_nat (S n)) in Hr2 by lia.
    + rewrite Hw2. unfold ticket_word. lia.
Qed.

(** A lock that nobody holds and that no owner can take: ticket 0 is gone. *)
Record worn_inv (k : Z) (s : lock_state) : Prop := {
  worn_raw : raw s = ticket_word k 0;
  worn_range : 1 <= k;
  worn_thread : forall i th, threads s !! i = Some th ->
    match th with Outside => True | Waiting seen t => seen = 0 /\ 1 <= t | Inside _ => False end;
}.
Lemma worn_step k i b s s' :
  worn_inv k s -> k + 1 < 2 ^ 16 -> lock_step i b s s' -> worn_inv (k + Z.b2z b) s'.
Proof.
  intros [Hr Hk Ht] Hb Hs. destruct Hs as [r ths Hi|r ths seen ticket Hi|r ths Hi|r ths ticket Hi]; cbn [raw threads] in *; subst.
  - rewrite take_word by lia. split; cbn [raw threads Z.b2z]; [done|lia|].
    intros j th [(-> & -> & _)|(_ & Hj)]%lookup_insert_cases; [split; [done|lia]|by apply (Ht j)].
  - rewrite Z.add_0_r. split; cbn [raw threads]; [done|done|].
    intros j th [(-> & -> & _)|(_ & Hj)]%lookup_insert_cases; [|by apply (Ht j)].
    destruct (Ht _ _ Hi) as [-> Hti]. cbn [wait_step]. rewrite (proj2 (Z.eqb_neq 0 ticket)), owner_word by lia. done.
  - rewrite try_lock_word by lia. rewrite decide_False by lia. cbn [fst snd].
    rewrite bool_decide_false by (intros Hf; by apply Hf). rewrite Z.add_0_r. split; cbn [raw threads]; [done|done|].
    intros j th [(-> & -> & _)|(_ & Hj)]%lookup_insert_cases; [done|by apply (Ht j)].
  - by destruct (Ht _ _ Hi).
Qed.
Lemma worn_reach m n s :
  lock_reach (MkLock (unlock 65535) (replicate m Outside)) n s -> n + 2 < 2 ^ 16 -> worn_inv (1 + n) s.
Proof.
  intros Hr. induction Hr as [|n b i s1 s2 Hr IH Hs]; intros Hn.
  - split; cbn [raw threads]; [done|lia|]. by intros i th [-> _]%lookup_replicate.
  - rewrite Z.add_assoc. assert (0 <= Z.b2z b) by (by destruct b).
    apply (worn_step _ i _ s1); [apply IH; lia|lia|done].
Qed.
End wear.

(** ** The claims *)

(** C26: for any number of threads, as long as fewer than 65535 tickets were given
    out: at most one thread is inside, and it has the oldest ticket, so threads
    enter in the order in which they asked; and if no thread is inside, a
    waiting thread can enter by its own steps. *)
Theorem ticket_lock_correct n k s :
  lock_reach (lock_new n) k s -> k + 1 < 2 ^ 16 ->
  (forall i j ti tj, threads s !! i = Some (Inside ti) -> threads s !! j = Some (Inside tj) -> i = j) /\
  (forall i j ti seen tj, threads s !! i = Some (Inside ti) -> threads s !! j = Some (Waiting seen tj) -> ti < tj) /\
  ((forall i t, threads s !! i <> Some (Inside t)) -> (exists i seen t, threads s !! i = Some (Waiting seen t)) ->
   exists i s1 s2 t, lock_step i false s s1 /\ (s2 = s1 \/ lock_step i false s1 s2) /\
     threads s2 !! i = Some (Inside t)).
Proof.
  intros Hr Hk. destruct (lock_reach_inv n k s Hr Hk) as [u [Hraw Hu Ht Huni Hs]]. split_and!.
  - intros i j ti tj Hi Hj. destruct (Ht i _ Hi) as [-> _], (Ht j _ Hj) as [-> _].
    by apply (Huni i j (Inside u) (Inside u) u).
  - intros i j ti seen tj Hi Hj. destruct (Ht i _ Hi) as [-> _], (Ht j _ Hj) as [_ Hj2].
    assert (u <> tj); [|lia]. intros <-.
    pose proof (Huni i j (Inside u) (Waiting seen u) u Hi Hj eq_refl eq_refl) as <-. by rewrite Hi in Hj.
  - intros Hno (i0 & seen0 & t0 & H0). destruct (Ht i0 _ H0) as [_ Ht0].
    destruct (Hs u ltac:(lia)) as (i & th & Hi & Hth). destruct th as [|seen t|t]; [done| |by destruct (Hno i t)].
    injection Hth as ->. destruct s as [r ths]. cbn [raw threads] in *. subst r.
    pose proof (lookup_lt_Some _ _ _ Hi) as Hlt.
    exists i. pose proof (step_wait i (ticket_word k u) ths seen u Hi) as H1. cbn [wait_step] in H1.
    destruct (Z.eqb_spec seen u) as [->|Hne].
    + eexists _, _, u. split; [exact H1|]. split; [by left|]. cbn [threads]. by apply list_lookup_insert_eq.
    + rewrite owner_word in H1 by lia. set (ths1 := <[i := Waiting u u]> ths) in *.
      assert (ths1 !! i = Some (Waiting u u)) as Hi1 by (by apply list_lookup_insert_eq).
      pose proof (step_wait i (ticket_word k u) ths1 u u Hi1) as H2. cbn [wait_step] in H2. rewrite Z.eqb_refl in H2.
      eexists _, _, u. split; [exact H1|]. split; [right; exact H2|]. cbn [threads]. apply list_lookup_insert_eq.
      unfold ths1. by rewrite length_insert.
Qed.

Lemma ticket_lock_correct_witness :
  let s := MkLock (ticket_word 2 0) [Inside 0; Waiting 0 1] in
  (forall i j ti tj, threads s !! i = Some (Inside ti) -> threads s !! j = Some (Inside tj) -> i = j) /\
  (forall i j ti seen tj, threads s !! i = Some (Inside ti) -> threads s !! j = Some (Waiting seen tj) -> ti < tj) /\
  ((forall i t, threads s !! i <> Some (Inside t)) -> (exists i seen t, threads s !! i = Some (Waiting seen t)) ->
   exists i s1 s2 t, lock_step i false s s1 /\ (s2 = s1 \/ lock_step i false s1 s2) /\
     threads s2 !! i = Some (Inside t)).
Proof.
  apply (ticket_lock_correct 2 2).
  - pose proof (reach_step _ _ _ _ _ _ (reach_here (lock_new 2)) (step_try 0 0 [Outside; Outside] eq_refl)) as H1.
    pose proof (reach_step _ _ _ _ _ _ H1 (step_lock 1 _ [Inside 0; Outside] eq_refl)) as H2. exact H2.
  - reflexivity.
Defined.

(** The lock wears out.  After 65536 uses by a single thread the addition in
    [unlock] has carried into the tickets: nobody is inside, but whatever any
    number of threads does then with [lock] and [try_lock], none of them gets in
    as long as fewer than 65534 further tickets are drawn. *)
Theorem ticket_lock_wears_out :
  exists s, lock_reach (lock_new 1) (2 ^ 16) s /\ threads s = [Outside] /\
    forall m n s', lock_reach (MkLock (raw s) (replicate m Outside)) n s' -> n < 2 ^ 16 - 2 ->
      forall i t, threads s' !! i <> Some (Inside t).
Proof.
  destruct (rounds (2 ^ 16 - 1) ltac:(lia)) as ([r ths] & Hr & Hw & Ht). cbn [raw threads] in *. subst.
  pose proof (reach_step _ _ _ _ _ _ Hr (step_try 0 _ [Outside] eq_refl)) as H1.
  replace (try_lock (ticket_word (2 ^ 16 - 1) (2 ^ 16 - 1))) with (65535, Inside 65535) in H1 by reflexivity.
  cbn [fst snd] in H1. rewrite bool_decide_true in H1 by done.
  pose proof (reach_step _ _ _ _ _ _ H1 (step_unlock 0 _ [Inside 65535] 65535 eq_refl)) as H2.
  eexists. split; [exact H2|]. split; [done|]. cbn [raw]. intros m n s' Hreach Hn i t Hi.
  pose proof (worn_reach _ _ _ Hreach ltac:(lia)) as [_ _ Hth]. exact (Hth i _ Hi).
Qed.
