(* ===== verification/OnceLock.v ===== *)
(** The one-time cells of [device/quartz/src/sync/once.rs], as steps of any
    number of threads.

    A step is one atomic access of the state word or one access of the cell; the
    acquire and release orders make these visible in the order of the steps, and
    [sev] and [wfe] only save power.  A cell that is not written reads as
    [None]: to read it is what the unsafe code promises not to do. *)
From S2P Require Import Prelude.

Module OnceLock.

Definition UNINIT : Z := 0.
Definition RUNNING : Z := 1.
Definition READY : Z := 2.

Section once.
Context {T : Type}.

Record once : Type := MkOnce {
  state : Z;
  inner : option T;
}.
Definition once_new : once := MkOnce UNINIT None.

(** What a call returned; a reference is shown as what it reads. *)
Inductive outcome : Type :=
  | ORef (x : option T)
  | OGet (x : option (option T))
  | OIsSet (b : bool)
  | OSet (r : result unit T).

(** Where a thread is.  The first line are the calls, [CallGetOrInit v] with what
    its closure computes. *)
Inductive once_thread : Type :=
  | CallGetOrInit (v : T) | CallGet | CallIsSet | CallSet (v : T)
  | WriteInit (v : T) | StoreReady | Await | AssumeInit
  | AssumeGet
  | WriteSet (v : T)
  | Idle
  | Returned (r : outcome).

Definition is_call (th : once_thread) : bool :=
  match th with CallGetOrInit _ | CallGet | CallIsSet | CallSet _ => true | _ => false end.
Definition is_idle (th : once_thread) : bool :=
  match th with Idle | Returned _ => true | _ => false end.

(** [compare_exchange]: the word after it, and whether it took place. *)
Definition compare_exchange (old new cur : Z) : Z * bool := if cur =? old then (new, true) else (cur, false).

Definition get_or_init_step (o : once) (th : once_thread) : once * once_thread * option T :=
  match th with
  | CallGetOrInit v =>
      let '(s, won) := compare_exchange UNINIT RUNNING (state o) in
      (MkOnce s (inner o), if won then WriteInit v else Await, None)
  | WriteInit v => (MkOnce (state o) (Some v), StoreReady, Some v)
  | StoreReady => (MkOnce READY (inner o), AssumeInit, None)
  | Await => (o, if state o =? READY then AssumeInit else Await, None)
  | AssumeInit => (o, Returned (ORef (inner o)), None)
  | _ => (o, th, None)
  end.
Definition get_step (o : once) (th : once_thread) : once * once_thread :=
  match th with
  | CallGet => (o, if state o =? READY then AssumeGet else Returned (OGet None))
  | AssumeGet => (o, Returned (OGet (Some (inner o))))
  | _ => (o, th)
  end.
Definition is_set (o : once) : bool := state o =? READY.
Definition set_step (o : once) (th : once_thread) : once * once_thread :=
  match th with
  | CallSet v =>
      let '(s, won) := compare_exchange UNINIT RUNNING (state o) in
      (MkOnce s (inner o), if won then WriteSet v else Returned (OSet (Err v)))
  | WriteSet v => (MkOnce (state o) (Some v), Returned (OSet (Ok tt)))
  | _ => (o, th)
  end.

(** One step of a thread, and what its closure gave if the step ran it. *)
Definition thread_step (o : once) (th : once_thread) : once * once_thread * option T :=
  match th with
  | CallGet | AssumeGet => (get_step o th, None)
  | CallIsSet => (o, Returned (OIsSet (is_set o)), None)
  | CallSet _ | WriteSet _ => (set_step o th, None)
  | Idle | Returned _ => (o, th, None)
  | _ => get_or_init_step o th
  end.

(** Threads that take turns; [ran] are the values of the closures that ran. *)
Record once_system : Type := MkSystem {
  cell : once;
  threads : list once_thread;
  ran : list T;
}.
Definition sys_new (n : nat) : once_system := MkSystem once_new (replicate n Idle) [].
Definition once_turn (i : nat) (s : once_system) : once_system :=
  match threads s !! i with
  | None => s
  | Some th =>
      let '(o, th', e) := thread_step (cell s) th in
      MkSystem o (<[i := th']> (threads s)) (ran s ++ option_list e)
  end.
Definition sys_run (turns : list nat) (s : once_system) : once_system := foldl (fun s i => once_turn i s) s turns.

(** States reached from [s0] if a thread that is idle may start the calls that
    [ok] allows. *)
Inductive sys_reach (ok : once_thread -> bool) (s0 : once_system) : once_system -> Prop :=
  | reach_start : sys_reach ok s0 s0
  | reach_call i th c s :
    sys_reach ok s0 s -> threads s !! i = Some th -> is_idle th = true -> is_call c = true -> ok c = true ->
    sys_reach ok s0 (MkSystem (cell s) (<[i := c]> (threads s)) (ran s))
  | reach_turn i s : sys_reach ok s0 s -> sys_reach ok s0 (once_turn i s).

Definition no_set (th : once_thread) : bool := match th with CallSet _ => false | _ => true end.

(** [OnceLockInit] keeps the closure in the cell: its [get] is [get_or_init] with
    the closure that [take] finds there. *)
Record once_init : Type := MkOnceInit {
  oi_cell : once;
  oi_init : option T;
}.
Definition once_init_new (f : T) : once_init := MkOnceInit once_new (Some f).
Definition init_get_step (o : once_init) (th : once_thread) : option (once_init * once_thread) :=
  match th with
  | WriteInit _ =>
      match oi_init o with
      | Some v => let '(c, th', _) := get_or_init_step (oi_cell o) (WriteInit v) in Some (MkOnceInit c None, th')
      | None => None
      end
  | _ => let '(c, th', _) := get_or_init_step (oi_cell o) th in Some (MkOnceInit c (oi_init o), th')
  end.
End once.
End OnceLock.
Export OnceLock.

(** ** The invariant *)

Section invariant.
Context {T : Type}.
Implicit Types (o : @once T) (th : @once_thread T) (s : @once_system T) (v : T).

(** The threads that may be around as long as the cell is untouched, while no
    value is there, and when it is. *)
Definition untouched (th : @once_thread T) : Prop :=
  match th with
  | CallGetOrInit _ | CallGet | CallIsSet | Idle => True
  | Returned (OGet None) | Returned (OIsSet false) => True
  | _ => False
  end.
Definition before (th : @once_thread T) : Prop :=
  match th with Await => True | _ => untouched th end.
Definition after v (th : @once_thread T) : Prop :=
  match th with
  | AssumeInit | AssumeGet => True
  | Returned (ORef x) => x = Some v
  | Returned (OGet (Some x)) => x = Some v
  | Returned (OIsSet true) => True
  | _ => before th
  end.

Definition others (P : @once_thread T -> Prop) (i : nat) (l : list once_thread) : Prop :=
  forall j th, l !! j = Some th -> j <> i -> P th.

Inductive once_inv : @once_system T -> Prop :=
  | inv_uninit l : (forall j th, l !! j = Some th -> untouched th) -> once_inv (MkSystem (MkOnce UNINIT None) l [])
  | inv_running i v l : l !! i = Some (WriteInit v) -> others before i l ->
      once_inv (MkSystem (MkOnce RUNNING None) l [])
  | inv_written i v l : l !! i = Some StoreReady -> others before i l ->
      once_inv (MkSystem (MkOnce RUNNING (Some v)) l [v])
  | inv_ready v l : (forall j th, l !! j = Some th -> after v th) ->
      once_inv (MkSystem (MkOnce READY (Some v)) l [v]).

Lemma untouched_before th : untouched th -> before th.
Proof. by destruct th. Qed.
Lemma before_after v th : before th -> after v th.
Proof. destruct th as [| | | | | | | | | | |r]; [done..|]. destruct r as [|[]|[]|]; done. Qed.

(** Replacing one thread keeps what holds of all, and what holds of the others. *)
Lemma all_insert (P : @once_thread T -> Prop) (l : list once_thread) i th :
  (forall j x, l !! j = Some x -> P x) -> P th -> forall j x, <[i := th]> l !! j = Some x -> P x.
Proof. intros Hl Hth j x [(-> & -> & _)|(_ & Hj)]%list_lookup_insert_Some; [done|by apply (Hl j)]. Qed.
Lemma others_insert (P : @once_thread T -> Prop) (l : list once_thread) i k th :
  others P k l -> P th -> others P k (<[i := th]> l).
Proof. intros Hl Hth j x [(-> & -> & _)|(_ & Hj)]%list_lookup_insert_Some; [done|by apply (Hl j)]. Qed.
Lemma others_become (P : @once_thread T -> Prop) (l : list once_thread) i th :
  (forall j x, l !! j = Some x -> P x) -> others P i (<[i := th]> l).
Proof. intros Hl j x [(-> & -> & _)|(_ & Hj)]%list_lookup_insert_Some; [done|intros _; by apply (Hl j)]. Qed.
Lemma others_stay (P : @once_thread T -> Prop) (l : list once_thread) i th :
  others P i l -> others P i (<[i := th]> l).
Proof. intros Hl j x [(-> & -> & _)|(_ & Hj)]%list_lookup_insert_Some; [done|by apply (Hl j)]. Qed.
Lemma others_all (P : @once_thread T -> Prop) (l : list once_thread) i th :
  others P i l -> P th -> forall j x, <[i := th]> l !! j = Some x -> P x.
Proof. intros Hl Hth j x [(-> & -> & _)|(Hne & Hj)]%list_lookup_insert_Some; [done|apply (Hl j); [done|congruence]]. Qed.

Lemma sys_new_inv n : once_inv (sys_new n).
Proof. apply inv_uninit. by intros j th [-> _]%lookup_replicate. Qed.

(** A thread that holds nothing starts a call. *)
Lemma call_inv i th c s :
  once_inv s -> threads s !! i = Some th -> is_idle th = true -> is_call c = true -> no_set c = true ->
  once_inv (MkSystem (cell s) (<[i := c]> (threads s)) (ran s)).
Proof.
  intros Hinv Hi Hidle Hc Hok. assert (untouched c) as Hu by (by destruct c). pose proof (untouched_before c Hu) as Hb.
  destruct Hinv as [l Hl|k v l Hk Hl|k v l Hk Hl|v l Hl]; cbn [cell threads ran] in *.
  - apply inv_uninit. by apply all_insert.
  - apply (inv_running k v); [|by apply others_insert]. rewrite list_lookup_insert_ne; [done|].
    intros ->. rewrite Hk in Hi. by injection Hi as <-.
  - apply (inv_written k v); [|by apply others_insert]. rewrite list_lookup_insert_ne; [done|].
    intros ->. rewrite Hk in Hi. by injection Hi as <-.
  - apply inv_ready. apply all_insert; [done|by apply before_after].
Qed.
End invariant.

Section turns.
Context {T : Type}.
Implicit Types (o : @once T) (th : @once_thread T) (s : @once_system T) (v : T).

Lemma before_step x th :
  before th -> exists th', thread_step (MkOnce RUNNING x) th = (MkOnce RUNNING x, th', None) /\ before th'.
Proof. destruct th as [| | | | | | | | | | |r]; intros Hb; try done; eexists; by split. Qed.
Lemma after_step v th :
  after v th -> exists th', thread_step (MkOnce READY (Some v)) th = (MkOnce READY (Some v), th', None) /\ after v th'.
Proof. destruct th as [| | | | | | | | | | |r]; intros Hb; try done; eexists; by split. Qed.

Lemma turn_inv i s : once_inv s -> once_inv (once_turn i s).
Proof.
  intros Hinv. unfold once_turn. destruct (threads s !! i) as [th|] eqn:Hi; [|done].
  destruct Hinv as [l Hl|k v l Hk Hl|k v l Hk Hl|v l Hl]; cbn [cell threads ran] in *.
  - pose proof (Hl i th Hi) as Hb. pose proof (lookup_lt_Some _ _ _ Hi) as Hlt.
    destruct th as [v| | | | | | | | | | |r]; try done;
      try (apply inv_uninit; apply all_insert; [done|exact Hb || exact I]).
    apply (inv_running i v); [by apply list_lookup_insert_eq|].
    apply others_become. intros j x Hj. by apply untouched_before, (Hl j).
  - destruct (decide (i = k)) as [->|Hne].
    + rewrite Hk in Hi. injection Hi as <-. apply (inv_written k v); [|by apply others_stay].
      apply list_lookup_insert_eq. by apply lookup_lt_Some in Hk.
    + destruct (before_step None th) as (th' & -> & Hb); [by apply (Hl i)|].
      apply (inv_running k v); [|by apply others_insert]. by rewrite list_lookup_insert_ne.
  - destruct (decide (i = k)) as [->|Hne].
    + rewrite Hk in Hi. injection Hi as <-. apply inv_ready.
      apply others_all; [|done]. intros j th Hj Hn. by apply before_after, (Hl j).
    + destruct (before_step (Some v) th) as (th' & -> & Hb); [by apply (Hl i)|].
      apply (inv_written k v); [|by apply others_insert]. by rewrite list_lookup_insert_ne.
  - destruct (after_step v th) as (th' & -> & Ha); [by apply (Hl i)|]. apply inv_ready. by apply all_insert.
Qed.

Lemma reach_inv (ok : once_thread -> bool) n s :
  (forall c, ok c = true -> no_set c = true) -> sys_reach ok (sys_new n) s -> once_inv s.
Proof.
  intros Hok Hr. induction Hr as [|i th c s Hr IH Hi Hidle Hc Ho|i s Hr IH].
  - apply sys_new_inv.
  - apply (call_inv i th); auto.
  - by apply turn_inv.
Qed.

(** The turns of the thread that holds the cell make it ready, and then those of
    a waiting thread make that one return. *)
Lemma await_returns i s :
  once_inv s -> threads s !! i = Some Await ->
  exists turns v, (length turns <= 4)%nat /\ threads (sys_run turns s) !! i = Some (Returned (ORef (Some v))).
Proof.
  assert (forall v l, l !! i = Some Await ->
    threads (sys_run [i; i] (MkSystem (MkOnce READY (Some v)) l [v])) !! i = Some (Returned (ORef (Some v)))) as Hready.
  { intros v l Hi. pose proof (lookup_lt_Some _ _ _ Hi) as Hlt. unfold sys_run, foldl, once_turn at 2. cbn [threads]. rewrite Hi. cbn.
    unfold once_turn. cbn [threads]. rewrite list_lookup_insert_eq by done. cbn. rewrite list_insert_insert_eq.
    by apply list_lookup_insert_eq. }
  assert (forall k v l, l !! k = Some StoreReady -> l !! i = Some Await ->
    threads (sys_run [k; i; i] (MkSystem (MkOnce RUNNING (Some v)) l [v])) !! i = Some (Returned (ORef (Some v)))) as Hwritten.
  { intros k v l Hk Hi. change (sys_run [k; i; i]) with (fun s => sys_run [i; i] (@once_turn T k s)). cbv beta. unfold once_turn. cbn [threads]. rewrite Hk.
    cbn [cell thread_step get_or_init_step ran option_list app]. apply Hready. rewrite list_lookup_insert_ne; [done|congruence]. }
  intros Hinv Hi. destruct Hinv as [l Hl|k v l Hk Hl|k v l Hk Hl|v l Hl]; cbn [threads] in Hi.
  - by destruct (Hl i Await Hi).
  - exists [k; k; i; i], v. split; [done|].
    change (sys_run [k; k; i; i]) with (fun s => sys_run [k; i; i] (@once_turn T k s)). cbv beta. unfold once_turn. cbn [threads]. rewrite Hk.
    cbn [cell thread_step get_or_init_step ran option_list app]. pose proof (lookup_lt_Some _ _ _ Hk) as Hlt.
    apply Hwritten; [by apply list_lookup_insert_eq|]. rewrite list_lookup_insert_ne; [done|congruence].
  - exists [k; i; i], v. split; [cbn; lia|]. by apply Hwritten.
  - exists [i; i], v. split; [cbn; lia|]. by apply Hready.
Qed.
End turns.

(** ** The closure that is kept in the cell *)

Section init.
Context {T : Type}.
Implicit Types (s : @once_system T) (f : T).

Definition only_init f (th : @once_thread T) : Prop :=
  match th with CallGetOrInit v | WriteInit v => v = f
  | StoreReady | Await | AssumeInit | Idle | Returned _ => True | _ => False end.
Lemma only_init_step f o th : only_init f th -> only_init f (thread_step o th).1.2.
Proof.
  intros Hth. destruct th as [v| | | | | | | | | | |r]; cbn in *; try done.
  - unfold compare_exchange. by destruct (state o =? UNINIT).
  - by destruct (state o =? READY).
Qed.
Lemma reach_only_init f (ok : once_thread -> bool) n s :
  (forall c, ok c = true -> c = CallGetOrInit f) -> sys_reach ok (sys_new n) s ->
  forall i th, threads s !! i = Some th -> only_init f th.
Proof.
  intros Hok Hr. induction Hr as [|i th c s Hr IH Hi Hidle Hc Ho|i s Hr IH]; intros j x Hj.
  - by apply lookup_replicate in Hj as [-> _].
  - cbn [threads] in Hj. revert j x Hj. apply all_insert; [done|]. by rewrite (Hok c Ho).
  - revert j x Hj. unfold once_turn. destruct (threads s !! i) as [th|] eqn:Hi; [|done].
    pose proof (only_init_step f (cell s) th (IH i th Hi)) as Hth.
    destruct (thread_step (cell s) th) as [[o th'] e]. cbn [threads]. by apply all_insert.
Qed.
End init.

(** ** A cell that was [set] *)

Section closed.
Context {T : Type}.

Definition closed (th : @once_thread T) : Prop :=
  match th with
  | CallGetOrInit _ | CallGet | CallIsSet | CallSet _ | Await | Idle => True
  | Returned (OGet None) | Returned (OIsSet false) | Returned (OSet (Err _)) => True
  | _ => False
  end.
Lemma closed_step x th :
  closed th -> exists th', thread_step (MkOnce RUNNING x) th = (MkOnce RUNNING x, th', None) /\ closed th'.
Proof. destruct th as [| | | | | | | | | | |r]; intros Hb; try done; eexists; by split. Qed.
End closed.

(** ** The claims *)

(** C28: any number of threads that call [get_or_init], [get] and [is_set] in any
    order: at most one of their closures runs; every reference that was handed
    out reads the value of that closure, never an unwritten cell; and a thread
    that waits in [get_or_init] returns after at most four further turns of it
    and of the thread that runs the closure. *)
Theorem once_lock_correct {T} (ok : @once_thread T -> bool) n s :
  (forall c, ok c = true -> no_set c = true) -> sys_reach ok (sys_new n) s ->
  (length (ran s) <= 1)%nat /\
  (forall i x, threads s !! i = Some (Returned (ORef x)) \/ threads s !! i = Some (Returned (OGet (Some x))) ->
    exists v, x = Some v /\ ran s = [v]) /\
  (forall i, threads s !! i = Some Await ->
    exists turns v, (length turns <= 4)%nat /\ threads (sys_run turns s) !! i = Some (Returned (ORef (Some v)))).
Proof.
  intros Hok Hr. pose proof (reach_inv ok n s Hok Hr) as Hinv. split; [|split; [|by intros i; apply await_returns]].
  - destruct Hinv; cbn; lia.
  - intros i x Hi. destruct Hinv as [l Hl|k v l Hk Hl|k v l Hk Hl|v l Hl]; cbn [threads ran] in *;
      destruct Hi as [Hi|Hi]; try (by apply Hl in Hi); try (by exists v; apply Hl in Hi);
      (destruct (decide (i = k)) as [->|Hne]; [congruence|by apply (Hl _ _ Hi) in Hne]).
Qed.

Lemma once_lock_correct_witness :
  let s := sys_run [0; 1; 0; 0; 1; 1]%nat (MkSystem once_new [CallGetOrInit 5; CallGetOrInit 6] []) in
  (length (ran s) <= 1)%nat /\
  (forall i x, threads s !! i = Some (Returned (ORef x)) \/ threads s !! i = Some (Returned (OGet (Some x))) ->
    exists v, x = Some v /\ ran s = [v]) /\
  (forall i, threads s !! i = Some Await ->
    exists turns v, (length turns <= 4)%nat /\ threads (sys_run turns s) !! i = Some (Returned (ORef (Some v)))).
Proof.
  apply (once_lock_correct no_set 2); [by intros c|].
  unfold sys_run, foldl. do 6 apply reach_turn.
  apply (reach_call no_set (sys_new 2) 1 Idle (CallGetOrInit 6) (MkSystem once_new [CallGetOrInit 5; Idle] [])); [|done..].
  apply (reach_call no_set (sys_new 2) 0 Idle (CallGetOrInit 5) (sys_new 2)); [apply reach_start|done..].
Defined.

(** [OnceLockInit::get] finds its closure whenever it takes it, so that
    [unwrap_unchecked] is sound, and does what [get_or_init] does. *)
Theorem once_init_get {T} (f : T) (ok : @once_thread T -> bool) n s i th :
  (forall c, ok c = true -> c = CallGetOrInit f) -> sys_reach ok (sys_new n) s -> threads s !! i = Some th ->
  is_idle th = false ->
  let kept (s : @once_system T) := MkOnceInit (cell s) (match ran s with [] => Some f | _ => None end) in
  exists th', init_get_step (kept s) th = Some (kept (once_turn i s), th') /\ threads (once_turn i s) !! i = Some th'.
Proof.
  intros Hok Hr Hi Hb kept. pose proof (reach_only_init f ok n s Hok Hr i th Hi) as Hf.
  assert (once_inv s) as Hinv by (apply (reach_inv ok n s); [intros c Hc; by rewrite (Hok c Hc)|done]).
  unfold once_turn. rewrite Hi. pose proof (lookup_lt_Some _ _ _ Hi) as Hlt.
  assert (forall v, th = WriteInit v -> ran s = []) as Hran.
  { intros v ->. destruct Hinv as [l Hl|k w l Hk Hl|k w l Hk Hl|w l Hl]; cbn [threads ran] in *; [done|done| |by apply Hl in Hi].
    destruct (decide (i = k)) as [->|Hne]; [congruence|by apply (Hl _ _ Hi) in Hne]. }
  destruct th as [v| | | | | | | | | | |r]; cbn in Hf, Hb; try done; subst;
    cbn [thread_step get_or_init_step init_get_step kept oi_cell oi_init].
  - unfold compare_exchange. destruct (state (cell s) =? UNINIT); cbn [threads cell ran option_list];
      rewrite app_nil_r, list_lookup_insert_eq by done; by eexists.
  - rewrite (Hran f eq_refl). cbn [threads cell ran option_list app]. rewrite list_lookup_insert_eq by done. by eexists.
  - cbn [threads cell ran option_list]. rewrite app_nil_r, list_lookup_insert_eq by done. by eexists.
  - cbn [threads cell ran option_list]. rewrite app_nil_r, list_lookup_insert_eq by done. by eexists.
  - cbn [threads cell ran option_list]. rewrite app_nil_r, list_lookup_insert_eq by done. by eexists.
Qed.

Lemma once_init_get_witness :
  let kept (s : @once_system Z) := MkOnceInit (cell s) (match ran s with [] => Some 5 | _ => None end) in
  let s := MkSystem (MkOnce RUNNING None) [WriteInit 5] [] in
  exists th', init_get_step (kept s) (WriteInit 5) = Some (kept (once_turn 0 s), th') /\ threads (once_turn 0 s) !! 0%nat = Some th'.
Proof.
  apply (once_init_get 5 (fun c => match c with CallGetOrInit v => v =? 5 | _ => false end) 1).
  - intros [v| | | | | | | | | | |r] Hc; try discriminate Hc. by apply Z.eqb_eq in Hc as ->.
  - apply (reach_turn _ _ 0%nat (MkSystem once_new [CallGetOrInit 5] [])).
    apply (reach_call _ (sys_new 1) 0 Idle (CallGetOrInit 5) (sys_new 1)); [apply reach_start|done..].
  - reflexivity.
  - reflexivity.
Defined.

(** [set] leaves the cell closed for good: it stores the value and answers
    [Ok], but the state stays RUNNING, so afterwards, whatever any number of
    threads calls, [get] finds nothing, [is_set] says no, and [get_or_init] does
    not return. *)
Theorem set_closes_cell {T} (v : T) (m : nat) :
  let s := sys_run [0; 0]%nat (MkSystem once_new [CallSet v] []) in
  s = MkSystem (MkOnce RUNNING (Some v)) [Returned (OSet (Ok tt))] [] /\
  forall s', sys_reach (fun _ => true) (MkSystem (cell s) (replicate m Idle) []) s' ->
    cell s' = cell s /\ ran s' = [] /\
    forall i r, threads s' !! i = Some (Returned r) ->
      r = OGet None \/ r = OIsSet false \/ exists w, r = OSet (Err w).
Proof.
  intros s. split; [done|]. change (cell s) with (MkOnce RUNNING (Some v)). clear s. intros s' Hr.
  assert (cell s' = MkOnce RUNNING (Some v) /\ ran s' = [] /\ forall i th, threads s' !! i = Some th -> closed th) as (-> & -> & Hth).
  { induction Hr as [|i th c s Hr (Hc & Hn & Hth) Hi Hidle Hcall Ho|i s Hr (Hc & Hn & Hth)]; cbn [cell ran threads].
    - split; [done|]. split; [done|]. by intros i th [-> _]%lookup_replicate.
    - split; [done|]. split; [done|]. apply all_insert; [done|]. by destruct c.
    - unfold once_turn. destruct (threads s !! i) as [th|] eqn:Hi; [|done]. rewrite Hc, Hn.
      destruct (closed_step (Some v) th (Hth i th Hi)) as (th' & -> & Hcl). split; [done|]. split; [done|].
      by apply all_insert. }
  split; [done|]. split; [done|]. intros i r Hi. apply Hth in Hi. destruct r as [|[]|[]|[]]; cbn in Hi; try done; eauto.
Qed.
