(* ===== verification/Interrupts.v ===== *)
(** Interrupt masks, critical sections and the stacks of the processor's modes:
    [device/bismuth/src/int.rs] and the module [critical_section_support] of
    [device/bismuth/src/lib.rs].

    The code runs in a privileged mode (in User mode the instructions below do
    nothing).  The state is the program status register and the banked stack pointers; an
    [asm!] block is the sequence of its instructions on that state. *)
From S2P Require Import Prelude.

Module Interrupts.

Inductive InterruptMode : Type := Neither | FiqOnly | IrqOnly | Both.
#[export] Instance InterruptMode_eq_dec : EqDecision InterruptMode.
Proof. solve_decision. Defined.

Definition IRQ_BIT : Z := 0x80.
Definition FIQ_BIT : Z := 0x40.

(** Rust's [!x] of a 32-bit word. *)
Definition not32 (x : Z) : Z := Z.lxor x (Z.ones 32).

Definition masks (mode : InterruptMode) : Z * Z :=
  match mode with
  | Neither => (0, Z.lor IRQ_BIT FIQ_BIT)
  | IrqOnly => (IRQ_BIT, FIQ_BIT)
  | FiqOnly => (FIQ_BIT, IRQ_BIT)
  | Both => (Z.lor IRQ_BIT FIQ_BIT, 0)
  end.

Definition interrupt_mode_from_bits (cpsr : Z) : InterruptMode :=
  match Z.land cpsr IRQ_BIT =? 0, Z.land cpsr FIQ_BIT =? 0 with
  | false, false => Neither
  | true, false => IrqOnly
  | false, true => FiqOnly
  | true, true => Both
  end.

(** [msr cpsr, r] writes the flags and the control field. *)
Definition FC_FIELDS : Z := 0xff0000ff.
Definition msr (cpsr t : Z) : Z := Z.lor (Z.land cpsr (not32 FC_FIELDS)) (Z.land t FC_FIELDS).

Definition set_enabled_interrupts (mode : InterruptMode) (cpsr : Z) : Z * InterruptMode :=
  let '(clear_mask, set_mask) := masks mode in
  let t0 := Z.lor (Z.land cpsr (not32 clear_mask)) set_mask in
  (msr cpsr t0, interrupt_mode_from_bits cpsr).
Definition get_enabled_interrupts (cpsr : Z) : InterruptMode := interrupt_mode_from_bits cpsr.

(** *** [critical_section_support] *)

Definition to_restore (mode : InterruptMode) : Z :=
  match mode with Neither => 0 | FiqOnly => 1 | IrqOnly => 2 | Both => 3 end.
Definition try_from_restore (value : Z) : result InterruptMode Z :=
  if value =? 0 then Ok Neither else if value =? 1 then Ok FiqOnly
  else if value =? 2 then Ok IrqOnly else if value =? 3 then Ok Both else Err value.
Definition acquire (cpsr : Z) : Z * Z :=
  let '(cpsr', previous) := set_enabled_interrupts Neither cpsr in (cpsr', to_restore previous).
Definition release (restore_state : Z) (cpsr : Z) : run Z :=
  match try_from_restore restore_state with
  | Ok mode => Val (fst (set_enabled_interrupts mode cpsr))
  | Err _ => Panic
  end.

(** Code that uses critical sections: work with a tag, sequences, and sections
    that enclose code, which [critical_section::with] runs between [acquire] and
    [release].  The trace shows the interrupts that were enabled at each piece. *)
Inductive code : Type :=
  | Work (tag : nat)
  | Seq (c1 c2 : code)
  | With (c : code).
Fixpoint run_code (c : code) (cpsr : Z) : run (Z * list (nat * InterruptMode)) :=
  match c with
  | Work tag => Val (cpsr, [(tag, get_enabled_interrupts cpsr)])
  | Seq c1 c2 =>
      '(s1, t1) ← run_code c1 cpsr; '(s2, t2) ← run_code c2 s1; Val (s2, t1 ++ t2)
  | With c =>
      let '(s1, token) := acquire cpsr in
      '(s2, t) ← run_code c s1; s3 ← release token s2; Val (s3, t)
  end.

(** *** [OperatingMode] and the stacks *)

Inductive OperatingMode : Type := User | FIQ | IRQ | Supervisor | MAbort | Undefined | System.
#[export] Instance OperatingMode_eq_dec : EqDecision OperatingMode.
Proof. solve_decision. Defined.

Definition to_bits (m : OperatingMode) : Z :=
  match m with
  | User => 0x10 | FIQ => 0x11 | IRQ => 0x12 | Supervisor => 0x13
  | MAbort => 0x17 | Undefined => 0x1b | System => 0x1f
  end.
Definition modes : list OperatingMode := [User; FIQ; IRQ; Supervisor; MAbort; Undefined; System].
(** The mode in the low five bits of the register. *)
Definition mode_of (cpsr : Z) : option OperatingMode :=
  list_find (fun m => to_bits m = Z.land cpsr 0x1f) modes ≫= (fun im => Some (snd im)).
(** User and System mode share their stack pointer. *)
Definition bank (m : OperatingMode) : OperatingMode := match m with User => System | _ => m end.

Record cpu : Type := MkCpu {
  cpsr : Z;
  sp : OperatingMode -> Z;
}.
(** [cps] and [cpsid]: the mode, and the mask bits that are set. *)
Definition cps (mask mode : Z) (c : cpu) : cpu :=
  MkCpu (Z.lor (Z.land (cpsr c) (not32 0x1f)) (Z.lor mode mask)) (sp c).
(** [mov sp, r] *)
Definition mov_sp (v : Z) (c : cpu) : cpu :=
  MkCpu (cpsr c) (fun b => if decide (Some b = bank <$> mode_of (cpsr c)) then v else sp c b).
Definition msr_cpsr (t0 : Z) (c : cpu) : cpu := MkCpu (msr (cpsr c) t0) (sp c).

Definition A_BIT : Z := 0x100.
Definition switch (mode : OperatingMode) : option (Z * Z) :=
  match mode with
  | FIQ => Some (FIQ_BIT, 0x11)
  | IRQ => Some (IRQ_BIT, 0x12)
  | Supervisor => None
  | MAbort => Some (A_BIT, 0x17)
  | Undefined => Some (0, 0x1b)
  | User | System => Some (0, 0x1f)
  end.
Definition init_stack_for_mode (mode : OperatingMode) (stack : Z) (c : cpu) : run cpu :=
  _ ← rust_assert (Z.land stack 7 =? 0);
  match switch mode with
  | None => Val c
  | Some (mask, bits) => let t0 := cpsr c in Val (msr_cpsr t0 (mov_sp stack (cps mask bits c)))
  end.
End Interrupts.
Export Interrupts.

(** ** Single bits *)

(** A claim about the bits of a word, bit by bit. *)
Ltac each_bit_of_32 i :=
  let k := fresh "k" in
  assert (exists k, i = Z.of_nat k) as [k ->] by (exists (Z.to_nat i); lia);
  do 32 (try (destruct k as [|k])); [..|lia].

Lemma land_bit c n : 0 <= n -> (Z.land c (2 ^ n) =? 0) = negb (Z.testbit c n).
Proof.
  intros Hn. assert (Z.land c (2 ^ n) = if Z.testbit c n then 2 ^ n else 0) as ->.
  { apply Z.bits_inj'. intros i Hi. rewrite Z.land_spec, Z.pow2_bits_eqb by done.
    destruct (Z.eqb_spec n i) as [->|Hne].
    - destruct (Z.testbit c i); [by rewrite Z.pow2_bits_true|by rewrite Z.bits_0].
    - rewrite andb_false_r. destruct (Z.testbit c n); [by rewrite Z.pow2_bits_false|by rewrite Z.bits_0]. }
  destruct (Z.testbit c n); [|done]. apply Z.eqb_neq. apply Z.pow_nonzero; lia.
Qed.

Definition irq_on (m : InterruptMode) : bool := match m with IrqOnly | Both => true | _ => false end.
Definition fiq_on (m : InterruptMode) : bool := match m with FiqOnly | Both => true | _ => false end.

Lemma mode_from_bits c :
  interrupt_mode_from_bits c =
  match Z.testbit c 7, Z.testbit c 6 with
  | true, true => Neither | false, true => IrqOnly | true, false => FiqOnly | false, false => Both
  end.
Proof.
  unfold interrupt_mode_from_bits. change IRQ_BIT with (2 ^ 7). change FIQ_BIT with (2 ^ 6).
  rewrite !land_bit by lia. by destruct (Z.testbit c 7), (Z.testbit c 6).
Qed.

Lemma set_bits m c i :
  fits 32 c -> 0 <= i ->
  Z.testbit (fst (set_enabled_interrupts m c)) i =
  if i =? 7 then negb (irq_on m) else if i =? 6 then negb (fiq_on m) else Z.testbit c i.
Proof.
  intros Hc Hi. destruct (decide (i < 32)) as [Hlt|Hge].
  - revert Hlt. each_bit_of_32 i; intros _;
      destruct m; unfold set_enabled_interrupts, msr; cbn [fst masks]; rewrite ?Z.lor_spec, ?Z.land_spec, ?Z.lor_spec, ?Z.land_spec; cbn;
      by rewrite ?andb_true_r, ?andb_false_r, ?orb_false_r, ?orb_true_r.
  - rewrite !(proj2 (Z.eqb_neq _ _)) by lia. rewrite (fits_testbit 32 c) by (done || lia).
    unfold set_enabled_interrupts, msr. destruct (masks m) as [cm sm]. cbn [fst].
    rewrite Z.lor_spec, !Z.land_spec, (fits_testbit 32 c), (fits_testbit 32 FC_FIELDS) by (done || lia || by vm_compute).
    by rewrite andb_false_r.
Qed.

Section masks.
Implicit Types (m : InterruptMode) (c : Z).

Lemma set_fits m c : fits 32 c -> fits 32 (fst (set_enabled_interrupts m c)).
Proof.
  intros Hc. apply testbit_fits; [lia| |].
  - unfold set_enabled_interrupts, msr. destruct (masks m) as [cm sm]. cbn [fst].
    apply Z.lor_nonneg. split; apply Z.land_nonneg; [left; by destruct Hc|by right].
  - intros i Hi. rewrite set_bits by (done || lia). rewrite !(proj2 (Z.eqb_neq _ _)) by lia.
    by apply (fits_testbit 32).
Qed.
Lemma set_mode m c : fits 32 c -> get_enabled_interrupts (fst (set_enabled_interrupts m c)) = m.
Proof. intros Hc. unfold get_enabled_interrupts. rewrite mode_from_bits, !set_bits by (done || lia). by destruct m. Qed.
(** To mask and to enable again what was enabled before gives the register back. *)
Lemma set_back m c :
  fits 32 c -> fst (set_enabled_interrupts (get_enabled_interrupts c) (fst (set_enabled_interrupts m c))) = c.
Proof.
  intros Hc. apply Z.bits_inj'. intros i Hi. rewrite !set_bits by (try done; by apply set_fits).
  unfold get_enabled_interrupts. rewrite mode_from_bits.
  destruct (Z.eqb_spec i 7) as [->|]; [by destruct (Z.testbit c 7), (Z.testbit c 6)|].
  destruct (Z.eqb_spec i 6) as [->|]; [by destruct (Z.testbit c 7), (Z.testbit c 6)|done].
Qed.
Lemma restore_roundtrip m : try_from_restore (to_restore m) = Ok m.
Proof. by destruct m. Qed.
Lemma acquire_eq c :
  acquire c = (fst (set_enabled_interrupts Neither c), to_restore (get_enabled_interrupts c)).
Proof. done. Qed.
Lemma release_eq m c : release (to_restore m) c = Val (fst (set_enabled_interrupts m c)).
Proof. unfold release. by rewrite restore_roundtrip. Qed.
End masks.

(** *** Modes *)

Lemma switch_mode mode mask bits c :
  switch mode = Some (mask, bits) ->
  bank <$> mode_of (Z.lor (Z.land c (not32 0x1f)) (Z.lor bits mask)) = Some (bank mode).
Proof.
  intros Hs. unfold mode_of.
  assert (Z.land (Z.lor (Z.land c (not32 0x1f)) (Z.lor bits mask)) 0x1f = bits) as ->; [|by destruct mode; try discriminate Hs; injection Hs as <- <-].
  rewrite Z.land_lor_distr_l, <- Z.land_assoc. change (Z.land (not32 0x1f) 0x1f) with 0. rewrite Z.land_0_r.
  by destruct mode; try discriminate Hs; injection Hs as <- <-.
Qed.

(** The register after the detour through the other mode. *)
Lemma msr_after_cps mode mask bits c :
  fits 32 c -> switch mode = Some (mask, bits) ->
  msr (Z.lor (Z.land c (not32 0x1f)) (Z.lor bits mask)) c = if decide (mode = MAbort) then Z.lor c A_BIT else c.
Proof.
  intros Hc Hs. unfold msr. rewrite Z.land_lor_distr_l, <- Z.land_assoc.
  change (Z.land (not32 0x1f) (not32 FC_FIELDS)) with (not32 FC_FIELDS).
  rewrite <- Z.lor_assoc, (Z.lor_comm (Z.land (Z.lor bits mask) _)), Z.lor_assoc, <- Z.land_lor_distr_r.
  change (Z.lor (not32 FC_FIELDS) FC_FIELDS) with (Z.ones 32). rewrite Z.land_ones by lia.
  rewrite Z.mod_small by (destruct Hc; lia).
  by destruct mode; try discriminate Hs; injection Hs as <- <-; [rewrite Z.lor_0_r..| |rewrite Z.lor_0_r|rewrite Z.lor_0_r].
Qed.
Lemma mode_of_A c : mode_of (Z.lor c A_BIT) = mode_of c.
Proof. unfold mode_of. rewrite Z.land_lor_distr_l. change (Z.land A_BIT 0x1f) with 0. by rewrite Z.lor_0_r. Qed.

(** What the pieces of a program should see: nothing enabled inside a section. *)
Fixpoint expected (c : code) (m : InterruptMode) : list (nat * InterruptMode) :=
  match c with
  | Work tag => [(tag, m)]
  | Seq c1 c2 => expected c1 m ++ expected c2 m
  | With c => expected c Neither
  end.

(** ** The claims *)

(** Critical sections nest: however code with critical sections is built, it
    runs to the end with the status register as it was at the start, every
    piece inside a section runs with both kinds of interrupts masked, and every
    piece outside sees the interrupts that were enabled at the start. *)
Theorem critical_sections_nest (c : code) cpsr :
  fits 32 cpsr -> run_code c cpsr = Val (cpsr, expected c (get_enabled_interrupts cpsr)).
Proof.
  revert cpsr. induction c as [tag|c1 IH1 c2 IH2|c IH]; intros cpsr Hc; cbn [run_code expected]; [done| |].
  - rewrite IH1 by done. cbn. by rewrite IH2.
  - rewrite acquire_eq, IH by by apply set_fits. cbn [mbind run_bind]. rewrite set_mode by done.
    rewrite release_eq. cbn [mbind run_bind]. by rewrite set_back.
Qed.

Lemma critical_sections_nest_witness :
  fits 32 0x13 /\
  run_code (Seq (Work 1) (With (Seq (With (Work 2)) (Work 3)))) 0x13 = Val (0x13, [(1%nat, Both); (2%nat, Neither); (3%nat, Neither)]).
Proof.
  assert (fits 32 0x13) as Hf by (split; [done|reflexivity]). split; [exact Hf|].
  exact (critical_sections_nest (Seq (Work 1) (With (Seq (With (Work 2)) (Work 3)))) 0x13 Hf).
Defined.

(** [init_stack_for_mode] refuses a stack that is not aligned to eight bytes;
    else it sets the stack pointer of exactly the mode that was asked for (none
    for Supervisor) and comes back to the mode it was called in; of the status
    register only the mask of imprecise aborts can be different. *)
Theorem init_stack_sets_bank mode stack c :
  fits 32 (cpsr c) ->
  match init_stack_for_mode mode stack c with
  | Panic => stack mod 8 <> 0
  | Val c' =>
      stack mod 8 = 0 /\
      (forall b, sp c' b = if decide (mode <> Supervisor /\ b = bank mode) then stack else sp c b) /\
      cpsr c' = (if decide (mode = MAbort) then Z.lor (cpsr c) A_BIT else cpsr c) /\
      mode_of (cpsr c') = mode_of (cpsr c)
  end.
Proof.
  intros Hc. unfold init_stack_for_mode, rust_assert. change 7 with (Z.ones 3). rewrite Z.land_ones by lia.
  change (2 ^ 3) with 8. destruct (Z.eqb_spec (stack mod 8) 0) as [Ha|Ha]; [|done]. cbn [mbind run_bind].
  destruct (switch mode) as [[mask bits]|] eqn:Hs; [|by destruct mode].
  split; [done|]. split; [|split].
  - intros b. cbn [sp msr_cpsr mov_sp cps cpsr]. rewrite (switch_mode mode mask bits) by done. cbn [fmap option_fmap option_map].
    destruct (decide (Some b = Some (bank mode))); destruct (decide (mode <> Supervisor /\ b = bank mode)); try done.
    + exfalso. destruct mode; naive_solver.
    + naive_solver.
  - cbn [cpsr msr_cpsr mov_sp cps]. by apply msr_after_cps with (mask := mask) (bits := bits).
  - cbn [cpsr msr_cpsr mov_sp cps]. rewrite (msr_after_cps mode mask bits) by done.
    destruct (decide (mode = MAbort)); [apply mode_of_A|done].
Qed.

Lemma init_stack_sets_bank_witness :
  let c := MkCpu 0x6000015f (fun _ => 0) in
  match init_stack_for_mode IRQ 0x8000 c with
  | Panic => 0x8000 mod 8 <> 0
  | Val c' =>
      0x8000 mod 8 = 0 /\
      (forall b, sp c' b = if decide (IRQ <> Supervisor /\ b = bank IRQ) then 0x8000 else sp c b) /\
      cpsr c' = (if decide (IRQ = MAbort) then Z.lor (cpsr c) A_BIT else cpsr c) /\
      mode_of (cpsr c') = mode_of (cpsr c)
  end.
Proof. apply (init_stack_sets_bank IRQ 0x8000 (MkCpu 0x6000015f (fun _ => 0))). split; [done|reflexivity]. Defined.
