(* ===== verification/Vectors.v ===== *)
(** The exception vectors of the ARM device: [device/bismuth/src/exceptions.rs].

    A table of branch instructions is written.  What an instruction does is the
    decoder of the processor, which the theorems compare the encoder with. *)
From Stdlib Require Import ZifyClasses Zify.
From S2P Require Import Prelude.

#[local] Ltac Zify.zify_post_hook ::= Z.to_euclidean_division_equations.

(** Rust's [as isize] of a [w]-bit word. *)
Definition signed (w x : Z) : Z := if x <? 2 ^ (w - 1) then x else x - 2 ^ w.

Module ArmVectors.

Inductive ExceptionError : Type :=
  | TooFar (from to : Z)
  | VectorTableAlignment
  | JumpTargetAlignment
  | DestinationTooSmall.
#[export] Instance ExceptionError_eq_dec : EqDecision ExceptionError.
Proof. solve_decision. Defined.

Definition encode_relative_jump (to_addr from_addr : Z) : result Z ExceptionError :=
  if bool_decide (Z.land to_addr 3 <> 0 \/ Z.land from_addr 3 <> 0) then Err JumpTargetAlignment
  else
    let immed_24_unchecked := wrap 32 (Z.shiftr (signed 32 (wrap 32 (to_addr - from_addr - 8))) 2) in
    let sign_ext := Z.land immed_24_unchecked 0xff000000 in
    let expressible := (sign_ext =? 0) || (sign_ext =? 0xff000000) in
    if negb expressible then Err (TooFar from_addr to_addr)
    else
      let immed_24 := Z.land immed_24_unchecked 0x00ffffff in
      Ok (Z.lor (Z.lor (Z.lor 0xe0000000 0x0a000000) 0) immed_24).

(** What the processor does with a word at [pc]: where [B] jumps to. *)
Definition branch_target (pc instruction : Z) : option Z :=
  if Z.shiftr instruction 24 =? 0xea
  then Some (wrap 32 (pc + 8 + 4 * signed 24 (wrap 24 instruction)))
  else None.

Inductive FiqAction : Type :=
  | Jump (target : Z)
  | Code (words : list Z).
Record VectorBuilder : Type := MkVectorBuilder {
  maps : list Z;
  fiq : FiqAction;
}.

(** The addresses of the trampolines that the linker gives. *)
Record trampolines : Type := MkTrampolines {
  t_reset : Z; t_undef : Z; t_svc : Z; t_pabt : Z; t_dabt : Z; t_none : Z; t_irq : Z; t_fiq : Z;
}.
Definition vb_new (t : trampolines) : VectorBuilder :=
  MkVectorBuilder [t_reset t; t_undef t; t_svc t; t_pabt t; t_dabt t; t_none t; t_irq t] (Jump (t_fiq t)).
Definition set_map (i : nat) (action : Z) (b : VectorBuilder) : VectorBuilder :=
  MkVectorBuilder (<[i := action]> (maps b)) (fiq b).
Definition set_undefined_instruction_handler := set_map 1.
Definition set_syscall_handler := set_map 2.
Definition set_prefetch_abort_handler := set_map 3.
Definition set_data_abort_handler := set_map 4.
Definition set_irq_handler := set_map 6.
Definition set_fiq_handler (f : FiqAction) (b : VectorBuilder) : VectorBuilder := MkVectorBuilder (maps b) f.

(** [try_map] with the index: the first error stops it. *)
Fixpoint try_mapi {A B E} (f : nat -> A -> result B E) (i : nat) (l : list A) : result (list B) E :=
  match l with
  | [] => Ok []
  | x :: l => result_bind (f i x) (fun y => result_bind (try_mapi f (S i) l) (fun ys => Ok (y :: ys)))
  end.

Definition source (base : Z) (i : nat) : Z := base + 4 * Z.of_nat i.

(** [install]: the table of [dst] afterwards and the vector base register. *)
Definition vb_install (b : VectorBuilder) (base : Z) (dst : list Z) : result (list Z * Z) ExceptionError :=
  if negb (base mod 0x20 =? 0) then Err VectorTableAlignment
  else
    result_bind (try_mapi (fun i to => encode_relative_jump to (source base i)) 0 (maps b)) (fun encodings =>
    result_bind
      (match fiq b with
       | Jump target => result_bind (encode_relative_jump target (source base 7)) (fun w => Ok [w])
       | Code words => Ok words
       end) (fun fiq_words =>
    if bool_decide (length dst < 7 + length fiq_words)%nat then Err DestinationTooSmall
    else
      let source_iter := encodings ++ fiq_words in
      Ok (source_iter ++ drop (length source_iter) dst, base))).
End ArmVectors.
Export ArmVectors.

(** ** The ARM encoder *)

Section arm_encode.
Implicit Types (x q : Z).

Lemma signed_range w x : 0 < w -> fits w x -> - 2 ^ (w - 1) <= signed w x < 2 ^ (w - 1).
Proof.
  intros Hw Hx. unfold signed, fits in *. replace (2 ^ w) with (2 * 2 ^ (w - 1)) in *.
  - destruct (Z.ltb_spec x (2 ^ (w - 1))); lia.
  - rewrite <- Z.pow_succ_r by lia. f_equal. lia.
Qed.
Lemma signed_wrap w x : 0 < w -> wrap w (signed w (wrap w x)) = wrap w x.
Proof.
  intros Hw. unfold signed. pose proof (wrap_fits w x ltac:(lia)) as Hf. destruct (_ <? _); [by rewrite wrap_id|].
  unfold wrap at 1. rewrite <- (Z.mod_add _ 1) by (apply Z.pow_nonzero; lia). rewrite Z.mul_1_l, Z.sub_add.
  by apply Z.mod_small.
Qed.
(** A number in range is its own representative. *)
Lemma signed_id w x : 0 < w -> - 2 ^ (w - 1) <= x < 2 ^ (w - 1) -> signed w (wrap w x) = x.
Proof.
  intros Hw Hx. unfold signed, wrap. assert (2 ^ w = 2 * 2 ^ (w - 1)) as Hp.
  { rewrite <- Z.pow_succ_r by lia. f_equal. lia. }
  destruct (Z_lt_le_dec x 0) as [Hneg|Hpos].
  - rewrite <- (Z.mod_add x 1), Z.mul_1_l, Z.mod_small by lia. destruct (Z.ltb_spec (x + 2 ^ w) (2 ^ (w - 1))); lia.
  - rewrite Z.mod_small by lia. destruct (Z.ltb_spec x (2 ^ (w - 1))); lia.
Qed.

Lemma top_byte x : fits 32 x -> Z.land x 0xff000000 = 2 ^ 24 * (x / 2 ^ 24).
Proof.
  intros Hx. rewrite Z.mul_comm, <- Z.shiftl_mul_pow2, <- Z.shiftr_div_pow2, <- Z.ldiff_ones_r by lia.
  apply Z.bits_inj'. intros i Hi. rewrite Z.land_spec, Z.ldiff_spec, Z.testbit_ones_nonneg by lia.
  change 0xff000000 with (Z.shiftl (Z.ones 8) 24). rewrite Z.shiftl_spec by done.
  destruct (Z.ltb_spec i 24); [by rewrite (Z.testbit_neg_r _ (i - 24)), !andb_false_r by lia|].
  rewrite Z.testbit_ones_nonneg by lia. destruct (Z.ltb_spec (i - 24) 8); [done|].
  by rewrite (fits_testbit 32 x) by (done || lia).
Qed.
Lemma expressible_range q :
  - 2 ^ 29 <= q < 2 ^ 29 ->
  (Z.land (wrap 32 q) 0xff000000 =? 0) || (Z.land (wrap 32 q) 0xff000000 =? 0xff000000) = bool_decide (- 2 ^ 24 <= q < 2 ^ 24).
Proof.
  intros Hq. rewrite top_byte by (apply wrap_fits; lia). unfold wrap.
  destruct (Z_lt_le_dec q 0).
  - rewrite <- (Z.mod_add q 1), Z.mul_1_l, Z.mod_small by lia.
    case_bool_decide; [apply orb_true_intro; right; apply Z.eqb_eq|apply orb_false_intro; apply Z.eqb_neq]; lia.
  - rewrite Z.mod_small by lia.
    case_bool_decide; [apply orb_true_intro; left; apply Z.eqb_eq|apply orb_false_intro; apply Z.eqb_neq]; lia.
Qed.
End arm_encode.

Section arm_jump.
Implicit Types (to from q : Z).

Lemma jump_word q :
  Z.lor (Z.lor (Z.lor 0xe0000000 0x0a000000) 0) (Z.land (wrap 32 q) 0x00ffffff) = 0xea * 2 ^ 24 + wrap 24 q.
Proof.
  change (Z.lor (Z.lor 0xe0000000 0x0a000000) 0) with (Z.shiftl 0xea 24). change 0x00ffffff with (Z.ones 24).
  rewrite Z.land_ones by lia. change (wrap 32 q mod 2 ^ 24) with (wrap 24 (wrap 32 q)).
  assert (wrap 24 (wrap 32 q) = wrap 24 q) as -> by (unfold wrap; lia).
  rewrite Z.lor_comm, lor_shift_add by (try apply wrap_fits; lia). lia.
Qed.
Lemma jump_word_target pc q :
  branch_target pc (0xea * 2 ^ 24 + wrap 24 q) = Some (wrap 32 (pc + 8 + 4 * signed 24 (wrap 24 q))).
Proof.
  pose proof (wrap_fits 24 q ltac:(lia)) as [H0 H1]. unfold branch_target.
  rewrite Z.shiftr_div_pow2, Z.add_comm, Z.div_add, Z.div_small by lia. cbn [Z.add Z.eqb Pos.eqb].
  assert (wrap 24 (wrap 24 q + 0xea * 2 ^ 24) = wrap 24 q) as ->; [|done].
  unfold wrap at 1. by rewrite Z.mod_add, Z.mod_small by lia.
Qed.
(** The immediate of a jump in the accepted range, as the processor reads it. *)
Lemma immediate_read q :
  - 2 ^ 24 <= q < 2 ^ 24 ->
  signed 24 (wrap 24 q) = if bool_decide (- 2 ^ 23 <= q < 2 ^ 23) then q else if q <? 0 then q + 2 ^ 24 else q - 2 ^ 24.
Proof.
  intros Hq. case_bool_decide as Hr; [by apply signed_id|]. unfold signed, wrap. destruct (Z.ltb_spec q 0).
  - rewrite <- (Z.mod_add q 1), Z.mul_1_l, Z.mod_small by lia. destruct (Z.ltb_spec (q + 2 ^ 24) (2 ^ (24 - 1))); lia.
  - rewrite Z.mod_small by lia. destruct (Z.ltb_spec q (2 ^ (24 - 1))); lia.
Qed.
Lemma aligned4 x : Z.land x 3 = x mod 4.
Proof. change 3 with (Z.ones 2). by rewrite Z.land_ones by lia. Qed.
End arm_jump.

(** The distance of a jump, as the encoder computes it, and how far a jump that
    the processor takes correctly may go. *)
Definition distance (to from : Z) : Z := signed 32 (wrap 32 (to - from - 8)).
Definition near (to from : Z) : Prop := - 2 ^ 25 <= distance to from < 2 ^ 25.

Lemma distance_quarter to from :
  to mod 4 = 0 -> from mod 4 = 0 ->
  exists q, distance to from = 4 * q /\ Z.shiftr (distance to from) 2 = q /\ - 2 ^ 29 <= q < 2 ^ 29.
Proof.
  intros Ht Hf. unfold distance.
  pose proof (signed_range 32 (wrap 32 (to - from - 8)) ltac:(lia) ltac:(apply wrap_fits; lia)) as Hd.
  pose proof (signed_wrap 32 (to - from - 8) ltac:(lia)) as Hw. set (d := signed 32 _) in *.
  exists (d / 4). rewrite Z.shiftr_div_pow2 by lia. unfold wrap in Hw. lia.
Qed.
(** The instruction that was encoded goes where it should if that is near. *)
Lemma jump_reaches to from q :
  fits 32 to -> distance to from = 4 * q -> - 2 ^ 24 <= q < 2 ^ 24 ->
  (wrap 32 (from + 8 + 4 * signed 24 (wrap 24 q)) = to <-> near to from).
Proof.
  intros Hto Hq Hr. unfold near. pose proof (signed_wrap 32 (to - from - 8) ltac:(lia)) as Hw. fold (distance to from) in Hw.
  rewrite immediate_read by done. unfold wrap, fits in *. case_bool_decide as H23.
  - split; [lia|]. intros _. replace (from + 8 + 4 * q) with (from + 8 + distance to from) by lia. lia.
  - destruct (Z.ltb_spec q 0); lia.
Qed.
Lemma jump_encoded to from w :
  fits 32 to -> encode_relative_jump to from = Ok w ->
  to mod 4 = 0 /\ from mod 4 = 0 /\ - 2 ^ 26 <= distance to from < 2 ^ 26 /\
  exists t, branch_target from w = Some t /\ (t = to <-> near to from).
Proof.
  intros Hto. unfold encode_relative_jump. rewrite !aligned4. case_bool_decide as Ha; [done|]. fold (distance to from).
  destruct (distance_quarter to from) as (q & Hq & -> & Hr); [lia..|].
  rewrite expressible_range by lia. case_bool_decide as Hx; cbn [negb]; [|done]. intros [= <-].
  split_and!; try lia. rewrite jump_word, jump_word_target. eexists. split; [done|]. by apply jump_reaches.
Qed.

(** C29: [encode_relative_jump], on every branch: unaligned addresses are refused;
    so is a distance of 64 MB or more; and of the instructions that it returns,
    exactly those for a distance below 32 MB go to the address that was asked
    for, while the others go somewhere else, because the test of the distance
    leaves out the sign bit of the 24-bit field. *)
Theorem encode_relative_jump_spec to from :
  fits 32 to -> fits 32 from ->
  match encode_relative_jump to from with
  | Err JumpTargetAlignment => to mod 4 <> 0 \/ from mod 4 <> 0
  | Err (TooFar f t) => f = from /\ t = to /\ (distance to from < - 2 ^ 26 \/ 2 ^ 26 <= distance to from)
  | Err _ => False
  | Ok w =>
      to mod 4 = 0 /\ from mod 4 = 0 /\ - 2 ^ 26 <= distance to from < 2 ^ 26 /\
      exists t, branch_target from w = Some t /\ (t = to <-> near to from)
  end.
Proof.
  intros Hto Hfrom. destruct (encode_relative_jump to from) as [w|e] eqn:He; [by apply jump_encoded|].
  revert He. unfold encode_relative_jump. rewrite !aligned4. case_bool_decide as Ha; [by intros [= <-]|].
  fold (distance to from). destruct (distance_quarter to from) as (q & Hq & -> & Hr); [lia..|].
  rewrite expressible_range by lia. case_bool_decide as Hx; cbn [negb]; [done|]. intros [= <-].
  split; [done|]. split; [done|]. lia.
Qed.

Lemma encode_relative_jump_spec_witness :
  match encode_relative_jump 0x8100 0x18 with
  | Err JumpTargetAlignment => 0x8100 mod 4 <> 0 \/ 0x18 mod 4 <> 0
  | Err (TooFar f t) => f = 0x18 /\ t = 0x8100 /\ (distance 0x8100 0x18 < - 2 ^ 26 \/ 2 ^ 26 <= distance 0x8100 0x18)
  | Err _ => False
  | Ok w =>
      0x8100 mod 4 = 0 /\ 0x18 mod 4 = 0 /\ - 2 ^ 26 <= distance 0x8100 0x18 < 2 ^ 26 /\
      exists t, branch_target 0x18 w = Some t /\ (t = 0x8100 <-> near 0x8100 0x18)
  end.
Proof. apply (encode_relative_jump_spec 0x8100 0x18); by vm_compute. Defined.

(** ** The tables *)

Section try_map.
Context {A B E : Type} (f : nat -> A -> result B E).

Lemma try_mapi_ok i l ys :
  try_mapi f i l = Ok ys ->
  length ys = length l /\ forall k x, l !! k = Some x -> exists y, ys !! k = Some y /\ f (i + k)%nat x = Ok y.
Proof.
  revert i ys. induction l as [|x l IH]; intros i ys Hm; cbn [try_mapi] in Hm.
  - injection Hm as <-. split; [done|]. intros k x Hk. by rewrite lookup_nil in Hk.
  - destruct (f i x) as [y|e] eqn:Hf; cbn [result_bind] in Hm; [|done].
    destruct (try_mapi f (S i) l) as [ys'|e] eqn:Hr; cbn [result_bind] in Hm; [|done]. injection Hm as <-.
    destruct (IH _ _ Hr) as [Hlen Hall]. split; [cbn; lia|]. intros [|k] z Hz.
    + injection Hz as <-. exists y. by rewrite Nat.add_0_r.
    + destruct (Hall k z Hz) as (w & Hw & Hfw). exists w. split; [done|]. by replace (i + S k)%nat with (S i + k)%nat by lia.
Qed.
End try_map.


(** The handler that [install] puts behind a vector. *)
Definition handler_word (table : list Z) (base : Z) (i : nat) : option Z := w ← table !! i; branch_target (source base i) w.

(** After a successful [install], an exception with a handler that is near goes
    to that handler, for each of the seven vectors and for the fast interrupt
    if it has a jump; code for the fast interrupt stands at its vector word for
    word; and memory behind the table is as it was. *)
Theorem vb_install_dispatches b base dst table vbar :
  length (maps b) = 7%nat -> Forall (fits 32) (maps b) ->
  vb_install b base dst = Ok (table, vbar) ->
  vbar = base /\ base mod 0x20 = 0 /\ length table = length dst /\
  (forall i to, maps b !! i = Some to -> near to (source base i) -> handler_word table base i = Some to) /\
  match fiq b with
  | Jump to => fits 32 to -> near to (source base 7) -> handler_word table base 7 = Some to /\ drop 8 table = drop 8 dst
  | Code words => exists vectors, table = vectors ++ words ++ drop (7 + length words) dst /\ length vectors = 7%nat
  end.
Proof.
  intros Hlen Hfits. unfold vb_install. destruct (Z.eqb_spec (base mod 0x20) 0) as [Hb|]; cbn [negb]; [|done].
  intros (enc & He & (fw & Hf & Hi)%result_bind_ok)%result_bind_ok.
  destruct (try_mapi_ok _ _ _ _ He) as [Hle Hall]. rewrite Hlen in Hle.
  case_bool_decide as Hd; [done|]. injection Hi as <- <-. split_and!; [done|done| | |].
  - rewrite length_app, length_drop, length_app. lia.
  - intros i to Hto Hn. destruct (Hall i to Hto) as (w & Hw & Hew). cbn [Nat.add] in Hew.
    pose proof (lookup_lt_Some _ _ _ Hto) as Hi. unfold handler_word.
    rewrite <- app_assoc, lookup_app_l, Hw by lia. cbn [mbind option_bind].
    destruct (jump_encoded to (source base i) w) as (_ & _ & _ & t & Ht & Heq); [by apply (Forall_lookup_1 _ _ _ _ Hfits Hto)|done|].
    rewrite Ht. f_equal. by apply Heq.
  - destruct (fiq b) as [to|words].
    + apply result_bind_ok in Hf as (w & Hew & [= <-]). intros Hto Hn. unfold handler_word.
      rewrite <- !app_assoc, lookup_app_r, Hle by lia. cbn [Nat.sub app lookup list_lookup mbind option_bind].
      destruct (jump_encoded to (source base 7) w Hto Hew) as (_ & _ & _ & t & Ht & Heq).
      rewrite Ht. split; [f_equal; by apply Heq|]. rewrite length_app, Hle. cbn [length Nat.add].
      rewrite (cons_middle w enc), app_assoc, drop_app_length' by (rewrite length_app; cbn; lia). done.
    + injection Hf as <-. exists enc. split; [|done]. by rewrite length_app, Hle, <- app_assoc.
Qed.

Lemma vb_install_dispatches_witness :
  let b := set_irq_handler 0x9000 (vb_new (MkTrampolines 0x8000 0x8010 0x8020 0x8030 0x8040 0x8050 0x8060 0x8070)) in
  let table := [0xea001ffe; 0xea002001; 0xea002004; 0xea002007; 0xea00200a; 0xea00200d; 0xea0023f8; 0xea002013] in
  0 = 0 /\ 0 mod 0x20 = 0 /\ length table = length (replicate 8 0) /\
  (forall i to, maps b !! i = Some to -> near to (source 0 i) -> handler_word table 0 i = Some to) /\
  match fiq b with
  | Jump to => fits 32 to -> near to (source 0 7) -> handler_word table 0 7 = Some to /\ drop 8 table = drop 8 (replicate 8 0)
  | Code words => exists vectors, table = vectors ++ words ++ drop (7 + length words) (replicate 8 0) /\ length vectors = 7%nat
  end.
Proof.
  apply (vb_install_dispatches _ 0 (replicate 8 0)); [reflexivity| |by vm_compute].
  repeat (apply Forall_cons_2; [split; [done|reflexivity]|]). apply Forall_nil_2.
Defined.
