(* ===== verification/RiscvVectors.v ===== *)
(** The trap vector of the RISC-V device: [device/antimony/src/arch/exception.rs].

    The bit macros of the [proc_bitfield] crate are an interface: what they
    return is a hypothesis of the theorems. *)
From Stdlib Require Import ZifyClasses Zify.
From S2P Require Import Prelude Vectors.

#[local] Ltac Zify.zify_post_hook ::= Z.to_euclidean_division_equations.

(** [bits!(x, lo..=hi)] and [set_bits!(x, lo..=hi = v)]. *)
Class BitField : Type := {
  bits : Z -> Z -> Z -> Z;
  set_bits : Z -> Z -> Z -> Z -> Z;
}.
Class BitFieldLaws (BF : BitField) : Prop := {
  bits_field x lo hi : 0 <= x -> 0 <= lo <= hi -> bits x lo hi = x / 2 ^ lo mod 2 ^ (hi - lo + 1);
  set_bits_field x lo hi v :
    0 <= x -> 0 <= lo <= hi -> fits (hi - lo + 1) v ->
    set_bits x lo hi v = x + (v - x / 2 ^ lo mod 2 ^ (hi - lo + 1)) * 2 ^ lo;
}.

Module RiscvVectors.
Section riscv.
Context {BF : BitField}.

Inductive Target : Type :=
  | Default
  | TJump (addr : Z).
Definition to_jump_addr (default_trap_handler : Z) (t : Target) : Z :=
  match t with Default => default_trap_handler | TJump ja => ja end.

Definition MCAUSE_INTERRUPT_FLAG : Z := Z.shiftl 1 63.
Inductive Trap : Type :=
  | SupervisorSoftwareInterrupt | MachineSoftwareInterrupt | SupervisorTimerInterrupt
  | MachineTimerInterrupt | SupervisorExternalInterrupt | MachineExternalInterrupt
  | PMUOverflowInterrupt
  | FetchInstructionAccessException | IllegalInstructionException | DebugBreakpointException
  | LoadInstructionUnalignedException | LoadInstructionAccessException
  | StoreOrAtomicUnalignedException | StoreOrAtomicAccessException
  | UserEnvCallException | SupervisorEnvCallException | MachineEnvCallException
  | FetchInstructionPageException | LoadInstructionPageException | StoreOrAtomicPageException.
#[export] Instance Trap_eq_dec : EqDecision Trap.
Proof. solve_decision. Defined.
(** [self as u64] *)
Definition trap_bits (t : Trap) : Z :=
  match t with
  | SupervisorSoftwareInterrupt => Z.lor 0x1 MCAUSE_INTERRUPT_FLAG
  | MachineSoftwareInterrupt => Z.lor 0x3 MCAUSE_INTERRUPT_FLAG
  | SupervisorTimerInterrupt => Z.lor 0x5 MCAUSE_INTERRUPT_FLAG
  | MachineTimerInterrupt => Z.lor 0x7 MCAUSE_INTERRUPT_FLAG
  | SupervisorExternalInterrupt => Z.lor 0x9 MCAUSE_INTERRUPT_FLAG
  | MachineExternalInterrupt => Z.lor 0xb MCAUSE_INTERRUPT_FLAG
  | PMUOverflowInterrupt => Z.lor 0x11 MCAUSE_INTERRUPT_FLAG
  | FetchInstructionAccessException => 0x1
  | IllegalInstructionException => 0x2
  | DebugBreakpointException => 0x3
  | LoadInstructionUnalignedException => 0x4
  | LoadInstructionAccessException => 0x5
  | StoreOrAtomicUnalignedException => 0x6
  | StoreOrAtomicAccessException => 0x7
  | UserEnvCallException => 0x8
  | SupervisorEnvCallException => 0x9
  | MachineEnvCallException => 0xb
  | FetchInstructionPageException => 0xc
  | LoadInstructionPageException => 0xd
  | StoreOrAtomicPageException => 0xf
  end.
Definition is_interrupt (t : Trap) : bool := bits (trap_bits t) 63 63 =? 1.
Definition vector_offset (t : Trap) : Z := set_bits (trap_bits t) 63 63 0.

Inductive InstallError : Type :=
  | JumpOddBytes
  | TargetTooFar (to from : Z)
  | DestinationAlignment.

Definition encode_jal (to from : Z) : result Z InstallError :=
  let imm20s1 := signed 64 (wrap 64 (to - from)) in
  let truncated := Z.shiftr imm20s1 21 in
  if negb ((truncated =? 0) || (-1 - truncated =? 0)) then Err (TargetTooFar to from)
  else if bits (wrap 64 imm20s1) 0 0 =? 1 then Err JumpOddBytes
  else
    let imm20 := wrap 32 (Z.shiftr imm20s1 1) in
    let target := 0 in
    let target := set_bits target 0 6 0x6f in
    let target := set_bits target 7 11 0 in
    let imm11_18 := bits imm20 11 18 in
    let target := set_bits target 12 19 imm11_18 in
    let target := set_bits target 20 20 (bits imm20 10 10) in
    let imm0_9 := bits imm20 0 9 in
    let target := set_bits target 21 30 imm0_9 in
    let target := set_bits target 31 31 (bits imm20 20 20) in
    Ok target.

(** The [vector] of a [VectorBuilder]. *)
Definition rv_new : list Target := replicate 256 Default.
Definition rv_set (trap : Trap) (target : Target) (vector : list Target) : run (list Target) :=
  if negb (is_interrupt trap) then Panic
  else slice_set vector (Z.to_nat (vector_offset trap)) target.

Definition mtvec_value (base : Z) : Z := set_bits (set_bits 0 2 39 (Z.shiftr base 2)) 0 1 1.
(** [install]: the table and the value of [mtvec] afterwards. *)
Definition rv_install (default_trap_handler : Z) (vector : list Target) (base : Z) : result (list Z * Z) InstallError :=
  if negb (base mod 16 =? 0) then Err DestinationAlignment
  else
    result_bind (try_mapi (fun i t => encode_jal (to_jump_addr default_trap_handler t) (base + Z.of_nat i * 4)) 0 vector)
      (fun encodings => Ok (encodings, mtvec_value base)).

(** What the processor does: [jal x0] at [pc], and the address a trap goes to. *)
Definition jal_immediate (w : Z) : Z :=
  (w / 2 ^ 31 mod 2) * 2 ^ 20 + (w / 2 ^ 12 mod 2 ^ 8) * 2 ^ 12 + (w / 2 ^ 20 mod 2) * 2 ^ 11 + (w / 2 ^ 21 mod 2 ^ 10) * 2.
Definition jal_target (pc w : Z) : option Z :=
  if w mod 2 ^ 12 =? 0x6f then Some (wrap 64 (pc + signed 21 (jal_immediate w))) else None.
Definition trap_pc (mtvec : Z) (t : Trap) : Z :=
  let base := mtvec - mtvec mod 4 in
  if (mtvec mod 4 =? 1) && Z.testbit (trap_bits t) 63 then base + 4 * wrap 63 (trap_bits t) else base.
End riscv.
End RiscvVectors.
Export RiscvVectors.

(** ** The encoder *)

Section encode.
Context `{Laws : BitFieldLaws}.
Implicit Types (to from d : Z).

(** A field that is set above the rest of a word is added. *)
Lemma set_free x lo hi v :
  fits lo x -> 0 <= lo <= hi -> fits (hi - lo + 1) v -> set_bits x lo hi v = x + v * 2 ^ lo.
Proof.
  intros [Hx Hx2] Hlo Hv. rewrite set_bits_field by done. rewrite (Z.div_small x) by done.
  by rewrite Z.mod_0_l, Z.sub_0_r by (apply Z.pow_nonzero; lia).
Qed.
(** A field that is read fits. *)
Lemma bits_fits x lo hi : 0 <= x -> 0 <= lo <= hi -> fits (hi - lo + 1) (bits x lo hi).
Proof. intros Hx Hlo. rewrite bits_field by done. apply wrap_fits. lia. Qed.

(** The fields land in free space of the word. *)
Lemma jal_word imm :
  fits 32 imm ->
  set_bits (set_bits (set_bits (set_bits (set_bits (set_bits 0 0 6 0x6f) 7 11 0) 12 19 (bits imm 11 18)) 20 20 (bits imm 10 10))
    21 30 (bits imm 0 9)) 31 31 (bits imm 20 20) =
  0x6f + (imm / 2 ^ 11 mod 2 ^ 8) * 2 ^ 12 + (imm / 2 ^ 10 mod 2) * 2 ^ 20 + (imm mod 2 ^ 10) * 2 ^ 21 + (imm / 2 ^ 20 mod 2) * 2 ^ 31.
Proof.
  intros [Hi Hi2].
  pose proof (bits_field imm 11 18 Hi ltac:(lia)) as Ha. pose proof (bits_field imm 10 10 Hi ltac:(lia)) as Hb.
  pose proof (bits_field imm 0 9 Hi ltac:(lia)) as Hc. pose proof (bits_field imm 20 20 Hi ltac:(lia)) as Hd.
  change (18 - 11 + 1) with 8 in Ha. change (10 - 10 + 1) with 1 in Hb. change (9 - 0 + 1) with 10 in Hc. change (20 - 20 + 1) with 1 in Hd.
  rewrite Z.pow_0_r, Z.div_1_r in Hc.
  rewrite (set_free 0 0 6) by (split; lia). rewrite (set_free _ 7 11) by (split; lia).
  rewrite (set_free _ 12 19) by (unfold fits; lia). rewrite (set_free _ 20 20) by (unfold fits; lia).
  rewrite (set_free _ 21 30) by (unfold fits; lia). rewrite (set_free _ 31 31) by (unfold fits; lia). lia.
Qed.

(** The immediate of such a word, for half the displacement [h]. *)
Lemma jal_word_immediate imm h :
  fits 32 imm -> imm = wrap 32 h -> - 2 ^ 20 <= h < 2 ^ 20 ->
  let w := 0x6f + (imm / 2 ^ 11 mod 2 ^ 8) * 2 ^ 12 + (imm / 2 ^ 10 mod 2) * 2 ^ 20 + (imm mod 2 ^ 10) * 2 ^ 21 + (imm / 2 ^ 20 mod 2) * 2 ^ 31 in
  w mod 2 ^ 12 = 0x6f /\ jal_immediate w = (if h <? 0 then 2 ^ 20 else 0) + 2 * (h mod 2 ^ 19).
Proof.
  intros Hf Hi Hh w.
  set (a := imm / 2 ^ 11 mod 2 ^ 8) in w. set (b := imm / 2 ^ 10 mod 2) in w. set (c := imm mod 2 ^ 10) in w.
  set (e := imm / 2 ^ 20 mod 2) in w.
  assert (0 <= a < 2 ^ 8) as Ha by (unfold a; lia). assert (0 <= b < 2) as Hb by (unfold b; lia).
  assert (0 <= c < 2 ^ 10) as Hc by (unfold c; lia). assert (0 <= e < 2) as He by (unfold e; lia).
  assert (w mod 2 ^ 12 = 0x6f) as -> by (unfold w; lia). split; [done|].
  assert (w / 2 ^ 31 mod 2 = e) as H31 by (unfold w; lia). assert (w / 2 ^ 12 mod 2 ^ 8 = a) as H12 by (unfold w; lia).
  assert (w / 2 ^ 20 mod 2 = b) as H20 by (unfold w; lia). assert (w / 2 ^ 21 mod 2 ^ 10 = c) as H21 by (unfold w; lia).
  unfold jal_immediate. rewrite H31, H12, H20, H21. clear H31 H12 H20 H21 w.
  assert (h mod 2 ^ 19 = a * 2 ^ 11 + b * 2 ^ 10 + c) as ->.
  { unfold a, b, c. subst imm. unfold wrap. lia. }
  assert (e = if h <? 0 then 1 else 0) as ->; [|destruct (h <? 0); lia].
  unfold e. subst imm. unfold wrap. destruct (Z.ltb_spec h 0); lia.
Qed.

(** The displacement of a jump, and how far [jal] reaches. *)
Definition displacement to from : Z := signed 64 (wrap 64 (to - from)).
Definition reachable to from : Prop := - 2 ^ 20 <= displacement to from < 2 ^ 20.

Lemma displacement_wrap to from : wrap 64 (displacement to from) = wrap 64 (to - from).
Proof. apply signed_wrap. lia. Qed.
Lemma too_far_test d :
  negb ((Z.shiftr d 21 =? 0) || (-1 - Z.shiftr d 21 =? 0)) = bool_decide (d < - 2 ^ 21 \/ 2 ^ 21 <= d).
Proof.
  rewrite Z.shiftr_div_pow2 by lia. case_bool_decide; [apply negb_true_iff|apply negb_false_iff].
  { apply orb_false_intro; apply Z.eqb_neq; lia. }
  apply orb_true_iff. destruct (Z_lt_le_dec d 0); [right|left]; apply Z.eqb_eq; lia.
Qed.
Lemma odd_test d : (bits (wrap 64 d) 0 0 =? 1) = negb (d mod 2 =? 0).
Proof.
  rewrite bits_field by (try (apply wrap_fits); lia). rewrite Z.pow_0_r, Z.div_1_r. change (0 - 0 + 1) with 1.
  unfold wrap. replace ((d mod 2 ^ 64) mod 2 ^ 1) with (d mod 2) by lia.
  destruct (Z.eqb_spec (d mod 2) 0), (Z.eqb_spec (d mod 2) 1); cbn; lia.
Qed.

Lemma jal_reaches to from h :
  fits 64 to -> displacement to from = 2 * h -> - 2 ^ 20 <= h < 2 ^ 20 ->
  (wrap 64 (from + signed 21 ((if h <? 0 then 2 ^ 20 else 0) + 2 * (h mod 2 ^ 19))) = to <-> reachable to from).
Proof.
  intros Hto Hd Hh. unfold reachable. rewrite Hd.
  assert (signed 21 ((if h <? 0 then 2 ^ 20 else 0) + 2 * (h mod 2 ^ 19)) =
    if bool_decide (- 2 ^ 20 <= 2 * h < 2 ^ 20) then 2 * h else if h <? 0 then 2 * h + 2 ^ 20 else 2 * h - 2 ^ 20) as ->.
  { unfold signed. change (21 - 1) with 20. destruct (Z.ltb_spec h 0).
    - assert (2 ^ 20 <= 2 ^ 20 + 2 * (h mod 2 ^ 19)) by lia. destruct (Z.ltb_spec (2 ^ 20 + 2 * (h mod 2 ^ 19)) (2 ^ 20)); [lia|].
      case_bool_decide; lia.
    - assert (0 + 2 * (h mod 2 ^ 19) < 2 ^ 20) by lia. destruct (Z.ltb_spec (0 + 2 * (h mod 2 ^ 19)) (2 ^ 20)); [|lia].
      case_bool_decide; lia. }
  pose proof (displacement_wrap to from) as Hw. rewrite Hd in Hw. unfold wrap, fits in *.
  case_bool_decide; [split; [done|intros _; lia]|]. destruct (Z.ltb_spec h 0); lia.
Qed.
Lemma rv_encode_ok to from w :
  fits 64 to -> encode_jal to from = Ok w ->
  displacement to from mod 2 = 0 /\ - 2 ^ 21 <= displacement to from < 2 ^ 21 /\
  exists t, jal_target from w = Some t /\ (t = to <-> reachable to from).
Proof.
  intros Hto. unfold encode_jal. fold (displacement to from). rewrite too_far_test, odd_test.
  case_bool_decide as Hfar; [done|]. destruct (Z.eqb_spec (displacement to from mod 2) 0) as [Hev|]; cbn [negb]; [|done].
  intros [= <-]. split; [done|]. split; [lia|].
  assert (exists h, displacement to from = 2 * h) as [h Hh] by (exists (displacement to from / 2); lia).
  assert (Z.shiftr (displacement to from) 1 = h) as -> by (rewrite Z.shiftr_div_pow2 by lia; lia).
  pose proof (wrap_fits 32 h ltac:(lia)) as Hf. rewrite jal_word by done.
  destruct (jal_word_immediate (wrap 32 h) h Hf eq_refl ltac:(lia)) as [Hop Him].
  unfold jal_target. rewrite Hop, Z.eqb_refl, Him. eexists. split; [done|]. apply jal_reaches; [done|done|lia].
Qed.
End encode.

(** ** The vector *)

Section vector.
Context `{Laws : BitFieldLaws}.

(** The number that the processor uses for a trap, and the two tests of the code. *)
Definition cause (t : Trap) : Z := wrap 63 (trap_bits t).
Definition interrupts : list Trap :=
  [SupervisorSoftwareInterrupt; MachineSoftwareInterrupt; SupervisorTimerInterrupt; MachineTimerInterrupt;
   SupervisorExternalInterrupt; MachineExternalInterrupt; PMUOverflowInterrupt].

Lemma is_interrupt_eq t : is_interrupt t = bool_decide (t ∈ interrupts).
Proof. unfold is_interrupt. rewrite bits_field by (destruct t; done). by destruct t. Qed.
Lemma vector_offset_eq t : t ∈ interrupts -> vector_offset t = cause t.
Proof.
  intros Ht. unfold vector_offset. rewrite set_bits_field by (destruct t; done).
  repeat (apply elem_of_cons in Ht as [->|Ht]; [done|]). by apply elem_of_nil in Ht.
Qed.
Lemma cause_bound t : 0 < cause t < 32.
Proof. by destruct t. Qed.
Lemma cause_inj t t' : t ∈ interrupts -> t' ∈ interrupts -> Z.to_nat (cause t) = Z.to_nat (cause t') -> t = t'.
Proof.
  intros Ht Ht'.
  repeat (apply elem_of_cons in Ht as [->|Ht]); try (by apply elem_of_nil in Ht);
    repeat (apply elem_of_cons in Ht' as [->|Ht']); try (by apply elem_of_nil in Ht'); done.
Qed.
Lemma testbit_interrupt t : Z.testbit (trap_bits t) 63 = bool_decide (t ∈ interrupts).
Proof. by destruct t. Qed.

(** A program that sets handlers, and the handler it means for each trap. *)
Fixpoint rv_build (hs : list (Trap * Target)) (vector : list Target) : run (list Target) :=
  match hs with
  | [] => Val vector
  | (trap, target) :: hs => vector ← rv_set trap target vector; rv_build hs vector
  end.
Definition handler_of (hs : list (Trap * Target)) (init : Target) (t : Trap) : Target :=
  foldl (fun h '(t', h') => if decide (t = t') then h' else h) init hs.

Definition rv_vector_ok (f : Trap -> Target) (vector : list Target) : Prop :=
  length vector = 256%nat /\ vector !! 0%nat = Some Default /\
  forall t, t ∈ interrupts -> vector !! Z.to_nat (cause t) = Some (f t).

Lemma rv_new_ok : rv_vector_ok (fun _ => Default) rv_new.
Proof.
  split; [done|]. split; [done|]. intros t _. pose proof (cause_bound t).
  apply lookup_replicate_2. lia.
Qed.
Lemma rv_build_ok hs f vector v' :
  rv_vector_ok f vector -> rv_build hs vector = Val v' -> rv_vector_ok (fun t => handler_of hs (f t) t) v'.
Proof.
  revert f vector. induction hs as [|[trap target] hs IH]; intros f vector Hok Hb; cbn [rv_build] in Hb; [by injection Hb as <-|].
  apply run_bind_inv in Hb as (v1 & Hs & Hb).
  assert (rv_vector_ok (fun t => if decide (t = trap) then target else f t) v1) as Hok1; [|exact (IH _ _ Hok1 Hb)].
  unfold rv_set in Hs. rewrite is_interrupt_eq in Hs. case_bool_decide as Hi; cbn [negb] in Hs; [|done].
  rewrite vector_offset_eq in Hs by done. destruct Hok as (Hlen & H0 & Hf). pose proof (cause_bound trap) as Hc.
  rewrite slice_set_Val in Hs by lia. injection Hs as <-. split; [by rewrite length_insert|]. split.
  - rewrite list_lookup_insert_ne by lia. done.
  - intros t Ht. destruct (decide (t = trap)) as [->|Hne]; [apply list_lookup_insert_eq; lia|].
    rewrite list_lookup_insert_ne; [by apply Hf|]. intros He. by apply Hne, cause_inj.
Qed.
Lemma rv_build_panic hs f vector :
  rv_vector_ok f vector -> rv_build hs vector = Panic -> Exists (fun '(t, _) => t ∉ interrupts) hs.
Proof.
  revert f vector. induction hs as [|[trap target] hs IH]; intros f vector Hok Hb; cbn [rv_build] in Hb; [done|].
  destruct (decide (trap ∈ interrupts)) as [Hi|Hi]; [right|by left].
  assert (exists v1, rv_set trap target vector = Val v1) as [v1 Hs].
  { unfold rv_set. rewrite is_interrupt_eq, bool_decide_true by done. cbn [negb]. rewrite vector_offset_eq by done.
    destruct Hok as (Hlen & _). pose proof (cause_bound trap). rewrite slice_set_Val by lia. by eexists. }
  rewrite Hs in Hb. cbn [mbind run_bind] in Hb.
  pose proof (rv_build_ok [(trap, target)] f vector v1 Hok) as Hok1. cbn [rv_build] in Hok1. rewrite Hs in Hok1.
  exact (IH _ _ (Hok1 eq_refl) Hb).
Qed.

Lemma mtvec_value_eq base : fits 40 base -> base mod 16 = 0 -> mtvec_value base = base + 1.
Proof.
  intros Hb Ha. unfold mtvec_value, fits in *. rewrite Z.shiftr_div_pow2 by lia.
  rewrite (set_free 0 2 39) by (unfold fits; lia). rewrite set_bits_field by (unfold fits; lia).
  change (1 - 0 + 1) with 2. rewrite Z.pow_0_r, Z.div_1_r. lia.
Qed.
Lemma trap_pc_eq base t :
  base mod 16 = 0 -> trap_pc (base + 1) t = base + 4 * (if bool_decide (t ∈ interrupts) then cause t else 0).
Proof.
  intros Ha. unfold trap_pc. rewrite testbit_interrupt. replace ((base + 1) mod 4) with 1 by lia.
  cbn [Z.eqb Pos.eqb andb]. fold (cause t). case_bool_decide; lia.
Qed.
End vector.

(** The processor takes a trap: it fetches the word at the address of the trap. *)
Definition take_trap (table : list Z) (base mtvec : Z) (t : Trap) : option Z :=
  let pc := trap_pc mtvec t in w ← table !! Z.to_nat ((pc - base) / 4); jal_target pc w.

(** ** The claims *)

(** An instance of the bit macros, which meets the laws. *)
Definition bit_macros : BitField := {|
  bits x lo hi := x / 2 ^ lo mod 2 ^ (hi - lo + 1);
  set_bits x lo hi v := x + (v - x / 2 ^ lo mod 2 ^ (hi - lo + 1)) * 2 ^ lo;
|}.
Lemma bit_macros_laws : BitFieldLaws bit_macros.
Proof. by split. Qed.

(** [encode], on every branch: an odd displacement or one of 2 MB or more is
    refused; and of the instructions that it returns, exactly those with a
    displacement below 1 MB go to the address that was asked for, because the
    test of the distance lets one bit more through than [jal] holds. *)
Theorem encode_jal_spec `{BitFieldLaws} to from :
  fits 64 to ->
  match encode_jal to from with
  | Err (TargetTooFar t f) => t = to /\ f = from /\ (displacement to from < - 2 ^ 21 \/ 2 ^ 21 <= displacement to from)
  | Err JumpOddBytes => displacement to from mod 2 <> 0
  | Err DestinationAlignment => False
  | Ok w =>
      displacement to from mod 2 = 0 /\ - 2 ^ 21 <= displacement to from < 2 ^ 21 /\
      exists t, jal_target from w = Some t /\ (t = to <-> reachable to from)
  end.
Proof.
  intros Hto. destruct (encode_jal to from) as [w|e] eqn:He; [by apply rv_encode_ok|].
  revert He. unfold encode_jal. fold (displacement to from). rewrite too_far_test, odd_test.
  case_bool_decide; [by intros [= <-]|]. destruct (Z.eqb_spec (displacement to from mod 2) 0); cbn [negb]; [done|].
  by intros [= <-].
Qed.

Lemma encode_jal_spec_witness :
  exists w, @encode_jal bit_macros 0x40001000 0x4000201c = Ok w /\ exists t, jal_target 0x4000201c w = Some t /\ t = 0x40001000.
Proof.
  exists 0xfe5fe06f. split; [by vm_compute|].
  pose proof (@encode_jal_spec bit_macros bit_macros_laws 0x40001000 0x4000201c ltac:(split; [done|reflexivity])) as Hs.
  replace (@encode_jal bit_macros 0x40001000 0x4000201c) with (@Ok Z InstallError 0xfe5fe06f) in Hs by (by vm_compute).
  destruct Hs as (_ & _ & t & Ht & Heq). exists t. split; [exact Ht|]. apply Heq. by vm_compute.
Defined.

(** A vector that was built with [set] and installed takes every interrupt to
    the handler that was set last for it, or to the default handler, and every
    exception to the default handler, if [jal] reaches that far; building
    panics only if a handler is set for an exception. *)
Theorem rv_install_dispatches `{BitFieldLaws} hs default base :
  match rv_build hs rv_new with
  | Panic => Exists (fun '(t, _) => t ∉ interrupts) hs
  | Val vector =>
      forall table mtvec, rv_install default vector base = Ok (table, mtvec) -> fits 40 base ->
      length table = 256%nat /\
      forall t, let h := to_jump_addr default (if bool_decide (t ∈ interrupts) then handler_of hs Default t else Default) in
        fits 64 h -> reachable h (trap_pc mtvec t) -> take_trap table base mtvec t = Some h
  end.
Proof.
  destruct (rv_build hs rv_new) as [vector|] eqn:Hb; [|by apply (rv_build_panic hs _ _ rv_new_ok)].
  intros table mtvec Hi Hbase. destruct (rv_build_ok hs _ _ _ rv_new_ok Hb) as (Hlen & H0 & Hv).
  unfold rv_install in Hi. destruct (Z.eqb_spec (base mod 16) 0) as [Ha|]; cbn [negb] in Hi; [|done].
  apply result_bind_ok in Hi as (enc & He & [= <- <-]). destruct (try_mapi_ok _ _ _ _ He) as [Hle Hall].
  split; [congruence|]. intros t h Hh Hr. unfold take_trap. rewrite mtvec_value_eq in * by done. rewrite trap_pc_eq in * by done.
  set (k := if bool_decide (t ∈ interrupts) then cause t else 0) in *. pose proof (cause_bound t) as Hc.
  assert (0 <= k) as Hk by (unfold k; case_bool_decide; lia).
  replace ((base + 4 * k - base) / 4) with k by lia.
  assert (vector !! Z.to_nat k = Some (if bool_decide (t ∈ interrupts) then handler_of hs Default t else Default)) as Hvk.
  { unfold k. case_bool_decide; [by apply Hv|done]. }
  destruct (Hall _ _ Hvk) as (w & Hw & Hew). rewrite Hw. cbn [mbind option_bind]. cbn [Nat.add] in Hew.
  replace (base + Z.of_nat (Z.to_nat k) * 4) with (base + 4 * k) in Hew by lia.
  destruct (rv_encode_ok _ _ _ Hh Hew) as (_ & _ & t' & -> & Heq). f_equal. by apply Heq.
Qed.

Lemma rv_install_dispatches_witness :
  let hs := [(MachineTimerInterrupt, TJump 0x40001000)] in
  let vector := <[7%nat := TJump 0x40001000]> rv_new in
  exists table mtvec, @rv_install bit_macros 0x40000000 vector 0x40002000 = Ok (table, mtvec) /\
    take_trap table 0x40002000 mtvec MachineTimerInterrupt = Some 0x40001000.
Proof.
  intros hs vector.
  pose proof (@rv_install_dispatches bit_macros bit_macros_laws hs 0x40000000 0x40002000) as Hd.
  replace (@rv_build bit_macros hs rv_new) with (Val vector) in Hd by (by vm_compute).
  set (table := match @rv_install bit_macros 0x40000000 vector 0x40002000 with Ok (t, _) => t | Err _ => [] end).
  assert (@rv_install bit_macros 0x40000000 vector 0x40002000 = Ok (table, 0x40002001)) as He by (vm_compute; reflexivity).
  exists table, 0x40002001. split; [exact He|].
  destruct (Hd table 0x40002001 He) as [_ Ht]; [by split|].
  apply (Ht MachineTimerInterrupt); [split; [done|reflexivity]|split; [by vm_compute|reflexivity]].
Defined.
