(* ===== verification/Pmm.v ===== *)
(** The physical memory manager of [device/quartz/src/arch/arm1176/pmm.rs]: its
    state and its operations.

    Small pages (4 KB) make up large pages (64 KB), these sections (1 MB), and
    these supersections (16 MB).  A region of one of the upper three kinds has a
    bitmap of its sixteen parts, and the partly used regions of a kind are
    chained.  Operations give the new state, or panic. *)
From Stdlib Require Import Sorted.
From stdpp Require Import functions.
From S2P Require Import Prelude.

Module Pmm.

Definition KiB : Z := 1024.
Definition MiB : Z := 1024 * KiB.
Definition CHAIN_END : Z := 0xffff.

Record RegionInfo : Type := MkRegion {
  bitmap : Z;
  next : Z;
  prev : Z;
}.
#[export] Instance RegionInfo_eq_dec : EqDecision RegionInfo.
Proof. solve_decision. Defined.

Inductive RegionKind : Type := SmallPage | LargePage | Section_ | Supersection.
#[export] Instance RegionKind_eq_dec : EqDecision RegionKind.
Proof. solve_decision. Defined.
Definition next_smallest (k : RegionKind) : option RegionKind :=
  match k with
  | SmallPage => Some LargePage
  | LargePage => Some Section_
  | Section_ => Some Supersection
  | Supersection => None
  end.
Definition size (k : RegionKind) : Z :=
  match k with SmallPage => 4 * KiB | LargePage => 64 * KiB | Section_ => 1 * MiB | Supersection => 16 * MiB end.

(** The arrays of three and four entries are functions of their index. *)
Record PMM : Type := MkPMM {
  floating_lists : nat -> option Z;
  regions : list RegionInfo;
  supersection_mask : Z;
  floating_counts : nat -> Z;
  allocated_counts : nat -> Z;
}.
Definition with_lists (p : PMM) l := MkPMM l (regions p) (supersection_mask p) (floating_counts p) (allocated_counts p).
Definition with_regions (p : PMM) r := MkPMM (floating_lists p) r (supersection_mask p) (floating_counts p) (allocated_counts p).
Definition with_mask (p : PMM) m := MkPMM (floating_lists p) (regions p) m (floating_counts p) (allocated_counts p).
Definition with_counts (p : PMM) c := MkPMM (floating_lists p) (regions p) (supersection_mask p) c (allocated_counts p).
Definition with_allocated (p : PMM) a := MkPMM (floating_lists p) (regions p) (supersection_mask p) (floating_counts p) a.

Definition REGIONS : nat := Z.to_nat 0x2220.
Definition pmm_init_at : PMM :=
  MkPMM (fun _ => None) (replicate REGIONS (MkRegion 0xffff CHAIN_END CHAIN_END)) 0xffffffff (fun _ => 0) (fun _ => 0).

(** [self.regions[idx]], read and changed. *)
Definition region (p : PMM) (idx : Z) : run RegionInfo := slice_get (regions p) (Z.to_nat idx).
Definition update_region (f : RegionInfo -> RegionInfo) (p : PMM) (idx : Z) : run PMM :=
  r ← region p idx; Val (with_regions p (<[Z.to_nat idx := f r]> (regions p))).
Definition set_bitmap (b : Z) (r : RegionInfo) : RegionInfo := MkRegion b (next r) (prev r).
Definition set_next (n : Z) (r : RegionInfo) : RegionInfo := MkRegion (bitmap r) n (prev r).
Definition set_prev (n : Z) (r : RegionInfo) : RegionInfo := MkRegion (bitmap r) (next r) n.
Definition add_allocated (i : nat) (d : Z) (p : PMM) : PMM :=
  with_allocated p (<[i := wrap 32 (allocated_counts p i + d)]> (allocated_counts p)).
Definition add_floating (i : nat) (d : Z) (p : PMM) : PMM :=
  with_counts p (<[i := wrap 32 (floating_counts p i + d)]> (floating_counts p)).

(** *** Addresses and indices *)

Definition checked (bound : Z) (n : Z) (x : Z) : run Z := _ ← rust_assert (n <? bound); Val x.
Definition ss_ptr (ss_no : Z) : run Z := checked 0x20 ss_no (ss_no * (16 * MiB)).
Definition s_ptr (s_no : Z) : run Z := checked 0x200 s_no (s_no * (1 * MiB)).
Definition lp_ptr (lp_no : Z) : run Z := checked 0x2000 lp_no (lp_no * (64 * KiB)).
Definition sp_ptr (sp_no : Z) : run Z := checked 0x20000 sp_no (sp_no * (4 * KiB)).
Definition ss_idx (ss_no : Z) : run Z := checked 0x20 ss_no (ss_no + 0x2200).
Definition s_idx (s_no : Z) : run Z := checked 0x200 s_no (s_no + 0x2000).
Definition lp_idx (lp_no : Z) : run Z := checked 0x2000 lp_no (lp_no + 0).

(** *** The chains *)

Definition list_no (kind : RegionKind) : option nat :=
  match kind with
  | SmallPage => None
  | LargePage => Some 0%nat
  | Section_ => Some 1%nat
  | Supersection => Some 2%nat
  end.
Definition float (p : PMM) (idx : Z) (kind : RegionKind) : run PMM :=
  match list_no kind with
  | None => Val p
  | Some i =>
      let p := add_floating i 1 p in
      p ← update_region (set_prev CHAIN_END) p idx;
      let old := match floating_lists p i with Some x => wrap 16 x | None => CHAIN_END end in
      p ← update_region (set_next old) p idx;
      Val (with_lists p (<[i := Some idx]> (floating_lists p)))
  end.
Definition unfloat (p : PMM) (idx : Z) (kind : RegionKind) : run PMM :=
  match list_no kind with
  | None => Val p
  | Some i =>
      let p := add_floating i (-1) p in
      r ← region p idx;
      let nxt := next r in
      p ← (if negb (nxt =? CHAIN_END) then update_region (set_prev CHAIN_END) p nxt else Val p);
      r ← region p idx;
      let prv := prev r in
      if negb (prv =? CHAIN_END) then update_region (set_next nxt) p prv
      else Val (with_lists p (<[i := if nxt =? CHAIN_END then None else Some nxt]> (floating_lists p)))
  end.
Definition floating_list (p : PMM) (kind : RegionKind) : option (option Z) := floating_lists p <$> list_no kind.

(** *** [deallocate_region] *)

(** [mark_free_recursive] for a region whose parent has a bitmap; [up] is the call
    for the parent. *)
Definition mark_parent (up : PMM -> Z -> run PMM) (idx_of : Z -> run Z) (parent_kind : RegionKind)
    (p : PMM) (region_no : Z) : run PMM :=
  let parent_no := region_no / 16 in
  parent_idx ← idx_of parent_no;
  r ← region p parent_idx;
  let bitmap_init := bitmap r in
  let bitmap_new := Z.lor bitmap_init (Z.shiftl 1 (region_no mod 16)) in
  p ← update_region (set_bitmap bitmap_new) p parent_idx;
  if bitmap_new =? 0xffff then p ← unfloat p parent_idx parent_kind; up p parent_no
  else if bitmap_init =? 0 then float p parent_idx parent_kind
  else Val p.
Definition mark_free_supersection (p : PMM) (no : Z) : run PMM :=
  Val (with_mask p (Z.lor (supersection_mask p) (Z.shiftl 1 (no mod 32)))).
Definition mark_free_section := mark_parent mark_free_supersection ss_idx Supersection.
Definition mark_free_large_page := mark_parent mark_free_section s_idx Section_.
Definition mark_free_small_page := mark_parent mark_free_large_page lp_idx LargePage.
Definition mark_free_recursive (p : PMM) (region_no : Z) (kind : RegionKind) : run PMM :=
  match kind with
  | SmallPage => mark_free_small_page p region_no
  | LargePage => mark_free_large_page p region_no
  | Section_ => mark_free_section p region_no
  | Supersection => mark_free_supersection p region_no
  end.
Definition count_no (kind : RegionKind) : nat :=
  match kind with SmallPage => 0 | LargePage => 1 | Section_ => 2 | Supersection => 3 end.
Definition deallocate_region (p : PMM) (addr : Z) (kind : RegionKind) : run PMM :=
  _ ← rust_assert (addr mod size kind =? 0);
  p ← mark_free_recursive p (addr / size kind) kind;
  Val (add_allocated (count_no kind) (-1) p).

(** *** [allocate_region] *)

Definition leading_zeros (w x : Z) : Z := if x =? 0 then w else w - 1 - Z.log2 x.
Definition not16 (x : Z) : Z := Z.lxor x 0xffff.

(** The first half of [commit]: take the highest bit of the bitmap, and the number
    of the child. *)
Definition take_child (p : PMM) (pred : Z) (pred_kind : RegionKind) : run (PMM * Z) :=
  r ← region p pred;
  let lz := leading_zeros 16 (bitmap r) in
  let bitmap := Z.land (bitmap r) (not16 (Z.shiftr 0x8000 (lz mod 16))) in
  p ← update_region (set_bitmap bitmap) p pred;
  p ← (if bitmap =? 0 then unfloat p pred pred_kind else Val p);
  Val (p, 16 - lz).
Definition commit_large_page (p : PMM) (pred : Z) (alloc_kind : RegionKind) : run (PMM * Z) :=
  '(p, child_no) ← take_child p pred LargePage;
  let lp_no := pred in
  _ ← rust_assert (lp_no <? 0x2000);
  let sp_no := child_no + lp_no * 16 in
  if decide (alloc_kind = SmallPage) then a ← sp_ptr sp_no; Val (p, a) else Panic.
Definition commit_section (p : PMM) (pred : Z) (alloc_kind : RegionKind) : run (PMM * Z) :=
  '(p, child_no) ← take_child p pred Section_;
  let s_no := pred - 0x2000 in
  _ ← rust_assert (s_no <? 0x200);
  let lp_no := child_no + s_no * 16 in
  if decide (alloc_kind = LargePage) then a ← lp_ptr lp_no; Val (p, a)
  else i ← lp_idx lp_no; commit_large_page p i alloc_kind.
Definition commit_supersection (p : PMM) (pred : Z) (alloc_kind : RegionKind) : run (PMM * Z) :=
  '(p, child_no) ← take_child p pred Supersection;
  let ss_no := pred - 0x2200 in
  _ ← rust_assert (ss_no <? 0x20);
  let s_no := child_no + ss_no * 16 in
  if decide (alloc_kind = Section_) then a ← s_ptr s_no; Val (p, a)
  else i ← s_idx s_no; commit_section p i alloc_kind.
Definition commit (p : PMM) (pred : Z) (pred_kind alloc_kind : RegionKind) : run (PMM * Z) :=
  match pred_kind with
  | LargePage => commit_large_page p pred alloc_kind
  | Section_ => commit_section p pred alloc_kind
  | Supersection => commit_supersection p pred alloc_kind
  | SmallPage => Panic
  end.

Inductive PMMAllocError : Type := OutOfMemory.

(** What follows a commit. *)
Definition count_allocation (kind : RegionKind) (m : run (PMM * Z)) : run (PMM * result Z PMMAllocError) :=
  '(p, a) ← m; Val (add_allocated (count_no kind) 1 p, Ok a).
Definition split_supersection (p : PMM) (region_kind : RegionKind) : run (PMM * result Z PMMAllocError) :=
  if negb (supersection_mask p =? 0) then
    let lz := leading_zeros 32 (supersection_mask p) in
    let p := with_mask p (Z.land (supersection_mask p) (Z.lxor (Z.shiftr 0x80000000 lz) 0xffffffff)) in
    let ss_no := 31 - lz in
    if decide (region_kind = Supersection) then
      a ← ss_ptr ss_no; Val (add_allocated 3 1 p, Ok a)
    else
      i ← ss_idx ss_no;
      p ← float p i Supersection;
      count_allocation region_kind (commit p i Supersection region_kind)
  else Val (p, Err OutOfMemory).
(** The loop over the larger kinds: there are at most three. *)
Fixpoint alloc_loop (fuel : nat) (p : PMM) (curr region_kind : RegionKind) : run (PMM * result Z PMMAllocError) :=
  match fuel with
  | O => Panic
  | S fuel =>
      match next_smallest curr with
      | None => split_supersection p region_kind
      | Some curr =>
          l ← unwrap (floating_list p curr);
          match l with
          | Some floating_idx => count_allocation region_kind (commit p floating_idx curr region_kind)
          | None => alloc_loop fuel p curr region_kind
          end
      end
  end.
Definition allocate_region (p : PMM) (region_kind : RegionKind) : run (PMM * result Z PMMAllocError) :=
  alloc_loop 4 p region_kind region_kind.

(** *** [initialize_once] *)

(** [&= !(1 << j)] *)
Definition clear_bit (j : Z) (r : RegionInfo) : RegionInfo := set_bitmap (Z.land (bitmap r) (not16 (Z.shiftl 1 j))) r.
(** Regions that end on the page that ends at [r1] are left behind; [None] if
    none is left. *)
Fixpoint skip_ended (r1 : Z) (used : list (Z * Z)) : option (list (Z * Z)) :=
  match used with
  | [] => None
  | u :: rest => if snd u <=? r1 then skip_ended r1 rest else Some used
  end.
Fixpoint mark_used (js : list Z) (used : list (Z * Z)) (p : PMM) : run PMM :=
  match js with
  | [] => Val p
  | j :: js =>
      _ ← sp_ptr j; r1 ← sp_ptr (j + 1);
      u ← slice_get used 0;
      if r1 <=? fst u then mark_used js used p
      else
        let p := add_allocated 0 1 p in
        i ← lp_idx (j / 16);
        p ← update_region (clear_bit (j mod 16)) p i;
        match skip_ended r1 used with
        | Some used => mark_used js used p
        | None => Val p
        end
  end.
(** One step of the second and of the third loop: child [j] in its parent. *)
Definition sum_child (child_idx parent_idx : Z -> run Z) (count : nat) (kind : RegionKind) (p : PMM) (j : Z) : run PMM :=
  ci ← child_idx j;
  r ← region p ci;
  if negb (bitmap r =? 0xffff) then
    let p := add_allocated count 1 p in
    pi ← parent_idx (j / 16);
    p ← update_region (clear_bit (j mod 16)) p pi;
    r ← region p ci;
    if negb (bitmap r =? 0) then float p ci kind else Val p
  else Val p.
Definition sum_supersection (p : PMM) (i : Z) : run PMM :=
  si ← ss_idx i;
  r ← region p si;
  if negb (bitmap r =? 0xffff) then
    let p := add_allocated 3 1 p in
    let p := with_mask p (Z.land (supersection_mask p) (Z.lxor (Z.shiftl 1 i) 0xffffffff)) in
    r ← region p si;
    if negb (bitmap r =? 0) then float p si Supersection else Val p
  else Val p.
Fixpoint run_each {A} (f : PMM -> A -> run PMM) (l : list A) (p : PMM) : run PMM :=
  match l with [] => Val p | x :: l => p ← f p x; run_each f l p end.
Definition upto (n : Z) : list Z := seqZ 0 n.
(** Its first lines: all regions are free and no one is chained. *)
Definition pmm_cleared (p : PMM) : PMM :=
  with_regions (with_mask p 0xffffffff) (map (fun _ => MkRegion 0xffff CHAIN_END CHAIN_END) (regions p)).
Definition initialize_once (used_regions : list (Z * Z)) (p : PMM) : run PMM :=
  p ← mark_used (upto 0x20000) used_regions (pmm_cleared p);
  p ← run_each (sum_child lp_idx s_idx 1 LargePage) (upto 0x2000) p;
  p ← run_each (sum_child s_idx ss_idx 2 Section_) (upto 0x200) p;
  run_each sum_supersection (upto 32) p.
End Pmm.
Export Pmm.

(** ** Regions and updates *)

Definition pmm_wf (p : PMM) : Prop := length (regions p) = REGIONS.
Definition in_range (idx : Z) : Prop := 0 <= idx < 0x2220.
(** A region, and its bitmap. *)
Definition reg (p : PMM) (idx : Z) : RegionInfo := default (MkRegion 0 0 0) (regions p !! Z.to_nat idx).
Definition bm (p : PMM) (idx : Z) : Z := bitmap (reg p idx).
Definition put (p : PMM) (idx : Z) (r : RegionInfo) : PMM := with_regions p (<[Z.to_nat idx := r]> (regions p)).

Section regions.
Implicit Types (p : PMM) (idx : Z) (r : RegionInfo).

Lemma region_Val p idx : pmm_wf p -> in_range idx -> region p idx = Val (reg p idx).
Proof.
  intros Hwf Hi. unfold region, reg. destruct (regions p !! Z.to_nat idx) as [r|] eqn:Hl; [by rewrite (slice_get_Val _ _ r)|].
  apply lookup_ge_None in Hl. unfold pmm_wf, REGIONS, in_range in *. lia.
Qed.
Lemma update_region_Val f p idx : pmm_wf p -> in_range idx -> update_region f p idx = Val (put p idx (f (reg p idx))).
Proof. intros Hwf Hi. unfold update_region. by rewrite region_Val. Qed.
(** An update that did not panic had a region to update. *)
Lemma update_region_inv f p idx p' :
  update_region f p idx = Val p' -> (Z.to_nat idx < length (regions p))%nat /\ p' = put p idx (f (reg p idx)).
Proof.
  unfold update_region, region. destruct (regions p !! Z.to_nat idx) as [r|] eqn:Hl.
  - rewrite (slice_get_Val _ _ r) by done. intros [= <-]. split; [by apply lookup_lt_Some in Hl|].
    unfold put, reg. by rewrite Hl.
  - rewrite slice_get_Panic by by apply lookup_ge_None. done.
Qed.
Lemma put_wf p idx r : pmm_wf p -> pmm_wf (put p idx r).
Proof. unfold pmm_wf, put. cbn [regions with_regions]. by rewrite length_insert. Qed.
Lemma reg_put p idx r j :
  pmm_wf p -> in_range idx -> 0 <= j -> reg (put p idx r) j = if decide (j = idx) then r else reg p j.
Proof.
  intros Hwf Hi Hj. unfold reg, put. cbn [regions with_regions]. unfold pmm_wf, REGIONS, in_range in *.
  destruct (decide (j = idx)) as [->|Hne].
  - rewrite list_lookup_insert_eq by lia. done.
  - rewrite list_lookup_insert_ne by lia. done.
Qed.
Lemma bm_put p idx r j :
  pmm_wf p -> in_range idx -> 0 <= j -> bm (put p idx r) j = if decide (j = idx) then bitmap r else bm p j.
Proof. intros. unfold bm. rewrite reg_put by done. by destruct (decide _). Qed.

Lemma checked_Val bound n x : n < bound -> checked bound n x = Val x.
Proof. intros Hn. unfold checked, rust_assert. by rewrite (proj2 (Z.ltb_lt _ _)). Qed.
Lemma checked_inv bound n x y : checked bound n x = Val y -> n < bound /\ y = x.
Proof. unfold checked, rust_assert. destruct (Z.ltb_spec n bound); [|done]. by intros [= <-]. Qed.
End regions.

(** ** The chains *)

Section chains.
Implicit Types (p : PMM) (idx n : Z) (l : list Z).

(** The regions from [n] on along [next], and those of a list. *)
Inductive chain_from p : Z -> list Z -> Prop :=
  | chain_nil : chain_from p CHAIN_END []
  | chain_cons x l : in_range x -> chain_from p (next (reg p x)) l -> chain_from p x (x :: l).
Definition chained p (i : nat) l : Prop :=
  match floating_lists p i with None => l = [] | Some x => chain_from p x l /\ l <> [] end.

(** Nobody ever writes anything else into [prev]. *)
Definition no_prev p : Prop := pmm_wf p /\ Forall (fun r => prev r = CHAIN_END) (regions p).
Lemma no_prev_reg p idx : no_prev p -> in_range idx -> prev (reg p idx) = CHAIN_END.
Proof.
  intros [Hwf Hp] Hi. unfold reg. destruct (regions p !! Z.to_nat idx) as [r|] eqn:Hl; [by apply (Forall_lookup_1 _ _ _ _ Hp Hl)|].
  apply lookup_ge_None in Hl. unfold pmm_wf, REGIONS, in_range in *. lia.
Qed.

Lemma chain_same_next p p' n l :
  (forall x, in_range x -> x ∈ l -> next (reg p' x) = next (reg p x)) -> chain_from p n l -> chain_from p' n l.
Proof.
  intros Hs Hc. induction Hc as [|x l Hx Hc IH]; [apply chain_nil|]. apply chain_cons; [done|].
  rewrite Hs by (done || by left). apply IH. intros y Hy Hl. apply Hs; [done|by right].
Qed.
Lemma in_range_not_end x : in_range x -> x <> CHAIN_END /\ wrap 16 x = x.
Proof. unfold in_range, CHAIN_END. split; [lia|]. apply wrap_id. unfold fits. lia. Qed.

Lemma no_prev_put p idx r : no_prev p -> prev r = CHAIN_END -> no_prev (put p idx r).
Proof. intros [Hwf Hp] Hr. split; [by apply put_wf|]. by apply Forall_insert. Qed.

Lemma float_eq p idx kind i :
  pmm_wf p -> in_range idx -> list_no kind = Some i ->
  float p idx kind =
  let old := match floating_lists p i with Some x => wrap 16 x | None => CHAIN_END end in
  Val (with_lists (put (add_floating i 1 p) idx (MkRegion (bm p idx) old CHAIN_END)) (<[i := Some idx]> (floating_lists p))).
Proof.
  intros Hwf Hi Hk. unfold float. rewrite Hk. rewrite update_region_Val by done. cbn [mbind run_bind].
  rewrite update_region_Val by (done || by apply put_wf). cbn [mbind run_bind].
  rewrite reg_put, decide_True by (done || apply Hi). unfold put. cbn [with_regions regions floating_lists add_floating with_counts].
  by rewrite list_insert_insert_eq.
Qed.
(** [unfloat] in a state where no region has a predecessor: the list now starts
    behind the region, wherever this was. *)
Lemma unfloat_eq p idx kind i l :
  no_prev p -> in_range idx -> list_no kind = Some i -> chain_from p (next (reg p idx)) l ->
  exists p', unfloat p idx kind = Val p' /\ no_prev p' /\ chained p' i l /\
    (forall j, 0 <= j -> bm p' j = bm p j) /\ supersection_mask p' = supersection_mask p.
Proof.
  intros Hp Hi Hk Hl. pose proof Hp as [Hwf _]. unfold unfloat. rewrite Hk, region_Val by done. cbn [mbind run_bind].
  change (reg (add_floating i (-1) p)) with (reg p). set (p1 := add_floating i (-1) p).
  assert (no_prev p1) as Hp1 by done. destruct Hl as [|x l Hx Hl].
  - cbn [negb Z.eqb mbind run_bind]. rewrite Z.eqb_refl. cbn [negb mbind run_bind].
    rewrite region_Val by done. cbn [mbind run_bind].
    change (prev (reg p1 idx)) with (prev (reg p idx)). rewrite no_prev_reg, Z.eqb_refl by done. cbn [negb]. eexists. split; [done|].
    split; [done|]. split; [|done]. unfold chained. cbn [with_lists floating_lists]. by rewrite fn_lookup_insert.
  - rewrite (proj2 (Z.eqb_neq x CHAIN_END)) by by apply in_range_not_end. cbn [negb].
    rewrite update_region_Val by done. cbn [mbind run_bind]. set (p2 := put p1 x (set_prev CHAIN_END (reg p1 x))).
    assert (no_prev p2) as Hp2 by by apply no_prev_put. pose proof Hp2 as [Hwf2 _].
    rewrite region_Val by done. cbn [mbind run_bind]. rewrite no_prev_reg, Z.eqb_refl by done. cbn [negb]. eexists. split; [done|].
    assert (forall j, 0 <= j -> next (reg p2 j) = next (reg p j) /\ bm p2 j = bm p j) as Hsame.
    { intros j Hj. unfold p2, bm. rewrite reg_put by done. by destruct (decide (j = x)) as [->|]. }
    split; [done|]. split; [|split; [intros j Hj; by apply Hsame|done]].
    unfold chained. cbn [with_lists floating_lists]. rewrite fn_lookup_insert. split; [|done].
    apply (chain_same_next p); [intros y Hy _; apply Hsame, Hy|]. by apply chain_cons.
Qed.

(** The part of a chain behind a region. *)
Lemma chain_split p n l1 idx l2 :
  chain_from p n (l1 ++ idx :: l2) -> in_range idx /\ chain_from p (next (reg p idx)) l2.
Proof.
  revert n. induction l1 as [|x l1 IH]; intros n Hc; inversion Hc; subst; [done|]. by apply (IH (next (reg p x))).
Qed.
Lemma chain_head p n l : chain_from p n l -> l <> [] -> in_range n.
Proof. by destruct 1. Qed.
(** [float] in any state. *)
Lemma float_chained p idx kind i l :
  pmm_wf p -> in_range idx -> list_no kind = Some i -> idx ∉ l -> chained p i l ->
  exists p', float p idx kind = Val p' /\ chained p' i (idx :: l).
Proof.
  intros Hwf Hi Hk Hn Hl. rewrite (float_eq p idx kind i) by done. eexists. split; [done|].
  unfold chained in *. cbn [with_lists floating_lists]. rewrite fn_lookup_insert. split; [|done].
  set (r := MkRegion _ _ _). set (p1 := put (add_floating i 1 p) idx r).
  assert (forall x, 0 <= x -> reg p1 x = if decide (x = idx) then r else reg p x) as Hreg by (intros x Hx; by apply (reg_put (add_floating i 1 p))).
  assert (chain_from p1 (next r) l) as Hc.
  { apply (chain_same_next p).
    - intros x Hx Hin. rewrite Hreg, decide_False by (try apply Hx; by intros ->). done.
    - unfold r. cbn [next]. destruct (floating_lists p i) as [x|]; [|subst l; apply chain_nil].
      destruct Hl as [Hl Hne]. by rewrite (proj2 (in_range_not_end x (chain_head _ _ _ Hl Hne))). }
  apply (chain_same_next p1); [done|]. apply chain_cons; [done|]. by rewrite Hreg, decide_True by (done || apply Hi).
Qed.

(** *** No operation ever sets a predecessor *)

Lemma update_prev f p idx p' :
  update_region f p idx = Val p' -> (forall r, prev r = CHAIN_END -> prev (f r) = CHAIN_END) -> no_prev p -> no_prev p'.
Proof.
  intros Hu Hf [Hwf Hp]. apply update_region_inv in Hu as [Hlt ->]. apply no_prev_put; [done|]. apply Hf.
  apply lookup_lt_is_Some in Hlt as [r Hr]. unfold reg. rewrite Hr. by apply (Forall_lookup_1 _ _ _ _ Hp Hr).
Qed.
Lemma float_prev p idx kind p' : float p idx kind = Val p' -> no_prev p -> no_prev p'.
Proof.
  unfold float. destruct (list_no kind) as [i|]; [|by intros [= <-]].
  intros (p1 & H1 & (p2 & H2 & [= <-])%run_bind_inv)%run_bind_inv Hp.
  apply (update_prev _ _ _ _ H2); [done|]. by apply (update_prev _ _ _ _ H1).
Qed.
Lemma unfloat_prev p idx kind p' : unfloat p idx kind = Val p' -> no_prev p -> no_prev p'.
Proof.
  unfold unfloat. destruct (list_no kind) as [i|]; [|by intros [= <-]].
  intros (r & _ & (p1 & H1 & (r1 & _ & H2)%run_bind_inv)%run_bind_inv)%run_bind_inv Hp.
  assert (no_prev p1) as Hp1.
  { destruct (negb (next r =? CHAIN_END)); [by apply (update_prev _ _ _ _ H1)|by injection H1 as <-]. }
  destruct (negb (prev r1 =? CHAIN_END)); [by apply (update_prev _ _ _ _ H2)|by injection H2 as <-].
Qed.
Lemma mark_parent_prev up idx_of kind p no p' :
  (forall q n q', up q n = Val q' -> no_prev q -> no_prev q') ->
  mark_parent up idx_of kind p no = Val p' -> no_prev p -> no_prev p'.
Proof.
  intros Hup. unfold mark_parent. intros (i & _ & (r & _ & (p1 & H1 & H2)%run_bind_inv)%run_bind_inv)%run_bind_inv Hp.
  assert (no_prev p1) as Hp1 by by apply (update_prev _ _ _ _ H1). destruct (_ =? 0xffff).
  - apply run_bind_inv in H2 as (p2 & H2 & H3). apply (Hup _ _ _ H3). by apply (unfloat_prev _ _ _ _ H2).
  - destruct (_ =? 0); [by apply (float_prev _ _ _ _ H2)|by injection H2 as <-].
Qed.
Lemma deallocate_prev p addr kind p' : deallocate_region p addr kind = Val p' -> no_prev p -> no_prev p'.
Proof.
  unfold deallocate_region. intros (u & _ & (p1 & H1 & [= <-])%run_bind_inv)%run_bind_inv Hp. change (no_prev p1).
  assert (forall q n q', mark_free_supersection q n = Val q' -> no_prev q -> no_prev q') as Hss by by intros q n q' [= <-].
  pose proof (fun q n q' => mark_parent_prev _ ss_idx Supersection q n q' Hss) as Hs.
  pose proof (fun q n q' => mark_parent_prev _ s_idx Section_ q n q' Hs) as Hlp.
  pose proof (fun q n q' => mark_parent_prev _ lp_idx LargePage q n q' Hlp) as Hsp.
  destruct kind; cbn [mark_free_recursive] in H1; eauto.
Qed.
Lemma take_child_prev p pred kind p' c : take_child p pred kind = Val (p', c) -> no_prev p -> no_prev p'.
Proof.
  unfold take_child. intros (r & _ & (p1 & H1 & (p2 & H2 & [= <- <-])%run_bind_inv)%run_bind_inv)%run_bind_inv Hp.
  assert (no_prev p1) as Hp1 by by apply (update_prev _ _ _ _ H1).
  destruct (_ =? 0); [by apply (unfloat_prev _ _ _ _ H2)|by injection H2 as <-].
Qed.
Lemma commit_large_page_prev p pred k p' a : commit_large_page p pred k = Val (p', a) -> no_prev p -> no_prev p'.
Proof.
  unfold commit_large_page. intros ([p1 c] & H1 & (u & _ & H2)%run_bind_inv)%run_bind_inv Hp.
  destruct (decide _); [|done]. apply run_bind_inv in H2 as (x & _ & [= <- <-]). by apply (take_child_prev _ _ _ _ _ H1).
Qed.
Lemma commit_section_prev p pred k p' a : commit_section p pred k = Val (p', a) -> no_prev p -> no_prev p'.
Proof.
  unfold commit_section. intros ([p1 c] & H1 & (u & _ & H2)%run_bind_inv)%run_bind_inv Hp.
  pose proof (take_child_prev _ _ _ _ _ H1 Hp) as Hp1. destruct (decide _); apply run_bind_inv in H2 as (x & _ & H2).
  - by injection H2 as <- <-.
  - by apply (commit_large_page_prev _ _ _ _ _ H2).
Qed.
Lemma commit_supersection_prev p pred k p' a : commit_supersection p pred k = Val (p', a) -> no_prev p -> no_prev p'.
Proof.
  unfold commit_supersection. intros ([p1 c] & H1 & (u & _ & H2)%run_bind_inv)%run_bind_inv Hp.
  pose proof (take_child_prev _ _ _ _ _ H1 Hp) as Hp1. destruct (decide _); apply run_bind_inv in H2 as (x & _ & H2).
  - by injection H2 as <- <-.
  - by apply (commit_section_prev _ _ _ _ _ H2).
Qed.
Lemma count_allocation_prev p pred kind k p' a :
  count_allocation k (commit p pred kind k) = Val (p', a) -> no_prev p -> no_prev p'.
Proof.
  unfold count_allocation. intros ([p1 x] & H1 & [= <- <-])%run_bind_inv Hp. change (no_prev p1).
  destruct kind; cbn [commit] in H1;
    eauto using commit_large_page_prev, commit_section_prev, commit_supersection_prev. done.
Qed.
Lemma split_supersection_prev p k p' a : split_supersection p k = Val (p', a) -> no_prev p -> no_prev p'.
Proof.
  unfold split_supersection. destruct (negb _); [|by intros [= <- <-]]. destruct (decide _); intros Hs Hp.
  - by apply run_bind_inv in Hs as (x & _ & [= <- <-]).
  - apply run_bind_inv in Hs as (i & _ & (p1 & H1 & H2)%run_bind_inv).
    apply (count_allocation_prev _ _ _ _ _ _ H2). by apply (float_prev _ _ _ _ H1).
Qed.
Lemma allocate_prev p k p' a : allocate_region p k = Val (p', a) -> no_prev p -> no_prev p'.
Proof.
  unfold allocate_region. generalize 4%nat as fuel. generalize k at 1 as curr.
  intros curr fuel. revert curr. induction fuel as [|fuel IH]; intros curr; cbn [alloc_loop]; [done|].
  destruct (next_smallest curr) as [curr'|]; [|by apply split_supersection_prev].
  intros ([x|] & _ & Ha)%run_bind_inv Hp; [by apply (count_allocation_prev _ _ _ _ _ _ Ha)|by apply (IH curr')].
Qed.
Lemma mark_used_prev js used p p' : mark_used js used p = Val p' -> no_prev p -> no_prev p'.
Proof.
  revert used p. induction js as [|j js IH]; intros used p; cbn [mark_used]; [by intros [= <-]|].
  intros (a & _ & (r1 & _ & (u & _ & Hm)%run_bind_inv)%run_bind_inv)%run_bind_inv Hp.
  destruct (r1 <=? fst u); [by apply (IH used p)|]. apply run_bind_inv in Hm as (i & _ & (p1 & H1 & H2)%run_bind_inv).
  assert (no_prev p1) as Hp1 by by apply (update_prev _ _ _ _ H1).
  destruct (skip_ended r1 used) as [used'|]; [by apply (IH used' p1)|by injection H2 as <-].
Qed.
Lemma run_each_prev {A} (f : PMM -> A -> run PMM) (l : list A) p p' :
  (forall q x q', f q x = Val q' -> no_prev q -> no_prev q') -> run_each f l p = Val p' -> no_prev p -> no_prev p'.
Proof.
  intros Hf. revert p. induction l as [|x l IH]; intros p; cbn [run_each]; [by intros [= <-]|].
  intros (p1 & H1 & H2)%run_bind_inv Hp. apply (IH p1 H2). by apply (Hf _ _ _ H1).
Qed.
Lemma sum_child_prev ci pi c k q j q' : sum_child ci pi c k q j = Val q' -> no_prev q -> no_prev q'.
Proof.
  unfold sum_child. intros (i & _ & (r & _ & H)%run_bind_inv)%run_bind_inv Hq. destruct (negb _); [|by injection H as <-].
  apply run_bind_inv in H as (x & _ & (q1 & H1 & (r1 & _ & H2)%run_bind_inv)%run_bind_inv).
  assert (no_prev q1) as Hq1 by by apply (update_prev _ _ _ _ H1).
  destruct (negb _); [by apply (float_prev _ _ _ _ H2)|by injection H2 as <-].
Qed.
Lemma sum_supersection_prev q i q' : sum_supersection q i = Val q' -> no_prev q -> no_prev q'.
Proof.
  unfold sum_supersection. intros (x & _ & (r & _ & H)%run_bind_inv)%run_bind_inv Hq. destruct (negb _); [|by injection H as <-].
  apply run_bind_inv in H as (r1 & _ & H). destruct (negb _); [by apply (float_prev _ _ _ _ H)|by injection H as <-].
Qed.
Lemma initialize_prev used p p' : initialize_once used p = Val p' -> pmm_wf p -> no_prev p'.
Proof.
  unfold initialize_once. intros (p1 & H1 & (p2 & H2 & (p3 & H3 & H4)%run_bind_inv)%run_bind_inv)%run_bind_inv Hwf.
  apply (run_each_prev _ _ _ _ sum_supersection_prev H4).
  apply (run_each_prev _ _ _ _ (sum_child_prev _ _ _ _) H3). apply (run_each_prev _ _ _ _ (sum_child_prev _ _ _ _) H2).
  apply (mark_used_prev _ _ _ _ H1). split; [unfold pmm_wf; cbn; by rewrite length_map|].
  cbn [with_regions regions]. by apply Forall_map, Forall_true.
Qed.

(** The states of a manager in use. *)
Inductive pmm_reach : PMM -> Prop :=
  | reach_init : pmm_reach pmm_init_at
  | reach_initialize used p p' : pmm_reach p -> initialize_once used p = Val p' -> pmm_reach p'
  | reach_allocate p kind p' r : pmm_reach p -> allocate_region p kind = Val (p', r) -> pmm_reach p'
  | reach_deallocate p addr kind p' : pmm_reach p -> deallocate_region p addr kind = Val p' -> pmm_reach p'.
Lemma reach_no_prev p : pmm_reach p -> no_prev p.
Proof.
  induction 1 as [|used p p' _ [Hwf _] Hi|p kind p' r _ IH Ha|p addr kind p' _ IH Hd].
  - split; [unfold pmm_wf; cbn; by rewrite length_replicate|]. by apply Forall_replicate.
  - by apply (initialize_prev _ _ _ Hi).
  - by apply (allocate_prev _ _ _ _ Ha).
  - by apply (deallocate_prev _ _ _ _ Hd).
Qed.
End chains.

(** ** Bits *)

Section pmm_bits.
Implicit Types (b j : Z).

Lemma not16_bit i j : 0 <= i -> 0 <= j < 16 -> Z.testbit (not16 (Z.shiftl 1 i)) j = negb (j =? i).
Proof.
  intros Hi Hj. unfold not16. rewrite Z.lxor_spec. change 0xffff with (Z.ones 16).
  rewrite Z.testbit_ones_nonneg by lia. rewrite (proj2 (Z.ltb_lt _ _)) by lia. rewrite xorb_true_r. f_equal.
  rewrite Z.shiftl_mul_pow2, Z.mul_1_l, Z.pow2_bits_eqb by done. apply Z.eqb_sym.
Qed.
Lemma fits16_eq b b' : fits 16 b -> fits 16 b' -> (forall j, 0 <= j < 16 -> Z.testbit b j = Z.testbit b' j) -> b = b'.
Proof.
  intros Hb Hb' He. apply Z.bits_inj'. intros j Hj. destruct (decide (j < 16)); [by apply He|].
  by rewrite !(fits_testbit 16) by (done || lia).
Qed.
Lemma clear_fits b i : fits 16 b -> fits 16 (Z.land b (not16 (Z.shiftl 1 i))).
Proof.
  intros Hb. rewrite Z.land_comm. apply land_fits; [lia| |done]. unfold not16. apply Z.lxor_nonneg.
  split; intros _; [lia|by apply Z.shiftl_nonneg].
Qed.
Lemma clear_testbit b i j :
  0 <= i -> 0 <= j < 16 -> Z.testbit (Z.land b (not16 (Z.shiftl 1 i))) j = Z.testbit b j && negb (j =? i).
Proof. intros Hi Hj. by rewrite Z.land_spec, not16_bit. Qed.

(** All sixteen bits, or none of them. *)
Lemma full_bit j : 0 <= j < 16 -> Z.testbit 0xffff j = true.
Proof. intros Hj. change 0xffff with (Z.ones 16). rewrite Z.testbit_ones_nonneg by lia. apply Z.ltb_lt. lia. Qed.
Lemma full_bits b : fits 16 b -> (b = 0xffff <-> forall j, 0 <= j < 16 -> Z.testbit b j = true).
Proof.
  intros Hb. split; [intros ->; apply full_bit|]. intros Ha. apply fits16_eq; [done|split; [done|reflexivity]|].
  intros j Hj. by rewrite Ha, full_bit by done.
Qed.
Lemma highest_bit b : fits 16 b -> b <> 0 ->
  0 <= Z.log2 b < 16 /\ Z.testbit b (Z.log2 b) = true /\ (forall j, Z.log2 b < j -> Z.testbit b j = false) /\
  leading_zeros 16 b = 15 - Z.log2 b /\ Z.shiftr 0x8000 ((15 - Z.log2 b) mod 16) = Z.shiftl 1 (Z.log2 b).
Proof.
  intros [Hb Hb'] Hne. assert (0 <= Z.log2 b < 16) as Hl by (split; [apply Z.log2_nonneg|apply Z.log2_lt_pow2; lia]).
  split; [done|]. split; [apply Z.bit_log2; lia|]. split; [intros j Hj; by apply Z.bits_above_log2|].
  unfold leading_zeros. rewrite (proj2 (Z.eqb_neq _ _)) by done. split; [lia|].
  rewrite Z.mod_small by lia. rewrite Z.shiftr_div_pow2, Z.shiftl_mul_pow2, Z.mul_1_l by lia.
  change 0x8000 with (2 ^ 15). rewrite <- Z.pow_sub_r by lia. f_equal. lia.
Qed.
Lemma highest_supersection m : fits 32 m -> m <> 0 ->
  0 <= Z.log2 m < 32 /\ Z.testbit m (Z.log2 m) = true /\ (forall j, Z.log2 m < j -> Z.testbit m j = false) /\
  leading_zeros 32 m = 31 - Z.log2 m /\ Z.shiftr 0x80000000 (31 - Z.log2 m) = Z.shiftl 1 (Z.log2 m).
Proof.
  intros [Hb Hb'] Hne. assert (0 <= Z.log2 m < 32) as Hl by (split; [apply Z.log2_nonneg|apply Z.log2_lt_pow2; lia]).
  split; [done|]. split; [apply Z.bit_log2; lia|]. split; [intros j Hj; by apply Z.bits_above_log2|].
  unfold leading_zeros. rewrite (proj2 (Z.eqb_neq _ _)) by done. split; [lia|].
  rewrite Z.shiftr_div_pow2, Z.shiftl_mul_pow2, Z.mul_1_l by lia.
  change 0x80000000 with (2 ^ 31). rewrite <- Z.pow_sub_r by lia. f_equal. lia.
Qed.
End pmm_bits.

(** ** [initialize_once] *)

(** The pages in use, and lists of regions as [initialize_once] asks for them. *)
Definition page_used (used : list (Z * Z)) (j : Z) : bool :=
  existsb (fun u => (fst u <? 4096 * (j + 1)) && (4096 * j <? snd u)) used.
Definition regions_sorted (used : list (Z * Z)) : Prop :=
  Forall (fun u => fst u < snd u) used /\ StronglySorted (fun u v => snd u <= fst v) used.
(** The bit of child [j] of the regions from [base] on. *)
Definition child_bit (base : Z) (p : PMM) (j : Z) : bool := Z.testbit (bm p (base + j / 16)) (j mod 16).
Definition all_fit (p : PMM) : Prop := forall idx, in_range idx -> fits 16 (bm p idx).

Section initialize.
Implicit Types (p : PMM) (used : list (Z * Z)) (j : Z).

Lemma skip_ended_ok r1 used :
  regions_sorted used ->
  match skip_ended r1 used with
  | None => forall u, u ∈ used -> snd u <= r1
  | Some used' =>
      regions_sorted used' /\ used' <> [] /\ (forall u, u ∈ used' -> u ∈ used /\ r1 < snd u) /\
      forall u, u ∈ used -> u ∈ used' \/ snd u <= r1
  end.
Proof.
  intros Hs. induction used as [|u used IH]; cbn [skip_ended]; [by intros u Hu%elem_of_nil|].
  destruct Hs as [[Hu Hne]%Forall_cons_1 [Hss Hlt]%StronglySorted_inv]. destruct (Z.leb_spec (snd u) r1) as [Hle|Hgt].
  - specialize (IH (conj Hne Hss)). destruct (skip_ended r1 used) as [used'|].
    + destruct IH as (? & ? & Hin & Hout). split_and!; [done..| |].
      * intros v Hv. destruct (Hin v Hv). split; [by right|done].
      * intros v [->|Hv]%elem_of_cons; [by right|by apply Hout].
    + intros v [->|Hv]%elem_of_cons; [done|by apply IH].
  - split_and!; [split; [by constructor|by constructor]|done| |by left].
    intros v Hv. split; [done|]. apply elem_of_cons in Hv as [->|Hv]; [lia|].
    rewrite list.Forall_forall in Hlt, Hne. specialize (Hlt v Hv). specialize (Hne v Hv). cbn in *. lia.
Qed.

Lemma page_used_spec used j :
  page_used used j = true <-> exists u, u ∈ used /\ fst u < 4096 * (j + 1) /\ 4096 * j < snd u.
Proof.
  unfold page_used. rewrite existsb_exists. split; intros (u & Hu & Hb); exists u.
  - apply andb_true_iff in Hb as [H1%Z.ltb_lt H2%Z.ltb_lt]. by apply list_elem_of_In in Hu.
  - apply list_elem_of_In in Hu. split; [done|]. apply andb_true_iff. by rewrite !Z.ltb_lt.
Qed.
Lemma page_used_ext used used' j :
  (forall u, fst u < 4096 * (j + 1) /\ 4096 * j < snd u -> (u ∈ used <-> u ∈ used')) -> page_used used j = page_used used' j.
Proof.
  intros He. apply eq_true_iff_eq. rewrite !page_used_spec.
  split; intros (u & Hin & Ho); exists u; (split; [by apply He|done]).
Qed.

(** What the update of one bitmap does to the bits. *)
Lemma child_bit_put base p j j' :
  pmm_wf p -> in_range (base + j / 16) -> 0 <= base -> 0 <= j -> 0 <= j' ->
  child_bit base (put p (base + j / 16) (clear_bit (j mod 16) (reg p (base + j / 16)))) j' =
  child_bit base p j' && negb (j' =? j).
Proof.
  intros Hwf Hr Hb Hj Hj'. unfold child_bit.
  pose proof (Z.div_mod j 16 ltac:(lia)). pose proof (Z.mod_pos_bound j 16 ltac:(lia)).
  pose proof (Z.div_mod j' 16 ltac:(lia)). pose proof (Z.mod_pos_bound j' 16 ltac:(lia)).
  assert (0 <= j' / 16) by (apply Z.div_pos; lia). rewrite bm_put by (done || lia).
  destruct (decide (base + j' / 16 = base + j / 16)) as [He|Hne].
  - unfold clear_bit. cbn [bitmap set_bitmap]. rewrite clear_testbit by lia. replace (j' / 16) with (j / 16) by lia.
    unfold bm. f_equal. f_equal. apply eq_true_iff_eq. rewrite !Z.eqb_eq. lia.
  - destruct (Z.eqb_spec j' j) as [->|]; [done|]. by rewrite andb_true_r.
Qed.
Lemma all_fit_put p idx i : pmm_wf p -> in_range idx -> all_fit p -> all_fit (put p idx (clear_bit i (reg p idx))).
Proof.
  intros Hwf Hi Hf j Hj. rewrite bm_put by (done || apply Hj). destruct (decide _); [|by apply Hf].
  apply clear_fits. by apply Hf.
Qed.

(** The parts of the state that a pass does not touch. *)
Definition same_bitmaps (P : Z -> Prop) p p' : Prop := forall idx, in_range idx -> P idx -> bm p' idx = bm p idx.

Lemma sp_ptr_eq j : j < 0x20000 -> sp_ptr j = Val (4096 * j).
Proof. intros Hj. unfold sp_ptr. rewrite checked_Val by done. f_equal. unfold KiB. lia. Qed.

(** One page is marked. *)
Lemma mark_page_ok p j0 :
  pmm_wf p -> all_fit p -> 0 <= j0 < 0x20000 ->
  exists p', update_region (clear_bit (j0 mod 16)) p (j0 / 16) = Val p' /\ pmm_wf p' /\ all_fit p' /\
    supersection_mask p' = supersection_mask p /\ same_bitmaps (fun idx => 0x2000 <= idx) p p' /\
    forall j, 0 <= j -> child_bit 0 p' j = child_bit 0 p j && negb (j =? j0).
Proof.
  intros Hwf Hfit Hj0.
  assert (0 <= j0 / 16 < 0x2000) as Hr by (split; [apply Z.div_pos|apply Z.div_lt_upper_bound]; lia).
  rewrite update_region_Val by (try done; unfold in_range; lia). eexists. split; [done|].
  split_and!; [by apply put_wf|apply all_fit_put; [done|unfold in_range; lia|done]|done| |].
  - intros idx Hidx Hge. rewrite bm_put by (try done; unfold in_range in *; lia). by rewrite decide_False by lia.
  - intros j Hj. apply (child_bit_put 0 p); try done; unfold in_range; lia.
Qed.
(** No page before the first region is in use. *)
Lemma sorted_after u0 used u : regions_sorted (u0 :: used) -> u ∈ u0 :: used -> fst u0 <= fst u < snd u.
Proof.
  intros [Hsz [_ Hss]%StronglySorted_inv] Hin. rewrite list.Forall_forall in Hsz, Hss.
  pose proof (Hsz u Hin). pose proof (Hsz u0 ltac:(by left)). apply elem_of_cons in Hin as [->|Hin]; [lia|].
  specialize (Hss u Hin). cbn in *. lia.
Qed.
Lemma not_used used j : (forall u, u ∈ used -> 4096 * (j + 1) <= fst u \/ snd u <= 4096 * j) -> page_used used j = false.
Proof. intros Hall. apply not_true_iff_false. rewrite page_used_spec. intros (u & Hin & H1 & H2). destruct (Hall u Hin); lia. Qed.

(** The first loop, from page [j0] on. *)
Lemma mark_used_ok n : forall j0 used p,
  j0 + Z.of_nat n = 0x20000 -> 0 <= j0 -> pmm_wf p -> all_fit p -> regions_sorted used -> used <> [] ->
  (forall u, u ∈ used -> 4096 * j0 < snd u <= 4096 * 0x1ffff) ->
  exists p', mark_used (seqZ j0 (Z.of_nat n)) used p = Val p' /\ pmm_wf p' /\ all_fit p' /\
    supersection_mask p' = supersection_mask p /\ same_bitmaps (fun idx => 0x2000 <= idx) p p' /\
    forall j, 0 <= j < 0x20000 -> child_bit 0 p' j = child_bit 0 p j && ((j <? j0) || negb (page_used used j)).
Proof.
  induction n as [|n IH]; intros j0 used p Hn Hj0 Hwf Hfit Hs Hne Hu.
  - exfalso. destruct used as [|u used]; [done|]. pose proof (Hu u ltac:(by left)). lia.
  - destruct used as [|u0 used]; [done|]. set (us := u0 :: used) in *.
    assert (j0 < 0x1ffff) as Hlt by (pose proof (Hu u0 ltac:(by left)); lia).
    rewrite seqZ_cons by lia. cbn [mark_used]. rewrite !sp_ptr_eq by lia. cbn [mbind run_bind].
    replace (slice_get us 0) with (Val u0) by done. cbn [mbind run_bind].
    replace (Z.pred (Z.of_nat (S n))) with (Z.of_nat n) by lia. replace (Z.succ j0) with (j0 + 1) by lia.
    destruct (Z.leb_spec (4096 * (j0 + 1)) (fst u0)) as [Hbefore|Hover].
    + assert (forall u, u ∈ us -> 4096 * (j0 + 1) <= fst u < snd u) as Hafter.
      { intros u Hin. pose proof (sorted_after _ _ _ Hs Hin). lia. }
      destruct (IH (j0 + 1) us p) as (p' & Hm & Hwf' & Hf' & Hmask & Hsame & Hbits); [lia|lia|done|done|done|done| |].
      { intros u Hin. pose proof (Hafter u Hin). pose proof (Hu u Hin). lia. }
      exists p'. split_and!; [done..|]. intros j Hj. rewrite Hbits by done.
      destruct (Z.ltb_spec j (j0 + 1)), (Z.ltb_spec j j0); try done; [|lia].
      rewrite not_used; [done|]. intros u Hin. pose proof (Hafter u Hin). lia.
    + unfold lp_idx. rewrite checked_Val by (apply Z.div_lt_upper_bound; lia). cbn [mbind run_bind]. rewrite Z.add_0_r.
      destruct (mark_page_ok (add_allocated 0 1 p) j0 Hwf Hfit ltac:(lia)) as (p2 & -> & Hwf2 & Hfit2 & Hm2 & Hs2 & Hb2).
      cbn [mbind run_bind].
      assert (page_used us j0 = true) as Hj0u.
      { apply page_used_spec. exists u0. split; [by left|]. pose proof (Hu u0 ltac:(by left)). lia. }
      pose proof (skip_ended_ok (4096 * (j0 + 1)) us Hs) as Hsk. destruct (skip_ended _ us) as [us'|].
      * destruct Hsk as (Hs' & Hne' & Hin' & Hout').
        destruct (IH (j0 + 1) us' p2) as (p' & Hm & Hwf' & Hf' & Hmask & Hsame & Hbits); [lia|lia|done|done|done|done| |].
        { intros u Hin. destruct (Hin' u Hin) as [Hold Hgt]. pose proof (Hu u Hold). lia. }
        exists p'. split_and!; [done|done|done|by rewrite Hmask, Hm2|by intros idx Hi Hge; rewrite Hsame, Hs2|].
        intros j Hj. rewrite Hbits, Hb2 by lia. destruct (Z.eqb_spec j j0) as [->|Hnj].
        { rewrite Hj0u, Z.ltb_irrefl. cbn [negb orb]. by rewrite !andb_false_r. }
        rewrite andb_true_r. f_equal. destruct (Z.ltb_spec j (j0 + 1)), (Z.ltb_spec j j0); try done; try lia. cbn [orb]. f_equal.
        apply page_used_ext. intros u [Hfst Hsnd]. split; [by intros [? _]%Hin'|]. intros [?|Hle]%Hout'; [done|lia].
      * exists p2. split_and!; [done..|]. intros j Hj. rewrite Hb2 by lia. f_equal. destruct (Z.eqb_spec j j0) as [->|Hnj].
        { by rewrite Hj0u, Z.ltb_irrefl. }
        destruct (Z.ltb_spec j j0); [done|]. rewrite not_used; [done|]. intros u Hin. right. pose proof (Hsk u Hin). lia.
Qed.
End initialize.

(** *** The passes over the upper kinds *)

Lemma float_ok p idx kind :
  pmm_wf p -> in_range idx ->
  exists p', float p idx kind = Val p' /\ pmm_wf p' /\ supersection_mask p' = supersection_mask p /\
    forall j, 0 <= j -> bm p' j = bm p j.
Proof.
  intros Hwf Hi. destruct (list_no kind) as [i|] eqn:Hk.
  - rewrite (float_eq p idx kind i) by done. eexists. split; [done|].
    set (r := MkRegion _ _ _). assert (pmm_wf (put (add_floating i 1 p) idx r)) as Hw by by apply put_wf.
    split_and!; [exact Hw|done|]. intros j Hj. change (bm (put (add_floating i 1 p) idx r) j = bm p j).
    rewrite bm_put by done. by destruct (decide (j = idx)) as [->|].
  - exists p. unfold float. by rewrite Hk.
Qed.

Section sums.
Context (Bc Bp N : Z) (child_idx parent_idx : Z -> run Z).
Hypothesis child_eq : forall j, 0 <= j < N -> child_idx j = Val (Bc + j) /\ in_range (Bc + j).
Hypothesis parent_eq : forall j, 0 <= j < N -> parent_idx (j / 16) = Val (Bp + j / 16) /\ in_range (Bp + j / 16).
Hypothesis apart : forall j j', 0 <= j < N -> 0 <= j' < N -> Bc + j <> Bp + j' / 16.
Hypothesis base : 0 <= Bp.
Implicit Types (p : PMM) (j : Z).

(** A pass leaves everything but the bitmaps of the parents. *)
Definition pass_keeps p p' : Prop :=
  pmm_wf p' /\ all_fit p' /\ supersection_mask p' = supersection_mask p /\
  same_bitmaps (fun idx => forall j, 0 <= j < N -> idx <> Bp + j / 16) p p'.

Lemma sum_child_ok c kind p j :
  pmm_wf p -> all_fit p -> 0 <= j < N ->
  exists p', sum_child child_idx parent_idx c kind p j = Val p' /\ pass_keeps p p' /\
    forall j', 0 <= j' -> child_bit Bp p' j' = child_bit Bp p j' && (negb (j' =? j) || (bm p (Bc + j) =? 0xffff)).
Proof.
  intros Hwf Hfit Hj. destruct (child_eq j Hj) as [Hc Hcr], (parent_eq j Hj) as [Hp Hpr].
  unfold sum_child. rewrite Hc. cbn [mbind run_bind]. rewrite region_Val by done. cbn [mbind run_bind].
  fold (bm p (Bc + j)). destruct (bm p (Bc + j) =? 0xffff) eqn:Hfull; cbn [negb].
  - exists p. split; [done|]. split; [done|]. intros j' _. by rewrite orb_true_r, andb_true_r.
  - rewrite Hp. cbn [mbind run_bind]. set (p1 := add_allocated c 1 p). rewrite update_region_Val by done. cbn [mbind run_bind].
    set (p2 := put p1 _ _). assert (pmm_wf p2) as Hwf2 by by apply put_wf.
    assert (all_fit p2) as Hfit2 by by apply all_fit_put.
    assert (forall j', 0 <= j' -> child_bit Bp p2 j' = child_bit Bp p j' && negb (j' =? j)) as Hb2.
    { intros j' Hj'. apply (child_bit_put Bp p1); try done. lia. }
    assert (pass_keeps p p2) as Hk2.
    { split_and!; [done..|]. intros idx Hi Hne. unfold p2. rewrite bm_put, decide_False by (try done; try apply Hi; by apply Hne). done. }
    rewrite region_Val by done. cbn [mbind run_bind]. destruct (negb _).
    + destruct (float_ok p2 (Bc + j) kind Hwf2 Hcr) as (p3 & -> & Hwf3 & Hm3 & Hb3). exists p3. split; [done|]. split.
      * destruct Hk2 as (_ & _ & Hm2 & Hs2). split_and!; [done| |congruence|].
        -- intros idx Hi. rewrite Hb3 by apply Hi. by apply Hfit2.
        -- intros idx Hi Hne. rewrite Hb3 by apply Hi. by apply Hs2.
      * intros j' Hj'. rewrite orb_false_r, <- Hb2 by done. unfold child_bit. rewrite Hb3; [done|].
        pose proof (Z.div_pos j' 16 ltac:(lia)). lia.
    + exists p2. split; [done|]. split; [done|]. intros j' Hj'. by rewrite orb_false_r, <- Hb2.
Qed.

Lemma sum_children_ok c kind n : forall j0 p,
  j0 + Z.of_nat n = N -> 0 <= j0 -> pmm_wf p -> all_fit p ->
  exists p', run_each (sum_child child_idx parent_idx c kind) (seqZ j0 (Z.of_nat n)) p = Val p' /\ pass_keeps p p' /\
    forall j', 0 <= j' < N -> child_bit Bp p' j' = child_bit Bp p j' && ((j' <? j0) || (bm p (Bc + j') =? 0xffff)).
Proof.
  induction n as [|n IH]; intros j0 p Hn Hj0 Hwf Hfit.
  - exists p. split; [done|]. split; [done|]. intros j' Hj'. rewrite (proj2 (Z.ltb_lt j' j0)) by lia. by rewrite andb_true_r.
  - rewrite seqZ_cons by lia. cbn [run_each].
    destruct (sum_child_ok c kind p j0 Hwf Hfit ltac:(lia)) as (p1 & -> & (Hwf1 & Hfit1 & Hm1 & Hs1) & Hb1). cbn [mbind run_bind].
    replace (Z.pred (Z.of_nat (S n))) with (Z.of_nat n) by lia. replace (Z.succ j0) with (j0 + 1) by lia.
    destruct (IH (j0 + 1) p1) as (p' & Hr & (Hwf' & Hfit' & Hm' & Hs') & Hb'); [lia|lia|done|done|].
    exists p'. split; [done|]. split; [split_and!; [done|done|congruence|by intros idx Hi Hne; rewrite Hs', Hs1]|].
    intros j' Hj'. rewrite Hb', Hb1 by lia.
    rewrite Hs1 by (try apply child_eq; try done; intros j Hj; by apply apart).
    destruct (Z.eqb_spec j' j0) as [->|Hne]; cbn [negb orb].
    + rewrite (proj2 (Z.ltb_lt j0 (j0 + 1))), Z.ltb_irrefl by lia. cbn [orb]. by rewrite andb_true_r.
    + rewrite andb_true_r. f_equal. f_equal. destruct (Z.ltb_spec j' (j0 + 1)), (Z.ltb_spec j' j0); try done; lia.
Qed.
End sums.

Section supersections.
Implicit Types (p : PMM) (i : Z).

Lemma mask_clear_bit m i k :
  0 <= i -> 0 <= k < 32 -> Z.testbit (Z.land m (Z.lxor (Z.shiftl 1 i) 0xffffffff)) k = Z.testbit m k && negb (k =? i).
Proof.
  intros Hi Hk. rewrite Z.land_spec, Z.lxor_spec. change 0xffffffff with (Z.ones 32).
  rewrite Z.testbit_ones_nonneg, (proj2 (Z.ltb_lt _ _)), xorb_true_r by lia. f_equal. f_equal.
  rewrite Z.shiftl_mul_pow2, Z.mul_1_l, Z.pow2_bits_eqb by done. apply Z.eqb_sym.
Qed.

Lemma sum_supersection_ok p i :
  pmm_wf p -> 0 <= i < 32 ->
  exists p', sum_supersection p i = Val p' /\ pmm_wf p' /\ (forall idx, in_range idx -> bm p' idx = bm p idx) /\
    forall k, 0 <= k < 32 ->
      Z.testbit (supersection_mask p') k = Z.testbit (supersection_mask p) k && (negb (k =? i) || (bm p (0x2200 + i) =? 0xffff)).
Proof.
  intros Hwf Hi. assert (in_range (0x2200 + i)) as Hr by (unfold in_range; lia).
  unfold sum_supersection, ss_idx. rewrite checked_Val by lia. cbn [mbind run_bind]. rewrite (Z.add_comm i 0x2200).
  rewrite (region_Val p) by done. cbn [mbind run_bind]. fold (bm p (0x2200 + i)).
  destruct (bm p (0x2200 + i) =? 0xffff); cbn [negb].
  - exists p. split_and!; [done..|]. intros k _. by rewrite orb_true_r, andb_true_r.
  - set (p1 := with_mask _ _). rewrite region_Val by done. cbn [mbind run_bind].
    assert (forall k, 0 <= k < 32 -> Z.testbit (supersection_mask p1) k = Z.testbit (supersection_mask p) k && (negb (k =? i) || false)) as Hm.
    { intros k Hk. rewrite orb_false_r. apply (mask_clear_bit (supersection_mask p)); lia. }
    destruct (negb _).
    + destruct (float_ok p1 (0x2200 + i) Supersection Hwf Hr) as (p2 & -> & Hwf2 & Hm2 & Hb2). exists p2.
      split_and!; [done|done| |by rewrite Hm2]. intros idx Hidx. by rewrite Hb2 by apply Hidx.
    + by exists p1.
Qed.
Lemma sum_supersections_ok n : forall i0 p,
  i0 + Z.of_nat n = 32 -> 0 <= i0 -> pmm_wf p ->
  exists p', run_each sum_supersection (seqZ i0 (Z.of_nat n)) p = Val p' /\ (forall idx, in_range idx -> bm p' idx = bm p idx) /\
    forall k, 0 <= k < 32 ->
      Z.testbit (supersection_mask p') k = Z.testbit (supersection_mask p) k && ((k <? i0) || (bm p (0x2200 + k) =? 0xffff)).
Proof.
  induction n as [|n IH]; intros i0 p Hn Hi0 Hwf.
  - exists p. split; [done|]. split; [done|]. intros k Hk. rewrite (proj2 (Z.ltb_lt k i0)) by lia. by rewrite andb_true_r.
  - rewrite seqZ_cons by lia. cbn [run_each].
    destruct (sum_supersection_ok p i0 Hwf ltac:(lia)) as (p1 & -> & Hwf1 & Hs1 & Hm1). cbn [mbind run_bind].
    replace (Z.pred (Z.of_nat (S n))) with (Z.of_nat n) by lia. replace (Z.succ i0) with (i0 + 1) by lia.
    destruct (IH (i0 + 1) p1) as (p' & Hr & Hs' & Hm'); [lia|lia|done|].
    exists p'. split; [done|]. split; [intros idx Hi; by rewrite Hs', Hs1|].
    intros k Hk. rewrite Hm', Hm1, Hs1 by (unfold in_range; lia).
    destruct (Z.eqb_spec k i0) as [->|Hne]; cbn [negb orb].
    + rewrite (proj2 (Z.ltb_lt i0 (i0 + 1))), Z.ltb_irrefl by lia. cbn [orb]. by rewrite andb_true_r.
    + rewrite andb_true_r. f_equal. f_equal. destruct (Z.ltb_spec k (i0 + 1)), (Z.ltb_spec k i0); try done; lia.
Qed.
End supersections.

(** *** What the bits mean *)

(** Whether a region is marked as free, and the number of regions of a kind. *)
Definition region_free (p : PMM) (kind : RegionKind) (n : Z) : bool :=
  match kind with
  | SmallPage => child_bit 0 p n
  | LargePage => child_bit 0x2000 p n
  | Section_ => child_bit 0x2200 p n
  | Supersection => Z.testbit (supersection_mask p) n
  end.
Definition region_count (kind : RegionKind) : Z :=
  match kind with SmallPage => 0x20000 | LargePage => 0x2000 | Section_ => 0x200 | Supersection => 0x20 end.
Definition pages_of (kind : RegionKind) : Z := size kind / 4096.

Section meaning.
Implicit Types (p : PMM) (n : Z).

(** A full bitmap says that all sixteen children are free. *)
Lemma bitmap_full base p n :
  all_fit p -> in_range (base + n) -> 0 <= n ->
  (bm p (base + n) =? 0xffff) = true <-> forall k, 16 * n <= k < 16 * (n + 1) -> child_bit base p k = true.
Proof.
  intros Hfit Hr Hn. rewrite Z.eqb_eq, full_bits by by apply Hfit. unfold child_bit. split.
  - intros Hall k Hk. replace (k / 16) with n by (apply Z.div_unique with (k - 16 * n); lia).
    apply Hall, Z.mod_pos_bound. lia.
  - intros Hall j Hj. specialize (Hall (16 * n + j) ltac:(lia)).
    replace ((16 * n + j) / 16) with n in Hall by (apply Z.div_unique with j; lia).
    by replace ((16 * n + j) mod 16) with j in Hall by (apply Z.mod_unique with n; lia).
Qed.
(** From the children of a region to its pages, if a child has [c] pages. *)
Lemma all_pages (P Q : Z -> Prop) c n :
  0 < c -> (forall k, 16 * n <= k < 16 * (n + 1) -> (Q k <-> forall j, k * c <= j < (k + 1) * c -> P j)) ->
  (forall k, 16 * n <= k < 16 * (n + 1) -> Q k) <-> (forall j, n * (16 * c) <= j < (n + 1) * (16 * c) -> P j).
Proof.
  intros Hc HQ. split.
  - intros Hall j Hj. pose proof (Z.div_mod j c ltac:(lia)). pose proof (Z.mod_pos_bound j c Hc).
    assert (16 * n <= j / c < 16 * (n + 1)) as Hk by (split; [apply Z.div_le_lower_bound|apply Z.div_lt_upper_bound]; lia).
    apply (HQ (j / c) Hk); [by apply Hall|]. nia.
  - intros Hall k Hk. apply HQ; [done|]. intros j Hj. apply Hall. nia.
Qed.
End meaning.

(** *** The whole of [initialize_once] *)

Section composed.
Implicit Types (p : PMM) (used : list (Z * Z)).

Lemma cleared_ok p :
  pmm_wf p -> pmm_wf (pmm_cleared p) /\ forall idx, in_range idx -> bm (pmm_cleared p) idx = 0xffff.
Proof.
  intros Hwf. split; [unfold pmm_wf; cbn; by rewrite length_map|]. intros idx Hi. unfold bm, reg. cbn [pmm_cleared with_regions regions].
  rewrite list_lookup_fmap. destruct (regions p !! Z.to_nat idx) as [r|] eqn:Hl; [done|].
  apply lookup_ge_None in Hl. unfold pmm_wf, REGIONS, in_range in *. lia.
Qed.
Lemma full_child base p j : in_range (base + j / 16) -> bm p (base + j / 16) = 0xffff -> child_bit base p j = true.
Proof. intros _ Hb. unfold child_bit. rewrite Hb. apply full_bit, Z.mod_pos_bound. lia. Qed.

Lemma upto_nat n : 0 <= n -> upto n = seqZ 0 (Z.of_nat (Z.to_nat n)).
Proof. intros Hn. unfold upto. by rewrite Z2Nat.id. Qed.

Lemma page_level used p :
  pmm_wf p -> all_fit p -> regions_sorted used -> used <> [] -> (forall u, u ∈ used -> 0 < snd u <= 4096 * 0x1ffff) ->
  exists p', mark_used (upto 0x20000) used p = Val p' /\ pmm_wf p' /\ all_fit p' /\
    supersection_mask p' = supersection_mask p /\ same_bitmaps (fun idx => 0x2000 <= idx) p p' /\
    forall j, 0 <= j < 0x20000 -> child_bit 0 p' j = child_bit 0 p j && ((j <? 0) || negb (page_used used j)).
Proof.
  intros Hwf Hfit Hs Hne Hu. assert (exists n, Z.of_nat n = 0x20000) as [n Hn] by (exists (Z.to_nat 0x20000); lia).
  destruct (mark_used_ok n 0 used p Hn (Z.le_refl 0) Hwf Hfit Hs Hne Hu) as (p' & Hm & Hrest).
  exists p'. split; [|done]. unfold upto. by rewrite Hn in Hm.
Qed.
Lemma lp_level p :
  pmm_wf p -> all_fit p ->
  exists p', run_each (sum_child lp_idx s_idx 1 LargePage) (upto 0x2000) p = Val p' /\ pass_keeps 0x2000 0x2000 p p' /\
    forall l, 0 <= l < 0x2000 -> child_bit 0x2000 p' l = child_bit 0x2000 p l && (bm p (0 + l) =? 0xffff).
Proof.
  intros Hwf Hfit. rewrite upto_nat by done.
  destruct (sum_children_ok 0 0x2000 0x2000 lp_idx s_idx) with (c := 1%nat) (kind := LargePage) (n := Z.to_nat 0x2000) (j0 := 0) (p := p)
    as (p' & Hr & Hk & Hb); try done; try (intros; unfold lp_idx, s_idx, in_range).
  - rewrite checked_Val by lia. split; [f_equal; lia|lia].
  - assert (0 <= j / 16 < 0x200) by (split; [apply Z.div_pos|apply Z.div_lt_upper_bound]; lia).
    rewrite checked_Val by lia. split; [f_equal; lia|lia].
  - pose proof (Z.div_pos j' 16 ltac:(lia)). lia.
  - exists p'. split; [done|]. split; [done|]. intros l Hl. rewrite Hb by done. by rewrite (proj2 (Z.ltb_ge l 0)) by lia.
Qed.
Lemma section_level p :
  pmm_wf p -> all_fit p ->
  exists p', run_each (sum_child s_idx ss_idx 2 Section_) (upto 0x200) p = Val p' /\ pass_keeps 0x2200 0x200 p p' /\
    forall l, 0 <= l < 0x200 -> child_bit 0x2200 p' l = child_bit 0x2200 p l && (bm p (0x2000 + l) =? 0xffff).
Proof.
  intros Hwf Hfit. rewrite upto_nat by done.
  destruct (sum_children_ok 0x2000 0x2200 0x200 s_idx ss_idx) with (c := 2%nat) (kind := Section_) (n := Z.to_nat 0x200) (j0 := 0) (p := p)
    as (p' & Hr & Hk & Hb); try done; try (intros; unfold s_idx, ss_idx, in_range).
  - rewrite checked_Val by lia. split; [f_equal; lia|lia].
  - assert (0 <= j / 16 < 0x20) by (split; [apply Z.div_pos|apply Z.div_lt_upper_bound]; lia).
    rewrite checked_Val by lia. split; [f_equal; lia|lia].
  - pose proof (Z.div_pos j' 16 ltac:(lia)). lia.
  - exists p'. split; [done|]. split; [done|]. intros l Hl. rewrite Hb by done. by rewrite (proj2 (Z.ltb_ge l 0)) by lia.
Qed.

Lemma supersection_level p :
  pmm_wf p ->
  exists p', run_each sum_supersection (upto 32) p = Val p' /\ (forall idx, in_range idx -> bm p' idx = bm p idx) /\
    forall k, 0 <= k < 32 -> Z.testbit (supersection_mask p') k = Z.testbit (supersection_mask p) k && (bm p (0x2200 + k) =? 0xffff).
Proof.
  intros Hwf. rewrite upto_nat by done.
  destruct (sum_supersections_ok (Z.to_nat 32) 0 p) as (p' & Hr & Hs & Hm); [lia|done|done|].
  exists p'. split; [done|]. split; [done|]. intros k Hk. rewrite Hm by done. by rewrite (proj2 (Z.ltb_ge k 0)) by lia.
Qed.

(** The state after all passes, bit by bit. *)
Lemma initialize_bits used p :
  pmm_wf p -> regions_sorted used -> used <> [] -> (forall u, u ∈ used -> 0 < snd u <= 4096 * 0x1ffff) ->
  exists p', initialize_once used p = Val p' /\ all_fit p' /\
    (forall j, 0 <= j < 0x20000 -> child_bit 0 p' j = negb (page_used used j)) /\
    (forall l, 0 <= l < 0x2000 -> child_bit 0x2000 p' l = (bm p' (0 + l) =? 0xffff)) /\
    (forall s, 0 <= s < 0x200 -> child_bit 0x2200 p' s = (bm p' (0x2000 + s) =? 0xffff)) /\
    (forall i, 0 <= i < 0x20 -> Z.testbit (supersection_mask p') i = (bm p' (0x2200 + i) =? 0xffff)).
Proof.
  intros Hwf Hs Hne Hu. destruct (cleared_ok p Hwf) as [Hwf0 Hb0].
  assert (all_fit (pmm_cleared p)) as Hfit0 by (intros idx Hi; rewrite Hb0 by done; split; [done|reflexivity]).
  destruct (page_level used (pmm_cleared p)) as (p1 & H1 & Hwf1 & Hfit1 & Hm1 & Hs1 & Hc1); [done..|].
  destruct (lp_level p1 Hwf1 Hfit1) as (p2 & H2 & (Hwf2 & Hfit2 & Hm2 & Hs2) & Hc2).
  destruct (section_level p2 Hwf2 Hfit2) as (p3 & H3 & (Hwf3 & Hfit3 & Hm3 & Hs3) & Hc3).
  destruct (supersection_level p3 Hwf3) as (p4 & H4 & Hs4 & Hm4).
  assert (forall idx, in_range idx -> idx < 0x2000 -> bm p4 idx = bm p1 idx) as Hlow.
  { intros idx Hi Hlt. rewrite Hs4, Hs3, Hs2; [done|done| |done| |done]; intros j Hj; pose proof (Z.div_pos j 16 ltac:(lia)); lia. }
  assert (forall idx, in_range idx -> idx < 0x2200 -> bm p4 idx = bm p2 idx) as Hmid.
  { intros idx Hi Hlt. rewrite Hs4, Hs3; [done|done| |done]. intros j Hj. pose proof (Z.div_pos j 16 ltac:(lia)). lia. }
  assert (forall idx, in_range idx -> 0x2000 <= idx -> bm p1 idx = 0xffff) as Hone by (intros idx Hi Hge; by rewrite Hs1, Hb0).
  assert (forall idx, in_range idx -> 0x2200 <= idx -> bm p2 idx = 0xffff) as Htwo.
  { intros idx Hi Hge. rewrite Hs2; [apply Hone; lia || done|done|]. intros j Hj.
    assert (j / 16 < 0x200) by (apply Z.div_lt_upper_bound; lia). lia. }
  exists p4. split_and!.
  - unfold initialize_once. by rewrite H1, run_bind_Val, H2, run_bind_Val, H3, run_bind_Val.
  - intros idx Hi. rewrite Hs4 by done. by apply Hfit3.
  - intros j Hj. assert (0 <= j / 16 < 0x2000) by (split; [apply Z.div_pos|apply Z.div_lt_upper_bound]; lia).
    unfold child_bit at 1. rewrite Hlow by (unfold in_range; lia). fold (child_bit 0 p1 j). rewrite Hc1 by done.
    rewrite full_child by (try apply Hb0; unfold in_range; lia). by rewrite (proj2 (Z.ltb_ge j 0)) by lia.
  - intros l Hl. assert (0 <= l / 16 < 0x200) by (split; [apply Z.div_pos|apply Z.div_lt_upper_bound]; lia).
    unfold child_bit. rewrite Hmid by (unfold in_range; lia). fold (child_bit 0x2000 p2 l). rewrite Hc2 by done.
    rewrite full_child by (try apply Hone; unfold in_range; lia). by rewrite Hlow by (unfold in_range; lia).
  - intros k Hk. assert (0 <= k / 16 < 0x20) by (split; [apply Z.div_pos|apply Z.div_lt_upper_bound]; lia).
    unfold child_bit. rewrite Hs4 by (unfold in_range; lia). fold (child_bit 0x2200 p3 k). rewrite Hc3 by done.
    rewrite full_child by (try apply Htwo; unfold in_range; lia). by rewrite Hmid by (unfold in_range; lia).
  - intros k Hk. rewrite Hm4, Hs4 by (unfold in_range; lia). rewrite Hm3, Hm2, Hm1. change (supersection_mask (pmm_cleared p)) with (Z.ones 32).
    rewrite Z.testbit_ones_nonneg, (proj2 (Z.ltb_lt _ _)) by lia. done.
Qed.
End composed.

(** ** Taking a child *)

Lemma take_child_ok p pred kind i l :
  no_prev p -> in_range pred -> list_no kind = Some i -> chain_from p (next (reg p pred)) l ->
  fits 16 (bm p pred) -> bm p pred <> 0 ->
  let h := Z.log2 (bm p pred) in
  exists p', take_child p pred kind = Val (p', h + 1) /\ no_prev p' /\ supersection_mask p' = supersection_mask p /\
    forall j, 0 <= j -> bm p' j = if decide (j = pred) then Z.land (bm p pred) (not16 (Z.shiftl 1 h)) else bm p j.
Proof.
  intros Hp Hi Hk Hl Hf Hnz h. pose proof Hp as [Hwf _]. destruct (highest_bit (bm p pred) Hf Hnz) as (Hh & _ & _ & Hlz & Hsh).
  fold h in Hh, Hlz, Hsh. unfold take_child. rewrite (region_Val p) by done. rewrite run_bind_Val. fold (bm p pred).
  rewrite Hlz, Hsh, update_region_Val by done. rewrite run_bind_Val. replace (16 - (15 - h)) with (h + 1) by lia.
  set (b := Z.land (bm p pred) (not16 (Z.shiftl 1 h))). set (p1 := put p pred (set_bitmap b (reg p pred))).
  assert (no_prev p1) as Hp1 by (apply no_prev_put; [done|]; by apply no_prev_reg).
  assert (forall j, 0 <= j -> bm p1 j = if decide (j = pred) then b else bm p j) as Hb1 by (intros j Hj; by apply bm_put).
  destruct (b =? 0); [|by exists p1].
  destruct (unfloat_eq p1 pred kind i l) as (p2 & -> & Hp2 & _ & Hb2 & Hm2); [done|done|done| |].
  - assert (forall x, in_range x -> next (reg p1 x) = next (reg p x)) as Hn.
    { intros x Hx. unfold p1. rewrite reg_put by (done || apply Hx). by destruct (decide (x = pred)) as [->|]. }
    rewrite Hn by done. apply (chain_same_next p); [|done]. intros x Hx _. by apply Hn.
  - exists p2. split; [done|]. split; [done|]. split; [done|]. intros j Hj. by rewrite Hb2, Hb1.
Qed.
Lemma chained_cons p i x l : chained p i (x :: l) -> floating_lists p i = Some x /\ in_range x /\ chain_from p (next (reg p x)) l.
Proof. unfold chained. destruct (floating_lists p i) as [y|]; [|done]. intros [Hc _]. by inversion Hc; subst. Qed.

(** ** The claims *)

(** C18: [initialize_once] accepts every sorted list of regions in use that ends
    before the last page, and marks exactly what is in use: afterwards a region
    of any of the four kinds is free if and only if none of its pages overlaps
    one of the given regions. *)
Theorem initialize_once_correct used p :
  pmm_wf p -> regions_sorted used -> used <> [] -> (forall u, u ∈ used -> 0 <= fst u /\ snd u <= 4096 * 0x1ffff) ->
  exists p', initialize_once used p = Val p' /\
    forall kind n, 0 <= n < region_count kind ->
      region_free p' kind n = true <->
      forall j, n * pages_of kind <= j < (n + 1) * pages_of kind -> page_used used j = false.
Proof.
  intros Hwf Hs Hne Hu. destruct (initialize_bits used p Hwf Hs Hne) as (p' & Hi & Hfit & H0b & H1b & H2b & H3b).
  { intros u Hin. pose proof (Hu u Hin). destruct Hs as [Hsz _]. rewrite list.Forall_forall in Hsz. specialize (Hsz u Hin). cbn in *. lia. }
  exists p'. split; [done|]. set (P := fun j => page_used used j = false).
  assert (forall n, 0 <= n < 0x20000 -> child_bit 0 p' n = true <-> forall j, n * 1 <= j < (n + 1) * 1 -> P j) as Hsp.
  { intros n Hn. rewrite H0b, negb_true_iff by done. unfold P. split; [|intros Hall; apply Hall; lia].
    intros Hp j Hj. by replace j with n by lia. }
  assert (forall n, 0 <= n < 0x2000 -> child_bit 0x2000 p' n = true <-> forall j, n * (16 * 1) <= j < (n + 1) * (16 * 1) -> P j) as Hlp.
  { intros n Hn. rewrite H1b, bitmap_full by (try done; unfold in_range; lia). apply all_pages; [lia|]. intros k Hk. apply Hsp. lia. }
  assert (forall n, 0 <= n < 0x200 -> child_bit 0x2200 p' n = true <-> forall j, n * (16 * 16) <= j < (n + 1) * (16 * 16) -> P j) as Hse.
  { intros n Hn. rewrite H2b, bitmap_full by (try done; unfold in_range; lia). apply all_pages; [lia|]. intros k Hk. apply Hlp. lia. }
  intros [] n Hn; cbn [region_free region_count] in *; [by apply Hsp|by apply Hlp|by apply Hse|].
  rewrite H3b, bitmap_full by (try done; unfold in_range; lia).
  apply (all_pages P (fun k => child_bit 0x2200 p' k = true) 256 n); [lia|]. intros k Hk. apply Hse. lia.
Qed.

Lemma initialize_once_correct_witness :
  let used := [(0x8000, 0x9800); (0x100000, 0x300000)] in
  exists p', initialize_once used pmm_init_at = Val p' /\
    forall kind n, 0 <= n < region_count kind ->
      region_free p' kind n = true <->
      forall j, n * pages_of kind <= j < (n + 1) * pages_of kind -> page_used used j = false.
Proof.
  intros used. apply initialize_once_correct.
  - unfold pmm_wf. cbn [pmm_init_at regions]. by rewrite length_replicate.
  - split; repeat constructor; by vm_compute.
  - done.
  - intros u [->|[->|Hu%elem_of_nil]%elem_of_cons]%elem_of_cons; [by vm_compute|by vm_compute|done].
Defined.

(** Each of the three chains is a stack and only a stack: [float] puts a region
    in front; and since nothing ever sets a predecessor, [unfloat] of a region
    inside the chain does not take this region out but drops it together with
    all regions in front of it, whose free parts are lost to the allocator. *)
Theorem chains_are_stacks p kind i :
  pmm_reach p -> list_no kind = Some i ->
  (forall idx l, in_range idx -> idx ∉ l -> chained p i l ->
    exists p', float p idx kind = Val p' /\ chained p' i (idx :: l)) /\
  (forall l1 idx l2, chained p i (l1 ++ idx :: l2) ->
    exists p', unfloat p idx kind = Val p' /\ chained p' i l2).
Proof.
  intros Hr Hk. pose proof (reach_no_prev p Hr) as Hp. pose proof Hp as [Hwf _]. split.
  - intros idx l Hi Hn Hl. by apply float_chained.
  - intros l1 idx l2 Hl. assert (exists x, chain_from p x (l1 ++ idx :: l2)) as [x Hx].
    { unfold chained in Hl. destruct (floating_lists p i) as [x|]; [by exists x; destruct Hl|by destruct l1]. }
    apply chain_split in Hx as [Hi Hl2].
    destruct (unfloat_eq p idx kind i l2 Hp Hi Hk Hl2) as (p' & Hu & _ & Hc & _). by exists p'.
Qed.

Lemma chains_are_stacks_witness :
  (forall idx l, in_range idx -> idx ∉ l -> chained pmm_init_at 0 l ->
    exists p', float pmm_init_at idx LargePage = Val p' /\ chained p' 0 (idx :: l)) /\
  (forall l1 idx l2, chained pmm_init_at 0 (l1 ++ idx :: l2) ->
    exists p', unfloat pmm_init_at idx LargePage = Val p' /\ chained p' 0 l2).
Proof. apply (chains_are_stacks pmm_init_at LargePage 0); [apply reach_init|reflexivity]. Defined.

(** Supersections: [allocate_region] hands out the highest one that is free and
    changes no other bit, and says that memory is out exactly if none is free;
    and giving the supersection back restores the mask. *)
Theorem supersection_roundtrip p :
  fits 32 (supersection_mask p) ->
  match allocate_region p Supersection with
  | Panic => False
  | Val (p', Err OutOfMemory) => supersection_mask p = 0 /\ p' = p
  | Val (p', Ok a) =>
      exists n, 0 <= n < 32 /\ a = n * size Supersection /\ regions p' = regions p /\
        (forall k, 0 <= k -> Z.testbit (supersection_mask p) k = (Z.testbit (supersection_mask p') k || (k =? n))) /\
        (forall k, n <= k -> Z.testbit (supersection_mask p') k = false) /\
        exists p2, deallocate_region p' a Supersection = Val p2 /\ supersection_mask p2 = supersection_mask p /\ regions p2 = regions p
  end.
Proof.
  intros Hm. unfold allocate_region. cbn [alloc_loop next_smallest]. unfold split_supersection.
  destruct (Z.eqb_spec (supersection_mask p) 0) as [Hz|Hnz]; cbn [negb]; [done|].
  destruct (highest_supersection (supersection_mask p) Hm Hnz) as (Hn & Hbit & Habove & Hlz & Hsh).
  set (n := Z.log2 (supersection_mask p)) in *. rewrite decide_True by done. rewrite Hlz. replace (31 - (31 - n)) with n by lia.
  unfold ss_ptr. rewrite checked_Val by lia. cbn [mbind run_bind]. rewrite Hsh.
  set (m' := Z.land (supersection_mask p) (Z.lxor (Z.shiftl 1 n) 0xffffffff)).
  assert (forall k, 0 <= k -> Z.testbit m' k = Z.testbit (supersection_mask p) k && negb (k =? n)) as Hm'.
  { intros k Hk. destruct (decide (k < 32)); [apply mask_clear_bit; lia|].
    unfold m'. rewrite Z.land_spec, (fits_testbit 32 (supersection_mask p)) by (done || lia). done. }
  assert (forall k, 0 <= k -> Z.testbit (supersection_mask p) k = (Z.testbit m' k || (k =? n))) as Hback.
  { intros k Hk. rewrite Hm' by done. destruct (Z.eqb_spec k n) as [->|]; [by rewrite Hbit, orb_true_r|].
    by rewrite andb_true_r, orb_false_r. }
  exists n. split_and!; [lia|lia|done|done|exact Hback| |].
  - intros k Hk. cbn [supersection_mask add_allocated with_allocated with_mask]. fold m'. rewrite Hm' by lia.
    destruct (Z.eqb_spec k n) as [->|]; [by rewrite andb_false_r|]. by rewrite Habove by lia.
  - unfold deallocate_region. change (size Supersection) with (16 * MiB). rewrite Z.mod_mul by done.
    cbn [rust_assert Z.eqb mbind run_bind]. rewrite Z.div_mul by done. cbn [mark_free_recursive mark_free_supersection mbind run_bind].
    eexists. split; [done|]. split; [|done]. cbn [supersection_mask add_allocated with_allocated with_mask]. fold m'.
    rewrite Z.mod_small by lia. apply Z.bits_inj'. intros k Hk. rewrite Z.lor_spec, Hback by done. f_equal.
    rewrite Z.shiftl_mul_pow2, Z.mul_1_l, Z.pow2_bits_eqb by lia. apply Z.eqb_sym.
Qed.

Lemma supersection_roundtrip_witness :
  let p := with_mask pmm_init_at 0x80000001 in
  match allocate_region p Supersection with
  | Panic => False
  | Val (p', Err OutOfMemory) => supersection_mask p = 0 /\ p' = p
  | Val (p', Ok a) =>
      exists n, 0 <= n < 32 /\ a = n * size Supersection /\ regions p' = regions p /\
        (forall k, 0 <= k -> Z.testbit (supersection_mask p) k = (Z.testbit (supersection_mask p') k || (k =? n))) /\
        (forall k, n <= k -> Z.testbit (supersection_mask p') k = false) /\
        exists p2, deallocate_region p' a Supersection = Val p2 /\ supersection_mask p2 = supersection_mask p /\ regions p2 = regions p
  end.
Proof. apply supersection_roundtrip. split; [done|reflexivity]. Defined.

(** [commit] is off by one: from a large page with free pages, [allocate_region]
    marks the highest free page but hands out the page behind it, which is not
    free if it is in the same large page, and is a page of the next large page
    otherwise; for the last page of all it panics. *)
Theorem small_page_not_free p lp l :
  no_prev p -> chained p 0 (lp :: l) -> lp < 0x2000 -> fits 16 (bm p lp) -> bm p lp <> 0 ->
  let h := Z.log2 (bm p lp) in
  let page := 16 * lp + h in
  region_free p SmallPage page = true /\
  match allocate_region p SmallPage with
  | Panic => page = 0x1ffff
  | Val (p', r) =>
      r = Ok ((page + 1) * size SmallPage) /\
      (forall j, 0 <= j -> region_free p' SmallPage j = region_free p SmallPage j && negb (j =? page)) /\
      (h < 15 -> region_free p SmallPage (page + 1) = false)
  end.
Proof.
  intros Hp Hc Hlt Hf Hnz h page. apply chained_cons in Hc as (Hhead & Hi & Hl).
  destruct (highest_bit (bm p lp) Hf Hnz) as (Hh & Hbit & Habove & _). fold h in Hh, Hbit, Habove.
  assert (0 <= lp) as Hlp by apply Hi.
  assert (forall q k, 0 <= k < 16 -> child_bit 0 q (16 * lp + k) = Z.testbit (bm q lp) k) as Hcb.
  { intros q k Hk. unfold child_bit. replace ((16 * lp + k) / 16) with lp by (apply Z.div_unique with k; lia).
    by replace ((16 * lp + k) mod 16) with k by (apply Z.mod_unique with lp; lia). }
  split; [cbn [region_free]; unfold page; by rewrite Hcb|].
  destruct (take_child_ok p lp LargePage 0 l Hp Hi eq_refl Hl Hf Hnz) as (p' & Ht & _ & _ & Hb). fold h in Ht, Hb.
  unfold allocate_region. cbn [alloc_loop next_smallest]. unfold floating_list. cbn [list_no fmap option_fmap option_map unwrap].
  rewrite Hhead. cbn [unwrap mbind run_bind commit]. unfold commit_large_page. rewrite Ht. cbn [mbind run_bind].
  rewrite (proj2 (Z.ltb_lt _ _)) by done. cbn [rust_assert mbind run_bind]. rewrite decide_True by done.
  replace (h + 1 + lp * 16) with (page + 1) by lia. unfold sp_ptr, checked.
  destruct (Z.ltb_spec (page + 1) 0x20000) as [Hin|Hout]; cbn [rust_assert mbind run_bind count_allocation]; [|lia].
  split; [done|]. split.
  - intros j Hj. cbn [region_free]. unfold child_bit. pose proof (Z.div_pos j 16 Hj ltac:(lia)).
    change (bm (add_allocated (count_no SmallPage) 1 p') (0 + j / 16)) with (bm p' (0 + j / 16)). rewrite Hb by lia.
    pose proof (Z.div_mod j 16 ltac:(lia)). pose proof (Z.mod_pos_bound j 16 ltac:(lia)). destruct (decide (0 + j / 16 = lp)) as [He|Hne].
    + rewrite clear_testbit, He by lia. f_equal. f_equal. apply eq_true_iff_eq. rewrite !Z.eqb_eq. lia.
    + rewrite (proj2 (Z.eqb_neq j page)) by lia. by rewrite andb_true_r.
  - intros H15. cbn [region_free]. replace (page + 1) with (16 * lp + (h + 1)) by lia. rewrite Hcb by lia. apply Habove. lia.
Qed.

Lemma small_page_not_free_witness :
  let p := with_lists (put pmm_init_at 3 (MkRegion 0x00f0 CHAIN_END CHAIN_END)) (<[0%nat := Some 3]> (fun _ => None)) in
  let h := Z.log2 (bm p 3) in
  let page := 16 * 3 + h in
  region_free p SmallPage page = true /\
  match allocate_region p SmallPage with
  | Panic => page = 0x1ffff
  | Val (p', r) =>
      r = Ok ((page + 1) * size SmallPage) /\
      (forall j, 0 <= j -> region_free p' SmallPage j = region_free p SmallPage j && negb (j =? page)) /\
      (h < 15 -> region_free p SmallPage (page + 1) = false)
  end.
Proof.
  intros p. assert (no_prev p) as Hp.
  { apply (no_prev_put pmm_init_at 3 (MkRegion 0x00f0 CHAIN_END CHAIN_END)); [apply reach_no_prev, reach_init|reflexivity]. }
  assert (reg p 3 = MkRegion 0x00f0 CHAIN_END CHAIN_END) as Hreg.
  { apply (reg_put pmm_init_at 3 (MkRegion 0x00f0 CHAIN_END CHAIN_END) 3); [apply (reach_no_prev _ reach_init)|by split|done]. }
  apply (small_page_not_free p 3 []).
  - exact Hp.
  - split; [|done]. apply chain_cons; [by split|]. rewrite Hreg. apply chain_nil.
  - reflexivity.
  - unfold bm. rewrite Hreg. split; [done|reflexivity].
  - unfold bm. rewrite Hreg. discriminate.
Defined.

(** The same in memory that is not yet split: while no region is chained, a
    section comes from the highest free supersection, but what is handed out is
    the first section of the supersection above it, which is in use; and if the
    highest free one is the last of all, as it is in an empty memory, every
    allocation below a supersection panics. *)
Theorem fresh_section_not_free p kind :
  no_prev p -> (forall i, floating_lists p i = None) -> fits 32 (supersection_mask p) -> supersection_mask p <> 0 ->
  let n := Z.log2 (supersection_mask p) in
  bm p (0x2200 + n) = 0xffff -> kind <> Supersection ->
  (n = 31 -> allocate_region p kind = Panic) /\
  (n < 31 -> region_free p Supersection (n + 1) = false /\
    exists p', allocate_region p Section_ = Val (p', Ok ((n + 1) * size Supersection))).
Proof.
  intros Hp Hlists Hf Hnz n Hfull Hkind. pose proof Hp as [Hwf _].
  destruct (highest_supersection (supersection_mask p) Hf Hnz) as (Hn & _ & Habove & Hlz & Hsh). fold n in Hn, Habove, Hlz, Hsh.
  assert (in_range (0x2200 + n)) as Hi by (unfold in_range; lia).
  assert (allocate_region p kind = split_supersection p kind) as ->.
  { unfold allocate_region, floating_list. destruct kind; cbn; unfold floating_list; cbn; rewrite ?Hlists; done. }
  assert (allocate_region p Section_ = split_supersection p Section_) as ->.
  { unfold allocate_region. cbn. unfold floating_list. cbn. by rewrite Hlists. }
  set (p1 := with_mask p (Z.land (supersection_mask p) (Z.lxor (Z.shiftr 0x80000000 (31 - n)) 0xffffffff))).
  destruct (float_chained p1 (0x2200 + n) Supersection 2 []) as (p2 & Hfl & Hc); [done|done|done|by apply not_elem_of_nil|by unfold chained; cbn; rewrite Hlists|].
  pose proof (float_prev _ _ _ _ Hfl Hp) as Hp2.
  destruct (float_ok p1 (0x2200 + n) Supersection Hwf Hi) as (p2' & Hfl' & _ & _ & Hb2). rewrite Hfl in Hfl'. injection Hfl' as <-.
  apply chained_cons in Hc as (_ & _ & Hl).
  assert (bm p2 (0x2200 + n) = 0xffff) as Hfull2 by (rewrite Hb2 by apply Hi; exact Hfull).
  destruct (take_child_ok p2 (0x2200 + n) Supersection 2 [] Hp2 Hi eq_refl Hl) as (p3 & Ht & _); [by rewrite Hfull2; split|by rewrite Hfull2|].
  rewrite Hfull2 in Ht. change (Z.log2 0xffff + 1) with 16 in Ht.
  assert (forall k, k <> Supersection -> split_supersection p k = count_allocation k (commit_supersection p2 (0x2200 + n) k)) as Hsplit.
  { intros k Hk. unfold split_supersection. rewrite (proj2 (Z.eqb_neq _ _)) by done. cbn [negb]. rewrite Hlz, decide_False by done. fold p1.
    replace (31 - (31 - n)) with n by lia. unfold ss_idx. rewrite checked_Val by lia. cbn [mbind run_bind].
    rewrite (Z.add_comm n), Hfl. done. }
  split.
  - intros H31. rewrite Hsplit by done. unfold count_allocation, commit_supersection. rewrite Ht, H31. cbn [mbind run_bind].
    by destruct kind.
  - intros H31. split; [apply Habove; lia|]. rewrite Hsplit by done. unfold count_allocation, commit_supersection. rewrite Ht. cbn [mbind run_bind].
    rewrite (proj2 (Z.ltb_lt _ _)) by lia. cbn [rust_assert mbind run_bind]. rewrite decide_True by done.
    unfold s_ptr. rewrite checked_Val by lia. cbn [mbind run_bind]. eexists. do 3 f_equal. cbn [size]. lia.
Qed.

Lemma fresh_section_not_free_witness :
  let p := pmm_init_at in
  let n := Z.log2 (supersection_mask p) in
  (n = 31 -> allocate_region p SmallPage = Panic) /\
  (n < 31 -> region_free p Supersection (n + 1) = false /\
    exists p', allocate_region p Section_ = Val (p', Ok ((n + 1) * size Supersection))).
Proof.
  apply (fresh_section_not_free pmm_init_at SmallPage).
  - apply reach_no_prev, reach_init.
  - reflexivity.
  - split; [done|reflexivity].
  - discriminate.
  - by vm_compute.
  - discriminate.
Defined.
