(* ===== verification/Mmu.v ===== *)
(** The memory management unit of the ARM device:
    [device/quartz/src/arch/arm1176/mmu.rs].

    The state is the memory by word address and the registers of the system
    coprocessor that the code writes.  How the processor translates an address
    with them is the specification that the page table is compared with. *)
From S2P Require Import Prelude.

Module Mmu.

Record MMUEnabledFeaturesConfig : Type := MkFeatures {
  dcache : option bool;
  icache : option bool;
  brpdx : option bool;
}.

(** The control register (c1), the translation table base and its control (c2),
    the domain access register (c3), and memory. *)
Record mmu_state : Type := MkMmu {
  cr : Z;
  ttb0 : Z;
  ttbcr : Z;
  dac : Z;
  mem : Z -> Z;
}.
Definition with_cr (s : mmu_state) (x : Z) : mmu_state := MkMmu x (ttb0 s) (ttbcr s) (dac s) (mem s).
Definition with_mem (s : mmu_state) (m : Z -> Z) : mmu_state := MkMmu (cr s) (ttb0 s) (ttbcr s) (dac s) m.

Definition inv32 (x : Z) : Z := Z.lxor x 0xffffffff.
Definition CR_DCACHE_BIT : Z := Z.shiftl 1 2.
Definition CR_BRPDX_BIT : Z := Z.shiftl 1 11.
Definition CR_ICACHE_BIT : Z := Z.shiftl 1 12.

Definition set_feature (f : option bool) (bit : Z) (on_off : Z * Z) : Z * Z :=
  match f with
  | Some true => (Z.lor (fst on_off) bit, snd on_off)
  | Some false => (fst on_off, Z.lor (snd on_off) bit)
  | None => on_off
  end.
Definition set_mmu_enabled_features (config : MMUEnabledFeaturesConfig) (s : mmu_state) : mmu_state :=
  let '(cr_on, cr_off) :=
    set_feature (brpdx config) CR_BRPDX_BIT
      (set_feature (icache config) CR_ICACHE_BIT (set_feature (dcache config) CR_DCACHE_BIT (0, 0))) in
  if negb (cr_on =? 0) || negb (cr_off =? 0)
  then with_cr s (Z.land (Z.lor (cr s) cr_on) (inv32 cr_off)) else s.

Definition disable_mmu (s : mmu_state) : mmu_state :=
  let s := with_cr s (Z.land (cr s) (inv32 4)) in
  with_cr s (Z.land (cr s) (inv32 1)).

(** *** The translation table *)

Definition tt_supersection (index tex c b : Z) : Z :=
  let ssba := wrap 32 (Z.shiftl index 24) in
  let NS := Z.shiftl 0 19 in
  let nG := Z.shiftl 0 17 in
  let S_ := Z.shiftl 0 16 in
  let APX := Z.shiftl 0 15 in
  let TEX := Z.shiftl tex 12 in
  let AP := Z.shiftl 3 10 in
  let P := Z.shiftl 0 9 in
  let domain := Z.shiftl 0 5 in
  let XN := Z.shiftl 0 4 in
  let C := Z.shiftl c 3 in
  let B := Z.shiftl b 2 in
  foldl Z.lor (Z.lor (Z.shiftl 1 18) 0x2) [ssba; NS; nG; S_; APX; TEX; AP; P; domain; XN; C; B].

(** [ttb_ptr.offset(i).write_volatile(val)] for each [i] of a range. *)
Definition store (m : Z -> Z) (a v : Z) : Z -> Z := fun x => if x =? a then v else m x.
Definition write_entries (ttb_ptr : Z) (entry val : Z -> Z) (n : Z) (m : Z -> Z) : Z -> Z :=
  foldl (fun m si => store m (ttb_ptr + 4 * entry si) (val si)) m (seqZ 0 n).
Definition init_mmu_translation_table (ttb_ptr : Z) (m : Z -> Z) : Z -> Z :=
  let m := write_entries ttb_ptr (fun ttei => ttei) (fun _ => 0) 0x1000 m in
  let m := write_entries ttb_ptr (fun si => 0x000 + si) (fun si => tt_supersection (Z.shiftr (si + 0) 4) 1 0 0) 512 m in
  write_entries ttb_ptr (fun si => 0x200 + si) (fun si => tt_supersection (Z.shiftr (si + 512) 4) 0 0 1) 16 m.

Definition init_mmu_tex_remap (s : mmu_state) : mmu_state :=
  let s := MkMmu (cr s) (ttb0 s) (ttbcr s) 0x00000007 (mem s) in
  with_cr s (Z.lor (cr s) (Z.shiftl 1 28)).

Definition init_mmu (ttb_ptr : Z) (s : mmu_state) : mmu_state :=
  let s := with_mem s (init_mmu_translation_table ttb_ptr (mem s)) in
  let s := init_mmu_tex_remap s in
  let s := MkMmu (cr s) (Z.lor ttb_ptr 9) 0x20 (dac s) (mem s) in
  let s := with_cr s (Z.land (Z.lor (cr s) (Z.shiftl 1 23)) (inv32 (Z.shiftl 1 12))) in
  with_cr s (Z.lor (cr s) 1).

(** *** What the processor does *)

(** The attributes of an access: type extension, cacheable, bufferable. *)
Record attributes : Type := MkAttributes {
  a_tex : Z;
  a_c : bool;
  a_b : bool;
}.
(** With the first table in use for all addresses (the low bits of its control
    are zero), the table is at its base, and an entry covers one megabyte; only
    supersections occur.  Without the unit, addresses are physical. *)
Definition translate (s : mmu_state) (va : Z) : option (Z * option attributes) :=
  if negb (Z.testbit (cr s) 0) then Some (va, None)
  else if negb (wrap 3 (ttbcr s) =? 0) then None
  else
    let base := Z.shiftl (Z.shiftr (ttb0 s) 14) 14 in
    let entry := mem s (base + 4 * Z.shiftr va 20) in
    if (wrap 2 entry =? 2) && Z.testbit entry 18
    then Some (Z.shiftr entry 24 * 2 ^ 24 + wrap 24 va,
               Some (MkAttributes (wrap 3 (Z.shiftr entry 12)) (Z.testbit entry 3) (Z.testbit entry 2)))
    else None.
End Mmu.
Export Mmu.

(** ** The table *)

Section table.
Implicit Types (m : Z -> Z) (i n : Z).

Lemma write_entries_lookup ttb entry val n m a :
  (forall i, 0 <= i < n -> a <> ttb + 4 * entry i) -> write_entries ttb entry val n m a = m a.
Proof.
  intros Hne. unfold write_entries. assert (forall i, i ∈ seqZ 0 n -> a <> ttb + 4 * entry i) as Hall.
  { intros i Hi%elem_of_seqZ. apply Hne. lia. }
  clear Hne. revert m. induction (seqZ 0 n) as [|i l IH]; intros m; [done|]. cbn [foldl]. rewrite IH.
  - unfold store. rewrite (proj2 (Z.eqb_neq _ _)); [done|]. apply Hall. by left.
  - intros j Hj. apply Hall. by right.
Qed.
Lemma write_entries_hit ttb entry val n m i :
  (forall i j, 0 <= i < n -> 0 <= j < n -> entry i = entry j -> i = j) ->
  0 <= i < n -> write_entries ttb entry val n m (ttb + 4 * entry i) = val i.
Proof.
  intros Hinj Hi. unfold write_entries.
  assert (i ∈ seqZ 0 n) as Hin by (apply elem_of_seqZ; lia).
  assert (forall j, j ∈ seqZ 0 n -> 0 <= j < n) as Hall by (intros j Hj%elem_of_seqZ; lia).
  assert (forall m, (m (ttb + 4 * entry i) = val i \/ i ∈ seqZ 0 n) ->
    foldl (fun m si => store m (ttb + 4 * entry si) (val si)) m (seqZ 0 n) (ttb + 4 * entry i) = val i) as Hgen; [|by apply Hgen; right].
  clear Hin. clear m. induction (seqZ 0 n) as [|j l IH]; intros m Hor; cbn [foldl].
  - by destruct Hor as [?|?%elem_of_nil].
  - apply IH; [intros k Hk; apply Hall; by right|]. unfold store. destruct (Z.eqb_spec (ttb + 4 * entry i) (ttb + 4 * entry j)) as [He|Hne].
    + left. f_equal. apply Hinj; [apply Hall; by left|done|lia].
    + destruct Hor as [Hm|[->|Hl]%elem_of_cons]; [by left|done|by right].
Qed.

(** The entry for megabyte [i]. *)
Definition table_entry i : Z :=
  if i <? 0x200 then tt_supersection (Z.shiftr i 4) 1 0 0
  else if i <? 0x210 then tt_supersection (Z.shiftr i 4) 0 0 1 else 0.
Lemma table_lookup ttb m i :
  0 <= i < 0x1000 -> init_mmu_translation_table ttb m (ttb + 4 * i) = table_entry i.
Proof.
  intros Hi. unfold init_mmu_translation_table, table_entry. cbv zeta. destruct (Z.ltb_spec i 0x210) as [Hdev|Hno].
  - destruct (Z.ltb_spec i 0x200) as [Hmem|Hmem].
    + rewrite write_entries_lookup by lia.
      replace (ttb + 4 * i) with (ttb + 4 * (0x000 + i)) by lia.
      rewrite (write_entries_hit ttb (fun si => 0x000 + si)) by lia. by rewrite Z.add_0_r.
    + replace (ttb + 4 * i) with (ttb + 4 * (0x200 + (i - 0x200))) by lia.
      rewrite (write_entries_hit ttb (fun si => 0x200 + si)) by lia. by replace (i - 0x200 + 512) with i by lia.
  - rewrite (proj2 (Z.ltb_ge i 0x200)) by lia.
    rewrite (write_entries_lookup ttb (fun si => 0x200 + si)) by lia. rewrite (write_entries_lookup ttb (fun si => 0x000 + si)) by lia.
    by rewrite (write_entries_hit ttb (fun ttei => ttei)) by lia.
Qed.

(** The fields of the entries, as the processor reads them. *)
Definition entry_fields_ok (entry tex : Z) (c b : bool) (idx : Z) : bool :=
  (wrap 2 entry =? 2) && Z.testbit entry 18 && (Z.shiftr entry 24 =? idx) &&
  (wrap 3 (Z.shiftr entry 12) =? tex) && Bool.eqb (Z.testbit entry 3) c && Bool.eqb (Z.testbit entry 2) b.
Lemma below_33 (f : Z -> bool) idx : forallb f (seqZ 0 0x21) = true -> 0 <= idx < 0x21 -> f idx = true.
Proof. intros Hall Hi. refine (proj1 (List.forallb_forall _ _) Hall idx _). apply list_elem_of_In, elem_of_seqZ. lia. Qed.
Lemma memory_fields idx : 0 <= idx < 0x21 -> entry_fields_ok (tt_supersection idx 1 0 0) 1 false false idx = true.
Proof. exact (below_33 (fun i => entry_fields_ok (tt_supersection i 1 0 0) 1 false false i) idx ltac:(vm_compute; reflexivity)). Qed.
Lemma device_fields idx : 0 <= idx < 0x21 -> entry_fields_ok (tt_supersection idx 0 0 1) 0 false true idx = true.
Proof. exact (below_33 (fun i => entry_fields_ok (tt_supersection i 0 0 1) 0 false true i) idx ltac:(vm_compute; reflexivity)). Qed.
Lemma entry_fields_spec entry tex c b idx :
  entry_fields_ok entry tex c b idx = true ->
  (wrap 2 entry =? 2) && Z.testbit entry 18 = true /\ Z.shiftr entry 24 = idx /\ wrap 3 (Z.shiftr entry 12) = tex /\
  Z.testbit entry 3 = c /\ Z.testbit entry 2 = b.
Proof.
  intros H. unfold entry_fields_ok in H. rewrite !andb_true_iff in H. destruct H as [[[[[H1 H2] H3] H4] H5] H6].
  rewrite H1, H2. split_and!; [done|by apply Z.eqb_eq|by apply Z.eqb_eq|by apply eqb_prop|by apply eqb_prop].
Qed.
(** The translation that an entry gives to an address of its supersection. *)
Definition entry_translation (entry va : Z) : option (Z * option attributes) :=
  if (wrap 2 entry =? 2) && Z.testbit entry 18
  then Some (Z.shiftr entry 24 * 2 ^ 24 + wrap 24 va,
             Some (MkAttributes (wrap 3 (Z.shiftr entry 12)) (Z.testbit entry 3) (Z.testbit entry 2)))
  else None.
Lemma entry_translates entry tex c b idx va :
  entry_fields_ok entry tex c b idx = true -> entry_translation entry va = Some (idx * 2 ^ 24 + wrap 24 va, Some (MkAttributes tex c b)).
Proof. intros H. apply entry_fields_spec in H as (H1 & H2 & H3 & H4 & H5). unfold entry_translation. by rewrite H1, H2, H3, H4, H5. Qed.
Lemma memory_translates idx va :
  0 <= idx < 0x21 ->
  entry_translation (tt_supersection idx 1 0 0) va = Some (idx * 2 ^ 24 + wrap 24 va, Some (MkAttributes 1 false false)) /\
  entry_translation (tt_supersection idx 0 0 1) va = Some (idx * 2 ^ 24 + wrap 24 va, Some (MkAttributes 0 false true)).
Proof.
  intros Hi. split; [exact (entry_translates _ _ _ _ _ va (memory_fields idx Hi))|exact (entry_translates _ _ _ _ _ va (device_fields idx Hi))].
Qed.
End table.

(** ** The registers *)

Lemma inv32_bit x i : 0 <= i < 32 -> Z.testbit (inv32 x) i = negb (Z.testbit x i).
Proof.
  intros Hi. unfold inv32. rewrite Z.lxor_spec. change 0xffffffff with (Z.ones 32).
  by rewrite Z.testbit_ones_nonneg, (proj2 (Z.ltb_lt i 32)), xorb_true_r by lia.
Qed.
Lemma one_bit n i : 0 <= n -> Z.testbit (Z.shiftl 1 n) i = (n =? i).
Proof. intros Hn. by rewrite Z.shiftl_mul_pow2, Z.mul_1_l, Z.pow2_bits_eqb. Qed.

Lemma ttb_base ttb : ttb mod 2 ^ 14 = 0 -> Z.shiftl (Z.shiftr (Z.lor ttb 9) 14) 14 = ttb.
Proof.
  intros Ha. rewrite Z.shiftr_lor. change (Z.shiftr 9 14) with 0. rewrite Z.lor_0_r, Z.shiftr_div_pow2, Z.shiftl_mul_pow2 by lia.
  pose proof (Z.div_mod ttb (2 ^ 14) ltac:(lia)). lia.
Qed.
(** The megabyte of an address, its supersection, and the address again. *)
Lemma megabyte va :
  0 <= va -> va < 2 ^ 32 ->
  let i := Z.shiftr va 20 in
  0 <= i < 0x1000 /\ (0 <= Z.shiftr i 4 /\ 2 ^ 20 * i <= va < 2 ^ 20 * (i + 1) /\ 16 * Z.shiftr i 4 <= i < 16 * (Z.shiftr i 4 + 1)) /\
  Z.shiftr i 4 * 2 ^ 24 + wrap 24 va = va.
Proof.
  intros Hva Hva' i. unfold i, wrap. rewrite !Z.shiftr_div_pow2 by lia.
  pose proof (Z.div_mod va (2 ^ 20) ltac:(lia)). pose proof (Z.mod_pos_bound va (2 ^ 20) ltac:(lia)).
  pose proof (Z.div_mod (va / 2 ^ 20) (2 ^ 4) ltac:(lia)). pose proof (Z.mod_pos_bound (va / 2 ^ 20) (2 ^ 4) ltac:(lia)).
  pose proof (Z.div_mod va (2 ^ 24) ltac:(lia)). pose proof (Z.div_div va (2 ^ 20) (2 ^ 4) ltac:(lia) ltac:(lia)) as Hdd.
  change (2 ^ 20 * 2 ^ 4) with (2 ^ 24) in Hdd. lia.
Qed.

Lemma init_mmu_registers ttb s :
  let s' := init_mmu ttb s in
  (forall i, 0 <= i < 32 -> Z.testbit (cr s') i =
    if bool_decide (i = 0 \/ i = 23 \/ i = 28) then true else if i =? 12 then false else Z.testbit (cr s) i) /\
  ttb0 s' = Z.lor ttb 9 /\ ttbcr s' = 0x20 /\ mem s' = init_mmu_translation_table ttb (mem s).
Proof.
  split; [|done]. intros i Hi. unfold init_mmu, init_mmu_tex_remap. cbn [cr with_cr with_mem ttb0 ttbcr dac mem].
  change (Z.lor ?a 1) with (Z.lor a (Z.shiftl 1 0)).
  rewrite Z.lor_spec, Z.land_spec, !Z.lor_spec, inv32_bit, !one_bit by lia.
  case_bool_decide as Hs.
  - destruct Hs as [->|[->| ->]]; cbn; by rewrite ?orb_true_r, ?orb_false_r, ?andb_true_r, ?orb_true_r.
  - rewrite (proj2 (Z.eqb_neq 28 i)), (proj2 (Z.eqb_neq 23 i)), (proj2 (Z.eqb_neq 0 i)), !orb_false_r by lia. rewrite (Z.eqb_sym i 12). destruct (12 =? i); cbn; by rewrite ?andb_true_r, ?andb_false_r, ?orb_false_r.
Qed.

(** The two masks of [set_mmu_enabled_features], bit by bit. *)
Definition feature_masks (config : MMUEnabledFeaturesConfig) : Z * Z :=
  set_feature (brpdx config) CR_BRPDX_BIT (set_feature (icache config) CR_ICACHE_BIT (set_feature (dcache config) CR_DCACHE_BIT (0, 0))).
Lemma set_feature_on f n on_off i :
  0 <= n ->
  Z.testbit (fst (set_feature f (Z.shiftl 1 n) on_off)) i =
    Z.testbit (fst on_off) i || ((match f with Some true => true | _ => false end) && (n =? i)).
Proof. intros Hn. destruct f as [[]|]; cbn [set_feature fst snd]; rewrite ?Z.lor_spec, ?one_bit, ?orb_false_r by done; done. Qed.
Lemma set_feature_off f n on_off i :
  0 <= n ->
  Z.testbit (snd (set_feature f (Z.shiftl 1 n) on_off)) i =
    Z.testbit (snd on_off) i || ((match f with Some false => true | _ => false end) && (n =? i)).
Proof. intros Hn. destruct f as [[]|]; cbn [set_feature fst snd]; rewrite ?Z.lor_spec, ?one_bit, ?orb_false_r by done; done. Qed.
Lemma features_on_off config s i :
  0 <= i < 32 ->
  Z.testbit (cr (set_mmu_enabled_features config s)) i =
    (Z.testbit (cr s) i || Z.testbit (fst (feature_masks config)) i) && negb (Z.testbit (snd (feature_masks config)) i).
Proof.
  intros Hi. unfold set_mmu_enabled_features. fold (feature_masks config). destruct (feature_masks config) as [on off]. cbn [fst snd].
  destruct (Z.eqb_spec on 0) as [->|]; [destruct (Z.eqb_spec off 0) as [->|]|]; cbn [negb orb cr with_cr];
    rewrite ?Z.land_spec, ?Z.lor_spec, ?inv32_bit, ?Z.bits_0, ?orb_false_r, ?andb_true_r by done; done.
Qed.

(** ** The claims *)

(** After [init_mmu] every address of the first 528 MB is translated to itself,
    as memory that is not cached below 512 MB and as device memory above, and
    every other address faults: nothing else of the address space is mapped. *)
Theorem init_mmu_identity ttb s va :
  fits 32 ttb -> ttb mod 2 ^ 14 = 0 -> fits 32 va ->
  translate (init_mmu ttb s) va =
    if va <? 0x21000000
    then Some (va, Some (if va <? 0x20000000 then MkAttributes 1 false false else MkAttributes 0 false true))
    else None.
Proof.
  intros [Ht Ht'] Ha [Hva Hva']. destruct (init_mmu_registers ttb s) as (Hcr & Hb & Hc & Hm).
  unfold translate. rewrite Hcr, Hb, Hc, Hm by lia. rewrite bool_decide_true by by left. cbn [negb].
  change (wrap 3 0x20 =? 0) with true. cbn [negb].
  assert (Z.shiftl (Z.shiftr (Z.lor ttb 9) 14) 14 = ttb) as -> by by apply ttb_base.
  destruct (megabyte va) as (Hi & Hlo & Hpa); [done|done|]. set (i := Z.shiftr va 20) in *.
  rewrite table_lookup by lia. fold (entry_translation (table_entry i) va). unfold table_entry.
  destruct (Z.ltb_spec i 0x200), (Z.ltb_spec i 0x210), (Z.ltb_spec va 0x20000000), (Z.ltb_spec va 0x21000000); try lia; [| |done];
    destruct (memory_translates (Z.shiftr i 4) va) as [Hmem Hdev]; try lia;
    [by rewrite Hmem, Hpa|by rewrite Hdev, Hpa].
Qed.

Lemma init_mmu_identity_witness :
  let s := MkMmu 0 0 0 0 (fun _ => 0) in
  translate (init_mmu 0x4000 s) 0x20201000 =
    if 0x20201000 <? 0x21000000
    then Some (0x20201000, Some (if 0x20201000 <? 0x20000000 then MkAttributes 1 false false else MkAttributes 0 false true))
    else None.
Proof. apply (init_mmu_identity 0x4000 (MkMmu 0 0 0 0 (fun _ => 0)) 0x20201000); [split; [done|reflexivity]|reflexivity|split; [done|reflexivity]]. Defined.

(** [set_mmu_enabled_features] sets exactly the bits it is asked to: each of the
    three features is switched on, switched off or left alone, and every other
    bit of the control register stays. *)
Theorem features_bits config s i :
  0 <= i < 32 ->
  Z.testbit (cr (set_mmu_enabled_features config s)) i =
    match (if i =? 2 then dcache config else if i =? 12 then icache config else if i =? 11 then brpdx config else None) with
    | Some b => b
    | None => Z.testbit (cr s) i
    end.
Proof.
  intros Hi. rewrite features_on_off by done. unfold feature_masks, CR_BRPDX_BIT, CR_ICACHE_BIT, CR_DCACHE_BIT.
  rewrite !set_feature_on, !set_feature_off by lia.
  cbn [fst snd]. rewrite Z.bits_0. destruct config as [d c b]. cbn [dcache icache brpdx].
  rewrite (Z.eqb_sym 2), (Z.eqb_sym 12), (Z.eqb_sym 11).
  destruct (Z.eqb_spec i 2) as [->|]; [destruct d as [[]|]|destruct (Z.eqb_spec i 12) as [->|]; [destruct c as [[]|]|destruct (Z.eqb_spec i 11) as [->|]; [destruct b as [[]|]|]]];
    rewrite ?andb_false_r, ?orb_false_r, ?andb_true_r; cbn; by rewrite ?orb_true_r.
Qed.

Lemma features_bits_witness :
  let s := MkMmu 0x1005 0 0 0 (fun _ => 0) in
  let config := MkFeatures (Some false) None (Some true) in
  Z.testbit (cr (set_mmu_enabled_features config s)) 2 =
    match (if 2 =? 2 then dcache config else if 2 =? 12 then icache config else if 2 =? 11 then brpdx config else None) with
    | Some b => b
    | None => Z.testbit (cr s) 2
    end.
Proof. apply (features_bits (MkFeatures (Some false) None (Some true)) (MkMmu 0x1005 0 0 0 (fun _ => 0)) 2). lia. Defined.
