(* ===== verification/Interleave.v ===== *)
(** The interleaving checker of [device/bismuth/src/app/debug.rs]: two threads,
    single-stepped by a breakpoint that stops at every other address, and a
    policy that chooses after each stop which of them goes on.

    What the processor does between two stops, and the hash of the
    [crc32fast] crate, are parameters. *)
From stdpp Require Import functions.
From S2P Require Import Prelude Words.

Module Interleave.

Section scheduler.
(** The hasher, and the address of [_interleave_stop]. *)
Context {H : Type} (hash_new : Z -> H) (hash_update : H -> list Z -> H).
Context (interleave_stop interleave_wrap : Z).
(** The policy and the memory that its check reads. *)
Context {P M : Type}.

Record ThreadState : Type := MkThread {
  registers : list Z;
  spsr : Z;
  did_stop : bool;
  hash : option H;
}.
Definition thread_empty : ThreadState := MkThread (replicate 16 0) 0 false None.

Record Policy : Type := MkPolicy {
  next_thread : P -> nat -> list ThreadState -> P * option nat;
  policy_check : P -> M -> P;
}.

Record InterleaveScheduler : Type := MkScheduler {
  policy : option P;
  current_thread : nat;
  threads : list ThreadState;
}.
Definition scheduler_new : InterleaveScheduler := MkScheduler None 0 [thread_empty; thread_empty].

(** What the handler finds: the registers r0 to r12 that the trampoline put on
    the stack, the banked r13 and r14, the saved status register; and the
    address of the breakpoint. *)
Record cpu_frame : Type := MkFrame {
  frame : list Z;
  usr_13_14 : list Z;
  cpu_spsr : Z;
  bvr0 : Z;
}.

(** [registers[a..][..].copy_from_slice(..)] *)
Definition set_registers (a : nat) (l : list Z) (t : ThreadState) : ThreadState :=
  MkThread (take a (registers t) ++ l ++ drop (a + length l) (registers t)) (spsr t) (did_stop t) (hash t).
Definition set_spsr (x : Z) (t : ThreadState) : ThreadState := MkThread (registers t) x (did_stop t) (hash t).
Definition set_did_stop (t : ThreadState) : ThreadState := MkThread (registers t) (spsr t) true (hash t).
Definition feed_hash (l : list Z) (t : ThreadState) : run ThreadState :=
  h ← unwrap (hash t); Val (MkThread (registers t) (spsr t) (did_stop t) (Some (hash_update h l))).

(** The state of the thread that was stopped at [lr]. *)
Definition save_thread (lr : Z) (c : cpu_frame) (t : ThreadState) : run ThreadState :=
  let t := set_registers 0 (frame c) t in
  let t := set_registers 13 (usr_13_14 c) t in
  let t := set_spsr (cpu_spsr c) t in
  let t := set_registers 15 [lr] t in
  t ← feed_hash (concat (map u32_to_le_bytes (registers t))) t;
  t ← feed_hash (u32_to_le_bytes (spsr t)) t;
  Val (if lr =? interleave_stop then set_did_stop t else t).
(** The frame with which the handler returns into a thread, and where to. *)
Definition load_thread (t : ThreadState) : run (cpu_frame * Z) :=
  return_address ← slice_get (registers t) 15;
  Val (MkFrame (take 13 (registers t)) (take 2 (drop 13 (registers t))) (spsr t) return_address, return_address).

Definition next_instruction (pol : Policy) (m : M) (lr : Z) (c : cpu_frame) (s : InterleaveScheduler) :
    run (InterleaveScheduler * cpu_frame * Z) :=
  t ← slice_get (threads s) (current_thread s);
  t ← save_thread lr c t;
  let ts := <[current_thread s := t]> (threads s) in
  p ← unwrap (policy s);
  let '(p, choice) := next_thread pol p (current_thread s) ts in
  let next := default 0%nat choice in
  let p := policy_check pol p m in
  t ← slice_get ts next;
  '(c, return_address) ← load_thread t;
  Val (MkScheduler (Some p) next ts, c, return_address).

(** [run], up to the first instruction of thread 0: the breakpoint is at 0.  The
    assembly at its end leaves in the registers of thread 0 what that thread needs
    to get back: the status register of [run] and the address [back] in it. *)
Definition thread_init (as_user_mode fn stack : Z) : ThreadState :=
  let t := thread_empty in
  let t := MkThread (registers t) (spsr t) (did_stop t) (Some (hash_new 0)) in
  let t := set_spsr as_user_mode t in
  let t := set_registers 0 [fn] t in
  let t := set_registers 13 [stack] t in
  set_registers 15 [interleave_wrap] t.
Definition run_init (cpsr psr back a b : Z) (p : P) : InterleaveScheduler * cpu_frame * Z :=
  let as_user_mode := Z.lor (Z.land cpsr (Z.lxor 0x1f 0xffffffff)) 0x10 in
  let t0 := set_registers 14 [back] (set_registers 1 [psr] (thread_init as_user_mode a 0x0f600000)) in
  let t1 := thread_init as_user_mode b 0x0f700000 in
  (MkScheduler (Some p) 0 [t0; t1],
   MkFrame (take 13 (registers t0)) (take 2 (drop 13 (registers t0))) as_user_mode 0, interleave_wrap).
End scheduler.
Arguments ThreadState : clear implicits.
Arguments InterleaveScheduler : clear implicits.
Arguments Policy : clear implicits.

(** *** [LabPolicyAba] *)

Record LabPolicyAba : Type := MkAba {
  instruction_counter : Z;
  instruction_count_param : Z;
  is_ok : bool;
}.
Definition aba_new (instruction_count_param : Z) : LabPolicyAba := MkAba 0 instruction_count_param true.
Definition aba_choice (p : LabPolicyAba) (done0 done1 : bool) : option nat :=
  if (instruction_counter p <? instruction_count_param p) && negb done0 then Some 0%nat
  else if negb done1 then Some 1%nat
  else if negb done0 then Some 0%nat
  else None.
Definition aba_next_thread {H} (p : LabPolicyAba) (_last_thread : nat) (threads : list (ThreadState H)) : LabPolicyAba * option nat :=
  let done (i : nat) := from_option did_stop true (threads !! i) in
  (MkAba (wrap 32 (instruction_counter p + 1)) (instruction_count_param p) (is_ok p), aba_choice p (done 0%nat) (done 1%nat)).
(** [check] reads the lock of the program under test. *)
Definition aba_check (p : LabPolicyAba) (LOCK : Z) : LabPolicyAba :=
  if 1 <? LOCK then MkAba (instruction_counter p) (instruction_count_param p) false else p.
Definition aba_policy {H} : Policy H LabPolicyAba Z := MkPolicy (H := H) aba_next_thread aba_check.
End Interleave.
Export Interleave.

(** ** Saving and loading *)

Section context_switch.
Context {H : Type} (hash_update : H -> list Z -> H) (interleave_stop : Z).
Implicit Types (t : ThreadState H) (c : cpu_frame) (lr : Z).

(** The registers of a frame that was stopped at [lr]. *)
Definition frame_registers c lr : list Z := frame c ++ usr_13_14 c ++ [lr].
Definition frame_ok c : Prop := length (frame c) = 13%nat /\ length (usr_13_14 c) = 2%nat.

Lemma save_thread_ok lr c t h :
  frame_ok c -> length (registers t) = 16%nat -> hash t = Some h ->
  exists t', save_thread hash_update interleave_stop lr c t = Val t' /\ registers t' = frame_registers c lr /\
    spsr t' = cpu_spsr c /\ did_stop t' = did_stop t || (lr =? interleave_stop) /\ is_Some (hash t').
Proof.
  intros [Hf Hu] Hl Hh. unfold save_thread. destruct t as [r sp d ho]. cbn [registers hash] in *. subst ho.
  do 16 (destruct r as [|? r]; [done|]). destruct r; [|done].
  destruct c as [f u cs bv]. cbn [frame usr_13_14] in *.
  do 13 (destruct f as [|? f]; [done|]). destruct f; [|done]. do 2 (destruct u as [|? u]; [done|]). destruct u; [|done].
  eexists. split; [done|]. destruct (lr =? interleave_stop); cbn [registers spsr did_stop hash set_did_stop]; by rewrite ?orb_true_r, ?orb_false_r.
Qed.
Lemma load_thread_ok t :
  length (registers t) = 16%nat ->
  exists c pc, load_thread t = Val (c, pc) /\ frame_ok c /\ frame_registers c pc = registers t /\ cpu_spsr c = spsr t /\ bvr0 c = pc.
Proof.
  intros Hl. destruct t as [r sp d ho]. cbn [registers] in Hl. do 16 (destruct r as [|? r]; [done|]). destruct r; [|done].
  eexists _, _. split; [done|]. by split_and!.
Qed.
End context_switch.

(** ** Two threads that take turns *)

(** A thread as it should be: its registers, the program counter last, and its
    status register. *)
Record context : Type := MkContext {
  regs : list Z;
  psr : Z;
}.
Definition pc_of (x : context) : Z := List.last (regs x) 0.

Section interleaving.
Context {H : Type} (hash_new : Z -> H) (hash_update : H -> list Z -> H).
Context (interleave_stop interleave_wrap : Z).
Context {P M : Type} (pol : Policy H P M).
(** What the processor does from the start of a thread until the next stop. *)
Context (slice : context -> M -> context * M).
Hypothesis slice_length : forall x m, length (regs x) = 16%nat -> length (regs (fst (slice x m))) = 16%nat.
(** The policy looks at who has stopped, and chooses one of the two threads. *)
Context (choose : P -> nat -> list bool -> P * option nat).
Hypothesis policy_chooses : forall p last ts, next_thread pol p last ts = choose p last (map did_stop ts).
Hypothesis choose_valid : forall p last ds, (default 0 (snd (choose p last ds)) < 2)%nat.

(** The code: the processor runs the thread that was loaded, and the handler
    switches. *)
Record machine : Type := MkMachine {
  m_sched : InterleaveScheduler H P;
  m_cpu : cpu_frame;
  m_pc : Z;
  m_mem : M;
}.
Definition machine_switch (st : machine) : run machine :=
  '(s, c, pc) ← next_instruction hash_update interleave_stop pol (m_mem st) (m_pc st) (m_cpu st) (m_sched st);
  Val (MkMachine s c pc (m_mem st)).
Definition machine_slice (st : machine) : machine :=
  let '(x, m) := slice (MkContext (frame_registers (m_cpu st) (m_pc st)) (cpu_spsr (m_cpu st))) (m_mem st) in
  MkMachine (m_sched st) (MkFrame (take 13 (regs x)) (take 2 (drop 13 (regs x))) (psr x) (bvr0 (m_cpu st))) (pc_of x) m.
Definition machine_start (cpsr status back a b : Z) (p : P) (m : M) : machine :=
  let '(s, c, pc) := run_init hash_new interleave_wrap cpsr status back a b p in MkMachine s c pc m.
(** The breakpoint of [run] stops before the first instruction. *)
Fixpoint machine_run (n : nat) (st : machine) : run machine :=
  match n with
  | O => machine_switch st
  | S n => st ← machine_run n st; machine_switch (machine_slice st)
  end.

(** What it should do: two contexts, and the one chosen runs. *)
Record turns : Type := MkTurns {
  contexts : nat -> context;
  stopped : nat -> bool;
  tpolicy : P;
  turn : nat;
  tmem : M;
}.
Definition turns_choose (a : turns) : turns :=
  let stopped' := <[turn a := stopped a (turn a) || (pc_of (contexts a (turn a)) =? interleave_stop)]> (stopped a) in
  let '(p, choice) := choose (tpolicy a) (turn a) [stopped' 0%nat; stopped' 1%nat] in
  MkTurns (contexts a) stopped' (policy_check pol p (tmem a)) (default 0%nat choice) (tmem a).
Definition turns_slice (a : turns) : turns :=
  let '(x, m) := slice (contexts a (turn a)) (tmem a) in
  MkTurns (<[turn a := x]> (contexts a)) (stopped a) (tpolicy a) (turn a) m.
Definition turns_start (cpsr status back a b : Z) (p : P) (m : M) : turns :=
  let as_user_mode := Z.lor (Z.land cpsr (Z.lxor 0x1f 0xffffffff)) 0x10 in
  let first (i : nat) (x y : Z) := if decide (i = 0%nat) then x else y in
  MkTurns (fun i => MkContext ([first i a b; first i status 0] ++ replicate 11 0 ++
      [first i 0x0f600000 0x0f700000; first i back 0; interleave_wrap]) as_user_mode)
    (fun _ => false) p 0 m.
Fixpoint turns_run (n : nat) (a : turns) : turns :=
  match n with
  | O => turns_choose a
  | S n => turns_choose (turns_slice (turns_run n a))
  end.

(** The thread that is loaded is in the processor; the other one is saved. *)
Record switched (st : machine) (a : turns) : Prop := {
  sw_cpu : frame_ok (m_cpu st) /\ MkContext (frame_registers (m_cpu st) (m_pc st)) (cpu_spsr (m_cpu st)) = contexts a (turn a);
  sw_saved : exists t0 t1, threads (m_sched st) = [t0; t1] /\ forall i t, [t0; t1] !! i = Some t ->
    length (registers t) = 16%nat /\ is_Some (hash t) /\ did_stop t = stopped a i /\
    (i <> turn a -> MkContext (registers t) (Interleave.spsr t) = contexts a i);
  sw_policy : policy (m_sched st) = Some (tpolicy a);
  sw_turn : current_thread (m_sched st) = turn a /\ (turn a < 2)%nat;
  sw_mem : m_mem st = tmem a;
}.

(** After the running thread was saved, both threads are. *)
Lemma save_running st a :
  switched st a ->
  exists t t' t0 t1, threads (m_sched st) !! turn a = Some t /\
    save_thread hash_update interleave_stop (m_pc st) (m_cpu st) t = Val t' /\
    <[turn a := t']> (threads (m_sched st)) = [t0; t1] /\
    forall i x, [t0; t1] !! i = Some x ->
      length (registers x) = 16%nat /\ is_Some (hash x) /\ did_stop x = stopped (turns_choose a) i /\
      MkContext (registers x) (Interleave.spsr x) = contexts a i.
Proof.
  intros [[Hok Hcpu] (t0 & t1 & Hts & Hsaved) Hpol [Hcur Hlt] Hmem].
  assert (exists t, [t0; t1] !! turn a = Some t) as [t Ht] by (destruct (turn a) as [|[|]]; [by eexists|by eexists|lia]).
  destruct (Hsaved _ _ Ht) as (Hlen & [h Hh] & Hstop & _).
  destruct (save_thread_ok hash_update interleave_stop (m_pc st) (m_cpu st) t h Hok Hlen Hh) as (t' & Hs & Hr & Hsp & Hd & Hh').
  assert (pc_of (contexts a (turn a)) = m_pc st) as Hpc.
  { rewrite <- Hcpu. unfold pc_of, frame_registers. cbn [regs]. by rewrite app_assoc, List.last_last. }
  assert (MkContext (registers t') (Interleave.spsr t') = contexts a (turn a)) as Hctx by by rewrite Hr, Hsp.
  assert (length (registers t') = 16%nat) as Hlen'.
  { rewrite Hr. unfold frame_registers. destruct Hok as [Hf Hu]. rewrite !length_app, Hf, Hu. done. }
  assert (forall i, stopped (turns_choose a) i = (<[turn a := did_stop t']> (stopped a)) i) as Hst.
  { intros i. unfold turns_choose. rewrite Hpc, <- Hstop, <- Hd. by destruct (choose _ _ _). }
  exists t, t'. rewrite Hts. setoid_rewrite Hst. destruct (turn a) as [|[|]] eqn:Hk; [| |lia].
  - exists t', t1. split_and!; [done|done|done|]. intros [|[|i]] x Hx; [| |done]; injection Hx as <-; [by rewrite fn_lookup_insert|].
    rewrite fn_lookup_insert_ne by done. destruct (Hsaved 1%nat t1 eq_refl) as (? & ? & ? & Hc). split_and!; [done..|by apply Hc].
  - exists t0, t'. split_and!; [done|done|done|]. intros [|[|i]] x Hx; [| |done]; injection Hx as <-; [|by rewrite fn_lookup_insert].
    rewrite fn_lookup_insert_ne by done. destruct (Hsaved 0%nat t0 eq_refl) as (? & ? & ? & Hc). split_and!; [done..|by apply Hc].
Qed.

Lemma machine_switch_ok st a :
  switched st a -> exists st', machine_switch st = Val st' /\ switched st' (turns_choose a) /\ bvr0 (m_cpu st') = m_pc st'.
Proof.
  intros Hsw. destruct (save_running st a Hsw) as (t & t' & t0 & t1 & Ht & Hs & Hts & Hall).
  destruct Hsw as [_ _ Hpol [Hcur Hlt] Hmem].
  assert (map did_stop [t0; t1] = [stopped (turns_choose a) 0%nat; stopped (turns_choose a) 1%nat]) as Hstops.
  { cbn [map]. by rewrite (proj1 (proj2 (proj2 (Hall 0%nat t0 eq_refl)))), (proj1 (proj2 (proj2 (Hall 1%nat t1 eq_refl)))). }
  unfold machine_switch, next_instruction. rewrite Hcur, (slice_get_Val _ _ t) by done. rewrite run_bind_Val, Hs, run_bind_Val, Hpol.
  cbn [unwrap]. rewrite run_bind_Val, Hts, policy_chooses, Hstops.
  unfold turns_choose in *. cbv zeta in *.
  set (stopped' := <[turn a := _]> (stopped a)) in *.
  pose proof (choose_valid (tpolicy a) (turn a) (map did_stop [t0; t1])) as Hv. rewrite Hstops in Hv.
  destruct (choose _ _ _) as [p choice] eqn:Hch. cbn [stopped snd] in *. rewrite Hch in Hv. rewrite Hch. cbn [snd] in Hv.
  assert (exists tn, [t0; t1] !! default 0%nat choice = Some tn) as [tn Htn].
  { destruct (default 0%nat choice) as [|[|]]; [by eexists|by eexists|lia]. }
  destruct (Hall _ _ Htn) as (Hlen & _ & _ & Hctx). destruct (load_thread_ok tn Hlen) as (c' & pc' & Hl & Hok & Hr & Hsp & Hb).
  rewrite (slice_get_Val _ _ tn) by done. rewrite run_bind_Val, Hl, run_bind_Val. eexists. split; [done|]. split; [|done].
  split; cbn [m_cpu m_pc m_mem m_sched contexts stopped tpolicy turn tmem policy current_thread threads].
  - split; [done|]. by rewrite Hr, Hsp.
  - exists t0, t1. split; [done|]. intros i x Hx. destruct (Hall i x Hx) as (? & ? & Hd & ?). by split_and!.
  - by rewrite Hmem.
  - done.
  - done.
Qed.

Lemma machine_slice_ok st a : switched st a -> switched (machine_slice st) (turns_slice a).
Proof.
  intros [[Hok Hcpu] (t0 & t1 & Hts & Hsaved) Hpol Hcur Hmem].
  unfold machine_slice, turns_slice. rewrite Hcpu, Hmem.
  assert (length (regs (contexts a (turn a))) = 16%nat) as Hlen.
  { rewrite <- Hcpu. cbn [regs]. unfold frame_registers. destruct Hok as [Hf Hu]. rewrite !length_app, Hf, Hu. done. }
  pose proof (slice_length (contexts a (turn a)) (tmem a) Hlen) as Hsl. destruct (slice _ _) as [x m]. cbn [fst] in Hsl.
  split; cbn [m_cpu m_pc m_mem m_sched contexts stopped tpolicy turn tmem].
  - rewrite fn_lookup_insert. destruct x as [r ps]. cbn [regs] in *. do 16 (destruct r as [|? r]; [done|]). destruct r; [|done]. done.
  - exists t0, t1. split; [done|]. intros i t Ht. destruct (Hsaved i t Ht) as (? & ? & ? & Hc). split_and!; [done..|].
    intros Hne. rewrite fn_lookup_insert_ne by done. by apply Hc.
  - done.
  - done.
  - done.
Qed.

Lemma machine_start_ok cpsr status back a b p m : switched (machine_start cpsr status back a b p m) (turns_start cpsr status back a b p m).
Proof.
  split; cbn [m_cpu m_pc m_mem m_sched machine_start run_init].
  - done.
  - eexists _, _. split; [done|]. intros [|[|i]] t Ht; [| |done]; injection Ht as <-; by split_and!.
  - done.
  - split; [done|]. cbn. lia.
  - done.
Qed.
End interleaving.

(** ** The policy *)

Section aba.
Implicit Types (p : LabPolicyAba) (flags : list (bool * bool)).

(** [aba_next_thread] as a choice from who has stopped. *)
Definition aba_choose p (_last : nat) (ds : list bool) : LabPolicyAba * option nat :=
  let done (i : nat) := default true (ds !! i) in
  (MkAba (wrap 32 (instruction_counter p + 1)) (instruction_count_param p) (is_ok p), aba_choice p (done 0%nat) (done 1%nat)).
Lemma aba_policy_chooses {H} p last (ts : list (ThreadState H)) :
  next_thread aba_policy p last ts = aba_choose p last (map did_stop ts).
Proof. cbn. unfold aba_next_thread, aba_choose. rewrite !list_lookup_fmap. by destruct (ts !! 0%nat), (ts !! 1%nat). Qed.
Lemma aba_choose_valid p last ds : (default 0 (snd (aba_choose p last ds)) < 2)%nat.
Proof. unfold aba_choose, aba_choice. cbn [snd]. repeat case_match; cbn; lia. Qed.

(** The choices of successive stops; a flag says that a thread has stopped for good. *)
Fixpoint aba_choices p flags : list (option nat) :=
  match flags with
  | [] => []
  | (d0, d1) :: flags => let '(p', r) := aba_choose p 0 [d0; d1] in r :: aba_choices p' flags
  end.
(** Who has stopped stays stopped, and the run is over when both have. *)
Fixpoint flags_ok (d0 d1 : bool) flags : Prop :=
  match flags with
  | [] => True
  | (e0, e1) :: flags => (d0 = true -> e0 = true) /\ (d1 = true -> e1 = true) /\ e0 && e1 = false /\ flags_ok e0 e1 flags
  end.

Definition aba_count p : LabPolicyAba := MkAba (wrap 32 (instruction_counter p + 1)) (instruction_count_param p) (is_ok p).
Lemma aba_choices_cons p d0 d1 flags :
  aba_choices p ((d0, d1) :: flags) = aba_choice p d0 d1 :: aba_choices (aba_count p) flags.
Proof. done. Qed.

Lemma third_phase p flags : flags_ok false true flags -> aba_choices p flags = replicate (length flags) (Some 0%nat).
Proof.
  revert p. induction flags as [|[d0 d1] flags IH]; intros p; [done|]. cbn [flags_ok length replicate].
  intros (_ & H1 & H2 & H3). assert (d1 = true) as -> by auto. rewrite andb_true_r in H2. subst d0. rewrite aba_choices_cons.
  unfold aba_choice. rewrite andb_true_r. f_equal; [by destruct (_ <? _)|by apply IH].
Qed.
Lemma second_phase p d0 d1 flags :
  flags_ok d0 d1 flags -> d0 && d1 = false -> d0 = true \/ instruction_count_param p <= instruction_counter p ->
  0 <= instruction_counter p -> instruction_counter p + Z.of_nat (length flags) < 2 ^ 32 ->
  exists b c, aba_choices p flags = replicate b (Some 1%nat) ++ replicate c (Some 0%nat).
Proof.
  revert p d0 d1. induction flags as [|[e0 e1] flags IH]; intros p d0 d1; [by exists 0%nat, 0%nat|].
  cbn [flags_ok length]. intros (H0 & H1 & H2 & H3) Hd Hor Hc Hb. destruct e1.
  - rewrite andb_true_r in H2. subst e0. exists 0%nat, (length ((false, true) :: flags)). apply (third_phase p ((false, true) :: flags)). by split_and!.
  - rewrite aba_choices_cons.
    assert (aba_choice p e0 false = Some 1%nat) as ->.
    { unfold aba_choice. destruct Hor as [->|Hge]; [by rewrite H0, andb_false_r by done|]. by rewrite (proj2 (Z.ltb_ge _ _)) by done. }
    destruct (IH (aba_count p) e0 false) as (b & c & ->); cbn [aba_count instruction_count_param instruction_counter];
      rewrite ?wrap_id by (unfold fits; lia); [done|apply andb_false_r| |lia|lia|by exists (S b), c].
    destruct Hor as [->|Hge]; [left; by apply H0|right; lia].
Qed.
Lemma first_phase p d0 d1 flags :
  flags_ok d0 d1 flags -> d0 && d1 = false ->
  0 <= instruction_counter p -> instruction_counter p + Z.of_nat (length flags) < 2 ^ 32 ->
  exists a b c, aba_choices p flags = replicate a (Some 0%nat) ++ replicate b (Some 1%nat) ++ replicate c (Some 0%nat) /\
    Z.of_nat a <= Z.max 0 (instruction_count_param p - instruction_counter p) /\
    (0 < b -> Z.of_nat a = Z.max 0 (instruction_count_param p - instruction_counter p) \/ exists e1, flags !! a = Some (true, e1))%nat.
Proof.
  revert p d0 d1. induction flags as [|[e0 e1] flags IH]; intros p d0 d1.
  { intros _ _ _ _. exists 0%nat, 0%nat, 0%nat. split; [done|]. split; [lia|]. lia. }
  intros Hf Hd Hc Hb. pose proof Hf as (H0 & H1 & H2 & H3). cbn [length] in Hb.
  destruct (decide (e0 = false /\ instruction_counter p < instruction_count_param p)) as [[-> Hlt]|Hswitch].
  - rewrite aba_choices_cons. assert (aba_choice p false e1 = Some 0%nat) as ->.
    { unfold aba_choice. by rewrite (proj2 (Z.ltb_lt _ _)) by done. }
    destruct (IH (aba_count p) false e1 H3 eq_refl) as (a & b & c & -> & Ha & Hsw); cbn [aba_count instruction_count_param instruction_counter] in *;
      rewrite ?wrap_id in * by (unfold fits; lia); [lia|lia|].
    exists (S a), b, c. split; [done|]. split; [lia|]. intros Hpos. destruct (Hsw Hpos) as [Ha'|He]; [left; lia|by right].
  - destruct (second_phase p e0 e1 ((e0, e1) :: flags)) as (b & c & ->).
    + by split_and!.
    + done.
    + destruct e0; [by left|right]. lia.
    + done.
    + cbn [length]. lia.
    + exists 0%nat, b, c. split; [done|]. split; [lia|]. intros _. destruct e0; [right; by exists e1|left]. lia.
Qed.
End aba.

(** ** The claims *)

(** C15: the scheduler gives each thread the processor as if it had one of its own.
    For any two functions, any policy and any number of stops, the run with one
    processor whose registers are saved and loaded at every stop is the run of
    two separate contexts that take turns as the policy says; it does not
    panic, the loaded context is the one of the thread whose turn it is, and the
    breakpoint stands at its next instruction. *)
Theorem scheduler_refines_turns {H P M : Type} (hash_new : Z -> H) hash_update interleave_stop interleave_wrap
    (pol : Policy H P M) (slice : context -> M -> context * M) (choose : P -> nat -> list bool -> P * option nat) cpsr status back a b p m n :
  (forall x m, length (regs x) = 16%nat -> length (regs (fst (slice x m))) = 16%nat) ->
  (forall p last ts, next_thread pol p last ts = choose p last (map did_stop ts)) ->
  (forall p last ds, (default 0 (snd (choose p last ds)) < 2)%nat) ->
  exists st, machine_run hash_update interleave_stop pol slice n (machine_start hash_new interleave_wrap cpsr status back a b p m) = Val st /\
    let ts := turns_run interleave_stop pol slice choose n (turns_start interleave_wrap cpsr status back a b p m) in
    MkContext (frame_registers (m_cpu st) (m_pc st)) (cpu_spsr (m_cpu st)) = contexts ts (turn ts) /\
    current_thread (m_sched st) = turn ts /\ m_mem st = tmem ts /\ policy (m_sched st) = Some (tpolicy ts) /\
    bvr0 (m_cpu st) = m_pc st.
Proof.
  intros Hs Hp Hc.
  assert (exists st, machine_run hash_update interleave_stop pol slice n (machine_start hash_new interleave_wrap cpsr status back a b p m) = Val st /\
    switched st (turns_run interleave_stop pol slice choose n (turns_start interleave_wrap cpsr status back a b p m)) /\ bvr0 (m_cpu st) = m_pc st)
    as (st & Hr & Hsw & Hb).
  { induction n as [|n (st & Hr & Hsw & _)]; cbn [machine_run turns_run].
    - apply (machine_switch_ok hash_update interleave_stop pol choose Hp Hc), machine_start_ok.
    - rewrite Hr, run_bind_Val. apply (machine_switch_ok hash_update interleave_stop pol choose Hp Hc). by apply machine_slice_ok. }
  exists st. split; [done|]. destruct Hsw as [[_ Hcpu] _ Hpol [Hcur _] Hmem]. by split_and!.
Qed.

Lemma scheduler_refines_turns_witness :
  let hash_update (h : Z) (l : list Z) := h + Z.of_nat (length l) in
  let slice (x : context) (m : Z) := (MkContext (take 15 (regs x) ++ [pc_of x + 4]) (psr x), m) in
  exists st, machine_run hash_update 0x9000 aba_policy slice 3 (machine_start (fun x => x) 0x8100 0x13 0x13 0x8008 0x8400 0x8500 (aba_new 2) 0) = Val st /\
    let ts := turns_run 0x9000 (aba_policy (H := Z)) slice aba_choose 3 (turns_start 0x8100 0x13 0x13 0x8008 0x8400 0x8500 (aba_new 2) 0) in
    MkContext (frame_registers (m_cpu st) (m_pc st)) (cpu_spsr (m_cpu st)) = contexts ts (turn ts) /\
    current_thread (m_sched st) = turn ts /\ m_mem st = tmem ts /\ policy (m_sched st) = Some (tpolicy ts) /\
    bvr0 (m_cpu st) = m_pc st.
Proof.
  intros hash_update slice. apply (scheduler_refines_turns (fun x : Z => x) hash_update 0x9000 0x8100 aba_policy slice aba_choose).
  - intros x m Hl. unfold slice. cbn [fst regs]. rewrite length_app, length_take, Hl. reflexivity.
  - intros p last ts. apply aba_policy_chooses.
  - intros p last ds. apply aba_choose_valid.
Defined.

(** The policy [LabPolicyAba] with parameter [n] makes the interleaving A-B-A:
    thread A gets at most [n] turns, then thread B all it needs, then thread A
    the rest; and B starts only if A had its [n] turns or has stopped. *)
Theorem aba_schedule n flags :
  0 <= n -> flags_ok false false flags -> Z.of_nat (length flags) < 2 ^ 32 ->
  exists a b c, aba_choices (aba_new n) flags = replicate a (Some 0%nat) ++ replicate b (Some 1%nat) ++ replicate c (Some 0%nat) /\
    Z.of_nat a <= n /\ ((0 < b)%nat -> Z.of_nat a = n \/ exists e1, flags !! a = Some (true, e1)).
Proof.
  intros Hn Hf Hl. destruct (first_phase (aba_new n) false false flags Hf eq_refl) as (a & b & c & He & Ha & Hb); cbn [aba_new instruction_counter instruction_count_param] in *; [lia|lia|].
  exists a, b, c. split; [done|]. split; [lia|]. intros Hpos. destruct (Hb Hpos) as [Ha'|He']; [left; lia|by right].
Qed.

Lemma aba_schedule_witness :
  let flags := [(false, false); (false, false); (false, false); (false, true)] in
  exists a b c, aba_choices (aba_new 2) flags = replicate a (Some 0%nat) ++ replicate b (Some 1%nat) ++ replicate c (Some 0%nat) /\
    Z.of_nat a <= 2 /\ ((0 < b)%nat -> Z.of_nat a = 2 \/ exists e1, flags !! a = Some (true, e1)).
Proof. apply aba_schedule; [lia| |done]. by split_and!. Defined.
