(* ===== verification/SoftUart.v ===== *)
(** The bit-banged serial port of [device/quartz/src/device/bcm2835/soft_uart.rs].

    The cycle counter is a 32-bit reading of the true cycle count, and each
    reading happens at some time after the one before.  The output is the list
    of the levels that were driven, each with the reading after which it was. *)
From S2P Require Import Prelude.

Module SoftUart.

Definition baud_to_cycles (baud : Z) : run Z := if baud =? 0 then Panic else Val (700000000 / baud).

(** [while cycle::ccr_read() < deadline {}] from reading [k] on: the reading that
    ended it; [None] if [fuel] readings did not. *)
Fixpoint spin (fuel : nat) (ccr : nat -> Z) (k : nat) (deadline : Z) : option nat :=
  match fuel with
  | O => None
  | S fuel => if ccr k <? deadline then spin fuel ccr (S k) deadline else Some k
  end.

(** A level that is driven after reading [k]. *)
Record edge : Type := MkEdge {
  after : nat;
  level : bool;
}.

Definition deadline (start cycles_per_bit i : Z) : Z := wrap 32 (start + wrap 32 (i * cycles_per_bit)).

(** The loop over the data bits, [i] from 2 to 9; [k] is the last reading made. *)
Fixpoint data_bits (fuel : nat) (ccr : nat -> Z) (start cycles_per_bit : Z) (n : nat) (i byte last_bit : Z) (k : nat) :
    option (list edge * nat) :=
  match n with
  | O => Some ([], k)
  | S n =>
      let bit := Z.land byte 1 in
      let byte := Z.shiftr byte 1 in
      let edges := if negb (bit =? last_bit) then [MkEdge k (negb (bit =? 0))] else [] in
      k ← spin fuel ccr (S k) (deadline start cycles_per_bit i);
      '(rest, k) ← data_bits fuel ccr start cycles_per_bit n (i + 1) byte bit k;
      Some (edges ++ rest, k)
  end.
(** [write_byte]: the levels driven, and the reading that ended it. *)
Definition write_byte (fuel : nat) (ccr : nat -> Z) (cycles_per_bit byte : Z) : option (list edge * nat) :=
  let start := ccr 0%nat in
  k ← spin fuel ccr 1 (deadline start cycles_per_bit 1);
  '(edges, k) ← data_bits fuel ccr start cycles_per_bit 8 2 byte 0 k;
  let stop := MkEdge k true in
  k ← spin fuel ccr (S k) (deadline start cycles_per_bit 10);
  Some (MkEdge 0 false :: edges ++ [stop], k).

(** The level of the line at time [x]: that of the last edge until then, and high
    before; [at_time] says when an edge took place. *)
Definition line (at_time : nat -> Z) (edges : list edge) (x : Z) : bool :=
  foldl (fun l e => if at_time (after e) <=? x then level e else l) true edges.
End SoftUart.
Export SoftUart.

(** ** A byte on the line *)

Section sending.
(** The true cycle count at each reading; a reading takes at least one cycle and
    at most [D]; an edge takes place between two readings. *)
Context (truth at_time : nat -> Z) (D c : Z).
Hypothesis truth_step : forall k, truth k + 1 <= truth (S k) <= truth k + D.
Hypothesis at_time_between : forall k, truth k <= at_time k <= truth (S k).
Hypothesis slow_enough : 4 * D <= c.
Definition ccr_of (k : nat) : Z := wrap 32 (truth k).
(** The counter does not wrap while the byte is sent. *)
Hypothesis no_wrap : wrap 32 (truth 0%nat) + 10 * c + D < 2 ^ 32.
Context (fuel : nat).
Hypothesis enough : c + D < Z.of_nat fuel.
Implicit Types (i byte : Z) (k n : nat).

(** The cycles since the start. *)
Let since (k : nat) : Z := truth k - truth 0%nat.
Let start : Z := wrap 32 (truth 0%nat).

Lemma truth_after k : truth 0%nat <= truth k.
Proof. induction k as [|k IH]; [lia|]. pose proof (truth_step k). lia. Qed.
Lemma ccr_since k : since k <= 10 * c + D -> ccr_of k = start + since k.
Proof.
  intros Hs. unfold ccr_of, start, since in *. pose proof (truth_after k) as Ha.
  pose proof (Z.mod_pos_bound (truth 0%nat) (2 ^ 32) ltac:(lia)) as Hm. unfold wrap in *.
  replace (truth k) with (truth 0%nat + (truth k - truth 0%nat)) at 1 by lia.
  rewrite Z.add_mod, (Z.mod_small (truth k - truth 0%nat)) by lia. apply Z.mod_small. lia.
Qed.
Lemma deadline_eq i : 0 <= i <= 10 -> deadline start c i = start + i * c.
Proof.
  intros Hi. unfold deadline, start in *. pose proof (Z.mod_pos_bound (truth 0%nat) (2 ^ 32) ltac:(lia)) as Hm.
  pose proof (truth_step 0%nat). unfold wrap in *. rewrite (Z.mod_small (i * c)), Z.mod_small by nia. done.
Qed.
Lemma spin_ok f k i :
  0 <= i <= 10 -> since k < i * c -> i * c - since k < Z.of_nat f ->
  exists n, spin f ccr_of (S k) (start + i * c) = Some n /\ i * c <= since n <= i * c + D.
Proof.
  intros Hi. revert k. induction f as [|f IH]; intros k Hk Hf; [lia|]. cbn [spin]. pose proof (truth_step k) as Hstep.
  assert (since (S k) = since k + (truth (S k) - truth k)) as Hsk by (unfold since; lia).
  rewrite ccr_since by nia. destruct (Z.ltb_spec (start + since (S k)) (start + i * c)) as [Hlt|Hge].
  - apply IH; lia.
  - exists (S k). split; [done|]. lia.
Qed.
(** Where the code is after the wait for deadline [i]. *)
Definition waited i k : Prop := i * c <= since k <= i * c + D.
Lemma next_wait i k :
  0 <= i < 10 -> waited i k -> exists n, spin fuel ccr_of (S k) (deadline start c (i + 1)) = Some n /\ waited (i + 1) n.
Proof.
  intros Hi Hk. rewrite deadline_eq by lia. unfold waited in *. pose proof (truth_step 0%nat). apply spin_ok; lia.
Qed.

Definition level_after (edges : list edge) (l : bool) (x : Z) : bool :=
  foldl (fun l e => if at_time (after e) <=? x then level e else l) l edges.
Lemma level_after_app e1 e2 l x : level_after (e1 ++ e2) l x = level_after e2 (level_after e1 l x) x.
Proof. unfold level_after. apply foldl_app. Qed.
Lemma level_after_one k b l x : level_after [MkEdge k b] l x = if at_time k <=? x then b else l.
Proof. done. Qed.

Lemma data_bits_ok n : forall i byte last k,
  waited (i - 1) k -> 2 <= i -> i + Z.of_nat n <= 10 -> last = 0 \/ last = 1 ->
  exists edges k', data_bits fuel ccr_of start c n i byte last k = Some (edges, k') /\ waited (i + Z.of_nat n - 1) k' /\
    (forall l x, x < truth 0%nat + (i - 1) * c -> level_after edges l x = l) /\
    (forall x j, 0 <= j < Z.of_nat n -> truth 0%nat + (i - 1 + j) * c + 2 * D <= x < truth 0%nat + (i + j) * c ->
      level_after edges (negb (last =? 0)) x = Z.testbit byte j).
Proof.
  pose proof (truth_step 0%nat) as Hd. induction n as [|n IH]; intros i byte last k Hk Hi Hn Hlast.
  { exists [], k. split; [done|]. split; [by replace (i + Z.of_nat 0 - 1) with (i - 1) by lia|]. split; [done|]. lia. }
  cbn [data_bits].
  destruct (next_wait (i - 1) k) as (k1 & Hs & Hk1); [lia|done|]. replace (i - 1 + 1) with i in * by lia. rewrite Hs. cbn [mbind option_bind].
  set (bit := Z.land byte 1).
  assert (bit = Z.b2z (Z.testbit byte 0)) as Hbit.
  { unfold bit. change 1 with (Z.ones 1). rewrite Z.land_ones, Z.bit0_mod by lia. done. }
  assert (bit = 0 \/ bit = 1) as Hb01 by (rewrite Hbit; destruct (Z.testbit byte 0); auto).
  destruct (IH (i + 1) (Z.shiftr byte 1) bit k1) as (rest & k' & -> & Hk' & Hbefore & Hwin);
    [by replace (i + 1 - 1) with i by lia|lia|lia|done|]. cbn [mbind option_bind].
  set (edges := if negb (bit =? last) then _ else _).
  pose proof (at_time_between k) as Hat. pose proof (truth_step k) as Hst. unfold waited, since in Hk.
  assert (forall l x, x < truth 0%nat + (i - 1) * c -> level_after edges l x = l) as Hno.
  { intros l x Hx. unfold edges. destruct (negb (bit =? last)); [|done]. rewrite level_after_one.
    by rewrite (proj2 (Z.leb_gt _ _)) by lia. }
  assert (forall x, truth 0%nat + (i - 1) * c + 2 * D <= x -> level_after edges (negb (last =? 0)) x = negb (bit =? 0)) as Hyes.
  { intros x Hx. unfold edges. destruct (Z.eqb_spec bit last) as [<-|Hne]; cbn [negb]; [done|]. rewrite level_after_one.
    by rewrite (proj2 (Z.leb_le _ _)) by lia. }
  assert (negb (bit =? 0) = Z.testbit byte 0) as Hlevel by (rewrite Hbit; by destruct (Z.testbit byte 0)).
  replace (i + 1 - 1) with i in * by lia.
  exists (edges ++ rest), k'. split; [done|]. split; [by replace (i + Z.of_nat (S n) - 1) with (i + 1 + Z.of_nat n - 1) by lia|]. split.
  - intros l x Hx. rewrite level_after_app, Hno by done. apply Hbefore. lia.
  - intros x j Hj Hx. rewrite level_after_app, Hyes by nia. destruct (decide (j = 0)) as [->|Hne].
    + rewrite Hbefore by lia. done.
    + rewrite (Hwin x (j - 1)) by lia. rewrite Z.shiftr_spec by lia. f_equal. lia.
Qed.

Lemma write_byte_ok byte :
  exists edges k, write_byte fuel ccr_of c byte = Some (edges, k) /\ waited 10 k /\
    (forall x, x < at_time 0%nat -> line at_time edges x = true) /\
    (forall x, at_time 0%nat <= x < truth 0%nat + c -> line at_time edges x = false) /\
    (forall x j, 0 <= j < 8 -> truth 0%nat + (j + 1) * c + 2 * D <= x < truth 0%nat + (j + 2) * c ->
      line at_time edges x = Z.testbit byte j) /\
    (forall x, truth 0%nat + 9 * c + 2 * D <= x -> line at_time edges x = true).
Proof.
  pose proof (truth_step 0%nat) as Hd. pose proof (at_time_between 0%nat) as Hat0. unfold write_byte.
  change (ccr_of 0) with start. destruct (next_wait 0 0%nat) as (k1 & Hs1 & Hk1); [lia|unfold waited, since; lia|].
  change (0 + 1) with 1 in *. rewrite Hs1. cbn [mbind option_bind].
  destruct (data_bits_ok 8 2 byte 0 k1) as (edges & k9 & -> & Hk9 & Hbefore & Hwin); [done|lia|lia|by left|].
  change (2 + Z.of_nat 8 - 1) with 9 in Hk9. cbn [mbind option_bind].
  destruct (next_wait 9 k9) as (k10 & Hs10 & Hk10); [lia|done|]. change (9 + 1) with 10 in *. rewrite Hs10. cbn [mbind option_bind].
  pose proof (at_time_between k9) as Hat9. pose proof (truth_step k9) as Hst9. unfold waited, since in Hk9.
  exists (MkEdge 0 false :: edges ++ [MkEdge k9 true]), k10. split; [done|]. split; [done|].
  assert (forall x, line at_time (MkEdge 0 false :: edges ++ [MkEdge k9 true]) x =
    if at_time k9 <=? x then true else level_after edges (if at_time 0%nat <=? x then false else true) x) as Hline.
  { intros x. unfold line. cbn [foldl after level]. rewrite foldl_app. done. }
  split_and!; intros x; rewrite Hline.
  - intros Hx. rewrite (proj2 (Z.leb_gt _ x)) by lia. rewrite (proj2 (Z.leb_gt (at_time 0%nat) x)) by lia. apply Hbefore. lia.
  - intros Hx. rewrite (proj2 (Z.leb_gt _ x)) by lia. rewrite (proj2 (Z.leb_le (at_time 0%nat) x)) by lia. apply Hbefore. lia.
  - intros j Hj Hx. rewrite (proj2 (Z.leb_gt _ x)) by nia. rewrite (proj2 (Z.leb_le (at_time 0%nat) x)) by nia.
    apply (Hwin x j); [lia|]. lia.
  - intros Hx. by rewrite (proj2 (Z.leb_le _ x)) by lia.
Qed.
End sending.

(** ** The claims *)

(** C27: what [write_byte] puts on the line is the byte in 8n1 format, as a receiver
    sees it that waits for the falling edge and then looks at the middle of each
    bit: a low start bit, the eight bits from the lowest on, a high stop bit; the
    waits end, after ten bit times.  This holds for every jitter of the readings
    up to a quarter of a bit, as long as the counter does not wrap. *)
Theorem soft_uart_sends truth at_time D cycles_per_bit byte fuel :
  (forall k, truth k + 1 <= truth (S k) <= truth k + D) ->
  (forall k, truth k <= at_time k <= truth (S k)) ->
  4 * D <= cycles_per_bit -> wrap 32 (truth 0%nat) + 10 * cycles_per_bit + D < 2 ^ 32 ->
  cycles_per_bit + D < Z.of_nat fuel ->
  let sample (edges : list edge) (i : Z) := line at_time edges (at_time 0%nat + i * cycles_per_bit + cycles_per_bit / 2) in
  exists edges k, write_byte fuel (ccr_of truth) cycles_per_bit byte = Some (edges, k) /\
    10 * cycles_per_bit <= truth k - truth 0%nat <= 10 * cycles_per_bit + D /\
    sample edges 0 = false /\ (forall j, 0 <= j < 8 -> sample edges (j + 1) = Z.testbit byte j) /\ sample edges 9 = true.
Proof.
  intros Hstep Hat Hslow Hwrap Hfuel sample. pose proof (Hstep 0%nat) as Hd. pose proof (Hat 0%nat) as Hat0.
  pose proof (Z.div_mod cycles_per_bit 2 ltac:(lia)) as Hdiv. pose proof (Z.mod_pos_bound cycles_per_bit 2 ltac:(lia)).
  destruct (write_byte_ok truth at_time D cycles_per_bit Hstep Hat Hslow Hwrap fuel Hfuel byte) as (edges & k & Hw & Hk & _ & Hstart & Hbits & Hstop).
  exists edges, k. split; [done|]. split; [exact Hk|]. unfold sample. split_and!.
  - apply Hstart. lia.
  - intros j Hj. apply Hbits; [done|]. nia.
  - apply Hstop. lia.
Qed.

Lemma soft_uart_sends_witness :
  let truth k := 1000 + 5 * Z.of_nat k in
  let sample (edges : list edge) (i : Z) := line truth edges (truth 0%nat + i * 60 + 60 / 2) in
  exists edges k, write_byte 100 (ccr_of truth) 60 0xa5 = Some (edges, k) /\
    10 * 60 <= truth k - truth 0%nat <= 10 * 60 + 5 /\
    sample edges 0 = false /\ (forall j, 0 <= j < 8 -> sample edges (j + 1) = Z.testbit 0xa5 j) /\ sample edges 9 = true.
Proof. apply (soft_uart_sends (fun k => 1000 + 5 * Z.of_nat k) (fun k => 1000 + 5 * Z.of_nat k) 5 60 0xa5 100); [lia|lia|lia|by vm_compute|lia]. Defined.

(** If a deadline lies behind the end of the 32-bit counter it wraps, and the
    wait ends at once: the start bit of such a byte is not one bit long, but
    over at the first reading. *)
Theorem soft_uart_wrap ccr cycles_per_bit byte fuel edges k :
  fits 32 (ccr 0%nat) -> 0 <= cycles_per_bit < 2 ^ 32 -> 2 ^ 32 <= ccr 0%nat + cycles_per_bit -> ccr 0%nat <= ccr 1%nat ->
  write_byte (S fuel) ccr cycles_per_bit byte = Some (edges, k) ->
  exists rest, edges = MkEdge 0 false :: rest /\ (Z.testbit byte 0 = true -> exists rest', rest = MkEdge 1 true :: rest').
Proof.
  intros [H0 H0'] Hc Hover Hle. unfold write_byte.
  assert (deadline (ccr 0%nat) cycles_per_bit 1 = ccr 0%nat + cycles_per_bit - 2 ^ 32) as ->.
  { unfold deadline. rewrite Z.mul_1_l, (wrap_id 32 cycles_per_bit) by done. unfold wrap.
    rewrite <- (Z.mod_add _ (-1)) by lia. rewrite Z.mod_small by lia. lia. }
  assert (spin (S fuel) ccr 1 (ccr 0%nat + cycles_per_bit - 2 ^ 32) = Some 1%nat) as ->.
  { cbn [spin]. by rewrite (proj2 (Z.ltb_ge _ _)) by lia. }
  intros (k1 & [= <-] & Hw)%bind_Some. apply bind_Some in Hw as ([data k9] & Hdata & Hw).
  apply bind_Some in Hw as (k10 & _ & [= <- _]). eexists. split; [done|]. intros Hbit.
  assert (Z.land byte 1 = 1) as Hone.
  { change 1 with (Z.ones 1) at 1. rewrite Z.land_ones by lia. change (2 ^ 1) with 2. by rewrite <- Z.bit0_mod, Hbit. }
  cbn [data_bits] in Hdata. rewrite Hone in Hdata. apply bind_Some in Hdata as (k2 & _ & Hdata).
  apply bind_Some in Hdata as ([data' k9'] & _ & [= <- _]). by eexists.
Qed.

Lemma soft_uart_wrap_witness :
  let ccr k := wrap 32 (2 ^ 32 - 30 + 5 * Z.of_nat k) in
  exists edges k, write_byte 200 ccr 60 0xa5 = Some (edges, k) /\
  exists rest, edges = MkEdge 0 false :: rest /\ (Z.testbit 0xa5 0 = true -> exists rest', rest = MkEdge 1 true :: rest').
Proof.
  intros ccr. destruct (write_byte 200 ccr 60 0xa5) as [[edges k]|] eqn:Hw; [|by vm_compute in Hw].
  exists edges, k. split; [reflexivity|]. apply (soft_uart_wrap ccr 60 0xa5 199 edges k); [by vm_compute|by vm_compute|by vm_compute|by vm_compute|exact Hw].
Defined.
