(* ===== verification/Trampolines.v ===== *)
(** The exception trampolines of [device/bismuth/src/exceptions.rs], instruction by
    instruction, with the system call handler and the end of a thread of
    [device/bismuth/src/app/debug.rs].

    A handler that is written in Rust is a function on the state; what the
    calling convention says of it is the interface [c_call].  The registers are
    numbered as in the architecture: 13 is sp, 14 is lr. *)
From S2P Require Import Prelude Interrupts Interleave.

Module Trampolines.

(** ** The processor *)

Definition USER_MODE : Z := 0x10.
Definition FIQ_MODE : Z := 0x11.
Definition IRQ_MODE : Z := 0x12.
Definition SUPERVISOR_MODE : Z := 0x13.
Definition ABORT_MODE : Z := 0x17.
Definition UNDEFINED_MODE : Z := 0x1b.
Definition SYSTEM_MODE : Z := 0x1f.

(** The registers by bank, the status registers, the memory by the word. *)
Record arm : Type := MkArm {
  a_regs : Z -> Z -> Z;
  a_cpsr : Z;
  a_spsr : Z -> Z;
  a_mem : Z -> Z;
}.
Definition a_mode (s : arm) : Z := Z.land (a_cpsr s) 0x1f.
(** The bank that register [r] belongs to: the modes share r0 to r7, only FIQ has
    its own r8 to r12, and System has the registers of User. *)
Definition reg_bank (mode r : Z) : Z :=
  if r <=? 7 then USER_MODE
  else if r <=? 12 then if mode =? FIQ_MODE then FIQ_MODE else USER_MODE
  else if mode =? SYSTEM_MODE then USER_MODE else mode.

Definition upd {A} (f : Z -> A) (x : Z) (v : A) : Z -> A := fun y => if y =? x then v else f y.
Definition get (r : Z) (s : arm) : Z := a_regs s (reg_bank (a_mode s) r) r.
Definition set (r v : Z) (s : arm) : arm :=
  let b := reg_bank (a_mode s) r in
  MkArm (upd (a_regs s) b (upd (a_regs s b) r v)) (a_cpsr s) (a_spsr s) (a_mem s).
Definition set_mem (m : Z -> Z) (s : arm) : arm := MkArm (a_regs s) (a_cpsr s) (a_spsr s) m.
Definition set_spsr_of (mode v : Z) (s : arm) : arm := MkArm (a_regs s) (a_cpsr s) (upd (a_spsr s) mode v) (a_mem s).
Definition set_cpsr (v : Z) (s : arm) : arm := MkArm (a_regs s) v (a_spsr s) (a_mem s).
Definition own_spsr (s : arm) : Z := a_spsr s (a_mode s).

Fixpoint store (a : Z) (ws : list Z) (m : Z -> Z) : Z -> Z :=
  match ws with [] => m | w :: ws => store (a + 4) ws (upd m a w) end.
Fixpoint load (a : Z) (n : nat) (m : Z -> Z) : list Z :=
  match n with O => [] | S n => m a :: load (a + 4) n m end.
Fixpoint set_list (rs vs : list Z) (s : arm) : arm :=
  match rs, vs with r :: rs, v :: vs => set_list rs vs (set r v s) | _, _ => s end.

(** What the processor does when it takes an exception into [mode]: [lr] is the
    preferred return address of that exception. *)
Definition take_exception (mode lr : Z) (s : arm) : arm :=
  let old := a_cpsr s in
  let s := set_cpsr (Z.lor (Z.land old (not32 0x3f)) (Z.lor mode 0x80)) s in
  set 14 lr (set_spsr_of mode old s).

(** ** Instructions *)

Inductive instr : Type :=
  | Sub (d n imm : Z)
  | Add (d n imm : Z)
  | And (d n m : Z)
  | Mov (d n : Z)
  | MovI (d imm : Z)
  | Mvn (d imm : Z)
  | Ldr (d n imm : Z)
  | Push (rs : list Z)        (* [stmfd sp!, {rs}] *)
  | Pop (rs : list Z)         (* [ldmia sp!, {rs}] *)
  | MrsSpsr (d : Z)
  | MsrSpsr (n : Z)
  | Srsia (mode : Z)          (* lr and spsr to the stack of [mode], which stays *)
  | Bl (f : arm -> arm)       (* the call of a function that returns *)
  | PopPc (rs : list Z)       (* [ldmia sp!, {rs, pc}^] *)
  | SubsPc (n imm : Z)        (* [subs pc, n, #imm] *)
  | Rfeia (n : Z)
  | Bx (n : Z).

(** A push that names sp behind another register: the architecture leaves the
    word that is stored for sp open; [stored_sp] is that word. *)
Section machine.
Context (stored_sp : Z -> Z).

Definition pushed (s : arm) (r : Z) : Z := if r =? 13 then stored_sp (get 13 s) else get r s.
Definition push (rs : list Z) (s : arm) : arm :=
  let sp := wrap 32 (get 13 s - 4 * Z.of_nat (length rs)) in
  set 13 sp (set_mem (store sp (map (pushed s) rs) (a_mem s)) s).
Definition pop (rs : list Z) (s : arm) : arm :=
  let sp := get 13 s in
  set_list rs (load sp (length rs) (a_mem s)) (set 13 (wrap 32 (sp + 4 * Z.of_nat (length rs))) s).

(** A step, or the address where execution goes on outside of the code. *)
Definition step (i : instr) (s : arm) : arm + arm * Z :=
  match i with
  | Sub d n imm => inl (set d (wrap 32 (get n s - imm)) s)
  | Add d n imm => inl (set d (wrap 32 (get n s + imm)) s)
  | And d n m => inl (set d (Z.land (get n s) (get m s)) s)
  | Mov d n => inl (set d (get n s) s)
  | MovI d imm => inl (set d imm s)
  | Mvn d imm => inl (set d (not32 imm) s)
  | Ldr d n imm => inl (set d (a_mem s (wrap 32 (get n s + imm))) s)
  | Push rs => inl (push rs s)
  | Pop rs => inl (pop rs s)
  | MrsSpsr d => inl (set d (own_spsr s) s)
  | MsrSpsr n => inl (set_spsr_of (a_mode s) (msr (own_spsr s) (get n s)) s)
  | Srsia mode =>
      let sp := a_regs s (reg_bank mode 13) 13 in
      inl (set_mem (store sp [get 14 s; own_spsr s] (a_mem s)) s)
  | Bl f => inl (f s)
  | PopPc rs =>
      let sp := get 13 s in
      let pc := a_mem s (sp + 4 * Z.of_nat (length rs)) in
      let s' := set_list rs (load sp (length rs) (a_mem s)) (set 13 (wrap 32 (sp + 4 * Z.of_nat (length rs) + 4)) s) in
      inr (set_cpsr (own_spsr s) s', pc)
  | SubsPc n imm => inr (set_cpsr (own_spsr s) s, wrap 32 (get n s - imm))
  | Rfeia n => inr (set_cpsr (a_mem s (get n s + 4)) s, a_mem s (get n s))
  | Bx n => inr (s, get n s)
  end.
Fixpoint exec (code : list instr) (s : arm) : option (arm * Z) :=
  match code with
  | [] => None
  | i :: code => match step i s with inl s => exec code s | inr out => Some out end
  end.
End machine.

(** ** The trampolines *)

Definition r0_r2 : list Z := [0; 1; 2].
Definition r0_r12 : list Z := [0; 1; 2; 3; 4; 5; 6; 7; 8; 9; 10; 11; 12].

Definition irq_trampoline (target : arm -> arm) : list instr :=
  [Sub 14 14 4; Push (r0_r12 ++ [14]); MrsSpsr 0; Push [0]; Bl target; Pop [0]; MsrSpsr 0; PopPc r0_r12].
Definition pabt_trampoline (target : arm -> arm) : list instr :=
  [Push r0_r12; Sub 0 14 4; Mov 1 13; Bl target; Add 14 0 4; Pop r0_r12; SubsPc 14 4].
Definition dabt_trampoline (target : arm -> arm) : list instr :=
  [Push (r0_r12 ++ [14]); Sub 0 14 8; Bl target; Pop (r0_r12 ++ [14]); SubsPc 14 4].
Definition svc_trampoline (target : arm -> arm) : list instr :=
  [Srsia SUPERVISOR_MODE; Push r0_r2; Push [3; 13; 14]; Ldr 3 14 (-4); Mvn 14 0xff000000; And 3 3 14; Bl target;
   Ldr 3 13 0; Add 13 13 12; Pop r0_r2; Rfeia 13].
Definition undef_trampoline (target : arm -> arm) : list instr :=
  [Srsia UNDEFINED_MODE; Push (r0_r12 ++ [14]); Sub 0 14 4; Bl target; Pop (r0_r12 ++ [14]); Rfeia 13].
Definition fiq_trampoline (target : arm -> arm) : list instr :=
  [Srsia FIQ_MODE; Push (r0_r12 ++ [14]); Bl target; Pop (r0_r12 ++ [14]); Rfeia 13].

(** *** The system call of the interleaving checker *)

Definition SYS_ELEVATE : Z := 13.
(** [syscall]: the arguments are r0 to r3 and three words on the stack. *)
Definition syscall (s : arm) : arm :=
  let arg0 := get 0 s in
  let imm := get 3 s in
  let sp := a_mem s (get 13 s + 4) in
  if imm =? SYS_ELEVATE then set_mem (upd (a_mem s) (sp + 16) arg0) s else s.

(** [_interleave_wrap] from the end of the thread to [swi 13] and behind it (the
    barriers have no effect on this state), and the end of the assembly in
    [InterleaveScheduler::run], which a return with r0 = 1 reaches. *)
Definition interleave_wrap_to_swi : list instr := [MovI 2 0; Mov 0 1; Mov 1 14].
Definition interleave_wrap_rest : list instr := [MovI 2 0; MovI 0 1; Bx 1].
Definition r1_r12 : list Z := [1; 2; 3; 4; 5; 6; 7; 8; 9; 10; 11; 12].
Definition run_epilogue (s : arm) : arm := pop r1_r12 s.
(** Code that does not leave. *)
Fixpoint straight (stored_sp : Z -> Z) (code : list instr) (s : arm) : option arm :=
  match code with
  | [] => Some s
  | i :: code => match step stored_sp i s with inl s => straight stored_sp code s | inr _ => None end
  end.
End Trampolines.
Export Trampolines.

(** ** Registers and frames *)

Section registers.
Implicit Types (s : arm) (r v b : Z) (rs ws : list Z) (m : Z -> Z).

Lemma regs_set r v s b r' :
  a_regs (set r v s) b r' = if (b =? reg_bank (a_mode s) r) && (r' =? r) then v else a_regs s b r'.
Proof.
  cbn. unfold upd. destruct (Z.eqb_spec b (reg_bank (a_mode s) r)) as [->|]; [|done].
  by destruct (r' =? r).
Qed.
Lemma regs_set_out r v s b r' : r' <> r \/ b <> reg_bank (a_mode s) r -> a_regs (set r v s) b r' = a_regs s b r'.
Proof. intros Hor. rewrite regs_set. destruct (Z.eqb_spec b (reg_bank (a_mode s) r)), (Z.eqb_spec r' r); try done. tauto. Qed.
Lemma get_set r v s : get r (set r v s) = v.
Proof. unfold get. rewrite regs_set. change (a_mode (set r v s)) with (a_mode s). by rewrite !Z.eqb_refl. Qed.
Lemma get_set_ne r r' v s : r <> r' -> get r (set r' v s) = get r s.
Proof.
  intros Hne. unfold get. rewrite regs_set, (proj2 (Z.eqb_neq r r')), andb_false_r by done. done.
Qed.
Lemma mode_set r v s : a_mode (set r v s) = a_mode s.
Proof. done. Qed.

Lemma set_list_rest rs ws s :
  a_cpsr (set_list rs ws s) = a_cpsr s /\ a_spsr (set_list rs ws s) = a_spsr s /\ a_mem (set_list rs ws s) = a_mem s.
Proof. revert ws s. induction rs as [|r rs IH]; intros [|w ws] s; try done. cbn. by destruct (IH ws (set r w s)) as (-> & -> & ->). Qed.
Lemma cpsr_set_list rs ws s : a_cpsr (set_list rs ws s) = a_cpsr s. Proof. apply set_list_rest. Qed.
Lemma spsr_set_list rs ws s : a_spsr (set_list rs ws s) = a_spsr s. Proof. apply set_list_rest. Qed.
Lemma mem_set_list rs ws s : a_mem (set_list rs ws s) = a_mem s. Proof. apply set_list_rest. Qed.
Lemma mode_set_list rs ws s : a_mode (set_list rs ws s) = a_mode s.
Proof. unfold a_mode. by rewrite cpsr_set_list. Qed.
Lemma own_spsr_set_list rs ws s : own_spsr (set_list rs ws s) = own_spsr s.
Proof. unfold own_spsr. by rewrite mode_set_list, spsr_set_list. Qed.

(** Loading a value for each register of a list. *)
Lemma regs_set_list rs (f : Z -> Z) s b r :
  a_regs (set_list rs (map f rs) s) b r =
  if (b =? reg_bank (a_mode s) r) && bool_decide (r ∈ rs) then f r else a_regs s b r.
Proof.
  revert s. induction rs as [|r0 rs IH]; intros s; cbn [map set_list].
  { by rewrite bool_decide_false, andb_false_r by apply not_elem_of_nil. }
  rewrite IH, regs_set, mode_set. destruct (decide (r ∈ rs)) as [Hin|Hin].
  - rewrite !bool_decide_true by (done || by right). destruct (Z.eqb_spec b (reg_bank (a_mode s) r)); [done|].
    destruct (Z.eqb_spec r r0) as [->|]; [|by rewrite andb_false_r]. by rewrite (proj2 (Z.eqb_neq _ _)).
  - rewrite (bool_decide_false (r ∈ rs)) by done. rewrite andb_false_r. destruct (Z.eqb_spec r r0) as [->|Hne].
    + by rewrite bool_decide_true by left.
    + rewrite bool_decide_false by (intros [?|?]%elem_of_cons; done). by rewrite !andb_false_r.
Qed.
Lemma get_set_list rs (f : Z -> Z) s r :
  get r (set_list rs (map f rs) s) = if bool_decide (r ∈ rs) then f r else get r s.
Proof. unfold get. by rewrite regs_set_list, mode_set_list, Z.eqb_refl. Qed.

Lemma store_other a ws m x : x < a \/ a + 4 * Z.of_nat (length ws) <= x -> store a ws m x = m x.
Proof.
  revert a m. induction ws as [|w ws IH]; intros a m Hx; [done|]. cbn [store length] in *. rewrite IH by lia.
  unfold upd. by rewrite (proj2 (Z.eqb_neq _ _)) by lia.
Qed.
Lemma load_store a ws m : load a (length ws) (store a ws m) = ws.
Proof.
  revert a m. induction ws as [|w ws IH]; intros a m; [done|]. cbn [store length load]. rewrite IH.
  f_equal. rewrite store_other by lia. unfold upd. by rewrite Z.eqb_refl.
Qed.
Lemma load_ext a n m m' : (forall x, a <= x < a + 4 * Z.of_nat n -> m' x = m x) -> load a n m' = load a n m.
Proof.
  revert a. induction n as [|n IH]; intros a Hm; [done|]. cbn [load]. rewrite Hm by lia. f_equal. apply IH. intros x Hx. apply Hm. lia.
Qed.
Lemma load_app a n k m : load a (n + k) m = load a n m ++ load (a + 4 * Z.of_nat n) k m.
Proof.
  revert a. induction n as [|n IH]; intros a; cbn [load Nat.add app].
  - f_equal. lia.
  - rewrite IH. do 3 f_equal. lia.
Qed.

(** ** Calls *)

(** What the calling convention promises of a call: the status register, the
    registers r4 to r11 and sp, and the [n] bytes above sp, which belong to the caller. *)
Record c_call (n : Z) (s s' : arm) : Prop := {
  cc_cpsr : a_cpsr s' = a_cpsr s;
  cc_saved : forall r, 4 <= r <= 11 \/ r = 13 -> get r s' = get r s;
  cc_frame : forall x, get 13 s <= x < get 13 s + n -> a_mem s' x = a_mem s x;
}.
(** The call does not touch the registers of other modes and the saved status registers. *)
Record undisturbed (s s' : arm) : Prop := {
  un_regs : forall b r, b <> reg_bank (a_mode s) r -> a_regs s' b r = a_regs s b r;
  un_spsr : forall mode, a_spsr s' mode = a_spsr s mode;
}.

Lemma mode_taken mode lr s : a_mode (take_exception mode lr s) = Z.land mode 0x1f.
Proof.
  unfold take_exception. rewrite mode_set. unfold a_mode. cbn [set_spsr_of set_cpsr a_cpsr].
  rewrite !Z.land_lor_distr_l, <- Z.land_assoc. change (Z.land (not32 63) 31) with 0. change (Z.land 128 31) with 0.
  by rewrite Z.land_0_r, Z.lor_0_l, Z.lor_0_r.
Qed.
Lemma regs_taken mode lr s b r :
  Z.land mode 0x1f = mode -> mode <> SYSTEM_MODE ->
  a_regs (take_exception mode lr s) b r = if (b =? mode) && (r =? 14) then lr else a_regs s b r.
Proof.
  intros Hm Hs. unfold take_exception at 1. rewrite regs_set. pose proof (mode_taken mode lr s) as Ht.
  unfold take_exception in Ht. rewrite mode_set in Ht. rewrite Ht, Hm. unfold reg_bank. cbn.
  by rewrite (proj2 (Z.eqb_neq mode SYSTEM_MODE)).
Qed.
Lemma spsr_taken mode lr s b : a_spsr (take_exception mode lr s) b = if b =? mode then a_cpsr s else a_spsr s b.
Proof. done. Qed.
Lemma mem_taken mode lr s : a_mem (take_exception mode lr s) = a_mem s.
Proof. done. Qed.
End registers.

(** ** Pushing, calling, popping *)

Section frames.
Context (stored_sp : Z -> Z).
Implicit Types (s : arm) (r v b : Z) (rs ws : list Z) (m : Z -> Z).

(** [s'] is [s] after a push of [ws]. *)
Record has_pushed (ws : list Z) (s s' : arm) : Prop := {
  hp_cpsr : a_cpsr s' = a_cpsr s;
  hp_spsr : a_spsr s' = a_spsr s;
  hp_sp : get 13 s' = get 13 s - 4 * Z.of_nat (length ws);
  hp_regs : forall b r, r <> 13 \/ b <> reg_bank (a_mode s) 13 -> a_regs s' b r = a_regs s b r;
  hp_frame : load (get 13 s') (length ws) (a_mem s') = ws;
  hp_rest : forall x, get 13 s <= x \/ x < get 13 s' -> a_mem s' x = a_mem s x;
}.
Lemma mode_eq s s' : a_cpsr s' = a_cpsr s -> a_mode s' = a_mode s.
Proof. unfold a_mode. by intros ->. Qed.
Lemma push_ok rs s :
  4 * Z.of_nat (length rs) <= get 13 s < 2 ^ 32 -> has_pushed (map (pushed stored_sp s) rs) s (push stored_sp rs s).
Proof.
  intros Hsp. unfold push. rewrite wrap_id by (unfold fits; lia).
  set (sp := get 13 s - _). split; try done.
  - rewrite get_set, length_map. done.
  - intros b r Hbr. rewrite regs_set. change (a_mode (set_mem _ s)) with (a_mode s).
    destruct (Z.eqb_spec b (reg_bank (a_mode s) 13)), (Z.eqb_spec r 13); try done. tauto.
  - rewrite get_set. apply load_store.
  - intros x Hx. rewrite get_set in Hx. cbn [set set_mem a_mem]. apply store_other. rewrite length_map. lia.
Qed.
Lemma has_pushed_get ws s s' r : has_pushed ws s s' -> r <> 13 -> get r s' = get r s.
Proof. intros Hp Hr. unfold get. rewrite (mode_eq s s') by apply Hp. apply Hp. by left. Qed.
Lemma map_pushed rs s : 13 ∉ rs -> map (pushed stored_sp s) rs = map (fun r => get r s) rs.
Proof.
  intros Hn. apply map_ext_in. intros r Hr. unfold pushed. destruct (Z.eqb_spec r 13) as [->|]; [|done].
  by apply list_elem_of_In in Hr.
Qed.
Lemma c_call_mode n s s' : c_call n s s' -> a_mode s' = a_mode s.
Proof. intros Hc. apply mode_eq, Hc. Qed.
(** A frame outlives a call. *)
Lemma call_frame n s s' ws :
  c_call n s s' -> 4 * Z.of_nat (length ws) <= n -> load (get 13 s) (length ws) (a_mem s) = ws ->
  get 13 s' = get 13 s /\ load (get 13 s') (length ws) (a_mem s') = ws.
Proof.
  intros Hc Hn Hl. assert (get 13 s' = get 13 s) as Hsp by (apply Hc; by right). split; [done|].
  rewrite Hsp. rewrite <- Hl at 2. apply load_ext. intros x Hx. apply Hc. lia.
Qed.

Lemma msr_same x : fits 32 x -> msr x x = x.
Proof.
  intros Hx. unfold msr. rewrite <- Z.land_lor_distr_r. change (Z.lor (not32 FC_FIELDS) FC_FIELDS) with (Z.ones 32).
  rewrite Z.land_ones by lia. by apply Z.mod_small.
Qed.

(** Loading back what was saved leaves every register as it was. *)
Lemma restore_regs rs s s0 b r :
  (forall b r, b <> reg_bank (a_mode s) r -> r <> 13 -> a_regs s b r = a_regs s0 b r) -> a_mode s = a_mode s0 ->
  r <> 13 -> r ∈ rs -> a_regs (set_list rs (map (fun r => get r s0) rs) s) b r = a_regs s0 b r.
Proof.
  intros Hs Hm Hr Hin. rewrite regs_set_list, bool_decide_true, andb_true_r by done.
  destruct (Z.eqb_spec b (reg_bank (a_mode s) r)) as [->|Hne]; [by rewrite Hm|]. by apply Hs.
Qed.

(** The code leaves to an address and in a state that satisfy [Q]. *)
Definition leaves (code : list instr) (s : arm) (Q : arm -> Z -> Prop) : Prop :=
  exists s' pc, exec stored_sp code s = Some (s', pc) /\ Q s' pc.
Lemma leaves_step i code s s' Q : step stored_sp i s = inl s' -> leaves code s' Q -> leaves (i :: code) s Q.
Proof. intros Hs (s2 & pc & He & HQ). exists s2, pc. split; [|done]. cbn. by rewrite Hs. Qed.
Lemma leaves_out i code s s' pc (Q : arm -> Z -> Prop) : step stored_sp i s = inr (s', pc) -> Q s' pc -> leaves (i :: code) s Q.
Proof. intros Hs HQ. exists s', pc. split; [|done]. cbn. by rewrite Hs. Qed.

(** Everything that the interrupted program sees is as before: the status
    register and the registers of all banks but [lr] of the mode of the exception. *)
Definition resumed (mode : Z) (s s' : arm) : Prop :=
  a_cpsr s' = a_cpsr s /\
  (forall b r, 0 <= r <= 14 -> b <> mode \/ r <> 14 -> a_regs s' b r = a_regs s b r) /\
  (forall b, b <> mode -> a_spsr s' b = a_spsr s b).

(** [target] behaves as a Rust function when it is called in [mode] with the stack
    pointer [sp], above which there are [n] bytes that belong to the caller. *)
Definition rust_function (mode sp n : Z) (target : arm -> arm) : Prop :=
  forall s, a_mode s = mode -> get 13 s = sp -> c_call n s (target s) /\ undisturbed s (target s).

(** The values of registers in the bank of [mode]. *)
Definition values (mode : Z) (rs : list Z) (s : arm) : list Z := map (fun r => a_regs s (reg_bank mode r) r) rs.
Lemma values_get mode rs s : a_mode s = mode -> map (fun r => get r s) rs = values mode rs s.
Proof. by intros <-. Qed.

(** The state in which the IRQ trampoline calls, and the one it finds after the
    call: the interrupted state [s] is in the frame. *)
Record irq_saved (s : arm) (pc sp : Z) (s' : arm) : Prop := {
  is_mode : a_mode s' = IRQ_MODE;
  is_sp : get 13 s' = sp - 60;
  is_frame : load (sp - 60) 15 (a_mem s') = a_cpsr s :: values IRQ_MODE r0_r12 s ++ [pc];
  is_regs : forall b r, b <> reg_bank IRQ_MODE r -> a_regs s' b r = a_regs s b r;
  is_spsr : forall b, a_spsr s' b = if b =? IRQ_MODE then a_cpsr s else a_spsr s b;
}.
Lemma irq_saves s s2 pc sp code Q :
  60 <= sp < 2 ^ 32 -> a_mode s2 = IRQ_MODE -> get 13 s2 = sp ->
  (forall b r, a_regs s2 b r = if (b =? IRQ_MODE) && (r =? 14) then pc else a_regs s b r) ->
  (forall b, a_spsr s2 b = if b =? IRQ_MODE then a_cpsr s else a_spsr s b) ->
  (forall s5, irq_saved s pc sp s5 -> leaves code s5 Q) ->
  leaves (Push (r0_r12 ++ [14]) :: MrsSpsr 0 :: Push [0] :: code) s2 Q.
Proof.
  intros Hsp Hm2 Hsp2 Hr2 Hss2 HQ. eapply leaves_step; [reflexivity|]. set (rs := r0_r12 ++ [14]).
  pose proof (push_ok rs s2 ltac:(rewrite Hsp2; cbn; lia)) as Hp. rewrite map_pushed, (values_get IRQ_MODE) in Hp by (done || (unfold rs; decide_now)).
  set (s3 := push stored_sp rs s2) in *. clearbody s3.
  assert (values IRQ_MODE rs s2 = values IRQ_MODE r0_r12 s ++ [pc]) as Hws by (cbn [values map rs app r0_r12]; by rewrite !Hr2).
  rewrite Hws in Hp. destruct Hp as [Hc3 Hss3 Hsp3 Hr3 Hfr3 Hm3]. rewrite Hsp2 in Hsp3, Hm3.
  change (length (values IRQ_MODE r0_r12 s ++ [pc])) with 14%nat in *.
  assert (a_mode s3 = IRQ_MODE) as Hmode3 by (by rewrite (mode_eq s2)).
  eapply leaves_step; [reflexivity|].
  assert (own_spsr s3 = a_cpsr s) as -> by (unfold own_spsr; rewrite Hmode3, Hss3, Hss2; done).
  set (s4 := set 0 _ s3). assert (get 13 s4 = sp - 56) as Hsp4 by (unfold s4; rewrite get_set_ne by done; lia).
  eapply leaves_step; [reflexivity|]. apply HQ.
  pose proof (push_ok [0] s4 ltac:(rewrite Hsp4; cbn; lia)) as [Hc5 Hss5 Hsp5 Hr5 Hfr5 Hm5].
  change (map (pushed stored_sp s4) [0]) with [get 0 s4] in *. unfold s4 in Hfr5 at 2. rewrite get_set in Hfr5.
  set (s5 := push stored_sp [0] s4) in *. clearbody s5. cbn [length] in Hsp5, Hfr5. rewrite Hsp4 in *.
  assert (a_mode s5 = IRQ_MODE) as Hmode5 by (by rewrite (mode_eq s4)).
  split; [done|lia| | |].
  - change 15%nat with (1 + 14)%nat. rewrite load_app. replace (sp - 60) with (get 13 s5) by lia. rewrite Hfr5. cbn [app]. f_equal.
    rewrite <- Hfr3. replace (get 13 s5 + 4 * Z.of_nat 1) with (get 13 s3) by lia. apply load_ext. intros x Hx. apply Hm5. lia.
  - intros b r Hb. assert (r <> 13 \/ b <> reg_bank IRQ_MODE 13) as Hor by (destruct (decide (r = 13)) as [->|]; auto).
    rewrite Hr5 by (unfold s4; by rewrite mode_set, Hmode3). unfold s4. rewrite regs_set, Hmode3.
    rewrite (proj2 (andb_false_iff _ _)).
    + rewrite Hr3, Hr2 by (by rewrite Hm2). destruct (Z.eqb_spec b IRQ_MODE) as [->|]; [|done].
      destruct (Z.eqb_spec r 14) as [->|]; done.
    + destruct (Z.eqb_spec r 0) as [->|]; [left|by right]. by apply Z.eqb_neq.
  - intros b. rewrite Hss5. unfold s4. cbn [set a_spsr]. by rewrite Hss3, Hss2.
Qed.

Lemma irq_saved_call s pc sp s5 s6 : irq_saved s pc sp s5 -> c_call 60 s5 s6 -> undisturbed s5 s6 -> irq_saved s pc sp s6.
Proof.
  intros [Hm Hsp Hf Hr Hss] Hc Hu. destruct (call_frame 60 s5 s6 (a_cpsr s :: values IRQ_MODE r0_r12 s ++ [pc])) as [Hsp6 Hf6];
    [done|cbn; lia|by rewrite Hsp|]. rewrite Hsp6, Hsp in Hf6. split; [|lia|done| |].
  - by rewrite (c_call_mode 60 s5).
  - intros b r Hb. rewrite (un_regs _ _ Hu) by (by rewrite Hm). by apply Hr.
  - intros b. by rewrite (un_spsr _ _ Hu).
Qed.
Lemma irq_restores s pc sp s6 :
  irq_saved s pc sp s6 -> 60 <= sp < 2 ^ 32 - 4 -> sp = a_regs s IRQ_MODE 13 -> fits 32 (a_cpsr s) ->
  leaves [Pop [0]; MsrSpsr 0; PopPc r0_r12] s6 (fun s' pc' => pc' = pc /\ resumed IRQ_MODE s s').
Proof.
  intros [Hm Hsp Hf Hr Hss] Hb Hsp0 Hcpsr. change 15%nat with (1 + (13 + 1))%nat in Hf. rewrite load_app, (load_app _ 13) in Hf.
  replace (sp - 60 + 4 * Z.of_nat 1) with (sp - 56) in Hf by lia.
  apply (app_inj_1 _ [a_cpsr s]) in Hf as [Hf0 Hf]; [|done]. apply app_inj_1 in Hf as [Hf1 Hf2]; [|done].
  eapply leaves_step; [reflexivity|]. unfold pop. rewrite Hsp. change (length [0]) with 1%nat. rewrite Hf0.
  replace (sp - 60 + 4 * Z.of_nat 1) with (sp - 56) by lia. rewrite wrap_id by (unfold fits; lia). cbn [set_list].
  set (s7 := set 0 _ _). assert (a_mode s7 = IRQ_MODE) as Hm7 by done.
  eapply leaves_step; [reflexivity|]. unfold s7 at 3. rewrite get_set. unfold own_spsr. rewrite Hm7.
  change (a_spsr s7) with (a_spsr s6). rewrite Hss. cbn [Z.eqb IRQ_MODE Pos.eqb]. rewrite msr_same by done.
  set (s8 := set_spsr_of _ _ s7). assert (a_mode s8 = IRQ_MODE) as Hm8 by done.
  assert (get 13 s8 = sp - 56) as Hsp8 by (unfold s8; change (get 13 (set_spsr_of IRQ_MODE (a_cpsr s) s7)) with (get 13 s7);
    unfold s7; by rewrite get_set_ne, get_set).
  eapply leaves_out; [reflexivity|]. rewrite Hsp8. change (length r0_r12) with 13%nat. change (a_mem s8) with (a_mem s6).
  split; [by injection Hf2|]. rewrite Hf1.
  replace (wrap 32 _) with sp by (rewrite wrap_id by (unfold fits; lia); lia). split; [|split].
  - cbn [set_cpsr a_cpsr]. unfold own_spsr. by rewrite Hm8.
  - intros b r Hr14 Hbr. change (a_regs (set_cpsr ?x ?y)) with (a_regs y). unfold values. rewrite regs_set_list, mode_set, Hm8.
    destruct (decide (r ∈ r0_r12)) as [Hin|Hout].
    + rewrite bool_decide_true, andb_true_r by done. destruct (Z.eqb_spec b (reg_bank IRQ_MODE r)) as [->|Hne]; [done|].
      assert (r <> 13) as Hr13 by (intros ->; revert Hin; decide_now).
      rewrite regs_set, (proj2 (Z.eqb_neq r 13)), andb_false_r by done. change (a_regs s8) with (a_regs s7). unfold s7.
      rewrite !regs_set, (proj2 (Z.eqb_neq r 13)), andb_false_r by done. rewrite mode_set, Hm.
      destruct (Z.eqb_spec r 0) as [->|]; [|rewrite andb_false_r; by apply Hr].
      rewrite (proj2 (Z.eqb_neq b _)) by done. by apply Hr.
    + rewrite bool_decide_false, andb_false_r by done.
      assert (r = 13 \/ r = 14) as [-> | ->].
      { destruct (decide (r <= 12)); [|lia]. exfalso. apply Hout. unfold r0_r12. rewrite !elem_of_cons. lia. }
      * rewrite regs_set, Hm8, andb_true_r. change (reg_bank IRQ_MODE 13) with IRQ_MODE.
        destruct (Z.eqb_spec b IRQ_MODE) as [->|Hne]; [done|]. change (a_regs s8) with (a_regs s7). unfold s7.
        rewrite !regs_set, mode_set, Hm, andb_false_r. change (reg_bank IRQ_MODE 13) with IRQ_MODE.
        rewrite (proj2 (Z.eqb_neq b IRQ_MODE)) by done. by apply Hr.
      * rewrite regs_set, andb_false_r. change (a_regs s8) with (a_regs s7). unfold s7.
        rewrite !regs_set, !andb_false_r. apply Hr. change (reg_bank IRQ_MODE 14) with IRQ_MODE. destruct Hbr; done.
  - intros b Hne. change (a_spsr (set_cpsr ?x ?y)) with (a_spsr y). rewrite spsr_set_list. cbn [set a_spsr s8 set_spsr_of s7].
    unfold upd. rewrite (proj2 (Z.eqb_neq b IRQ_MODE)) by done. rewrite Hss. by rewrite (proj2 (Z.eqb_neq b IRQ_MODE)).
Qed.

Lemma irq_leaves target s pc :
  let sp := a_regs s IRQ_MODE 13 in
  fits 32 (a_cpsr s) -> fits 32 pc -> 60 <= sp < 2 ^ 32 - 4 -> rust_function IRQ_MODE (sp - 60) 60 target ->
  leaves (irq_trampoline target) (take_exception IRQ_MODE (wrap 32 (pc + 4)) s)
    (fun s' pc' => pc' = pc /\ resumed IRQ_MODE s s').
Proof.
  intros sp Hcpsr Hpc Hsp Hf. set (s1 := take_exception _ _ s).
  assert (a_mode s1 = IRQ_MODE) as Hm1 by apply mode_taken.
  assert (forall b r, a_regs s1 b r = if (b =? IRQ_MODE) && (r =? 14) then wrap 32 (pc + 4) else a_regs s b r) as Hr1
    by (intros; by apply regs_taken).
  assert (forall b, a_spsr s1 b = if b =? IRQ_MODE then a_cpsr s else a_spsr s b) as Hss1 by apply spsr_taken.
  clearbody s1. eapply leaves_step; [reflexivity|]. set (s2 := set 14 _ s1).
  assert (forall b r, a_regs s2 b r = if (b =? IRQ_MODE) && (r =? 14) then pc else a_regs s b r) as Hr2.
  { intros b r. unfold s2. rewrite regs_set, Hm1. change (reg_bank IRQ_MODE 14) with IRQ_MODE.
    destruct ((b =? IRQ_MODE) && (r =? 14)) eqn:E; [|by rewrite Hr1, E].
    unfold get. rewrite Hm1, Hr1. change (reg_bank IRQ_MODE 14) with IRQ_MODE. cbn [Z.eqb andb IRQ_MODE Pos.eqb].
    unfold wrap. rewrite Zminus_mod_idemp_l. replace (pc + 4 - 4) with pc by lia. by apply Z.mod_small. }
  apply (irq_saves s s2 pc sp); [lia|done| |done|done|].
  { unfold get. change (a_mode s2) with (a_mode s1). rewrite Hm1, Hr2. done. }
  intros s5 Hs5. destruct (Hf s5) as [Hc Hu]; [apply Hs5|apply Hs5|]. eapply leaves_step; [reflexivity|].
  apply (irq_restores s pc sp); [|done|done|done]. by apply (irq_saved_call s pc sp s5).
Qed.

(** *** A frame around a call *)

(** The registers [rs] of [s] are in a frame below its stack pointer, and the [n] bytes
    above it are as they were. *)
Record frame_saved (rs : list Z) (n : Z) (s s' : arm) : Prop := {
  fs_cpsr : a_cpsr s' = a_cpsr s;
  fs_spsr : forall b, a_spsr s' b = a_spsr s b;
  fs_sp : get 13 s' = get 13 s - 4 * Z.of_nat (length rs);
  fs_frame : load (get 13 s') (length rs) (a_mem s') = map (fun r => get r s) rs;
  fs_regs : forall b r, b <> reg_bank (a_mode s) r -> a_regs s' b r = a_regs s b r;
  fs_above : forall x, get 13 s <= x < get 13 s + n -> a_mem s' x = a_mem s x;
}.
Record frame_restored (rs : list Z) (n : Z) (s s' : arm) : Prop := {
  fr_cpsr : a_cpsr s' = a_cpsr s;
  fr_spsr : forall b, a_spsr s' b = a_spsr s b;
  fr_get : forall r, r ∈ 13 :: rs -> get r s' = get r s;
  fr_regs : forall b r, b <> reg_bank (a_mode s) r -> a_regs s' b r = a_regs s b r;
  fr_above : forall x, get 13 s <= x < get 13 s + n -> a_mem s' x = a_mem s x;
}.
Lemma frame_push rs n s :
  13 ∉ rs -> 4 * Z.of_nat (length rs) <= get 13 s < 2 ^ 32 -> frame_saved rs n s (push stored_sp rs s).
Proof.
  intros Hrs Hsp. destruct (push_ok rs s Hsp) as [Hc Hss Hsp' Hr Hf Hm]. rewrite length_map in Hsp', Hf.
  rewrite (map_pushed rs s Hrs) in Hf. split; [exact Hc|intros b; by rewrite Hss|exact Hsp'|exact Hf| |].
  - intros b r Hb. apply Hr. destruct (Z.eq_dec r 13) as [->|Hne]; [by right|by left].
  - intros x Hx. apply Hm. left. lia.
Qed.
Lemma frame_set rs n s s' r v : frame_saved rs n s s' -> r <> 13 -> frame_saved rs n s (set r v s').
Proof.
  intros [Hc Hss Hsp Hf Hr Ha] Hne. split; try done.
  - rewrite get_set_ne by done. exact Hsp.
  - rewrite get_set_ne by done. exact Hf.
  - intros b x Hb. rewrite regs_set, (mode_eq s s') by done. destruct (Z.eqb_spec x r) as [->|]; [|rewrite andb_false_r; by apply Hr].
    rewrite (proj2 (Z.eqb_neq b _)) by done. by apply Hr.
Qed.
Lemma frame_call rs n k s s' s'' :
  frame_saved rs n s s' -> c_call k s' s'' -> undisturbed s' s'' -> n + 4 * Z.of_nat (length rs) <= k -> 0 <= n -> frame_saved rs n s s''.
Proof.
  intros [Hc Hss Hsp Hf Hr Ha] Hcall Hun Hk Hn.
  destruct (call_frame k s' s'' (map (fun r => get r s) rs)) as [Hsp' Hf']; [done|rewrite length_map; lia|by rewrite length_map|].
  rewrite length_map in Hf'. split; [by rewrite (cc_cpsr _ _ _ Hcall)|intros b; by rewrite (un_spsr _ _ Hun)|lia|done| |].
  - intros b r Hb. rewrite (un_regs _ _ Hun) by (by rewrite (mode_eq s s')). by apply Hr.
  - intros x Hx. rewrite (cc_frame _ _ _ Hcall) by lia. by apply Ha.
Qed.
Lemma frame_pop rs n s s' : frame_saved rs n s s' -> 0 <= get 13 s < 2 ^ 32 -> frame_restored rs n s (pop rs s').
Proof.
  intros [Hc Hss Hsp Hf Hr Ha] Hb. unfold pop. rewrite Hf.
  replace (wrap 32 _) with (get 13 s) by (rewrite wrap_id by (unfold fits; lia); lia). split.
  - rewrite cpsr_set_list. exact Hc.
  - intros b. rewrite spsr_set_list. apply Hss.
  - intros r Hin. rewrite get_set_list. case_bool_decide as Hd; [done|]. apply elem_of_cons in Hin as [->|Hin]; [|done]. by rewrite get_set.
  - intros b r Hne. rewrite regs_set_list, mode_set, (mode_eq s s'), (proj2 (Z.eqb_neq b _)) by done.
    rewrite regs_set, (mode_eq s s') by done. destruct (Z.eqb_spec r 13) as [->|]; [|rewrite andb_false_r; by apply Hr].
    rewrite (proj2 (Z.eqb_neq b _)) by done. by apply Hr.
  - intros x Hx. rewrite mem_set_list. apply Ha. lia.
Qed.

(** [s'] is [s] after the entry into [mode], up to the memory. *)
Record taken (mode lr : Z) (s s' : arm) : Prop := {
  tk_mode : a_mode s' = mode;
  tk_regs : forall b r, a_regs s' b r = if (b =? mode) && (r =? 14) then lr else a_regs s b r;
  tk_spsr : forall b, a_spsr s' b = if b =? mode then a_cpsr s else a_spsr s b;
}.
(** The modes of the exceptions. *)
Definition exception_mode (mode : Z) : Prop := mode ∈ [FIQ_MODE; IRQ_MODE; SUPERVISOR_MODE; ABORT_MODE; UNDEFINED_MODE].
Lemma exception_mode_bits mode : exception_mode mode -> Z.land mode 0x1f = mode /\ mode <> SYSTEM_MODE /\ reg_bank mode 13 = mode /\ reg_bank mode 14 = mode.
Proof. unfold exception_mode. rewrite !elem_of_cons, elem_of_nil. intros [->|[->|[->|[->|[->|[]]]]]]; done. Qed.
Lemma take_taken mode lr s : exception_mode mode -> taken mode lr s (take_exception mode lr s).
Proof.
  intros (Hb & Hs & _)%exception_mode_bits. split; [by rewrite mode_taken|intros b r; by apply regs_taken|by apply spsr_taken].
Qed.
Lemma taken_sp mode lr s s2 : exception_mode mode -> taken mode lr s s2 -> get 13 s2 = a_regs s mode 13.
Proof. intros (_ & _ & Hb & _)%exception_mode_bits [Hm Hr _]. unfold get. by rewrite Hm, Hb, Hr, andb_false_r. Qed.
Lemma taken_lr mode lr s s2 : exception_mode mode -> taken mode lr s s2 -> get 14 s2 = lr.
Proof. intros (_ & _ & _ & Hb)%exception_mode_bits [Hm Hr _]. unfold get. by rewrite Hm, Hb, Hr, Z.eqb_refl. Qed.
Lemma taken_spsr mode lr s s2 : taken mode lr s s2 -> own_spsr s2 = a_cpsr s.
Proof. intros [Hm _ Hss]. unfold own_spsr. by rewrite Hm, Hss, Z.eqb_refl. Qed.

Lemma restored_resumed mode lr n s s2 s' :
  exception_mode mode -> taken mode lr s s2 -> frame_restored (r0_r12 ++ [14]) n s2 s' -> resumed mode s (set_cpsr (a_cpsr s) s').
Proof.
  intros Hmode Ht Hf. pose proof (exception_mode_bits mode Hmode) as (_ & _ & Hb13 & Hb14). destruct Ht as [Hm Hr Hss].
  split; [done|]. split.
  - intros b r Hr14 Hbr. change (a_regs (set_cpsr ?x ?y)) with (a_regs y).
    assert (a_regs s' b r = a_regs s2 b r) as ->.
    { destruct (decide (b = reg_bank mode r)) as [->|Hne]; [|apply Hf; by rewrite Hm].
      assert (r ∈ 13 :: r0_r12 ++ [14]) as Hin by (cbn [app r0_r12]; rewrite !elem_of_cons; lia).
      apply (fr_get _ _ _ _ Hf) in Hin. unfold get in Hin. by rewrite (mode_eq s2), Hm in Hin by apply Hf. }
    rewrite Hr. destruct (Z.eqb_spec b mode) as [->|]; [|done]. destruct (Z.eqb_spec r 14) as [->|]; [|done]. by destruct Hbr.
  - intros b Hne. change (a_spsr (set_cpsr ?x ?y)) with (a_spsr y). rewrite (fr_spsr _ _ _ _ Hf), Hss. by rewrite (proj2 (Z.eqb_neq b mode)).
Qed.

(** A call and [pop {r0-r12, lr}] behind [push {r0-r12, lr}]. *)
Lemma call_framed mode n s s5 target code Q :
  let rs := r0_r12 ++ [14] in
  a_mode s = mode -> 56 <= get 13 s < 2 ^ 32 -> 0 <= n -> rust_function mode (get 13 s - 56) (56 + n) target ->
  frame_saved rs n s s5 -> (forall s', frame_restored rs n s s' -> leaves code s' Q) -> leaves (Bl target :: Pop rs :: code) s5 Q.
Proof.
  intros rs Hm Hsp Hn Hf Hs HQ. eapply leaves_step; [reflexivity|]. eapply leaves_step; [reflexivity|].
  apply HQ. apply frame_pop; [|lia]. destruct (Hf s5) as [Hc Hu].
  { rewrite <- Hm. apply mode_eq, Hs. }
  { rewrite (fs_sp _ _ _ _ Hs). cbn. lia. }
  apply (frame_call rs n (56 + n) s s5); [done|done|done|cbn; lia|done].
Qed.
Lemma push_r12_lr n s : 56 <= get 13 s < 2 ^ 32 -> frame_saved (r0_r12 ++ [14]) n s (push stored_sp (r0_r12 ++ [14]) s).
Proof. intros Hsp. apply frame_push; [decide_now|cbn; lia]. Qed.

Lemma dabt_leaves target s pc :
  let sp := a_regs s ABORT_MODE 13 in
  fits 32 (pc + 4) -> 56 <= sp < 2 ^ 32 -> rust_function ABORT_MODE (sp - 56) 56 target ->
  leaves (dabt_trampoline target) (take_exception ABORT_MODE (wrap 32 (pc + 8)) s)
    (fun s' pc' => pc' = pc + 4 /\ resumed ABORT_MODE s s').
Proof.
  intros sp Hpc Hsp Hf. assert (exception_mode ABORT_MODE) as Hmode by decide_now.
  pose proof (take_taken ABORT_MODE (wrap 32 (pc + 8)) s Hmode) as Ht. set (s1 := take_exception _ _ s) in *. clearbody s1.
  pose proof (taken_sp _ _ _ _ Hmode Ht) as Hsp1. eapply leaves_step; [reflexivity|]. eapply leaves_step; [reflexivity|].
  apply (call_framed ABORT_MODE 0 s1); [apply Ht|by rewrite Hsp1|done|by rewrite Hsp1|apply frame_set; [apply push_r12_lr; by rewrite Hsp1|done]|].
  intros s' Hs'.
  eapply leaves_out; [reflexivity|]. rewrite (fr_get _ _ _ _ Hs') by decide_now. rewrite (taken_lr _ _ _ _ Hmode Ht). split.
  - unfold wrap. rewrite Zminus_mod_idemp_l. replace (pc + 8 - 4) with (pc + 4) by lia. by apply Z.mod_small.
  - assert (own_spsr s' = a_cpsr s) as ->.
    { rewrite <- (taken_spsr _ _ _ _ Ht). unfold own_spsr. rewrite (mode_eq s1) by apply Hs'. apply Hs'. }
    by apply (restored_resumed ABORT_MODE (wrap 32 (pc + 8)) 0 s s1).
Qed.

(** [srsia] with the mode of the exception: the return address and the status
    register are above the stack pointer, where [rfeia] finds them. *)
Lemma srsia_taken mode lr s s1 :
  exception_mode mode -> taken mode lr s s1 ->
  exists s2, step stored_sp (Srsia mode) s1 = inl s2 /\ taken mode lr s s2 /\ a_mem s2 (get 13 s2) = lr /\
    a_mem s2 (get 13 s2 + 4) = a_cpsr s /\ a_mem s2 = store (get 13 s2) [lr; a_cpsr s] (a_mem s1).
Proof.
  intros Hmode Ht. pose proof (exception_mode_bits mode Hmode) as (_ & _ & Hb & _). eexists. split; [reflexivity|].
  rewrite (taken_lr _ _ _ _ Hmode Ht), (taken_spsr _ _ _ _ Ht), Hb. set (s2 := set_mem _ s1).
  assert (taken mode lr s s2) as Ht2 by (by destruct Ht).
  assert (get 13 s2 = a_regs s1 mode 13) as Hsp by (unfold get; by rewrite (tk_mode _ _ _ _ Ht2), Hb).
  split; [done|]. rewrite Hsp. cbn [s2 set_mem a_mem store]. unfold upd. rewrite !Z.eqb_refl.
  by rewrite (proj2 (Z.eqb_neq _ _)) by lia.
Qed.
Lemma rfeia_resumes mode lr s s2 s' :
  exception_mode mode -> taken mode lr s s2 -> frame_restored (r0_r12 ++ [14]) 8 s2 s' ->
  a_mem s2 (get 13 s2) = lr -> a_mem s2 (get 13 s2 + 4) = a_cpsr s ->
  leaves [Rfeia 13] s' (fun s' pc' => pc' = lr /\ resumed mode s s').
Proof.
  intros Hmode Ht Hs' Hlr Hcpsr. eapply leaves_out; [reflexivity|]. rewrite (fr_get _ _ _ _ Hs') by by left.
  rewrite !(fr_above _ _ _ _ Hs'), Hlr, Hcpsr by lia. split; [done|]. by apply (restored_resumed mode lr 8 s s2).
Qed.

Lemma undef_leaves target s pc :
  let sp := a_regs s UNDEFINED_MODE 13 in
  56 <= sp < 2 ^ 32 -> rust_function UNDEFINED_MODE (sp - 56) 64 target ->
  leaves (undef_trampoline target) (take_exception UNDEFINED_MODE (pc + 4) s)
    (fun s' pc' => pc' = pc + 4 /\ resumed UNDEFINED_MODE s s').
Proof.
  intros sp Hsp Hf. assert (exception_mode UNDEFINED_MODE) as Hmode by decide_now.
  pose proof (take_taken UNDEFINED_MODE (pc + 4) s Hmode) as Ht. set (s1 := take_exception _ _ s) in *. clearbody s1.
  destruct (srsia_taken _ _ _ _ Hmode Ht) as (s2 & Hs2 & Ht2 & Hlr & Hcpsr & _). eapply leaves_step; [exact Hs2|].
  pose proof (taken_sp _ _ _ _ Hmode Ht2) as Hsp2. eapply leaves_step; [reflexivity|]. eapply leaves_step; [reflexivity|].
  apply (call_framed UNDEFINED_MODE 8 s2); [apply Ht2|by rewrite Hsp2|done|by rewrite Hsp2|apply frame_set; [apply push_r12_lr; by rewrite Hsp2|done]|].
  intros s' Hs'. by apply (rfeia_resumes _ _ _ s2).
Qed.
Lemma fiq_leaves target s pc :
  let sp := a_regs s FIQ_MODE 13 in
  56 <= sp < 2 ^ 32 -> rust_function FIQ_MODE (sp - 56) 64 target ->
  leaves (fiq_trampoline target) (take_exception FIQ_MODE (pc + 4) s)
    (fun s' pc' => pc' = pc + 4 /\ resumed FIQ_MODE s s').
Proof.
  intros sp Hsp Hf. assert (exception_mode FIQ_MODE) as Hmode by decide_now.
  pose proof (take_taken FIQ_MODE (pc + 4) s Hmode) as Ht. set (s1 := take_exception _ _ s) in *. clearbody s1.
  destruct (srsia_taken _ _ _ _ Hmode Ht) as (s2 & Hs2 & Ht2 & Hlr & Hcpsr & _). eapply leaves_step; [exact Hs2|].
  pose proof (taken_sp _ _ _ _ Hmode Ht2) as Hsp2. eapply leaves_step; [reflexivity|].
  apply (call_framed FIQ_MODE 8 s2); [apply Ht2|by rewrite Hsp2|done|by rewrite Hsp2|apply push_r12_lr; by rewrite Hsp2|].
  intros s' Hs'. by apply (rfeia_resumes _ _ _ s2).
Qed.

(** *** The prefetch abort: the handler may change the frame *)

(** What the handler finds at its call, and the program outside. *)
Definition at_frame (s : arm) (c : cpu_frame) : Prop :=
  frame c = load (get 13 s) 13 (a_mem s) /\ usr_13_14 c = [a_regs s USER_MODE 13; a_regs s USER_MODE 14] /\ cpu_spsr c = own_spsr s.
Definition user_program (s : arm) (c : cpu_frame) : Prop :=
  frame c = values USER_MODE r0_r12 s /\ usr_13_14 c = [a_regs s USER_MODE 13; a_regs s USER_MODE 14] /\ cpu_spsr c = a_cpsr s.

Lemma pabt_calls s pc c :
  let sp := a_regs s ABORT_MODE 13 in
  fits 32 pc -> 52 <= sp < 2 ^ 32 -> user_program s c ->
  exists s3, a_mode s3 = ABORT_MODE /\ get 13 s3 = sp - 52 /\ get 0 s3 = pc /\ get 1 s3 = sp - 52 /\ at_frame s3 c /\
    forall code Q, leaves code s3 Q ->
      leaves (Push r0_r12 :: Sub 0 14 4 :: Mov 1 13 :: code) (take_exception ABORT_MODE (wrap 32 (pc + 4)) s) Q.
Proof.
  intros sp Hpc Hsp (Hfr & Husr & Hspsr). assert (exception_mode ABORT_MODE) as Hmode by decide_now.
  pose proof (take_taken ABORT_MODE (wrap 32 (pc + 4)) s Hmode) as Ht. set (s1 := take_exception _ _ s) in *. clearbody s1.
  pose proof (taken_sp _ _ _ _ Hmode Ht) as Hsp1. assert (13 ∉ r0_r12) as Hrs by decide_now.
  pose proof (push_ok r0_r12 s1 ltac:(rewrite Hsp1; cbn; lia)) as Hp. rewrite (map_pushed _ _ Hrs) in Hp.
  set (s2 := push stored_sp r0_r12 s1) in *.
  assert (get 14 s2 = wrap 32 (pc + 4)) as Hlr by (rewrite (has_pushed_get _ _ _ _ Hp) by done; exact (taken_lr _ _ _ _ Hmode Ht)).
  assert (get 13 s2 = sp - 52) as Hsp2 by (rewrite (hp_sp _ _ _ Hp), Hsp1; cbn; lia).
  assert (a_mode s2 = ABORT_MODE) as Hm2 by (rewrite (mode_eq s1) by apply Hp; apply Ht).
  exists (set 1 (sp - 52) (set 0 pc s2)). rewrite get_set, !get_set_ne, get_set by done. split; [done|]. do 3 (split; [done|]). split.
  - unfold at_frame. rewrite !get_set_ne by done. split; [|split].
    + rewrite Hfr. symmetry. change (a_mem (set 1 _ _)) with (a_mem s2).
      pose proof (hp_frame _ _ _ Hp) as Hf. rewrite length_map in Hf. change (length r0_r12) with 13%nat in Hf. rewrite Hf.
      rewrite (values_get ABORT_MODE) by apply Ht. cbn [values map r0_r12]. by rewrite !(tk_regs _ _ _ _ Ht).
    + rewrite !regs_set. rewrite !andb_false_r. rewrite !(hp_regs _ _ _ Hp) by (right; by rewrite (tk_mode _ _ _ _ Ht)).
      by rewrite !(tk_regs _ _ _ _ Ht).
    + rewrite Hspsr, <- (taken_spsr _ _ _ _ Ht). unfold own_spsr. rewrite !mode_set, Hm2, (tk_mode _ _ _ _ Ht).
      change (a_spsr (set 1 _ _)) with (a_spsr s2). by rewrite (hp_spsr _ _ _ Hp).
  - intros code Q HQ. eapply leaves_step; [reflexivity|]. eapply leaves_step; [reflexivity|]. fold s2.
    replace (wrap 32 (get 14 s2 - 4)) with pc; [|rewrite Hlr; unfold wrap; rewrite Zminus_mod_idemp_l; replace (pc + 4 - 4) with pc by lia; by rewrite Z.mod_small].
    eapply leaves_step; [reflexivity|]. by rewrite get_set_ne, Hsp2.
Qed.
Lemma load_length a n m : length (load a n m) = n.
Proof. revert a. induction n as [|n IH]; intros a; [done|]. cbn. by rewrite IH. Qed.
Lemma frame_by_number l : length l = 13%nat -> l = map (fun r => nth (Z.to_nat r) l 0) r0_r12.
Proof. intros Hl. do 14 (destruct l as [|? l]; try done). Qed.
Lemma pabt_returns s4 sp c ret :
  a_mode s4 = ABORT_MODE -> get 13 s4 = sp - 52 -> 52 <= sp < 2 ^ 32 -> at_frame s4 c -> get 0 s4 = ret -> fits 32 ret ->
  leaves [Add 14 0 4; Pop r0_r12; SubsPc 14 4] s4 (fun s' pc' => pc' = ret /\ user_program s' c /\ a_regs s' ABORT_MODE 13 = sp).
Proof.
  intros Hm Hsp Hb (Hfr & Husr & Hspsr) Hret Hfits. eapply leaves_step; [reflexivity|]. rewrite Hret. set (s5 := set 14 _ s4).
  assert (a_mode s5 = ABORT_MODE) as Hm5 by done. assert (get 13 s5 = sp - 52) as Hsp5 by (unfold s5; by rewrite get_set_ne).
  eapply leaves_step; [reflexivity|]. unfold pop. rewrite Hsp5. change (length r0_r12) with 13%nat.
  replace (wrap 32 (sp - 52 + _)) with sp by (rewrite wrap_id by (unfold fits; lia); lia).
  change (a_mem s5) with (a_mem s4). rewrite <- Hsp, <- Hfr.
  assert (length (frame c) = 13%nat) as Hlen by (by rewrite Hfr, load_length).
  set (f := fun r => nth (Z.to_nat r) (frame c) 0). assert (frame c = map f r0_r12) as Hmap by (by apply frame_by_number).
  rewrite Hmap. set (s6 := set 13 sp s5). assert (a_mode s6 = ABORT_MODE) as Hm6 by done. eapply leaves_out; [reflexivity|].
  assert (get 14 (set_list r0_r12 (map f r0_r12) s6) = wrap 32 (ret + 4)) as ->.
  { rewrite get_set_list, bool_decide_false by decide_now. unfold s6. rewrite get_set_ne by done. unfold s5. by rewrite get_set. }
  assert (forall b r, r ∉ r0_r12 -> a_regs (set_list r0_r12 (map f r0_r12) s6) b r = a_regs s6 b r) as Hout.
  { intros b r Hr. by rewrite regs_set_list, bool_decide_false, andb_false_r. }
  split; [|split; [split; [|split]|]].
  - unfold wrap. rewrite Zminus_mod_idemp_l. replace (ret + 4 - 4) with ret by lia. by apply Z.mod_small.
  - rewrite Hmap. unfold values. apply map_ext_in. intros r Hr%list_elem_of_In. change (a_regs (set_cpsr ?x ?y)) with (a_regs y).
    rewrite regs_set_list, Hm6, bool_decide_true, andb_true_r by done.
    assert (reg_bank ABORT_MODE r = reg_bank USER_MODE r) as ->; [|by rewrite Z.eqb_refl].
    unfold r0_r12 in Hr. rewrite !elem_of_cons, elem_of_nil in Hr. destruct_or! Hr; by subst.
  - change (a_regs (set_cpsr ?x ?y)) with (a_regs y). rewrite !Hout by decide_now. unfold s6, s5.
    by rewrite !regs_set, mode_set, Hm.
  - rewrite Hspsr. cbn [set_cpsr a_cpsr]. by rewrite own_spsr_set_list.
  - change (a_regs (set_cpsr ?x ?y)) with (a_regs y). rewrite !Hout by decide_now. unfold s6.
    by rewrite regs_set, Hm5.
Qed.

Lemma svc_outside b r r0 :
  r0 ∈ [3; 13; 14] -> b <> reg_bank SUPERVISOR_MODE r \/ r ∉ [3; 13; 14] -> r <> r0 \/ b <> reg_bank SUPERVISOR_MODE r0.
Proof. intros Hin [Hb|Hr]; [|left; by intros ->]. destruct (decide (r = r0)) as [->|]; auto. Qed.

(** *** The system call *)

(** The state in which the trampoline calls, [r0] to [r3] of the program in [s]
    being on the stack and r3 the number of the call. *)
Record svc_saved (s : arm) (pc sp : Z) (s' : arm) : Prop := {
  ss_mode : a_mode s' = SUPERVISOR_MODE;
  ss_sp : get 13 s' = sp - 24;
  ss_arg : get 0 s' = a_regs s USER_MODE 0;
  ss_imm : get 3 s' = Z.land (a_mem s pc) 0xffffff;
  ss_low : load (sp - 24) 3 (a_mem s') = [a_regs s USER_MODE 3; stored_sp (sp - 12); pc + 4];
  ss_frame : load (sp - 12) 3 (a_mem s') = values USER_MODE r0_r2 s;
  ss_pc : a_mem s' sp = pc + 4;
  ss_spsr : a_mem s' (sp + 4) = a_cpsr s;
  ss_above : forall x, sp + 8 <= x -> a_mem s' x = a_mem s x;
  ss_regs : forall b r, b <> reg_bank SUPERVISOR_MODE r \/ r ∉ [3; 13; 14] -> a_regs s' b r = a_regs s b r;
}.
Lemma svc_calls s pc code Q :
  let sp := a_regs s SUPERVISOR_MODE 13 in
  fits 32 pc -> fits 32 (pc + 4) -> 24 <= sp < 2 ^ 32 -> pc < sp - 24 \/ sp + 8 <= pc ->
  (forall s7, svc_saved s pc sp s7 -> leaves code s7 Q) ->
  leaves (Srsia SUPERVISOR_MODE :: Push r0_r2 :: Push [3; 13; 14] :: Ldr 3 14 (-4) :: Mvn 14 0xff000000 :: And 3 3 14 :: code)
    (take_exception SUPERVISOR_MODE (pc + 4) s) Q.
Proof.
  intros sp Hpc Hpc4 Hsp Hout HQ. assert (exception_mode SUPERVISOR_MODE) as Hmode by decide_now.
  pose proof (take_taken SUPERVISOR_MODE (pc + 4) s Hmode) as Ht. pose proof (mem_taken SUPERVISOR_MODE (pc + 4) s) as Hmem1.
  set (s1 := take_exception _ _ s) in *. clearbody s1.
  destruct (srsia_taken _ _ _ _ Hmode Ht) as (s2 & Hs2 & Ht2 & Hlr & Hcpsr & Hmem2). eapply leaves_step; [exact Hs2|].
  pose proof (taken_sp _ _ _ _ Hmode Ht2) as Hsp2. fold sp in Hsp2. rewrite Hsp2 in *. clear Ht Hs2. rewrite Hmem1 in Hmem2.
  pose proof (taken_lr _ _ _ _ Hmode Ht2) as Hlr2.
  pose proof (push_ok r0_r2 s2 ltac:(rewrite Hsp2; cbn; lia)) as Hp3. rewrite (map_pushed r0_r2) in Hp3 by decide_now.
  rewrite (values_get SUPERVISOR_MODE) in Hp3 by apply Ht2. eapply leaves_step; [reflexivity|]. set (s3 := push stored_sp r0_r2 s2) in *. clearbody s3.
  assert (get 13 s3 = sp - 12) as Hsp3 by (rewrite (hp_sp _ _ _ Hp3), Hsp2; cbn; lia).
  assert (get 14 s3 = pc + 4) as Hlr3 by (by rewrite (has_pushed_get _ _ _ _ Hp3)).
  pose proof (push_ok [3; 13; 14] s3 ltac:(rewrite Hsp3; cbn; lia)) as Hp4.
  change (map (pushed stored_sp s3) [3; 13; 14]) with [get 3 s3; stored_sp (get 13 s3); get 14 s3] in Hp4.
  eapply leaves_step; [reflexivity|]. set (s4 := push stored_sp [3; 13; 14] s3) in *. clearbody s4.
  assert (get 13 s4 = sp - 24) as Hsp4 by (rewrite (hp_sp _ _ _ Hp4), Hsp3; cbn; lia).
  assert (get 14 s4 = pc + 4) as Hlr4 by (by rewrite (has_pushed_get _ _ _ _ Hp4)).
  assert (a_mode s4 = SUPERVISOR_MODE) as Hm4.
  { rewrite (mode_eq s3), (mode_eq s2) by (apply Hp4 || apply Hp3). apply Ht2. }
  assert (forall x, x < sp - 24 \/ sp <= x -> a_mem s4 x = a_mem s2 x) as Hmem4.
  { intros x Hx. rewrite (hp_rest _ _ _ Hp4), (hp_rest _ _ _ Hp3) by lia. done. }
  do 3 (eapply leaves_step; [reflexivity|]). apply HQ. rewrite Hlr4.
  replace (wrap 32 (pc + 4 + -4)) with pc by (rewrite wrap_id by (unfold fits in *; lia); lia).
  assert (a_mem s4 pc = a_mem s pc) as -> by (rewrite Hmem4, Hmem2 by lia; apply store_other; cbn; lia).
  rewrite (get_set_ne 3 14), get_set, (get_set 14) by done. change (not32 0xff000000) with 0xffffff. clear HQ.
  assert (forall r, r ∈ [0; 1; 2; 3] -> get r s3 = a_regs s USER_MODE r) as Hlow.
  { intros r Hr. rewrite (has_pushed_get _ _ _ _ Hp3) by (intros ->; revert Hr; decide_now). unfold get.
    rewrite (tk_mode _ _ _ _ Ht2), (tk_regs _ _ _ _ Ht2). rewrite !elem_of_cons, elem_of_nil in Hr. by destruct_or! Hr; subst. }
  assert (a_mode s3 = SUPERVISOR_MODE) as Hm3 by (rewrite (mode_eq s2) by apply Hp3; apply Ht2).
  split.
  - exact Hm4.
  - by rewrite !get_set_ne.
  - rewrite !get_set_ne, (has_pushed_get _ _ _ _ Hp4) by done. apply Hlow. by left.
  - by rewrite get_set.
  - change (a_mem (set 3 _ _)) with (a_mem s4). rewrite <- Hsp4, <- Hsp3, <- Hlr3, <- (Hlow 3) by (by do 3 right; left).
    exact (hp_frame _ _ _ Hp4).
  - change (a_mem (set 3 _ _)) with (a_mem s4). rewrite <- Hsp3.
    rewrite (load_ext _ _ (a_mem s3)) by (intros x Hx; apply Hp4; lia).
    assert (values SUPERVISOR_MODE r0_r2 s2 = values USER_MODE r0_r2 s) as <-.
    { cbn [values map r0_r2]. by rewrite !(tk_regs _ _ _ _ Ht2). }
    exact (hp_frame _ _ _ Hp3).
  - change (a_mem (set 3 _ _)) with (a_mem s4). by rewrite Hmem4 by lia.
  - change (a_mem (set 3 _ _)) with (a_mem s4). by rewrite Hmem4 by lia.
  - intros x Hx. change (a_mem (set 3 _ _)) with (a_mem s4). rewrite Hmem4, Hmem2 by lia. apply store_other. cbn. lia.
  - intros b r Hbr. rewrite (regs_set_out 3), (regs_set_out 14), (regs_set_out 3) by (rewrite ?mode_set, Hm4; apply svc_outside; [decide_now|done]).
    rewrite (hp_regs _ _ _ Hp4), (hp_regs _ _ _ Hp3), (tk_regs _ _ _ _ Ht2) by (rewrite ?Hm3, ?(tk_mode _ _ _ _ Ht2); apply svc_outside; [decide_now|done]).
    destruct (Z.eqb_spec b SUPERVISOR_MODE) as [->|Hb]; [|done]. destruct (Z.eqb_spec r 14) as [->|]; [|done].
    exfalso. destruct Hbr as [Hbr|Hbr]; [done|]. apply Hbr. decide_now.
Qed.

(** [target] is the function [syscall], which changes the memory of the caller in
    one place only; [n] bytes above the stack pointer [sp] are followed. *)
Definition runs_syscall (sp n : Z) (target : arm -> arm) : Prop :=
  forall s, a_mode s = SUPERVISOR_MODE -> get 13 s = sp -> c_call n (syscall s) (target s) /\ undisturbed (syscall s) (target s).

(** After the call of [syscall]. *)
Record svc_called (s : arm) (pc sp psr n : Z) (s' : arm) : Prop := {
  sc_mode : a_mode s' = SUPERVISOR_MODE;
  sc_sp : get 13 s' = sp - 24;
  sc_r3 : a_mem s' (sp - 24) = a_regs s USER_MODE 3;
  sc_frame : load (sp - 12) 3 (a_mem s') = values USER_MODE r0_r2 s;
  sc_words : load sp 2 (a_mem s') = [pc + 4; psr];
  sc_above : forall x, sp + 8 <= x < sp - 24 + n -> a_mem s' x = a_mem s x;
  sc_saved : forall r, 4 <= r <= 11 -> a_regs s' USER_MODE r = a_regs s USER_MODE r;
  sc_regs : forall b r, b <> reg_bank SUPERVISOR_MODE r -> a_regs s' b r = a_regs s b r;
}.
Lemma syscall_called s pc sp n target s7 :
  24 <= sp < 2 ^ 32 -> 32 <= n -> Z.land (a_mem s pc) 0xffffff = SYS_ELEVATE -> stored_sp (sp - 12) = sp - 12 ->
  svc_saved s pc sp s7 -> runs_syscall (sp - 24) n target -> svc_called s pc sp (a_regs s USER_MODE 0) n (target s7).
Proof.
  intros Hsp Hn Himm Hstored [Hm7 Hsp7 Harg Hi Hlow Hfr Hpc Hspsr Habove Hregs] Hf.
  destruct (Hf s7 Hm7 Hsp7) as [[Hc8 Hsaved Hfr8] [Hun8 _]].
  set (m' := upd (a_mem s7) (sp + 4) (a_regs s USER_MODE 0)). cbn [load] in Hlow. injection Hlow as Hr3 Hsparg _. rewrite Hstored in Hsparg.
  assert (syscall s7 = set_mem m' s7) as Hsys.
  { unfold syscall. rewrite Hi, Himm, Z.eqb_refl, Harg, Hsp7, Hsparg. unfold m'. by replace (sp - 12 + 16) with (sp + 4) by lia. }
  rewrite Hsys in *. change (get 13 (set_mem m' s7)) with (get 13 s7) in *. rewrite Hsp7 in Hfr8. change (a_mem (set_mem m' s7)) with m' in Hfr8.
  change (a_mode (set_mem m' s7)) with (a_mode s7) in Hun8. rewrite Hm7 in Hun8.
  assert (a_mode (target s7) = SUPERVISOR_MODE) as Hm8 by (rewrite (mode_eq (set_mem m' s7)) by done; exact Hm7).
  assert (forall x, sp - 24 <= x < sp - 24 + n -> x <> sp + 4 -> a_mem (target s7) x = a_mem s7 x) as Hmem8.
  { intros x Hx Hne. rewrite Hfr8 by lia. unfold m', upd. by rewrite (proj2 (Z.eqb_neq x _)). }
  split; [done| | | | | | |].
  - rewrite Hsaved by (by right). exact Hsp7.
  - rewrite Hmem8 by lia. exact Hr3.
  - rewrite (load_ext _ _ (a_mem s7)); [exact Hfr|]. intros x Hx. apply Hmem8; lia.
  - cbn [load]. rewrite Hmem8, Hpc by lia. rewrite Hfr8 by lia. unfold m', upd. by rewrite Z.eqb_refl.
  - intros x Hx. rewrite Hmem8 by lia. apply Habove. lia.
  - intros r Hr. pose proof (Hsaved r ltac:(by left)) as Hg. unfold get in Hg. rewrite Hm8 in Hg.
    change (a_mode (set_mem m' s7)) with (a_mode s7) in Hg. rewrite Hm7 in Hg.
    assert (reg_bank SUPERVISOR_MODE r = USER_MODE) as Hb by (unfold reg_bank; destruct (Z.leb_spec r 7); [done|]; by rewrite (proj2 (Z.leb_le r 12)) by lia).
    rewrite Hb in Hg. rewrite Hg. apply Hregs. right. rewrite !elem_of_cons, elem_of_nil. lia.
  - intros b r Hb. rewrite Hun8 by done. apply Hregs. by left.
Qed.

(** What the program finds after a call of [SYS_ELEVATE] with the status [psr]. *)
Record elevated (s : arm) (pc sp psr n : Z) (s' : arm) : Prop := {
  el_cpsr : a_cpsr s' = psr;
  el_low : forall r, 0 <= r <= 11 -> a_regs s' USER_MODE r = a_regs s USER_MODE r;
  el_regs : forall b r, b <> reg_bank SUPERVISOR_MODE r -> a_regs s' b r = a_regs s b r;
  el_sp : a_regs s' SUPERVISOR_MODE 13 = sp;
  el_words : load sp 2 (a_mem s') = [pc + 4; psr];
  el_above : forall x, sp + 8 <= x < sp - 24 + n -> a_mem s' x = a_mem s x;
}.
Lemma svc_returns s pc sp psr n s8 :
  24 <= sp < 2 ^ 32 -> svc_called s pc sp psr n s8 ->
  leaves [Ldr 3 13 0; Add 13 13 12; Pop r0_r2; Rfeia 13] s8 (fun s' pc' => pc' = pc + 4 /\ elevated s pc sp psr n s').
Proof.
  intros Hsp [Hm8 Hsp8 Hr3 Hfr Hwords Habove Hsaved Hregs].
  eapply leaves_step; [reflexivity|]. rewrite Hsp8. replace (wrap 32 (sp - 24 + 0)) with (sp - 24) by (rewrite wrap_id by (unfold fits; lia); lia).
  rewrite Hr3. set (s9 := set 3 _ s8). eapply leaves_step; [reflexivity|]. assert (get 13 s9 = sp - 24) as -> by (unfold s9; by rewrite get_set_ne).
  replace (wrap 32 (sp - 24 + 12)) with (sp - 12) by (rewrite wrap_id by (unfold fits; lia); lia). set (s10 := set 13 _ s9).
  eapply leaves_step; [reflexivity|]. unfold pop. assert (get 13 s10 = sp - 12) as -> by (unfold s10; by rewrite get_set).
  change (length r0_r2) with 3%nat. replace (wrap 32 (sp - 12 + _)) with sp by (rewrite wrap_id by (unfold fits; lia); lia).
  change (a_mem s10) with (a_mem s8). rewrite Hfr. set (s11 := set 13 sp s10). assert (a_mode s11 = SUPERVISOR_MODE) as Hm11 by done. unfold values.
  set (f := fun r => a_regs s (reg_bank USER_MODE r) r). set (s12 := set_list _ _ s11). eapply leaves_out; [reflexivity|].
  assert (get 13 s12 = sp) as -> by (unfold s12; rewrite get_set_list, bool_decide_false by decide_now; unfold s11; by rewrite get_set).
  assert (a_mem s12 = a_mem s8) as -> by (unfold s12; by rewrite mem_set_list).
  pose proof Hwords as Hw. cbn [load] in Hw. injection Hw as -> ->. split; [done|].
  assert (forall b r, r ∉ [0; 1; 2; 3; 13] \/ b <> reg_bank SUPERVISOR_MODE r -> a_regs (set_cpsr psr s12) b r = a_regs s8 b r) as Hout.
  { intros b r Hor. change (a_regs (set_cpsr psr s12)) with (a_regs s12). unfold s12. rewrite regs_set_list, Hm11.
    assert ((b =? reg_bank SUPERVISOR_MODE r) && bool_decide (r ∈ r0_r2) = false) as ->.
    { destruct Hor as [Hr|Hb]; [|by rewrite (proj2 (Z.eqb_neq b _))]. rewrite bool_decide_false; [by rewrite andb_false_r|].
      intros Hin. apply Hr. unfold r0_r2 in Hin. rewrite !elem_of_cons, elem_of_nil in *. lia. }
    assert (forall r0, r0 ∈ [0; 1; 2; 3; 13] -> r <> r0 \/ b <> reg_bank SUPERVISOR_MODE r0) as Hne.
    { intros r0 Hr0. destruct (decide (r = r0)) as [->|]; [right|by left]. by destruct Hor. }
    unfold s11, s10, s9. rewrite !regs_set_out by (rewrite ?mode_set, Hm8; apply Hne; decide_now). done. }
  assert (a_mem (set_cpsr psr s12) = a_mem s8) as Hmem by (cbn [set_cpsr a_mem]; unfold s12; by rewrite mem_set_list).
  split; rewrite ?Hmem; [done| | | |done|done].
  - intros r Hr. destruct (decide (4 <= r)) as [Hr4|Hr4].
    { rewrite Hout; [apply Hsaved; lia|]. left. rewrite !elem_of_cons, elem_of_nil. lia. }
    change (a_regs (set_cpsr psr s12)) with (a_regs s12). unfold s12. rewrite regs_set_list, Hm11.
    assert (r = 0 \/ r = 1 \/ r = 2 \/ r = 3) as [->|[->|[->| ->]]] by lia; [reflexivity|reflexivity|reflexivity|].
    rewrite bool_decide_false, andb_false_r by decide_now. unfold s11, s10. rewrite !regs_set_out by (by left).
    unfold s9. by rewrite regs_set, Hm8.
  - intros b r Hb. rewrite Hout; [by apply Hregs|by right].
  - change (a_regs (set_cpsr psr s12)) with (a_regs s12). unfold s12. rewrite regs_set_list, Hm11, bool_decide_false, andb_false_r by decide_now.
    unfold s11. rewrite regs_set. change (a_mode s10) with (a_mode s8). by rewrite Hm8.
Qed.
Lemma svc_leaves target s pc n :
  let sp := a_regs s SUPERVISOR_MODE 13 in
  fits 32 pc -> fits 32 (pc + 4) -> 24 <= sp < 2 ^ 32 -> pc < sp - 24 \/ sp + 8 <= pc -> 32 <= n ->
  Z.land (a_mem s pc) 0xffffff = SYS_ELEVATE -> stored_sp (sp - 12) = sp - 12 -> runs_syscall (sp - 24) n target ->
  leaves (svc_trampoline target) (take_exception SUPERVISOR_MODE (pc + 4) s)
    (fun s' pc' => pc' = pc + 4 /\ elevated s pc sp (a_regs s USER_MODE 0) n s').
Proof.
  intros sp Hpc Hpc4 Hsp Hout Hn Himm Hstored Hf. apply svc_calls; [done..|]. intros s7 Hs7. eapply leaves_step; [reflexivity|].
  apply svc_returns; [done|]. by apply (syscall_called s pc sp n target s7).
Qed.
End frames.

(** ** The claims *)

(** Code that keeps the calling convention in every mode and with every stack. *)
Definition rust_code (n : Z) (target : arm -> arm) : Prop :=
  forall mode sp, exception_mode mode -> rust_function mode sp n target.
Definition stack_room (s : arm) (mode : Z) : Prop := 64 <= a_regs s mode 13 < 2 ^ 32 - 8.

(** C19: an interrupt, an undefined instruction and a data abort are transparent to
    the program they interrupt, whatever the handler does within the calling
    convention: all registers of all modes but lr of the exception's own mode, and
    the status register, are as before.  An interrupted instruction is executed
    again, an undefined one and one that aborted is skipped. *)
Theorem trampolines_transparent stored_sp target s pc :
  rust_code 64 target -> fits 32 (a_cpsr s) -> 0 <= pc < 2 ^ 32 - 8 ->
  stack_room s IRQ_MODE -> stack_room s UNDEFINED_MODE -> stack_room s ABORT_MODE ->
  leaves stored_sp (irq_trampoline target) (take_exception IRQ_MODE (wrap 32 (pc + 4)) s)
    (fun s' pc' => pc' = pc /\ resumed IRQ_MODE s s') /\
  leaves stored_sp (undef_trampoline target) (take_exception UNDEFINED_MODE (pc + 4) s)
    (fun s' pc' => pc' = pc + 4 /\ resumed UNDEFINED_MODE s s') /\
  leaves stored_sp (dabt_trampoline target) (take_exception ABORT_MODE (wrap 32 (pc + 8)) s)
    (fun s' pc' => pc' = pc + 4 /\ resumed ABORT_MODE s s').
Proof.
  unfold stack_room. intros Hf Hcpsr Hpc Hirq Hund Habt.
  assert (forall mode sp n, exception_mode mode -> n <= 64 -> rust_function mode sp n target) as Hf'.
  { intros mode sp n Hmode Hn s0 Hm Hsp. destruct (Hf mode sp Hmode s0 Hm Hsp) as [[Hc Hs Hfr] Hu].
    split; [|done]. split; [done|done|]. intros x Hx. apply Hfr. lia. }
  split_and!.
  - apply irq_leaves; [done|unfold fits; lia|lia|]. apply Hf'; [decide_now|lia].
  - apply undef_leaves; [lia|]. apply Hf'; [decide_now|lia].
  - apply dabt_leaves; [unfold fits; lia|lia|]. apply Hf'; [decide_now|lia].
Qed.

(** A handler that uses the registers it may, and a program in User mode. *)
Definition demo_target (s : arm) : arm := set 0 7 (set 1 8 (set 12 9 (set 14 10 s))).
Definition demo_state : arm := MkArm (fun b r => if r =? 13 then 0x1000 * b else 100 * b + r) 0x60000010 (fun b => b) (fun x => x).
Lemma demo_target_ok n : rust_code n demo_target.
Proof.
  intros mode sp (_ & Hs & H13 & H14)%exception_mode_bits s <- Hsp. split; split; try done.
  - intros r Hr. unfold demo_target. by rewrite !get_set_ne by lia.
  - intros b r Hb. unfold demo_target.
    assert (forall r0, r <> r0 \/ b <> reg_bank (a_mode s) r0) as Hne by (intros r0; destruct (Z.eq_dec r r0) as [->|]; auto).
    by rewrite !regs_set_out by apply Hne.
Qed.

Lemma trampolines_transparent_witness :
  leaves id (irq_trampoline demo_target) (take_exception IRQ_MODE (wrap 32 (0x8000 + 4)) demo_state)
    (fun s' pc' => pc' = 0x8000 /\ resumed IRQ_MODE demo_state s') /\
  leaves id (undef_trampoline demo_target) (take_exception UNDEFINED_MODE (0x8000 + 4) demo_state)
    (fun s' pc' => pc' = 0x8000 + 4 /\ resumed UNDEFINED_MODE demo_state s') /\
  leaves id (dabt_trampoline demo_target) (take_exception ABORT_MODE (wrap 32 (0x8000 + 8)) demo_state)
    (fun s' pc' => pc' = 0x8000 + 4 /\ resumed ABORT_MODE demo_state s').
Proof.
  apply (trampolines_transparent id demo_target demo_state 0x8000); [apply demo_target_ok|by vm_compute|by vm_compute|by vm_compute..].
Defined.

(** The FIQ trampoline does not correct the return address, which is four bytes
    further for an interrupt than for the exceptions that return with [rfeia]: the
    instruction at which the program was interrupted is never executed. *)
Theorem fiq_skips_instruction stored_sp target s pc :
  rust_code 64 target -> stack_room s FIQ_MODE ->
  leaves stored_sp (fiq_trampoline target) (take_exception FIQ_MODE (pc + 4) s)
    (fun s' pc' => pc' = pc + 4 /\ resumed FIQ_MODE s s').
Proof. unfold stack_room. intros Hf Hsp. apply fiq_leaves; [lia|]. apply Hf. decide_now. Qed.

Lemma fiq_skips_instruction_witness :
  leaves id (fiq_trampoline demo_target) (take_exception FIQ_MODE (0x8000 + 4) demo_state)
    (fun s' pc' => pc' = 0x8000 + 4 /\ resumed FIQ_MODE demo_state s').
Proof. apply (fiq_skips_instruction id demo_target demo_state 0x8000); [apply demo_target_ok|by vm_compute]. Defined.


(** Two threads whose turns change at every stop; the handler writes the other
    thread's registers. *)
Definition demo_policy : Policy nat unit unit := MkPolicy (fun p last _ => (p, Some (1 - last)%nat)) (fun p _ => p).
Definition demo_thread : ThreadState nat := MkThread (seqZ 40 16) 0x10 false (Some 0%nat).
Definition demo_scheduler : InterleaveScheduler nat unit := MkScheduler (Some tt) 0 [demo_thread; demo_thread].
Definition demo_handler (s : arm) : arm :=
  let s1 := set_mem (store (get 13 s) (seqZ 40 13) (a_mem s)) s in
  let regs b := if b =? USER_MODE then fun r => if r =? 13 then 53 else if r =? 14 then 54 else a_regs s b r else a_regs s b in
  set 0 55 (MkArm regs (a_cpsr s) (upd (a_spsr s) ABORT_MODE 0x10) (a_mem s1)).

(** The end of the first thread.  Behind the thread [_interleave_wrap] asks with
    [swi 13] for the status that [run] left in r1, gets it, and returns in
    Supervisor mode into [run], whose registers r3 to r12 come back from the
    stack.  But r1 and r2 do not: the trampoline has put its return state over
    the two words at the stack pointer, where [run] had pushed them. *)
Theorem thread_end_returns stored_sp target s0 pc :
  let sp := a_regs s0 SUPERVISOR_MODE 13 in
  let psr := a_regs s0 USER_MODE 1 in
  a_mode s0 = USER_MODE -> Z.land psr 0x1f = SUPERVISOR_MODE -> fits 32 pc -> fits 32 (pc + 4) ->
  24 <= sp < 2 ^ 32 - 48 -> pc < sp - 24 \/ sp + 8 <= pc -> Z.land (a_mem s0 pc) 0xffffff = SYS_ELEVATE ->
  stored_sp (sp - 12) = sp - 12 -> runs_syscall (sp - 24) 72 target ->
  exists s1, straight stored_sp interleave_wrap_to_swi s0 = Some s1 /\
  leaves stored_sp (svc_trampoline target) (take_exception SUPERVISOR_MODE (pc + 4) s1) (fun s2 pc2 =>
    pc2 = pc + 4 /\ a_cpsr s2 = psr /\
    leaves stored_sp interleave_wrap_rest s2 (fun s3 pc3 =>
      pc3 = a_regs s0 USER_MODE 14 /\ get 0 s3 = 1 /\
      let s4 := run_epilogue s3 in
      a_cpsr s4 = psr /\ get 13 s4 = sp + 48 /\ get 1 s4 = pc + 4 /\ get 2 s4 = psr /\
      forall r, 3 <= r <= 12 -> get r s4 = a_mem s0 (sp + 4 * (r - 1)))).
Proof.
  intros sp psr Hm0 Hpsr Hpc Hpc4 Hsp Hout Himm Hstored Hf. eexists. split; [reflexivity|].
  set (s1 := set 1 _ _).
  assert (a_regs s1 SUPERVISOR_MODE 13 = sp) as Hsp1 by (unfold s1; rewrite !regs_set_out; [done|by left..]).
  assert (a_regs s1 USER_MODE 0 = psr /\ a_regs s1 USER_MODE 1 = a_regs s0 USER_MODE 14) as [H0 H1].
  { unfold s1. rewrite !regs_set, !mode_set, Hm0. unfold get. rewrite !regs_set, !mode_set, Hm0. done. }
  assert (leaves stored_sp (svc_trampoline target) (take_exception SUPERVISOR_MODE (pc + 4) s1)
    (fun s' pc' => pc' = pc + 4 /\ elevated s1 pc sp psr 72 s')) as (s2 & pc2 & Hex & -> & He).
  { rewrite <- H0, <- Hsp1. apply svc_leaves; rewrite ?Hsp1; try done; lia. }
  exists s2, (pc + 4). split; [done|]. split; [done|]. destruct He as [Hc2 Hlow2 _ Hsp2 Hw2 Ha2]. split; [done|].
  do 2 (eapply leaves_step; [reflexivity|]). eapply leaves_out; [reflexivity|]. set (s3 := set 0 1 _).
  assert (a_mode s2 = SUPERVISOR_MODE) as Hm2 by (unfold a_mode; by rewrite Hc2).
  assert (get 13 s3 = sp) as Hsp3 by (unfold s3; rewrite !get_set_ne by done; unfold get; rewrite Hm2; exact Hsp2).
  split; [unfold s3; rewrite !get_set_ne by done; unfold get; rewrite Hm2, <- H1; apply (Hlow2 1); lia|].
  split; [unfold s3; by rewrite get_set|]. cbn zeta. unfold run_epilogue, pop. rewrite Hsp3. change (length r1_r12) with 12%nat.
  replace (wrap 32 (sp + _)) with (sp + 48) by (rewrite wrap_id by (unfold fits; lia); lia). change (a_mem s3) with (a_mem s2).
  change 12%nat with (2 + 10)%nat. rewrite load_app, Hw2. rewrite (load_ext _ 10 (a_mem s0)) by (intros x Hx; rewrite Ha2 by lia; done).
  assert ([pc + 4; psr] ++ load (sp + 4 * Z.of_nat 2) 10 (a_mem s0) =
    map (fun r => if r =? 1 then pc + 4 else if r =? 2 then psr else a_mem s0 (sp + 4 * (r - 1))) r1_r12) as ->.
  { cbn [load app map r1_r12 Z.eqb Pos.eqb]. repeat (apply (f_equal2 cons); [first [reflexivity|f_equal; lia]|]). done. }
  rewrite cpsr_set_list. split; [done|]. split; [rewrite get_set_list, bool_decide_false by decide_now; by rewrite get_set|].
  split; [by rewrite get_set_list, bool_decide_true by decide_now|]. split; [by rewrite get_set_list, bool_decide_true by decide_now|]. intros r Hr. rewrite get_set_list.
  rewrite bool_decide_true by (unfold r1_r12; rewrite !elem_of_cons; lia). by rewrite (proj2 (Z.eqb_neq r 1)), (proj2 (Z.eqb_neq r 2)) by lia.
Qed.

(** The thread ends at 0x8000, the words that [run] pushed are at 0x13000. *)
Definition end_state : arm :=
  MkArm (fun b r => if (b =? USER_MODE) && (r =? 1) then 0x13 else if r =? 13 then 0x1000 * b else 100 * b + r) 0x60000010 (fun b => b)
    (fun x => if x =? 0x8000 then 0xef00000d else x).
Lemma thread_end_returns_witness :
  exists s1, straight id interleave_wrap_to_swi end_state = Some s1 /\
  leaves id (svc_trampoline syscall) (take_exception SUPERVISOR_MODE (0x8000 + 4) s1) (fun s2 pc2 =>
    pc2 = 0x8000 + 4 /\ a_cpsr s2 = 0x13 /\
    leaves id interleave_wrap_rest s2 (fun s3 pc3 =>
      pc3 = 1614 /\ get 0 s3 = 1 /\
      let s4 := run_epilogue s3 in
      a_cpsr s4 = 0x13 /\ get 13 s4 = 0x13000 + 48 /\ get 1 s4 = 0x8000 + 4 /\ get 2 s4 = 0x13 /\
      forall r, 3 <= r <= 12 -> get r s4 = a_mem end_state (0x13000 + 4 * (r - 1)))).
Proof.
  apply (thread_end_returns id syscall end_state 0x8000); [by vm_compute|by vm_compute|by vm_compute|by vm_compute|by vm_compute|left; by vm_compute|by vm_compute|by vm_compute|].
  intros s _ _. split; split; done.
Defined.
