(* ===== verification/CheckerRun.v ===== *)
(** How the interleaving checker gets into the first thread and back: the assembly of
    [InterleaveScheduler::run] and [_interleave_wrap] in
    [device/bismuth/src/app/debug.rs], on the processor of [Trampolines].

    A [ThreadState] is in the memory as it is declared: sixteen words of registers,
    then the status register. *)
From S2P Require Import Prelude Interrupts Interleave Trampolines.

Module CheckerRun.

(** The instructions that [Trampolines] does not need. *)
Inductive run_instr : Type :=
  | Plain (i : instr)
  | MrsCpsr (d : Z)
  | Str (n base imm : Z)
  | LdmUser (base : Z) (rs : list Z).    (* [ldmia base, {rs}^]: the registers of User mode *)

Definition set_user (r v : Z) (s : arm) : arm :=
  let b := reg_bank USER_MODE r in
  MkArm (upd (a_regs s) b (upd (a_regs s b) r v)) (a_cpsr s) (a_spsr s) (a_mem s).
Fixpoint set_user_list (rs vs : list Z) (s : arm) : arm :=
  match rs, vs with r :: rs, v :: vs => set_user_list rs vs (set_user r v s) | _, _ => s end.

Section code.
Context (stored_sp : Z -> Z).

Definition run_step (i : run_instr) (s : arm) : arm + arm * Z :=
  match i with
  | Plain i => step stored_sp i s
  | MrsCpsr d => inl (set d (a_cpsr s) s)
  | Str n base imm => inl (set_mem (upd (a_mem s) (wrap 32 (get base s + imm)) (get n s)) s)
  | LdmUser base rs => inl (set_user_list rs (load (get base s) (length rs) (a_mem s)) s)
  end.
Fixpoint run_exec (code : list run_instr) (s : arm) : option (arm + arm * Z) :=
  match code with
  | [] => Some (inl s)
  | i :: code => match run_step i s with inl s => run_exec code s | inr out => Some (inr out) end
  end.

(** The assembly of [run].  [back] is the address behind its first instruction, which
    the call of the label 2 puts into lr. *)
Definition r0_r14 : list Z := [0; 1; 2; 3; 4; 5; 6; 7; 8; 9; 10; 11; 12; 13; 14].
Definition run_label_2 (back : Z) (s : arm) : arm :=
  let s := set 14 back s in
  let s := set_mem (upd (a_mem s) (get 0 s) (get 14 s)) s in
  set 0 0 s.
Definition run_thread_entry : list run_instr :=
  [MrsCpsr 0; Str 0 2 4; Plain (Push r1_r12); Plain (Ldr 0 1 0); Plain (MsrSpsr 0); Plain (Add 14 2 60); LdmUser 2 r0_r14; Plain (Rfeia 14)].
(** Label 3, where execution is at first and again when the thread is back; [inr] is
    the entry of the thread. *)
Definition run_label_3 (s : arm) : option (arm + arm * Z) :=
  if get 0 s =? 0 then run_exec run_thread_entry s else Some (inl (run_epilogue s)).
Definition run_assembly (back : Z) (s : arm) : option (arm + arm * Z) := run_label_3 (run_label_2 back s).

(** [_interleave_wrap] up to the end of [_interleave_stop]; [test_fn] is the function
    of the thread, which the register r0 has the address of. *)
Definition wrap_pushed : list Z := [0; 1; 2; 3; 14].
Definition interleave_wrap_front (test_fn stop : arm -> arm) : list instr :=
  [Push wrap_pushed; Bl test_fn; Bl stop; Pop wrap_pushed].
End code.

(** The memory holds a thread. *)
Definition thread_at {H} (t0 : Z) (t : ThreadState H) (m : Z -> Z) : Prop :=
  load t0 16 m = registers t /\ m (t0 + 64) = Interleave.spsr t.
End CheckerRun.
Export CheckerRun.

(** ** The registers of User mode *)

Section user.
Implicit Types (s : arm) (r v b : Z) (rs : list Z).

Lemma set_user_list_rest rs vs s :
  a_cpsr (set_user_list rs vs s) = a_cpsr s /\ a_spsr (set_user_list rs vs s) = a_spsr s /\ a_mem (set_user_list rs vs s) = a_mem s.
Proof. revert vs s. induction rs as [|r rs IH]; intros [|v vs] s; try done. cbn. by destruct (IH vs (set_user r v s)) as (-> & -> & ->). Qed.
Lemma regs_set_user r v s b r' :
  a_regs (set_user r v s) b r' = if (b =? reg_bank USER_MODE r) && (r' =? r) then v else a_regs s b r'.
Proof. cbn. unfold upd. destruct (Z.eqb_spec b (reg_bank USER_MODE r)) as [->|]; [|done]. by destruct (r' =? r). Qed.
Lemma regs_set_user_list rs (f : Z -> Z) s b r :
  a_regs (set_user_list rs (map f rs) s) b r =
  if (b =? reg_bank USER_MODE r) && bool_decide (r ∈ rs) then f r else a_regs s b r.
Proof.
  revert s. induction rs as [|r0 rs IH]; intros s; cbn [map set_user_list].
  { by rewrite bool_decide_false, andb_false_r by apply not_elem_of_nil. }
  rewrite IH, regs_set_user. destruct (decide (r ∈ rs)) as [Hin|Hin].
  - rewrite !bool_decide_true by (done || by right). destruct (Z.eqb_spec b (reg_bank USER_MODE r)); [done|].
    destruct (Z.eqb_spec r r0) as [->|]; [|by rewrite andb_false_r]. by rewrite (proj2 (Z.eqb_neq _ _)).
  - rewrite (bool_decide_false (r ∈ rs)) by done. rewrite andb_false_r. destruct (Z.eqb_spec r r0) as [->|Hne].
    + by rewrite bool_decide_true by left.
    + rewrite bool_decide_false by (intros [?|?]%elem_of_cons; done). by rewrite !andb_false_r.
Qed.
Lemma run_exec_step stored_sp i code s s' : run_step stored_sp i s = inl s' -> run_exec stored_sp (i :: code) s = run_exec stored_sp code s'.
Proof. intros Hs. cbn [run_exec]. by rewrite Hs. Qed.
Lemma run_exec_out stored_sp i code s out : run_step stored_sp i s = inr out -> run_exec stored_sp (i :: code) s = Some (inr out).
Proof. intros Hs. cbn [run_exec]. by rewrite Hs. Qed.
End user.

(** ** Into the thread *)

Section entry.
Context (stored_sp : Z -> Z).
Implicit Types (s : arm) (r v b : Z) (m : Z -> Z).

Lemma length_load a n m : length (load a n m) = n.
Proof. revert a. induction n as [|n IH]; intros a; [done|]. cbn [load length]. by rewrite IH. Qed.
Lemma load_lookup a n m k : (k < n)%nat -> load a n m !! k = Some (m (a + 4 * Z.of_nat k)).
Proof.
  revert a k. induction n as [|n IH]; intros a k Hk; [lia|]. destruct k as [|k]; cbn [load lookup list_lookup].
  - do 2 f_equal. lia.
  - rewrite IH by lia. do 2 f_equal. lia.
Qed.
(** A word that is written among those that are loaded. *)
Lemma load_upd a n m k v : (k < n)%nat -> load a n (upd m (a + 4 * Z.of_nat k) v) = <[k := v]> (load a n m).
Proof.
  intros Hk. apply list_eq. intros j. destruct (decide (j < n)%nat) as [Hj|Hj].
  - rewrite load_lookup by done. unfold upd. destruct (decide (j = k)) as [->|Hne].
    + rewrite list_lookup_insert_eq by (by rewrite length_load). by rewrite Z.eqb_refl.
    + rewrite list_lookup_insert_ne, load_lookup by done. by rewrite (proj2 (Z.eqb_neq _ _)) by lia.
  - rewrite !lookup_ge_None_2; [done|rewrite length_insert|]; rewrite length_load; lia.
Qed.
Lemma load_as_map t0 m : load t0 15 m = map (fun r => m (t0 + 4 * r)) r0_r14.
Proof. cbn [load map r0_r14]. repeat (apply (f_equal2 cons); [f_equal; lia|]). done. Qed.

(** The registers that the thread finds. *)
Definition entry_registers (back status : Z) (regs : list Z) : list Z := <[1%nat := status]> (<[14%nat := back]> regs).

(** What [run] has left when the thread runs. *)
Record entered (back : Z) (regs : list Z) s (t0 : Z) s' : Prop := {
  en_user r : 0 <= r <= 14 -> a_regs s' (reg_bank USER_MODE r) r = entry_registers back (a_cpsr s) regs !!! Z.to_nat r;
  en_sp : a_regs s' SUPERVISOR_MODE 13 = get 13 s - 48;
  en_stack : load (get 13 s - 48) 12 (a_mem s') = map (fun r => get r s) r1_r12;
  en_thread : load t0 16 (a_mem s') = entry_registers back (a_cpsr s) regs;
  en_rest x : x < get 13 s - 48 \/ get 13 s <= x -> x < t0 \/ t0 + 68 <= x -> a_mem s' x = a_mem s x;
}.

(** Up to the push. *)
Lemma run_marks back s t0 :
  get 0 s = t0 + 56 -> get 2 s = t0 -> 0 <= t0 < 2 ^ 32 - 68 ->
  exists s3, run_assembly stored_sp back s =
      run_exec stored_sp [Plain (Push r1_r12); Plain (Ldr 0 1 0); Plain (MsrSpsr 0); Plain (Add 14 2 60); LdmUser 2 r0_r14; Plain (Rfeia 14)] s3 /\
    a_cpsr s3 = a_cpsr s /\ (forall r, r <> 0 -> r <> 14 -> get r s3 = get r s) /\
    a_mem s3 = upd (upd (a_mem s) (t0 + 56) back) (t0 + 4) (a_cpsr s).
Proof.
  intros H0 H2 Ht0. unfold run_assembly, run_label_2, run_label_3. rewrite get_set. cbn [Z.eqb].
  set (s1 := set 0 0 _).
  assert (forall r, r <> 0 -> r <> 14 -> get r s1 = get r s) as Hg1 by (intros r ??; unfold s1; rewrite get_set_ne by done; change (get r (set_mem ?m ?x)) with (get r x); by rewrite get_set_ne).
  assert (a_mem s1 = upd (a_mem s) (t0 + 56) back) as Hmem1.
  { unfold s1. cbn [set a_mem]. change (a_mem (set_mem ?m ?x)) with m. rewrite get_set, get_set_ne, H0 by done. done. }
  assert (a_cpsr s1 = a_cpsr s) as Hc1 by done. clearbody s1. unfold run_thread_entry.
  rewrite (run_exec_step stored_sp (MrsCpsr 0) _ s1 (set 0 (a_cpsr s1) s1) eq_refl). set (s2 := set 0 (a_cpsr s1) s1).
  rewrite (run_exec_step stored_sp (Str 0 2 4) _ s2 (set_mem (upd (a_mem s2) (wrap 32 (get 2 s2 + 4)) (get 0 s2)) s2) eq_refl).
  eexists. split; [reflexivity|]. split; [exact Hc1|]. split.
  - intros r ??. change (get r (set_mem ?m ?x)) with (get r x). unfold s2. rewrite get_set_ne by done. by apply Hg1.
  - cbn [set_mem a_mem]. unfold s2. rewrite get_set, get_set_ne, Hg1, H2 by done.
    rewrite wrap_id by (unfold fits; lia). change (a_mem (set 0 _ s1)) with (a_mem s1). by rewrite Hmem1, Hc1.
Qed.

(** The push and what leads to the entry. *)
Lemma run_prepares s3 t0 :
  let sp := get 13 s3 in
  a_mode s3 = SUPERVISOR_MODE -> get 2 s3 = t0 -> 0 <= t0 < 2 ^ 32 - 68 -> 48 <= sp < 2 ^ 32 ->
  exists s7, run_exec stored_sp [Plain (Push r1_r12); Plain (Ldr 0 1 0); Plain (MsrSpsr 0); Plain (Add 14 2 60); LdmUser 2 r0_r14; Plain (Rfeia 14)] s3 =
      run_exec stored_sp [LdmUser 2 r0_r14; Plain (Rfeia 14)] s7 /\
    a_mode s7 = SUPERVISOR_MODE /\ get 2 s7 = t0 /\ a_regs s7 SUPERVISOR_MODE 14 = t0 + 60 /\ a_regs s7 SUPERVISOR_MODE 13 = sp - 48 /\
    load (sp - 48) 12 (a_mem s7) = map (fun r => get r s3) r1_r12 /\
    (forall x, x < sp - 48 \/ sp <= x -> a_mem s7 x = a_mem s3 x).
Proof.
  intros sp Hm3 H2 Ht0 Hsp.
  pose proof (push_ok stored_sp r1_r12 s3 ltac:(cbn; fold sp; lia)) as Hp. rewrite (map_pushed stored_sp r1_r12) in Hp by decide_now.
  rewrite (run_exec_step stored_sp (Plain (Push r1_r12)) _ s3 (push stored_sp r1_r12 s3) eq_refl).
  set (s4 := push stored_sp r1_r12 s3) in *. clearbody s4.
  assert (get 13 s4 = sp - 48) as Hsp4 by (rewrite (hp_sp _ _ _ Hp); cbn; fold sp; lia).
  assert (a_mode s4 = SUPERVISOR_MODE) as Hm4 by (rewrite (mode_eq s3) by apply Hp; done).
  assert (get 2 s4 = t0) as Hg4 by (rewrite (has_pushed_get _ _ _ _ Hp) by done; exact H2).
  pose proof (hp_frame _ _ _ Hp) as Hf. rewrite length_map, Hsp4 in Hf. change (length r1_r12) with 12%nat in Hf.
  assert (forall x, x < sp - 48 \/ sp <= x -> a_mem s4 x = a_mem s3 x) as Hmem4 by (intros x Hx; apply Hp; rewrite Hsp4; fold sp; lia).
  rewrite (run_exec_step stored_sp (Plain (Ldr 0 1 0)) _ s4 (set 0 (a_mem s4 (wrap 32 (get 1 s4 + 0))) s4) eq_refl).
  set (s5 := set 0 _ s4).
  rewrite (run_exec_step stored_sp (Plain (MsrSpsr 0)) _ s5 (set_spsr_of (a_mode s5) (msr (own_spsr s5) (get 0 s5)) s5) eq_refl).
  set (s6 := set_spsr_of _ _ s5).
  assert (a_mode s6 = SUPERVISOR_MODE /\ get 2 s6 = t0 /\ a_mem s6 = a_mem s4 /\ a_regs s6 SUPERVISOR_MODE 13 = sp - 48) as (Hm6 & Hg6 & Hmem6 & Hs6).
  { split; [exact Hm4|]. split; [|split; [done|]].
    - change (get 2 s6) with (get 2 s5). unfold s5. by rewrite get_set_ne.
    - change (a_regs s6) with (a_regs s5). unfold s5. rewrite regs_set_out by (by left). unfold get in Hsp4. rewrite Hm4 in Hsp4. exact Hsp4. }
  clearbody s6.
  rewrite (run_exec_step stored_sp (Plain (Add 14 2 60)) _ s6 (set 14 (wrap 32 (get 2 s6 + 60)) s6) eq_refl).
  eexists. split; [reflexivity|]. split; [exact Hm6|]. split; [by rewrite get_set_ne|]. split; [|split; [|split]].
  - rewrite regs_set, Hm6. change (_ && (14 =? 14)) with true. cbv iota. rewrite Hg6. apply wrap_id. unfold fits. lia.
  - rewrite regs_set_out by (by left). exact Hs6.
  - change (a_mem (set 14 ?v ?x)) with (a_mem x). by rewrite Hmem6.
  - intros x Hx. change (a_mem (set 14 ?v ?x)) with (a_mem x). rewrite Hmem6. by apply Hmem4.
Qed.

(** The entry: the registers of User mode, then the program counter and the status. *)
Lemma run_loads s7 t0 l :
  a_mode s7 = SUPERVISOR_MODE -> get 2 s7 = t0 -> a_regs s7 SUPERVISOR_MODE 14 = t0 + 60 -> load t0 16 (a_mem s7) = l ->
  exists s', run_exec stored_sp [LdmUser 2 r0_r14; Plain (Rfeia 14)] s7 = Some (inr (s', l !!! 15%nat)) /\
    a_cpsr s' = a_mem s7 (t0 + 64) /\ a_mem s' = a_mem s7 /\ a_regs s' SUPERVISOR_MODE 13 = a_regs s7 SUPERVISOR_MODE 13 /\
    forall r, 0 <= r <= 14 -> a_regs s' (reg_bank USER_MODE r) r = l !!! Z.to_nat r.
Proof.
  intros Hm H2 Hlr <-.
  assert (forall k, (k < 16)%nat -> load t0 16 (a_mem s7) !!! k = a_mem s7 (t0 + 4 * Z.of_nat k)) as Hword
    by (intros k Hk; apply list_lookup_total_correct; by apply load_lookup).
  rewrite (run_exec_step stored_sp (LdmUser 2 r0_r14) _ s7 (set_user_list r0_r14 (load (get 2 s7) 15 (a_mem s7)) s7) eq_refl).
  rewrite H2, load_as_map. set (s8 := set_user_list _ _ s7).
  destruct (set_user_list_rest r0_r14 (map (fun r => a_mem s7 (t0 + 4 * r)) r0_r14) s7) as (Hc8 & _ & Hm8). fold s8 in Hc8, Hm8.
  assert (forall b r, 0 <= r <= 14 -> a_regs s8 b r = if b =? reg_bank USER_MODE r then a_mem s7 (t0 + 4 * r) else a_regs s7 b r) as Huser.
  { intros b r Hr. unfold s8. rewrite regs_set_user_list, bool_decide_true, andb_true_r; [done|]. unfold r0_r14. rewrite !elem_of_cons. lia. }
  clearbody s8.
  assert (get 14 s8 = t0 + 60) as Hlr8.
  { unfold get. rewrite (mode_eq s7 s8 Hc8), Hm. change (reg_bank SUPERVISOR_MODE 14) with SUPERVISOR_MODE. rewrite Huser by lia. exact Hlr. }
  rewrite (run_exec_out stored_sp (Plain (Rfeia 14)) _ s8 (set_cpsr (a_mem s8 (get 14 s8 + 4)) s8, a_mem s8 (get 14 s8)) eq_refl).
  rewrite Hlr8, Hm8, Hword by lia. replace (t0 + 60 + 4) with (t0 + 64) by lia. replace (t0 + 60) with (t0 + 4 * Z.of_nat 15) by lia.
  eexists. split; [reflexivity|]. split; [reflexivity|]. split; [exact Hm8|]. change (a_regs (set_cpsr ?w ?x)) with (a_regs x). split.
  - rewrite Huser by lia. done.
  - intros r Hr. rewrite Huser, Z.eqb_refl, Hword by lia. f_equal. lia.
Qed.

Lemma run_enters back regs w s t0 :
  let sp := get 13 s in
  a_mode s = SUPERVISOR_MODE -> get 0 s = t0 + 56 -> get 2 s = t0 ->
  load t0 16 (a_mem s) = regs -> a_mem s (t0 + 64) = w ->
  0 <= t0 < 2 ^ 32 - 68 -> 48 <= sp < 2 ^ 32 -> t0 + 68 <= sp - 48 \/ sp <= t0 ->
  exists s', run_assembly stored_sp back s = Some (inr (s', regs !!! 15%nat)) /\ a_cpsr s' = w /\ entered back regs s t0 s'.
Proof.
  intros sp Hm H0 H2 Hregs Hw Ht0 Hsp Hsep.
  destruct (run_marks back s t0 H0 H2 Ht0) as (s3 & -> & Hc3 & Hg3 & Hmem3).
  assert (get 13 s3 = sp) as Hsp3 by (by apply Hg3).
  destruct (run_prepares s3 t0) as (s7 & -> & Hm7 & H7 & Hlr & Hsp7 & Hstack & Hmem7);
    [by rewrite (mode_eq s)|by rewrite Hg3|done|by rewrite Hsp3|]. rewrite Hsp3 in *.
  assert (load t0 16 (a_mem s7) = entry_registers back (a_cpsr s) regs) as Hthread.
  { rewrite (load_ext t0 16 (a_mem s3)) by (intros x Hx; apply Hmem7; lia). rewrite Hmem3.
    replace (t0 + 4) with (t0 + 4 * Z.of_nat 1) by lia. replace (t0 + 56) with (t0 + 4 * Z.of_nat 14) by lia.
    rewrite !load_upd by lia. by rewrite Hregs. }
  destruct (run_loads s7 t0 _ Hm7 H7 Hlr Hthread) as (s' & -> & Hc' & Hm' & Hsp' & Huser).
  exists s'. split; [unfold entry_registers; by rewrite !list_lookup_total_insert_ne|]. split.
  - rewrite Hc', Hmem7, Hmem3 by lia. unfold upd. by rewrite !(proj2 (Z.eqb_neq _ _)) by lia.
  - split; rewrite ?Hm'; [exact Huser|by rewrite Hsp'| |exact Hthread|]; fold sp.
    + rewrite Hstack. apply map_ext_in. intros r Hr%list_elem_of_In. apply Hg3; intros ->; revert Hr; decide_now.
    + intros x Hx Hx0. rewrite Hmem7, Hmem3 by done. unfold upd. by rewrite !(proj2 (Z.eqb_neq _ _)) by lia.
Qed.
End entry.

(** ** Out of the thread *)

Section wrap.
Context (stored_sp : Z -> Z).
Implicit Types (s : arm) (r v b : Z) (f : arm -> arm).

(** A function of a thread: it keeps the calling convention on the thread's stack and
    the memory [keep], and does not touch the registers of other modes. *)
Definition thread_function (sp : Z) (keep : Z -> Prop) f : Prop :=
  forall s, a_mode s = USER_MODE -> get 13 s = sp ->
    c_call 20 s (f s) /\ undisturbed s (f s) /\ forall x, keep x -> a_mem (f s) x = a_mem s x.

Lemma thread_call sp keep f s ws :
  thread_function sp keep f -> a_mode s = USER_MODE -> get 13 s = sp -> length ws = 5%nat -> load sp 5 (a_mem s) = ws ->
  a_mode (f s) = USER_MODE /\ a_cpsr (f s) = a_cpsr s /\ get 13 (f s) = sp /\ load sp 5 (a_mem (f s)) = ws /\
  a_regs (f s) SUPERVISOR_MODE 13 = a_regs s SUPERVISOR_MODE 13 /\ forall x, keep x -> a_mem (f s) x = a_mem s x.
Proof.
  intros Hf Hm Hsp Hlen Hl. destruct (Hf s Hm Hsp) as (Hc & Hu & Hk).
  assert (get 13 (f s) = sp) as Hsp' by (rewrite (cc_saved _ _ _ Hc) by (by right); exact Hsp).
  split; [by rewrite (c_call_mode _ _ _ Hc)|]. split; [apply Hc|]. split; [done|]. split; [|split; [|done]].
  - rewrite <- Hl. apply load_ext. intros x Hx. apply Hc. rewrite Hsp. lia.
  - apply Hu. rewrite Hm. done.
Qed.

(** The registers that [_interleave_wrap] pushes come back; the first of the thread
    is the one that [run] will return with. *)
Lemma wrap_front usp keep test_fn stop s :
  a_mode s = USER_MODE -> get 13 s = usp -> 20 <= usp < 2 ^ 32 ->
  (forall x, keep x -> x < usp - 20 \/ usp <= x) ->
  thread_function (usp - 20) keep test_fn -> thread_function (usp - 20) keep stop ->
  exists s', straight stored_sp (interleave_wrap_front test_fn stop) s = Some s' /\
    a_cpsr s' = a_cpsr s /\ a_regs s' USER_MODE 1 = get 1 s /\ a_regs s' USER_MODE 14 = get 14 s /\
    a_regs s' SUPERVISOR_MODE 13 = a_regs s SUPERVISOR_MODE 13 /\ forall x, keep x -> a_mem s' x = a_mem s x.
Proof.
  intros Hm Hsp Hroom Hkeep Ht Hs.
  pose proof (push_ok stored_sp wrap_pushed s ltac:(rewrite Hsp; cbn; lia)) as Hp. rewrite (map_pushed stored_sp wrap_pushed) in Hp by decide_now.
  unfold interleave_wrap_front. cbn [straight step]. set (s1 := push stored_sp wrap_pushed s) in *. clearbody s1.
  assert (get 13 s1 = usp - 20) as Hsp1 by (rewrite (hp_sp _ _ _ Hp), Hsp; cbn; lia).
  assert (a_mode s1 = USER_MODE) as Hm1 by (rewrite (mode_eq s) by apply Hp; done).
  pose proof (hp_frame _ _ _ Hp) as Hf. rewrite Hsp1, length_map in Hf. change (length wrap_pushed) with 5%nat in Hf.
  set (ws := map (fun r => get r s) wrap_pushed) in *.
  destruct (thread_call _ _ _ _ ws Ht Hm1 Hsp1 eq_refl Hf) as (Hm2 & Hc2 & Hsp2 & Hf2 & Hsv2 & Hk2).
  destruct (thread_call _ _ _ _ ws Hs Hm2 Hsp2 eq_refl Hf2) as (Hm3 & Hc3 & Hsp3 & Hf3 & Hsv3 & Hk3).
  set (s3 := stop (test_fn s1)) in *. clearbody s3. eexists. split; [reflexivity|]. unfold pop. rewrite Hsp3.
  change (length wrap_pushed) with 5%nat. rewrite Hf3. unfold ws. set (s4 := set 13 _ s3).
  assert (a_mode s4 = USER_MODE) as Hm4 by exact Hm3.
  split; [rewrite cpsr_set_list; change (a_cpsr s4) with (a_cpsr s3); rewrite Hc3, Hc2; apply Hp|].
  split; [by rewrite regs_set_list, Hm4, bool_decide_true by decide_now|].
  split; [by rewrite regs_set_list, Hm4, bool_decide_true by decide_now|]. split.
  - rewrite regs_set_list, bool_decide_false, andb_false_r by decide_now. unfold s4. rewrite regs_set, Hm3.
    change ((SUPERVISOR_MODE =? reg_bank USER_MODE 13) && (13 =? 13)) with false. cbv iota. rewrite Hsv3, Hsv2.
    apply Hp. right. by rewrite Hm.
  - intros x Hx. rewrite mem_set_list. change (a_mem s4) with (a_mem s3). rewrite Hk3, Hk2 by done. apply Hp.
    rewrite Hsp, Hsp1. destruct (Hkeep x Hx); [by right|by left].
Qed.
End wrap.

(** ** The claims *)

(** The checker runs the function of the first thread and comes back.  The assembly of
    [run] enters [_interleave_wrap] in User mode with the registers of the thread,
    the status register of [run] and the address to return to; when the function and
    [_interleave_stop] have returned, the system call at [pc] gets that status back,
    and [run] goes on behind its assembly with its stack pointer, its status and
    its registers r3 to r12.  The registers r1 and r2, which it is told are not
    changed, have other values. *)
Theorem checker_round_trip stored_sp back regs w s t0 test_fn stop target pc :
  let sp := get 13 s in
  let usp := regs !!! 13%nat in
  let keep x := sp - 48 <= x < sp \/ x = pc in
  a_mode s = SUPERVISOR_MODE -> get 0 s = t0 + 56 -> get 2 s = t0 ->
  load t0 16 (a_mem s) = regs -> a_mem s (t0 + 64) = w -> Z.land w 0x1f = USER_MODE ->
  0 <= t0 < 2 ^ 32 - 68 -> 72 <= sp < 2 ^ 32 - 48 -> t0 + 68 <= sp - 48 \/ sp <= t0 ->
  20 <= usp < 2 ^ 32 -> (forall x, keep x -> x < usp - 20 \/ usp <= x) ->
  fits 32 pc -> fits 32 (pc + 4) -> pc < sp - 72 \/ sp <= pc -> pc < t0 \/ t0 + 68 <= pc -> Z.land (a_mem s pc) 0xffffff = SYS_ELEVATE ->
  thread_function (usp - 20) keep test_fn -> thread_function (usp - 20) keep stop ->
  stored_sp (sp - 60) = sp - 60 -> runs_syscall (sp - 72) 72 target ->
  exists s1, run_assembly stored_sp back s = Some (inr (s1, regs !!! 15%nat)) /\ a_cpsr s1 = w /\ entered back regs s t0 s1 /\
  exists s2 s3, straight stored_sp (interleave_wrap_front test_fn stop) s1 = Some s2 /\
  straight stored_sp interleave_wrap_to_swi s2 = Some s3 /\
  leaves stored_sp (svc_trampoline target) (take_exception SUPERVISOR_MODE (pc + 4) s3) (fun s4 pc4 =>
    pc4 = pc + 4 /\
    leaves stored_sp interleave_wrap_rest s4 (fun s5 pc5 =>
      pc5 = back /\ exists s6, run_label_3 stored_sp s5 = Some (inl s6) /\
      a_cpsr s6 = a_cpsr s /\ get 13 s6 = sp /\ (forall r, 3 <= r <= 12 -> get r s6 = get r s) /\
      get 1 s6 = pc + 4 /\ get 2 s6 = a_cpsr s)).
Proof.
  intros sp usp keep Hm H0 H2 Hregs Hw Huser Ht0 Hsp Hsep Husp Hkeep Hpc Hpc4 Hout Hout0 Himm Htest Hstop Hstored Hsys.
  destruct (run_enters stored_sp back regs w s t0) as (s1 & Hr & Hc1 & He); try done; [fold sp; lia|]. fold sp in He.
  exists s1. split; [done|]. split; [done|]. split; [done|].
  assert (length regs = 16%nat) as Hlen by (rewrite <- Hregs; apply length_load).
  assert (a_mode s1 = USER_MODE) as Hm1 by (unfold a_mode; by rewrite Hc1).
  assert (forall r, 0 <= r <= 14 -> get r s1 = entry_registers back (a_cpsr s) regs !!! Z.to_nat r) as Hget
    by (intros r Hr'; unfold get; rewrite Hm1; by apply (en_user _ _ _ _ _ He)).
  assert (get 13 s1 = usp /\ get 1 s1 = a_cpsr s /\ get 14 s1 = back) as (Hu13 & Hu1 & Hu14).
  { rewrite !Hget by lia. unfold entry_registers. split_and!.
    - by rewrite !list_lookup_total_insert_ne.
    - apply list_lookup_total_insert_eq. rewrite length_insert. change (Z.to_nat 1) with 1%nat. lia.
    - rewrite list_lookup_total_insert_ne by done. apply list_lookup_total_insert_eq. change (Z.to_nat 14) with 14%nat. lia. }
  destruct (wrap_front stored_sp usp keep test_fn stop s1) as (s2 & Hwrap & Hc2 & H21 & H214 & Hsv2 & Hk2); try done.
  rewrite Hu1, Hu14, (en_sp _ _ _ _ _ He) in *. fold sp in Hsv2.
  assert (a_mode s2 = USER_MODE) as Hm2 by (by rewrite (mode_eq s1)).
  destruct (thread_end_returns stored_sp target s2 pc) as (s3 & Hswi & s4 & pc4 & Hsvc & -> & Hc4 & s5 & pc5 & Hrest & -> & Hr0 & Hend);
    rewrite ?Hsv2, ?H21; try done.
  - lia.
  - lia.
  - rewrite Hk2 by (by right). rewrite (en_rest _ _ _ _ _ He) by (fold sp; lia). done.
  - by replace (sp - 48 - 12) with (sp - 60) by lia.
  - by replace (sp - 48 - 24) with (sp - 72) by lia.
  - rewrite H21 in Hc4. rewrite Hsv2, H21 in Hend. cbn zeta in Hend. destruct Hend as (Hce & Hspe & H1e & H2e & Hre).
    exists s2, s3. split; [done|]. split; [done|]. exists s4, (pc + 4). split; [done|]. split; [done|].
    exists s5, (a_regs s2 USER_MODE 14). split; [done|]. split; [done|].
    exists (run_epilogue s5). split; [unfold run_label_3; by rewrite Hr0|]. split; [done|]. split; [rewrite Hspe; lia|].
    split; [|done]. intros r Hr3. rewrite Hre by done.
    assert (keep (sp - 48 + 4 * (r - 1))) as Hkr by (left; lia). rewrite Hk2 by done.
    pose proof (load_lookup (sp - 48) 12 (a_mem s1) (Z.to_nat (r - 1)) ltac:(lia)) as Hll.
    pose proof (en_stack _ _ _ _ _ He) as Hst. fold sp in Hst. rewrite Hst in Hll. rewrite Z2Nat.id in Hll by lia.
    rewrite list_lookup_fmap in Hll. assert (r1_r12 !! Z.to_nat (r - 1) = Some r) as Hrr.
    { assert (r = 3 \/ r = 4 \/ r = 5 \/ r = 6 \/ r = 7 \/ r = 8 \/ r = 9 \/ r = 10 \/ r = 11 \/ r = 12) as Hor by lia.
      destruct_or! Hor; by subst. }
    rewrite Hrr in Hll. by injection Hll as <-.
Qed.

(** The thread's state stands at 0x40000, the stack of [run] ends at 0x13000, the
    system call is at 0x8010. *)
Definition demo_regs : list Z := [0x8400] ++ replicate 12 0 ++ [0x0f600000; 0; 0x8100].
Definition demo_run : arm :=
  MkArm (fun b r => if r =? 0 then 0x40038 else if r =? 2 then 0x40000 else if r =? 13 then 0x1000 * b else 100 * b + r) 0x60000013 (fun b => b)
    (store 0x40000 (demo_regs ++ [0x60000010]) (fun x => if x =? 0x8010 then 0xef00000d else 0)).
Lemma demo_thread_function sp keep : thread_function sp keep demo_target.
Proof.
  intros s Hm _. split; [|split].
  - split; try done. intros r Hr. unfold demo_target. by rewrite !get_set_ne by lia.
  - split; [|done]. intros b r Hb. unfold demo_target.
    assert (forall r0, r <> r0 \/ b <> reg_bank (a_mode s) r0) as Hne by (intros r0; destruct (Z.eq_dec r r0) as [->|]; auto).
    by rewrite !regs_set_out by apply Hne.
  - done.
Qed.

Lemma checker_round_trip_witness :
  exists s1, run_assembly id 0x8204 demo_run = Some (inr (s1, 0x8100)) /\ a_cpsr s1 = 0x60000010 /\ entered 0x8204 demo_regs demo_run 0x40000 s1 /\
  exists s2 s3, straight id (interleave_wrap_front demo_target demo_target) s1 = Some s2 /\
  straight id interleave_wrap_to_swi s2 = Some s3 /\
  leaves id (svc_trampoline syscall) (take_exception SUPERVISOR_MODE (0x8010 + 4) s3) (fun s4 pc4 =>
    pc4 = 0x8010 + 4 /\
    leaves id interleave_wrap_rest s4 (fun s5 pc5 =>
      pc5 = 0x8204 /\ exists s6, run_label_3 id s5 = Some (inl s6) /\
      a_cpsr s6 = 0x60000013 /\ get 13 s6 = 0x13000 /\ (forall r, 3 <= r <= 12 -> get r s6 = get r demo_run) /\
      get 1 s6 = 0x8010 + 4 /\ get 2 s6 = 0x60000013)).
Proof.
  apply (checker_round_trip id 0x8204 demo_regs 0x60000010 demo_run 0x40000 demo_target demo_target syscall 0x8010).
  1-6: by vm_compute.
  - by vm_compute.
  - by vm_compute.
  - right. by vm_compute.
  - by vm_compute.
  - intros x [Hx|Hx]; left; change (demo_regs !!! 13%nat) with 0x0f600000; [change (get 13 demo_run) with 0x13000 in Hx|]; lia.
  - by vm_compute.
  - by vm_compute.
  - left. by vm_compute.
  - left. by vm_compute.
  - by vm_compute.
  - apply demo_thread_function.
  - apply demo_thread_function.
  - by vm_compute.
  - intros s _ _. split; split; done.
Defined.
