(* ===== verification/Console.v ===== *)
(** The console of the RISC-V device: the queue of strings that the UART0
    interrupt empties and the external interrupt handler
    ([device/antimony/src/net/phy.rs]), and the baud rate of
    [device/antimony/src/peripherals/uart.rs]. *)
From S2P Require Import Prelude Words Hdlc PppXmit PppRecv.

Module Console.

Record UartXmit : Type := MkUartXmit {
  strings : list (list Z);
  index : nat;
}.
Definition uart_xmit_new : UartXmit := MkUartXmit [] 0.

(** The loop over the bytes of the head from [index] on; the last component says
    whether it got to the end. *)
Fixpoint write_head (rest : list Z) (index room : nat) (sent : list Z) : nat * nat * list Z * bool :=
  match rest with
  | [] => (index, room, sent, true)
  | b :: rest =>
    match room with
    | O => (index, O, sent, false)
    | S room => write_head rest (S index) room (sent ++ [b])
    end
  end.
Fixpoint write_strings (ss : list (list Z)) (index room : nat) (sent : list Z) : UartXmit * nat * list Z * bool :=
  match ss with
  | [] => (MkUartXmit [] index, room, sent, true)
  | head :: rest =>
    let '(i, room, sent, fin) := write_head (drop index head) index room sent in
    if (fin : bool) then write_strings rest 0 room sent else (MkUartXmit (head :: rest) i, room, sent, false)
  end.
(** [UartXmit::write_out]: true if everything was written. *)
Definition console_write_out (x : UartXmit) (u : Uart) : UartXmit * Uart * bool :=
  let '(x, room, sent, done_) := write_strings (strings x) (index x) (uart_room u) (uart_sent u) in
  (x, MkUart room sent (uart_etbei u), done_).

(** [write_string], in its critical section. *)
Definition write_string (s : list Z) (x : UartXmit) (u : Uart) : UartXmit * Uart :=
  let x := MkUartXmit (strings x ++ [s]) (index x) in
  let '(x, u, done_) := console_write_out x u in
  (x, if done_ then u else set_etbei true u).

(** What the external interrupt works on: the console and UART0, the PPP channels
    and UART2 with the bytes in its receive FIFO, and the claims that were
    given back to the interrupt controller. *)
Record io : Type := MkIo {
  STDOUT_TX : UartXmit;
  UART0 : Uart;
  CHANNEL2_RX : RecvChannel;
  CHANNEL2_TX : XmitChannel;
  UART2 : Uart;
  rx_fifo : list Z;
  completed : list Z;
}.
Definition complete (claim : Z) (s : io) : io :=
  MkIo (STDOUT_TX s) (UART0 s) (CHANNEL2_RX s) (CHANNEL2_TX s) (UART2 s) (rx_fifo s) (completed s ++ [claim]).
Definition set_console (x : UartXmit) (u : Uart) (s : io) : io :=
  MkIo x u (CHANNEL2_RX s) (CHANNEL2_TX s) (UART2 s) (rx_fifo s) (completed s).

Definition mei_uart (claim : Z) (s : io) : run io :=
  if claim =? 18 then
    let '(x, u, done_) := console_write_out (STDOUT_TX s) (UART0 s) in
    Val (complete 18 (set_console x (if done_ then set_etbei false u else u) s))
  else if claim =? 20 then
    let not_full := match uart_room (UART2 s) with O => false | S _ => true end in
    '(rx, fifo) ← (match rx_fifo s with
      | [] => Val (CHANNEL2_RX s, [])
      | _ => rx ← drain_uart_buffer (CHANNEL2_RX s) (rx_fifo s); Val (rx, [])
      end);
    '(tx, u) ← (if not_full then dump_uart_buffer (CHANNEL2_TX s) (UART2 s) else Val (CHANNEL2_TX s, UART2 s));
    Val (complete 20 (MkIo (STDOUT_TX s) (UART0 s) rx tx u fifo (completed s)))
  else Val (complete claim s).

(** *** The baud rate *)

Definition APB_FREQ : Z := 200000000.
Definition prescaler (baud_rate : Z) : run Z := if baud_rate =? 0 then Panic else Val (APB_FREQ / 16 / baud_rate).
(** The values that [Uart::new] writes into [dll] and [dlh]. *)
Definition divisor_latch (baud_rate : Z) : run (Z * Z) :=
  p ← prescaler baud_rate;
  let prescaler_low := wrap 8 (Z.shiftr (Z.land p 0x0000ffff) 0) in
  let prescaler_high := wrap 8 (Z.shiftr (Z.land p 0xffff0000) 8) in
  Val (prescaler_low, prescaler_high).
End Console.
Export Console.

(** ** The queue of strings *)

Section console.
Implicit Types (x : UartXmit) (u : Uart) (ss : list (list Z)) (s : list Z).

(** The bytes that are still to be sent. *)
Definition pending x : list Z := drop (index x) (concat (strings x)).
(** The head is not written out, and the index is in it. *)
Definition queue_ok x : Prop :=
  match strings x with [] => index x = 0%nat | s :: _ => (index x < length s)%nat end.

Lemma write_head_spec rest : forall i room sent,
  write_head rest i room sent =
    let n := (length rest `min` room)%nat in
    ((i + n)%nat, (room - n)%nat, sent ++ take n rest, bool_decide (length rest <= room)%nat).
Proof.
  induction rest as [|b rest IH]; intros i room sent; cbn [write_head length].
  - cbn zeta. by rewrite bool_decide_true, take_nil, app_nil_r, Nat.min_0_l, Nat.add_0_r, Nat.sub_0_r by lia.
  - destruct room as [|room]; cbn [write_head].
    + cbn zeta. rewrite Nat.min_0_r, app_nil_r, Nat.add_0_r. by rewrite bool_decide_false by lia.
    + rewrite IH. cbn zeta. rewrite <- Nat.succ_min_distr. cbn [take]. rewrite <- app_assoc.
      by rewrite (bool_decide_ext (S (length rest) <= S room)%nat (length rest <= room)%nat), Nat.add_succ_r by lia.
Qed.
Lemma drop_concat_head s ss i : (i <= length s)%nat -> drop i (concat (s :: ss)) = drop i s ++ concat ss.
Proof. intros Hi. cbn [concat]. by rewrite drop_app_le. Qed.

(** The bytes go out in order, until there is no room or no byte left. *)
Lemma write_strings_spec ss : forall i room sent,
  (match ss with [] => i = 0%nat | s :: _ => (i <= length s)%nat end) ->
  let todo := drop i (concat ss) in
  exists x, write_strings ss i room sent =
    (x, (room - length todo)%nat, sent ++ take room todo, bool_decide (length todo <= room)%nat) /\
    pending x = drop room todo /\ queue_ok x /\ (strings x = [] <-> (length todo <= room)%nat).
Proof.
  induction ss as [|s ss IH]; intros i room sent Hi todo.
  { subst i. exists (MkUartXmit [] 0). unfold todo. cbn [write_strings concat drop length].
    rewrite bool_decide_true by lia. rewrite take_nil, app_nil_r, Nat.sub_0_r, drop_nil.
    split; [done|]. split; [done|]. split; [done|]. split; [lia|done]. }
  unfold todo. rewrite drop_concat_head by done. cbn [write_strings]. rewrite write_head_spec. cbn zeta.
  set (rest := drop i s). rewrite length_app. destruct (decide (length rest <= room)%nat) as [Hle|Hgt].
  - rewrite bool_decide_true by done. rewrite Nat.min_l, (take_ge rest) by lia.
    destruct (IH 0%nat (room - length rest)%nat (sent ++ rest)) as (x & -> & Hp & Hq & Hs); [destruct ss; lia|].
    rewrite drop_0 in *. exists x. split.
    { rewrite (take_app_ge rest), app_assoc, Nat.sub_add_distr by lia.
      by rewrite (bool_decide_ext (length (concat ss) <= room - length rest)%nat (length rest + length (concat ss) <= room)%nat) by lia. }
    split; [by rewrite Hp, (drop_app_ge rest) by lia|]. split; [done|]. rewrite Hs. lia.
  - rewrite bool_decide_false by done. rewrite Nat.min_r by lia. exists (MkUartXmit (s :: ss) (i + room)).
    assert (i + room < length s)%nat as Hin by (unfold rest in Hgt; rewrite length_drop in Hgt; lia). split.
    { rewrite (take_app_le rest), bool_decide_false by lia. by replace (room - room)%nat with (room - (length rest + length (concat ss)))%nat by lia. }
    split; [|split; [exact Hin|split; [done|lia]]].
    unfold pending. cbn [strings index]. rewrite drop_concat_head by lia. rewrite (drop_app_le rest) by lia. unfold rest. by rewrite drop_drop.
Qed.
Lemma console_write_out_spec x u :
  queue_ok x -> exists x', console_write_out x u =
    (x', MkUart (uart_room u - length (pending x)) (uart_sent u ++ take (uart_room u) (pending x)) (uart_etbei u),
     bool_decide (length (pending x) <= uart_room u)%nat) /\
    pending x' = drop (uart_room u) (pending x) /\ queue_ok x' /\ (strings x' = [] <-> (length (pending x) <= uart_room u)%nat).
Proof.
  intros Hq. unfold console_write_out.
  destruct (write_strings_spec (strings x) (index x) (uart_room u) (uart_sent u)) as (x' & -> & Hp & Hq' & Hs).
  { unfold queue_ok in Hq. destruct (strings x); [done|lia]. }
  by exists x'.
Qed.
Lemma queue_empty x : queue_ok x -> (strings x = [] <-> pending x = []).
Proof.
  unfold queue_ok, pending. destruct (strings x) as [|s ss]; intros Hq; [rewrite Hq; done|]. split; [done|].
  rewrite drop_concat_head by lia. intros He. apply (f_equal length) in He. rewrite length_app, length_drop in He. cbn in He. lia.
Qed.

(** *** What can happen to the console *)

Inductive console_op : Type :=
  | CWrite (s : list Z)
  | CRoom (n : nat)       (* the UART has sent from its FIFO: there is room for [n] bytes *)
  | CInterrupt.           (* the transmit interrupt, which comes only if it is enabled *)
Definition console_do (op : console_op) (st : io) : run io :=
  match op with
  | CWrite s => let '(x, u) := write_string s (STDOUT_TX st) (UART0 st) in Val (set_console x u st)
  | CRoom n => Val (set_console (STDOUT_TX st) (MkUart n (uart_sent (UART0 st)) (uart_etbei (UART0 st))) st)
  | CInterrupt => if uart_etbei (UART0 st) then mei_uart 18 st else Val st
  end.
Fixpoint console_run (ops : list console_op) (st : io) : run io :=
  match ops with [] => Val st | op :: ops => st ← console_do op st; console_run ops st end.
Definition written (op : console_op) : list Z := match op with CWrite s => s | _ => [] end.

(** The invariant: [all] was written so far; if something is left, the interrupt is enabled. *)
Record console_inv (all : list Z) (st : io) : Prop := {
  ci_queue : queue_ok (STDOUT_TX st);
  ci_order : uart_sent (UART0 st) ++ pending (STDOUT_TX st) = all;
  ci_armed : strings (STDOUT_TX st) <> [] -> uart_etbei (UART0 st) = true;
}.
Lemma write_out_inv all st x u fin e :
  queue_ok (STDOUT_TX st) -> uart_sent (UART0 st) ++ pending (STDOUT_TX st) = all ->
  console_write_out (STDOUT_TX st) (UART0 st) = (x, u, fin) -> (fin = false -> e = true) ->
  console_inv all (set_console x (set_etbei e u) st).
Proof.
  intros Hq Ho Hw He. destruct (console_write_out_spec (STDOUT_TX st) (UART0 st) Hq) as (x' & Hw' & Hp & Hq' & Hs).
  rewrite Hw in Hw'. injection Hw' as -> -> ->. split; [done| |].
  - cbn. by rewrite Hp, <- app_assoc, take_drop.
  - cbn. intros Hne. apply He. apply bool_decide_eq_false. intros Hle. apply Hne. by apply Hs.
Qed.
Lemma console_step all op st :
  console_inv all st -> exists st', console_do op st = Val st' /\ console_inv (all ++ written op) st'.
Proof.
  intros Hi. pose proof Hi as [Hq Ho Ha]. destruct op as [s|n|]; cbn [console_do written].
  - unfold write_string. set (x := MkUartXmit _ _).
    assert (queue_ok x \/ strings (STDOUT_TX st) = [] /\ s = []) as [Hqx|[He ->]].
    { unfold queue_ok in *. subst x. cbn. destruct (strings (STDOUT_TX st)) as [|s0 ss]; [|by left]. cbn.
      destruct s; [by right|left; cbn; lia]. }
    + assert (pending x = pending (STDOUT_TX st) ++ s) as Hpx.
      { unfold pending. subst x. cbn [strings index]. rewrite concat_app. cbn [concat]. rewrite app_nil_r. apply drop_app_le.
        unfold queue_ok in Hq. destruct (strings (STDOUT_TX st)); [lia|]. cbn [concat]. rewrite length_app. lia. }
      destruct (console_write_out x (UART0 st)) as [[x' u'] fin] eqn:Hw. eexists. split; [reflexivity|].
      assert (forall e, (if fin then u' else set_etbei true u') = set_etbei e u' -> (fin = false -> e = true) ->
        console_inv (all ++ s) (set_console x' (if fin then u' else set_etbei true u') st)) as Hinv.
      { intros e -> He. apply (write_out_inv (all ++ s) (set_console x (UART0 st) st) x' u' fin e); [done| |done|done].
        change (uart_sent (UART0 st) ++ pending x = all ++ s). by rewrite Hpx, app_assoc, Ho. }
      destruct fin; [apply (Hinv (uart_etbei u')); [by destruct u'|done]|by apply (Hinv true)].
    + unfold queue_ok in Hq. rewrite He in Hq. subst x. rewrite He, Hq. cbn [app]. unfold console_write_out. cbn.
      eexists. split; [reflexivity|]. split; [done| |done]. unfold pending in Ho. rewrite He, Hq in Ho.
      cbn in Ho |- *. rewrite !app_nil_r in *. exact Ho.
  - eexists. split; [reflexivity|]. rewrite app_nil_r. by split.
  - rewrite app_nil_r. destruct (uart_etbei (UART0 st)) eqn:He; [|by exists st].
    unfold mei_uart. cbn [Z.eqb Pos.eqb]. destruct (console_write_out _ _) as [[x' u'] fin] eqn:Hw. eexists. split; [reflexivity|].
    assert (uart_etbei u' = true) as Hu.
    { destruct (console_write_out_spec _ (UART0 st) Hq) as (? & Hw' & _). rewrite Hw in Hw'. by injection Hw' as _ -> _. }
    assert (console_inv all (set_console x' (if fin then set_etbei false u' else u') st)) as [H1 H2 H3].
    { destruct fin; [by apply (write_out_inv all st x' u' true)|]. replace u' with (set_etbei true u') by (destruct u'; cbn in *; by subst).
      by apply (write_out_inv all st x' u' false). }
    by split.
Qed.
Lemma console_run_inv ops all st :
  console_inv all st -> exists st', console_run ops st = Val st' /\ console_inv (all ++ concat (map written ops)) st'.
Proof.
  revert all st. induction ops as [|op ops IH]; intros all st Hi; cbn [console_run map concat].
  { exists st. by rewrite app_nil_r. }
  destruct (console_step all op st Hi) as (st1 & -> & Hi1). rewrite run_bind_Val, app_assoc. by apply IH.
Qed.

(** Room for [n] bytes, and the interrupt if it is enabled. *)
Lemma console_drain n all st :
  console_inv all st -> exists st', console_run [CRoom n; CInterrupt] st = Val st' /\ console_inv all st' /\
    pending (STDOUT_TX st') = drop n (pending (STDOUT_TX st)) /\
    ((length (pending (STDOUT_TX st)) <= n)%nat -> uart_etbei (UART0 st') = false).
Proof.
  intros Hi. destruct (console_run_inv [CRoom n; CInterrupt] all st Hi) as (st' & Hr & Hi'). cbn [map written concat app] in Hi'.
  rewrite app_nil_r in Hi'. exists st'. split; [done|]. split; [done|]. destruct Hi as [Hq Ho Ha].
  cbn [console_run console_do] in Hr. rewrite run_bind_Val in Hr. cbn [set_console UART0 STDOUT_TX uart_etbei] in Hr.
  destruct (uart_etbei (UART0 st)) eqn:He.
  - unfold mei_uart in Hr. cbn [Z.eqb Pos.eqb set_console UART0 STDOUT_TX uart_sent] in Hr.
    destruct (console_write_out_spec (STDOUT_TX st) (MkUart n (uart_sent (UART0 st)) true) Hq) as (x' & Hw & Hp & _). rewrite Hw in Hr.
    cbn [uart_room] in *. injection Hr as <-. split; [exact Hp|]. intros Hle. by rewrite bool_decide_true.
  - injection Hr as <-. cbn [set_console UART0 STDOUT_TX uart_etbei]. split; [|done].
    assert (pending (STDOUT_TX st) = []) as ->; [|by rewrite drop_nil].
    apply queue_empty; [done|]. destruct (strings (STDOUT_TX st)); [done|]. by specialize (Ha ltac:(done)).
Qed.
Lemma console_drains rooms all st :
  console_inv all st -> (length (pending (STDOUT_TX st)) <= sum_list rooms)%nat ->
  exists st', console_run (concat (map (fun n => [CRoom n; CInterrupt]) rooms)) st = Val st' /\ console_inv all st' /\
    pending (STDOUT_TX st') = [] /\ (rooms <> [] -> uart_etbei (UART0 st') = false).
Proof.
  revert st. induction rooms as [|n rooms IH]; intros st Hi Hle.
  { exists st. split; [done|]. split; [done|]. split; [|done]. cbn in Hle. destruct (pending (STDOUT_TX st)); [done|cbn in Hle; lia]. }
  destruct (console_drain n all st Hi) as (st1 & Hr & Hi1 & Hp & He). cbn [sum_list] in Hle.
  destruct (IH st1 Hi1) as (st2 & Hr2 & Hi2 & Hp2 & He2); [rewrite Hp, length_drop; cbn in Hle; lia|].
  exists st2. split.
  { cbn [map concat]. revert Hr. cbn [app console_run]. destruct (console_do (CRoom n) st) as [sa|]; [|done]. rewrite !run_bind_Val.
    destruct (console_do CInterrupt sa) as [sb|]; [|done]. rewrite !run_bind_Val. intros [= ->]. exact Hr2. }
  split; [done|]. split; [done|]. intros _. destruct rooms as [|m rooms]; [|by apply He2].
  injection Hr2 as <-. apply He. cbn in Hle. lia.
Qed.
End console.

(** ** The claims *)


Definition demo_io : io := MkIo uart_xmit_new (MkUart 2 [] false) recv_new xmit_new (MkUart 16 [] false) [] [].

(** Which part of the state an external interrupt touches: UART0 that of the
    console, UART2 that of the PPP channels, any other none; and the claim is
    given back once in every case. *)
Theorem mei_uart_routes claim s s' :
  mei_uart claim s = Val s' ->
  completed s' = completed s ++ [claim] /\
  (claim <> 18 -> STDOUT_TX s' = STDOUT_TX s /\ UART0 s' = UART0 s) /\
  (claim <> 20 -> CHANNEL2_RX s' = CHANNEL2_RX s /\ CHANNEL2_TX s' = CHANNEL2_TX s /\ UART2 s' = UART2 s /\ rx_fifo s' = rx_fifo s) /\
  (claim = 20 -> rx_fifo s' = [] /\ (uart_room (UART2 s) = 0%nat -> CHANNEL2_TX s' = CHANNEL2_TX s)).
Proof.
  unfold mei_uart. destruct (Z.eqb_spec claim 18) as [->|H18].
  { destruct (console_write_out _ _) as [[x u] fin]. intros [= <-]. by destruct fin. }
  destruct (Z.eqb_spec claim 20) as [->|H20]; [|by intros [= <-]].
  intros ([rx fifo] & Hrx & Hr)%run_bind_inv. apply run_bind_inv in Hr as ([tx u] & Htx & [= <-]). cbn.
  split; [done|]. split; [done|]. split; [done|]. intros _. split.
  - destruct (rx_fifo s); [by injection Hrx|]. by apply run_bind_inv in Hrx as (? & _ & [= _ <-]).
  - intros H0. rewrite H0 in Htx. by injection Htx.
Qed.

Lemma mei_uart_routes_witness :
  exists s', mei_uart 20 (MkIo uart_xmit_new (MkUart 2 [] false) recv_new xmit_new (MkUart 16 [] false) [0x7e; 1; 2] []) = Val s' /\
  completed s' = [] ++ [20] /\
  (20 <> 18 -> STDOUT_TX s' = uart_xmit_new /\ UART0 s' = MkUart 2 [] false) /\
  (20 <> 20 -> CHANNEL2_RX s' = recv_new /\ CHANNEL2_TX s' = xmit_new /\ UART2 s' = MkUart 16 [] false /\ rx_fifo s' = [0x7e; 1; 2]) /\
  (20 = 20 -> rx_fifo s' = [] /\ (16%nat = 0%nat -> CHANNEL2_TX s' = xmit_new)).
Proof.
  destruct (mei_uart 20 (MkIo uart_xmit_new (MkUart 2 [] false) recv_new xmit_new (MkUart 16 [] false) [0x7e; 1; 2] [])) as [s'|] eqn:Hm;
    [|by vm_compute in Hm].
  exists s'. split; [done|]. exact (mei_uart_routes 20 _ s' Hm).
Defined.

(** The high byte of the divisor is always zero, because the shift that should
    bring bits 8 to 15 down is applied to bits 16 to 31: a baud rate is set right
    only if the divisor fits one byte, that is above 48828 baud. *)
Theorem divisor_high_lost baud_rate :
  0 < baud_rate -> exists low, divisor_latch baud_rate = Val (low, 0) /\ low = APB_FREQ / 16 / baud_rate mod 256 /\
    (low = APB_FREQ / 16 / baud_rate <-> 48828 < baud_rate).
Proof.
  intros Hb. unfold divisor_latch, prescaler. rewrite (proj2 (Z.eqb_neq _ 0)) by lia. rewrite run_bind_Val.
  change (APB_FREQ / 16) with 12500000. set (p := 12500000 / baud_rate).
  assert (0 <= p <= 12500000) as Hp by (unfold p; split; [apply Z.div_pos; lia|apply Z.div_le_upper_bound; nia]).
  exists (p mod 256).
  assert (wrap 8 (Z.shiftr (Z.land p 0xffff0000) 8) = 0) as ->.
  { unfold wrap. apply Z.bits_inj'. intros i Hi. rewrite Z.bits_0. destruct (Z.lt_ge_cases i 8).
    - rewrite Z.mod_pow2_bits_low, Z.shiftr_spec, Z.land_spec by done.
      change 0xffff0000 with (Z.shiftl (Z.ones 16) 16). rewrite (Z.shiftl_spec_low _ 16) by lia. apply andb_false_r.
    - by rewrite Z.mod_pow2_bits_high by lia. }
  assert (wrap 8 (Z.shiftr (Z.land p 0xffff) 0) = p mod 256) as ->.
  { rewrite Z.shiftr_0_r. change 0xffff with (Z.ones 16). rewrite Z.land_ones by lia. unfold wrap.
    change (2 ^ 16) with (2 ^ 8 * 256). rewrite Z.rem_mul_r, (Z.mul_comm (2 ^ 8)), Z.mod_add by lia. by rewrite Z.mod_mod. }
  split; [done|]. split; [done|]. pose proof (Z.div_mod 12500000 baud_rate ltac:(lia)) as Hd. fold p in Hd.
  pose proof (Z.mod_pos_bound 12500000 baud_rate Hb). split.
  - intros He. pose proof (Z.mod_pos_bound p 256 ltac:(lia)). nia.
  - intros Hlt. apply Z.mod_small. nia.
Qed.

Lemma divisor_high_lost_witness :
  exists low, divisor_latch 9600 = Val (low, 0) /\ low = APB_FREQ / 16 / 9600 mod 256 /\ (low = APB_FREQ / 16 / 9600 <-> 48828 < 9600).
Proof. apply (divisor_high_lost 9600). lia. Defined.
