(* ===== verification/RiscvTime.v ===== *)
(** Time and critical sections of the RISC-V device:
    [device/antimony/src/arch/time.rs], [smoltcp_now] of
    [device/antimony/src/lib.rs], [device/antimony/src/critical_section.rs].

    The time register is a 64-bit reading at each call. *)
From S2P Require Import Prelude Interrupts.

Module RiscvTime.

(** A [Duration] is its nanoseconds. *)
Definition instant_sub (a b : Z) : Z := wrap 64 (wrap 64 (a - b) * 45).
Definition from_millis (millis : Z) : Z := millis * 1000000.
Definition from_micros (micros : Z) : Z := micros * 1000.

(** [while (now() - start) > d {}], [time] being the readings: the number of the
    reading that ended it. *)
Fixpoint delay_loop (fuel : nat) (time : nat -> Z) (start d : Z) (k : nat) : option nat :=
  match fuel with
  | O => None
  | S fuel => if d <? instant_sub (time k) start then delay_loop fuel time start d (S k) else Some k
  end.
Definition delay (fuel : nat) (time : nat -> Z) (millis : Z) : option nat :=
  delay_loop fuel time (time 0%nat) (from_millis millis) 1.
Definition delay_micros_riscv (fuel : nat) (time : nat -> Z) (micros : Z) : option nat :=
  delay_loop fuel time (time 0%nat) (from_micros micros) 1.

(** The microseconds since [GENESIS], as [i64]. *)
Definition smoltcp_now (now GENESIS : Z) : run Z :=
  let micros := instant_sub now GENESIS / 1000 in
  if micros <? 2 ^ 63 then Val micros else Panic.

(** *** Critical sections: bit 3 of [mstatus] *)

Definition hart_acquire (mstatus : Z) : Z * bool :=
  (Z.land mstatus (Z.lxor 8 (Z.ones 64)), negb (Z.land mstatus 8 =? 0)).
Definition hart_release (was_active : bool) (mstatus : Z) : Z := if was_active then Z.lor mstatus 8 else mstatus.
End RiscvTime.
Export RiscvTime.

Section time.
(** The time register counts, and does not overflow in the time that is looked at. *)
Context (time : nat -> Z).
Hypothesis counts : forall k, 0 <= time k <= time (S k).

Lemma time_le j k : (j <= k)%nat -> time j <= time k.
Proof. induction 1; [lia|]. pose proof (counts m). lia. Qed.
Lemma instant_sub_exact a b : 0 <= (a - b) * 45 < 2 ^ 64 -> instant_sub a b = (a - b) * 45.
Proof. intros H. unfold instant_sub, wrap. rewrite (Z.mod_small (a - b)), Z.mod_small by lia. done. Qed.

(** The loop goes on while the time is over: once it has begun to turn it does not
    end before the multiplication overflows. *)
Lemma delay_loop_stuck fuel d k :
  d < (time k - time 0%nat) * 45 -> (forall j, (j < k + fuel)%nat -> (time j - time 0%nat) * 45 < 2 ^ 64) ->
  delay_loop fuel time (time 0%nat) d k = None.
Proof.
  revert k. induction fuel as [|fuel IH]; intros k Hd Hov; [done|]. cbn [delay_loop].
  pose proof (time_le 0 k ltac:(lia)). pose proof (Hov k ltac:(lia)). rewrite instant_sub_exact by lia.
  rewrite (proj2 (Z.ltb_lt _ _)) by done. apply IH; [pose proof (counts k); lia|]. intros j Hj. apply Hov. lia.
Qed.
End time.

(** ** The claims *)

(** The delays do the opposite of waiting, since the condition of their loop is
    the wrong way round: if the time is not over at the first reading after the
    start, they return at that reading, and if it is, they do not return until
    the time register has counted for so long that the nanoseconds overflow. *)
Theorem delay_inverted time millis fuel :
  (forall k, 0 <= time k <= time (S k)) -> 0 <= millis ->
  (forall j, (j <= S fuel)%nat -> (time j - time 0%nat) * 45 < 2 ^ 64) ->
  delay (S fuel) time millis = if (time 1%nat - time 0%nat) * 45 <=? millis * 1000000 then Some 1%nat else None.
Proof.
  intros Hc Hm Hov. unfold delay, from_millis. pose proof (time_le time Hc 0 1 ltac:(lia)). pose proof (Hov 1%nat ltac:(lia)).
  destruct (Z.leb_spec ((time 1%nat - time 0%nat) * 45) (millis * 1000000)) as [Hle|Hgt].
  - cbn [delay_loop]. rewrite instant_sub_exact by lia. by rewrite (proj2 (Z.ltb_ge _ _)).
  - apply delay_loop_stuck; [done|done|]. intros j Hj. apply Hov. lia.
Qed.

(** [delay(100)], read every 450 ns: it is over after the first reading. *)
Lemma delay_inverted_witness :
  let time k := 5000 + 10 * Z.of_nat k in
  delay (S 1000) time 100 = if (time 1%nat - time 0%nat) * 45 <=? 100 * 1000000 then Some 1%nat else None.
Proof. apply (delay_inverted (fun k => 5000 + 10 * Z.of_nat k) 100 1000); lia. Defined.

(** The clock of the network stack never panics, counts the microseconds since
    the start as long as the nanoseconds fit 64 bits (13 years), and never runs
    backwards in that time. *)
Theorem smoltcp_now_counts GENESIS now :
  exists t, smoltcp_now now GENESIS = Val t /\ 0 <= t < 2 ^ 63 /\
    (GENESIS <= now -> (now - GENESIS) * 45 < 2 ^ 64 -> t = (now - GENESIS) * 45 / 1000 /\
      forall now', now <= now' -> (now' - GENESIS) * 45 < 2 ^ 64 -> exists t', smoltcp_now now' GENESIS = Val t' /\ t <= t').
Proof.
  assert (forall x, smoltcp_now x GENESIS = Val (instant_sub x GENESIS / 1000) /\ 0 <= instant_sub x GENESIS / 1000 < 2 ^ 63) as Hv.
  { intros x. unfold smoltcp_now. pose proof (wrap_fits 64 (wrap 64 (x - GENESIS) * 45) ltac:(lia)) as [H0 H1]. fold (instant_sub x GENESIS) in *.
    assert (0 <= instant_sub x GENESIS / 1000 < 2 ^ 63) as Hb by (split; [apply Z.div_pos; lia|apply Z.div_lt_upper_bound; lia]).
    by rewrite (proj2 (Z.ltb_lt _ _)) by lia. }
  exists (instant_sub now GENESIS / 1000). destruct (Hv now) as [Hn Hb]. split; [done|]. split; [done|]. intros Hle Hov.
  rewrite (instant_sub_exact now) by lia. split; [done|]. intros now' Hle' Hov'. destruct (Hv now') as [Hn' _]. eexists. split; [exact Hn'|].
  rewrite instant_sub_exact by lia. apply Z.div_le_mono; lia.
Qed.

Lemma acquire_bit m i : fits 64 m -> 0 <= i -> Z.testbit (fst (hart_acquire m)) i = Z.testbit m i && negb (i =? 3).
Proof.
  intros Hm Hi. cbn [hart_acquire fst]. rewrite Z.land_spec, Z.lxor_spec. change 8 with (2 ^ 3). rewrite Z.pow2_bits_eqb by lia.
  rewrite (Z.eqb_sym 3 i). destruct (Z.lt_ge_cases i 64).
  - rewrite Z.ones_spec_low by lia. by rewrite xorb_true_r.
  - by rewrite (fits_testbit 64 m) by (done || lia).
Qed.
Lemma acquire_active m : snd (hart_acquire m) = Z.testbit m 3.
Proof. cbn [hart_acquire snd]. change 8 with (2 ^ 3). rewrite land_bit by lia. apply negb_involutive. Qed.
Lemma acquire_fits m : fits 64 m -> fits 64 (fst (hart_acquire m)).
Proof. intros Hm. apply land_fits; [lia|apply Hm|]. by vm_compute. Qed.

(** Nested critical sections restore the interrupt enable bit: inside of them
    interrupts are off, a second section changes nothing at its begin or end,
    behind the first the status is as before, and no section touches another bit. *)
Theorem riscv_sections_restore m :
  fits 64 m ->
  let '(m1, t1) := hart_acquire m in
  let '(m2, t2) := hart_acquire m1 in
  Z.testbit m1 3 = false /\ m2 = m1 /\ hart_release t2 m2 = m1 /\ hart_release t1 m1 = m /\
  forall n, 0 <= n -> n <> 3 -> Z.testbit m1 n = Z.testbit m n.
Proof.
  intros Hm. rewrite (surjective_pairing (hart_acquire m)). set (m1 := fst (hart_acquire m)).
  rewrite (surjective_pairing (hart_acquire m1)), !acquire_active.
  assert (fits 64 m1) as Hm1 by (by apply acquire_fits).
  assert (Z.testbit m1 3 = false) as H3 by (unfold m1; rewrite acquire_bit by (done || lia); apply andb_false_r).
  assert (fst (hart_acquire m1) = m1) as ->.
  { apply Z.bits_inj'. intros i Hi. rewrite acquire_bit by done. destruct (Z.eqb_spec i 3) as [->|]; [by rewrite H3|by rewrite andb_true_r]. }
  split; [done|]. split; [done|]. split; [by rewrite H3|]. split.
  - apply Z.bits_inj'. intros i Hi. unfold hart_release. destruct (Z.testbit m 3) eqn:He.
    + rewrite Z.lor_spec. unfold m1. rewrite acquire_bit by done. change 8 with (2 ^ 3). rewrite Z.pow2_bits_eqb by lia.
      rewrite (Z.eqb_sym 3 i). destruct (Z.eqb_spec i 3) as [->|]; [by rewrite He|]. by rewrite orb_false_r, andb_true_r.
    + unfold m1. rewrite acquire_bit by done. destruct (Z.eqb_spec i 3) as [->|]; [by rewrite He|]. by rewrite andb_true_r.
  - intros n Hn Hne. unfold m1. rewrite acquire_bit by done. by rewrite (proj2 (Z.eqb_neq n 3)), andb_true_r.
Qed.

Lemma riscv_sections_restore_witness :
  let '(m1, t1) := hart_acquire 0x1888 in
  let '(m2, t2) := hart_acquire m1 in
  Z.testbit m1 3 = false /\ m2 = m1 /\ hart_release t2 m2 = m1 /\ hart_release t1 m1 = 0x1888 /\
  forall n, 0 <= n -> n <> 3 -> Z.testbit m1 n = Z.testbit 0x1888 n.
Proof. apply (riscv_sections_restore 0x1888). by vm_compute. Defined.
