(* ===== verification/Pins.v ===== *)
(** The pins of the RISC-V device: [device/antimony/src/peripherals.rs].

    Which pins are still free is a constant in the type of the [Pinmux], so the
    functions on it run in the compiler, and a panic in them is a type error of
    the program.  The configuration registers are words of the memory. *)
From S2P Require Import Prelude.

Module Pins.

Inductive PinId : Type := PB0 | PB1 | PB8 | PB9 | PD10 | PD11 | PD21 | PD22.
#[export] Instance PinId_eq_dec : EqDecision PinId.
Proof. solve_decision. Defined.
Definition all_pins : list PinId := [PB0; PB1; PB8; PB9; PD10; PD11; PD21; PD22].

(** The functions of [define_pinmux!] that a pin has beside these three. *)
Inductive Func : Type := Input | Output | Disable | UART0_TX | UART0_RX | UART1_TX | UART1_RX | UART2_TX | UART2_RX | UART3_TX | UART3_RX.
Definition func_bits (pin : PinId) (f : Func) : option Z :=
  match pin, f with
  | _, Input => Some 0x0 | _, Output => Some 0x1 | _, Disable => Some 0xf
  | PB0, UART0_TX => Some 6 | PB0, UART2_TX => Some 7
  | PB1, UART0_RX => Some 6 | PB1, UART2_RX => Some 7
  | PB8, UART0_TX => Some 6 | PB8, UART1_TX => Some 7
  | PB9, UART0_RX => Some 6 | PB9, UART1_RX => Some 7
  | PD10, UART3_TX => Some 5 | PD11, UART3_RX => Some 5
  | PD21, UART2_TX => Some 4 | PD22, UART2_RX => Some 4
  | _, _ => None
  end.

(** *** The free pins *)

Definition PinSet : Type := list (option PinId).
Definition PINSET_INITIAL : PinSet := map Some all_pins.
(** The search loop of [Pins::take] from [i] on. *)
Fixpoint take_from (pin : PinId) (ps : PinSet) : run PinSet :=
  match ps with
  | [] => Panic
  | p :: rest =>
    if match p with Some q => bool_decide (pin = q) | None => false end then Val (None :: rest)
    else rest' ← take_from pin rest; Val (p :: rest')
  end.
(** [assign_pins!]: the type of the [Pinmux] that is left. *)
Fixpoint assign_pins (pins : list PinId) (ps : PinSet) : run PinSet :=
  match pins with [] => Val ps | pin :: pins => ps ← take_from pin ps; assign_pins pins ps end.

(** *** Selecting a function *)

(** [stringify!($pin)], as bytes. *)
Definition pin_name (pin : PinId) : list Z :=
  match pin with
  | PB0 => [80; 66; 48] | PB1 => [80; 66; 49] | PB8 => [80; 66; 56] | PB9 => [80; 66; 57]
  | PD10 => [80; 68; 49; 48] | PD11 => [80; 68; 49; 49] | PD21 => [80; 68; 50; 49] | PD22 => [80; 68; 50; 50]
  end.
Definition byte_A : Z := 65.
Definition byte_0 : Z := 48.
(** [(bank_no, bank_offset, cfg_offset)] *)
Definition locate (pin : PinId) : run (Z * Z * Z) :=
  let name := pin_name pin in
  b ← slice_get name 1;
  let bank_no := b - byte_A in
  _ ← rust_assert ((1 <=? bank_no) && (bank_no <=? 6));
  d2 ← slice_get name 2;
  pin_no ← (if bool_decide (3 < length name)%nat then d3 ← slice_get name 3; Val ((d2 - byte_0) * 10 + (d3 - byte_0)) else Val (d2 - byte_0));
  Val (bank_no, pin_no / 8, pin_no mod 8).
Definition cfg_reg_addr (bank_no bank_offset : Z) : Z := 0x02000000 + bank_no * 0x30 + 0x4 * bank_offset.
Definition select (pin : PinId) (f : Z) (m : Z -> Z) : run (Z -> Z) :=
  '(bank_no, bank_offset, cfg_offset) ← locate pin;
  let a := cfg_reg_addr bank_no bank_offset in
  let v_init := m a in
  let v_next := Z.lor (Z.land v_init (Z.lxor (Z.shiftl 0xf (cfg_offset * 4)) (Z.ones 32))) (Z.shiftl f (cfg_offset * 4)) in
  Val (fun x => if x =? a then v_next else m x).
(** The devices of [define_uart!] (number, transmit pin, receive pin), and
    [UartDevice::new]. *)
Definition uart_devices : list (Z * (PinId * Func) * (PinId * Func)) :=
  [(0, (PB0, UART0_TX), (PB1, UART0_RX)); (2, (PB0, UART2_TX), (PB1, UART2_RX)); (0, (PB8, UART0_TX), (PB9, UART0_RX));
   (1, (PB8, UART1_TX), (PB9, UART1_RX)); (2, (PD21, UART2_TX), (PD22, UART2_RX)); (3, (PD10, UART3_TX), (PD11, UART3_RX))].
Definition select_func (pf : PinId * Func) (m : Z -> Z) : run (Z -> Z) := f ← unwrap (func_bits (fst pf) (snd pf)); select (fst pf) f m.
Definition uart_new (d : Z * (PinId * Func) * (PinId * Func)) (m : Z -> Z) : run (Z -> Z) :=
  m ← select_func (snd (fst d)) m; select_func (snd d) m.
End Pins.
Export Pins.

(** ** Taking pins *)

(** [ps] is what is left when [gone] are taken. *)
Definition left (gone : list PinId) : PinSet := map (fun p => if bool_decide (p ∈ gone) then None else Some p) all_pins.

Section pins.
Implicit Types (p q : PinId) (ps : PinSet) (gone : list PinId) (m : Z -> Z) (a n v f i : Z).

Lemma elem_all p : p ∈ all_pins.
Proof. destruct p; decide_now. Qed.
Lemma take_from_map (g : PinId -> option PinId) p l :
  NoDup l -> (forall q, g q = None \/ g q = Some q) ->
  take_from p (map g l) = if bool_decide (p ∈ l /\ g p = Some p) then Val (map (fun q => if bool_decide (q = p) then None else g q) l) else Panic.
Proof.
  intros Hl Hg. induction Hl as [|q l Hq Hl IH]; cbn [map take_from].
  { rewrite bool_decide_false; [done|]. intros [Hin _]. by apply elem_of_nil in Hin. }
  destruct (decide (q = p)) as [->|Hne].
  - destruct (Hg p) as [He|He]; rewrite He.
    + rewrite IH. by rewrite !bool_decide_false by (intros [_ ?]; congruence).
    + rewrite (bool_decide_true (p = p)) by done. rewrite bool_decide_true by (split; [by left|done]). do 2 f_equal.
      apply map_ext_in. intros q Hin%list_elem_of_In. by rewrite bool_decide_false by (by intros ->).
  - assert ((match g q with Some q0 => bool_decide (p = q0) | None => false end) = false) as ->.
    { destruct (Hg q) as [-> | ->]; [done|]. by rewrite bool_decide_false. }
    rewrite IH, (bool_decide_false (q = p)) by done.
    rewrite (bool_decide_ext (p ∈ q :: l /\ g p = Some p) (p ∈ l /\ g p = Some p)) by (rewrite elem_of_cons; split; [intros [[->|?] ?]; done|intros [? ?]; auto]).
    by case_bool_decide.
Qed.
Lemma take_left p gone : take_from p (left gone) = if bool_decide (p ∈ gone) then Panic else Val (left (p :: gone)).
Proof.
  unfold left. rewrite take_from_map; [|decide_now|intros q; case_bool_decide; auto]. destruct (decide (p ∈ gone)) as [Hin|Hout].
  - rewrite (bool_decide_true (p ∈ gone)) by done. by rewrite bool_decide_false by (by intros [_ ?]).
  - rewrite (bool_decide_false (p ∈ gone)) by done. rewrite bool_decide_true by (split; [apply elem_all|done]). f_equal.
    apply map_ext. intros q. destruct (decide (q = p)) as [->|Hne].
    + rewrite !bool_decide_true by (done || by left). done.
    + rewrite (bool_decide_false (q = p)) by done. by rewrite (bool_decide_ext (q ∈ gone) (q ∈ p :: gone)) by (rewrite elem_of_cons; tauto).
Qed.
Lemma assign_left pins gone :
  (exists ps, assign_pins pins (left gone) = Val ps) <-> NoDup pins /\ forall p, p ∈ pins -> p ∉ gone.
Proof.
  revert gone. induction pins as [|p pins IH]; intros gone; cbn [assign_pins].
  { split; [intros _; split; [constructor|by intros q Hq%elem_of_nil]|by eexists]. }
  rewrite take_left, list.NoDup_cons. destruct (decide (p ∈ gone)) as [Hin|Hout].
  - rewrite bool_decide_true by done. split; [by intros [? ?]|]. intros [_ Hn]. exfalso. by apply (Hn p); [left|].
  - rewrite bool_decide_false, run_bind_Val, IH by done. split.
    + intros [Hnd Hn]. split; [split; [|done]|]. { intros Hp. apply (Hn p Hp). by left. }
      intros q [->|Hq]%elem_of_cons; [done|]. intros Hg. apply (Hn q Hq). by right.
    + intros [[Hp Hnd] Hn]. split; [done|]. intros q Hq [->|Hg]%elem_of_cons; [done|]. by apply (Hn q); [right|].
Qed.

(** ** Fields of the configuration registers *)

Definition nibble n v : Z := Z.land (Z.shiftr v (4 * n)) 0xf.
(** The register of a pin and the number of its field. *)
Definition place p : Z * Z := match locate p with Val (b, o, c) => (cfg_reg_addr b o, c) | Panic => (0, 0) end.
Definition field p m : Z := nibble (snd (place p)) (m (fst (place p))).

Lemma locate_place p : exists b o, locate p = Val (b, o, snd (place p)) /\ cfg_reg_addr b o = fst (place p) /\ 0 <= snd (place p) < 8.
Proof. destruct p; do 2 eexists; (split; [reflexivity|]); (split; [reflexivity|]); by vm_compute. Qed.
Lemma place_inj p q : place p = place q -> p = q.
Proof. destruct p, q; intros H; done || (exfalso; revert H; by vm_compute). Qed.

Lemma nibble_bit n v i : 0 <= n -> 0 <= i -> Z.testbit (nibble n v) i = (i <? 4) && Z.testbit v (4 * n + i).
Proof.
  intros Hn Hi. unfold nibble. rewrite Z.land_spec, Z.shiftr_spec by done. change 0xf with (Z.ones 4).
  destruct (Z.ltb_spec i 4); [rewrite Z.ones_spec_low by lia; rewrite andb_true_r; cbn [andb]; f_equal; lia|].
  by rewrite Z.ones_spec_high, andb_false_r by lia.
Qed.
(** [(v & !(0xf << 4c)) | (f << 4c)] *)
Definition with_nibble c f v : Z := Z.lor (Z.land v (Z.lxor (Z.shiftl 0xf (c * 4)) (Z.ones 32))) (Z.shiftl f (c * 4)).
Lemma with_nibble_bit c f v i :
  0 <= c < 8 -> fits 4 f -> fits 32 v -> 0 <= i ->
  Z.testbit (with_nibble c f v) i = if (4 * c <=? i) && (i <? 4 * c + 4) then Z.testbit f (i - 4 * c) else Z.testbit v i.
Proof.
  intros Hc Hf Hv Hi. unfold with_nibble. rewrite Z.lor_spec, Z.land_spec, Z.lxor_spec, !Z.shiftl_spec by done.
  change 0xf with (Z.ones 4). replace (i - c * 4) with (i - 4 * c) by lia.
  destruct (Z.leb_spec (4 * c) i), (Z.ltb_spec i (4 * c + 4)); cbn [andb].
  - rewrite !Z.ones_spec_low by lia. by rewrite andb_false_r.
  - rewrite (Z.ones_spec_high 4), (fits_testbit 4 f), orb_false_r by (done || lia). destruct (Z.lt_ge_cases i 32).
    + by rewrite Z.ones_spec_low, andb_true_r by lia.
    + by rewrite (fits_testbit 32 v) by (done || lia).
  - rewrite (Z.testbit_neg_r (Z.ones 4)), (Z.testbit_neg_r f), orb_false_r, Z.ones_spec_low, andb_true_r by lia. done.
  - lia.
Qed.
Lemma with_nibble_fits c f v : 0 <= c < 8 -> fits 4 f -> fits 32 v -> fits 32 (with_nibble c f v).
Proof.
  intros Hc Hf Hv. apply testbit_fits; [done| |].
  - unfold with_nibble. apply Z.lor_nonneg. split; [|apply Z.shiftl_nonneg, Hf].
    apply Z.land_nonneg. left. apply Hv.
  - intros i Hi. rewrite with_nibble_bit by (done || lia). rewrite (proj2 (Z.ltb_ge i _)) by lia. rewrite andb_false_r.
    by apply (fits_testbit 32).
Qed.
Lemma nibble_with c f v n : 0 <= c < 8 -> 0 <= n -> fits 4 f -> fits 32 v -> nibble n (with_nibble c f v) = if n =? c then f else nibble n v.
Proof.
  intros Hc Hn Hf Hv. apply Z.bits_inj'. intros i Hi. rewrite nibble_bit by done. destruct (Z.ltb_spec i 4); cbn [andb].
  - rewrite with_nibble_bit by (done || lia). destruct (Z.eqb_spec n c) as [->|Hne].
    + rewrite (proj2 (Z.leb_le _ _)), (proj2 (Z.ltb_lt _ _)) by lia. cbn [andb]. f_equal. lia.
    + rewrite nibble_bit, (proj2 (Z.ltb_lt i 4)) by lia. cbn [andb].
      destruct (Z.leb_spec (4 * c) (4 * n + i)), (Z.ltb_spec (4 * n + i) (4 * c + 4)); try done. lia.
  - destruct (Z.eqb_spec n c) as [->|Hne]; [by rewrite (fits_testbit 4 f)|].
    by rewrite nibble_bit, (proj2 (Z.ltb_ge i 4)) by lia.
Qed.

Lemma select_spec p f m :
  fits 4 f -> (forall a, fits 32 (m a)) -> exists m', select p f m = Val m' /\ (forall a, fits 32 (m' a)) /\
    forall a n, 0 <= n -> nibble n (m' a) = if bool_decide ((a, n) = place p) then f else nibble n (m a).
Proof.
  intros Hf Hm. destruct (locate_place p) as (b & o & Hl & Ha & Hc). unfold select. rewrite Hl, run_bind_Val, Ha.
  fold (with_nibble (snd (place p)) f (m (fst (place p)))). eexists. split; [reflexivity|]. split.
  - intros a. cbv beta. destruct (a =? fst (place p)); [by apply with_nibble_fits|done].
  - intros a n Hn. cbv beta. destruct (Z.eqb_spec a (fst (place p))) as [->|Hne].
    + rewrite nibble_with by done. destruct (Z.eqb_spec n (snd (place p))) as [->|Hne].
      * rewrite bool_decide_true; [done|by destruct (place p)].
      * rewrite bool_decide_false; [done|]. intros He. apply Hne. by rewrite <- He.
    + rewrite bool_decide_false; [done|]. intros He. apply Hne. by rewrite <- He.
Qed.

Lemma func_fits p g f : func_bits p g = Some f -> fits 4 f.
Proof. destruct p, g; cbn; intros H; first [discriminate H|injection H as <-; by vm_compute]. Qed.

(** Selecting a function for each of several pins. *)
Fixpoint select_funcs (fs : list (PinId * Func)) m : run (Z -> Z) :=
  match fs with [] => Val m | pf :: fs => m ← select_func pf m; select_funcs fs m end.
Definition has_func (pf : PinId * Func) : Prop := is_Some (func_bits (fst pf) (snd pf)).

Lemma select_funcs_spec fs m :
  NoDup (map fst fs) -> Forall has_func fs -> (forall a, fits 32 (m a)) ->
  exists m', select_funcs fs m = Val m' /\
    (forall pf, pf ∈ fs -> func_bits (fst pf) (snd pf) = Some (field (fst pf) m')) /\
    (forall a n, 0 <= n -> (forall p, p ∈ map fst fs -> (a, n) <> place p) -> nibble n (m' a) = nibble n (m a)).
Proof.
  revert m. induction fs as [|[p g] fs IH]; intros m Hnd Hall Hm; cbn [select_funcs].
  { exists m. split; [done|]. split; [intros pf Hpf; by apply elem_of_nil in Hpf|done]. }
  cbn [map fst] in Hnd. apply list.NoDup_cons in Hnd as [Hp Hnd]. apply list.Forall_cons in Hall as [[f Hf] Hall]. cbn [fst snd] in Hf.
  unfold select_func. cbn [fst snd]. rewrite Hf. cbn [unwrap]. rewrite run_bind_Val.
  destruct (select_spec p f m (func_fits p g f Hf) Hm) as (m1 & -> & Hm1 & Hn1). rewrite run_bind_Val.
  destruct (IH m1 Hnd Hall Hm1) as (m' & -> & Hin & Hout). exists m'. split; [done|].
  destruct (locate_place p) as (b & o & _ & _ & Hc). split.
  - intros pf [->|Hpf]%elem_of_cons; [|by apply Hin]. cbn [fst snd]. rewrite Hf. f_equal. unfold field.
    rewrite Hout, Hn1 by (lia || (intros q Hq Heq; apply Hp; rewrite (place_inj p q); [done|by destruct (place p)])).
    by rewrite bool_decide_true by (by destruct (place p)).
  - intros a n Hn Hne. rewrite Hout, Hn1 by (done || (intros q Hq; apply Hne; by right)).
    rewrite bool_decide_false; [done|]. apply Hne. by left.
Qed.
Lemma assign_nodup pins ps : assign_pins pins PINSET_INITIAL = Val ps -> NoDup pins.
Proof. intros Ha. apply (assign_left pins []). change (left []) with PINSET_INITIAL. by exists ps. Qed.
End pins.

(** ** The claims *)

(** A program that assigns pins has a type exactly if it assigns no pin twice. *)
Theorem assign_pins_typed pins : (exists ps, assign_pins pins PINSET_INITIAL = Val ps) <-> NoDup pins.
Proof.
  change PINSET_INITIAL with (left []). rewrite assign_left. split; [by intros [? _]|]. intros Hnd. split; [done|].
  intros p _ Hn. by apply elem_of_nil in Hn.
Qed.

(** C22: in a program that has a type the devices do not disturb each other's pins:
    after the functions of all assigned pins were selected, in any order, every
    pin has the function that was selected for it, and no other field of any
    configuration register has changed. *)
Theorem typed_pins_keep_functions pins ps fs m :
  assign_pins pins PINSET_INITIAL = Val ps -> map fst fs ⊆+ pins -> Forall has_func fs -> (forall a, fits 32 (m a)) ->
  exists m', select_funcs fs m = Val m' /\
    (forall pf, pf ∈ fs -> func_bits (fst pf) (snd pf) = Some (field (fst pf) m')) /\
    (forall a n, 0 <= n -> (forall p, p ∈ map fst fs -> (a, n) <> place p) -> nibble n (m' a) = nibble n (m a)).
Proof.
  intros Ha%assign_nodup Hsub Hall Hm. apply select_funcs_spec; [|done|done].
  apply submseteq_Permutation in Hsub as [rest Hperm]. rewrite Hperm in Ha. by apply list.NoDup_app in Ha as [? _].
Qed.

(** The program [__kernel_main]: PB8 and PB9 for UART0, PB0 and PB1 for UART2. *)
Lemma typed_pins_keep_functions_witness :
  let fs := [(PB8, UART0_TX); (PB9, UART0_RX); (PB0, UART2_TX); (PB1, UART2_RX)] in
  exists m', select_funcs fs (fun _ => 0x77777777) = Val m' /\
    (forall pf, pf ∈ fs -> func_bits (fst pf) (snd pf) = Some (field (fst pf) m')) /\
    (forall a n, 0 <= n -> (forall p, p ∈ map fst fs -> (a, n) <> place p) -> nibble n (m' a) = nibble n 0x77777777).
Proof.
  intros fs. destruct (assign_pins [PB8; PB9; PB0; PB1] PINSET_INITIAL) as [ps|] eqn:Ha; [|by vm_compute in Ha].
  apply (typed_pins_keep_functions [PB8; PB9; PB0; PB1] ps fs (fun _ => 0x77777777)); [exact Ha|reflexivity| |intros; by vm_compute].
  repeat constructor; eexists; reflexivity.
Defined.

(** Every device of [define_uart!] can be created, on its own pins: the pins have
    the functions that the device names, and all others stay as they are. *)
Theorem uart_new_selects d m :
  d ∈ uart_devices -> (forall a, fits 32 (m a)) ->
  exists m', uart_new d m = Val m' /\
    func_bits (fst (snd (fst d))) (snd (snd (fst d))) = Some (field (fst (snd (fst d))) m') /\
    func_bits (fst (snd d)) (snd (snd d)) = Some (field (fst (snd d)) m') /\
    forall p, p <> fst (snd (fst d)) -> p <> fst (snd d) -> field p m' = field p m.
Proof.
  intros Hd Hm. destruct d as [[u [tx ft]] [rx fr]]. cbn [fst snd].
  assert (NoDup [tx; rx] /\ Forall has_func [(tx, ft); (rx, fr)]) as [Hnd Hall].
  { unfold uart_devices in Hd. rewrite !elem_of_cons, elem_of_nil in Hd.
    destruct_or! Hd; injection Hd as -> -> -> -> ->; (split; [decide_now|repeat constructor; eexists; reflexivity]). }
  destruct (select_funcs_spec [(tx, ft); (rx, fr)] m Hnd Hall Hm) as (m' & Hs & Hin & Hout). exists m'. split.
  { unfold uart_new. cbn [fst snd]. cbn [select_funcs] in Hs. destruct (select_func (tx, ft) m); [|done]. rewrite !run_bind_Val in *.
    by destruct (select_func (rx, fr) _). }
  split; [by apply (Hin (tx, ft)); left|]. split; [by apply (Hin (rx, fr)); right; left|]. intros p Hptx Hprx. unfold field.
  apply Hout; [destruct (locate_place p) as (? & ? & _ & _ & ?); lia|]. intros q Hq Heq.
  assert (p = q) as <- by (apply place_inj; by rewrite <- Heq; destruct (place p)).
  cbn [map fst] in Hq. rewrite !elem_of_cons, elem_of_nil in Hq. by destruct_or! Hq.
Qed.

Lemma uart_new_selects_witness :
  let d := (3, (PD10, UART3_TX), (PD11, UART3_RX)) in
  exists m', uart_new d (fun _ => 0x77777777) = Val m' /\
    func_bits PD10 UART3_TX = Some (field PD10 m') /\ func_bits PD11 UART3_RX = Some (field PD11 m') /\
    forall p, p <> PD10 -> p <> PD11 -> field p m' = field p (fun _ => 0x77777777).
Proof. apply (uart_new_selects (3, (PD10, UART3_TX), (PD11, UART3_RX)) (fun _ => 0x77777777)); [apply list_elem_of_In; do 5 right; left; reflexivity|intros; by vm_compute]. Defined.
