(* ===== verification/RiscvBoot.v ===== *)
(** The start of the RISC-V device: [__kernel_start] and the processor set-up of
    [__kernel_main] ([device/antimony/src/lib.rs]), the control registers of
    [device/antimony/src/arch.rs] with the accesses of [arch/csr.rs], and the
    cache operations of [arch/mem.rs].

    The bit fields are those of the [proc_bitfield] crate, through the interface
    of [RiscvVectors]. *)
From S2P Require Import Prelude Vectors RiscvVectors Interrupts RiscvTime.

Module RiscvBoot.

(** *** [csr.rs]: the new value of the register and what is returned *)

Definition not64 (x : Z) : Z := Z.lxor x (Z.ones 64).
Definition csr_clear_bits (val r : Z) : Z := Z.land r (not64 val).
Definition csr_set_bits (val r : Z) : Z := Z.lor r val.
Definition csr_read_write (val r : Z) : Z * Z := (val, r).
Definition csr_read_set (val r : Z) : Z * Z := (csr_set_bits val r, r).
Definition csr_read_clear (val r : Z) : Z * Z := (csr_clear_bits val r, r).
Definition csr_modify (f : Z -> Z) (r : Z) : Z := f r.

(** The registers that the code below writes. *)
Record csrs : Type := MkCsrs {
  mxstatus : Z;
  mhcr : Z;
  mcor : Z;
  mhint : Z;
  mstatus : Z;
  mie : Z;
}.

Section fields.
Context {BF : BitField}.

(** [with_x(true)] of a field of one bit. *)
Definition with_flag (bit x : Z) : Z := RiscvVectors.set_bits x bit bit 1.
Definition flag (bit x : Z) : bool := bits x bit bit =? 1.

Definition Mxstatus_theadisaee : Z := 22.
Definition Mxstatus_maee : Z := 21.
Definition Mhcr_btb : Z := 6.
Definition Mhcr_bpe : Z := 5.
Definition Mhcr_rs : Z := 4.
Definition Mhcr_de : Z := 1.
Definition Mhcr_ie : Z := 0.
Definition Mcor_btb_inv : Z := 17.
Definition Mcor_bht_inv : Z := 16.
Definition Mcor_clr : Z := 5.
Definition Mcor_inv : Z := 4.
Definition Mcor_cache_sel_d : Z := 1.
Definition Mcor_cache_sel_i : Z := 0.
Definition Mhint_iwpe : Z := 10.
Definition Mhint_ipld : Z := 8.
Definition Mhint_dpld : Z := 2.
Definition Mstatus_mie : Z := 3.
Definition Mie_meie : Z := 11.
Definition Mie_msie : Z := 3.

Definition enable_dcache (c : csrs) : csrs :=
  MkCsrs (mxstatus c) (csr_set_bits (with_flag Mhcr_de 0) (mhcr c)) (mcor c) (csr_set_bits (with_flag Mhint_dpld 0) (mhint c)) (mstatus c) (mie c).
Definition enable_icache (c : csrs) : csrs :=
  MkCsrs (mxstatus c)
    (csr_set_bits (with_flag Mhcr_rs (with_flag Mhcr_btb (with_flag Mhcr_bpe (with_flag Mhcr_ie 0)))) (mhcr c)) (mcor c)
    (csr_set_bits (with_flag Mhint_iwpe (with_flag Mhint_ipld 0)) (mhint c)) (mstatus c) (mie c).

(** The values that the operations set in [mcor], and the loops that wait for the
    processor, [mcor k] being the [k]-th reading. *)
Definition dcache_write_out : Z := with_flag Mcor_clr (with_flag Mcor_cache_sel_d 0).
Definition dcache_invalidate : Z := with_flag Mcor_inv (with_flag Mcor_cache_sel_d 0).
Definition icache_invalidate : Z := with_flag Mcor_btb_inv (with_flag Mcor_bht_inv (with_flag Mcor_inv (with_flag Mcor_cache_sel_i 0))).
Fixpoint sync_loop (busy : Z -> bool) (fuel : nat) (mcor : nat -> Z) (k : nat) : option nat :=
  match fuel with O => None | S fuel => if busy (mcor k) then sync_loop busy fuel mcor (S k) else Some k end.
Definition dcache_write_out_sync := sync_loop (flag Mcor_clr).
Definition dcache_invalidate_sync := sync_loop (flag Mcor_inv).
Definition icache_invalidate_sync := sync_loop (fun r => flag Mcor_inv r || flag Mcor_bht_inv r || flag Mcor_btb_inv r).

(** The interrupts are switched on in a critical section. *)
Definition enable_interrupts (c : csrs) : csrs :=
  let '(m, was_active) := hart_acquire (mstatus c) in
  let m := csr_set_bits (with_flag Mstatus_mie 0) m in
  let e := csr_set_bits (with_flag Mie_msie (with_flag Mie_meie 0)) (mie c) in
  MkCsrs (mxstatus c) (mhcr c) (mcor c) (mhint c) (hart_release was_active m) e.
Definition enable_caches (c : csrs) : csrs :=
  let '(m, was_active) := hart_acquire (mstatus c) in
  let c := MkCsrs (mxstatus c) (mhcr c) (mcor c) (mhint c) m (mie c) in
  let c := enable_icache (enable_dcache c) in
  MkCsrs (mxstatus c) (mhcr c) (mcor c) (mhint c) (hart_release was_active (mstatus c)) (mie c).
End fields.

(** *** [__kernel_start] *)

Fixpoint clear_bss (fuel : nat) (m : Z -> Z) (t0 t1 : Z) : option (Z -> Z) :=
  match fuel with
  | O => None
  | S fuel => if t1 <=? t0 then Some m else clear_bss fuel (fun x => if (t0 <=? x) && (x <? t0 + 8) then 0 else m x) (wrap 64 (t0 + 8)) t1
  end.
(** The registers, the memory and the stack pointer with which [__kernel_main] begins.
    The instruction that sets bits 21 and 22 of [mxstatus] is not among those that
    are assembled: the comment in front of it ends in [*.] instead of the closing
    mark, so it goes on to the end of the next comment, behind the instruction. *)
Definition kernel_start (fuel : nat) (amn_bss_start amn_bss_end amn_stack_end : Z) (c : csrs) (m : Z -> Z) : option (csrs * (Z -> Z) * Z) :=
  let c := MkCsrs (mxstatus c) (mhcr c) 0x30013 (mhint c) (mstatus c) 0 in
  m ← clear_bss fuel m amn_bss_start amn_bss_end;
  Some (c, m, Z.land amn_stack_end (wrap 64 (-16))).
End RiscvBoot.
Export RiscvBoot.

(** ** Flags *)

Section flags.
Context {BF : BitField} {laws : BitFieldLaws BF}.

Lemma with_flag_add bit x : 0 <= bit -> 0 <= x -> Z.testbit x bit = false -> with_flag bit x = x + 2 ^ bit.
Proof.
  intros Hb Hx Ht. unfold with_flag. rewrite set_bits_field by (lia || (replace (bit - bit + 1) with 1 by lia; by vm_compute)).
  replace (bit - bit + 1) with 1 by lia. change (2 ^ 1) with 2. rewrite <- Z.testbit_spec' by done. rewrite Ht. cbn [Z.b2z]. lia.
Qed.
Lemma flag_spec bit x : 0 <= bit -> 0 <= x -> flag bit x = Z.testbit x bit.
Proof.
  intros Hb Hx. unfold flag. rewrite bits_field by lia. replace (bit - bit + 1) with 1 by lia. change (2 ^ 1) with 2.
  rewrite <- Z.testbit_spec' by done. by destruct (Z.testbit x bit).
Qed.
End flags.

(** [with_flag]s on zero compute. *)
Ltac flags_add :=
  repeat match goal with
  | |- context [with_flag ?b ?x] =>
      lazymatch x with context [with_flag _ _] => fail | _ => rewrite (with_flag_add b x) by (lia || by vm_compute) end
  end.
Ltac flags_now := flags_add; reflexivity.

Section boot.
Context {BF : BitField} {laws : BitFieldLaws BF}.

Lemma icache_value : icache_invalidate = 0x30011.
Proof. unfold icache_invalidate, Mcor_btb_inv, Mcor_bht_inv, Mcor_inv, Mcor_cache_sel_i. flags_now. Qed.
Lemma dcache_value : dcache_invalidate = 0x12.
Proof. unfold dcache_invalidate, Mcor_inv, Mcor_cache_sel_d. flags_now. Qed.
Lemma write_out_value : dcache_write_out = 0x22.
Proof. unfold dcache_write_out, Mcor_clr, Mcor_cache_sel_d. flags_now. Qed.
Lemma enable_dcache_eq c :
  enable_dcache c = MkCsrs (mxstatus c) (Z.lor (mhcr c) 0x2) (mcor c) (Z.lor (mhint c) 0x4) (mstatus c) (mie c).
Proof.
  unfold enable_dcache, csr_set_bits, Mhcr_de, Mhint_dpld. flags_add. done.
Qed.
Lemma enable_icache_eq c :
  enable_icache c = MkCsrs (mxstatus c) (Z.lor (mhcr c) 0x71) (mcor c) (Z.lor (mhint c) 0x500) (mstatus c) (mie c).
Proof.
  unfold enable_icache, csr_set_bits, Mhcr_ie, Mhcr_bpe, Mhcr_btb, Mhcr_rs, Mhint_ipld, Mhint_iwpe.
  flags_add. done.
Qed.
Lemma release_acquired m : fits 64 m -> hart_release (snd (hart_acquire m)) (fst (hart_acquire m)) = m.
Proof.
  intros Hm. pose proof (acquire_fits m Hm) as Hf. apply Z.bits_inj'. intros i Hi. rewrite acquire_active. unfold hart_release.
  destruct (Z.testbit m 3) eqn:He.
  - rewrite Z.lor_spec, acquire_bit by done. change 8 with (2 ^ 3). rewrite Z.pow2_bits_eqb by lia.
    rewrite (Z.eqb_sym 3 i). destruct (Z.eqb_spec i 3) as [->|]; [by rewrite He|]. by rewrite orb_false_r, andb_true_r.
  - rewrite acquire_bit by done. destruct (Z.eqb_spec i 3) as [->|]; [by rewrite He|]. by rewrite andb_true_r.
Qed.
Lemma enable_interrupts_mie c i :
  fits 64 (mstatus c) -> 0 <= i -> Z.testbit (mstatus (enable_interrupts c)) i = Z.testbit (mstatus c) i || (i =? 3).
Proof.
  intros Hm Hi. unfold enable_interrupts. rewrite (surjective_pairing (hart_acquire (mstatus c))), acquire_active. cbn [mstatus].
  unfold csr_set_bits, Mstatus_mie. rewrite with_flag_add by (lia || by vm_compute). change (0 + 2 ^ 3) with (2 ^ 3).
  assert (forall x, Z.testbit (Z.lor x (2 ^ 3)) i = Z.testbit x i || (i =? 3)) as Hl.
  { intros x. rewrite Z.lor_spec, Z.pow2_bits_eqb by lia. by rewrite (Z.eqb_sym 3 i). }
  unfold hart_release. change 8 with (2 ^ 3). destruct (Z.testbit (mstatus c) 3); rewrite ?Hl, acquire_bit by done;
    destruct (Z.eqb_spec i 3) as [->|]; rewrite ?andb_true_r, ?orb_false_r, ?orb_true_r; done.
Qed.
End boot.

(** ** Waiting and clearing *)

Lemma sync_loop_spec busy mcor k n :
  (forall j, (j < n)%nat -> busy (mcor (k + j)%nat) = true) -> busy (mcor (k + n)%nat) = false ->
  forall fuel, (n < fuel)%nat -> sync_loop busy fuel mcor k = Some (k + n)%nat.
Proof.
  revert k. induction n as [|n IH]; intros k Hb He [|fuel] Hf; try lia; cbn [sync_loop].
  - rewrite Nat.add_0_r in *. by rewrite He.
  - pose proof (Hb 0%nat ltac:(lia)) as H0. rewrite Nat.add_0_r in H0. rewrite H0.
    rewrite (IH (S k)); [f_equal; lia| | |lia].
    + intros j Hj. replace (S k + j)%nat with (k + S j)%nat by lia. apply Hb. lia.
    + by replace (S k + n)%nat with (k + S n)%nat by lia.
Qed.

Lemma clear_bss_spec n : forall fuel m t0,
  (n < fuel)%nat -> 0 <= t0 -> t0 + 8 * Z.of_nat n < 2 ^ 64 ->
  exists m', clear_bss fuel m t0 (t0 + 8 * Z.of_nat n) = Some m' /\
    forall x, m' x = if bool_decide (t0 <= x < t0 + 8 * Z.of_nat n) then 0 else m x.
Proof.
  induction n as [|n IH]; intros [|fuel] m t0 Hf H0 Hb; try lia; cbn [clear_bss].
  - rewrite (proj2 (Z.leb_le _ _)) by lia. eexists. split; [done|]. intros x. by rewrite bool_decide_false by lia.
  - rewrite (proj2 (Z.leb_gt _ _)), wrap_id by (unfold fits; lia).
    replace (t0 + 8 * Z.of_nat (S n)) with (t0 + 8 + 8 * Z.of_nat n) by lia.
    destruct (IH fuel (fun x => if (t0 <=? x) && (x <? t0 + 8) then 0 else m x) (t0 + 8)) as (m' & -> & Hm'); [lia|lia|lia|].
    eexists. split; [done|]. intros x. rewrite Hm'. destruct (decide (t0 + 8 <= x < t0 + 8 + 8 * Z.of_nat n)).
    + by rewrite !bool_decide_true by lia.
    + rewrite (bool_decide_false (t0 + 8 <= x < _)) by done. destruct (Z.leb_spec t0 x), (Z.ltb_spec x (t0 + 8)); cbn [andb].
      * by rewrite bool_decide_true by lia.
      * by rewrite bool_decide_false by lia.
      * by rewrite bool_decide_false by lia.
      * by rewrite bool_decide_false by lia.
Qed.

(** ** The claims *)

(** What [__kernel_start] leaves behind: the uninitialised data is zero and no
    other memory has changed, the stack pointer is aligned to 16 bytes at the end
    of the stack, no interrupt is enabled, and the value in the cache register is
    the one that invalidates both caches and the branch predictors as the
    functions of [mem.rs] do.  The two extensions that it means to switch on are
    on only if they were before. *)
Theorem kernel_start_spec {BF : BitField} {laws : BitFieldLaws BF} words fuel amn_bss_start amn_stack_end c m :
  0 <= amn_bss_start -> amn_bss_start + 8 * Z.of_nat words < 2 ^ 64 -> (words < fuel)%nat -> fits 64 amn_stack_end ->
  exists c' m' sp, kernel_start fuel amn_bss_start (amn_bss_start + 8 * Z.of_nat words) amn_stack_end c m = Some (c', m', sp) /\
    (forall x, m' x = if bool_decide (amn_bss_start <= x < amn_bss_start + 8 * Z.of_nat words) then 0 else m x) /\
    sp mod 16 = 0 /\ amn_stack_end - 16 < sp <= amn_stack_end /\
    mie c' = 0 /\ mstatus c' = mstatus c /\
    flag Mxstatus_theadisaee (mxstatus c') = flag Mxstatus_theadisaee (mxstatus c) /\
    flag Mxstatus_maee (mxstatus c') = flag Mxstatus_maee (mxstatus c) /\
    mcor c' = Z.lor icache_invalidate dcache_invalidate.
Proof.
  intros H0 Hb Hf Hs. unfold kernel_start. destruct (clear_bss_spec words fuel m amn_bss_start Hf H0 Hb) as (m' & -> & Hm').
  cbn [mbind option_bind]. do 3 eexists. split; [reflexivity|]. split; [done|].
  assert (Z.land amn_stack_end (wrap 64 (-16)) = amn_stack_end - amn_stack_end mod 16) as ->.
  { change (wrap 64 (-16)) with (Z.lxor (Z.ones 64) (Z.ones 4)). change 16 with (2 ^ 4). rewrite <- Z.land_ones by lia.
    assert (amn_stack_end = Z.land amn_stack_end (Z.lxor (Z.ones 64) (Z.ones 4)) + Z.land amn_stack_end (Z.ones 4)) as Hsum; [|lia].
    rewrite Z.add_nocarry_lxor.
    - apply Z.bits_inj'. intros i Hi. rewrite Z.lxor_spec, !Z.land_spec, Z.lxor_spec. destruct (Z.lt_ge_cases i 64).
      + rewrite (Z.ones_spec_low 64) by lia. by destruct (Z.testbit amn_stack_end i), (Z.testbit (Z.ones 4) i).
      + by rewrite (fits_testbit 64 amn_stack_end) by (done || lia).
    - apply Z.bits_inj'. intros i Hi. rewrite !Z.land_spec, Z.lxor_spec, Z.bits_0. destruct (Z.lt_ge_cases i 64).
      + rewrite (Z.ones_spec_low 64) by lia. by destruct (Z.testbit amn_stack_end i), (Z.testbit (Z.ones 4) i).
      + by rewrite (fits_testbit 64 amn_stack_end) by (done || lia). }
  pose proof (Z.div_mod amn_stack_end 16 ltac:(lia)). pose proof (Z.mod_pos_bound amn_stack_end 16 ltac:(lia)).
  split; [replace (amn_stack_end - amn_stack_end mod 16) with (amn_stack_end / 16 * 16) by lia; by apply Z.mod_mul|].
  split; [lia|]. cbn [mie mstatus mxstatus mcor]. do 4 (split; [done|]). by rewrite icache_value, dcache_value.
Qed.

(** After the set-up exactly the five features of the caches and the three of the
    prefetchers are on in addition to what was, and switching on the interrupts
    in a critical section leaves them on, whether they were on before or not. *)
Theorem boot_features {BF : BitField} {laws : BitFieldLaws BF} c :
  fits 64 (mstatus c) -> 0 <= mie c ->
  let c1 := enable_interrupts c in
  let c2 := enable_caches c1 in
  mhcr c2 = Z.lor (mhcr c) 0x73 /\ mhint c2 = Z.lor (mhint c) 0x504 /\ mcor c2 = mcor c /\ mxstatus c2 = mxstatus c /\
  (forall i, 0 <= i -> Z.testbit (mstatus c2) i = Z.testbit (mstatus c) i || (i =? Mstatus_mie)) /\
  (forall i, 0 <= i -> Z.testbit (mie c2) i = Z.testbit (mie c) i || (i =? Mie_meie) || (i =? Mie_msie)).
Proof.
  intros Hm He c1 c2.
  assert (forall i, 0 <= i -> Z.testbit (mstatus c1) i = Z.testbit (mstatus c) i || (i =? 3)) as Hc1 by (intros i Hi; by apply enable_interrupts_mie).
  assert (fits 64 (mstatus c1)) as Hf1.
  { unfold c1, enable_interrupts. rewrite (surjective_pairing (hart_acquire (mstatus c))). cbn [mstatus]. unfold csr_set_bits, Mstatus_mie. flags_add.
    unfold hart_release. pose proof (acquire_fits _ Hm). destruct (snd _); repeat apply lor_fits; done || by vm_compute. }
  unfold c2, enable_caches. rewrite (surjective_pairing (hart_acquire (mstatus c1))). rewrite enable_dcache_eq, enable_icache_eq.
  cbn [mhcr mhint mcor mxstatus mstatus mie]. rewrite release_acquired by done. rewrite <- !Z.lor_assoc.
  assert (mhcr c1 = mhcr c /\ mhint c1 = mhint c /\ mcor c1 = mcor c /\ mxstatus c1 = mxstatus c) as (-> & -> & -> & ->).
  { unfold c1, enable_interrupts. by destruct (hart_acquire (mstatus c)). }
  do 4 (split; [done|]). split; [done|]. intros i Hi. unfold c1, enable_interrupts. destruct (hart_acquire (mstatus c)). cbn [mie].
  unfold csr_set_bits, Mie_msie, Mie_meie. flags_add. change (0 + 2 ^ 11 + 2 ^ 3) with (Z.lor (2 ^ 11) (2 ^ 3)).
  rewrite !Z.lor_spec, !Z.pow2_bits_eqb by lia. by rewrite (Z.eqb_sym 11), (Z.eqb_sym 3), orb_assoc.
Qed.

(** Each wait for the cache hardware ends at the first reading in which the
    operation it waits for is over; that of the instruction cache waits for all
    three of its parts. *)
Theorem cache_syncs_wait {BF : BitField} {laws : BitFieldLaws BF} mcor n fuel :
  (forall k, 0 <= mcor k) -> (n < fuel)%nat ->
  ((forall j, (j < n)%nat -> Z.testbit (mcor j) 5 = true) -> Z.testbit (mcor n) 5 = false ->
    dcache_write_out_sync fuel mcor 0 = Some n) /\
  ((forall j, (j < n)%nat -> Z.testbit (mcor j) 4 = true) -> Z.testbit (mcor n) 4 = false ->
    dcache_invalidate_sync fuel mcor 0 = Some n) /\
  ((forall j, (j < n)%nat -> Z.testbit (mcor j) 4 || Z.testbit (mcor j) 16 || Z.testbit (mcor j) 17 = true) ->
    Z.testbit (mcor n) 4 || Z.testbit (mcor n) 16 || Z.testbit (mcor n) 17 = false ->
    icache_invalidate_sync fuel mcor 0 = Some n).
Proof.
  intros Hm Hf. split_and!; intros Hb He; apply (sync_loop_spec _ mcor 0 n); intros; unfold Mcor_clr, Mcor_inv, Mcor_bht_inv, Mcor_btb_inv;
    rewrite ?flag_spec by (lia || apply Hm); cbn [Nat.add]; auto.
Qed.

(** The bit fields of [proc_bitfield], by arithmetic. *)
Definition demo_bit_field : BitField :=
  {| bits x lo hi := x / 2 ^ lo mod 2 ^ (hi - lo + 1); RiscvVectors.set_bits x lo hi v := x + (v - x / 2 ^ lo mod 2 ^ (hi - lo + 1)) * 2 ^ lo |}.
Lemma demo_laws : BitFieldLaws demo_bit_field.
Proof. split; done. Qed.
Definition demo_csrs : csrs := MkCsrs 0 0x104 0 0 0x1800 0.

Lemma kernel_start_spec_witness :
  let BF := demo_bit_field in
  exists c' m' sp, kernel_start 100 0x40001000 (0x40001000 + 8 * Z.of_nat 64) 0x40010008 demo_csrs (fun x => x) = Some (c', m', sp) /\
    (forall x, m' x = if bool_decide (0x40001000 <= x < 0x40001000 + 8 * Z.of_nat 64) then 0 else x) /\
    sp mod 16 = 0 /\ 0x40010008 - 16 < sp <= 0x40010008 /\
    mie c' = 0 /\ mstatus c' = mstatus demo_csrs /\
    flag Mxstatus_theadisaee (mxstatus c') = flag Mxstatus_theadisaee (mxstatus demo_csrs) /\
    flag Mxstatus_maee (mxstatus c') = flag Mxstatus_maee (mxstatus demo_csrs) /\
    mcor c' = Z.lor icache_invalidate dcache_invalidate.
Proof.
  apply (@kernel_start_spec demo_bit_field demo_laws 64 100 0x40001000 0x40010008 demo_csrs (fun x => x)); [lia|lia|lia|by vm_compute].
Defined.
Lemma boot_features_witness :
  let BF := demo_bit_field in
  let c1 := enable_interrupts demo_csrs in
  let c2 := enable_caches c1 in
  mhcr c2 = Z.lor 0x104 0x73 /\ mhint c2 = Z.lor 0 0x504 /\ mcor c2 = 0 /\ mxstatus c2 = 0 /\
  (forall i, 0 <= i -> Z.testbit (mstatus c2) i = Z.testbit 0x1800 i || (i =? Mstatus_mie)) /\
  (forall i, 0 <= i -> Z.testbit (mie c2) i = Z.testbit 0 i || (i =? Mie_meie) || (i =? Mie_msie)).
Proof. apply (@boot_features demo_bit_field demo_laws demo_csrs); by vm_compute. Defined.
Lemma cache_syncs_wait_witness :
  let BF := demo_bit_field in
  let mcor k := if bool_decide (k < 3)%nat then 0x30011 else 0 in
  ((forall j, (j < 3)%nat -> Z.testbit (mcor j) 5 = true) -> Z.testbit (mcor 3%nat) 5 = false -> dcache_write_out_sync 4 mcor 0 = Some 3%nat) /\
  ((forall j, (j < 3)%nat -> Z.testbit (mcor j) 4 = true) -> Z.testbit (mcor 3%nat) 4 = false -> dcache_invalidate_sync 4 mcor 0 = Some 3%nat) /\
  ((forall j, (j < 3)%nat -> Z.testbit (mcor j) 4 || Z.testbit (mcor j) 16 || Z.testbit (mcor j) 17 = true) ->
    Z.testbit (mcor 3%nat) 4 || Z.testbit (mcor 3%nat) 16 || Z.testbit (mcor 3%nat) 17 = false ->
    icache_invalidate_sync 4 mcor 0 = Some 3%nat).
Proof.
  intros BF mcor. apply (@cache_syncs_wait demo_bit_field demo_laws mcor 3 4); [|lia]. intros k. unfold mcor. by case_bool_decide.
Defined.
