(* ===== verification/HostArgs.v ===== *)
(** The command line of the uploader and its search for a device:
    [host/okdude/src/main.rs].

    Parsing the arguments is [clap]'s; what is modelled is what [parse_args] makes
    of them.  File names are byte strings; whether one is UTF-8 is a parameter. *)
From S2P Require Import Prelude Messages.

Module HostArgs.

Definition DEFAULT_LOAD_ADDRESS : Z := 0x8000.

Inductive ObjectType : Type := OElf | OBin.
#[export] Instance ObjectType_eq_dec : EqDecision ObjectType.
Proof. solve_decision. Defined.

(** *** The search in [/dev] *)

(** ["ttyUSB"], ["ttyACM"], ["tty.usbserial"], ["cu.usbserial"], ["tty,SLAB_USB"], ["cu.SLAB_USB"] *)
Definition PATTERNS : list (list Z) :=
  [[116; 116; 121; 85; 83; 66]; [116; 116; 121; 65; 67; 77];
   [116; 116; 121; 46; 117; 115; 98; 115; 101; 114; 105; 97; 108]; [99; 117; 46; 117; 115; 98; 115; 101; 114; 105; 97; 108];
   [116; 116; 121; 44; 83; 76; 65; 66; 95; 85; 83; 66]; [99; 117; 46; 83; 76; 65; 66; 95; 85; 83; 66]].
Definition starts_with (f pattern : list Z) : bool := bool_decide (take (length pattern) f = pattern).

(** An entry of the directory: what cannot be read is [None]. *)
Record FileMetadata : Type := MkFileMetadata { modified : option Z }.
Record DirEntry : Type := MkDirEntry {
  entry_metadata : option FileMetadata;
  is_char_device : option bool;
  file_name : list Z;
}.

Section search.
Context (utf8 : list Z -> bool).

Definition fits_pattern (name : list Z) : bool :=
  existsb (fun pattern => if utf8 name then starts_with name pattern else false) PATTERNS.
Definition candidate (entry : option DirEntry) : option (DirEntry * FileMetadata) :=
  e ← entry;
  m ← entry_metadata e;
  ft ← is_char_device e;
  if negb ft then None
  else if negb (fits_pattern (file_name e)) then None
  else Some (e, m).
(** [Iterator::max_by_key]: the last of the largest. *)
Fixpoint max_by_key {A} (key : A -> run Z) (best : option (A * Z)) (l : list A) : run (option A) :=
  match l with
  | [] => Val (option_map fst best)
  | a :: l =>
    k ← key a;
    match best with
    | Some (b, kb) => max_by_key key (if k <? kb then Some (b, kb) else Some (a, k)) l
    | None => max_by_key key (Some (a, k)) l
    end
  end.
Definition find_most_recent_tty (dev : option (list (option DirEntry))) : run (option (list Z)) :=
  match dev with
  | None => Val None
  | Some entries =>
    r ← max_by_key (fun em : DirEntry * FileMetadata => unwrap (modified (snd em))) None (omap (M := list) candidate entries);
    Val (option_map (fun em => file_name (fst em)) r)
  end.
End search.

(** *** [parse_args] *)

Record CmdArgs : Type := MkCmdArgs {
  ca_device : option (list Z);
  ca_quiet : bool;
  ca_override_object_type : option ObjectType;
  ca_load_address : option Z;
  ca_file : list Z;
  ca_extension : option (list Z);   (* [file.extension()] *)
  ca_arg : list (list Z);
}.
Record Args : Type := MkArgs {
  a_device : list Z;
  a_quiet : bool;
  a_file : list Z;
  a_format_details : FormatDetails;
  a_args : list (list Z);
}.
(** The messages with which the program ends. *)
Inductive ArgsError : Type := NoDevice | NoObjectType | LoadAddressForElf | ArgForBin.

Definition to_ascii_lowercase (s : list Z) : list Z := map (fun c => if (65 <=? c) && (c <=? 90) then c + 32 else c) s.
Definition extension_hint (ext : option (list Z)) : option ObjectType :=
  os_str ← to_ascii_lowercase <$> ext;
  if bool_decide (os_str = [98; 105; 110]) then Some OBin
  else if bool_decide (os_str = [101; 108; 102]) then Some OElf
  else None.
Definition union_opt {A} (a b : option A) : option A := match a with Some _ => a | None => b end.

Definition parse_args (utf8 : list Z -> bool) (dev : option (list (option DirEntry))) (args : CmdArgs) : run (result Args ArgsError) :=
  device ← (match ca_device args with Some d => Val (Some d) | None => find_most_recent_tty utf8 dev end);
  match device with
  | None => Val (Err NoDevice)
  | Some device =>
    match union_opt (ca_override_object_type args) (extension_hint (ca_extension args)) with
    | None => Val (Err NoObjectType)
    | Some OElf =>
      match ca_load_address args with
      | Some _ => Val (Err LoadAddressForElf)
      | None => Val (Ok (MkArgs device (ca_quiet args) (ca_file args) Elf (ca_arg args)))
      end
    | Some OBin =>
      let load_address := default DEFAULT_LOAD_ADDRESS (ca_load_address args) in
      match ca_arg args with
      | _ :: _ => Val (Err ArgForBin)
      | [] => Val (Ok (MkArgs device (ca_quiet args) (ca_file args) (Bin load_address) (ca_arg args)))
      end
    end
  end.
End HostArgs.
Export HostArgs.

(** ** The most recent device *)

Section max.
Context {A : Type} (key : A -> run Z) (time : A -> Z).

Lemma max_by_key_best l : forall b,
  Forall (fun a => key a = Val (time a)) l ->
  exists m, max_by_key key (Some (b, time b)) l = Val (Some m) /\
    ((m = b /\ Forall (fun a => time a < time b) l) \/
     exists l1 l2, l = l1 ++ m :: l2 /\ time b <= time m /\ Forall (fun a => time a <= time m) l1 /\ Forall (fun a => time a < time m) l2).
Proof.
  induction l as [|a l IH]; intros b Hk; cbn [max_by_key].
  { exists b. split; [done|]. by left. }
  apply list.Forall_cons in Hk as [Ha Hk]. rewrite Ha, run_bind_Val. destruct (Z.ltb_spec (time a) (time b)) as [Hlt|Hge].
  - destruct (IH b Hk) as (m & Hm & [[-> Hl]|(l1 & l2 & -> & Hb & H1 & H2)]); exists m || exists b; (split; [done|]).
    + left. split; [done|]. by constructor.
    + right. exists (a :: l1), l2. split; [done|]. split; [done|]. split; [constructor; [lia|done]|done].
  - destruct (IH a Hk) as (m & Hm & [[-> Hl]|(l1 & l2 & -> & Hb & H1 & H2)]); exists m || exists a; (split; [done|]); right.
    + exists [], l. split; [done|]. split; [done|]. split; [constructor|done].
    + exists (a :: l1), l2. split; [done|]. split; [lia|]. split; [by constructor|done].
Qed.
Lemma max_by_key_spec l :
  Forall (fun a => key a = Val (time a)) l ->
  match l with
  | [] => max_by_key key None l = Val None
  | _ => exists m l1 l2, max_by_key key None l = Val (Some m) /\ l = l1 ++ m :: l2 /\
           Forall (fun a => time a <= time m) l1 /\ Forall (fun a => time a < time m) l2
  end.
Proof.
  destruct l as [|a l]; [done|]. intros [Ha Hk]%list.Forall_cons. cbn [max_by_key]. rewrite Ha, run_bind_Val.
  destruct (max_by_key_best l a Hk) as (m & Hm & [[-> Hl]|(l1 & l2 & -> & Hb & H1 & H2)]).
  - exists a, [], l. split; [done|]. split; [done|]. split; [constructor|done].
  - exists m, (a :: l1), l2. split; [done|]. split; [done|]. split; [by constructor|done].
Qed.
End max.

(** ** The claims *)

(** An entry that counts: a character device whose name has one of the patterns. *)
Definition eligible (utf8 : list Z -> bool) (e : DirEntry) : Prop :=
  is_char_device e = Some true /\ utf8 (file_name e) = true /\ exists pattern, pattern ∈ PATTERNS /\ starts_with (file_name e) pattern = true.
Lemma fits_pattern_spec utf8 name :
  fits_pattern utf8 name = true <-> utf8 name = true /\ exists pattern, pattern ∈ PATTERNS /\ starts_with name pattern = true.
Proof.
  unfold fits_pattern. rewrite existsb_exists. split.
  - intros (p & Hin & Hp). destruct (utf8 name); [|done]. split; [done|]. exists p. split; [by apply list_elem_of_In|done].
  - intros (-> & p & Hin & Hp). exists p. split; [by apply list_elem_of_In|done].
Qed.
Lemma candidate_spec utf8 entry e m :
  candidate utf8 entry = Some (e, m) <-> entry = Some e /\ entry_metadata e = Some m /\ eligible utf8 e.
Proof.
  unfold candidate, eligible. destruct entry as [e0|]; cbn [mbind option_bind negb]; [|split; [done|by intros [? _]]].
  destruct (entry_metadata e0) as [m0|] eqn:Hm; cbn [mbind option_bind negb]; [|split; [done|intros ([= ->] & ? & _); congruence]].
  destruct (is_char_device e0) as [[]|] eqn:Hc; cbn [mbind option_bind negb]; [|split; [done|intros ([= ->] & ? & ? & _); congruence]..].
  destruct (fits_pattern utf8 (file_name e0)) eqn:Hp; cbn [negb].
  - apply fits_pattern_spec in Hp as [Hu Hp]. split; [by intros [= <- <-]|]. intros ([= ->] & ? & _). congruence.
  - split; [done|]. intros ([= ->] & _ & _ & Hp'). apply fits_pattern_spec in Hp'. congruence.
Qed.

Lemma omap_split {A B} (f : A -> option B) l l1 x l2 :
  omap f l = l1 ++ x :: l2 -> exists k1 a k2, l = k1 ++ a :: k2 /\ f a = Some x /\ omap f k1 = l1 /\ omap f k2 = l2.
Proof.
  revert l1. induction l as [|a l IH]; intros l1 Hl; cbn in Hl; [by destruct l1|].
  destruct (f a) as [y|] eqn:Hf.
  - destruct l1 as [|y' l1]; injection Hl as -> Hl.
    + exists [], a, l. done.
    + destruct (IH l1 Hl) as (k1 & a' & k2 & -> & Ha & <- & <-). exists (a :: k1), a', k2. cbn. by rewrite Hf.
  - destruct (IH l1 Hl) as (k1 & a' & k2 & -> & Ha & <- & <-). exists (a :: k1), a', k2. cbn. by rewrite Hf.
Qed.

(** The search for a device finds the last of the most recently changed entries
    of the directory that are character devices with a fitting name, and finds
    nothing only if there is none, provided that their times can be read. *)
Theorem find_most_recent_tty_spec utf8 entries time :
  (forall e m, Some e ∈ entries -> candidate utf8 (Some e) = Some (e, m) -> modified m = Some (time e)) ->
  (find_most_recent_tty utf8 (Some entries) = Val None /\ forall e m, Some e ∈ entries -> entry_metadata e = Some m -> ~ eligible utf8 e) \/
  exists e l1 l2, find_most_recent_tty utf8 (Some entries) = Val (Some (file_name e)) /\ entries = l1 ++ Some e :: l2 /\ eligible utf8 e /\
    (forall e' m', Some e' ∈ l1 -> entry_metadata e' = Some m' -> eligible utf8 e' -> time e' <= time e) /\
    (forall e' m', Some e' ∈ l2 -> entry_metadata e' = Some m' -> eligible utf8 e' -> time e' < time e).
Proof.
  intros Ht. unfold find_most_recent_tty. set (l := omap (candidate utf8) entries).
  assert (Forall (fun em : DirEntry * FileMetadata => unwrap (modified (snd em)) = Val (time (fst em))) l) as Hk.
  { apply list.Forall_forall. intros [e m] Hin. apply list_elem_of_omap in Hin as (entry & He & Hc). cbn.
    pose proof Hc as (-> & _ & _)%candidate_spec. by rewrite (Ht e m He Hc). }
  pose proof (max_by_key_spec (fun em : DirEntry * FileMetadata => unwrap (modified (snd em))) (fun em => time (fst em)) l Hk) as Hmax.
  assert (forall ents e m, Some e ∈ ents -> entry_metadata e = Some m -> eligible utf8 e -> (e, m) ∈ omap (M := list) (candidate utf8) ents) as Hin.
  { intros ents e m He Hm Hel. apply list_elem_of_omap. exists (Some e). split; [done|]. by apply candidate_spec. }
  destruct l as [|em0 l0] eqn:Hl.
  - left. rewrite Hmax. split; [done|]. intros e m He Hm Hel. specialize (Hin entries e m He Hm Hel). fold l in Hin. rewrite Hl in Hin.
    by apply elem_of_nil in Hin.
  - right. destruct Hmax as ([e m] & l1 & l2 & Hr & Hsplit & H1 & H2). rewrite Hr. cbn [option_map fst].
    destruct (omap_split _ _ _ _ _ (eq_trans Hl Hsplit)) as (k1 & entry & k2 & -> & (-> & Hm & Hel)%candidate_spec & <- & <-).
    exists e, k1, k2. split; [done|]. split; [done|]. split; [done|].
    split; intros e' m' He' Hm' Hel'; specialize (Hin _ _ _ He' Hm' Hel').
    + exact (proj1 (list.Forall_forall _ _) H1 _ Hin).
    + exact (proj1 (list.Forall_forall _ _) H2 _ Hin).
Qed.

(** ["tty.SLAB_USBtoUART"] *)
Definition slab_name : list Z := [116; 116; 121; 46; 83; 76; 65; 66; 95; 85; 83; 66; 116; 111; 85; 65; 82; 84].
Definition usb_entry (time : Z) (n : Z) : DirEntry := MkDirEntry (Some (MkFileMetadata (Some time))) (Some true) ([116; 116; 121; 85; 83; 66] ++ [48 + n]).
Lemma find_most_recent_tty_spec_witness :
  let entries := [Some (usb_entry 5 0); None; Some (usb_entry 9 1); Some (MkDirEntry (Some (MkFileMetadata (Some 11))) (Some true) slab_name); Some (usb_entry 9 2)] in
  let utf8 (_ : list Z) := true in
  let time e := match entry_metadata e with Some m => default 0 (modified m) | None => 0 end in
  (find_most_recent_tty utf8 (Some entries) = Val None /\ forall e m, Some e ∈ entries -> entry_metadata e = Some m -> ~ eligible utf8 e) \/
  exists e l1 l2, find_most_recent_tty utf8 (Some entries) = Val (Some (file_name e)) /\ entries = l1 ++ Some e :: l2 /\ eligible utf8 e /\
    (forall e' m', Some e' ∈ l1 -> entry_metadata e' = Some m' -> eligible utf8 e' -> time e' <= time e) /\
    (forall e' m', Some e' ∈ l2 -> entry_metadata e' = Some m' -> eligible utf8 e' -> time e' < time e).
Proof.
  intros entries utf8 time. apply (find_most_recent_tty_spec utf8 entries time).
  intros e m Hin (_ & Hm & _)%candidate_spec. unfold time. rewrite Hm. unfold entries in Hin.
  rewrite !elem_of_cons, elem_of_nil in Hin. destruct_or! Hin; try discriminate Hin; injection Hin as ->; injection Hm as <-; reflexivity.
Defined.

(** A device of the Silicon Labs driver under [tty.] is never found, because the
    pattern for it has a comma in place of the dot. *)
Theorem slab_tty_not_found utf8 e : file_name e = slab_name -> ~ eligible utf8 e.
Proof.
  intros Hn (_ & _ & p & Hin & Hp). rewrite Hn in Hp. unfold PATTERNS in Hin. rewrite !elem_of_cons, elem_of_nil in Hin.
  by destruct_or! Hin; subst p.
Qed.

(** The command line that is accepted is one that the upload can carry out: a
    flat binary has a load address (the given one or 0x8000) and no program
    arguments, an ELF file has no load address; the device is the given one or one
    that the search found.  Otherwise the program ends with one of four messages. *)
Theorem parse_args_spec utf8 dev args :
  (ca_device args = None -> find_most_recent_tty utf8 dev <> Panic) ->
  exists r, parse_args utf8 dev args = Val r /\
  match r with
  | Ok a =>
      (Some (a_device a) = ca_device args \/ ca_device args = None /\ find_most_recent_tty utf8 dev = Val (Some (a_device a))) /\
      a_file a = ca_file args /\ a_args a = ca_arg args /\
      match a_format_details a with
      | Bin load_address => load_address = default DEFAULT_LOAD_ADDRESS (ca_load_address args) /\ a_args a = []
      | Elf => ca_load_address args = None
      end
  | Err NoDevice => ca_device args = None /\ find_most_recent_tty utf8 dev = Val None
  | Err NoObjectType => ca_override_object_type args = None /\ extension_hint (ca_extension args) = None
  | Err LoadAddressForElf => is_Some (ca_load_address args)
  | Err ArgForBin => ca_arg args <> []
  end.
Proof.
  intros Hdev. unfold parse_args. set (found := find_most_recent_tty utf8 dev) in *.
  assert (exists device, (match ca_device args with Some d => Val (Some d) | None => found end) = Val device /\
    (ca_device args = device /\ device <> None \/ ca_device args = None /\ found = Val device)) as (device & -> & Hd).
  { destruct (ca_device args) as [d|]; [by exists (Some d); eauto|]. destruct found as [device|]; [|by destruct (Hdev eq_refl)].
    exists device. auto. }
  rewrite run_bind_Val. destruct device as [device|]; [|eexists; split; [reflexivity|]; by destruct Hd as [[_ ?]|?]].
  assert (Some device = ca_device args \/ ca_device args = None /\ found = Val (Some device)) as Hd'
    by (destruct Hd as [[-> _]|?]; [by left|by right]).
  destruct (union_opt _ _) as [[]|] eqn:Ho.
  - destruct (ca_load_address args) eqn:Hl; eexists; (split; [reflexivity|]); [by eexists|]. by cbn.
  - destruct (ca_arg args) eqn:Ha; eexists; (split; [reflexivity|]); cbn; done.
  - eexists. split; [reflexivity|]. unfold union_opt in Ho. by destruct (ca_override_object_type args).
Qed.

Lemma parse_args_spec_witness :
  let args := MkCmdArgs (Some [116]) false None None [97; 46; 66; 73; 78] (Some [66; 73; 78]) [] in
  let utf8 (_ : list Z) := true in
  exists r, parse_args utf8 None args = Val r /\
  match r with
  | Ok a =>
      (Some (a_device a) = Some [116] \/ Some [116] = None /\ find_most_recent_tty utf8 None = Val (Some (a_device a))) /\
      a_file a = [97; 46; 66; 73; 78] /\ a_args a = [] /\
      match a_format_details a with
      | Bin load_address => load_address = default DEFAULT_LOAD_ADDRESS None /\ a_args a = []
      | Elf => @None Z = None
      end
  | Err NoDevice => Some [116] = None /\ find_most_recent_tty utf8 None = Val None
  | Err NoObjectType => @None ObjectType = None /\ extension_hint (Some [66; 73; 78]) = None
  | Err LoadAddressForElf => is_Some (@None Z)
  | Err ArgForBin => @nil (list Z) <> []
  end.
Proof. apply (parse_args_spec (fun _ => true) None (MkCmdArgs (Some [116]) false None None [97; 46; 66; 73; 78] (Some [66; 73; 78]) [])). discriminate. Defined.
