(* ===== verification/Tty.v ===== *)
(** The serial port of the uploader: [host/okdude/src/tty.rs].

    The calls of the operating system are a script of outcomes, one for each round
    of a loop; [read_exact] and [write_all] are the loops of the standard
    library's [Read] and [Write].  The flags of [termios] are parameters, and so
    is the kind that the standard library gives to an error number. *)
From S2P Require Import Prelude Words.

Module Tty.

Inductive ErrorKind : Type := Interrupted | WouldBlock | TimedOut | BrokenPipe | UnexpectedEof | WriteZero | OtherKind.
#[export] Instance ErrorKind_eq_dec : EqDecision ErrorKind.
Proof. solve_decision. Defined.

Section io.
Context (kind_of_errno : Z -> ErrorKind).

(** *** Reading *)

(** [select] fails, or the port is not readable in time, or [read] fails or reads. *)
Inductive read_os : Type :=
  | SelectFails (errno : Z)
  | NotReadable
  | ReadFails (errno : Z)
  | ReadBytes (bs : list Z).
Definition can_read_timeout (o : read_os) : result bool ErrorKind :=
  match o with
  | SelectFails e => Err (kind_of_errno e)
  | NotReadable => Ok false
  | _ => Ok true
  end.
(** [_read_timeout] and [read], for a buffer of [len] bytes. *)
Definition tty_read_timeout (o : read_os) : result (list Z) ErrorKind :=
  result_bind (can_read_timeout o) (fun ready =>
    if (negb ready : bool) then Err TimedOut
    else match o with ReadFails e => Err (kind_of_errno e) | ReadBytes bs => Ok bs | _ => Ok [] end).
Definition tty_read (len : nat) (o : read_os) : result (list Z) ErrorKind :=
  match len with O => Ok [] | S _ => tty_read_timeout o end.

(** How a loop ends: with a result, with the end of the program, or not in this script. *)
Inductive ending (A : Type) : Type :=
  | Returns (r : result A ErrorKind)
  | Exits
  | Waits.
Arguments Returns {A} r.
Arguments Exits {A}.
Arguments Waits {A}.

Fixpoint read_exact (len : nat) (got : list Z) (script : list read_os) : ending (list Z) * list Z * list read_os :=
  match len with
  | O => (Returns (Ok got), got, script)
  | S _ =>
    match script with
    | [] => (Waits, got, [])
    | o :: script =>
      match tty_read len o with
      | Ok [] => (Returns (Err UnexpectedEof), got, script)
      | Ok bs => read_exact (len - length bs) (got ++ bs) script
      | Err Interrupted => read_exact len got script
      | Err e => (Returns (Err e), got, script)
      end
    end
  end.
(** [inspect_err(pipe_error)] *)
Definition pipe_error {A} (e : ending A) : ending A :=
  match e with Returns (Err BrokenPipe) => Exits | _ => e end.
Definition map_ending {A B} (f : A -> B) (e : ending A) : ending B :=
  match e with Returns (Ok a) => Returns (Ok (f a)) | Returns (Err k) => Returns (Err k) | Exits => Exits | Waits => Waits end.
(** The number, and the bytes that were taken from the port. *)
Definition read32_le (script : list read_os) : ending Z * list Z * list read_os :=
  let '(e, got, script) := read_exact 4 [] script in (map_ending u32_from_le_bytes (pipe_error e), got, script).
Definition read8 (script : list read_os) : ending Z * list Z * list read_os :=
  let '(e, got, script) := read_exact 1 [] script in (map_ending (fun bs => default 0 (bs !! 0%nat)) (pipe_error e), got, script).

(** *** Writing *)

(** [poll] fails, or reports a number of events that is not one, or sets flags. *)
Inductive poll_os : Type :=
  | PollFails (errno : Z)
  | PollCount
  | Revents (out hup nval other : bool).
Inductive write_os : Type :=
  | WriteFails (errno : Z) (eagain : bool)
  | Wrote (n : nat).
Definition can_write (p : poll_os) : result unit ErrorKind :=
  match p with
  | PollFails e => Err (kind_of_errno e)
  | PollCount => Err TimedOut
  | Revents out hup nval other =>
    if out && negb hup && negb nval && negb other then Ok tt
    else if hup || nval then Err BrokenPipe
    else Err OtherKind
  end.
Definition tty_write (pw : poll_os * write_os) : result nat ErrorKind :=
  result_bind (can_write (fst pw)) (fun _ =>
    match snd pw with
    | WriteFails e eagain => if (eagain : bool) then Err WouldBlock else Err (kind_of_errno e)
    | Wrote n => match n with O => Err WouldBlock | S _ => Ok n end
    end).
(** The bytes that the system took are returned too. *)
Fixpoint write_all (buf sent : list Z) (script : list (poll_os * write_os)) : ending unit * list Z :=
  match buf with
  | [] => (Returns (Ok tt), sent)
  | _ =>
    match script with
    | [] => (Waits, sent)
    | pw :: script =>
      match tty_write pw with
      | Ok O => (Returns (Err WriteZero), sent)
      | Ok n => write_all (drop n buf) (sent ++ take n buf) script
      | Err Interrupted => write_all buf sent script
      | Err e => (Returns (Err e), sent)
      end
    end
  end.
Definition write32_le (w : Z) (script : list (poll_os * write_os)) : ending unit * list Z := write_all (u32_to_le_bytes w) [] script.
End io.
Arguments Returns {A} r.
Arguments Exits {A}.
Arguments Waits {A}.

(** *** The settings of the port *)

Record termios : Type := MkTermios {
  c_iflag : Z;
  c_oflag : Z;
  c_cflag : Z;
  c_lflag : Z;
  c_vmin : Z;
  c_vtime : Z;
}.
(** The constants of [libc], as 64-bit words. *)
Record tty_flags : Type := MkFlags {
  IGNBRK : Z; IXON : Z; IXOFF : Z; IXANY : Z;
  ICANON : Z; ECHO : Z; ECHOE : Z; ISIG : Z;
  CSIZE : Z; CS8 : Z; PARENB : Z; CSTOPB : Z; CRTSCTS : Z; CREAD : Z; CLOCAL : Z;
}.
(** [_set_speed], up to the speed itself. *)
Definition set_raw (f : tty_flags) (t : termios) : termios :=
  let iflag := Z.lor (c_iflag t) (IGNBRK f) in
  let iflag := Z.ldiff iflag (Z.lor (Z.lor (IXON f) (IXOFF f)) (IXANY f)) in
  let iflag := Z.ldiff iflag (Z.lor (Z.lor (Z.lor (ICANON f) (ECHO f)) (ECHOE f)) (ISIG f)) in
  let cflag := Z.ldiff (c_cflag t) (CSIZE f) in
  let cflag := Z.lor cflag (CS8 f) in
  let cflag := Z.ldiff cflag (PARENB f) in
  let cflag := Z.ldiff cflag (CSTOPB f) in
  let cflag := Z.ldiff cflag (CRTSCTS f) in
  let cflag := Z.lor cflag (Z.lor (CREAD f) (CLOCAL f)) in
  MkTermios iflag 0 cflag 0 0 0.
End Tty.
Export Tty.

Section tty.
Context (kind_of_errno : Z -> ErrorKind).

(** The bytes that the outcome of a call has delivered. *)
Definition delivered (o : read_os) : list Z := match o with ReadBytes bs => bs | _ => [] end.

(** [read] returns at most as many bytes as it was asked for. *)
Fixpoint reads_fit (len : nat) (script : list read_os) : Prop :=
  match script with
  | [] => True
  | o :: script => (length (delivered o) <= len)%nat /\ reads_fit (len - length (delivered o)) script
  end.

(** What a reading loop that began with [got] has done: it used up some outcomes, took
    all the bytes they delivered, and returns them if they are enough. *)
Definition read_outcome (len : nat) (got : list Z) (script : list read_os) (out : ending (list Z) * list Z * list read_os) : Prop :=
  exists e got' used rest, out = (e, got ++ got', rest) /\ script = used ++ rest /\
    got' = concat (map delivered used) /\ (length got' <= len)%nat /\
    match e with
    | Returns (Ok r) => r = got ++ got' /\ length got' = len
    | Returns (Err _) => (length got' < len)%nat
    | Exits => False
    | Waits => rest = [] /\ (length got' < len)%nat
    end.
Lemma read_stops len got o script k :
  delivered o = [] -> read_outcome (S len) got (o :: script) (Returns (Err k), got, script).
Proof. intros Hd. exists (Returns (Err k)), [], [o], script. rewrite app_nil_r. cbn. rewrite Hd. repeat split; cbn; lia. Qed.
Lemma read_goes_on len got o script out :
  (length (delivered o) <= len)%nat -> read_outcome (len - length (delivered o)) (got ++ delivered o) script out ->
  read_outcome len got (o :: script) out.
Proof.
  intros Hlen (e & got' & used & rest & -> & -> & Hg & Hl & He).
  exists e, (delivered o ++ got'), (o :: used), rest. rewrite app_assoc. split; [done|]. split; [done|]. cbn [map concat]. rewrite <- Hg.
  split; [done|]. rewrite length_app. split; [lia|]. destruct e as [[r|k]| |]; [|lia|done|split; [apply He|lia]].
  destruct He as [-> He]. split; [done|lia].
Qed.
Lemma read_exact_spec script : forall len got, reads_fit len script -> read_outcome len got script (read_exact kind_of_errno len got script).
Proof.
  assert (forall got script, read_outcome 0 got script (read_exact kind_of_errno 0 got script)) as Hzero.
  { intros got sc. exists (Returns (Ok got)), [], [], sc. rewrite app_nil_r. by destruct sc. }
  induction script as [|o script IH]; intros [|len] got Hfit; try by apply Hzero.
  { exists Waits, [], [], []. rewrite app_nil_r. repeat split; cbn; lia. }
  destruct Hfit as [Hlen Hfit]. cbn [read_exact].
  assert (read_outcome (S len) got (o :: script) (read_exact kind_of_errno (S len - length (delivered o)) (got ++ delivered o) script)) as Hgo
    by (apply read_goes_on; [done|by apply IH]).
  destruct o as [errno| |errno|bs]; cbn [tty_read tty_read_timeout can_read_timeout result_bind negb delivered length] in *;
    rewrite ?app_nil_r, ?Nat.sub_0_r in Hgo.
  - destruct (kind_of_errno errno); done || by apply read_stops.
  - by apply read_stops.
  - destruct (kind_of_errno errno); done || by apply read_stops.
  - destruct bs as [|b bs]; [by apply read_stops|done].
Qed.

(** The system takes at most the bytes it is offered. *)
Fixpoint writes_fit (len : nat) (script : list (poll_os * write_os)) : Prop :=
  match script with
  | [] => True
  | pw :: script =>
    match tty_write kind_of_errno pw with
    | Ok n => (n <= len)%nat /\ writes_fit (len - n) script
    | Err _ => writes_fit len script
    end
  end.
Lemma tty_write_positive pw n : tty_write kind_of_errno pw = Ok n -> (0 < n)%nat.
Proof.
  unfold tty_write. intros (u & _ & Hw)%result_bind_ok. destruct (snd pw) as [e []|[|n']]; try done. injection Hw as <-. lia.
Qed.
Lemma write_all_spec script : forall buf sent, writes_fit (length buf) script ->
  exists e more rest, write_all kind_of_errno buf sent script = (e, sent ++ more) /\ buf = more ++ rest /\
    match e with Returns (Ok _) => rest = [] | Returns (Err _) | Waits => rest <> [] | Exits => False end.
Proof.
  induction script as [|pw script IH]; intros [|b buf] sent Hfit.
  1,3: exists (Returns (Ok tt)), [], []; by rewrite app_nil_r.
  { exists Waits, [], (b :: buf). by rewrite app_nil_r. }
  cbn [write_all writes_fit] in *. destruct (tty_write kind_of_errno pw) as [n|k] eqn:Hw.
  - apply tty_write_positive in Hw as Hn. destruct Hfit as [Hle Hfit]. destruct n as [|n]; [lia|].
    rewrite <- length_drop in Hfit. destruct (IH _ (sent ++ take (S n) (b :: buf)) Hfit) as (e & more & rest & -> & Hb & He).
    exists e, (take (S n) (b :: buf) ++ more), rest. rewrite app_assoc. split; [done|].
    rewrite <- app_assoc, <- Hb. split; [by rewrite take_drop|done].
  - destruct (decide (k = Interrupted)) as [->|Hne].
    + destruct (IH _ sent Hfit) as (e & more & rest & -> & Hb & He). by exists e, more, rest.
    + assert (forall x y : ending unit * list Z, match k with Interrupted => x | _ => y end = y) as Hk by (by destruct k).
      exists (Returns (Err k)), [], (b :: buf). rewrite app_nil_r. split; [by destruct k|done].
Qed.
End tty.

(** ** The claims *)

(** Reading a word takes four bytes or fails, and it fails in the middle: what a
    call that fails has taken from the port, up to three bytes, is lost, since
    the error carries no bytes.  The end of the program is the answer to a broken
    pipe only. *)
Theorem read32_le_spec kind_of_errno script :
  reads_fit 4 script ->
  exists e got used rest, read32_le kind_of_errno script = (e, got, rest) /\ script = used ++ rest /\ got = concat (map delivered used) /\
    match e with
    | Returns (Ok w) => length got = 4%nat /\ w = u32_from_le_bytes got
    | Returns (Err k) => (length got <= 3)%nat /\ k <> BrokenPipe
    | Exits => (length got <= 3)%nat
    | Waits => rest = [] /\ (length got <= 3)%nat
    end.
Proof.
  intros Hfit. destruct (read_exact_spec kind_of_errno script 4 [] Hfit) as (e & got & used & rest & Hr & -> & -> & Hl & He).
  unfold read32_le. rewrite Hr. cbn [app]. destruct e as [[r|k]| |]; do 4 eexists; (split; [reflexivity|]); (split; [done|]); (split; [reflexivity|]).
  - destruct He as [-> He]. done.
  - unfold pipe_error. destruct k; cbn [map_ending]; (split; [lia|done]) || lia.
  - done.
  - cbn [pipe_error map_ending]. split; [apply He|lia].
Qed.

(** The first half of a length arrives, the rest does not come in time. *)
Lemma read32_le_spec_witness :
  let script := [ReadBytes [1; 2]; NotReadable] in
  exists e got used rest, read32_le (fun _ => OtherKind) script = (e, got, rest) /\ script = used ++ rest /\ got = concat (map delivered used) /\
    match e with
    | Returns (Ok w) => length got = 4%nat /\ w = u32_from_le_bytes got
    | Returns (Err k) => (length got <= 3)%nat /\ k <> BrokenPipe
    | Exits => (length got <= 3)%nat
    | Waits => rest = [] /\ (length got <= 3)%nat
    end.
Proof. apply (read32_le_spec (fun _ => OtherKind) [ReadBytes [1; 2]; NotReadable]). cbn. lia. Defined.

(** A message is written to the port in order and as a whole, or the call fails
    with a beginning of it written; it never reports the failure to make progress
    that would make the standard library give up. *)
Theorem write_all_prefix kind_of_errno script buf :
  writes_fit kind_of_errno (length buf) script ->
  exists e sent rest, write_all kind_of_errno buf [] script = (e, sent) /\ buf = sent ++ rest /\
    match e with Returns (Ok _) => rest = [] | Returns (Err _) | Waits => rest <> [] | Exits => False end.
Proof. intros Hfit. destruct (write_all_spec kind_of_errno script buf [] Hfit) as (e & more & rest & Hw & Hb & He). by exists e, more, rest. Qed.

Lemma write_all_prefix_witness :
  let script := [(Revents true false false false, Wrote 3); (PollFails 4, Wrote 1); (Revents true false false false, Wrote 2)] in
  exists e sent rest, write_all (fun _ => Interrupted) [1; 2; 3; 4; 5] [] script = (e, sent) /\ [1; 2; 3; 4; 5] = sent ++ rest /\
    match e with Returns (Ok _) => rest = [] | Returns (Err _) | Waits => rest <> [] | Exits => False end.
Proof.
  apply (write_all_prefix (fun _ => Interrupted) [(Revents true false false false, Wrote 3); (PollFails 4, Wrote 1); (Revents true false false false, Wrote 2)] [1; 2; 3; 4; 5]).
  cbn. lia.
Defined.

(** The port is set to raw bytes, eight bits, no parity, one stop bit and no flow
    control, with the receiver on.  Of the input flags, those that are cleared
    include the local-mode flags ICANON, ECHO, ECHOE and ISIG, which are numbers of
    other flags there: breaks are ignored exactly if none of them is the number
    of IGNBRK. *)
Theorem set_raw_spec (f : tty_flags) (t : termios) (i : Z) :
  0 <= i -> Z.land (CS8 f) (Z.lor (Z.lor (PARENB f) (CSTOPB f)) (CRTSCTS f)) = 0 ->
  Z.land (Z.lor (CREAD f) (CLOCAL f)) (Z.lor (Z.lor (CSIZE f) (PARENB f)) (Z.lor (CSTOPB f) (CRTSCTS f))) = 0 ->
  let r := set_raw f t in
  let has (x : Z) := Z.testbit x i in
  c_oflag r = 0 /\ c_lflag r = 0 /\ c_vmin r = 0 /\ c_vtime r = 0 /\
  has (c_cflag r) = (has (CREAD f) || has (CLOCAL f) || has (CS8 f) ||
    has (c_cflag t) && negb (has (CSIZE f) || has (PARENB f) || has (CSTOPB f) || has (CRTSCTS f))) /\
  has (c_iflag r) = ((has (c_iflag t) || has (IGNBRK f)) && negb (has (IXON f) || has (IXOFF f) || has (IXANY f)) &&
    negb (has (ICANON f) || has (ECHO f) || has (ECHOE f) || has (ISIG f))).
Proof.
  intros Hi Hcs Hcr r has. do 4 (split; [done|]). split.
  - apply (f_equal (fun x => Z.testbit x i)) in Hcs, Hcr. rewrite !Z.land_spec, !Z.lor_spec, Z.bits_0 in Hcs, Hcr.
    unfold has, r, set_raw. cbn [c_cflag]. repeat rewrite ?Z.lor_spec, ?Z.ldiff_spec.
    destruct (Z.testbit (CREAD f) i), (Z.testbit (CLOCAL f) i), (Z.testbit (CS8 f) i), (Z.testbit (PARENB f) i), (Z.testbit (CSTOPB f) i),
      (Z.testbit (CRTSCTS f) i), (Z.testbit (CSIZE f) i), (Z.testbit (c_cflag t) i); done.
  - unfold has, r, set_raw. cbn [c_iflag]. by rewrite !Z.ldiff_spec, !Z.lor_spec.
Qed.

(** With the numbers of macOS. *)
Definition macos_flags : tty_flags :=
  {| IGNBRK := 0x1; IXON := 0x200; IXOFF := 0x400; IXANY := 0x800; ICANON := 0x100; ECHO := 0x8; ECHOE := 0x2; ISIG := 0x80;
     CSIZE := 0x300; CS8 := 0x300; PARENB := 0x1000; CSTOPB := 0x400; CRTSCTS := 0x30000; CREAD := 0x800; CLOCAL := 0x8000 |}.
Lemma set_raw_spec_witness :
  let f := macos_flags in
  let t := MkTermios 0x2b02 3 0x4b00 0x5cb 1 0 in
  let r := set_raw f t in
  let has (x : Z) := Z.testbit x 8 in
  c_oflag r = 0 /\ c_lflag r = 0 /\ c_vmin r = 0 /\ c_vtime r = 0 /\
  has (c_cflag r) = (has (CREAD f) || has (CLOCAL f) || has (CS8 f) ||
    has (c_cflag t) && negb (has (CSIZE f) || has (PARENB f) || has (CSTOPB f) || has (CRTSCTS f))) /\
  has (c_iflag r) = ((has (c_iflag t) || has (IGNBRK f)) && negb (has (IXON f) || has (IXOFF f) || has (IXANY f)) &&
    negb (has (ICANON f) || has (ECHO f) || has (ECHOE f) || has (ISIG f))).
Proof. apply (set_raw_spec macos_flags (MkTermios 0x2b02 3 0x4b00 0x5cb 1 0) 8); by vm_compute. Defined.
