(* ===== verification/TtyControl.v ===== *)
(** Opening and configuring the serial port of the uploader: the rest of
    [host/okdude/src/tty.rs].

    The settings of the port are the operating system's; each call answers with a
    return value, and with an error number when it fails.  Reading and writing are in
    [Tty]. *)
From S2P Require Import Prelude Messages Tty.

Module TtyControl.

(** [Duration]: seconds in 64 bits and nanoseconds below 10^9. *)
Record Duration : Type := MkDuration { as_secs : Z; subsec_nanos : Z }.
Definition subsec_micros (t : Duration) : Z := subsec_nanos t / 1000.
Definition duration_ok (t : Duration) : Prop := 0 <= as_secs t < 2 ^ 64 /\ 0 <= subsec_nanos t < 1000000000.
Definition as_nanos (t : Duration) : Z := as_secs t * 1000000000 + subsec_nanos t.

Record Tty : Type := MkTty { fd : Z; default_timeout : Duration; tty_path : list Z }.

(** The port: its settings, the speeds in them, the speed of the line itself, the
    descriptors that are open on it and the bytes that wait in it. *)
Record port : Type := MkPort {
  attributes : termios;
  c_ispeed : Z;
  c_ospeed : Z;
  line_speed : Z;
  open_fds : list Z;
  input_queue : list Z;
  output_queue : list Z;
}.
Inductive ClearBuffer : Type := Input | Output | All.
(** The queue that [tcflush] empties, and when [tcsetattr] takes effect. *)
Inductive queue_selector : Type := TCIFLUSH | TCOFLUSH | TCIOFLUSH.
Inductive tcsa_mode : Type := TCSANOW | TCSADRAIN.

(** The answers of the system. *)
Record answers : Type := MkAnswers {
  open_answer : Z;
  tcgetattr_answer : Z;
  tcsetattr_answer : Z;
  iossiospeed_answer : option Z;     (* the error *)
  tcdrain_answer : Z;
  tcflush_answer : Z;
  fionread_answer : result Z Z;
  last_errno : Z;
}.
Inductive tty_error : Type :=
  | NulInPath
  | OpenFailed (fd : Z)
  | TcgetattrFailed (r : Z)
  | TcsetattrFailed (errno : Z)
  | Errno (errno : Z).

(** What the calls do to the port. *)
Definition tcsetattr (mode : tcsa_mode) (t : termios) (ispeed ospeed : Z) (p : port) : port :=
  MkPort t ispeed ospeed ospeed (open_fds p) (input_queue p) (match mode with TCSADRAIN => [] | TCSANOW => output_queue p end).
Definition iossiospeed (speed : Z) (p : port) : port :=
  MkPort (attributes p) (c_ispeed p) (c_ospeed p) speed (open_fds p) (input_queue p) (output_queue p).
Definition tcdrain (p : port) : port :=
  MkPort (attributes p) (c_ispeed p) (c_ospeed p) (line_speed p) (open_fds p) (input_queue p) [].
Definition tcflush (q : queue_selector) (p : port) : port :=
  MkPort (attributes p) (c_ispeed p) (c_ospeed p) (line_speed p) (open_fds p)
    (match q with TCOFLUSH => input_queue p | _ => [] end) (match q with TCIFLUSH => output_queue p | _ => [] end).
Definition open_port (fd : Z) (p : port) : port :=
  MkPort (attributes p) (c_ispeed p) (c_ospeed p) (line_speed p) (fd :: open_fds p) (input_queue p) (output_queue p).

Section control.
Context (f : tty_flags) (B115200 : Z) (kind_of_errno : Z -> ErrorKind) (os : answers).

Definition set_speed (baud : Z) (drain : bool) (p : port) : port * result unit tty_error :=
  if negb (tcgetattr_answer os =? 0) then (p, Err (TcgetattrFailed (tcgetattr_answer os)))
  else
    let tios := set_raw f (attributes p) in
    let tcsa_mode := if drain then TCSADRAIN else TCSANOW in
    if negb (tcsetattr_answer os =? 0) then (p, Err (TcsetattrFailed (last_errno os)))
    else
      let p := tcsetattr tcsa_mode tios B115200 B115200 p in
      let p := match iossiospeed_answer os with None => iossiospeed baud p | Some _ => p end in
      (p, Ok tt).
Definition set_baud_rate (baud : Z) (p : port) : port * result unit tty_error := set_speed baud true p.
Definition set_timeout (timeout : Duration) (t : Tty) : Tty := MkTty (fd t) timeout (tty_path t).

(** [Tty::new]: the descriptor is not closed when the settings fail. *)
Definition new (path : list Z) (baud : Z) (p : port) : port * result Tty tty_error :=
  if bool_decide (0 ∈ path) then (p, Err NulInPath)
  else if 0 <=? open_answer os then
    let this := MkTty (open_answer os) (MkDuration 0 0) path in
    let '(p, r) := set_baud_rate baud (open_port (open_answer os) p) in
    (p, result_bind r (fun _ => Ok this))
  else (p, Err (OpenFailed (open_answer os))).

Definition clear (cb : ClearBuffer) (p : port) : port * result unit tty_error :=
  let q := match cb with Input => TCIFLUSH | Output => TCOFLUSH | All => TCIOFLUSH end in
  if tcflush_answer os =? -1 then (p, Err (Errno (last_errno os))) else (tcflush q p, Ok tt).
Definition flush (p : port) : port * result unit ErrorKind :=
  if tcdrain_answer os =? -1 then (p, Err (kind_of_errno (last_errno os))) else (tcdrain p, Ok tt).
(** [bytes as usize]: a [c_int] that is widened with its sign. *)
Definition bytes_to_read : result Z tty_error :=
  match fionread_answer os with
  | Err e => Err (Errno e)
  | Ok bytes => Ok (bytes mod 2 ^ 64)
  end.
(** [read] fails with an error number, or reads. *)
Definition read_nonblocking (EAGAIN : Z) (len : nat) (o : result (list Z) Z) : result (list Z) ErrorKind :=
  match len with
  | O => Ok []
  | S _ =>
    match o with
    | Err errno => if errno =? EAGAIN then Err WouldBlock else Err (kind_of_errno errno)
    | Ok bs => Ok bs
    end
  end.

(** [_can_read_timeout] up to the call: the [timeval] that [select] is given, whose
    seconds are signed. *)
Definition timeval_of (t : Duration) : option (Z * Z) :=
  if as_secs t <? 2 ^ 63 then if subsec_micros t <? 2 ^ 31 then Some (as_secs t, subsec_micros t) else None else None.
(** [read_timeout] against [select] and [read], which see the bytes that are there when
    the wait ends; [None] for the error about the timeout itself. *)
Definition read_timeout (select : Z * Z -> read_os) (len : nat) (t : Duration) : option (result (list Z) ErrorKind) :=
  match len with
  | O => Some (Ok [])
  | S _ => tv ← timeval_of t; Some (tty_read_timeout kind_of_errno (select tv))
  end.
End control.

Definition TTY_TIMEOUT : Duration := MkDuration 0 100000000.
(** The first steps of [upload]. *)
Definition upload_open (f : tty_flags) (B115200 : Z) (os : answers) (device : list Z) (p : port) : port * result Tty tty_error :=
  let '(p, r) := new f B115200 os device INITIAL_BAUD_RATE p in (p, result_bind r (fun tty => Ok (set_timeout TTY_TIMEOUT tty))).
End TtyControl.
Export TtyControl.

(** ** The settings *)

(** Bits are compared after the logical operations are pushed to them. *)
Ltac bitwise := apply Z.bits_inj'; intros ? ?; repeat rewrite ?Z.lor_spec, ?Z.ldiff_spec, ?Z.land_spec.

Lemma set_raw_iflag_idem a b c d : Z.ldiff (Z.ldiff (Z.lor (Z.ldiff (Z.ldiff (Z.lor a b) c) d) b) c) d = Z.ldiff (Z.ldiff (Z.lor a b) c) d.
Proof. bitwise. repeat match goal with |- context [Z.testbit ?x ?n] => destruct (Z.testbit x n) end; done. Qed.
(** Setting the raw mode of a port that is in it changes nothing. *)
Lemma set_raw_idem f t : set_raw f (set_raw f t) = set_raw f t.
Proof.
  unfold set_raw. cbn [c_iflag c_cflag]. f_equal; [apply set_raw_iflag_idem|].
  bitwise. repeat match goal with |- context [Z.testbit ?x ?n] => destruct (Z.testbit x n) end; done.
Qed.

(** A source of bytes: the first of them arrives after so many microseconds, if any. *)
Definition arriving (arrival : option Z) (bs : list Z) (tv : Z * Z) : read_os :=
  match arrival with
  | Some a => if a <=? fst tv * 1000000 + snd tv then ReadBytes bs else NotReadable
  | None => NotReadable
  end.

(** ** The claims *)

(** The speed of the port is changed and nothing else of a raw port: what was written
    goes out first, and what has arrived stays.  The error of the call that sets the
    speed is dropped, and then the line runs at the speed that stands in for it,
    while success is reported. *)
Theorem set_baud_rate_spec (f : tty_flags) (B115200 : Z) (os : answers) baud p :
  tcgetattr_answer os = 0 -> tcsetattr_answer os = 0 ->
  exists p', set_baud_rate f B115200 os baud p = (p', Ok tt) /\
    attributes p' = set_raw f (attributes p) /\ line_speed p' = (match iossiospeed_answer os with Some _ => B115200 | None => baud end) /\
    output_queue p' = [] /\ input_queue p' = input_queue p /\ open_fds p' = open_fds p /\
    (forall baud' os', tcgetattr_answer os' = 0 -> tcsetattr_answer os' = 0 ->
       exists p'', set_baud_rate f B115200 os' baud' p' = (p'', Ok tt) /\ attributes p'' = attributes p' /\ input_queue p'' = input_queue p).
Proof.
  intros Hget Hset. unfold set_baud_rate, set_speed. rewrite Hget, Hset. cbn [Z.eqb negb].
  eexists. split; [reflexivity|]. destruct (iossiospeed_answer os); cbn; (do 5 (split; [done|])).
  all: intros baud' os' Hget' Hset'; rewrite Hget', Hset'; cbn [Z.eqb negb]; rewrite set_raw_idem; eexists; (split; [reflexivity|]); by destruct (iossiospeed_answer os').
Qed.

Definition fresh_port : port := MkPort (MkTermios 0x2b02 3 0x4b00 0x5cb 1 0) 9600 9600 9600 [] [7] [9].
Definition willing : answers := MkAnswers 3 0 0 None 0 0 (Ok 1) 0.
(** A pseudo-terminal refuses the call for the speed. *)
Definition pseudo_terminal : answers := MkAnswers 3 0 0 (Some 25) 0 0 (Ok 1) 0.
Lemma set_baud_rate_spec_witness :
  exists p', set_baud_rate macos_flags 115200 pseudo_terminal 1500000 fresh_port = (p', Ok tt) /\
    attributes p' = set_raw macos_flags (attributes fresh_port) /\ line_speed p' = 115200 /\
    output_queue p' = [] /\ input_queue p' = [7] /\ open_fds p' = [] /\
    (forall baud' os', tcgetattr_answer os' = 0 -> tcsetattr_answer os' = 0 ->
       exists p'', set_baud_rate macos_flags 115200 os' baud' p' = (p'', Ok tt) /\ attributes p'' = attributes p' /\ input_queue p'' = [7]).
Proof. apply (set_baud_rate_spec macos_flags 115200 pseudo_terminal 1500000 fresh_port); done. Defined.

(** The uploader opens its device: with success only if the port is raw, what was
    written before is out and reads wait for a tenth of a second; and when it fails the
    settings and the queues are as they were, but a descriptor that was opened stays
    open. *)
Theorem upload_open_spec (f : tty_flags) (B115200 : Z) (os : answers) device p :
  match upload_open f B115200 os device p with
  | (p', Ok tty) =>
    0 ∉ device /\ fd tty = open_answer os /\ default_timeout tty = TTY_TIMEOUT /\ attributes p' = set_raw f (attributes p) /\
    line_speed p' = (match iossiospeed_answer os with Some _ => B115200 | None => INITIAL_BAUD_RATE end) /\ output_queue p' = [] /\
    input_queue p' = input_queue p /\ open_fds p' = fd tty :: open_fds p
  | (p', Err e) =>
    attributes p' = attributes p /\ line_speed p' = line_speed p /\ input_queue p' = input_queue p /\ output_queue p' = output_queue p /\
    open_fds p' = match e with TcgetattrFailed _ | TcsetattrFailed _ => open_answer os :: open_fds p | _ => open_fds p end
  end.
Proof.
  unfold upload_open, new, set_baud_rate, set_speed. case_bool_decide; [done|].
  destruct (0 <=? open_answer os); [|done].
  destruct (tcgetattr_answer os =? 0); [|done]. destruct (tcsetattr_answer os =? 0); [|done].
  by destruct (iossiospeed_answer os).
Qed.

(** A read with a timeout delivers what arrives in time, counted in whole microseconds
    that the timeout is rounded down to, and times out otherwise: with the timeout
    that a port is opened with it only asks.  A timeout of 2^63 seconds or more is
    refused before anything is read. *)
Theorem read_timeout_spec kind_of_errno arrival bs len t :
  duration_ok t -> match arrival with Some a => 0 <= a | None => True end ->
  read_timeout kind_of_errno (arriving arrival bs) (S len) t =
    if as_secs t <? 2 ^ 63 then
      Some (match arrival with Some a => if 1000 * a <=? as_nanos t then Ok bs else Err TimedOut | None => Err TimedOut end)
    else None.
Proof.
  intros [Hs Hn] Ha. unfold read_timeout, timeval_of. destruct (as_secs t <? 2 ^ 63); [|done].
  rewrite (proj2 (Z.ltb_lt (subsec_micros t) _)) by (unfold subsec_micros; apply Z.div_lt_upper_bound; lia).
  cbn [mbind option_bind]. unfold arriving. destruct arrival as [a|]; [|done]. cbn [fst snd].
  assert ((a <=? as_secs t * 1000000 + subsec_micros t) = (1000 * a <=? as_nanos t)) as ->.
  { apply eq_iff_eq_true. rewrite !Z.leb_le. unfold subsec_micros, as_nanos.
    pose proof (Z.div_mod (subsec_nanos t) 1000 ltac:(done)). pose proof (Z.mod_pos_bound (subsec_nanos t) 1000 ltac:(lia)). lia. }
  by destruct (1000 * a <=? as_nanos t).
Qed.

(** A byte after a tenth of a second, and a nanosecond too little to wait. *)
Lemma read_timeout_spec_witness :
  read_timeout (fun _ => OtherKind) (arriving (Some 100000) [5]) 1 (MkDuration 0 99999999) = Some (Err TimedOut).
Proof. apply (read_timeout_spec (fun _ => OtherKind) (Some 100000) [5] 0 (MkDuration 0 99999999)); done. Defined.

(** [clear], [flush] and [bytes_to_read], when the system does not fail: each
    empties the queues it is to empty and no other, and a negative number of bytes becomes a large one. *)
Theorem port_calls_spec kind_of_errno (os : answers) cb p :
  (forall p', clear os cb p = (p', Ok tt) -> (cb <> Output -> input_queue p' = []) /\ (cb <> Input -> output_queue p' = []) /\
     (cb = Output -> input_queue p' = input_queue p) /\ (cb = Input -> output_queue p' = output_queue p)) /\
  (forall p', flush kind_of_errno os p = (p', Ok tt) -> output_queue p' = [] /\ input_queue p' = input_queue p /\ attributes p' = attributes p) /\
  (forall n, fionread_answer os = Ok n -> -2 ^ 31 <= n < 2 ^ 31 ->
     bytes_to_read os = Ok (if n <? 0 then 2 ^ 64 + n else n)).
Proof.
  split; [|split].
  - intros p'. unfold clear. destruct (tcflush_answer os =? -1); [done|]. intros [= <-]. by destruct cb.
  - intros p'. unfold flush. destruct (tcdrain_answer os =? -1); [done|]. by intros [= <-].
  - intros n Hn Hr. unfold bytes_to_read. rewrite Hn. f_equal. destruct (Z.ltb_spec n 0).
    + rewrite <- (Z.mod_add n 1 (2 ^ 64)) by done. rewrite Z.mod_small; lia.
    + apply Z.mod_small. lia.
Qed.
Lemma port_calls_spec_witness :
  (forall p', clear willing All fresh_port = (p', Ok tt) -> (All <> Output -> input_queue p' = []) /\ (All <> Input -> output_queue p' = []) /\
     (All = Output -> input_queue p' = input_queue fresh_port) /\ (All = Input -> output_queue p' = output_queue fresh_port)) /\
  (forall p', flush (fun _ => OtherKind) willing fresh_port = (p', Ok tt) -> output_queue p' = [] /\ input_queue p' = [7] /\ attributes p' = attributes fresh_port) /\
  (forall n, fionread_answer willing = Ok n -> -2 ^ 31 <= n < 2 ^ 31 -> bytes_to_read willing = Ok (if n <? 0 then 2 ^ 64 + n else n)).
Proof. apply (port_calls_spec (fun _ => OtherKind) willing All fresh_port). Defined.
