(* ===== verification/Xtask.v ===== *)
(** The build driver: [host/xtask/src/main.rs].

    Cargo, the linker and the uploader are programs that it starts; what each of
    them does is a parameter, and so are the metadata of cargo, the file system and
    the parser of the configuration.  A run is the list of what was done, in order,
    with how it ended.  Logging and the printed durations are left out. *)
From Stdlib Require Import Ascii.
From stdpp Require Import strings.
From S2P Require Import Prelude HostArgs.
Local Open Scope list_scope.

Module Xtask.

(** *** Paths: [std::path], by components *)

Record path : Type := MkPath { rooted : bool; parts : list string }.
#[export] Instance path_eq_dec : EqDecision path.
Proof. solve_decision. Defined.

(** The pieces between slashes, the empty ones included. *)
Fixpoint split_slash (s : string) : list string :=
  match s with
  | EmptyString => [EmptyString]
  | String c s =>
    if bool_decide (c = "/"%char) then EmptyString :: split_slash s
    else match split_slash s with w :: ws => String c w :: ws | [] => [String c EmptyString] end
  end.
Definition is_component (w : string) : bool := negb (bool_decide (w = EmptyString)) && negb (bool_decide (w = "."%string)).
(** [Path::components]: a dot counts at the start of a relative path only. *)
Definition path_of (s : string) : path :=
  match s with
  | String "/" _ => MkPath true (List.filter is_component (split_slash s))
  | _ =>
    match split_slash s with
    | w :: ws => MkPath false ((if bool_decide (w = "."%string) then [w] else List.filter is_component [w]) ++ List.filter is_component ws)
    | [] => MkPath false []
    end
  end.
Definition join (p : path) (s : string) : path :=
  let q := path_of s in
  if rooted q then q
  else match parts p with
       | [] => MkPath (rooted p) (if rooted p then List.filter is_component (parts q) else parts q)
       | _ => MkPath (rooted p) (parts p ++ List.filter is_component (parts q))
       end.
Definition parent (p : path) : option path :=
  match parts p with [] => None | _ => Some (MkPath (rooted p) (removelast (parts p))) end.
(** [Path::ancestors]: the path itself, its parent, and so on. *)
Definition ancestors (p : path) : list path :=
  map (fun n => MkPath (rooted p) (take n (parts p))) (rev (seq 0 (S (length (parts p))))).
Definition path_file_name (p : path) : option string :=
  match head (rev (parts p)) with
  | Some w => if bool_decide (w = ".."%string) || bool_decide (w = "."%string) then None else Some w
  | None => None
  end.
(** Before and after the last dot. *)
Fixpoint rsplit_dot (s : string) : option (string * string) :=
  match s with
  | EmptyString => None
  | String c s =>
    match rsplit_dot s with
    | Some (a, b) => Some (String c a, b)
    | None => if bool_decide (c = "."%char) then Some (EmptyString, s) else None
    end
  end.
(** A name that begins with its only dot has no extension. *)
Definition stem_and_extension (w : string) : string * option string :=
  match rsplit_dot w with
  | Some (EmptyString, _) | None => (w, None)
  | Some (a, b) => (a, Some b)
  end.
Definition extension (p : path) : option string :=
  match path_file_name p with Some w => snd (stem_and_extension w) | None => None end.
Definition with_extension (p : path) (ext : string) : path :=
  match path_file_name p with
  | None => p
  | Some w => MkPath (rooted p) (removelast (parts p) ++ [fst (stem_and_extension w) +:+ "." +:+ ext])
  end.

(** *** The programs that are started *)

(** [ExitStatus]: how a program ended, and the wait status that says so. *)
Inductive wait_status : Type :=
  | Exited (code : Z)
  | Signaled (signal : Z) (core : bool).
Definition into_raw (s : wait_status) : Z :=
  match s with
  | Exited code => Z.shiftl code 8
  | Signaled signal core => signal + (if (core : bool) then 128 else 0)
  end.
Definition exit_ok (s : wait_status) : bool := into_raw s =? 0.
(** [std::process::exit]: the parent sees the low byte. *)
Definition exit_code (code : Z) : Z := Z.land code 0xff.

(** An argument is a word or a path. *)
Inductive arg : Type := Word (w : string) | File (p : path).
Record command : Type := MkCommand {
  program : string;
  arguments : list arg;
  dir : option path;
  env : list (string * string);
}.
(** A program cannot be started, or writes lines, those of [None] not UTF-8, and ends;
    [None] for a status that is not there when the output has ended. *)
Inductive execution : Type :=
  | NotStarted
  | Ended (output : list (option string)) (status : option wait_status).

(** *** A run of the driver *)

Inductive event : Type :=
  | Started (c : command)
  | Printed (line : string)
  | MadeDir (p : path).
Inductive error : Type := NoMetadata | NoSuchPackage (name : string) | ConfigUnreadable | ConfigMalformed | UnknownTarget (s : string) | CannotStart | CannotMakeDir.
Inductive outcome (A : Type) : Type :=
  | Returned (a : A)
  | Failed (e : error)
  | Panicked
  | ExitedWith (code : Z).
Arguments Returned {A} a.
Arguments Failed {A} e.
Arguments Panicked {A}.
Arguments ExitedWith {A} code.
Definition task (A : Type) : Type := list event * outcome A.

#[export] Instance task_ret : MRet task := fun A a => ([], Returned a).
#[export] Instance task_bind : MBind task := fun A B f m =>
  match m with
  | (evs, Returned a) => let '(evs', o) := f a in (evs ++ evs', o)
  | (evs, Failed e) => (evs, Failed e)
  | (evs, Panicked) => (evs, Panicked)
  | (evs, ExitedWith c) => (evs, ExitedWith c)
  end.
Definition emit (e : event) : task unit := ([e], Returned tt).
Definition fail {A} (e : error) : task A := ([], Failed e).
Definition exit {A} (code : Z) : task A := ([], ExitedWith (exit_code code)).
(** [?] on what the system returns, and [unwrap] or [expect] on an option. *)
Definition or_fail {A} (e : error) (o : option A) : task A := match o with Some a => mret a | None => fail e end.
Definition or_panic {A} (o : option A) : task A := match o with Some a => mret a | None => ([], Panicked) end.

(** [Target] *)
Inductive BuildTarget : Type := Armv6zk | Rv64gc.
Definition from_str (s : string) : task BuildTarget :=
  if bool_decide (s = "armv6zk-none-eabihf"%string) then mret Armv6zk
  else if bool_decide (s = "riscv64gc-unknown-none-elf"%string) then mret Rv64gc
  else fail (UnknownTarget s).
Definition linker_flags_for_target (t : BuildTarget) : list string :=
  ["-z"; "noexecstack"; "-nostdlib"]%string ++
  match t with
  | Armv6zk => ["-mcpu=arm1176jzf-s"; "-march=armv6zk+fp"; "-mfpu=vfpv2"; "-mfloat-abi=hard"; "-nostartfiles"; "-Wl,--gc-sections"; "-ffreestanding"]%string
  | Rv64gc => ["--gc-sections"]%string
  end.
Definition linker_for_target (t : BuildTarget) : string :=
  match t with Armv6zk => "arm-none-eabi-ld" | Rv64gc => "riscv64-unknown-elf-ld" end%string.

(** What [cargo_metadata] reports. *)
Record package : Type := MkPackage { package_name : string; manifest_path : path; targets : list string }.
Record metadata : Type := MkMetadata { packages : list package; target_directory : path; workspace_root : path }.

(** The environment: the variable CARGO, cargo's metadata, the file system, what a
    program does when it is started, and the crate [toml] with its values, its parser
    and the accessors that are used. *)
Record environment : Type := MkEnv {
  cargo_var : option string;
  cargo_metadata : option metadata;
  is_file : path -> bool;
  is_dir : path -> bool;
  read_to_string : path -> option string;
  create_dir_all : path -> bool;
  execute : command -> execution;
  toml : Type;
  toml_from_str : string -> option toml;
  toml_get : toml -> string -> option toml;
  toml_as_str : toml -> option string;
}.

Section driver.
Context (E : environment).

(** [run_expr]: the lines are printed and counted. *)
Definition run_expr (c : command) : task (nat * wait_status) :=
  emit (Started c);;
  match execute E c with
  | NotStarted => fail CannotStart
  | Ended output status =>
    (map Printed (omap (fun l => l) output), Returned tt);;
    status ← or_panic status;
    mret (length output, status)
  end.

Definition build_crate (name cargo : string) (d : path) : task unit :=
  '(_line_count, status) ← run_expr (MkCommand cargo (map Word ["build"; "-p"; name; "--color"; "always"; "--profile"; "release"]%string) (Some d) []);
  if exit_ok status then mret tt else exit (into_raw status).

Definition link (build_dir : path) (name : string) (library : path) (target : BuildTarget) (linker_script : path) : task path :=
  let linker := linker_for_target target in
  let elf_path := with_extension (join build_dir name) "elf" in
  let args := [Word "-T"; File linker_script] ++ map Word (linker_flags_for_target target) ++ [File library; Word "-o"; File elf_path] in
  '(_line_count, status) ← run_expr (MkCommand linker args None []);
  if exit_ok status then mret elf_path else exit (into_raw status).

(** [BuildTask::run] *)
Definition build_task (name : string) : task path :=
  let cargo := default "cargo"%string (cargo_var E) in
  metadata ← or_fail NoMetadata (cargo_metadata E);
  package ← or_fail (NoSuchPackage name) (List.find (fun p => bool_decide (package_name p = name)) (packages metadata));
  crate_dir ← or_panic (ancestors (manifest_path package) !! 1%nat);
  config_dir ← or_panic (List.find (fun p => is_file E (join p ".cargo/config.toml")) (ancestors crate_dir));
  config_text ← or_fail ConfigUnreadable (read_to_string E (join config_dir ".cargo/config.toml"));
  config_toml_value ← or_fail ConfigMalformed (toml_from_str E config_text);
  build_table ← or_panic (toml_get E config_toml_value "build");
  target_value ← or_panic (toml_get E build_table "target");
  target_str ← or_panic (toml_as_str E target_value);
  build_crate name cargo crate_dir;;
  lib_name ← or_panic (targets package !! 0%nat);
  let lib_file := join (join (join (target_directory metadata) target_str) "release") ("lib" +:+ lib_name +:+ ".a") in
  target ← from_str target_str;
  let linker_script :=
    let local_override := with_extension (join crate_dir target_str) "ld" in
    if is_file E local_override then local_override
    else with_extension (join (join (workspace_root metadata) "infra") target_str) "ld" in
  let build_dir := join (join (workspace_root metadata) "build") name in
  (if negb (is_dir E build_dir) then emit (MadeDir build_dir);; (if create_dir_all E build_dir then mret tt else fail CannotMakeDir) else mret tt);;
  link build_dir name lib_file target linker_script.

(** [RunTask::run]: the uploader writes to the terminal itself; its failure is logged. *)
Definition okdude_command (elf_file : path) (device : option string) : command :=
  MkCommand "okdude" (File elf_file :: match device with Some d => [Word "-d"; Word d] | None => [] end) None [("RUST_LOG", "okdude=info")]%string.
Definition run_task (name : string) (device : option string) : task unit :=
  elf_file ← build_task name;
  emit (Started (okdude_command elf_file device));;
  match execute E (okdude_command elf_file device) with
  | NotStarted | Ended _ None => ([], Panicked)
  | Ended _ (Some _) => mret tt
  end.

Inductive Task : Type := Build (name : string) | Run (name : string) (device : option string).
Definition Task_run (t : Task) : task unit :=
  match t with
  | Build name => build_task name;; mret tt
  | Run name device => run_task name device
  end.

(** [main], once the command line is parsed: the status that the caller sees. *)
Definition status_of {A} (o : outcome A) : Z :=
  match o with Returned _ => 0 | Failed _ => 1 | Panicked => 101 | ExitedWith code => code end.
Definition main (t : Task) : list event * Z := let '(evs, o) := Task_run t in (evs, status_of o).
End driver.
End Xtask.
Export Xtask.

(** ** Sequences of tasks *)

Lemma task_bind_events {A B} (m : task A) (f : A -> task B) evs a :
  m = (evs, Returned a) -> (m ≫= f) = (evs ++ fst (f a), snd (f a)).
Proof. intros ->. cbn. by destruct (f a). Qed.
Lemma task_bind_ends {A B} (m : task A) (f : A -> task B) evs code :
  m = (evs, ExitedWith code) -> (m ≫= f) = (evs, ExitedWith code).
Proof. by intros ->. Qed.
Lemma or_panic_bind {A B} (o : option A) (f : A -> task B) a : o = Some a -> (or_panic o ≫= f) = f a.
Proof. intros ->. cbn. by destruct (f a). Qed.
Lemma or_fail_bind {A B} e (o : option A) (f : A -> task B) a : o = Some a -> (or_fail e o ≫= f) = f a.
Proof. intros ->. cbn. by destruct (f a). Qed.
Lemma task_bind_returned {A B} (m : task A) (f : A -> task B) evs b :
  (m ≫= f) = (evs, Returned b) -> exists evs1 a evs2, m = (evs1, Returned a) /\ f a = (evs2, Returned b) /\ evs = evs1 ++ evs2.
Proof.
  destruct m as [evs1 [a| | |]]; cbn; try done. destruct (f a) as [evs2 o] eqn:Hf. intros [= <- ->]. by exists evs1, a, evs2.
Qed.

(** ** Paths *)

(** A name of a package: one component, without dots. *)
Fixpoint free_of (c : ascii) (s : string) : bool :=
  match s with EmptyString => true | String d s => negb (bool_decide (d = c)) && free_of c s end.
Definition plain_name (s : string) : bool := negb (bool_decide (s = EmptyString)) && free_of "/" s && free_of "." s.

Lemma split_slash_free s : free_of "/" s = true -> split_slash s = [s].
Proof.
  induction s as [|c s IH]; [done|]. cbn [free_of split_slash]. intros [Hc Hs]%andb_prop.
  rewrite (IH Hs). by case_bool_decide.
Qed.
Lemma rsplit_dot_free s : free_of "." s = true -> rsplit_dot s = None.
Proof.
  induction s as [|c s IH]; [done|]. cbn [free_of rsplit_dot]. intros [Hc Hs]%andb_prop.
  rewrite (IH Hs). by case_bool_decide.
Qed.
Lemma rsplit_dot_last a b : free_of "." b = true -> rsplit_dot (a +:+ "." +:+ b) = Some (a, b).
Proof.
  intros Hb. induction a as [|c a IH].
  { change (EmptyString +:+ "." +:+ b) with (String "." b). cbn [rsplit_dot]. by rewrite (rsplit_dot_free _ Hb). }
  change (String c a +:+ "." +:+ b) with (String c (a +:+ "." +:+ b)). cbn [rsplit_dot]. by rewrite IH.
Qed.
Lemma plain_name_component s : plain_name s = true -> is_component s = true /\ s <> ".."%string.
Proof.
  unfold plain_name, is_component. intros [[He Hs]%andb_prop Hd]%andb_prop. rewrite He. split.
  - apply negb_true_iff, bool_decide_eq_false. intros ->. discriminate Hd.
  - intros ->. discriminate Hd.
Qed.
Lemma path_of_plain s : plain_name s = true -> path_of s = MkPath false [s].
Proof.
  intros Hp. destruct (plain_name_component _ Hp) as [Hc _].
  unfold plain_name in Hp. apply andb_prop in Hp as [[He Hs]%andb_prop Hd].
  assert (MkPath false (if bool_decide (s = "."%string) then [s] else List.filter is_component [s]) = MkPath false [s]) as Hw
    by (destruct (bool_decide (s = "."%string)); cbn [List.filter]; rewrite ?Hc; reflexivity).
  unfold path_of. rewrite (split_slash_free _ Hs). cbn [List.filter]. rewrite app_nil_r.
  destruct s as [|c s]; [done|]. assert (c <> "/"%char) as Hne by (intros ->; done).
  destruct c as [[] [] [] [] [] [] [] []]; exact Hw || done.
Qed.
Lemma join_plain p s : plain_name s = true -> join p s = MkPath (rooted p) (parts p ++ [s]).
Proof.
  intros Hp. unfold join. rewrite (path_of_plain _ Hp). cbn [rooted parts List.filter].
  destruct (plain_name_component _ Hp) as [-> _]. destruct (parts p), (rooted p); done.
Qed.
Lemma last_part p ws w : parts p = ws ++ [w] -> head (rev (parts p)) = Some w.
Proof. intros ->. by rewrite rev_app_distr. Qed.
Lemma with_extension_plain p s e : plain_name s = true -> with_extension (join p s) e = MkPath (rooted p) (parts p ++ [s +:+ "." +:+ e]).
Proof.
  intros Hp. rewrite (join_plain _ _ Hp). unfold with_extension, path_file_name. cbn [parts rooted].
  rewrite rev_app_distr. cbn [rev app head]. destruct (plain_name_component _ Hp) as [Hc Hdd].
  unfold plain_name in Hp. apply andb_prop in Hp as [_ Hd].
  rewrite bool_decide_false by done. rewrite bool_decide_false by (intros ->; done). cbn [orb].
  rewrite removelast_last. unfold stem_and_extension. by rewrite (rsplit_dot_free _ Hd).
Qed.
Lemma extension_with_extension p s e : plain_name s = true -> free_of "." e = true -> extension (with_extension (join p s) e) = Some e.
Proof.
  intros Hs He. rewrite (with_extension_plain _ _ _ Hs). unfold extension, path_file_name. cbn [parts].
  rewrite rev_app_distr. cbn [rev app head]. destruct (plain_name_component _ Hs) as [_ Hdd].
  unfold plain_name in Hs. apply andb_prop in Hs as [[Hne _]%andb_prop Hd].
  pose proof (rsplit_dot_last s e He) as Hr.
  rewrite bool_decide_false by (intros Heq; rewrite Heq in Hr; injection Hr as <- _; discriminate Hd).
  rewrite bool_decide_false by (intros Heq; rewrite Heq in Hr; injection Hr as <- _; discriminate Hne).
  cbn [orb]. unfold stem_and_extension. rewrite Hr. by destruct s.
Qed.
(** The first of the ancestors with a property is the longest. *)
Lemma find_ancestor (f : path -> bool) p :
  let at_depth n := MkPath (rooted p) (take n (parts p)) in
  match List.find f (ancestors p) with
  | Some q => exists n, q = at_depth n /\ (n <= length (parts p))%nat /\ f q = true /\
                forall k, (n < k <= length (parts p))%nat -> f (at_depth k) = false
  | None => forall k, (k <= length (parts p))%nat -> f (at_depth k) = false
  end.
Proof.
  intros at_depth. unfold ancestors. fold at_depth. induction (length (parts p)) as [|n IH].
  - cbn [seq rev app map List.find]. destruct (f (at_depth 0%nat)) eqn:Hf; [exists 0%nat; repeat split; done || lia|].
    intros k Hk. by replace k with 0%nat by lia.
  - rewrite seq_S, rev_app_distr. cbn [rev app map List.find Nat.add]. destruct (f (at_depth (S n))) eqn:Hf.
    { exists (S n). repeat split; try done. lia. }
    destruct (List.find _ _) as [q|].
    + destruct IH as (m & -> & Hm & Hfm & Hmax). exists m. repeat split; try done; [lia|].
      intros k Hk. destruct (decide (k = S n)) as [->|]; [done|]. apply Hmax. lia.
    + intros k Hk. destruct (decide (k = S n)) as [->|]; [done|]. apply IH. lia.
Qed.

(** ** The steps of a build *)

Section steps.
Context (E : environment).

Definition printed (output : list (option string)) : list event := map Printed (omap (fun l => l) output).
Definition cargo_command (name : string) (d : path) : command :=
  MkCommand (default "cargo"%string (cargo_var E)) (map Word ["build"; "-p"; name; "--color"; "always"; "--profile"; "release"]%string) (Some d) [].
Definition link_command (t : BuildTarget) (script library elf : path) : command :=
  MkCommand (linker_for_target t) ([Word "-T"; File script] ++ map Word (linker_flags_for_target t) ++ [File library; Word "-o"; File elf]) None [].

(** What a workspace says of a package: where it is, and for which target the nearest
    configuration builds it. *)
Definition configured (name : string) (md : metadata) (p : package) (crate_dir : path) (target_str : string) : Prop :=
  cargo_metadata E = Some md /\
  List.find (fun p => bool_decide (package_name p = name)) (packages md) = Some p /\
  parent (manifest_path p) = Some crate_dir /\
  exists config_dir text v build_table target_value,
    List.find (fun d => is_file E (join d ".cargo/config.toml")) (ancestors crate_dir) = Some config_dir /\
    read_to_string E (join config_dir ".cargo/config.toml") = Some text /\ toml_from_str E text = Some v /\
    toml_get E v "build" = Some build_table /\ toml_get E build_table "target" = Some target_value /\
    toml_as_str E target_value = Some target_str.

Lemma run_expr_ended c output st :
  execute E c = Ended output (Some st) -> run_expr E c = (Started c :: printed output, Returned (length output, st)).
Proof. unfold run_expr. intros ->. cbn. by rewrite app_nil_r. Qed.
Lemma build_crate_ended name d output st :
  execute E (cargo_command name d) = Ended output (Some st) ->
  build_crate E name (default "cargo"%string (cargo_var E)) d =
    (Started (cargo_command name d) :: printed output, if exit_ok st then Returned tt else ExitedWith (exit_code (into_raw st))).
Proof.
  intros Hx. unfold build_crate. fold (cargo_command name d).
  rewrite (task_bind_events _ _ _ _ (run_expr_ended _ _ _ Hx)). destruct (exit_ok st); cbn; by rewrite app_nil_r.
Qed.
Lemma link_ended build_dir name library t script output st :
  let elf := with_extension (join build_dir name) "elf" in
  execute E (link_command t script library elf) = Ended output (Some st) ->
  link E build_dir name library t script =
    (Started (link_command t script library elf) :: printed output, if exit_ok st then Returned elf else ExitedWith (exit_code (into_raw st))).
Proof.
  intros elf Hx. unfold link. fold elf. fold (link_command t script library elf).
  rewrite (task_bind_events _ _ _ _ (run_expr_ended _ _ _ Hx)). destruct (exit_ok st); cbn; by rewrite app_nil_r.
Qed.
Lemma parent_ancestor p q : parent p = Some q -> ancestors p !! 1%nat = Some q.
Proof.
  unfold parent, ancestors. destruct (parts p) as [|w ws] eqn:Hp; [done|]. intros [= <-].
  cbn [length]. rewrite 2!seq_S, !rev_app_distr. cbn [rev app map lookup list_lookup]. f_equal. f_equal.
  symmetry. apply (removelast_firstn_len (w :: ws)).
Qed.

(** The driver from cargo on. *)
Lemma build_task_configured name md p crate_dir s :
  configured name md p crate_dir s ->
  build_task E name =
    (build_crate E name (default "cargo"%string (cargo_var E)) crate_dir;;
     lib_name ← or_panic (targets p !! 0%nat);
     t ← from_str s;
     let lib_file := join (join (join (target_directory md) s) "release") ("lib" +:+ lib_name +:+ ".a") in
     let local_override := with_extension (join crate_dir s) "ld" in
     let script := if is_file E local_override then local_override else with_extension (join (join (workspace_root md) "infra") s) "ld" in
     let build_dir := join (join (workspace_root md) "build") name in
     (if negb (is_dir E build_dir) then emit (MadeDir build_dir);; (if create_dir_all E build_dir then mret tt else fail CannotMakeDir) else mret tt);;
     link E build_dir name lib_file t script).
Proof.
  intros (Hmd & Hp & Hparent & config_dir & text & v & bt & tv & Hcfg & Htext & Hv & Hbt & Htv & Hs). unfold build_task.
  rewrite (or_fail_bind _ _ _ _ Hmd), (or_fail_bind _ _ _ _ Hp), (or_panic_bind _ _ _ (parent_ancestor _ _ Hparent)), (or_panic_bind _ _ _ Hcfg).
  by rewrite (or_fail_bind _ _ _ _ Htext), (or_fail_bind _ _ _ _ Hv), (or_panic_bind _ _ _ Hbt), (or_panic_bind _ _ _ Htv), (or_panic_bind _ _ _ Hs).
Qed.
(** Once cargo has failed the driver ends, whichever task it runs. *)
Lemma failed_cargo_ends name md p crate_dir s output st :
  configured name md p crate_dir s -> execute E (cargo_command name crate_dir) = Ended output (Some st) -> exit_ok st = false ->
  build_task E name = (Started (cargo_command name crate_dir) :: printed output, ExitedWith (exit_code (into_raw st))).
Proof.
  intros Hc Hx Hst. rewrite (build_task_configured _ _ _ _ _ Hc). apply task_bind_ends.
  rewrite (build_crate_ended _ _ _ _ Hx). by rewrite Hst.
Qed.
Lemma build_returns_elf name evs elf : build_task E name = (evs, Returned elf) -> exists build_dir, elf = with_extension (join build_dir name) "elf".
Proof.
  unfold build_task. intros Hb. repeat (apply task_bind_returned in Hb as (? & ? & ? & _ & Hb & _)).
  match type of Hb with (let '(_, _) := ?r in _) = _ => destruct r as [n status] end.
  destruct (exit_ok status); [|done]. injection Hb as _ <-. by eexists.
Qed.
End steps.

(** ** A workspace *)

(** The repository: three packages with their configurations, under [/ws].  The
    configuration's text stands for the target that it names. *)
Inductive toml_value : Type := TString (s : string) | TTable (key : string) (v : toml_value).
Definition ws (l : list string) : path := MkPath true ("ws" :: l)%string.
Definition repository : metadata :=
  MkMetadata (map (fun n => MkPackage n (ws ["device"; n; "Cargo.toml"]) [n]) ["okboot"; "bismuth"; "antimony"])%string (ws ["target"%string]) (ws []).
Definition repository_files : list (path * string) :=
  [(ws [".cargo"; "config.toml"], "alias"); (ws ["device"; "okboot"; ".cargo"; "config.toml"], "armv6zk-none-eabihf.json");
   (ws ["device"; "okboot"; "armv6zk-none-eabihf.ld"], "script");
   (ws ["device"; "antimony"; ".cargo"; "config.toml"], "riscv64gc-unknown-none-elf");
   (ws ["device"; "antimony"; "riscv64gc-unknown-none-elf.ld"], "script")]%string.
Definition read_file (p : path) : option string := snd <$> List.find (fun f => bool_decide (fst f = p)) repository_files.
Definition okeanos (run : command -> execution) : environment :=
  {| cargo_var := None; cargo_metadata := Some repository;
     is_file p := match read_file p with Some _ => true | None => false end; is_dir p := false; read_to_string := read_file; create_dir_all p := true;
     execute := run; toml := toml_value;
     toml_from_str text := Some (TTable "build" (TTable "target" (TString text)))%string;
     toml_get v k := match v with TTable key v => if bool_decide (key = k) then Some v else None | TString _ => None end;
     toml_as_str v := match v with TString s => Some s | TTable _ _ => None end |}.
(** Programs that succeed, but for the one of the given name. *)
Definition all_but (failing : string) (st : wait_status) (c : command) : execution :=
  Ended [Some (program c)] (Some (if bool_decide (program c = failing) then st else Exited 0)).
Lemma repository_configured run name s :
  (name, s) ∈ [("okboot", "armv6zk-none-eabihf.json"); ("antimony", "riscv64gc-unknown-none-elf")]%string ->
  configured (okeanos run) name repository (MkPackage name (ws ["device"; name; "Cargo.toml"]) [name])%string (ws ["device"; name])%string s.
Proof.
  intros [[= <- <-]|[[= <- <-]|[]]]%list_elem_of_In.
  all: do 3 (split; [by vm_compute|]); do 5 eexists; do 5 (split; [by vm_compute|]); by vm_compute.
Qed.

(** ** The claims *)

(** A package for one of the two targets is built and linked: cargo is started in the
    directory of the crate, then the directory of the result is made if it is not
    there, then the linker of the target is started with the linker script of the
    crate, or with that of the workspace where the crate has none, and the result is
    [build/<name>/<name>.elf] under the root of the workspace. *)
Theorem build_links_elf (E : environment) name md p crate_dir s t lib output output' :
  let build_dir := join (join (workspace_root md) "build") name in
  let elf := MkPath (rooted (workspace_root md)) (parts (workspace_root md) ++ ["build"%string; name; name +:+ ".elf"]) in
  let library := join (join (join (target_directory md) s) "release") ("lib" +:+ lib +:+ ".a") in
  let local := with_extension (join crate_dir s) "ld" in
  let script := if is_file E local then local else with_extension (join (join (workspace_root md) "infra") s) "ld" in
  plain_name name = true -> configured E name md p crate_dir s -> targets p !! 0%nat = Some lib -> from_str s = ([], Returned t) ->
  is_dir E build_dir = true \/ create_dir_all E build_dir = true ->
  execute E (cargo_command E name crate_dir) = Ended output (Some (Exited 0)) ->
  execute E (link_command t script library elf) = Ended output' (Some (Exited 0)) ->
  build_task E name =
    ((Started (cargo_command E name crate_dir) :: printed output) ++ (if is_dir E build_dir then [] else [MadeDir build_dir]) ++
     Started (link_command t script library elf) :: printed output', Returned elf).
Proof.
  intros build_dir elf library local script Hname Hc Hlib Ht Hdir Hcargo Hlink.
  assert (with_extension (join build_dir name) "elf" = elf) as Helf.
  { rewrite (with_extension_plain _ _ _ Hname). unfold build_dir. rewrite (join_plain _ _ Hname), (join_plain _ "build" eq_refl).
    cbn [rooted parts]. unfold elf. by rewrite <- !app_assoc. }
  rewrite (build_task_configured _ _ _ _ _ _ Hc). fold build_dir library local script.
  erewrite task_bind_events by (rewrite (build_crate_ended _ _ _ _ _ Hcargo); reflexivity).
  rewrite (or_panic_bind _ _ _ Hlib). rewrite (task_bind_events _ _ _ _ Ht). cbn [app fst snd].
  fold library. rewrite <- Helf in Hlink |- *. pose proof (link_ended _ _ _ _ _ _ _ _ Hlink) as Hl. 
  change (exit_ok (Exited 0)) with true in Hl. cbn iota in Hl. fold script.
  destruct (is_dir E build_dir); [|destruct Hdir as [Hd| ->]; [done|]]; cbn [negb emit mret task_ret mbind task_bind app fst snd]; by rewrite Hl.
Qed.

Lemma build_links_elf_witness :
  let E := okeanos (all_but "none" (Exited 0)) in
  let crate_dir := ws ["device"; "antimony"]%string in
  let elf := ws ["build"; "antimony"; "antimony.elf"]%string in
  let library := ws ["target"; "riscv64gc-unknown-none-elf"; "release"; "libantimony.a"]%string in
  let script := ws ["device"; "antimony"; "riscv64gc-unknown-none-elf.ld"]%string in
  build_task E "antimony" =
    ((Started (cargo_command E "antimony" crate_dir) :: printed [Some "cargo"%string]) ++ [MadeDir (ws ["build"; "antimony"]%string)] ++
     Started (link_command Rv64gc script library elf) :: printed [Some "riscv64-unknown-elf-ld"%string], Returned elf).
Proof.
  apply (build_links_elf (okeanos (all_but "none" (Exited 0))) "antimony" repository
    (MkPackage "antimony" (ws ["device"; "antimony"; "Cargo.toml"]) ["antimony"])%string (ws ["device"; "antimony"])%string
    "riscv64gc-unknown-none-elf" Rv64gc "antimony" [Some "cargo"%string] [Some "riscv64-unknown-elf-ld"%string]); try (by vm_compute).
  - apply repository_configured. by repeat constructor.
  - right. by vm_compute.
Defined.

(** C40: a crate that does not build is reported as built: the driver ends with the wait
    status of cargo where an exit status is due, of which the caller sees the low
    byte, and that is zero whatever the status with which cargo ended.  Only a cargo
    that a signal ended is seen to have failed.  Neither the linker nor the uploader
    is started. *)
Theorem failed_build_exits_zero (E : environment) name device md p crate_dir s output st :
  configured E name md p crate_dir s -> execute E (cargo_command E name crate_dir) = Ended output (Some st) ->
  match st with Exited c => 0 < c < 256 | Signaled signal _ => 0 < signal < 128 end ->
  let seen := match st with Exited _ => 0 | Signaled signal core => signal + (if core : bool then 128 else 0) end in
  let events := Started (cargo_command E name crate_dir) :: printed output in
  main E (Build name) = (events, seen) /\ main E (Run name device) = (events, seen).
Proof.
  intros Hc Hx Hst seen events.
  assert (exit_code (into_raw st) = seen) as Hseen.
  { unfold exit_code, seen. change 255 with (Z.ones 8). rewrite Z.land_ones by done. destruct st as [c|signal core]; cbn [into_raw].
    - rewrite Z.shiftl_mul_pow2 by done. by apply Z.mod_mul.
    - apply Z.mod_small. destruct core; lia. }
  assert (exit_ok st = false) as Hfail.
  { unfold exit_ok. apply Z.eqb_neq. destruct st as [c|signal core]; cbn [into_raw]; [rewrite Z.shiftl_mul_pow2 by done|destruct core]; lia. }
  pose proof (failed_cargo_ends _ _ _ _ _ _ _ _ Hc Hx Hfail) as Hb. rewrite Hseen in Hb.
  unfold main, Task_run, run_task. by rewrite !(task_bind_ends _ _ _ _ Hb).
Qed.

(** Cargo ends with 101 when a crate does not compile. *)
Lemma failed_build_exits_zero_witness :
  let E := okeanos (all_but "cargo" (Exited 101)) in
  let events := Started (cargo_command E "antimony" (ws ["device"; "antimony"]%string)) :: printed [Some "cargo"%string] in
  main E (Build "antimony") = (events, 0) /\ main E (Run "antimony" None) = (events, 0).
Proof.
  apply (failed_build_exits_zero (okeanos (all_but "cargo" (Exited 101))) "antimony" None repository
    (MkPackage "antimony" (ws ["device"; "antimony"; "Cargo.toml"]) ["antimony"])%string (ws ["device"; "antimony"])%string
    "riscv64gc-unknown-none-elf" [Some "cargo"%string] (Exited 101)); [|by vm_compute|lia].
  apply repository_configured. by repeat constructor.
Defined.

(** A target is looked up in the list of the known ones only after the crate is built:
    a package that is configured for another one is built and then refused, and
    never linked. *)
Theorem unknown_target_after_build (E : environment) name md p crate_dir s lib output device :
  configured E name md p crate_dir s -> s <> "armv6zk-none-eabihf"%string -> s <> "riscv64gc-unknown-none-elf"%string ->
  targets p !! 0%nat = Some lib -> execute E (cargo_command E name crate_dir) = Ended output (Some (Exited 0)) ->
  let events := Started (cargo_command E name crate_dir) :: printed output in
  build_task E name = (events, Failed (UnknownTarget s)) /\ main E (Build name) = (events, 1) /\ main E (Run name device) = (events, 1).
Proof.
  intros Hc Harm Hriscv Hlib Hx events.
  assert (build_task E name = (events, Failed (UnknownTarget s))) as Hb.
  { rewrite (build_task_configured _ _ _ _ _ _ Hc).
    erewrite task_bind_events by (rewrite (build_crate_ended _ _ _ _ _ Hx); reflexivity).
    rewrite (or_panic_bind _ _ _ Hlib). unfold from_str. rewrite !bool_decide_false by done. cbn. by rewrite app_nil_r. }
  split; [done|]. unfold main, Task_run, run_task. by rewrite !Hb.
Qed.

(** The boot loader's own configuration names the file of its target. *)
Lemma unknown_target_after_build_witness :
  let E := okeanos (all_but "none" (Exited 0)) in
  let events := Started (cargo_command E "okboot" (ws ["device"; "okboot"]%string)) :: printed [Some "cargo"%string] in
  build_task E "okboot" = (events, Failed (UnknownTarget "armv6zk-none-eabihf.json")) /\
  main E (Build "okboot") = (events, 1) /\ main E (Run "okboot" None) = (events, 1).
Proof.
  apply (unknown_target_after_build (okeanos (all_but "none" (Exited 0))) "okboot" repository
    (MkPackage "okboot" (ws ["device"; "okboot"; "Cargo.toml"]) ["okboot"])%string (ws ["device"; "okboot"])%string
    "armv6zk-none-eabihf.json" "okboot" [Some "cargo"%string] None); [|done|done|done|by vm_compute].
  apply repository_configured. by repeat constructor.
Defined.

(** Whatever the uploader makes of the file is not seen in the status of the driver:
    once it has run at all, the driver ends with success.  The file that it is given
    is one that it takes for an ELF file, by the extension, and loads as one when no
    other option is given. *)
Theorem run_uploads_elf (E : environment) name device evs elf output st utf8 dev_dir (bytes : string -> list Z) (args : CmdArgs) d :
  plain_name name = true -> build_task E name = (evs, Returned elf) ->
  execute E (okdude_command elf device) = Ended output (Some st) ->
  bytes "elf"%string = [101; 108; 102] -> ca_extension args = bytes <$> extension elf ->
  ca_device args = Some d -> ca_override_object_type args = None -> ca_load_address args = None ->
  main E (Run name device) = (evs ++ [Started (okdude_command elf device)], 0) /\
  parse_args utf8 dev_dir args = Val (Ok (MkArgs d (ca_quiet args) (ca_file args) Messages.Elf (ca_arg args))).
Proof.
  intros Hname Hb Hx Helf Hext Hd Hover Hload. split.
  - unfold main, Task_run, run_task. rewrite (task_bind_events _ _ _ _ Hb). rewrite Hx. done.
  - assert (extension elf = Some "elf"%string) as He.
    { destruct (build_returns_elf _ _ _ _ Hb) as (build_dir & ->). by apply extension_with_extension. }
    unfold parse_args. rewrite Hd, Hover, Hload, Hext, He. cbn [fmap option_fmap option_map]. by rewrite Helf.
Qed.

(** The uploader finds no device. *)
Lemma run_uploads_elf_witness :
  let E := okeanos (all_but "okdude" (Exited 1)) in
  let elf := ws ["build"; "antimony"; "antimony.elf"]%string in
  let args := MkCmdArgs (Some [47]) false None None [1] (Some [101; 108; 102]) [] in
  main E (Run "antimony" None) = (fst (build_task E "antimony") ++ [Started (okdude_command elf None)], 0) /\
  parse_args (fun _ => true) None args = Val (Ok (MkArgs [47] (ca_quiet args) (ca_file args) Messages.Elf (ca_arg args))).
Proof.
  apply (run_uploads_elf (okeanos (all_but "okdude" (Exited 1))) "antimony" None (fst (build_task (okeanos (all_but "okdude" (Exited 1))) "antimony"))
    (ws ["build"; "antimony"; "antimony.elf"])%string [Some "okdude"%string] (Exited 1) (fun _ => true) None (fun _ => [101; 108; 102])
    (MkCmdArgs (Some [47]) false None None [1] (Some [101; 108; 102]) []) [47]); by vm_compute.
Defined.

(** The configuration is looked for in the directory of the crate and then in those
    above it, up to the root: the driver panics, with nothing started, if there is none,
    and reads the nearest one otherwise. *)
Theorem nearest_configuration (E : environment) name md p crate_dir :
  let at_depth n := MkPath (rooted crate_dir) (take n (parts crate_dir)) in
  let has_config n := is_file E (join (at_depth n) ".cargo/config.toml") in
  cargo_metadata E = Some md -> List.find (fun p => bool_decide (package_name p = name)) (packages md) = Some p ->
  parent (manifest_path p) = Some crate_dir ->
  ((forall n, (n <= length (parts crate_dir))%nat -> has_config n = false) -> build_task E name = ([], Panicked)) /\
  (forall n, (n <= length (parts crate_dir))%nat -> has_config n = true ->
     (forall k, (n < k <= length (parts crate_dir))%nat -> has_config k = false) ->
     read_to_string E (join (at_depth n) ".cargo/config.toml") = None -> build_task E name = ([], Failed ConfigUnreadable)).
Proof.
  intros at_depth has_config Hmd Hp Hdir. unfold build_task.
  rewrite (or_fail_bind _ _ _ _ Hmd), (or_fail_bind _ _ _ _ Hp), (or_panic_bind _ _ _ (parent_ancestor _ _ Hdir)).
  pose proof (find_ancestor (fun d => is_file E (join d ".cargo/config.toml")) crate_dir) as Hfind. split.
  - intros Hno. destruct (List.find _ (ancestors crate_dir)) as [q|]; [|done].
    destruct Hfind as (n & -> & Hn & Hf & _). unfold has_config, at_depth in Hno. by rewrite Hno in Hf.
  - intros n Hn Hyes Hdeeper Hread. destruct (List.find _ (ancestors crate_dir)) as [q|].
    + destruct Hfind as (m & -> & Hm & Hf & Hmax). assert (m = n) as ->.
      { destruct (Nat.lt_trichotomy m n) as [Hlt|[->|Hlt]]; [|done|].
        - unfold has_config, at_depth in Hyes. rewrite (Hmax n) in Hyes by lia. done.
        - unfold has_config, at_depth in Hdeeper. rewrite (Hdeeper m) in Hf by lia. done. }
      cbn [or_panic mret task_ret mbind task_bind]. unfold at_depth in Hread. by rewrite Hread.
    + unfold has_config, at_depth in Hyes. by rewrite (Hfind n Hn) in Hyes.
Qed.

Lemma nearest_configuration_witness :
  let at_depth n := MkPath true (take n ["ws"; "device"; "okboot"]%string) in
  let E := okeanos (all_but "none" (Exited 0)) in
  let has_config n := is_file E (join (at_depth n) ".cargo/config.toml") in
  let crate_dir := ws ["device"; "okboot"]%string in
  ((forall n, (n <= length (parts crate_dir))%nat -> has_config n = false) -> build_task E "okboot" = ([], Panicked)) /\
  (forall n, (n <= length (parts crate_dir))%nat -> has_config n = true ->
     (forall k, (n < k <= length (parts crate_dir))%nat -> has_config k = false) ->
     read_to_string E (join (at_depth n) ".cargo/config.toml") = None -> build_task E "okboot" = ([], Failed ConfigUnreadable)).
Proof.
  apply (nearest_configuration (okeanos (all_but "none" (Exited 0))) "okboot" repository
    (MkPackage "okboot" (ws ["device"; "okboot"; "Cargo.toml"]) ["okboot"])%string (ws ["device"; "okboot"])%string); by vm_compute.
Defined.
