(* ===== verification/Registers.v ===== *)
(** The processor registers and their bit fields: the [bitfield!] declarations of
    [device/quartz/src/arch/arm1176/cpuid.rs],
    [device/bismuth/src/app/debug.rs] and [device/antimony/src/arch.rs], with
    the enumerations that fields are converted to.

    A declaration is a table of its fields; what the [proc_bitfield] crate makes of
    a field is the interface [BitField] of [RiscvVectors]. *)
From stdpp Require Import strings.
From S2P Require Import Prelude RiscvVectors.

Module Registers.
Open Scope string_scope.
Open Scope Z_scope.

(** The type of a field, and whether it has a setter; a field of one bit is [bool]. *)
Inductive FieldType : Type := Fbool | Fu8 | Fu16 | Fu32 | Fu64.
#[export] Instance FieldType_eq_dec : EqDecision FieldType.
Proof. solve_decision. Defined.
Definition type_bits (t : FieldType) : Z :=
  match t with Fbool => 1 | Fu8 => 8 | Fu16 => 16 | Fu32 => 32 | Fu64 => 64 end.
Record Field : Type := MkField {
  f_name : string;
  f_type : FieldType;
  f_ro : bool;
  f_lo : Z;
  f_hi : Z;
}.
#[export] Instance Field_eq_dec : EqDecision Field.
Proof. solve_decision. Defined.
Definition Rw (t : FieldType) (n : string) (lo hi : Z) : Field := MkField n t false lo hi.
Definition Ro (t : FieldType) (n : string) (lo hi : Z) : Field := MkField n t true lo hi.
Record Register : Type := MkRegister {
  r_name : string;
  r_bits : Z;
  r_fields : list Field;
}.

(** *** [cpuid.rs] *)

Definition MainId : Register := MkRegister "MainId" 32
  [Rw Fu8 "implementor" 24 31; Rw Fu8 "variant_number" 20 23; Rw Fu8 "architecture" 16 19;
   Rw Fu16 "primary_part_number" 4 15; Rw Fu8 "revision" 0 3].
Definition CacheType : Register := MkRegister "CacheType" 32
  [Rw Fu8 "ctype" 25 28; Rw Fbool "separate" 24 24; Rw Fbool "dcache_page_coloring" 23 23; Rw Fu8 "dcache_size" 18 21;
   Rw Fu8 "dcache_assoc" 15 17; Rw Fbool "dcache_m" 14 14; Rw Fu8 "dcache_line_len" 12 13;
   Rw Fbool "icache_page_coloring" 11 11; Rw Fu8 "icache_size" 6 9; Rw Fu8 "icache_assoc" 3 5; Rw Fbool "icache_m" 2 2;
   Rw Fu8 "icache_line_len" 0 1].
Definition TcmStatus : Register := MkRegister "TcmStatus" 32
  [Rw Fu8 "dtcm" 16 18; Rw Fu8 "itcm" 0 2].
Definition TlbType : Register := MkRegister "TlbType" 32
  [Rw Fu8 "instruction_lockable_size" 16 23; Rw Fu8 "data_lockable_size" 8 15; Rw Fbool "unified" 0 0].
Definition ProcessorFeature0 : Register := MkRegister "ProcessorFeature0" 32
  [Rw Fu8 "state3" 12 15; Rw Fu8 "state2" 8 11; Rw Fu8 "state1" 4 7; Rw Fu8 "state0" 0 3].
Definition ProcessorFeature1 : Register := MkRegister "ProcessorFeature1" 32
  [Rw Fu8 "microcontroller_programmers_model" 8 11; Rw Fu8 "security_extensions_architecture_v1" 4 7;
   Rw Fu8 "armv4_programmers_model" 0 3].
Definition MemoryModelFeature0 : Register := MkRegister "MemoryModelFeature0" 32
  [Rw Fu8 "vmsa" 0 3; Rw Fu8 "pmsa" 4 7; Rw Fu8 "cache_coherency_cpu_agent_shmem" 8 11;
   Rw Fu8 "cache_coherency_dma_agent_shmem" 12 15; Rw Fu8 "tcm_and_assoc_dma" 16 19; Rw Fu8 "armv6_aux_ctrl_reg" 20 23;
   Rw Fu8 "fcse" 24 27].
Definition MemoryModelFeature1 : Register := MkRegister "MemoryModelFeature1" 32
  [Rw Fu8 "btb" 28 31; Rw Fu8 "dcache_test_and_clean_ops" 24 27; Rw Fu8 "l1_cache_all_maintenance_unified" 20 23;
   Rw Fu8 "l1_cache_all_maintenance_harvard" 16 19; Rw Fu8 "l1_cache_line_maintenance_set_way_unified" 12 15;
   Rw Fu8 "l1_cache_line_maintenance_set_way_harvard" 8 11; Rw Fu8 "l1_cache_line_maintenance_mva_unified" 4 7;
   Rw Fu8 "l1_cache_line_maintenance_mva_harvard" 0 3].
Definition MemoryModelFeature2 : Register := MkRegister "MemoryModelFeature2" 32
  [Rw Fu8 "hardware_access_flag" 28 31; Rw Fu8 "wait_for_int_stalling" 24 27; Rw Fu8 "memory_barriers" 20 23;
   Rw Fu8 "tlb_maintenance_unified" 16 19; Rw Fu8 "tlb_maintenance_harvard" 12 15;
   Rw Fu8 "cache_maintenance_range_harvard" 8 11; Rw Fu8 "background_prefetch_cache_range_harvard" 4 7;
   Rw Fu8 "foreground_prefetch_cache_range_harvard" 0 3].
Definition MemoryModelFeature3 : Register := MkRegister "MemoryModelFeature3" 32
  [Rw Fu8 "hierarchical_cache_maintenance_mva" 4 7; Rw Fu8 "hierarchical_cache_maintenance_set_way" 0 3].
Definition IsaFeature0 : Register := MkRegister "IsaFeature0" 32
  [Rw Fu8 "divide" 24 27; Rw Fu8 "debug" 20 23; Rw Fu8 "coprocessor" 16 19; Rw Fu8 "combined_compare_and_branch" 12 15;
   Rw Fu8 "bitfield" 8 11; Rw Fu8 "bit_counting" 4 7; Rw Fu8 "atomic_load_store" 0 3].
Definition IsaFeature1 : Register := MkRegister "IsaFeature1" 32
  [Rw Fu8 "java" 28 31; Rw Fu8 "interworking" 24 27; Rw Fu8 "immediate" 20 23; Rw Fu8 "if_then" 16 19;
   Rw Fu8 "sign_zero_extend" 12 15; Rw Fu8 "exception_2" 8 11; Rw Fu8 "exception_1" 4 7; Rw Fu8 "endianness_ctrl" 0 3].
Definition IsaFeature2 : Register := MkRegister "IsaFeature2" 32
  [Rw Fu8 "reversal" 28 31; Rw Fu8 "psr" 24 27; Rw Fu8 "adv_umult" 20 23; Rw Fu8 "adv_smult" 16 19; Rw Fu8 "mult" 12 15;
   Rw Fu8 "multi_access_interruptible" 8 11; Rw Fu8 "memory_hint" 4 7; Rw Fu8 "load_store" 0 3].
Definition IsaFeature3 : Register := MkRegister "IsaFeature3" 32
  [Rw Fu8 "thumb2" 28 31; Rw Fu8 "true_nop" 24 27; Rw Fu8 "thumb_copy" 20 23; Rw Fu8 "table_branch" 16 19;
   Rw Fu8 "synchronization" 12 15; Rw Fu8 "svc" 8 11; Rw Fu8 "simd" 4 7; Rw Fu8 "saturate" 0 3].
Definition IsaFeature4 : Register := MkRegister "IsaFeature4" 32
  [Rw Fu8 "fractional_synchronization" 20 23; Rw Fu8 "barrier" 16 19; Rw Fu8 "smc" 12 15; Rw Fu8 "writeback" 8 11;
   Rw Fu8 "shift" 4 7; Rw Fu8 "unprivileged" 0 3].

(** *** [debug.rs] *)

Definition Dscr : Register := MkRegister "Dscr" 32
  [Ro Fbool "rdtrfull" 30 30; Ro Fbool "wdtrfull" 29 29; Ro Fbool "imprecise_data_aborts_ignored" 19 19;
   Ro Fbool "nswstatus" 18 18; Ro Fbool "spniden" 17 17; Ro Fbool "spiden" 16 16; Rw Fbool "monitor_debug_enable" 15 15;
   Ro Fbool "mode_select" 14 14; Ro Fbool "execute_arm_instr_enable" 13 13; Rw Fbool "user_mode_comms" 12 12;
   Ro Fbool "inhibit_interrupts" 11 11; Ro Fbool "dbg_ack" 10 10; Ro Fbool "dbgnopwrdwn" 9 9;
   Ro Fbool "sticky_undefined" 8 8; Ro Fbool "sticky_imprecise_data_aborts" 7 7; Ro Fbool "sticky_precise_data_aborts" 6 6;
   Rw Fu8 "debug_entry" 2 5; Ro Fbool "core_restarted" 1 1; Ro Fbool "core_halted" 1 1].
Definition Wfar : Register := MkRegister "Wfar" 32
  [Rw Fu32 "bits" 0 31].
Definition Bvr : Register := MkRegister "Bvr" 32
  [Rw Fu32 "address" 2 31].
Definition Bcr : Register := MkRegister "Bcr" 32
  [Rw Fu8 "meaning" 21 22; Rw Fbool "enable_linking" 20 20; Rw Fu8 "linked_brp_number" 16 19; Rw Fu8 "world" 14 15;
   Rw Fu8 "byte_address_select" 5 8; Rw Fu8 "supervisor_access" 1 2; Rw Fbool "enable" 0 0].
Definition Wcr : Register := MkRegister "Wcr" 32
  [Rw Fbool "enable_linking" 20 20; Rw Fu8 "linked_brp" 16 19; Rw Fu8 "world" 14 15; Rw Fu8 "byte_address_select" 5 8;
   Rw Fbool "on_store" 4 4; Rw Fbool "on_load" 3 3; Rw Fu8 "supervisor_access" 1 2; Rw Fbool "enable" 0 0].
Definition Dfsr : Register := MkRegister "Dfsr" 32
  [Rw Fbool "decode_or_slave" 12 12; Rw Fbool "read_or_write" 11 11; Rw Fbool "status_bank" 10 10; Rw Fu8 "domain" 4 7;
   Rw Fu8 "status" 0 3].
Definition Ifsr : Register := MkRegister "Ifsr" 32
  [Rw Fbool "decode_or_slave" 12 12; Rw Fu8 "status" 0 3].

(** *** [arch.rs] *)

Definition Mxstatus : Register := MkRegister "Mxstatus" 64
  [Rw Fu8 "pm" 30 31; Rw Fbool "theadisaee" 22 22; Rw Fbool "maee" 21 21; Rw Fbool "mhrd" 18 18; Rw Fbool "clintee" 17 17;
   Rw Fbool "ucme" 16 16; Rw Fbool "mm" 15 15; Rw Fbool "pmp4k" 14 14; Rw Fbool "pmdm" 13 13; Rw Fbool "pmds" 11 11;
   Rw Fbool "pmdu" 10 10].
Definition Mhcr : Register := MkRegister "Mhcr" 64
  [Ro Fbool "wbr" 8 8; Rw Fbool "btb" 6 6; Rw Fbool "bpe" 5 5; Rw Fbool "rs" 4 4; Ro Fbool "wb" 3 3; Rw Fbool "wa" 2 2;
   Rw Fbool "de" 1 1; Rw Fbool "ie" 0 0].
Definition Mcor : Register := MkRegister "Mcor" 64
  [Rw Fbool "btb_inv" 17 17; Rw Fbool "bht_inv" 16 16; Rw Fbool "clr" 5 5; Rw Fbool "inv" 4 4; Rw Fbool "cache_sel_d" 1 1;
   Rw Fbool "cache_sel_i" 0 0].
Definition Mhint : Register := MkRegister "Mhint" 64
  [Rw Fu8 "d_dis" 13 14; Rw Fbool "iwpe" 10 10; Rw Fbool "ipld" 8 8; Rw Fu8 "amr" 3 4; Rw Fbool "dpld" 2 2].
Definition Mrvbr : Register := MkRegister "Mrvbr" 64
  [Rw Fu64 "vector_base" 0 39].
Definition Mapbaddr : Register := MkRegister "Mapbaddr" 64
  [Rw Fu16 "apbaddr_high13" 27 39].
Definition Mstatus : Register := MkRegister "Mstatus" 64
  [Rw Fbool "sd" 63 63; Rw Fu8 "sxl" 34 35; Rw Fu8 "uxl" 32 33; Rw Fu8 "vs" 23 24; Rw Fbool "tsr" 22 22;
   Rw Fbool "tw" 21 21; Rw Fbool "tvm" 20 20; Rw Fbool "mxr" 19 19; Rw Fbool "sum" 18 18; Rw Fbool "mprv" 17 17;
   Rw Fu8 "xs" 15 16; Rw Fu8 "fs" 13 14; Rw Fu8 "mpp" 11 12; Rw Fbool "spp" 8 8; Rw Fbool "mpie" 7 7; Rw Fbool "spie" 5 5;
   Rw Fbool "mie" 3 3; Rw Fbool "sie" 1 1].
Definition Mie : Register := MkRegister "Mie" 64
  [Rw Fbool "moie" 17 17; Rw Fbool "meie" 11 11; Rw Fbool "seie" 9 9; Rw Fbool "mtie" 7 7; Rw Fbool "stie" 5 5;
   Rw Fbool "msie" 3 3; Rw Fbool "ssie" 1 1].
Definition Mtvec : Register := MkRegister "Mtvec" 64
  [Rw Fu64 "base" 2 39; Rw Fu8 "mode" 0 1].
Definition Mcause : Register := MkRegister "Mcause" 64
  [Rw Fbool "interrupt" 63 63; Rw Fu8 "exception_code" 0 4].
Definition Mip : Register := MkRegister "Mip" 64
  [Rw Fbool "moip" 17 17; Rw Fbool "mcip" 16 16; Rw Fbool "meip" 11 11; Rw Fbool "seip" 9 9; Rw Fbool "mtip" 7 7;
   Rw Fbool "stip" 5 5; Rw Fbool "msip" 3 3; Rw Fbool "ssip" 1 1].

Definition cpuid_registers : list Register := [MainId; CacheType; TcmStatus; TlbType; ProcessorFeature0; ProcessorFeature1;
  MemoryModelFeature0; MemoryModelFeature1; MemoryModelFeature2; MemoryModelFeature3; IsaFeature0; IsaFeature1; IsaFeature2;
  IsaFeature3; IsaFeature4].
Definition debug_registers : list Register := [Dscr; Wfar; Bvr; Bcr; Wcr; Dfsr; Ifsr].
Definition rvarch_registers : list Register := [Mxstatus; Mhcr; Mcor; Mhint; Mrvbr; Mapbaddr; Mstatus; Mie; Mtvec; Mcause; Mip].
Definition all_registers : list Register := (cpuid_registers ++ debug_registers ++ rvarch_registers)%list.

(** *** Getters and setters *)

Section fields.
Context {BF : BitField}.
Definition get_field (f : Field) (x : Z) : Z := bits x (f_lo f) (f_hi f).
Definition set_field (f : Field) (v x : Z) : Z := RiscvVectors.set_bits x (f_lo f) (f_hi f) v.
(** The getter by the name of the field. *)
Definition named (r : Register) (n : string) : option Field := find (fun f => bool_decide (f_name f = n)) (r_fields r).
Definition read_named (r : Register) (n : string) (x : Z) : Z := match named r n with Some f => get_field f x | None => 0 end.
End fields.

(** *** [coprocessor.rs]: a register of a coprocessor is named by five numbers *)

Record Coord : Type := MkCoord {
  cp : Z;
  op0 : Z;
  crn : Z;
  crm : Z;
  op1 : Z;
}.
#[export] Instance Coord_eq_dec : EqDecision Coord.
Proof. solve_decision. Defined.
Definition read_raw (c : Coord) (m : Coord -> Z) : Z := m c.
Definition write_raw (c : Coord) (value : Z) (m : Coord -> Z) : Coord -> Z := fun c' => if bool_decide (c' = c) then value else m c'.
Definition modify_raw (c : Coord) (f : Z -> Z) (m : Coord -> Z) : Coord -> Z := write_raw c (f (read_raw c m)) m.

(** *** The conversions of fields to enumerations *)

Inductive MxstatusPrivilegeMode : Type := UMode | SMode | MMode.
Definition privilege_mode_from (x : Z) : run MxstatusPrivilegeMode :=
  match x with 0 => Val UMode | 1 => Val SMode | 3 => Val MMode | _ => Panic end.
Definition privilege_mode_to (m : MxstatusPrivilegeMode) : Z := match m with UMode => 0 | SMode => 1 | MMode => 3 end.
Inductive MhintDDis : Type := L2 | L4 | L8 | L16.
Definition d_dis_from (x : Z) : run MhintDDis :=
  match x with 0 => Val L2 | 1 => Val L4 | 2 => Val L8 | 3 => Val L16 | _ => Panic end.
Definition d_dis_to (d : MhintDDis) : Z := match d with L2 => 0 | L4 => 1 | L8 => 2 | L16 => 3 end.
Inductive MhintAmr : Type := APage | AL3 | AL64 | AL128.
Definition amr_from (x : Z) : run MhintAmr :=
  match x with 0 => Val APage | 1 => Val AL3 | 2 => Val AL64 | 3 => Val AL128 | _ => Panic end.
Definition amr_to (a : MhintAmr) : Z := match a with APage => 0 | AL3 => 1 | AL64 => 2 | AL128 => 3 end.
End Registers.
Export Registers.

(** ** Well-formed declarations *)

Definition in_word (w : Z) (f : Field) : bool :=
  (0 <=? f_lo f) && (f_lo f <=? f_hi f) && (f_hi f <? w) && (f_hi f - f_lo f + 1 <=? type_bits (f_type f)).
Definition apart (f g : Field) : bool := (f_hi f <? f_lo g) || (f_hi g <? f_lo f).
(** Every field is in the word and fits its type, and a field with a setter shares no
    bit with another. *)
Definition well_formed (r : Register) : bool :=
  forallb (in_word (r_bits r)) (r_fields r) &&
  forallb (fun f => f_ro f || forallb (fun g => bool_decide (g = f) || apart f g) (r_fields r)) (r_fields r).

Lemma registers_well_formed : forallb well_formed all_registers = true.
Proof. by vm_compute. Qed.
Lemma well_formed_inv r f :
  r ∈ all_registers -> f ∈ r_fields r ->
  0 <= f_lo f <= f_hi f /\ f_hi f < r_bits r /\ f_hi f - f_lo f + 1 <= type_bits (f_type f) /\
  (f_ro f = false -> forall g, g ∈ r_fields r -> g <> f -> f_hi f < f_lo g \/ f_hi g < f_lo f).
Proof.
  intros Hr Hf. pose proof registers_well_formed as Hw. rewrite forallb_forall in Hw. specialize (Hw r ltac:(by apply list_elem_of_In)).
  unfold well_formed in Hw. apply andb_prop in Hw as [Hin Hap]. rewrite forallb_forall in Hin, Hap.
  specialize (Hin f ltac:(by apply list_elem_of_In)). specialize (Hap f ltac:(by apply list_elem_of_In)).
  unfold in_word in Hin. split; [lia|]. split; [lia|]. split; [lia|]. intros Hro g Hg Hne. rewrite Hro in Hap. cbn [orb] in Hap.
  rewrite forallb_forall in Hap. specialize (Hap g ltac:(by apply list_elem_of_In)). rewrite bool_decide_false in Hap by done.
  unfold apart in Hap. cbn [orb] in Hap. lia.
Qed.

(** *** The bits that a setter changes *)

Section laws.
Context {BF : BitField} {laws : BitFieldLaws BF}.
Implicit Types (x v lo hi i : Z).

Lemma bits_bit x lo hi i : 0 <= x -> 0 <= lo <= hi -> 0 <= i -> Z.testbit (bits x lo hi) i = (i <=? hi - lo) && Z.testbit x (lo + i).
Proof.
  intros Hx Hlo Hi. rewrite bits_field by done. rewrite <- Z.shiftr_div_pow2 by lia. destruct (Z.leb_spec i (hi - lo)); cbn [andb].
  - rewrite Z.mod_pow2_bits_low, Z.shiftr_spec by lia. f_equal. lia.
  - by rewrite Z.mod_pow2_bits_high by lia.
Qed.
Lemma set_bits_bit x lo hi v i :
  0 <= x -> 0 <= lo <= hi -> fits (hi - lo + 1) v -> 0 <= i ->
  Z.testbit (RiscvVectors.set_bits x lo hi v) i = if (lo <=? i) && (i <=? hi) then Z.testbit v (i - lo) else Z.testbit x i.
Proof.
  intros Hx Hlo Hv Hi. rewrite set_bits_field by done. set (w := hi - lo + 1) in *.
  (* the word, from its high part, the field and its low part *)
  set (low := x mod 2 ^ lo). set (high := x / 2 ^ lo / 2 ^ w).
  assert (0 < 2 ^ lo /\ 0 < 2 ^ w) as [Hl Hw] by (split; apply Z.pow_pos_nonneg; lia).
  assert (x + (v - x / 2 ^ lo mod 2 ^ w) * 2 ^ lo = low + 2 ^ lo * (v + 2 ^ w * high)) as ->.
  { pose proof (Z.div_mod x (2 ^ lo) ltac:(lia)). pose proof (Z.div_mod (x / 2 ^ lo) (2 ^ w) ltac:(lia)). unfold low, high. nia. }
  assert (fits lo low) as Hlow by (apply Z.mod_pos_bound; lia).
  assert (forall n a b, 0 <= n -> fits n a -> forall j, 0 <= j -> Z.testbit (a + 2 ^ n * b) j = if j <? n then Z.testbit a j else Z.testbit b (j - n)) as Hsplit.
  { intros n a b Hn Ha j Hj. destruct (Z.ltb_spec j n).
    - rewrite <- (Z.mod_pow2_bits_low _ n) by lia. rewrite Z.mul_comm, Z_mod_plus_full, Z.mod_small by exact Ha. done.
    - replace j with (j - n + n) at 1 by lia. rewrite <- Z.div_pow2_bits by lia.
      by rewrite Z.mul_comm, Z.div_add, (Z.div_small a), Z.add_0_l by (exact Ha || (apply Z.pow_nonzero; lia)). }
  rewrite Hsplit by (done || lia). destruct (Z.ltb_spec i lo).
  - rewrite (proj2 (Z.leb_gt lo i)) by lia. cbn [andb]. unfold low. by rewrite Z.mod_pow2_bits_low.
  - rewrite (proj2 (Z.leb_le lo i)) by lia. cbn [andb]. rewrite Hsplit by (done || lia). destruct (Z.leb_spec i hi).
    + by rewrite (proj2 (Z.ltb_lt _ w)) by lia.
    + rewrite (proj2 (Z.ltb_ge _ w)) by lia. unfold high. rewrite !Z.div_pow2_bits by lia. f_equal. lia.
Qed.

Lemma get_field_fits f x : 0 <= x -> 0 <= f_lo f <= f_hi f -> fits (f_hi f - f_lo f + 1) (get_field f x).
Proof. apply bits_fits. Qed.
Lemma set_field_fits w f v x : 0 <= f_lo f <= f_hi f -> f_hi f < w -> fits (f_hi f - f_lo f + 1) v -> fits w x -> fits w (set_field f v x).
Proof.
  intros Hlo Hw Hv Hx. unfold set_field. apply testbit_fits; [lia| |].
  - rewrite set_bits_field by (done || apply Hx). pose proof (Z.div_mod x (2 ^ f_lo f) ltac:(apply Z.pow_nonzero; lia)).
    pose proof (Z.mod_pos_bound x (2 ^ f_lo f) ltac:(apply Z.pow_pos_nonneg; lia)).
    pose proof (Z.mod_le (x / 2 ^ f_lo f) (2 ^ (f_hi f - f_lo f + 1)) ltac:(apply Z.div_pos; [apply Hx|apply Z.pow_pos_nonneg; lia])
      ltac:(apply Z.pow_pos_nonneg; lia)).
    destruct Hv as [Hv _]. nia.
  - intros i Hi. rewrite set_bits_bit by (exact Hv || lia || apply Hx).
    rewrite (proj2 (Z.leb_gt i (f_hi f))), andb_false_r by lia. apply (fits_testbit w); [lia|done|lia].
Qed.
Lemma get_set_same f v x : 0 <= f_lo f <= f_hi f -> fits (f_hi f - f_lo f + 1) v -> 0 <= x -> 0 <= set_field f v x -> get_field f (set_field f v x) = v.
Proof.
  intros Hlo Hv Hx Hs. unfold get_field, set_field in *. apply Z.bits_inj'. intros i Hi. rewrite bits_bit by done.
  rewrite set_bits_bit by (exact Hv || lia).
  rewrite (proj2 (Z.leb_le (f_lo f) _)) by lia. cbn [andb]. replace (f_lo f + i - f_lo f) with i by lia.
  destruct (Z.leb_spec i (f_hi f - f_lo f)); cbn [andb]; [by rewrite (proj2 (Z.leb_le _ _)) by lia|].
  symmetry. apply (fits_testbit (f_hi f - f_lo f + 1)); [lia|done|lia].
Qed.
Lemma get_set_apart f g v x :
  0 <= f_lo f <= f_hi f -> 0 <= f_lo g <= f_hi g -> f_hi f < f_lo g \/ f_hi g < f_lo f -> fits (f_hi f - f_lo f + 1) v ->
  0 <= x -> 0 <= set_field f v x -> get_field g (set_field f v x) = get_field g x.
Proof.
  intros Hf Hg Hap Hv Hx Hs. unfold get_field, set_field in *. apply Z.bits_inj'. intros i Hi. rewrite !bits_bit by done.
  destruct (Z.leb_spec i (f_hi g - f_lo g)); [|done]. cbn [andb]. rewrite set_bits_bit by (exact Hv || lia).
  destruct (Z.leb_spec (f_lo f) (f_lo g + i)), (Z.leb_spec (f_lo g + i) (f_hi f)); cbn [andb]; (done || lia).
Qed.
End laws.

(** ** The claims *)



(** The conversions of fields to enumerations and back: each is a round trip, and
    on two bits none can panic except the privilege mode, which does on the
    reserved value 2. *)
Theorem field_conversions :
  (forall m, privilege_mode_from (privilege_mode_to m) = Val m) /\ (forall d, d_dis_from (d_dis_to d) = Val d) /\
  (forall a, amr_from (amr_to a) = Val a) /\
  forall x, fits 2 x ->
    (exists d, d_dis_from x = Val d /\ d_dis_to d = x) /\ (exists a, amr_from x = Val a /\ amr_to a = x) /\
    (privilege_mode_from x = Panic <-> x = 2).
Proof.
  split; [by intros []|]. split; [by intros []|]. split; [by intros []|]. intros x [H0 H1]. change (2 ^ 2) with 4 in H1.
  assert (x = 0 \/ x = 1 \/ x = 2 \/ x = 3) as [-> |[-> |[-> | ->]]] by lia; split_and!; try (by eexists); done.
Qed.
