(* ===== verification/CpuInfo.v ===== *)
(** The processor information that bismuth prints
    ([device/bismuth/src/app/cpuid.rs]) from the registers of
    [device/quartz/src/arch/arm1176/cpuid.rs]: which coprocessor registers are
    read, and the text of each.

    A [Display] that is one [write!] with a [match] for each field is a table of
    its pieces; [tab], [newline] and [escape] are the control characters in them. *)
From stdpp Require Import strings pretty.
From S2P Require Import Prelude RiscvVectors Registers.

Module CpuInfo.
Open Scope string_scope.
Open Scope Z_scope.

(** *** The registers *)

Definition main_id : Coord := MkCoord 15 0 0 0 0.
Definition cache_type : Coord := MkCoord 15 0 0 0 1.
Definition tcm_status : Coord := MkCoord 15 0 0 0 2.
Definition tlb_type : Coord := MkCoord 15 0 0 0 3.
Definition processor_feature_0 : Coord := MkCoord 15 0 0 1 0.
Definition processor_feature_1 : Coord := MkCoord 15 0 0 1 1.
Definition debug_feature_0 : Coord := MkCoord 15 0 0 1 2.
Definition auxiliary_feature_0 : Coord := MkCoord 15 0 0 1 3.
Definition memory_model_feature_0 : Coord := MkCoord 15 0 0 1 4.
Definition memory_model_feature_1 : Coord := MkCoord 15 0 0 1 5.
Definition memory_model_feature_2 : Coord := MkCoord 15 0 0 1 6.
Definition memory_model_feature_3 : Coord := MkCoord 15 0 0 1 7.
Definition isa_feature_0 : Coord := MkCoord 15 0 0 2 0.
Definition isa_feature_1 : Coord := MkCoord 15 0 0 1 1.
Definition isa_feature_2 : Coord := MkCoord 15 0 0 1 2.
Definition isa_feature_3 : Coord := MkCoord 15 0 0 1 3.
Definition isa_feature_4 : Coord := MkCoord 15 0 0 1 4.
Definition isa_feature_5 : Coord := MkCoord 15 0 0 1 5.

(** *** Text *)

Definition tab : string := String (Ascii.ascii_of_nat 9) EmptyString.
Definition newline : string := String (Ascii.ascii_of_nat 10) EmptyString.
Definition escape : string := String (Ascii.ascii_of_nat 27) EmptyString.
Definition unknown : string := escape +:+ "[31mUNKNOWN" +:+ escape +:+ "[0m".
(** [{}] and [{:0wx}] of a number. *)
Definition decimal (x : Z) : string := pretty x.
Definition hex_digit (d : Z) : string := default "0" (["0"; "1"; "2"; "3"; "4"; "5"; "6"; "7"; "8"; "9"; "a"; "b"; "c"; "d"; "e"; "f"] !! Z.to_nat d).
(** The digits that are needed, up to [fuel], but at least [width]. *)
Fixpoint hex (fuel width : nat) (x : Z) (acc : string) : string :=
  match fuel with
  | O => acc
  | S fuel => if (x =? 0) && (width =? 0)%nat then acc else hex fuel (pred width) (x / 16) (hex_digit (x mod 16) +:+ acc)
  end.

(** One line: the text in front of the value, the field, the values that have a
    text, and the text of the others. *)
Record Row : Type := MkRow {
  row_label : string;
  row_field : string;
  row_known : list (Z * string);
  row_other : string;
}.
Record Display : Type := MkDisplay {
  of_register : Register;
  rows : list Row;
  tail : string;
}.
Section display.
Context {BF : BitField}.
Definition row_text (r : Register) (row : Row) (x : Z) : string :=
  match find (fun kv => fst kv =? read_named r (row_field row) x) (row_known row) with Some kv => snd kv | None => row_other row end.
Definition show (d : Display) (x : Z) : string :=
  foldr (fun row s => row_label row +:+ row_text (of_register d) row x +:+ s) (tail d) (rows d).

Definition display_MainId (x : Z) : string :=
  let implementor := if read_named MainId "implementor" x =? 0x41 then "ARM Limited" else "unknown implementor" in
  let part_no_str := if read_named MainId "primary_part_number" x =? 0xb76 then "ARM1176JZF-S" else "unknown implementor" in
  tab +:+ part_no_str +:+ " v" +:+ decimal (read_named MainId "architecture" x) +:+ " r" +:+ decimal (read_named MainId "variant_number" x) +:+
  "p" +:+ decimal (read_named MainId "revision" x) +:+ ", (PN " +:+ hex 4 3 (read_named MainId "primary_part_number" x) EmptyString +:+
  ") by " +:+ implementor +:+ " (" +:+ decimal (read_named MainId "implementor" x) +:+ ")" +:+ newline.

Definition line_len (x : Z) (other : string) : string := if x =? 2 then "32" else other.
Definition cache_size (x : Z) (other : string) : string :=
  match x with
  | 0 => "0.5" | 1 => "1" | 2 => "2" | 3 => "4" | 4 => "8" | 5 => "16" | 6 => "32" | 7 => "64" | 8 => "128" | _ => other
  end.
Definition display_CacheType (x : Z) : string :=
  let f n := read_named CacheType n x in
  let coloring n := if f n =? 1 then "page-colored " else EmptyString in
  if f "separate" =? 1 then
    tab +:+ "Harvard, ctype=" +:+
    (if f "ctype" =? 14 then "+write back,+format C lockdown,+reg7 cache cleaning ops" else "unknown CTYPE") +:+ newline +:+
    tab +:+ decimal (f "dcache_assoc") +:+ "-way " +:+ line_len (f "dcache_line_len") "unknown DSIZE_LEN" +:+ "B-wide " +:+
    cache_size (f "dcache_size") "unknown DSIZE_SIZE" +:+ "KB " +:+ coloring "dcache_page_coloring" +:+ "data cache" +:+ newline +:+
    tab +:+ decimal (f "icache_assoc") +:+ "-way " +:+ line_len (f "icache_line_len") "unknown ISIZE_LEN" +:+ "B-wide " +:+
    cache_size (f "icache_size") "unknown ISIZE_SIZE" +:+ "KB " +:+ coloring "icache_page_coloring" +:+ "instruction cache" +:+ newline
  else "single cache, raw value=" +:+ hex 8 8 x EmptyString.

Definition display_TlbType (x : Z) : string :=
  let f n := read_named TlbType n x in
  tab +:+ "TLB type: " +:+ (if f "unified" =? 0 then "unified" else "separate") +:+ newline +:+
  tab +:+ "Entries: 64x 2-way set-associative" +:+ newline +:+
  if f "unified" =? 0 then tab +:+ "Unified lockable TLBs: " +:+ decimal (f "data_lockable_size") +:+ newline
  else
    tab +:+ "Instruction lockable TLBs: " +:+ decimal (f "instruction_lockable_size") +:+ newline +:+
    tab +:+ "Data lockable TLBs: " +:+ decimal (f "data_lockable_size") +:+ newline.
End display.

Definition display_TcmStatus : Display := MkDisplay TcmStatus
  [MkRow (tab +:+ "Data TCM Count: ") "dtcm" [(0, "0"); (1, "1"); (2, "2")] ("Unknown");
   MkRow (newline +:+ " " +:+ tab +:+ "Instruction TCM Count: ") "itcm" [(0, "0"); (1, "1"); (2, "2")] ("Unknown")] (newline).
Definition display_ProcessorFeature0 : Display := MkDisplay ProcessorFeature0
  [MkRow (tab +:+ "32-bit ARM support: ") "state0" [(1, "yes")] unknown;
   MkRow (newline +:+ tab +:+ "Thumb support: ") "state1" [(1, "thumb1 only")] unknown;
   MkRow (newline +:+ tab +:+ "Java extension interface: ") "state2" [(1, "yes")] unknown;
   MkRow (newline +:+ tab +:+ "Thumb-2 support: ") "state3" [(0, "no")] unknown] (newline).
Definition display_ProcessorFeature1 : Display := MkDisplay ProcessorFeature1
  [MkRow (tab +:+ "ARMv4 Programmer's model: ") "armv4_programmers_model" [(1, "supported")] unknown;
   MkRow (newline +:+ tab +:+ "Security Extensions Architecture v1: ") "security_extensions_architecture_v1" [(1, "supported (TrustZone)")] unknown;
   MkRow (newline +:+ tab +:+ "ARM microcontroller programmer's model: ") "microcontroller_programmers_model" [(0, "not supported")] unknown] (newline).
Definition display_MemoryModelFeature0 : Display := MkDisplay MemoryModelFeature0
  [MkRow (tab +:+ "VMSA: ") "vmsa" [(3, "v7")] unknown;
   MkRow (newline +:+ tab +:+ "PMSA: ") "pmsa" [(0, "none")] unknown;
   MkRow (newline +:+ tab +:+ "Cache coherency support, CPU agent, shared memory: ") "cache_coherency_cpu_agent_shmem" [(0, "not supported")] unknown;
   MkRow (newline +:+ tab +:+ "Cache coherency support, DMA agent, shared memory: ") "cache_coherency_dma_agent_shmem" [(0, "not supported")] unknown;
   MkRow (newline +:+ tab +:+ "TCM and associated DMA: ") "tcm_and_assoc_dma" [(3, "armv6")] unknown;
   MkRow (newline +:+ tab +:+ "ARMv6 Auxiliary Control Register: ") "armv6_aux_ctrl_reg" [(1, "supported")] unknown;
   MkRow (newline +:+ tab +:+ "FCSE: ") "fcse" [(1, "supported")] unknown] (newline).
Definition display_MemoryModelFeature1 : Display := MkDisplay MemoryModelFeature1
  [MkRow (tab +:+ "BTB: ") "btb" [(1, "supported (required: BP flush on VA change)")] unknown;
   MkRow (newline +:+ tab +:+ "Cache operations (both):" +:+ newline +:+ tab +:+ tab +:+ "Test and clean: ") "dcache_test_and_clean_ops" [(0, "not supported")] unknown;
   MkRow (newline +:+ tab +:+ "Cache operations (unified):" +:+ newline +:+ tab +:+ tab +:+ "L1 - All maintenance operations: ") "l1_cache_all_maintenance_unified" [(0, "not supported")] unknown;
   MkRow (newline +:+ tab +:+ tab +:+ "L1 - Cache line maintenance (Set/Way): ") "l1_cache_line_maintenance_set_way_unified" [(0, "not supported")] unknown;
   MkRow (newline +:+ tab +:+ tab +:+ "L1 - Cache line maintenance (MVA): ") "l1_cache_line_maintenance_mva_unified" [(0, "not supported")] unknown;
   MkRow (newline +:+ tab +:+ "Cache Operations (Harvard):" +:+ newline +:+ tab +:+ tab +:+ "L1 - All maintenance operations: ") "l1_cache_all_maintenance_harvard" [(3, "invalidate:icache+BP,dcache,both  clean:dcache+recursive+dirty clean+invalidate:dcache+recursive+dirty")] unknown;
   MkRow (newline +:+ tab +:+ tab +:+ "L1 - Cache line maintenance (Set/Way): ") "l1_cache_line_maintenance_set_way_harvard" [(3, "clean,clean+invalidate:dcacheline invalidate:dcacheline,icacheline")] unknown;
   MkRow (newline +:+ tab +:+ tab +:+ "L1 - Cache line maintenance (MVA): ") "l1_cache_line_maintenance_mva_harvard" [(2, "clean,clean+invalidate:dcacheline invalidate:dcacheline,icacheline,BTB")] unknown] (newline).
Definition display_MemoryModelFeature2 : Display := MkDisplay MemoryModelFeature2
  [MkRow (tab +:+ "Hardware access flag: ") "hardware_access_flag" [(0, "not supported")] unknown;
   MkRow (newline +:+ tab +:+ "Wait For Interrupt (WFI) stalling: ") "wait_for_int_stalling" [(1, "supported")] unknown;
   MkRow (newline +:+ tab +:+ "Memory barriers: ") "memory_barriers" [(2, "DataSynchronizationBarrier,PrefetchFlush,DataMemoryBarrier")] unknown;
   MkRow (newline +:+ tab +:+ "TLB maintenance operations (unified): ") "tlb_maintenance_unified" [(2, "invalidate:all entries,by MVA,by ASID match")] unknown;
   MkRow (newline +:+ tab +:+ "TLB maintenance operations (Harvard): ") "tlb_maintenance_harvard" [(2, "invalidate TLB:i,d,i+d x all,MVA,ASID")] unknown;
   MkRow (newline +:+ tab +:+ "Cache maintenance range operations (Harvard): ") "cache_maintenance_range_harvard" [(1, "clean,clean+invalidate range:dcache invalidate range:icache,dcache")] unknown;
   MkRow (newline +:+ tab +:+ "Background prefetch cache range operations (Harvard): ") "background_prefetch_cache_range_harvard" [(0, "not supported")] unknown;
   MkRow (newline +:+ tab +:+ "Foreground prefetch cache range operations (Harvard): ") "foreground_prefetch_cache_range_harvard" [(0, "not supported")] unknown] (newline).
Definition display_MemoryModelFeature3 : Display := MkDisplay MemoryModelFeature3
  [MkRow (tab +:+ "Hierarchical cache maintenance (by MVA): ") "hierarchical_cache_maintenance_mva" [(0, "not supported")] unknown;
   MkRow (newline +:+ tab +:+ "Hierarchical cache maintenance (by Set/Way): ") "hierarchical_cache_maintenance_set_way" [(0, "not supported")] unknown] (newline).
Definition display_IsaFeature0 : Display := MkDisplay IsaFeature0
  [MkRow (tab +:+ "Divide instructions: ") "divide" [(0, "not supported")] unknown;
   MkRow (newline +:+ tab +:+ "Debug instructions: ") "debug" [(1, "BKPT")] unknown;
   MkRow (newline +:+ tab +:+ "Coprocessor instructions: ") "coprocessor" [(4, "CDP,LDC,MCR,MRC,STC,MCRR,MRRC [2]")] unknown;
   MkRow (newline +:+ tab +:+ "Combined compare-and-branch instructions: ") "combined_compare_and_branch" [(0, "not supported")] unknown;
   MkRow (newline +:+ tab +:+ "Bitfield instructions: ") "bitfield" [(0, "not supported")] unknown;
   MkRow (newline +:+ tab +:+ "Bit counting instructions: ") "bit_counting" [(1, "CLZ")] unknown;
   MkRow (newline +:+ tab +:+ "Atomic load and store instructions: ") "atomic_load_store" [(1, "SWP,SWPB")] unknown] (newline).
Definition display_IsaFeature1 : Display := MkDisplay IsaFeature1
  [MkRow (tab +:+ "Java instructions: ") "java" [(1, "BXJ,J bit in PSRs")] unknown;
   MkRow (newline +:+ tab +:+ "Interworking instructions: ") "interworking" [(2, "BX,T bit in PSRs, BLX and PC loads have BX behaviour")] unknown;
   MkRow (newline +:+ tab +:+ "Immediate instructions: ") "immediate" [(0, "not supported")] unknown;
   MkRow (newline +:+ tab +:+ "If-then instructions: ") "if_then" [(0, "not supported")] unknown;
   MkRow (newline +:+ tab +:+ "Sign/Zero extending instructions: ") "sign_zero_extend" [(2, "SXT/UXT [A] B/B16/H")] unknown;
   MkRow (newline +:+ tab +:+ "Exception 2 instructions: ") "exception_2" [(1, "SRS,RFE,CPS")] unknown;
   MkRow (newline +:+ tab +:+ "Exception 1 instructions: ") "exception_1" [(1, "LDM^,LDM(pc)^,STM^")] unknown;
   MkRow (newline +:+ tab +:+ "Endianness control instructions: ") "endianness_ctrl" [(1, "SETEND,E bit in PSRs")] unknown] (newline).
Definition display_IsaFeature2 : Display := MkDisplay IsaFeature2
  [MkRow (tab +:+ "Reversal instructions: ") "reversal" [(1, "REV,REV16,REVSH")] unknown;
   MkRow (newline +:+ tab +:+ "PSR instructions: ") "psr" [(1, "MRS,MSR")] unknown;
   MkRow (newline +:+ tab +:+ "Advanced unsigned multiply instructions: ") "adv_umult" [(2, "UMULL,UMLAL,UMAAL")] unknown;
   MkRow (newline +:+ tab +:+ "Advanced signed multiply instructions: ") "adv_smult" [(3, "SMULL/SMLAL SMLA[L](B|T|W)(B|T|W),Q bit in PSRs, SML[A|S][L](X|D)[X|D] SMML(A|S)[R] SMMUL[R] SMU(A|S)D[X]")] unknown;
   MkRow (newline +:+ tab +:+ "Multiply instructions: ") "mult" [(1, "MLA")] unknown;
   MkRow (newline +:+ tab +:+ "Multi-access interruptible instructions: ") "multi_access_interruptible" [(1, "restartable LDM,STM")] unknown;
   MkRow (newline +:+ tab +:+ "Memory hint instructions: ") "memory_hint" [(2, "PLD")] unknown;
   MkRow (newline +:+ tab +:+ "Load/store instructions: ") "load_store" [(1, "LDRD,STRD")] unknown] (newline).
Definition display_IsaFeature3 : Display := MkDisplay IsaFeature3
  [MkRow (tab +:+ "Thumb-2 extensions: ") "thumb2" [(0, "not supported")] unknown;
   MkRow (newline +:+ tab +:+ "True NOP instructions: ") "true_nop" [(1, "NOP (+capability: additional NOP-compatible hints); NOP16 not supported")] unknown;
   MkRow (newline +:+ tab +:+ "Thumb copy instructions: ") "thumb_copy" [(1, "MOV (3) low-reg -> low-reg, CPY alias")] unknown;
   MkRow (newline +:+ tab +:+ "Table branch instructions: ") "table_branch" [(0, "not supported")] unknown;
   MkRow (newline +:+ tab +:+ "Synchronization primitive instructions: ") "synchronization" [(2, "LDREX[B|H|D] STREX[B|H|D] CLREX")] unknown;
   MkRow (newline +:+ tab +:+ "SVC instructions: ") "svc" [(1, "SVC")] unknown;
   MkRow (newline +:+ tab +:+ "SIMD instructions: ") "simd" [(3, "PKH[B/T] (U[H|Q]|S[H]|Q)ADD(8|16|SUBX) (U[H|Q]|S[H]|Q)SUB(8|16|ADDX) SEL SSAT[16] (U|S)XT[A]B16 USAD[A]8 USAT(8|16), GE[3:0] bits in PSRs")] unknown;
   MkRow (newline +:+ tab +:+ "Saturate instructions: ") "saturate" [(1, "QADD,QDADD,QDSUB,QSUB,Q bit in PSRs")] unknown] (newline).
Definition display_IsaFeature4 : Display := MkDisplay IsaFeature4
  [MkRow (tab +:+ "Fractional support for synchronization primitive instructions: ") "fractional_synchronization" [(0, "none")] unknown;
   MkRow (newline +:+ tab +:+ "Barrier instructions: ") "barrier" [(0, "CP15 only")] unknown;
   MkRow (newline +:+ tab +:+ "SMC instructions: ") "smc" [(1, "SMC")] unknown;
   MkRow (newline +:+ tab +:+ "Writeback instructions: ") "writeback" [(1, "all defined writeback addressing modes")] unknown;
   MkRow (newline +:+ tab +:+ "With shift instructions: ") "shift" [(4, "shifts of loads and stores over LSL0-3, constant/register controlled shift options")] unknown;
   MkRow (newline +:+ tab +:+ "Unprivileged instructions: ") "unprivileged" [(1, "LDRBT,LDRT,STRBT,STRT")] unknown] (newline).

(** *** The dump: the strings that are printed as lines *)

Section dump.
Context {BF : BitField}.
Definition dump_with_label (label : string) (show_it : Z -> string) (c : Coord) (m : Coord -> Z) : string :=
  let v := read_raw c m in label +:+ ": <" +:+ hex 8 8 v EmptyString +:+ ">" +:+ newline +:+ show_it v.
Definition dump_plain (label : string) (c : Coord) (m : Coord -> Z) : string :=
  label +:+ ": <" +:+ hex 8 8 (read_raw c m) EmptyString +:+ ">".
Definition dump_cpu_info (m : Coord -> Z) : list string :=
  ["=== BEGIN CPU Information ===";
   dump_with_label "Main ID" display_MainId main_id m;
   dump_with_label "Cache Type" display_CacheType cache_type m;
   dump_with_label "TCM Status" (show display_TcmStatus) tcm_status m;
   dump_with_label "TLB Type" display_TlbType tlb_type m;
   dump_with_label "Processor Feature 0" (show display_ProcessorFeature0) processor_feature_0 m;
   dump_with_label "Processor Feature 1" (show display_ProcessorFeature1) processor_feature_1 m;
   dump_plain "Debug Feature 0" debug_feature_0 m;
   dump_plain "Auxiliary Feature 0" auxiliary_feature_0 m;
   dump_with_label "Memory Model Feature 0" (show display_MemoryModelFeature0) memory_model_feature_0 m;
   dump_with_label "Memory Model Feature 1" (show display_MemoryModelFeature1) memory_model_feature_1 m;
   dump_with_label "Memory Model Feature 2" (show display_MemoryModelFeature2) memory_model_feature_2 m;
   dump_with_label "Memory Model Feature 3" (show display_MemoryModelFeature3) memory_model_feature_3 m;
   dump_with_label "Instruction Set Feature 0" (show display_IsaFeature0) isa_feature_0 m;
   dump_with_label "Instruction Set Feature 1" (show display_IsaFeature1) isa_feature_1 m;
   dump_with_label "Instruction Set Feature 2" (show display_IsaFeature1) isa_feature_2 m;
   dump_with_label "Instruction Set Feature 3" (show display_IsaFeature3) isa_feature_3 m;
   dump_with_label "Instruction Set Feature 4" (show display_IsaFeature4) isa_feature_4 m;
   dump_plain "Instruction Set Feature 5" isa_feature_5 m;
   "=== END CPU Information ==="].
End dump.
End CpuInfo.
Export CpuInfo.

(** ** Known and unknown values *)

(** Every value in the register has a text. *)
Definition recognised {BF : BitField} (d : Display) (x : Z) : Prop :=
  forall row, row ∈ rows d -> exists kv, kv ∈ row_known row /\ fst kv = read_named (of_register d) (row_field row) x.

Lemma string_app_assoc (a b c : string) : (a +:+ b) +:+ c = a +:+ (b +:+ c).
Proof. induction a as [|x a IH]; [done|]. exact (f_equal (String x) IH). Qed.
Lemma show_row {BF : BitField} d x row :
  row ∈ rows d -> exists s1 s2, show d x = s1 +:+ row_text (of_register d) row x +:+ s2.
Proof.
  unfold show. induction (rows d) as [|row' rs IH]; intros Hin; [by apply elem_of_nil in Hin|]. cbn [foldr].
  apply elem_of_cons in Hin as [->|Hin].
  - by eexists (row_label row'), _.
  - destruct (IH Hin) as (s1 & s2 & ->). exists (row_label row' +:+ row_text (of_register d) row' x +:+ s1), s2.
    by rewrite !string_app_assoc.
Qed.
Lemma row_unknown {BF : BitField} r row x v text :
  row_known row = [(v, text)] -> read_named r (row_field row) x <> v -> row_text r row x = row_other row.
Proof. intros Hk Hv. unfold row_text. rewrite Hk. cbn. by rewrite (proj2 (Z.eqb_neq v _)) by congruence. Qed.
Lemma recognised_value {BF : BitField} d x row v text :
  recognised d x -> row ∈ rows d -> row_known row = [(v, text)] -> read_named (of_register d) (row_field row) x = v.
Proof. intros Hr Hin Hk. destruct (Hr row Hin) as (kv & Hkv & <-). rewrite Hk in Hkv. by apply list_elem_of_singleton in Hkv as ->. Qed.

(** ** The claims *)

(** Every row of a display names a field of its register, and the values that have
    a text are distinct and fit the field. *)
Theorem displays_typed d row :
  d ∈ [display_TcmStatus; display_ProcessorFeature0; display_ProcessorFeature1; display_MemoryModelFeature0;
       display_MemoryModelFeature1; display_MemoryModelFeature2; display_MemoryModelFeature3; display_IsaFeature0;
       display_IsaFeature1; display_IsaFeature2; display_IsaFeature3; display_IsaFeature4] ->
  row ∈ rows d ->
  exists f, named (of_register d) (row_field row) = Some f /\ NoDup (map fst (row_known row)) /\
    Forall (fun v => fits (f_hi f - f_lo f + 1) v) (map fst (row_known row)).
Proof.
  intros Hd Hrow. set (ok (d : Display) (row : Row) := match named (of_register d) (row_field row) with
    | Some f => bool_decide (NoDup (map fst (row_known row)) /\ Forall (fun v => fits (f_hi f - f_lo f + 1) v) (map fst (row_known row)))
    | None => false end).
  assert (ok d row = true) as Hok.
  { revert row Hrow. apply list.Forall_forall. revert d Hd. apply list.Forall_forall. repeat constructor. }
  unfold ok in Hok. destruct (named _ _) as [f|]; [|done]. exists f. split; [done|]. by apply bool_decide_eq_true in Hok.
Qed.

(** The instruction-set features are read from the registers in front of them:
    the names [isa_feature_1] to [isa_feature_5] have the numbers of other
    registers, while all the other names have numbers of their own. *)
Theorem isa_features_misread m :
  read_raw isa_feature_1 m = read_raw processor_feature_1 m /\ read_raw isa_feature_2 m = read_raw debug_feature_0 m /\
  read_raw isa_feature_3 m = read_raw auxiliary_feature_0 m /\ read_raw isa_feature_4 m = read_raw memory_model_feature_0 m /\
  read_raw isa_feature_5 m = read_raw memory_model_feature_1 m /\
  NoDup [main_id; cache_type; tcm_status; tlb_type; processor_feature_0; processor_feature_1; debug_feature_0; auxiliary_feature_0;
         memory_model_feature_0; memory_model_feature_1; memory_model_feature_2; memory_model_feature_3; isa_feature_0].
Proof. do 5 (split; [done|]). decide_now. Qed.

(** On a processor whose feature registers the displays know, the dump calls the
    instruction-set features 1 and 4 unknown, because it shows other registers. *)
Theorem cpu_dump_misreports {BF : BitField} m :
  recognised display_ProcessorFeature1 (read_raw processor_feature_1 m) ->
  recognised display_MemoryModelFeature0 (read_raw memory_model_feature_0 m) ->
  (exists s1 s2, show display_IsaFeature1 (read_raw isa_feature_1 m) = s1 +:+ unknown +:+ s2) /\
  (exists s1 s2, show display_IsaFeature4 (read_raw isa_feature_4 m) = s1 +:+ unknown +:+ s2).
Proof.
  intros Hp Hv.
  pose proof (fun row H => recognised_value _ _ row 0 "not supported" Hp H) as H1.
  pose proof (fun row H => recognised_value _ _ row 3 "v7" Hv H) as H4.
  split.
  - unfold display_IsaFeature1. destruct (show_row display_IsaFeature1 (read_raw isa_feature_1 m) (MkRow (newline +:+ tab +:+ "Exception 2 instructions: ") "exception_2" [(1, "SRS,RFE,CPS")] unknown)) as (s1 & s2 & Hs).
    { apply list_elem_of_In. cbn. tauto. }
    erewrite row_unknown in Hs; [|reflexivity|]; [by eexists _, _|]. intros He.
    pose proof (H1 (MkRow (newline +:+ tab +:+ "ARM microcontroller programmer's model: ") "microcontroller_programmers_model" [(0, "not supported")] unknown)
      ltac:(apply list_elem_of_In; cbn; tauto) eq_refl) as H0.
    change (get_field (Rw Fu8 "microcontroller_programmers_model" 8 11) (m processor_feature_1) = 0) in H0.
    change (get_field (Rw Fu8 "exception_2" 8 11) (m processor_feature_1) = 1) in He. unfold get_field in *. cbn in H0, He. congruence.
  - destruct (show_row display_IsaFeature4 (read_raw isa_feature_4 m) (MkRow (newline +:+ tab +:+ "Unprivileged instructions: ") "unprivileged" [(1, "LDRBT,LDRT,STRBT,STRT")] unknown)) as (s1 & s2 & Hs).
    { apply list_elem_of_In. cbn. tauto. }
    erewrite row_unknown in Hs; [|reflexivity|]; [by eexists _, _|]. intros He.
    pose proof (H4 (MkRow (tab +:+ "VMSA: ") "vmsa" [(3, "v7")] unknown) ltac:(apply list_elem_of_In; cbn; tauto) eq_refl) as H0.
    change (get_field (Rw Fu8 "vmsa" 0 3) (m memory_model_feature_0) = 3) in H0.
    change (get_field (Rw Fu8 "unprivileged" 0 3) (m memory_model_feature_0) = 1) in He. unfold get_field in *. cbn in H0, He. congruence.
Qed.

Lemma displays_typed_witness :
  exists f, named TcmStatus "dtcm" = Some f /\ NoDup (map fst [(0, "0"); (1, "1"); (2, "2")]%string) /\
    Forall (fun v => fits (f_hi f - f_lo f + 1) v) (map fst [(0, "0"); (1, "1"); (2, "2")]%string).
Proof.
  apply (displays_typed display_TcmStatus (MkRow (tab +:+ "Data TCM Count: ") "dtcm" [(0, "0"); (1, "1"); (2, "2")] "Unknown")%string);
    apply list_elem_of_In; cbn; tauto.
Defined.

(** The ARM1176JZF-S. *)
Lemma cpu_dump_misreports_witness :
  let BF := {| bits x lo hi := x / 2 ^ lo mod 2 ^ (hi - lo + 1); RiscvVectors.set_bits x _ _ _ := x |} : BitField in
  let m c := if bool_decide (c = processor_feature_1) then 0x11 else if bool_decide (c = memory_model_feature_0) then 0x01130003 else 0 in
  (exists s1 s2, show display_IsaFeature1 (read_raw isa_feature_1 m) = s1 +:+ unknown +:+ s2) /\
  (exists s1 s2, show display_IsaFeature4 (read_raw isa_feature_4 m) = s1 +:+ unknown +:+ s2).
Proof.
  intros BF m. apply (@cpu_dump_misreports BF m); unfold recognised; apply list.Forall_forall; repeat constructor;
    (eexists; split; [by apply list_elem_of_singleton|by vm_compute]).
Defined.
