(* ===== verification/DebugMonitor.v ===== *)
(** The monitor of the interleaving checker ([device/bismuth/src/app/debug.rs]): the
    debug registers, the dispatch of the prefetch abort, and the program that the
    checker tests, two threads that take a lock without atomic operations.

    The scheduler is [Interleave]'s; between two stops a thread does at most one
    access to the lock, and any number of stops without one. *)
From stdpp Require Import strings.
From S2P Require Import Prelude Words RiscvVectors Registers Interleave.

Module DebugMonitor.
Open Scope string_scope.
Open Scope Z_scope.

Definition debug_status_control : Coord := MkCoord 14 0 0 1 0.
Definition watchpoint_fault_address : Coord := MkCoord 14 0 0 6 0.
Definition breakpoint_value_register_0 : Coord := MkCoord 14 0 0 0 4.
Definition breakpoint_value_register_4 : Coord := MkCoord 14 0 0 4 4.
Definition breakpoint_value_register_5 : Coord := MkCoord 14 0 0 5 4.
Definition breakpoint_control_register_0 : Coord := MkCoord 14 0 0 0 5.
Definition breakpoint_control_register_4 : Coord := MkCoord 14 0 0 4 5.
Definition breakpoint_control_register_5 : Coord := MkCoord 14 0 0 5 5.
Definition watchpoint_value_register_0 : Coord := MkCoord 14 0 0 0 6.
Definition watchpoint_value_register_1 : Coord := MkCoord 14 0 0 1 6.
Definition watchpoint_control_register_0 : Coord := MkCoord 14 0 0 0 7.
Definition watchpoint_control_register_1 : Coord := MkCoord 14 0 0 1 7.
Definition data_fault_status : Coord := MkCoord 15 0 5 0 0.
Definition instruction_fault_status : Coord := MkCoord 15 0 5 0 1.
Definition fault_address : Coord := MkCoord 15 0 6 0 0.
Definition instruction_fault_address : Coord := MkCoord 15 0 6 0 2.

Inductive DebugEntryMethod : Type := HaltDBGTAP | Breakpoint | Watchpoint | BKPTInstr | EDBGRQSignal | VectorCatch.
Definition debug_entry_try_from (value : Z) : result DebugEntryMethod Z :=
  match value with
  | 0 => Ok HaltDBGTAP | 1 => Ok Breakpoint | 2 => Ok Watchpoint | 3 => Ok BKPTInstr | 4 => Ok EDBGRQSignal | 5 => Ok VectorCatch
  | x => Err x
  end.
Inductive BvrMeaning : Type := IMVAMatch | ContextIdMatch | IMVAMismatch.
Definition bvr_meaning_try_from (value : Z) : result BvrMeaning Z :=
  match value with 0 => Ok IMVAMatch | 1 => Ok ContextIdMatch | 2 => Ok IMVAMismatch | x => Err x end.

Section monitor.
Context {BF : BitField}.

(** The return address; [next_instruction] is the scheduler's. *)
Definition prefetch_abort (dscr lr : Z) (next_instruction : run Z) : run Z :=
  match debug_entry_try_from (read_named Dscr "debug_entry" dscr) with
  | Ok BKPTInstr => Val (wrap 32 (lr + 4))
  | Ok _ => next_instruction
  | Err _ => Panic
  end.

Definition monitor_debug_enable : Field := Rw Fbool "monitor_debug_enable" 15 15.
(** Before the first run, and behind the last. *)
Definition debug_enable (m : Coord -> Z) : Coord -> Z := modify_raw debug_status_control (set_field monitor_debug_enable 1) m.
Definition debug_disable (m : Coord -> Z) : Coord -> Z :=
  modify_raw debug_status_control (set_field monitor_debug_enable 0) (write_raw breakpoint_control_register_0 0 m).
End monitor.

(** *** [LOCK], [trylock], [unlock], [test_a], [test_b] *)

(** Where a thread is: before the first reading of [LOCK], before the volatile
    reading and the volatile writing of [trylock], and before the reading and the
    writing of [unlock], which [test_b] does not call; and, at its end, whether
    [trylock] has returned true. *)
Inductive lock_pc : Type := ReadLock | ReadVolatile | WriteVolatile (y : Z) | UnlockRead | UnlockWrite (z : Z) | TestDone (took : bool).
Definition lock_access (unlocks : bool) (pc : lock_pc) (LOCK : Z) : lock_pc * Z :=
  match pc with
  | ReadLock => (if 0 <? LOCK then TestDone false else ReadVolatile, LOCK)
  | ReadVolatile => (WriteVolatile LOCK, LOCK)
  | WriteVolatile y => (if unlocks then UnlockRead else TestDone true, wrap 32 (y + 1))
  | UnlockRead => (UnlockWrite LOCK, LOCK)
  | UnlockWrite z => (TestDone true, wrap 32 (z - 1))
  | TestDone took => (TestDone took, LOCK)
  end.

(** A thread, and the number of its stops before the next access. *)
Record lock_thread : Type := MkLockThread {
  lt_pc : lock_pc;
  lt_wait : nat;
}.
Section lock_test.
(** The stops before each access, for each of the threads. *)
Context (pad : lock_pc -> nat) (unlocks : bool).
Definition lock_turn (t : lock_thread) (LOCK : Z) : lock_thread * Z :=
  match lt_wait t with
  | S w => (MkLockThread (lt_pc t) w, LOCK)
  | O => let '(pc, LOCK) := lock_access unlocks (lt_pc t) LOCK in (MkLockThread pc (pad pc), LOCK)
  end.
(** At most [n] turns, a check behind each; nothing is left to do behind the end. *)
Fixpoint lock_turns (n : nat) (t : lock_thread) (p : LabPolicyAba) (LOCK : Z) : lock_thread * LabPolicyAba * Z :=
  match n with
  | O => (t, p, LOCK)
  | S n =>
    match lt_pc t with
    | TestDone _ => (t, p, LOCK)
    | _ => let '(t, LOCK) := lock_turn t LOCK in lock_turns n t (aba_check p LOCK) LOCK
    end
  end.
End lock_test.

(** The run of [LabPolicyAba] with parameter [n]: A for [n] turns, B to its end, A to
    its end; the result, whether A and B have taken the lock, and the lock. *)
Definition lock_test (fuel : nat) (pad_a pad_b : lock_pc -> nat) (n : nat) : option (bool * bool * bool * Z) :=
  let start pad := MkLockThread ReadLock (pad ReadLock) in
  let '(a, p, LOCK) := lock_turns pad_a true n (start pad_a) (aba_new (Z.of_nat n)) 0 in
  let '(b, p, LOCK) := lock_turns pad_b false fuel (start pad_b) p LOCK in
  let '(a, p, LOCK) := lock_turns pad_a true fuel a p LOCK in
  match lt_pc a, lt_pc b with TestDone took_a, TestDone took_b => Some (is_ok p, took_a, took_b, LOCK) | _, _ => None end.

(** [debug_init_singlestep]: the results of the parameters 0 to 9, sorted, each once. *)
Definition sort_bools (l : list bool) : list bool := List.filter negb l ++ List.filter (fun b => b) l.
Fixpoint dedup (l : list bool) : list bool :=
  match l with
  | b :: (c :: _) as l => if bool_decide (b = c) then dedup l else b :: dedup l
  | _ => l
  end.
Definition checker_results (fuel : nat) (pad_a pad_b : lock_pc -> nat) : option (list bool) :=
  result_set ← mapM (fun i => '(result, _, _, _) ← lock_test fuel pad_a pad_b i; Some (result : bool)) (seq 0 10);
  Some (dedup (sort_bools result_set)).
End DebugMonitor.
Export DebugMonitor.

(** ** Turns *)

Section turns.
Context (pad : lock_pc -> nat) (unlocks : bool).
Implicit Types (p : LabPolicyAba) (L : Z) (w n : nat).

(** Where a thread has something left to do. *)
Definition busy (pc : lock_pc) : Prop := match pc with TestDone _ => False | _ => True end.

(** A check changes nothing if the lock is not above one, or was before. *)
Lemma check_same p L : L <= 1 \/ is_ok p = false -> aba_check p L = p.
Proof.
  unfold aba_check. intros H. destruct (Z.ltb_spec 1 L); [|done]. destruct H as [H|H]; [lia|]. destruct p. cbn in *. by subst.
Qed.

(** Stops without an access. *)
Lemma turns_wait w n pc p L :
  busy pc -> L <= 1 \/ is_ok p = false -> (n <= w)%nat ->
  lock_turns pad unlocks n (MkLockThread pc w) p L = (MkLockThread pc (w - n), p, L).
Proof.
  intros Hpc HL. revert w. induction n as [|n IH]; intros w Hn; cbn [lock_turns]; [by rewrite Nat.sub_0_r|].
  destruct w as [|w]; [lia|]. cbn [lt_pc]. destruct pc; try done; cbn [lock_turn lt_wait lt_pc]; rewrite check_same by done; by apply IH; lia.
Qed.
Lemma turns_split n k t p L :
  lock_turns pad unlocks (n + k) t p L = let '(t, p, L) := lock_turns pad unlocks n t p L in lock_turns pad unlocks k t p L.
Proof.
  revert t p L. induction n as [|n IH]; intros t p L; [done|]. cbn [Nat.add lock_turns].
  destruct (lt_pc t) eqn:Ht; try (destruct (lock_turn pad unlocks t L); apply IH).
  destruct k; cbn [lock_turns]; by rewrite ?Ht.
Qed.
(** The stops before the access, and the access. *)
Lemma turns_access w n pc p L :
  busy pc -> L <= 1 \/ is_ok p = false -> (w < n)%nat ->
  lock_turns pad unlocks n (MkLockThread pc w) p L =
    lock_turns pad unlocks (n - S w) (MkLockThread (fst (lock_access unlocks pc L)) (pad (fst (lock_access unlocks pc L))))
      (aba_check p (snd (lock_access unlocks pc L))) (snd (lock_access unlocks pc L)).
Proof.
  intros Hpc HL Hn. replace n with (w + S (n - S w))%nat at 1 by lia.
  rewrite turns_split, turns_wait, Nat.sub_diag by (done || lia). cbn [lock_turns lt_pc].
  destruct pc; try done; cbn [lock_turn lt_wait lt_pc lock_access]; by try destruct (0 <? L).
Qed.
Lemma turns_done n w took p L :
  lock_turns pad unlocks n (MkLockThread (TestDone took) w) p L = (MkLockThread (TestDone took) w, p, L).
Proof. by destruct n. Qed.
End turns.

(** Thread B alone: it takes a lock that is free. *)
Lemma b_runs pad fuel p :
  (pad ReadLock + pad ReadVolatile + pad (WriteVolatile 0) + 3 <= fuel)%nat ->
  lock_turns pad false fuel (MkLockThread ReadLock (pad ReadLock)) p 0 = (MkLockThread (TestDone true) (pad (TestDone true)), p, 1).
Proof.
  intros Hf. rewrite turns_access by (exact I || lia || (left; lia)). cbn [lock_access fst snd Z.ltb Z.compare]. rewrite check_same by (left; lia).
  rewrite turns_access by (exact I || lia || (left; lia)). cbn [lock_access fst snd]. rewrite check_same by (left; lia).
  rewrite turns_access by (exact I || lia || (left; lia)). cbn [lock_access fst snd]. change (wrap 32 (0 + 1)) with 1.
  rewrite check_same by (left; lia). apply turns_done.
Qed.
Lemma b_fails pad unlocks fuel w p :
  (w < fuel)%nat -> lock_turns pad unlocks fuel (MkLockThread ReadLock w) p 1 = (MkLockThread (TestDone false) (pad (TestDone false)), p, 1).
Proof.
  intros Hf. rewrite turns_access by (exact I || lia || (left; lia)). cbn [lock_access fst snd Z.ltb Z.compare].
  rewrite check_same by (left; lia). apply turns_done.
Qed.
(** Thread A from the middle of its critical section, or of [trylock] when B has got
    the lock in between. *)
Lemma a_unlocks pad fuel w p L :
  0 < L <= 2 -> L <= 1 \/ is_ok p = false -> (w < fuel)%nat ->
  lock_turns pad true fuel (MkLockThread (UnlockWrite L) w) p L = (MkLockThread (TestDone true) (pad (TestDone true)), p, L - 1).
Proof.
  intros HL Hp Hf. rewrite turns_access by (exact I || done). cbn [lock_access fst snd].
  replace (wrap 32 (L - 1)) with (L - 1) by (symmetry; apply wrap_id; unfold fits; lia).
  rewrite check_same by (left; lia). apply turns_done.
Qed.
Lemma a_unlock_reads pad fuel w p L :
  0 < L <= 2 -> L <= 1 \/ is_ok p = false -> (w + pad (UnlockWrite L) + 2 <= fuel)%nat ->
  lock_turns pad true fuel (MkLockThread UnlockRead w) p L = (MkLockThread (TestDone true) (pad (TestDone true)), p, L - 1).
Proof.
  intros HL Hp Hf. rewrite turns_access by (exact I || done || lia). cbn [lock_access fst snd]. rewrite check_same by done.
  apply a_unlocks; [done|done|lia].
Qed.
Lemma a_writes pad fuel w p y :
  y = 0 \/ y = 1 -> (w + pad UnlockRead + pad (UnlockWrite (y + 1)) + 3 <= fuel)%nat ->
  lock_turns pad true fuel (MkLockThread (WriteVolatile y) w) p 1 =
    (MkLockThread (TestDone true) (pad (TestDone true)), aba_check p (y + 1), y).
Proof.
  intros Hy Hf. rewrite turns_access by (exact I || lia || (left; lia)). cbn [lock_access fst snd].
  replace (wrap 32 (y + 1)) with (y + 1) by (destruct Hy as [-> | ->]; done).
  rewrite a_unlock_reads; [by replace (y + 1 - 1) with y by lia|lia| |lia].
  destruct Hy as [-> | ->]; [by left|right; done].
Qed.

(** Enough for each of some numbers is enough for all of them. *)
Lemma enough_for_all (P : nat -> nat -> Prop) N :
  (forall n, exists e, forall f, (e <= f)%nat -> P n f) -> exists e, forall f, (e <= f)%nat -> forall n, (n < N)%nat -> P n f.
Proof.
  intros HP. induction N as [|N [e He]]; [by exists 0%nat; intros; lia|]. destruct (HP N) as [e' He'].
  exists (max e e'). intros f Hf n Hn. destruct (decide (n = N)) as [->|]; [apply He'; lia|apply He; lia].
Qed.
Lemma dedup_replicate b n : dedup (replicate (S n) b) = [b].
Proof. induction n as [|n IH]; [done|]. cbn [replicate dedup] in *. by rewrite bool_decide_true. Qed.
Lemma dedup_two m n : dedup (replicate (S m) false ++ replicate (S n) true)%list = [false; true].
Proof.
  induction m as [|m IH].
  - change (replicate 1 false ++ replicate (S n) true)%list with (false :: replicate (S n) true).
    transitivity (false :: dedup (replicate (S n) true)); [done|by rewrite dedup_replicate].
  - cbn [replicate app dedup] in *. by rewrite bool_decide_true.
Qed.
(** Sorted and without repetitions, a list of booleans is what occurs in it. *)
Lemma dedup_sorted l :
  dedup (sort_bools l) = ((if existsb negb l then [false] else []) ++ (if existsb (fun b => b) l then [true] else []))%list.
Proof.
  assert (forall f v, (forall b, f b = true -> b = v) -> exists n, List.filter f l = replicate n v /\ existsb f l = negb (Nat.eqb n 0)) as Hfilter.
  { intros f v Hf. induction l as [|b l (n & IH & Ie)]; [by exists 0%nat|]. cbn [List.filter existsb]. destruct (f b) eqn:Hb.
    - exists (S n). rewrite IH, (Hf b Hb). done.
    - exists n. by rewrite IH. }
  unfold sort_bools. destruct (Hfilter negb false) as (m & -> & ->); [by intros []|].
  destruct (Hfilter (fun b => b) true) as (n & -> & ->); [done|].
  destruct m as [|m], n as [|n]; [done|apply dedup_replicate|rewrite app_nil_r; apply dedup_replicate|apply dedup_two].
Qed.

(** ** The claims *)

(** What the checker finds out about the lock without atomic operations, for every
    number of stops between the accesses.  If A is stopped between its first
    reading and the volatile one, both threads take the lock and the check
    fails.  If it is stopped between the volatile reading and the writing, both
    take the lock too, but the check passes, since the update of B is lost: the
    lock is free at the end although B never gives it back.  In all other cases
    the lock excludes, and the check passes. *)
Theorem lock_test_verdicts pad_a pad_b n :
  let a1 := S (pad_a ReadLock) in
  let a2 := (a1 + S (pad_a ReadVolatile))%nat in
  let a3 := (a2 + S (pad_a (WriteVolatile 0)))%nat in
  let a5 := (a3 + S (pad_a UnlockRead) + S (pad_a (UnlockWrite 1)))%nat in
  exists enough, forall fuel, (enough <= fuel)%nat ->
    lock_test fuel pad_a pad_b n = Some (
      if bool_decide (n < a1)%nat then (true, false, true, 1)
      else if bool_decide (n < a2)%nat then (false, true, true, 1)
      else if bool_decide (n < a3)%nat then (true, true, true, 0)
      else if bool_decide (n < a5)%nat then (true, true, false, 0)
      else (true, true, true, 1)).
Proof.
  intros a1 a2 a3 a5.
  exists (a5 + pad_a (WriteVolatile 1) + pad_a (UnlockWrite 2) + pad_b ReadLock + pad_b ReadVolatile + pad_b (WriteVolatile 0) + 10)%nat.
  assert (a1 = S (pad_a ReadLock)) as E1 by done. assert (a2 = a1 + S (pad_a ReadVolatile))%nat as E2 by done.
  assert (a3 = a2 + S (pad_a (WriteVolatile 0)))%nat as E3 by done.
  assert (a5 = a3 + S (pad_a UnlockRead) + S (pad_a (UnlockWrite 1)))%nat as E5 by done. clearbody a1 a2 a3 a5.
  intros fuel Hf. unfold lock_test. set (p0 := aba_new (Z.of_nat n)).
  assert (is_ok p0 = true) as Hok by done.
  destruct (decide (n < a1)%nat) as [H1|H1].
  { rewrite bool_decide_true by done. rewrite turns_wait, b_runs, b_fails by (exact I || (left; lia) || lia). cbn [lt_pc]. by rewrite Hok. }
  rewrite (bool_decide_false (n < a1)%nat) by done.
  rewrite turns_access by (exact I || (left; lia) || lia). cbn [lock_access fst snd Z.ltb Z.compare]. rewrite check_same by (left; lia).
  destruct (decide (n < a2)%nat) as [H2|H2].
  { rewrite bool_decide_true by done. rewrite turns_wait, b_runs by (exact I || (left; lia) || lia).
    rewrite turns_access by (exact I || (left; lia) || lia). cbn [lock_access fst snd]. rewrite check_same by (left; lia).
    rewrite a_writes by (lia || (replace (1 + 1) with 2 by lia; lia)). done. }
  rewrite (bool_decide_false (n < a2)%nat) by done.
  rewrite turns_access by (exact I || (left; lia) || lia). cbn [lock_access fst snd]. rewrite check_same by (left; lia).
  destruct (decide (n < a3)%nat) as [H3|H3].
  { rewrite bool_decide_true by done. rewrite turns_wait, b_runs, a_writes by (exact I || (left; lia) || (change (0 + 1) with 1; lia) || lia).
    cbn [lt_pc]. rewrite check_same by (left; lia). by rewrite Hok. }
  rewrite (bool_decide_false (n < a3)%nat) by done.
  rewrite turns_access by (exact I || (left; lia) || lia). cbn [lock_access fst snd]. change (wrap 32 (0 + 1)) with 1. rewrite check_same by (left; lia).
  destruct (decide (n < a3 + S (pad_a UnlockRead))%nat) as [H4|H4].
  { rewrite bool_decide_true by lia. rewrite turns_wait, b_fails, a_unlock_reads by (exact I || (left; lia) || lia). cbn [lt_pc]. by rewrite Hok. }
  rewrite turns_access by (exact I || (left; lia) || lia). cbn [lock_access fst snd]. rewrite check_same by (left; lia).
  destruct (decide (n < a5)%nat) as [H5|H5].
  { rewrite bool_decide_true by done. rewrite turns_wait, b_fails, a_unlocks by (exact I || (left; lia) || lia). cbn [lt_pc]. by rewrite Hok. }
  rewrite bool_decide_false by done.
  rewrite a_unlocks, b_runs, turns_done by (exact I || (left; lia) || lia). cbn [lt_pc]. by rewrite Hok.
Qed.

(** The ten runs of the checker: the broken lock is found exactly if fewer than nine
    stops come before the first access of A, so that one of the runs stops it between
    its two readings; and there is always a run that finds nothing. *)
Theorem checker_results_spec pad_a pad_b :
  exists enough, forall fuel, (enough <= fuel)%nat ->
    checker_results fuel pad_a pad_b = Some (if (pad_a ReadLock <? 9)%nat then [false; true] else [true]).
Proof.
  destruct (enough_for_all (fun n fuel => exists took_a took_b LOCK, lock_test fuel pad_a pad_b n =
      Some (negb (bool_decide (S (pad_a ReadLock) <= n < S (pad_a ReadLock) + S (pad_a ReadVolatile))%nat), took_a, took_b, LOCK)) 10)
    as [enough He].
  { intros n. destruct (lock_test_verdicts pad_a pad_b n) as [e He]. exists e. intros fuel Hf. rewrite (He fuel Hf).
    repeat case_bool_decide; try lia; by eexists _, _, _. }
  exists enough. intros fuel Hf. unfold checker_results.
  set (verdict n := negb (bool_decide (S (pad_a ReadLock) <= n < S (pad_a ReadLock) + S (pad_a ReadVolatile))%nat)).
  assert (mapM (fun i => '(result, _, _, _) ← lock_test fuel pad_a pad_b i; Some (result : bool)) (seq 0 10) = Some (map verdict (seq 0 10))) as ->.
  { apply mapM_Some. rewrite Forall2_fmap_r. apply Forall_Forall2_diag, list.Forall_forall. intros n Hn%elem_of_seq.
    destruct (He fuel Hf n ltac:(lia)) as (ta & tb & L & ->). done. }
  change (Some (dedup (sort_bools (map verdict (seq 0 10)))) = Some (if (pad_a ReadLock <? 9)%nat then [false; true] else [true])).
  f_equal. rewrite dedup_sorted.
  assert (verdict 0%nat = true) as H0 by (unfold verdict; rewrite bool_decide_false by lia; done).
  assert (existsb (fun b => b) (map verdict (seq 0 10)) = true) as -> by (cbn [seq map existsb]; by rewrite H0).
  assert (existsb negb (map verdict (seq 0 10)) = (pad_a ReadLock <? 9)%nat) as ->; [|by destruct (_ <? _)%nat].
  apply eq_iff_eq_true. rewrite existsb_exists, Nat.ltb_lt. split.
  - intros (b & (n & <- & Hn%in_seq)%in_map_iff & Hb). unfold verdict in Hb. rewrite negb_involutive in Hb.
    apply bool_decide_eq_true in Hb. lia.
  - intros Hlt. exists (verdict (S (pad_a ReadLock))). split; [apply in_map, in_seq; lia|].
    unfold verdict. rewrite negb_involutive. apply bool_decide_eq_true. lia.
Qed.

(** The prefetch abort is passed to the scheduler for every entry method but the
    breakpoint instruction, which is skipped, and the ten codes without a meaning,
    on which the handler panics. *)
Theorem prefetch_abort_dispatch {BF : BitField} {laws : BitFieldLaws BF} dscr lr next_instruction :
  0 <= dscr ->
  let entry := dscr / 4 mod 16 in
  prefetch_abort dscr lr next_instruction =
    if entry =? 3 then Val (wrap 32 (lr + 4)) else if entry <? 6 then next_instruction else Panic.
Proof.
  intros Hd entry. unfold prefetch_abort. change (read_named Dscr "debug_entry" dscr) with (bits dscr 2 5). rewrite bits_field by lia.
  change (dscr / 2 ^ 2 mod 2 ^ (5 - 2 + 1)) with entry. pose proof (Z.mod_pos_bound (dscr / 4) 16 ltac:(lia)) as Hb. fold entry in Hb.
  clearbody entry. assert (entry ∈ seqZ 0 16) as Hin by (apply elem_of_seqZ; lia).
  revert entry Hin Hb. apply (list.Forall_forall (fun e => 0 <= e < 16 -> _)). repeat constructor.
Qed.

(** The monitor is switched on and off without a trace: in between the enable bit
    is set and all other fields of the status register are as before, behind it
    the bit and the control register of the breakpoint are zero; no other
    register of the coprocessor is written. *)
Theorem debug_monitor_brackets {BF : BitField} {laws : BitFieldLaws BF} m f :
  (forall c, fits 32 (m c)) -> f ∈ r_fields Dscr -> f <> monitor_debug_enable ->
  let on := debug_enable m in
  let off := debug_disable on in
  get_field monitor_debug_enable (read_raw debug_status_control on) = 1 /\
  get_field monitor_debug_enable (read_raw debug_status_control off) = 0 /\
  get_field f (read_raw debug_status_control on) = get_field f (read_raw debug_status_control m) /\
  get_field f (read_raw debug_status_control off) = get_field f (read_raw debug_status_control m) /\
  read_raw breakpoint_control_register_0 off = 0 /\
  forall c, c <> debug_status_control ->
    read_raw c on = read_raw c m /\ (c <> breakpoint_control_register_0 -> read_raw c off = read_raw c m).
Proof.
  intros Hm Hf Hne on off. set (d := m debug_status_control). set (d1 := set_field monitor_debug_enable 1 d).
  set (d2 := set_field monitor_debug_enable 0 d1).
  assert (Dscr ∈ all_registers) as Hr by (apply list_elem_of_In; cbn; tauto).
  assert (monitor_debug_enable ∈ r_fields Dscr) as He by (apply list_elem_of_In; cbn; tauto).
  destruct (well_formed_inv Dscr monitor_debug_enable Hr He) as (Hlo & Hhi & _ & Hap).
  destruct (well_formed_inv Dscr f Hr Hf) as (Hflo & _). specialize (Hap eq_refl f Hf Hne).
  assert (fits 32 d1) as H1 by (apply set_field_fits; [done|done|by vm_compute|apply Hm]).
  assert (fits 32 d2) as H2 by (apply set_field_fits; [done|done|by vm_compute|done]).
  change (read_raw debug_status_control on) with d1. change (read_raw debug_status_control off) with d2.
  split; [apply get_set_same; [done|by vm_compute|apply Hm|apply H1]|].
  split; [apply get_set_same; [done|by vm_compute|apply H1|apply H2]|].
  assert (get_field f d1 = get_field f d) as Hd by (apply get_set_apart; [done|done|done|by vm_compute|apply Hm|apply H1]).
  split; [done|]. split; [etransitivity; [|exact Hd]; apply get_set_apart; [done|done|done|by vm_compute|apply H1|apply H2]|].
  split; [done|]. intros c Hc. unfold off, on, debug_disable, debug_enable, modify_raw, write_raw, read_raw.
  rewrite (bool_decide_false (c = debug_status_control)) by done. split; [done|]. intros Hb. by rewrite bool_decide_false.
Qed.

Lemma prefetch_abort_dispatch_witness :
  let BF := {| bits x lo hi := x / 2 ^ lo mod 2 ^ (hi - lo + 1);
               RiscvVectors.set_bits x lo hi v := x + (v - x / 2 ^ lo mod 2 ^ (hi - lo + 1)) * 2 ^ lo |} : BitField in
  let entry := 0x800e / 4 mod 16 in
  prefetch_abort 0x800e 0x8000 Panic = if entry =? 3 then Val (wrap 32 (0x8000 + 4)) else if entry <? 6 then Panic else Panic.
Proof. intros BF. apply (@prefetch_abort_dispatch BF); [by split|done]. Defined.
Lemma debug_monitor_brackets_witness :
  let BF := {| bits x lo hi := x / 2 ^ lo mod 2 ^ (hi - lo + 1);
               RiscvVectors.set_bits x lo hi v := x + (v - x / 2 ^ lo mod 2 ^ (hi - lo + 1)) * 2 ^ lo |} : BitField in
  let m (_ : Coord) := 0x30002 in
  let f := Ro Fbool "core_halted" 1 1 in
  let on := debug_enable m in
  let off := debug_disable on in
  get_field monitor_debug_enable (read_raw debug_status_control on) = 1 /\
  get_field monitor_debug_enable (read_raw debug_status_control off) = 0 /\
  get_field f (read_raw debug_status_control on) = get_field f (read_raw debug_status_control m) /\
  get_field f (read_raw debug_status_control off) = get_field f (read_raw debug_status_control m) /\
  read_raw breakpoint_control_register_0 off = 0 /\
  forall c, c <> debug_status_control ->
    read_raw c on = read_raw c m /\ (c <> breakpoint_control_register_0 -> read_raw c off = read_raw c m).
Proof. intros BF m f. apply (@debug_monitor_brackets BF); [by split|by intros|apply list_elem_of_In; cbn; tauto|discriminate]. Defined.
