(* ===== verification/DebugSetup.v ===== *)
(** What the interleaving checker sets up and takes down: [debug_init_singlestep] and
    the breakpoint of [InterleaveScheduler::run] in
    [device/bismuth/src/app/debug.rs], with the vectors of [Vectors], the stacks of
    [Interrupts], the registers of [Registers] and the runs of [DebugMonitor]. *)
From stdpp Require Import strings.
From S2P Require Import Prelude Interrupts RiscvVectors Vectors Registers DebugMonitor.

Module DebugSetup.
Open Scope string_scope.
Open Scope Z_scope.

Record debug_machine : Type := MkDebugMachine {
  d_vectors : list Z;           (* the words from address 0, [vdi_len] of them *)
  d_cpu : cpu;
  d_copro : Coord -> Z;
}.
(** The length that the slice over the vectors gets: the size of eight words, in
    bytes. *)
Definition vdi_len : nat := 32.

(** The trampolines that are defined in [debug.rs]. *)
Record debug_trampolines : Type := MkDebugTrampolines {
  dt_dabt : Z; dt_pabt : Z; dt_svc : Z;
}.
Definition debug_vectors (t : trampolines) (d : debug_trampolines) : VectorBuilder :=
  set_syscall_handler (dt_svc d) (set_prefetch_abort_handler (dt_pabt d) (set_data_abort_handler (dt_dabt d) (vb_new t))).
Fixpoint init_stacks (l : list (OperatingMode * Z)) (c : cpu) : run cpu :=
  match l with [] => Val c | (mode, stack) :: l => c ← init_stack_for_mode mode stack c; init_stacks l c end.
Definition debug_stacks : list (OperatingMode * Z) :=
  [(User, 0x0f100000); (MAbort, 0x0f200000); (Undefined, 0x0f300000 - 8); (FIQ, 0x0f400000 - 8); (IRQ, 0x0f500000 - 8)].

Section setup.
Context {BF : BitField}.
Definition debug_prepare (t : trampolines) (d : debug_trampolines) (st : debug_machine) : run debug_machine :=
  match vb_install (debug_vectors t d) 0 (d_vectors st) with
  | Err _ => Panic
  | Ok (table, _) => c ← init_stacks debug_stacks (d_cpu st); Val (MkDebugMachine table c (debug_enable (d_copro st)))
  end.

(** Setters one behind the other. *)
Fixpoint with_fields (l : list (Field * Z)) (x : Z) : Z := match l with [] => x | (f, v) :: l => with_fields l (set_field f v x) end.
Definition bcr_enable : Field := Rw Fbool "enable" 0 0.
Definition bcr_fields : list (Field * Z) :=
  [(Rw Fu8 "meaning" 21 22, 2); (Rw Fbool "enable_linking" 20 20, 0); (Rw Fu8 "world" 14 15, 0);
   (Rw Fu8 "supervisor_access" 1 2, 3); (Rw Fu8 "byte_address_select" 5 8, 0xf); (bcr_enable, 1)].
(** The breakpoint of [run]. *)
Definition set_breakpoint (m : Coord -> Z) : Coord -> Z :=
  let m := modify_raw breakpoint_control_register_0 (set_field bcr_enable 0) m in
  let m := write_raw breakpoint_value_register_0 0 m in
  write_raw breakpoint_control_register_0 (with_fields bcr_fields 0) m.

(** The whole function; each of the ten runs sets the breakpoint. *)
Definition debug_init_singlestep (fuel : nat) (pad_a pad_b : lock_pc -> nat) (t : trampolines) (d : debug_trampolines) (st : debug_machine)
    : run (debug_machine * option (list bool)) :=
  st ← debug_prepare t d st;
  let results := checker_results fuel pad_a pad_b in
  Val (MkDebugMachine (d_vectors st) (d_cpu st) (debug_disable (Nat.iter 10 set_breakpoint (d_copro st))), results).
End setup.
End DebugSetup.
Export DebugSetup.

(** ** The vectors *)

Lemma near_encodes to from : fits 32 to -> to mod 4 = 0 -> from mod 4 = 0 -> near to from -> exists w, encode_relative_jump to from = Ok w.
Proof.
  intros Hto Ht Hf Hn. unfold encode_relative_jump. rewrite !aligned4, bool_decide_false by lia. fold (distance to from).
  destruct (distance_quarter to from) as (q & Hq & -> & Hr); [lia..|]. unfold near in Hn. rewrite expressible_range by lia.
  rewrite bool_decide_true by lia. by eexists.
Qed.
Lemma try_mapi_total {A B E} (f : nat -> A -> result B E) i l :
  (forall k x, l !! k = Some x -> exists y, f (i + k)%nat x = Ok y) -> exists ys, try_mapi f i l = Ok ys.
Proof.
  revert i. induction l as [|x l IH]; intros i Hall; [by eexists|]. destruct (Hall 0%nat x eq_refl) as (y & Hy).
  rewrite Nat.add_0_r in Hy. cbn [try_mapi]. rewrite Hy. cbn [result_bind].
  destruct (IH (S i)) as (ys & ->); [|by eexists]. intros k z Hk. destruct (Hall (S k) z Hk) as (w & Hw).
  exists w. by replace (S i + k)%nat with (i + S k)%nat by lia.
Qed.
(** A target that the vector at [from] can reach. *)
Definition reachable_at (i : nat) (to : Z) : Prop := fits 32 to /\ to mod 4 = 0 /\ near to (source 0 i).
Lemma vb_install_total b dst target :
  length (maps b) = 7%nat -> fiq b = Jump target -> (forall i to, maps b !! i = Some to -> reachable_at i to) -> reachable_at 7 target ->
  (8 <= length dst)%nat -> exists table, vb_install b 0 dst = Ok (table, 0).
Proof.
  intros Hlen Hfiq Hall (Hf & Ha & Hn) Hd. unfold vb_install.
  assert (forall i, source 0 i mod 4 = 0) as Hsrc by (intros i; unfold source; rewrite Z.add_0_l, Z.mul_comm; apply Z.mod_mul; lia).
  change (0 mod 0x20 =? 0) with true. cbn [negb].
  destruct (try_mapi_total (fun i to => encode_relative_jump to (source 0 i)) 0 (maps b)) as (enc & ->).
  { intros k to Hk. destruct (Hall k to Hk) as (?&?&?). by apply near_encodes. }
  rewrite Hfiq. cbn [result_bind]. destruct (near_encodes target (source 0 7)) as (w & ->); try done. cbn [result_bind length].
  rewrite bool_decide_false by lia. by eexists.
Qed.

(** ** The stacks *)

Lemma init_stacks_spec l c :
  fits 32 (cpsr c) -> Forall (fun ms => snd ms mod 8 = 0 /\ fst ms <> Supervisor) l -> NoDup (map (fun ms => bank (fst ms)) l) ->
  exists c', init_stacks l c = Val c' /\
    (forall mode stack, (mode, stack) ∈ l -> sp c' (bank mode) = stack) /\
    (forall b, b ∉ map (fun ms => bank (fst ms)) l -> sp c' b = sp c b) /\
    cpsr c' = (if existsb (fun ms => bool_decide (fst ms = MAbort)) l then Z.lor (cpsr c) A_BIT else cpsr c) /\
    mode_of (cpsr c') = mode_of (cpsr c).
Proof.
  revert c. induction l as [|[mode stack] l IH]; intros c Hc Hall Hnd.
  { exists c. split_and!; try done. by intros ?? ?%elem_of_nil. }
  inversion_clear Hall as [|?? [Ha Hs] Hall']. cbn [map fst] in Hnd. apply list.NoDup_cons in Hnd as [Hni Hnd].
  cbn [init_stacks fst snd] in *. pose proof (init_stack_sets_bank mode stack c Hc) as Hi.
  destruct (init_stack_for_mode mode stack c) as [c1|] eqn:Hrun; [|done]. cbn [mbind run_bind].
  destruct Hi as (_ & Hsp & Hcpsr & Hmode).
  assert (fits 32 (cpsr c1)) as Hc1 by (rewrite Hcpsr; destruct (decide _); [apply lor_fits; [lia|done|by vm_compute]|done]).
  destruct (IH c1 Hc1 Hall' Hnd) as (c' & -> & Hin & Hout & Hcp & Hm). exists c'. split; [done|]. split_and!.
  - intros m s [[= -> ->]|Hm']%elem_of_cons; [|by apply Hin]. rewrite Hout, Hsp by done. by rewrite decide_True.
  - intros b Hb. cbn [map fst] in Hb. apply not_elem_of_cons in Hb as [Hne Hb]. rewrite Hout, Hsp by done.
    by rewrite decide_False by naive_solver.
  - rewrite Hcp, Hcpsr. cbn [existsb fst]. destruct (decide (mode = MAbort)) as [->|Hne].
    + rewrite bool_decide_true by done. cbn [orb]. destruct (existsb _ l); [|done]. by rewrite <- Z.lor_assoc, Z.lor_diag.
    + by rewrite bool_decide_false.
  - by rewrite Hm.
Qed.

(** ** The breakpoint *)

Section breakpoint.
Context {BF : BitField} {laws : BitFieldLaws BF}.

(** Setters of different fields: each field that is set has its value, each other the
    one it had. *)
Lemma with_fields_spec r l x :
  r ∈ all_registers -> fits (r_bits r) x -> NoDup (map fst l) ->
  Forall (fun fv => fst fv ∈ r_fields r /\ f_ro (fst fv) = false /\ fits (f_hi (fst fv) - f_lo (fst fv) + 1) (snd fv)) l ->
  fits (r_bits r) (with_fields l x) /\
  (forall f v, (f, v) ∈ l -> get_field f (with_fields l x) = v) /\
  (forall f, f ∈ r_fields r -> f ∉ map fst l -> get_field f (with_fields l x) = get_field f x).
Proof.
  intros Hr. revert x. induction l as [|[f v] l IH]; intros x Hx Hnd Hall.
  { split_and!; try done. by intros ?? ?%elem_of_nil. }
  inversion_clear Hall as [|?? (Hf & Hro & Hv) Hall']. cbn [map fst snd] in *. apply list.NoDup_cons in Hnd as [Hni Hnd].
  destruct (well_formed_inv r f Hr Hf) as (Hlo & Hhi & _ & Hap).
  assert (fits (r_bits r) (set_field f v x)) as Hs by (by apply set_field_fits).
  destruct (IH _ Hs Hnd Hall') as (Hfit & Hin & Hout). cbn [with_fields]. split; [done|]. split.
  - intros g w [[= -> ->]|Hg]%elem_of_cons; [|by apply Hin]. rewrite Hout by done. apply get_set_same; [done|done|apply Hx|apply Hs].
  - intros g Hg [Hne Hnl]%not_elem_of_cons. rewrite Hout by done. destruct (well_formed_inv r g Hr Hg) as (Hglo & _).
    apply get_set_apart; [done|done|by apply Hap|done|apply Hx|apply Hs].
Qed.

Lemma iter_set_breakpoint n m c : c <> breakpoint_control_register_0 -> c <> breakpoint_value_register_0 -> Nat.iter n set_breakpoint m c = m c.
Proof.
  intros Hc Hv. induction n as [|n IH]; [done|]. cbn [Nat.iter nat_rect]. unfold set_breakpoint at 1, modify_raw, write_raw, read_raw.
  rewrite !bool_decide_false by done. exact IH.
Qed.
End breakpoint.

(** ** The claims *)

(** Before each run the breakpoint is set to the address mismatch with the address
    zero, all four bytes selected, for either privilege and either world, not linked,
    and enabled; whatever was in its two registers before, and with no other
    register changed. *)
Theorem breakpoint_on_mismatch {BF : BitField} {laws : BitFieldLaws BF} m :
  let bcr name := read_named Bcr name (read_raw breakpoint_control_register_0 (set_breakpoint m)) in
  bvr_meaning_try_from (bcr "meaning"%string) = Ok IMVAMismatch /\ bcr "enable_linking"%string = 0 /\ bcr "world"%string = 0 /\
  bcr "supervisor_access"%string = 3 /\ bcr "byte_address_select"%string = 0xf /\ bcr "enable"%string = 1 /\
  read_raw breakpoint_value_register_0 (set_breakpoint m) = 0 /\
  forall c, c <> breakpoint_control_register_0 -> c <> breakpoint_value_register_0 -> read_raw c (set_breakpoint m) = read_raw c m.
Proof.
  intros bcr. destruct (with_fields_spec Bcr bcr_fields 0) as (_ & Hin & _).
  - apply list_elem_of_In. cbn. tauto.
  - done.
  - apply (bool_decide_unpack _). by vm_compute.
  - apply (bool_decide_unpack _). by vm_compute.
  - assert (forall f v, (f, v) ∈ bcr_fields -> get_field f (read_raw breakpoint_control_register_0 (set_breakpoint m)) = v) as Hget by (by apply Hin).
    split_and!; [|apply Hget, list_elem_of_In; cbn; tauto..|done|].
    + assert (bcr "meaning"%string = 2) as ->; [|done]. apply Hget, list_elem_of_In; cbn; tauto.
    + intros c Hc Hv. unfold set_breakpoint, write_raw, modify_raw, read_raw, write_raw. by rewrite !bool_decide_false.
Qed.

(** [debug_init_singlestep] does not panic if the handlers can be reached from the
    vectors.  Prefetch aborts, data aborts and system calls go to the checker, the
    other exceptions where they went by default; five modes have the stacks of the
    checker, that of Supervisor is as before; imprecise aborts stay masked; the
    monitor is off again and the breakpoint disabled, and no other register of the
    coprocessor is changed.  The results are those of the ten runs. *)
Theorem debug_init_singlestep_spec {BF : BitField} {laws : BitFieldLaws BF} fuel pad_a pad_b t d st :
  (forall i to, maps (debug_vectors t d) !! i = Some to -> reachable_at i to) -> reachable_at 7 (t_fiq t) ->
  length (d_vectors st) = vdi_len -> fits 32 (cpsr (d_cpu st)) -> (forall c, fits 32 (d_copro st c)) ->
  exists st', debug_init_singlestep fuel pad_a pad_b t d st = Val (st', checker_results fuel pad_a pad_b) /\
    map (handler_word (d_vectors st') 0) (seq 0 8) =
      map Some [t_reset t; t_undef t; dt_svc d; dt_pabt d; dt_dabt d; t_none t; t_irq t; t_fiq t] /\
    drop 8 (d_vectors st') = drop 8 (d_vectors st) /\
    (forall mode stack, (mode, stack) ∈ debug_stacks -> sp (d_cpu st') (bank mode) = stack) /\
    sp (d_cpu st') Supervisor = sp (d_cpu st) Supervisor /\
    cpsr (d_cpu st') = Z.lor (cpsr (d_cpu st)) A_BIT /\ mode_of (cpsr (d_cpu st')) = mode_of (cpsr (d_cpu st)) /\
    get_field monitor_debug_enable (d_copro st' debug_status_control) = 0 /\ d_copro st' breakpoint_control_register_0 = 0 /\
    forall c, c <> debug_status_control -> c <> breakpoint_control_register_0 -> c <> breakpoint_value_register_0 ->
      d_copro st' c = d_copro st c.
Proof.
  intros Hmaps Hfiq Hlen Hc Hcop. unfold debug_init_singlestep, debug_prepare.
  destruct (vb_install_total (debug_vectors t d) (d_vectors st) (t_fiq t)) as (table & Hi); try done; [rewrite Hlen; unfold vdi_len; lia|].
  rewrite Hi. destruct (init_stacks_spec debug_stacks (d_cpu st) Hc) as (c' & -> & Hin & Hout & Hcp & Hmode);
    [apply (bool_decide_unpack _); by vm_compute..|].
  cbn [mbind run_bind]. eexists. split; [reflexivity|]. cbn [d_vectors d_cpu d_copro].
  destruct (vb_install_dispatches (debug_vectors t d) _ _ _ _ eq_refl ltac:(apply Forall_lookup_2; intros i to Hto; apply (Hmaps i to Hto)) Hi)
    as (_ & _ & Htl & Hvec & Hf). destruct Hfiq as (Hf32 & _ & Hfn). destruct (Hf Hf32 Hfn) as (Hf7 & Hdrop).
  split_and!; try done.
  - assert (forall i to, maps (debug_vectors t d) !! i = Some to -> handler_word table 0 i = Some to) as Hword
      by (intros i to Hto; apply (Hvec i to Hto); apply (Hmaps i to Hto)).
    cbn [seq map]. rewrite Hf7. by repeat (erewrite Hword by reflexivity).
  - apply Hout. apply (bool_decide_unpack _). by vm_compute.
  - cbn [d_copro]. unfold debug_disable, modify_raw, write_raw, read_raw. rewrite bool_decide_true, (bool_decide_false (_ = breakpoint_control_register_0)) by done.
    rewrite iter_set_breakpoint by done.
    assert (fits 32 (debug_enable (d_copro st) debug_status_control)) as Hon by (apply set_field_fits; [done|done|by vm_compute|apply Hcop]).
    apply get_set_same; [done|by vm_compute|apply Hon|].
    apply (set_field_fits 32 monitor_debug_enable 0 _ ltac:(done) ltac:(done) ltac:(by vm_compute) Hon).
  - intros c Hs Hb Hv. unfold debug_disable, modify_raw, write_raw, read_raw. rewrite !bool_decide_false by done.
    rewrite iter_set_breakpoint by done. unfold debug_enable, modify_raw, write_raw. by rewrite bool_decide_false.
Qed.

Lemma debug_init_singlestep_spec_witness :
  let BF := {| bits x lo hi := x / 2 ^ lo mod 2 ^ (hi - lo + 1);
               RiscvVectors.set_bits x lo hi v := x + (v - x / 2 ^ lo mod 2 ^ (hi - lo + 1)) * 2 ^ lo |} : BitField in
  let t := MkTrampolines 0x8000 0x8010 0x8020 0x8030 0x8040 0x8050 0x8060 0x8070 in
  let d := MkDebugTrampolines 0x9000 0x9100 0x9200 in
  let st := MkDebugMachine (replicate 32 0) (MkCpu 0x60000053 (fun _ => 0x7000)) (fun _ => 0x30002) in
  let pad (_ : lock_pc) := 2%nat in
  exists st', debug_init_singlestep 100 pad pad t d st = Val (st', checker_results 100 pad pad) /\
    map (handler_word (d_vectors st') 0) (seq 0 8) =
      map Some [t_reset t; t_undef t; dt_svc d; dt_pabt d; dt_dabt d; t_none t; t_irq t; t_fiq t] /\
    drop 8 (d_vectors st') = drop 8 (d_vectors st) /\
    (forall mode stack, (mode, stack) ∈ debug_stacks -> sp (d_cpu st') (bank mode) = stack) /\
    sp (d_cpu st') Supervisor = sp (d_cpu st) Supervisor /\
    cpsr (d_cpu st') = Z.lor (cpsr (d_cpu st)) A_BIT /\ mode_of (cpsr (d_cpu st')) = mode_of (cpsr (d_cpu st)) /\
    get_field monitor_debug_enable (d_copro st' debug_status_control) = 0 /\ d_copro st' breakpoint_control_register_0 = 0 /\
    forall c, c <> debug_status_control -> c <> breakpoint_control_register_0 -> c <> breakpoint_value_register_0 ->
      d_copro st' c = d_copro st c.
Proof.
  intros BF t d st pad. apply (@debug_init_singlestep_spec BF).
  - by split.
  - intros i to Hto. do 7 (destruct i as [|i]; [injection Hto as <-; by vm_compute|]). done.
  - by vm_compute.
  - done.
  - by vm_compute.
  - by intros.
Defined.
Lemma breakpoint_on_mismatch_witness :
  let BF := {| bits x lo hi := x / 2 ^ lo mod 2 ^ (hi - lo + 1);
               RiscvVectors.set_bits x lo hi v := x + (v - x / 2 ^ lo mod 2 ^ (hi - lo + 1)) * 2 ^ lo |} : BitField in
  let m (_ : Coord) := 0x1e7 in
  let bcr name := read_named Bcr name (read_raw breakpoint_control_register_0 (set_breakpoint m)) in
  bvr_meaning_try_from (bcr "meaning"%string) = Ok IMVAMismatch /\ bcr "enable_linking"%string = 0 /\ bcr "world"%string = 0 /\
  bcr "supervisor_access"%string = 3 /\ bcr "byte_address_select"%string = 0xf /\ bcr "enable"%string = 1 /\
  read_raw breakpoint_value_register_0 (set_breakpoint m) = 0 /\
  forall c, c <> breakpoint_control_register_0 -> c <> breakpoint_value_register_0 -> read_raw c (set_breakpoint m) = read_raw c m.
Proof. intros BF m. apply (@breakpoint_on_mismatch BF). by split. Defined.
