(* ===== verification/NetRun.v ===== *)
(** The idle branch of the network loop of the RISC-V device ([run] of
    [device/antimony/src/net.rs]): the address of the interface, and the HTTP
    server that switches a pin.

    The socket is [smoltcp]'s and the request parser is [httparse]'s; both are
    interfaces.  What [Interface::poll] does to the socket has happened before. *)
From S2P Require Import Prelude RiscvTime Hdlc PppControl PppNegotiate PppNet.

(** *** The interfaces *)

(** A TCP socket; the operations that return a [Result] are options. *)
Class TcpSocket (S : Type) : Type := {
  is_open : S -> bool;
  is_active : S -> bool;
  may_recv : S -> bool;
  may_send : S -> bool;
  can_send : S -> bool;
  listen : Z -> S -> option S;
  recv : S -> option (S * list Z);
  send_slice : list Z -> S -> option S;
  close : S -> S;
  abort : S -> S;
}.

Module NetRun.

(** *** The address *)

#[export] Instance Ipv4Addr_eq_dec : EqDecision Ipv4Addr.
Proof. solve_decision. Defined.
(** [iface.update_ip_addrs(..)] on the list of addresses, which has room for [cap]. *)
Definition position (a : Ipv4Addr) (l : list Ipv4Addr) : option nat := fst <$> list_find (fun x => x = a) l.
Definition apply_update (cap : nat) (upd : option Ipv4Addr * Ipv4Addr) (ip_addrs : list Ipv4Addr) : run (list Ipv4Addr) :=
  let '(old, new) := upd in
  match old with
  | Some old => i ← unwrap (position old ip_addrs); Val (<[i := new]> ip_addrs)
  | None => if bool_decide (length ip_addrs < cap)%nat then Val (ip_addrs ++ [new]) else Panic
  end.
(** One idle round, as far as the address is concerned. *)
Definition address_round (cap : nat) (ip_up : bool) (np : Ipcp) (ip_addrs : list Ipv4Addr) : run (Ipcp * list Ipv4Addr) :=
  '(np, ip_update) ← (if ip_up then get_host_addr_update np else Val (np, None));
  match ip_update with
  | Some upd => ip_addrs ← apply_update cap upd ip_addrs; Val (np, ip_addrs)
  | None => Val (np, ip_addrs)
  end.

(** *** The loop without the server: a frame, or an idle round *)

Definition net_state : Type := Z * PppInner * list Ipv4Addr.
Definition net_round (fuel cap : nat) (frame : option (list Z)) (st : net_state) : run (option net_state) :=
  let '(lcp_rej_id, s, ip_addrs) := st in
  match frame with
  | Some f =>
    r ← handle_frame fuel lcp_rej_id f s;
    Val (match r with Some (lcp_rej_id, s, _) => Some (lcp_rej_id, s, ip_addrs) | None => None end)
  | None =>
    '(s, _) ← poll s;
    '(np, ip_addrs) ← address_round cap (is_layer_up (ppp_ipcp s)) (inner (ppp_ipcp s)) ip_addrs;
    Val (Some (lcp_rej_id, set_ipcp (set_inner np (ppp_ipcp s)) s, ip_addrs))
  end.
Fixpoint net_rounds (fuel cap : nat) (frames : list (option (list Z))) (st : net_state) : run (option net_state) :=
  match frames with
  | [] => Val (Some st)
  | f :: fs => r ← net_round fuel cap f st; match r with Some st => net_rounds fuel cap fs st | None => Val None end
  end.

(** *** The device that the TCP/IP library sees *)

Definition phy_receive (s : PppInner) : option (list Z) * PppInner := poll_ip s.
Definition rx_consume {R} (f : list Z -> R) (buf : list Z) : R := f buf.
Definition tx_consume {R} (len : nat) (f : list Z -> R * list Z) (s : PppInner) : R * PppInner :=
  let '(res, buf) := f (replicate len 0) in (res, send_ip buf s).
Definition max_transmission_unit : nat := PPP_MRU.

(** *** The server *)

Inductive Response : Type := BadRequest | Okay | NotFound.
(** ["HTTP/1.0 400 BAD REQUEST\r\n\r\n\r\n"] and so on. *)
Definition http_1_0 : list Z := [72; 84; 84; 80; 47; 49; 46; 48; 32].
Definition crlf3 : list Z := [13; 10; 13; 10; 13; 10].
Definition as_bytes (r : Response) : list Z :=
  http_1_0 ++ (match r with
    | BadRequest => [52; 48; 48; 32; 66; 65; 68; 32; 82; 69; 81; 85; 69; 83; 84]
    | Okay => [50; 48; 48; 32; 79; 75]
    | NotFound => [52; 48; 52; 32; 78; 79; 84; 32; 70; 79; 85; 78; 68]
    end) ++ crlf3.
(** ["/on"] and ["/off"] *)
Definition path_on : list Z := [47; 111; 110].
Definition path_off : list Z := [47; 111; 102; 102].
(** The response to a path, and the data register of port D. *)
Definition respond (path : option (list Z)) (pd_dat : Z) : Response * Z :=
  match path with
  | None => (BadRequest, pd_dat)
  | Some p =>
    if bool_decide (p = path_on) then (Okay, Z.lor pd_dat 1)
    else if bool_decide (p = path_off) then (Okay, Z.land pd_dat (Z.lxor 1 (Z.ones 32)))
    else (NotFound, pd_dat)
  end.

Record server : Type := MkServer {
  active : bool;
  last_send : Z;
  pd_dat : Z;
}.
Section server.
Context {S : Type} {T : TcpSocket S}.
(** [Request::parse]: [None] is an error, [Some p] has the path if it was reached. *)
Context (parse : list Z -> option (option (list Z))).

(** The receiving part: a request that cannot be parsed panics; one that cannot be
    answered now is dropped after it has been carried out. *)
Definition serve_receive (t_send : Z) (sv : server) (sock : S) : run (server * S) :=
  if may_recv sock then
    '(sock, data) ← unwrap (recv sock);
    match data with
    | [] => Val (sv, sock)
    | _ =>
      path ← unwrap (parse data);
      let '(response, dat) := respond path (pd_dat sv) in
      if can_send sock then
        sock ← unwrap (send_slice (as_bytes response) sock);
        Val (MkServer (active sv) t_send dat, close sock)
      else Val (MkServer (active sv) (last_send sv) dat, sock)
    end
  else Val (sv, if may_send sock then close sock else sock).
(** The three times are the readings of the clock that a round can take. *)
Definition serve (t_conn t_send t_check : Z) (sv : server) (sock : S) : run (server * S) :=
  sock ← (if is_open sock then Val sock else unwrap (listen 8000 sock));
  let last := if is_active sock && negb (active sv) then t_conn else last_send sv in
  let sv := MkServer (is_active sock) last (pd_dat sv) in
  '(sv, sock) ← serve_receive t_send sv sock;
  let late := 10 * 1000000000 <? instant_sub t_check (last_send sv) in
  Val (sv, if is_active sock && late then abort sock else sock).
End server.
End NetRun.
Export NetRun.

(** ** The address *)

Section address.
Implicit Types (np : Ipcp) (a ip : Ipv4Addr) (addrs : list Ipv4Addr) (cap : nat).

(** The interface has the address that the layer has reported last. *)
Definition address_ok np addrs : Prop :=
  match prev_host_address np with
  | None => addrs = option_list (host_address np)
  | Some prev => addrs = option_list prev /\ is_Some (host_address np)
  end.
(** What can happen between two rounds: the peer names an address, once at most. *)
Definition named_once np np' : Prop :=
  np' = np \/ prev_host_address np = None /\ exists ip, np' = set_host_ip np ip.

Lemma named_once_ok np np' addrs : address_ok np addrs -> named_once np np' -> address_ok np' addrs.
Proof. intros Hok [->|(Hp & ip & ->)]; [done|]. unfold address_ok in *. rewrite Hp in Hok. cbn. split; [done|by eexists]. Qed.
Lemma address_round_ok cap up np addrs :
  (0 < cap)%nat -> address_ok np addrs ->
  exists np' addrs', address_round cap up np addrs = Val (np', addrs') /\ address_ok np' addrs' /\ host_address np' = host_address np /\ (up = true -> prev_host_address np' = None).
Proof.
  intros Hc Hok. unfold address_round. destruct up; [|by exists np, addrs]. unfold address_ok, get_host_addr_update in *.
  destruct (prev_host_address np) as [prev|] eqn:Hp; [|exists np, addrs; by rewrite Hp].
  destruct Hok as [-> [h Hh]]. rewrite Hh. cbn [unwrap]. rewrite !run_bind_Val. cbn [apply_update]. destruct prev as [a|]; cbn [option_list].
  - unfold position. cbn. rewrite decide_True by done. cbn. eexists _, _. split; [reflexivity|]. cbn. done.
  - cbn [length]. rewrite bool_decide_true by done. eexists _, _. split; [reflexivity|]. cbn. done.
Qed.
(** Rounds with what the peer does before each of them. *)
Inductive address_run cap : Ipcp -> list Ipv4Addr -> Ipcp -> list Ipv4Addr -> Prop :=
  | address_here np addrs : address_run cap np addrs np addrs
  | address_step np addrs np1 addrs1 np' np2 addrs2 up :
    address_run cap np addrs np1 addrs1 -> named_once np1 np' -> address_round cap up np' addrs1 = Val (np2, addrs2) ->
    address_run cap np addrs np2 addrs2.
End address.

(** A round with the layer up, when the peer has named [b] after [a]. *)
Lemma second_name_round cap np a b addrs :
  address_round cap true (set_host_ip (set_host_ip np a) b) addrs =
    if bool_decide (a ∈ addrs) then match position a addrs with Some i => Val (MkIpcp (Some b) None (peer_address np), <[i := b]> addrs) | None => Panic end
    else Panic.
Proof.
  unfold address_round. cbn -[position bool_decide]. destruct (position a addrs) as [i|] eqn:Hp; cbn -[bool_decide].
  - rewrite bool_decide_true; [done|]. unfold position in Hp. destruct (list_find _ addrs) as [[j x]|] eqn:Hf; [|done].
    apply list_find_Some in Hf as (Hj & -> & _). by eapply list_elem_of_lookup_2.
  - by case_bool_decide.
Qed.

(** ** The claims *)

(** As long as the peer names at most one address between two rounds in which the
    layer is up, no round panics, the interface has at most one address, and
    behind a round with the layer up that is the one named last. *)
Theorem address_follows_peer cap np addrs up np' :
  (0 < cap)%nat -> address_run cap ipcp_new [] np addrs -> named_once np np' ->
  exists np2 addrs2, address_round cap up np' addrs = Val (np2, addrs2) /\ (length addrs2 <= 1)%nat /\ (up = true -> addrs2 = option_list (host_address np')).
Proof.
  intros Hc Hrun Hn. assert (address_ok np addrs) as Hok.
  { clear Hn. remember ipcp_new as np0 eqn:H0. remember [] as a0 eqn:Ha. induction Hrun as [|np0 addrs0 np1 addrs1 np1' np2 addrs2 up' Hr IH Hn' Hround]; [by subst|].
    pose proof (named_once_ok _ _ _ (IH H0 Ha) Hn') as Hok'. destruct (address_round_ok cap up' np1' addrs1 Hc Hok') as (? & ? & Hr' & Hok'' & _).
    rewrite Hround in Hr'. by injection Hr' as -> ->. }
  destruct (address_round_ok cap up np' addrs Hc (named_once_ok _ _ _ Hok Hn)) as (np2 & addrs2 & Hr & Hok2 & Hh & Hup).
  exists np2, addrs2. split; [done|]. unfold address_ok in Hok2. split.
  - destruct (prev_host_address np2) as [prev|]; [destruct Hok2 as [-> _]; destruct prev; cbn; lia|]. rewrite Hok2. destruct (host_address np2); cbn; lia.
  - intros Hu. rewrite (Hup Hu) in Hok2. by rewrite Hok2, Hh.
Qed.

Lemma address_follows_peer_witness :
  let np1 := set_host_ip ipcp_new (MkIpv4 10 0 0 2) in
  let np2 := MkIpcp (Some (MkIpv4 10 0 0 2)) None None in
  let np' := set_host_ip np2 (MkIpv4 10 0 0 7) in
  exists np3 addrs, address_round 2 true np' [MkIpv4 10 0 0 2] = Val (np3, addrs) /\ (length addrs <= 1)%nat /\
    (true = true -> addrs = option_list (host_address np')).
Proof.
  intros np1 np2 np'. apply (address_follows_peer 2 np2 [MkIpv4 10 0 0 2] true np'); [lia| |].
  - eapply (address_step 2 _ _ ipcp_new [] np1 np2 _ true); [constructor| |reflexivity]. right. split; [done|by eexists].
  - right. split; [done|by eexists].
Defined.

(** A peer that names two addresses before the layer is up stops the device: the
    first of them is remembered as the address of the interface, which never had
    it, and the search for it panics. *)
Theorem second_name_panics cap np a b addrs :
  a ∉ addrs -> address_round cap true (set_host_ip (set_host_ip np a) b) addrs = Panic.
Proof. intros Ha. rewrite second_name_round. by rewrite bool_decide_false. Qed.

Lemma second_name_panics_witness :
  address_round 2 true (set_host_ip (set_host_ip ipcp_new (MkIpv4 10 0 0 2)) (MkIpv4 10 0 0 7)) [] = Panic.
Proof. apply (second_name_panics 2 ipcp_new (MkIpv4 10 0 0 2) (MkIpv4 10 0 0 7) []). apply not_elem_of_nil. Defined.

(** Frames of the peer. *)
Definition peer_frame (proto code id : Z) (opts : list Z) : option (list Z) := Some (received_frame proto (packet_bytes code id opts)).
Definition peer_nak (id : Z) (a : Ipv4Addr) : option (list Z) := peer_frame PROTO_IPCP (code_to_u8 ConfNak) id ([3; 6] ++ octets a).
(** The link comes up, and the peer answers the address requests with [naks]. *)
Definition negotiation (naks : list Ipv4Addr) : list (option (list Z)) :=
  [None; peer_frame PROTO_LCP (code_to_u8 ConfReq) 7 []; peer_frame PROTO_LCP (code_to_u8 ConfAck) 0 []; None] ++
  imap (fun i a => peer_nak (Z.of_nat i) a) naks ++
  [peer_frame PROTO_IPCP (code_to_u8 ConfAck) (Z.of_nat (length naks)) []; peer_frame PROTO_IPCP (code_to_u8 ConfReq) 5 []; None].

(** The whole loop, from the start: after one address the interface has it; after
    two the device has stopped. *)
Theorem two_naks_stop_device :
  (exists s, net_rounds 9 2 (negotiation [MkIpv4 10 0 0 2]) (0, ppp_new, []) = Val (Some (0, s, [MkIpv4 10 0 0 2]))) /\
  net_rounds 9 2 (negotiation [MkIpv4 10 0 0 2; MkIpv4 10 0 0 7]) (0, ppp_new, []) = Panic.
Proof. split; [eexists; by vm_compute|by vm_compute]. Qed.

(** What the TCP/IP library hands over is queued as it is, and taken out as it
    came in; but a packet as long as the device says it may be stops the device. *)
Theorem device_packets {R} len (f : list Z -> R * list Z) s :
  let '(res, s') := tx_consume len f s in
  res = fst (f (replicate len 0)) /\ ip_xmit_queue s' = ip_xmit_queue s ++ [snd (f (replicate len 0))] /\
  (forall p q, ip_recv_queue s = p :: q -> exists s1, phy_receive s = (Some p, s1) /\ ip_recv_queue s1 = q) /\
  (state (ppp_lcp s) = Opened -> state (ppp_ipcp s) = Opened -> length (snd (f (replicate len 0))) = max_transmission_unit -> poll s' = Panic).
Proof.
  unfold tx_consume. destruct (f (replicate len 0)) as [res buf]. split; [done|]. split; [done|]. split.
  - intros p q Hq. unfold phy_receive, poll_ip. rewrite Hq. by eexists.
  - intros Hl Hi Hlen. rewrite poll_eval. cbn [send_ip ppp_lcp ppp_ipcp fst snd] in *. rewrite Hl, Hi.
    rewrite (send_queue_long _ buf); [done|apply elem_of_app; right; by apply list_elem_of_singleton|]. unfold max_transmission_unit in Hlen. lia.
Qed.

(** ** The server *)

Section serve.
Context {S : Type} {T : TcpSocket S} (parse : list Z -> option (option (list Z))).
Implicit Types (sv : server) (sock : S).

(** The socket behind the first step of a round. *)
Definition listening sock : option S := if is_open sock then Some sock else listen 8000 sock.
(** Why a round can panic behind that. *)
Definition receive_panics sv sock : Prop :=
  may_recv sock = true /\
  (recv sock = None \/ exists sock' data, recv sock = Some (sock', data) /\ data <> [] /\
    (parse data = None \/ exists path, parse data = Some path /\ can_send sock' = true /\
      send_slice (as_bytes (fst (respond path (pd_dat sv)))) sock' = None)).
Lemma receive_panic_iff t sv sock : serve_receive parse t sv sock = Panic <-> receive_panics sv sock.
Proof.
  unfold serve_receive, receive_panics. destruct (may_recv sock); [|split; [done|by intros []]].
  destruct (recv sock) as [[sock' data]|] eqn:Hr; cbn [unwrap]; [|split; [intros _; split; [done|by left]|done]]. rewrite run_bind_Val.
  destruct data as [|x data]; [split; [done|intros (_ & [?|(? & ? & [= <- <-] & ? & _)]); done]|].
  destruct (parse (x :: data)) as [path|] eqn:Hp; cbn [unwrap].
  2: { split; [|done]. intros _. split; [done|]. right. exists sock', (x :: data). split; [done|]. split; [done|]. by left. }
  rewrite run_bind_Val. destruct (respond path (pd_dat sv)) as [response dat] eqn:Hd. destruct (can_send sock') eqn:Hc.
  - destruct (send_slice (as_bytes response) sock') as [sock''|] eqn:Hs; cbn [unwrap].
    + split; [done|]. intros (_ & [?|(? & ? & [= <- <-] & _ & [?|(path' & Hp' & _ & Hn)])]); [done|congruence|].
      rewrite Hp in Hp'. injection Hp' as <-. rewrite Hd in Hn. cbn [fst] in Hn. congruence.
    + split; [|done]. intros _. split; [done|]. right. exists sock', (x :: data). split; [done|]. split; [done|]. right.
      exists path. by rewrite Hd.
  - split; [done|]. intros (_ & [?|(? & ? & [= <- <-] & _ & [?|(? & _ & ? & _)])]); congruence.
Qed.
(** What a round that does not panic has done to the pin. *)
Lemma receive_pin t sv sock sv' sock' :
  serve_receive parse t sv sock = Val (sv', sock') ->
  active sv' = active sv /\
  ((pd_dat sv' = pd_dat sv /\ (may_recv sock = false \/ exists s, recv sock = Some (s, []))) \/
   exists s data path, may_recv sock = true /\ recv sock = Some (s, data) /\ data <> [] /\ parse data = Some path /\
     pd_dat sv' = snd (respond path (pd_dat sv)) /\
     (if can_send s then exists s', send_slice (as_bytes (fst (respond path (pd_dat sv)))) s = Some s' /\ sock' = close s'
      else sock' = s)).
Proof.
  unfold serve_receive. destruct (may_recv sock); [|intros [= <- <-]; auto].
  destruct (recv sock) as [[s data]|]; cbn [unwrap]; [|done]. rewrite run_bind_Val.
  destruct data as [|x data]; [intros [= <- <-]; split; [done|]; left; split; [done|]; right; by eexists|].
  intros Hr. destruct (parse (x :: data)) as [path|] eqn:Hp; [|done]. cbn [unwrap] in Hr. rewrite run_bind_Val in Hr.
  destruct (respond path (pd_dat sv)) as [response dat] eqn:Hd. destruct (can_send s) eqn:Hc.
  - destruct (send_slice (as_bytes response) s) as [s'|] eqn:Hs; [|done]. injection Hr as <- <-. split; [done|]. right.
    exists s, (x :: data), path. rewrite Hd, Hc. split_and!; try done. by eexists.
  - injection Hr as <- <-. split; [done|]. right. exists s, (x :: data), path. by rewrite Hd, Hc.
Qed.
End serve.

(** A round of the server stops the device exactly if the socket cannot listen or
    be read, if a response that the socket said it can take is refused, or if what
    has arrived is not a request: any client can send one that does that. *)
Theorem serve_panics {S} {T : TcpSocket S} parse t_conn t_send t_check sv sock :
  serve parse t_conn t_send t_check sv sock = Panic <->
  match listening sock with None => True | Some sock1 => receive_panics parse sv sock1 end.
Proof.
  unfold serve, listening. assert (forall o : option S, (if is_open sock then Val sock else unwrap o) =
    match (if is_open sock then Some sock else o) with Some s => Val s | None => Panic end) as -> by (intros o; by destruct (is_open sock), o).
  destruct (if is_open sock then Some sock else listen 8000 sock) as [sock1|]; [|done]. rewrite run_bind_Val.
  set (sv1 := MkServer _ _ _). pose proof (receive_panic_iff parse t_send sv1 sock1) as Hiff.
  change (receive_panics parse sv1 sock1) with (receive_panics parse sv sock1) in Hiff. rewrite <- Hiff.
  destruct (serve_receive parse t_send sv1 sock1) as [[sv' sock']|]; [|done]. done.
Qed.

(** What a round does otherwise: it remembers whether the socket is connected; it
    changes the pin only for a request, as its path says; the response goes out
    and the connection is closed if the socket can send, and else the request has
    been carried out without an answer. *)
Theorem serve_spec {S} {T : TcpSocket S} parse t_conn t_send t_check sv sock sv' sock' :
  serve parse t_conn t_send t_check sv sock = Val (sv', sock') ->
  exists sock1 sock2, listening sock = Some sock1 /\ active sv' = is_active sock1 /\ (sock' = sock2 \/ sock' = abort sock2) /\
    ((pd_dat sv' = pd_dat sv /\ (may_recv sock1 = false \/ exists s, recv sock1 = Some (s, []))) \/
     exists s data path, may_recv sock1 = true /\ recv sock1 = Some (s, data) /\ data <> [] /\ parse data = Some path /\
       pd_dat sv' = snd (respond path (pd_dat sv)) /\
       (if can_send s then exists s', send_slice (as_bytes (fst (respond path (pd_dat sv)))) s = Some s' /\ sock2 = close s'
        else sock2 = s)).
Proof.
  unfold serve, listening. intros (sock1 & H1 & Hr)%run_bind_inv. apply run_bind_inv in Hr as ([sv2 sock2] & Hr & [= <- <-]).
  exists sock1, sock2. split; [destruct (is_open sock); [by injection H1 as ->|]; by destruct (listen 8000 sock); [injection H1 as ->|]|].
  apply receive_pin in Hr as [Ha Hp]. cbn [active pd_dat] in *. split; [done|]. split; [destruct (_ && _); auto|exact Hp].
Qed.

(** After any sequence of requests the pin is as the last ["/on"] or ["/off"] among
    them says, or as before if there was none; the other pins of the port are as
    before. *)
Theorem http_switch paths dat :
  fits 32 dat ->
  let dat' := fold_left (fun d p => snd (respond p d)) paths dat in
  fits 32 dat' /\
  Z.testbit dat' 0 = fold_left (fun b p => if bool_decide (p = Some path_on) then true else if bool_decide (p = Some path_off) then false else b)
    paths (Z.testbit dat 0) /\
  forall i, 0 < i -> Z.testbit dat' i = Z.testbit dat i.
Proof.
  revert dat. induction paths as [|p paths IH]; intros dat Hd; cbn [fold_left]; [done|].
  assert (fits 32 (snd (respond p dat)) /\ Z.testbit (snd (respond p dat)) 0 =
    (if bool_decide (p = Some path_on) then true else if bool_decide (p = Some path_off) then false else Z.testbit dat 0) /\
    forall i, 0 < i -> Z.testbit (snd (respond p dat)) i = Z.testbit dat i) as (H1 & H2 & H3).
  { unfold respond. destruct p as [p|]; [|done]. rewrite (bool_decide_ext (Some p = Some path_on) (p = path_on)) by (split; congruence).
    rewrite (bool_decide_ext (Some p = Some path_off) (p = path_off)) by (split; congruence). case_bool_decide; [|case_bool_decide; [|done]]; cbn [snd].
    - split; [by apply lor_fits|]. split; [by rewrite Z.lor_spec, orb_true_r|]. intros i Hi. rewrite Z.lor_spec.
      change 1 with (2 ^ 0). rewrite Z.pow2_bits_eqb, (proj2 (Z.eqb_neq 0 i)) by lia. apply orb_false_r.
    - split; [apply land_fits; [lia|apply Hd|by vm_compute]|]. split; [by rewrite Z.land_spec, andb_false_r|]. intros i Hi.
      rewrite Z.land_spec, Z.lxor_spec. change (Z.testbit 1 i) with (Z.testbit (2 ^ 0) i).
      rewrite Z.pow2_bits_eqb, (proj2 (Z.eqb_neq 0 i)) by lia. destruct (Z.lt_ge_cases i 32).
      + by rewrite Z.ones_spec_low, andb_true_r by lia.
      + by rewrite (fits_testbit 32 dat) by (done || lia). }
  destruct (IH _ H1) as (Hf & H0 & Hi). split; [done|]. split; [by rewrite H0, H2|]. intros i Hpos. by rewrite Hi, H3.
Qed.

(** A socket that is connected, with what has arrived and what was sent. *)
Definition demo_socket : TcpSocket (list Z * list Z) := {|
  is_open _ := true; is_active _ := true; may_recv _ := true; may_send _ := true; can_send _ := true;
  listen _ s := Some s; recv s := Some (([], snd s), fst s); send_slice bs s := Some (fst s, snd s ++ bs); close s := s; abort s := s |}.
Definition demo_parse (data : list Z) : option (option (list Z)) := Some (Some data).
Lemma serve_spec_witness :
  let T := demo_socket in
  let sv := MkServer true 1000 0x40 in
  exists sv' sock', serve demo_parse 2000 2000 2000 sv (path_on, []) = Val (sv', sock') /\
  exists sock1 sock2, listening (path_on, []) = Some sock1 /\ active sv' = is_active sock1 /\ (sock' = sock2 \/ sock' = abort sock2) /\
    ((pd_dat sv' = pd_dat sv /\ (may_recv sock1 = false \/ exists s, recv sock1 = Some (s, []))) \/
     exists s data path, may_recv sock1 = true /\ recv sock1 = Some (s, data) /\ data <> [] /\ demo_parse data = Some path /\
       pd_dat sv' = snd (respond path (pd_dat sv)) /\
       (if can_send s then exists s', send_slice (as_bytes (fst (respond path (pd_dat sv)))) s = Some s' /\ sock2 = close s'
        else sock2 = s)).
Proof.
  intros T sv. destruct (serve demo_parse 2000 2000 2000 sv (path_on, [])) as [[sv' sock']|] eqn:Hs; [|by vm_compute in Hs].
  exists sv', sock'. split; [done|]. exact (serve_spec demo_parse 2000 2000 2000 sv (path_on, []) sv' sock' Hs).
Defined.
Lemma http_switch_witness :
  let paths := [Some path_on; None; Some path_off; Some path_on; Some [47]] in
  let dat' := fold_left (fun d p => snd (respond p d)) paths 0x40 in
  fits 32 dat' /\
  Z.testbit dat' 0 = fold_left (fun b p => if bool_decide (p = Some path_on) then true else if bool_decide (p = Some path_off) then false else b)
    paths (Z.testbit 0x40 0) /\
  forall i, 0 < i -> Z.testbit dat' i = Z.testbit 0x40 i.
Proof. apply (http_switch [Some path_on; None; Some path_off; Some path_on; Some [47]] 0x40). by vm_compute. Defined.
