(* ===== verification/ArmStart.v ===== *)
(** The start of the ARM programs: [_start] of [device/bismuth/src/lib.rs] and of
    [device/okboot/extern/boot.S], the command of bismuth's [__kernel_start], and
    the critical sections of [device/okboot/src/lib.rs]. *)
From S2P Require Import Prelude TicketLock Args.

Module ArmStart.

Definition CLEAR_MODE_MASK : Z := Z.lxor 0x1f 0xffffffff.
Definition SUPER_MODE : Z := 0x13.
Definition CLEAR_MODE_IRQ_FIQ : Z := Z.lor (Z.shiftl 1 7) (Z.shiftl 1 6).
(** The status register behind the first instructions; [mask] is the bits that are
    set: both interrupts in bismuth, bit 7 in okboot. *)
Definition start_cpsr (mask cpsr : Z) : Z := Z.lor (Z.lor (Z.land cpsr CLEAR_MODE_MASK) SUPER_MODE) mask.

(** [strb r0, [r1], #1; subs r2, r2, #1; bne 2b]: the memory, the two registers and
    whether the loop has ended. *)
Fixpoint bss_loop (fuel : nat) (m : Z -> Z) (r1 r2 : Z) : (Z -> Z) * Z * Z * bool :=
  match fuel with
  | O => (m, r1, r2, false)
  | S fuel =>
    let m' := fun x => if x =? r1 then 0 else m x in
    let r1 := wrap 32 (r1 + 1) in
    let r2 := wrap 32 (r2 - 1) in
    if r2 =? 0 then (m', r1, r2, true) else bss_loop fuel m' r1 r2
  end.
(** [subs r2, r2, r1; bcc 3f]: the carry is clear if the difference is negative. *)
Definition zero_bss (fuel : nat) (bss_start bss_end : Z) (m : Z -> Z) : (Z -> Z) * bool :=
  if bss_end <? bss_start then (m, true)
  else let '(m, _, _, ended) := bss_loop fuel m bss_start (wrap 32 (bss_end - bss_start)) in (m, ended).

(** The command that bismuth is started with. *)
Inductive BismuthCommand : Type := DumpCpuInfo | InterleaveChecker | UnknownCommand (arg0 : list Z).
Definition command_of (arg0 : list Z) : BismuthCommand :=
  if bool_decide (arg0 = [99; 112; 117; 105; 100]) then DumpCpuInfo
  else if bool_decide (arg0 = [100; 101; 98; 117; 103]) then InterleaveChecker
  else UnknownCommand arg0.
Definition kernel_command (area : list Z) : run (option BismuthCommand) :=
  n ← arg_count area;
  if 0 <? n then arg0 ← get_nth_arg area 0; arg0 ← unwrap arg0; Val (Some (command_of arg0)) else Val None.

(** [MyCriticalSection::acquire] on the word of the ticket lock, alone on the lock:
    after the ticket is taken, [n] rounds of the waiting loop. *)
Fixpoint wait_rounds (n : nat) (raw : Z) (th : thread) : thread :=
  match n with O => th | S n => wait_rounds n raw (wait_step raw th) end.
Definition section_acquire (n : nat) (raw : Z) : Z * thread :=
  let '(raw, th) := take_ticket raw in (raw, wait_rounds n raw th).
Definition section_release (raw : Z) : Z := unlock raw.
End ArmStart.
Export ArmStart.

(** ** The loop *)

Section bss.
Implicit Types (m : Z -> Z) (x : Z).

(** [k] rounds of the loop clear [k] bytes, as long as the count is not used up. *)
Lemma bss_loop_rounds k : forall m r1 r2,
  0 <= r1 -> r1 + Z.of_nat k < 2 ^ 32 -> fits 32 r2 -> Z.of_nat k < (if r2 =? 0 then 2 ^ 32 else r2) ->
  exists m', bss_loop k m r1 r2 = (m', r1 + Z.of_nat k, wrap 32 (r2 - Z.of_nat k), false) /\
    forall x, m' x = if bool_decide (r1 <= x < r1 + Z.of_nat k) then 0 else m x.
Proof.
  induction k as [|k IH]; intros m r1 r2 H1 Hb Hf Hk; cbn [bss_loop].
  { exists m. rewrite Z.add_0_r, Z.sub_0_r, wrap_id by done. split; [done|]. intros x. by rewrite bool_decide_false by lia. }
  rewrite (wrap_id 32 (r1 + 1)) by (unfold fits; lia).
  assert (wrap 32 (r2 - 1) <> 0 /\ Z.of_nat k < wrap 32 (r2 - 1) /\ wrap 32 (wrap 32 (r2 - 1) - Z.of_nat k) = wrap 32 (r2 - Z.of_nat (S k))) as (Hne & Hlt & Hw).
  { unfold fits in Hf. destruct (Z.eqb_spec r2 0) as [->|Hr2].
    - change (wrap 32 (0 - 1)) with (2 ^ 32 - 1). split; [done|]. split; [lia|]. unfold wrap.
      replace (2 ^ 32 - 1 - Z.of_nat k) with (0 - Z.of_nat (S k) + 1 * 2 ^ 32) by lia. apply Z_mod_plus_full.
    - rewrite (wrap_id 32 (r2 - 1)) by (unfold fits; lia). split; [lia|]. split; [lia|]. f_equal. lia. }
  rewrite (proj2 (Z.eqb_neq _ _)) by exact Hne.
  destruct (IH (fun x => if x =? r1 then 0 else m x) (r1 + 1) (wrap 32 (r2 - 1))) as (m' & -> & Hm').
  { lia. } { lia. } { apply wrap_fits. lia. } { by rewrite (proj2 (Z.eqb_neq _ _)). }
  exists m'. rewrite Hw. split; [do 3 f_equal; lia|]. intros x. rewrite Hm'.
  destruct (decide (r1 + 1 <= x < r1 + 1 + Z.of_nat k)).
  - by rewrite !bool_decide_true by lia.
  - rewrite (bool_decide_false (r1 + 1 <= x < _)) by done. destruct (Z.eqb_spec x r1).
    + by rewrite bool_decide_true by lia.
    + by rewrite bool_decide_false by lia.
Qed.
Lemma bss_loop_app k j m r1 r2 m' r1' r2' :
  bss_loop k m r1 r2 = (m', r1', r2', false) -> bss_loop (k + j) m r1 r2 = bss_loop j m' r1' r2'.
Proof.
  revert m r1 r2. induction k as [|k IH]; intros m r1 r2; cbn [Nat.add bss_loop]; [by intros [= -> -> ->]|].
  destruct (_ =? 0); [done|]. apply IH.
Qed.
End bss.

(** ** The claims *)

(** [_start] clears the bytes from the start of the uninitialised data to its end,
    and no others, and ends; the processor is in Supervisor mode with the
    interrupts of the mask off and the rest of the status as it was. *)
Theorem zero_bss_clears fuel bss_start bss_end m mask cpsr :
  0 <= bss_start < bss_end -> bss_end < 2 ^ 32 -> bss_end - bss_start <= Z.of_nat fuel -> fits 32 cpsr -> fits 32 mask ->
  (exists m', zero_bss fuel bss_start bss_end m = (m', true) /\
    forall x, m' x = if bool_decide (bss_start <= x < bss_end) then 0 else m x) /\
  forall i, 0 <= i -> Z.testbit (start_cpsr mask cpsr) i = (if i <? 5 then Z.testbit SUPER_MODE i else Z.testbit cpsr i) || Z.testbit mask i.
Proof.
  intros Hs He Hf Hc Hmask. split.
  - unfold zero_bss. rewrite (proj2 (Z.ltb_ge _ _)), wrap_id by (unfold fits; lia).
    set (k := Z.to_nat (bss_end - bss_start - 1)).
    destruct (bss_loop_rounds k m bss_start (bss_end - bss_start)) as (m1 & Hl & Hm1); [lia|lia|unfold fits; lia|destruct (_ =? 0) eqn:?; lia|].
    replace fuel with (k + S (fuel - S k))%nat by lia. rewrite (bss_loop_app _ _ _ _ _ _ _ _ Hl). cbn [bss_loop].
    rewrite (wrap_id 32 (bss_end - bss_start - Z.of_nat k)) by (unfold fits; lia).
    replace (bss_end - bss_start - Z.of_nat k - 1) with 0 by lia. cbn. eexists. split; [reflexivity|]. intros x. cbv beta. rewrite Hm1.
    destruct (Z.eqb_spec x (bss_start + Z.of_nat k)).
    + by rewrite bool_decide_true by lia.
    + by rewrite (bool_decide_ext (bss_start <= x < bss_start + Z.of_nat k) (bss_start <= x < bss_end)) by lia.
  - intros i Hi. unfold start_cpsr, CLEAR_MODE_MASK, SUPER_MODE. rewrite !Z.lor_spec, Z.land_spec, Z.lxor_spec. f_equal.
    change 0x1f with (Z.ones 5). change 0xffffffff with (Z.ones 32). destruct (Z.ltb_spec i 5).
    + rewrite !Z.ones_spec_low by lia. by rewrite andb_false_r.
    + rewrite (Z.ones_spec_high 5) by lia. rewrite (fits_testbit 5 0x13), orb_false_r by (done || lia). destruct (Z.lt_ge_cases i 32).
      * by rewrite Z.ones_spec_low, andb_true_r by lia.
      * by rewrite (fits_testbit 32 cpsr) by (done || lia).
Qed.

Lemma zero_bss_clears_witness :
  (exists m', zero_bss 100 0x9000 0x9040 (fun x => x) = (m', true) /\
    forall x, m' x = if bool_decide (0x9000 <= x < 0x9040) then 0 else x) /\
  forall i, 0 <= i -> Z.testbit (start_cpsr CLEAR_MODE_IRQ_FIQ 0x6000011a) i =
    (if i <? 5 then Z.testbit SUPER_MODE i else Z.testbit 0x6000011a i) || Z.testbit CLEAR_MODE_IRQ_FIQ i.
Proof. apply (zero_bss_clears 100 0x9000 0x9040 (fun x => x) CLEAR_MODE_IRQ_FIQ 0x6000011a); [lia|lia|lia|by vm_compute|by vm_compute]. Defined.

(** A program without uninitialised data does not start: the loop tests its count
    behind the first byte, so a count of zero wraps around, and after [k] rounds
    it has cleared [k] bytes behind the program and goes on. *)
Theorem empty_bss_runs_away k bss m :
  0 <= bss -> bss + Z.of_nat k < 2 ^ 32 ->
  exists m', zero_bss k bss bss m = (m', false) /\ forall x, m' x = if bool_decide (bss <= x < bss + Z.of_nat k) then 0 else m x.
Proof.
  intros H0 Hk. unfold zero_bss. rewrite Z.ltb_irrefl, Z.sub_diag.
  destruct (bss_loop_rounds k m bss (wrap 32 0)) as (m' & Hl & Hm'); [done|done|by vm_compute|change (wrap 32 0 =? 0) with true; lia|].
  rewrite Hl. by exists m'.
Qed.

Lemma empty_bss_runs_away_witness :
  exists m', zero_bss 1000 0x9000 0x9000 (fun x => x) = (m', false) /\
    forall x, m' x = if bool_decide (0x9000 <= x < 0x9000 + Z.of_nat 1000) then 0 else x.
Proof. apply (empty_bss_runs_away 1000 0x9000 (fun x => x)); lia. Defined.

(** The first argument that the uploader puts behind the program decides what
    bismuth does. *)
Theorem command_is_first_arg arg0 args area_rest :
  Z.of_nat (length (args_body (arg0 :: args))) + 4 < 2 ^ 31 -> Z.of_nat (length (arg0 :: args)) < 2 ^ 32 -> valid_utf8 arg0 = true ->
  exists serialized, serialize_args (arg0 :: args) = Val serialized /\
    kernel_command (serialized ++ area_rest) = Val (Some (command_of arg0)).
Proof.
  intros Hl Hn Hu. unfold serialize_args. rewrite wrap_id by (unfold fits; lia).
  eexists. split; [by apply serialize_loop_spec|]. rewrite <- app_assoc. unfold kernel_command, arg_count.
  pose proof (read_word_at [] (Z.of_nat (length (arg0 :: args))) (args_body (arg0 :: args) ++ area_rest)) as Hc. cbn [app length] in Hc |- *.
  change (Z.of_nat 0) with 0 in Hc.
  rewrite Hc, run_bind_Val by (cbn [length] in *; unfold fits; lia). rewrite (proj2 (Z.ltb_lt _ _)) by lia.
  assert (args_body (arg0 :: args) = serialize_arg arg0 ++ args_body args) as Hb by done. rewrite Hb in Hl |- *.
  rewrite length_app in Hl. rewrite <- app_assoc.
  pose proof (get_arg_behind [] arg0 (args_body args ++ area_rest)) as Hg. cbn [length args_body mbind list_bind app] in Hg.
  rewrite (Hg (List.Forall_nil _)); [done|done|lia|cbn [length] in Hn; lia|done].
Qed.

(** [--arg debug --arg 7] *)
Lemma command_is_first_arg_witness :
  exists serialized, serialize_args [[100; 101; 98; 117; 103]; [55]] = Val serialized /\
    kernel_command (serialized ++ replicate 228 0) = Val (Some (command_of [100; 101; 98; 117; 103])).
Proof. apply (command_is_first_arg [100; 101; 98; 117; 103] [[55]] (replicate 228 0)); by vm_compute. Defined.

(** The critical sections of okboot do not nest: the first one is entered, but the
    second waits for a ticket that only the release behind it would give, however
    long. *)
Theorem nested_section_deadlocks k n :
  0 <= k -> k + 2 < 2 ^ 16 ->
  let '(raw1, th1) := section_acquire 1 (ticket_word k k) in
  let '(raw2, th2) := section_acquire n raw1 in
  th1 = Inside k /\ th2 = Waiting k (k + 1) /\ section_release raw1 = ticket_word (k + 1) (k + 1).
Proof.
  intros Hk Hb. unfold section_acquire. rewrite take_word by lia. cbn [wait_rounds wait_step]. rewrite Z.eqb_refl.
  rewrite take_word by lia. split; [done|]. split.
  - induction n as [|n IH]; [done|]. cbn [wait_rounds wait_step]. rewrite (proj2 (Z.eqb_neq k _)), owner_word by lia. exact IH.
  - unfold section_release, unlock, ticket_word. rewrite wrap_id; [lia|]. unfold fits. nia.
Qed.

Lemma nested_section_deadlocks_witness :
  let '(raw1, th1) := section_acquire 1 (ticket_word 5 5) in
  let '(raw2, th2) := section_acquire 1000 raw1 in
  th1 = Inside 5 /\ th2 = Waiting 5 (5 + 1) /\ section_release raw1 = ticket_word (5 + 1) (5 + 1).
Proof. apply (nested_section_deadlocks 5 1000); lia. Defined.
