(* ===== verification/RiscvTrap.v ===== *)
(** The trap trampoline of the RISC-V device, [define_exception_trampoline] of
    [device/antimony/src/arch/exception.rs], instruction by instruction, with the
    [TrapFrame] that it lays out for the handler.

    A handler written in Rust is a function on the processor; [c_call] is what the
    calling convention says of it.  The registers have their architectural numbers
    and are those of the integer unit; memory is by the doubleword. *)
From stdpp Require Import functions.
From S2P Require Import Prelude.

Module RiscvTrap.

Record hart : Type := MkHart {
  x : Z -> Z;
  mem : Z -> Z;
  pc : Z;
  mepc : Z;
  mie_bit : bool;     (* [mstatus.MIE] *)
  mpie_bit : bool;    (* [mstatus.MPIE] *)
}.
Definition ra : Z := 1.
Definition sp : Z := 2.
Definition t : list Z := [5; 6; 7; 28; 29; 30; 31].
Definition a : list Z := [10; 11; 12; 13; 14; 15; 16; 17].
Definition a0 : Z := 10.

Definition get (r : Z) (h : hart) : Z := if r =? 0 then 0 else x h r.
Definition set (r v : Z) (h : hart) : hart :=
  if r =? 0 then h else MkHart (<[r := v]> (x h)) (mem h) (pc h) (mepc h) (mie_bit h) (mpie_bit h).
Definition set_mem (m : Z -> Z) (h : hart) : hart := MkHart (x h) m (pc h) (mepc h) (mie_bit h) (mpie_bit h).

(** What the processor does before the first instruction of the trampoline. *)
Definition enter_trap (vector : Z) (h : hart) : hart :=
  MkHart (x h) (mem h) vector (pc h) false (mie_bit h).

Inductive instr : Type :=
  | Addi (rd rs imm : Z)
  | Sd (rs imm base : Z)
  | Ld (rd imm base : Z)
  | Mv (rd rs : Z)
  | Jal (link : Z) (target : hart -> hart)   (* the call of a function that returns *)
  | Mret.

Definition step (i : instr) (h : hart) : hart + hart :=
  match i with
  | Addi rd rs imm => inl (set rd (wrap 64 (get rs h + imm)) h)
  | Sd rs imm base => inl (set_mem (<[wrap 64 (get base h + imm) := get rs h]> (mem h)) h)
  | Ld rd imm base => inl (set rd (mem h (wrap 64 (get base h + imm))) h)
  | Mv rd rs => inl (set rd (get rs h) h)
  | Jal link target => inl (target (set ra link h))
  | Mret => inr (MkHart (x h) (mem h) (mepc h) (mepc h) (mpie_bit h) true)
  end.
Fixpoint exec (code : list instr) (h : hart) : option hart :=
  match code with
  | [] => None
  | i :: code => match step i h with inl h => exec code h | inr h => Some h end
  end.

Definition trampoline (link : Z) (target : hart -> hart) : list instr :=
  [Addi 2 2 (-16 * 8);
   Sd 1 (0 * 8) 2;
   Sd 5 (1 * 8) 2; Sd 6 (2 * 8) 2; Sd 7 (3 * 8) 2; Sd 28 (4 * 8) 2; Sd 29 (5 * 8) 2; Sd 30 (6 * 8) 2; Sd 31 (7 * 8) 2;
   Sd 10 (8 * 8) 2; Sd 11 (9 * 8) 2; Sd 12 (10 * 8) 2; Sd 13 (11 * 8) 2;
   Sd 14 (12 * 8) 2; Sd 15 (13 * 8) 2; Sd 16 (14 * 8) 2; Sd 17 (15 * 8) 2;
   Mv 10 2; Jal link target;
   Ld 1 (0 * 8) 2;
   Ld 5 (1 * 8) 2; Ld 6 (2 * 8) 2; Ld 7 (3 * 8) 2; Ld 28 (4 * 8) 2; Ld 29 (5 * 8) 2; Ld 30 (6 * 8) 2; Ld 31 (7 * 8) 2;
   Ld 10 (8 * 8) 2; Ld 11 (9 * 8) 2; Ld 12 (10 * 8) 2; Ld 13 (11 * 8) 2;
   Ld 14 (12 * 8) 2; Ld 15 (13 * 8) 2; Ld 16 (14 * 8) 2; Ld 17 (15 * 8) 2;
   Addi 2 2 (16 * 8);
   Mret].

(** [TrapFrame], [repr(C)]: where a handler finds its fields. *)
Record TrapFrame : Type := MkTrapFrame { tf_ra : Z; tf_t : list Z; tf_a : list Z }.
Definition read_frame (p : Z) (m : Z -> Z) : TrapFrame :=
  MkTrapFrame (m p) (map (fun i => m (p + 8 * i)) [1; 2; 3; 4; 5; 6; 7])
    (map (fun i => m (p + 8 * i)) [8; 9; 10; 11; 12; 13; 14; 15]).
Definition frame_of (h : hart) : TrapFrame :=
  MkTrapFrame (get ra h) (map (fun r => get r h) t) (map (fun r => get r h) a).

(** The registers that a function has to restore, and the rest of what the
    convention and the processor promise of one that runs with the interrupts off
    and takes no trap itself. *)
Definition callee_saved : list Z := [2; 3; 4; 8; 9; 18; 19; 20; 21; 22; 23; 24; 25; 26; 27].
Record c_call (f : hart -> hart) : Prop := {
  cc_saved h r : r ∈ callee_saved -> x (f h) r = x h r;
  cc_mepc h : mepc (f h) = mepc h;
  cc_mpie h : mpie_bit (f h) = mpie_bit h;
}.
End RiscvTrap.
Export RiscvTrap.

(** ** Saving and restoring *)

(** Slot [i] of the frame at [p]. *)
Definition saves (rs : list Z) (k : Z) : list instr := imap (fun i r => Sd r (8 * (k + Z.of_nat i)) 2) rs.
Definition loads (rs : list Z) (k : Z) : list instr := imap (fun i r => Ld r (8 * (k + Z.of_nat i)) 2) rs.
Definition saved_regs : list Z := ra :: t ++ a.

Lemma saves_cons r rs k : saves (r :: rs) k = Sd r (8 * k) 2 :: saves rs (k + 1).
Proof. unfold saves. cbn [imap]. f_equal; [f_equal; lia|]. apply imap_ext. intros i ? _. cbn. f_equal. lia. Qed.
Lemma loads_cons r rs k : loads (r :: rs) k = Ld r (8 * k) 2 :: loads rs (k + 1).
Proof. unfold loads. cbn [imap]. f_equal; [f_equal; lia|]. apply imap_ext. intros i ? _. cbn. f_equal. lia. Qed.

Lemma trampoline_blocks link target :
  trampoline link target = Addi 2 2 (-128) :: saves saved_regs 0 ++ Mv 10 2 :: Jal link target :: loads saved_regs 0 ++ [Addi 2 2 128; Mret].
Proof. reflexivity. Qed.

Lemma exec_inl i code (h h' : hart) : step i h = inl h' -> exec (i :: code) h = exec code h'.
Proof. cbn. by intros ->. Qed.
Lemma exec_mret code (h : hart) : exec (Mret :: code) h = Some (MkHart (x h) (mem h) (mepc h) (mepc h) (mpie_bit h) true).
Proof. done. Qed.

(** The stores leave everything alone but the slots. *)
Lemma exec_saves rs code h : forall k,
  0 <= k -> 0 <= x h 2 -> x h 2 + 8 * (k + Z.of_nat (length rs)) <= 2 ^ 64 ->
  exists m, exec (saves rs k ++ code) h = exec code (set_mem m h) /\
    (forall i r, rs !! i = Some r -> m (x h 2 + 8 * (k + Z.of_nat i)) = get r h) /\
    (forall p, ~ x h 2 + 8 * k <= p < x h 2 + 8 * (k + Z.of_nat (length rs)) -> m p = mem h p).
Proof.
  revert h. induction rs as [|r rs IH]; intros h k Hk H0 Hb.
  { exists (mem h). split; [by destruct h|]. split; [intros ? ? [=]|done]. }
  rewrite saves_cons. cbn [length] in Hb. cbn [app exec step]. change (get 2 h) with (x h 2). rewrite wrap_id by (unfold fits; lia).
  set (m1 := <[x h 2 + 8 * k := get r h]> (mem h)).
  destruct (IH (set_mem m1 h) (k + 1)) as (m & -> & Hs & Ho); [lia|done|cbn; lia|]. exists m. split; [done|].
  cbn [set_mem x] in Hs, Ho. split.
  - intros [|i] r' Hi.
    + injection Hi as <-. rewrite Ho by lia. unfold m1. assert (x h 2 + 8 * (k + Z.of_nat 0) = x h 2 + 8 * k) as -> by lia. cbn [mem set_mem]. apply fn_lookup_insert.
    + specialize (Hs i r' Hi). replace (k + Z.of_nat (S i)) with (k + 1 + Z.of_nat i) by lia. by rewrite Hs.
  - intros p Hp. cbn [length] in Hp. rewrite Ho by lia. unfold m1. apply fn_lookup_insert_ne. lia.
Qed.

(** The loads take each register of the list from its slot. *)
Lemma exec_loads rs code h : forall k,
  NoDup rs -> 2 ∉ rs -> 0 ∉ rs -> 0 <= k -> 0 <= x h 2 -> x h 2 + 8 * (k + Z.of_nat (length rs)) <= 2 ^ 64 ->
  exists y, exec (loads rs k ++ code) h = exec code (MkHart y (mem h) (pc h) (mepc h) (mie_bit h) (mpie_bit h)) /\
    (forall i r, rs !! i = Some r -> y r = mem h (x h 2 + 8 * (k + Z.of_nat i))) /\
    (forall r, r ∉ rs -> y r = x h r).
Proof.
  revert h. induction rs as [|r rs IH]; intros h k Hnd H2 Hz Hk H0 Hb.
  { exists (x h). split; [by destruct h|]. split; [intros ? ? [=]|done]. }
  apply list.NoDup_cons in Hnd as [Hr Hnd]. apply not_elem_of_cons in H2 as [H2 H2'], Hz as [Hz Hz'].
  rewrite loads_cons. cbn [length] in Hb. cbn [app exec step]. change (get 2 h) with (x h 2). rewrite wrap_id by (unfold fits; lia).
  unfold set. rewrite (proj2 (Z.eqb_neq r 0)) by congruence.
  set (h1 := MkHart _ _ _ _ _ _). assert (x h1 2 = x h 2) as Hx by (unfold h1; cbn [x]; by apply fn_lookup_insert_ne).
  destruct (IH h1 (k + 1)) as (y & -> & Hs & Ho); [done|done|done|lia|by rewrite Hx|rewrite Hx; lia|]. exists y. split; [done|].
  rewrite Hx in Hs. split.
  - intros [|i] r' Hi.
    + injection Hi as <-. rewrite Ho by done. unfold h1. cbn [x]. rewrite fn_lookup_insert. do 2 f_equal. lia.
    + rewrite (Hs i r' Hi). cbn. f_equal. lia.
  - intros r' Hr'. apply not_elem_of_cons in Hr' as [Hne Hr']. rewrite Ho by done. unfold h1. cbn [x]. by apply fn_lookup_insert_ne.
Qed.

(** The state in which the handler begins: the frame is in place, [a0] points to it. *)
Lemma trampoline_runs (link : Z) target (h : hart) :
  128 <= x h 2 < 2 ^ 64 -> c_call target ->
  exists h1 : hart, x h1 10 = x h 2 - 128 /\ x h1 2 = x h 2 - 128 /\ (forall r, r ∈ callee_saved -> r <> sp -> x h1 r = x h r) /\
    (forall i r, saved_regs !! i = Some r -> mem h1 (x h 2 - 128 + 8 * Z.of_nat i) = get r h) /\
    (forall p, ~ x h 2 - 128 <= p < x h 2 -> mem h1 p = mem h p) /\
    exists y, exec (trampoline link target) h =
        Some (MkHart (<[sp := x h 2]> y) (mem (target h1)) (mepc h) (mepc h) (mpie_bit h) true) /\
    (forall i r, saved_regs !! i = Some r -> y r = mem (target h1) (x h 2 - 128 + 8 * Z.of_nat i)) /\
    (forall r, r ∉ saved_regs -> y r = x (target h1) r).
Proof.
  intros Hsp Hc. rewrite trampoline_blocks.
  set (h0 := MkHart (<[2 := x h 2 - 128]> (x h)) (mem h) (pc h) (mepc h) (mie_bit h) (mpie_bit h)).
  rewrite (exec_inl _ _ h h0) by (cbn [step]; unfold get; cbn [Z.eqb]; rewrite wrap_id by (unfold fits; lia); done).
  assert (x h0 2 = x h 2 - 128) as Hx0 by apply fn_lookup_insert.
  destruct (exec_saves saved_regs (Mv 10 2 :: Jal link target :: loads saved_regs 0 ++ [Addi 2 2 128; Mret]) h0 0) as (m & -> & Hs & Ho);
    [lia|rewrite Hx0; lia|rewrite Hx0; cbn [length saved_regs t a app]; lia|].
  rewrite Hx0 in Hs, Ho. set (h1 := set 1 link (set 10 (x h 2 - 128) (set_mem m h0))).
  rewrite (exec_inl _ _ _ (set 10 (x h 2 - 128) (set_mem m h0))) by (rewrite <- Hx0; done).
  rewrite (exec_inl _ _ _ (target h1)) by done. exists h1.
  assert (x h1 = <[1 := link]> (<[10 := x h 2 - 128]> (x h0))) as Hx by done.
  split. { rewrite Hx, fn_lookup_insert_ne by done. apply fn_lookup_insert. }
  assert (x h1 2 = x h 2 - 128) as Hx2.
  { rewrite Hx, fn_lookup_insert_ne, fn_lookup_insert_ne by done. exact Hx0. }
  split; [exact Hx2|]. split.
  { unfold sp. intros r Hr Hn. assert (r <> 1 /\ r <> 10) as [H1 H10] by (split; intros ->; revert Hr; decide_now).
    rewrite Hx, !fn_lookup_insert_ne by congruence. unfold h0. cbn [x]. by rewrite fn_lookup_insert_ne by congruence. }
  split.
  { intros i r Hi. change (mem h1) with m. rewrite <- (Z.add_0_l (Z.of_nat i)), (Hs i r Hi).
    unfold get. destruct (r =? 0); [done|]. cbn [x h0]. apply fn_lookup_insert_ne. intros <-. apply list_elem_of_lookup_2 in Hi. revert Hi. decide_now. }
  split. { intros p Hp. change (mem h1) with m. apply Ho. cbn [length saved_regs t a app]. lia. }
  assert (x (target h1) 2 = x h 2 - 128) as Hx1.
  { rewrite (cc_saved _ Hc) by decide_now. exact Hx2. }
  destruct (exec_loads saved_regs [Addi 2 2 128; Mret] (target h1) 0) as (y & -> & Hl & Hn);
    [decide_now|decide_now|decide_now|lia|rewrite Hx1; lia|rewrite Hx1; cbn [length saved_regs t a app]; lia|].
  exists y. rewrite Hx1 in Hl. split.
  - set (h2 := MkHart y _ _ _ _ _). assert (get 2 h2 = x h 2 - 128) as Hg by (change (y 2 = x h 2 - 128); rewrite (Hn 2) by decide_now; exact Hx1).
    rewrite (exec_inl _ _ h2 (set 2 (x h 2) h2)).
    + rewrite exec_mret. f_equal. change (MkHart (<[2 := x h 2]> y) (mem (target h1)) (mepc (target h1)) (mepc (target h1)) (mpie_bit (target h1)) true = MkHart (<[sp := x h 2]> y) (mem (target h1)) (mepc h) (mepc h) (mpie_bit h) true).
      rewrite (cc_mepc _ Hc), (cc_mpie _ Hc). done.
    + cbn [step]. rewrite Hg, wrap_id by (unfold fits; lia). do 2 f_equal. lia.
  - split; [|done]. intros i r Hi. rewrite (Hl i r Hi). f_equal; lia.
Qed.

Lemma callee_disjoint r : r ∈ callee_saved -> r ∉ saved_regs.
Proof. intros Hr. assert (forallb (fun r => bool_decide (r ∉ saved_regs)) callee_saved = true) as Hall by by vm_compute.
  rewrite forallb_forall in Hall. exact (proj1 (bool_decide_eq_true _) (Hall r (proj1 (list_elem_of_In _ _) Hr))). Qed.
Lemma reg_cases r : 1 <= r < 32 -> r ∈ saved_regs \/ r ∈ callee_saved.
Proof.
  intros Hr. assert (forallb (fun r => bool_decide (r ∈ saved_regs \/ r ∈ callee_saved)) (seqZ 1 31) = true) as Hall by by vm_compute.
  rewrite forallb_forall in Hall. refine (proj1 (bool_decide_eq_true _) (Hall r _)). apply list_elem_of_In, elem_of_seqZ. lia.
Qed.

(** The slots, read as a frame. *)
Lemma read_frame_slots p m (g : Z -> Z) :
  (forall i r, saved_regs !! i = Some r -> m (p + 8 * Z.of_nat i) = g r) -> read_frame p m = MkTrapFrame (g ra) (map g t) (map g a).
Proof.
  intros Hs. unfold read_frame. rewrite <- (Hs 0%nat ra), Z.add_0_r by done. f_equal.
  - cbn [map t]. by rewrite <- (Hs 1%nat 5), <- (Hs 2%nat 6), <- (Hs 3%nat 7), <- (Hs 4%nat 28), <- (Hs 5%nat 29), <- (Hs 6%nat 30), <- (Hs 7%nat 31).
  - cbn [map a]. by rewrite <- (Hs 8%nat 10), <- (Hs 9%nat 11), <- (Hs 10%nat 12), <- (Hs 11%nat 13), <- (Hs 12%nat 14), <- (Hs 13%nat 15), <- (Hs 14%nat 16), <- (Hs 15%nat 17).
Qed.
Lemma frame_of_eq (h : hart) : frame_of h = MkTrapFrame (x h ra) (map (x h) t) (map (x h) a).
Proof. reflexivity. Qed.

(** ** The claims *)

(** The handler gets, in [a0], the address of a [TrapFrame] that holds the registers
    of the interrupted code, below its stack pointer and with the same alignment,
    and no other memory has changed; what the handler leaves in the frame is what
    the interrupted code finds in those registers. *)
Theorem handler_gets_frame link target (h : hart) :
  128 <= x h 2 < 2 ^ 64 -> c_call target ->
  exists h1 : hart, get a0 h1 = x h 2 - 128 /\ get sp h1 = get a0 h1 /\ get sp h1 mod 16 = x h 2 mod 16 /\
    read_frame (get a0 h1) (mem h1) = frame_of h /\ (forall p, ~ x h 2 - 128 <= p < x h 2 -> mem h1 p = mem h p) /\
    exists h2, exec (trampoline link target) h = Some h2 /\ mem h2 = mem (target h1) /\
      frame_of h2 = read_frame (get a0 h1) (mem (target h1)).
Proof.
  intros Hsp Hc. destruct (trampoline_runs link target h Hsp Hc) as (h1 & Ha & Hsp1 & _ & Hs & Ho & y & Hr & Hl & _). exists h1.
  change (get a0 h1) with (x h1 10). change (get sp h1) with (x h1 2). rewrite Ha, Hsp1. do 2 (split; [done|]).
  split. { replace (x h 2 - 128) with (x h 2 + (-8) * 16) by lia. apply Z_mod_plus_full. }
  split; [by apply (read_frame_slots _ _ (fun r => get r h))|]. split; [done|]. eexists. split; [exact Hr|]. split; [done|].
  rewrite (read_frame_slots _ _ y) by (intros; by rewrite (Hl _ _ ltac:(eassumption))).
  rewrite frame_of_eq. cbn [x t a map]. repeat (rewrite fn_lookup_insert_ne by done). done.
Qed.

(** A handler that clears every register it may, and counts in a memory word. *)
Definition counting_handler (h : hart) : hart :=
  MkHart (fun r => if bool_decide (r ∈ callee_saved) then x h r else 0) (<[0x5000 := mem h 0x5000 + 1]> (mem h)) (pc h) (mepc h) (mie_bit h) (mpie_bit h).
Lemma counting_handler_ok : c_call counting_handler.
Proof. split; [|done|done]. intros h r Hr. cbn. by rewrite bool_decide_true. Qed.
Definition interrupted : hart := MkHart (fun r => 100 + r) (fun _ => 0) 0x40001000 0 true false.
Definition interrupted_at (stack : Z) : hart := set 2 stack interrupted.

Lemma handler_gets_frame_witness :
  exists h1 : hart, get a0 h1 = 0x48000000 - 128 /\ get sp h1 = get a0 h1 /\ get sp h1 mod 16 = 0x48000000 mod 16 /\
    read_frame (get a0 h1) (mem h1) = frame_of (interrupted_at 0x48000000) /\
    (forall p, ~ 0x48000000 - 128 <= p < 0x48000000 -> mem h1 p = mem (interrupted_at 0x48000000) p) /\
    exists h2, exec (trampoline 0x40002050 counting_handler) (interrupted_at 0x48000000) = Some h2 /\ mem h2 = mem (counting_handler h1) /\
      frame_of h2 = read_frame (get a0 h1) (mem (counting_handler h1)).
Proof. apply (handler_gets_frame 0x40002050 counting_handler (interrupted_at 0x48000000)); [vm_compute; by split|exact counting_handler_ok]. Defined.

(** C20: a trap is invisible to the code that it interrupts, whatever the handler does
    within the calling convention as long as it leaves its frame alone: execution
    goes on where it was, every register has its value, the interrupts are enabled
    again if they were, and the memory is that of the handler. *)
Theorem trap_transparent link target vector (h : hart) :
  128 <= x h 2 < 2 ^ 64 -> c_call target ->
  (forall h1 p, x h1 2 = x h 2 - 128 -> x h1 2 <= p < x h 2 -> mem (target h1) p = mem h1 p) ->
  exists h2, exec (trampoline link target) (enter_trap vector h) = Some h2 /\
    pc h2 = pc h /\ mie_bit h2 = mie_bit h /\ forall r, 0 <= r < 32 -> get r h2 = get r h.
Proof.
  intros Hsp Hc Hf.
  destruct (trampoline_runs link target (enter_trap vector h) Hsp Hc) as (h1 & _ & Hsp1 & Hk & Hs & _ & y & Hr & Hl & Hn).
  change (x (enter_trap vector h)) with (x h) in *. eexists. split; [exact Hr|]. do 2 (split; [done|]). intros r Hr32.
  unfold get. destruct (Z.eqb_spec r 0) as [|Hr0]; [done|]. cbn [x]. destruct (decide (r = sp)) as [->|Hrs]; [apply fn_lookup_insert|].
  rewrite fn_lookup_insert_ne by congruence.
  destruct (reg_cases r ltac:(lia)) as [Hsv|Hcs].
  - apply list_elem_of_lookup in Hsv as [i Hi]. pose proof (lookup_lt_Some _ _ _ Hi) as Hlt. cbn in Hlt.
    rewrite (Hl i r Hi), Hf, (Hs i r Hi) by (rewrite ?Hsp1; lia). unfold get. by rewrite (proj2 (Z.eqb_neq r 0)).
  - rewrite Hn by (by apply callee_disjoint). rewrite (cc_saved _ Hc) by done. by apply Hk.
Qed.

Lemma trap_transparent_witness :
  exists h2, exec (trampoline 0x40002050 counting_handler) (enter_trap 0x40002000 (interrupted_at 0x48000000)) = Some h2 /\
    pc h2 = 0x40001000 /\ mie_bit h2 = true /\ forall r, 0 <= r < 32 -> get r h2 = get r (interrupted_at 0x48000000).
Proof.
  apply (trap_transparent 0x40002050 counting_handler 0x40002000 (interrupted_at 0x48000000)); [vm_compute; by split|exact counting_handler_ok|].
  intros h1 p Hx Hp. assert (x (interrupted_at 0x48000000) 2 = 0x48000000) as Hi by reflexivity. rewrite Hi in *. apply fn_lookup_insert_ne. lia.
Defined.
