(* ===== verification/Staging.v ===== *)
(** The older loader of flat binaries, [device/okboot/src/legacy/staging.rs]:
    [calculate], [write_bytes_with_relocation] and [verify_integrity], and what
    they have in common with their successors in [device/okboot/src/stub.rs]
    ([Relocation.v]). *)
From S2P Require Import Prelude Words Messages Crc Relocation.

Module Staging.

Record RelocationConfig : Type := MkRelocationConfig {
  desired_location : Z;
  side_buffer_location : Z;
  relocate_first_bytes : Z;    (* [relocate_first_n_bytes] *)
  stub_location : Z;
}.
Definition config_new : RelocationConfig := MkRelocationConfig 0 0 0 0.

Definition staging_calculate (self_end_addr load_at_addr length : Z) : RelocationConfig :=
  let loaded_program_begin := load_at_addr in
  let loaded_program_end := wrap 32 (load_at_addr + length) in
  let needs_to_relocate := load_at_addr <? self_end_addr in
  let highest_address := Z.max self_end_addr loaded_program_end in
  let side_buffer_begin := Z.land (wrap 32 (highest_address + PAGE_SIZE - 1)) (Z.lnot (PAGE_SIZE - 1)) in
  if needs_to_relocate then
    let relocation_length := wrap 32 (Z.min loaded_program_end self_end_addr - loaded_program_begin) in
    let stub_location := Z.land (wrap 32 (side_buffer_begin + relocation_length + 3)) (Z.lnot 3) in
    MkRelocationConfig load_at_addr side_buffer_begin relocation_length stub_location
  else MkRelocationConfig 0 0 0 highest_address.

Definition write_bytes_with_relocation (c : RelocationConfig) (m : memory) (address : Z) (bytes : list Z) : memory :=
  let write_ptr :=
    if (0 <? relocate_first_bytes c) && (desired_location c <=? address)
       && (address <? desired_location c + relocate_first_bytes c)
    then (address - desired_location c) + side_buffer_location c
    else address in
  mem_write m write_ptr bytes.

(** The second slice is taken even if it is empty, and its length is a
    subtraction of [usize]. *)
Definition staging_verify `{Crc} (c : RelocationConfig) (m : memory) (crc len : Z) : Integrity :=
  let n := relocate_first_bytes c in
  let h := if 0 <? n then hasher_update hasher_new (mem_read m (side_buffer_location c) (Z.to_nat n)) else hasher_new in
  let h := hasher_update h (mem_read m (desired_location c + n) (Z.to_nat (wrap 32 (len - n)))) in
  let final_crc := hasher_finalize h in
  if crc =? final_crc then IntegrityOk else CrcMismatch crc final_crc.
End Staging.
Export Staging.

(** A configuration and a [Relocation] that say the same. *)
Record same_staging (c : RelocationConfig) (r : relocation) : Prop := {
  ss_base : desired_location c = base_address_ptr r;
  ss_side : side_buffer_location c = side_buffer_ptr r;
  ss_n : relocate_first_bytes c = relocate_first_n_bytes r;
  ss_stub : stub_location c = stub_entry r;
  ss_flag : relocate r = false -> relocate_first_n_bytes r = 0;
}.

Lemma staging_calculate_same self_end base len :
  same_staging (staging_calculate self_end base len) (FlatBinary.calculate base len self_end).
Proof. unfold staging_calculate, FlatBinary.calculate. destruct (base <? self_end); by split. Qed.

Lemma staging_write_same c r m address bs :
  same_staging c r -> write_bytes_with_relocation c m address bs = write_bytes r m address bs.
Proof.
  intros [Hb Hs Hn _ Hf]. unfold write_bytes_with_relocation, write_bytes. rewrite Hb, Hs, Hn.
  destruct (relocate r); cbn [andb].
  - destruct (Z.ltb_spec 0 (relocate_first_n_bytes r)), (Z.leb_spec (base_address_ptr r) address),
      (Z.ltb_spec address (base_address_ptr r + relocate_first_n_bytes r)); cbn [andb]; try done; f_equal; lia.
  - by rewrite Hf.
Qed.

Lemma staging_verify_same `{CrcLaws} c r m crc len :
  same_staging c r -> 0 <= relocate_first_n_bytes r <= len -> len < 2 ^ 32 ->
  staging_verify c m crc len = verify_integrity r m crc len.
Proof.
  intros [Hb Hs Hn _ Hf] Hr Hl. unfold staging_verify, verify_integrity. rewrite Hb, Hs, Hn, wrap_id by (unfold fits; lia).
  set (n := relocate_first_n_bytes r) in *.
  assert ((if 0 <? n then hasher_update hasher_new (mem_read m (side_buffer_ptr r) (Z.to_nat n)) else hasher_new)
    = (if relocate r then hasher_update hasher_new (mem_read m (side_buffer_ptr r) (Z.to_nat n)) else hasher_new)) as ->.
  { destruct (relocate r); [|by rewrite Hf]. destruct (Z.ltb_spec 0 n); [done|].
    replace n with 0 by lia. by rewrite hasher_update_nil. }
  destruct (Z.ltb_spec n len); [done|]. replace (len - n) with 0 by lia. by rewrite hasher_update_nil.
Qed.

(** ** The claims *)

(** The loader of the legacy protocol and that of the second version compute the
    same layout, put every byte at the same place and come to the same verdict on
    the program, for every layout that fits below the heap. *)
Theorem staging_equals_flat_binary `{CrcLaws} self_end base len :
  layout_ok base len self_end ->
  let c := staging_calculate self_end base len in
  let r := FlatBinary.calculate base len self_end in
  (desired_location c, side_buffer_location c, relocate_first_bytes c, stub_location c) =
    (base_address_ptr r, side_buffer_ptr r, relocate_first_n_bytes r, stub_entry r) /\
  (forall m address bs, write_bytes_with_relocation c m address bs = write_bytes r m address bs) /\
  forall m crc, staging_verify c m crc len = verify_integrity r m crc len.
Proof.
  intros Hl c r. pose proof (staging_calculate_same self_end base len) as Hs. fold c r in Hs. split.
  { by destruct Hs as [-> -> -> -> _]. }
  split; [intros; by apply staging_write_same|]. intros m crc. pose proof Hl as [Hb Hlen He Hself].
  apply staging_verify_same; [done| |lia]. destruct (Z.lt_ge_cases base self_end) as [Hlt|Hge].
  - destruct (calculate_relocated base len self_end Hl Hlt) as [_ _ Hn _ _ _]. fold r in Hn. rewrite Hn. lia.
  - unfold r. rewrite calculate_in_place by done. cbn. lia.
Qed.

Lemma staging_equals_flat_binary_witness :
  let c := staging_calculate 0x10000 0x8000 0x9000 in
  let r := FlatBinary.calculate 0x8000 0x9000 0x10000 in
  (desired_location c, side_buffer_location c, relocate_first_bytes c, stub_location c) =
    (base_address_ptr r, side_buffer_ptr r, relocate_first_n_bytes r, stub_entry r) /\
  (forall m address bs, write_bytes_with_relocation c m address bs = write_bytes r m address bs) /\
  forall m crc, staging_verify c m crc 0x9000 = verify_integrity r m crc 0x9000.
Proof. apply (staging_equals_flat_binary 0x10000 0x8000 0x9000). split; lia. Defined.

(** A program that does not overlap the loader is checked at address zero: the
    verdict says nothing of the memory that it was loaded to. *)
Theorem in_place_checked_at_zero `{CrcLaws} self_end base len m m' crc :
  layout_ok base len self_end -> self_end <= base -> (forall a, 0 <= a < len -> m' a = m a) ->
  staging_verify (staging_calculate self_end base len) m' crc len = staging_verify (staging_calculate self_end base len) m crc len.
Proof.
  intros Hl Hge Hm. pose proof Hl as [Hb Hlen He Hself]. unfold staging_calculate. rewrite (proj2 (Z.ltb_ge _ _)) by lia.
  unfold staging_verify. cbn [relocate_first_bytes desired_location side_buffer_location Z.ltb Z.compare].
  rewrite Z.sub_0_r, wrap_id by (unfold fits; lia). by rewrite (mem_read_ext m m') by (intros; apply Hm; lia).
Qed.

Lemma in_place_checked_at_zero_witness :
  staging_verify (staging_calculate 0x10000 0x20000 0x100) (mem_write (fun _ => 0) 0x20000 [1; 2; 3]) 0x55 0x100 =
  staging_verify (staging_calculate 0x10000 0x20000 0x100) (fun _ => 0) 0x55 0x100.
Proof. apply (in_place_checked_at_zero 0x10000 0x20000 0x100); [split; lia|lia|]. intros a Ha. apply mem_write_out. lia. Defined.

(** The writer looks at the first address only: of a piece that begins before the
    end of the part to be moved and ends behind it, nothing reaches the memory
    behind that end; all of it is in the side buffer. *)
Theorem straddling_piece_misplaced self_end base len m address bs :
  layout_ok base len self_end -> base <= address < self_end -> self_end < address + Z.of_nat (length bs) -> self_end < base + len ->
  address + Z.of_nat (length bs) <= base + len ->
  let c := staging_calculate self_end base len in
  let m' := write_bytes_with_relocation c m address bs in
  (forall a, self_end <= a < base + len -> m' a = m a) /\
  mem_read m' (side_buffer_location c + (address - base)) (length bs) = bs.
Proof.
  intros Hl Ha Hs He Hend c m'. pose proof Hl as [Hb Hlen Hmax Hself].
  pose proof (staging_calculate_same self_end base len) as Hss. fold c in Hss.
  destruct (calculate_relocated base len self_end Hl ltac:(lia)) as [_ Hbase Hn Hside _ _].
  destruct Hss as [Hc1 Hc2 Hc3 _ _]. rewrite Hbase in Hc1. rewrite Hn in Hc3. rewrite <- Hc2 in Hside.
  assert (m' = mem_write m (address - base + side_buffer_location c) bs) as ->.
  { unfold m', write_bytes_with_relocation. rewrite Hc1, Hc3. rewrite (proj2 (Z.ltb_lt _ _)), (proj2 (Z.leb_le _ _)), (proj2 (Z.ltb_lt _ _)) by lia. done. }
  split.
  - intros a Hr. apply mem_write_out. lia.
  - rewrite (Z.add_comm (side_buffer_location c)). apply mem_read_write.
Qed.

Lemma straddling_piece_misplaced_witness :
  let c := staging_calculate 0x10000 0x8000 0x9000 in
  let m' := write_bytes_with_relocation c (fun _ => 0) 0xfffe [1; 2; 3; 4] in
  (forall a, 0x10000 <= a < 0x11000 -> m' a = 0) /\ mem_read m' (side_buffer_location c + (0xfffe - 0x8000)) 4 = [1; 2; 3; 4].
Proof. apply (straddling_piece_misplaced 0x10000 0x8000 0x9000 (fun _ => 0) 0xfffe [1; 2; 3; 4]); [split; lia|cbn; lia..]. Defined.
