(* ===== verification/RiscvMain.v ===== *)
(** The set-up of the RISC-V device: [Uart::new] and the blocking writer of
    [device/antimony/src/peripherals/uart.rs], register write by register write,
    and [__kernel_main] of [device/antimony/src/lib.rs] with its printing macros,
    from the clocks to the entry of the network loop.

    Not part of the state: the pins ([Pins]), the delays ([RiscvTime]) and the
    critical sections around single prints, which give [mstatus] back as it was. *)
From Stdlib Require Import String Ascii.
From S2P Require Import Prelude Words Vectors RiscvVectors Interrupts RiscvTime RiscvBoot PppXmit PppRecv Console.

Module RiscvMain.

(** ** The UART *)

(** The registers at their offsets; the two of the divisor share theirs with the
    data and the interrupt register and are there while bit 7 of [lcr] is set. *)
Record uart_regs : Type := MkUartRegs {
  ier : Z;
  fcr : Z;
  mcr : Z;
  lcr : Z;
  dll : Z;
  dlh : Z;
  thr : list Z;     (* what these writes sent to the data register *)
}.
Inductive uart_reg : Type := Rthr | Rdll | Rier | Rdlh | Rfcr | Rlcr | Rmcr.
Definition offset (r : uart_reg) : Z :=
  match r with Rthr | Rdll => 0x00 | Rier | Rdlh => 0x04 | Rfcr => 0x08 | Rlcr => 0x0c | Rmcr => 0x10 end.
Definition dlab (r : uart_regs) : bool := Z.testbit (lcr r) 7.
Definition mmio_write (o v : Z) (r : uart_regs) : uart_regs :=
  if o =? 0x00 then
    if dlab r then MkUartRegs (ier r) (fcr r) (mcr r) (lcr r) v (dlh r) (thr r)
    else MkUartRegs (ier r) (fcr r) (mcr r) (lcr r) (dll r) (dlh r) (thr r ++ [v])
  else if o =? 0x04 then
    if dlab r then MkUartRegs (ier r) (fcr r) (mcr r) (lcr r) (dll r) v (thr r)
    else MkUartRegs v (fcr r) (mcr r) (lcr r) (dll r) (dlh r) (thr r)
  else if o =? 0x08 then MkUartRegs (ier r) v (mcr r) (lcr r) (dll r) (dlh r) (thr r)
  else if o =? 0x0c then MkUartRegs (ier r) (fcr r) (mcr r) v (dll r) (dlh r) (thr r)
  else if o =? 0x10 then MkUartRegs (ier r) (fcr r) v (lcr r) (dll r) (dlh r) (thr r)
  else r.
Definition uart_writes (ws : list (uart_reg * Z)) (r : uart_regs) : uart_regs :=
  foldl (fun r '(reg, v) => mmio_write (offset reg) v r) r ws.

Definition LCR_DLAB : Z := 0x80.
Definition FCR_FIFOE : Z := 0x01.
Definition LCR_8N1 : Z := 0x03.
(** [Uart::<_, Direct>::new] *)
Definition uart_begin (baud_rate : Z) (r : uart_regs) : run uart_regs :=
  let r := uart_writes [(Rier, 0); (Rfcr, 0); (Rmcr, 0); (Rlcr, 0)] r in
  '(prescaler_low, prescaler_high) ← divisor_latch baud_rate;
  Val (uart_writes [(Rlcr, LCR_DLAB); (Rdll, prescaler_low); (Rdlh, prescaler_high); (Rlcr, 0); (Rfcr, FCR_FIFOE); (Rlcr, LCR_8N1)] r).
(** The rate that the UART then works at. *)
Definition baud_of (r : uart_regs) : Z := APB_FREQ / (16 * (dll r + 256 * dlh r)).

(** [Write::write_str] of the direct mode: [tfnf k] and [temt k] are the [k]-th
    readings of the two status bits.  The number of the next reading and what was
    written. *)
Fixpoint spin (ready : nat -> bool) (fuel k : nat) : option nat :=
  match fuel with O => None | S fuel => if ready k then Some (S k) else spin ready fuel (S k) end.
Fixpoint direct_bytes (tfnf : nat -> bool) (fuel : nat) (s : list Z) (k : nat) (sent : list Z) : option (nat * list Z) :=
  match s with
  | [] => Some (k, sent)
  | byte :: s => k ← spin tfnf fuel k; direct_bytes tfnf fuel s k (sent ++ [byte])
  end.
Definition direct_write_str (tfnf temt : nat -> bool) (fuel : nat) (s : list Z) (k : nat) (sent : list Z) : option (nat * list Z) :=
  '(k, sent) ← direct_bytes tfnf fuel s k sent; k ← spin temt fuel k; Some (k, sent).

(** ** The board *)

Record clocks : Type := MkClocks {
  apb_m : Z;
  apb_n : Z;
  apb_pll : bool;          (* the source is PLL_PERI(1X), and not the 24 MHz oscillator *)
  uart_gating : list Z;    (* the UARTs whose clock passes *)
  uart_out : list Z;       (* the UARTs that are out of reset *)
}.
(** The rate of APB1, by the manual of the processor: both factors count from one. *)
Definition apb1_rate (c : clocks) : Z := (if apb_pll c then 600000000 else 24000000) / 2 ^ apb_n c / (apb_m c + 1).
Record plic : Type := MkPlic { mth : Z; prio : Z -> Z; plic_mie : Z }.
Definition plic_passes (p : plic) (claim : Z) : bool := Z.testbit (plic_mie p) claim && (mth p <? prio p claim).

Record board : Type := MkBoard {
  clk : clocks;
  uart0 : uart_regs;
  uart2 : uart_regs;
  uart0_cell : bool;               (* the static [UART0] holds the device *)
  HEAP : option (Z * Z);
  table : list Z;
  mtvec : Z;
  irq : plic;
  hart : csrs;
  con : io;
  has_logger : bool;
  GENESIS : option Z;
}.
Definition set_clk (c : clocks) (b : board) : board :=
  MkBoard c (uart0 b) (uart2 b) (uart0_cell b) (HEAP b) (table b) (mtvec b) (irq b) (hart b) (con b) (has_logger b) (GENESIS b).
(** A write to UART0: bit 1 of [ier] is what the console sees as its enable bit. *)
Definition set_uart0 (r : uart_regs) (b : board) : board :=
  MkBoard (clk b) r (uart2 b) (uart0_cell b) (HEAP b) (table b) (mtvec b) (irq b) (hart b)
    (set_console (STDOUT_TX (con b)) (set_etbei (Z.testbit (ier r) 1) (UART0 (con b))) (con b)) (has_logger b) (GENESIS b).
Definition set_uart2 (r : uart_regs) (b : board) : board :=
  MkBoard (clk b) (uart0 b) r (uart0_cell b) (HEAP b) (table b) (mtvec b) (irq b) (hart b) (con b) (has_logger b) (GENESIS b).
Definition set_cell (b : board) : board :=
  MkBoard (clk b) (uart0 b) (uart2 b) true (HEAP b) (table b) (mtvec b) (irq b) (hart b) (con b) (has_logger b) (GENESIS b).
Definition set_heap (h : Z * Z) (b : board) : board :=
  MkBoard (clk b) (uart0 b) (uart2 b) (uart0_cell b) (Some h) (table b) (mtvec b) (irq b) (hart b) (con b) (has_logger b) (GENESIS b).
Definition set_vector (t : list Z) (v : Z) (b : board) : board :=
  MkBoard (clk b) (uart0 b) (uart2 b) (uart0_cell b) (HEAP b) t v (irq b) (hart b) (con b) (has_logger b) (GENESIS b).
Definition set_irq (p : plic) (b : board) : board :=
  MkBoard (clk b) (uart0 b) (uart2 b) (uart0_cell b) (HEAP b) (table b) (mtvec b) p (hart b) (con b) (has_logger b) (GENESIS b).
Definition set_hart (c : csrs) (b : board) : board :=
  MkBoard (clk b) (uart0 b) (uart2 b) (uart0_cell b) (HEAP b) (table b) (mtvec b) (irq b) c (con b) (has_logger b) (GENESIS b).
Definition set_con (r : uart_regs) (c : io) (b : board) : board :=
  MkBoard (clk b) r (uart2 b) (uart0_cell b) (HEAP b) (table b) (mtvec b) (irq b) (hart b) c (has_logger b) (GENESIS b).
Definition set_logger (b : board) : board :=
  MkBoard (clk b) (uart0 b) (uart2 b) (uart0_cell b) (HEAP b) (table b) (mtvec b) (irq b) (hart b) (con b) true (GENESIS b).
Definition set_genesis (now : Z) (b : board) : board :=
  MkBoard (clk b) (uart0 b) (uart2 b) (uart0_cell b) (HEAP b) (table b) (mtvec b) (irq b) (hart b) (con b) (has_logger b) (Some now).

(** ** Printing *)

Definition txt (s : string) : list Z := map (fun c => Z.of_N (N_of_ascii c)) (list_ascii_of_string s).
Definition crlf : list Z := [13; 10].
(** [{:x}] *)
Fixpoint hex_from (fuel : nat) (n : Z) (acc : list Z) : list Z :=
  match fuel with
  | O => acc
  | S fuel =>
    let d := n mod 16 in
    let acc := (if d <? 10 then 48 + d else 87 + d) :: acc in
    if n / 16 =? 0 then acc else hex_from fuel (n / 16) acc
  end.
Definition lower_hex (n : Z) : list Z := hex_from 16 n [].

Section main.
Context {BF : BitField}.
Variable depth : nat.     (* the length of the transmit FIFO *)

(** [dprint!]: the device out of its cell, the bytes one by one, and the wait for
    the FIFO to be empty. *)
Definition dprint (s : list Z) (b : board) : run board :=
  if uart0_cell b then
    let u := UART0 (con b) in
    Val (set_con (uart0 b) (set_console (STDOUT_TX (con b)) (MkUart depth (uart_sent u ++ s) (uart_etbei u)) (con b)) b)
  else Panic.
Definition dprintln (s : list Z) (b : board) : run board := dprint (s ++ crlf) b.
(** [println!]: the string is made on the heap. *)
Definition println (s : list Z) (b : board) : run board :=
  match HEAP b with
  | None => Panic
  | Some _ =>
    let '(x, u) := write_string (s ++ crlf) (STDOUT_TX (con b)) (UART0 (con b)) in
    let r := uart0 b in
    let r := MkUartRegs (if uart_etbei u then Z.lor (ier r) 2 else ier r) (fcr r) (mcr r) (lcr r) (dll r) (dlh r) (thr r) in
    Val (set_con r (set_console x u (con b)) b)
  end.

(** ** [__kernel_main] *)

Definition set_up_clocks (c : clocks) : clocks :=
  let c := MkClocks 2 0 (apb_pll c) (uart_gating c) (uart_out c) in
  let c := MkClocks (apb_m c) (apb_n c) true (uart_gating c) (uart_out c) in
  let c := MkClocks (apb_m c) (apb_n c) (apb_pll c) (0 :: 2 :: uart_gating c) (uart_out c) in
  MkClocks (apb_m c) (apb_n c) (apb_pll c) (uart_gating c) (0 :: 2 :: uart_out c).
Definition MEM_END : Z := 0x40000000 + 0x20000000.
Definition set_up_heap (prog_end_addr : Z) (b : board) : run board :=
  let heap_size := wrap 64 (MEM_END - prog_end_addr) in
  b ← dprintln (txt "heap_start=" ++ lower_hex prog_end_addr ++ txt " heap_end=" ++ lower_hex MEM_END ++ txt " size=" ++ lower_hex heap_size) b;
  dprintln (txt "[antimony] set up heap") (set_heap (prog_end_addr, heap_size) b).
(** [set_unchecked] *)
Definition set_unchecked (vector : list Target) (i : nat) (t : Target) : run (list Target) := slice_set vector i t.
Definition install_vector (default_trap_handler trap_mei vector_addr : Z) (b : board) : run board :=
  vector ← set_unchecked rv_new 11 (TJump trap_mei);
  match rv_install default_trap_handler vector vector_addr with
  | Err _ => Panic
  | Ok (table, mtvec) => println (txt "mtvec=" ++ lower_hex mtvec) (set_vector table mtvec b)
  end.
Definition set_up_plic (p : plic) : plic :=
  MkPlic 10 (fun i => if i =? 20 then 0x1f else if i =? 18 then 0x18 else prio p i) (Z.lor (Z.shiftl 1 20) (Z.shiftl 1 18)).
Definition FCR_TWO_CHARACTERS : Z := 0x11.
Definition FCR_TWO_LESS_THAN_FULL : Z := 0xd1.
Definition IER_ERBFI : Z := 0x01.
Definition set_up_exceptions (default_trap_handler trap_mei vector_addr : Z) (b : board) : run board :=
  b ← install_vector default_trap_handler trap_mei vector_addr b;
  let b := set_irq (set_up_plic (irq b)) b in
  let b := set_uart0 (uart_writes [(Rfcr, FCR_TWO_CHARACTERS); (Rier, 0)] (uart0 b)) b in
  let b := set_uart2 (uart_writes [(Rfcr, FCR_TWO_LESS_THAN_FULL); (Rier, IER_ERBFI)] (uart2 b)) b in
  dprintln (txt "[antimony] set up exception handling") (set_hart (enable_interrupts (hart b)) b).
Definition set_up_caches (b : board) : run board :=
  b ← dprint (txt "enabling caches...") b;
  dprintln (txt "done") (set_hart (enable_caches (hart b)) b).
Definition print_test_line : list Z :=
  txt "PRINT TEST" ++ mjoin (replicate 8 (txt " 123456789")) ++ crlf.
Definition print_test : list Z := print_test_line ++ print_test_line ++ print_test_line ++ txt "PRINT TEST OK".

Definition kernel_main (amn_exec_end default_trap_handler trap_mei vector_addr hartid mapbaddr now : Z) (b : board) : run board :=
  let b := set_clk (set_up_clocks (clk b)) b in
  r0 ← uart_begin 921600 (uart0 b);
  let b := set_cell (set_uart0 r0 b) in
  r2 ← uart_begin 115200 (uart2 b);
  let b := set_uart2 r2 b in
  b ← dprintln (crlf ++ crlf ++ txt "[antimony] UARTs configured") b;
  b ← set_up_heap amn_exec_end b;
  b ← set_up_exceptions default_trap_handler trap_mei vector_addr b;
  b ← set_up_caches b;
  b ← dprintln (txt "hartid=" ++ lower_hex hartid ++ txt " mapbadddr=" ++ lower_hex mapbaddr) b;
  b ← println print_test b;
  Val (set_genesis now (set_logger b)).
End main.
End RiscvMain.
Export RiscvMain.

(** ** The UART *)

Lemma write_fcr v i f m l d h t : mmio_write 0x08 v (MkUartRegs i f m l d h t) = MkUartRegs i v m l d h t.
Proof. done. Qed.
Lemma write_lcr v i f m l d h t : mmio_write 0x0c v (MkUartRegs i f m l d h t) = MkUartRegs i f m v d h t.
Proof. done. Qed.
Lemma write_mcr v i f m l d h t : mmio_write 0x10 v (MkUartRegs i f m l d h t) = MkUartRegs i f v l d h t.
Proof. done. Qed.
Lemma write_ier v i f m l d h t : Z.testbit l 7 = false -> mmio_write 0x04 v (MkUartRegs i f m l d h t) = MkUartRegs v f m l d h t.
Proof. intros Hl. unfold mmio_write, dlab. cbn [lcr ier fcr mcr dll dlh thr Z.eqb Pos.eqb]. by rewrite Hl. Qed.
Lemma write_dlh v i f m l d h t : Z.testbit l 7 = true -> mmio_write 0x04 v (MkUartRegs i f m l d h t) = MkUartRegs i f m l d v t.
Proof. intros Hl. unfold mmio_write, dlab. cbn [lcr ier fcr mcr dll dlh thr Z.eqb Pos.eqb]. by rewrite Hl. Qed.
Lemma write_dll v i f m l d h t : Z.testbit l 7 = true -> mmio_write 0x00 v (MkUartRegs i f m l d h t) = MkUartRegs i f m l v h t.
Proof. intros Hl. unfold mmio_write, dlab. cbn [lcr ier fcr mcr dll dlh thr Z.eqb Pos.eqb]. by rewrite Hl. Qed.
Ltac uart_write := first [rewrite write_fcr|rewrite write_lcr|rewrite write_mcr|rewrite write_ier by done|rewrite write_dlh by done|rewrite write_dll by done].

Lemma uart_begin_eq baud_rate r :
  0 < baud_rate -> dlab r = false ->
  uart_begin baud_rate r = Val (MkUartRegs 0 FCR_FIFOE 0 LCR_8N1 (APB_FREQ / 16 / baud_rate mod 256) 0 (thr r)).
Proof.
  intros Hb Hl. unfold uart_begin. destruct (divisor_high_lost baud_rate Hb) as (low & Hd & -> & _). rewrite Hd, run_bind_Val.
  f_equal. unfold uart_writes. destruct r as [i f m l d h t]. cbn [foldl offset]. unfold dlab in Hl. cbn [lcr] in Hl. by repeat uart_write.
Qed.
(** A wait ends if the bit is set in one of the next [n] readings. *)
Lemma spin_ends ready n : forall k j,
  (j < n)%nat -> ready (k + j)%nat = true -> exists k', spin ready n k = Some k' /\ (k < k' <= k + n)%nat.
Proof.
  induction n as [|n IH]; intros k j Hj Hr; [lia|]. cbn [spin]. destruct (ready k) eqn:Hk.
  - exists (S k). split; [done|lia].
  - destruct j as [|j]; [rewrite Nat.add_0_r in Hr; congruence|].
    destruct (IH (S k) j) as (k' & -> & Hk'); [lia|by replace (S k + j)%nat with (k + S j)%nat by lia|]. exists k'. split; [done|lia].
Qed.
Lemma direct_bytes_spec tfnf n s : forall k sent,
  (forall k, exists j, (j < n)%nat /\ tfnf (k + j)%nat = true) ->
  exists k', direct_bytes tfnf n s k sent = Some (k', sent ++ s) /\ (k' <= k + n * length s)%nat.
Proof.
  induction s as [|byte s IH]; intros k sent Hr; cbn [direct_bytes].
  - exists k. rewrite app_nil_r. cbn. split; [done|lia].
  - destruct (Hr k) as (j & Hj & Hjr). destruct (spin_ends tfnf n k j Hj Hjr) as (k1 & -> & Hk1). cbn [mbind option_bind].
    destruct (IH k1 (sent ++ [byte]) Hr) as (k' & -> & Hk'). exists k'. rewrite <- app_assoc. cbn [length]. split; [done|nia].
Qed.

(** ** The console while the queue is empty *)

Section up.
Context {BF : BitField}.
Variable depth : nat.
Implicit Types (b : board) (all s : list Z).

(** The device is in its cell, everything that was printed is out, the transmit
    interrupt is off. *)
Record up all b : Prop := {
  up_cell : uart0_cell b = true;
  up_queue : STDOUT_TX (con b) = uart_xmit_new;
  up_sent : uart_sent (UART0 (con b)) = all;
  up_etbei : uart_etbei (UART0 (con b)) = false;
  up_ier : Z.testbit (ier (uart0 b)) 1 = false;
}.
(** The board [b] with another state of the FIFO. *)
Definition with_uart (u : Uart) b : board := set_con (uart0 b) (set_console (STDOUT_TX (con b)) u (con b)) b.

Lemma dprint_up all s b :
  up all b -> dprint depth s b = Val (with_uart (MkUart depth (all ++ s) false) b) /\ up (all ++ s) (with_uart (MkUart depth (all ++ s) false) b).
Proof. intros [Hc Hq Hs He Hi]. unfold dprint. rewrite Hc, Hs, He. split; [done|]. by split. Qed.
Lemma dprintln_up all s b :
  up all b -> dprintln depth s b = Val (with_uart (MkUart depth (all ++ s ++ crlf) false) b) /\
    up (all ++ s ++ crlf) (with_uart (MkUart depth (all ++ s ++ crlf) false) b).
Proof. apply dprint_up. Qed.
Lemma println_up all s b h :
  up all b -> HEAP b = Some h -> (length (s ++ crlf) <= uart_room (UART0 (con b)))%nat ->
  exists u, println s b = Val (with_uart u b) /\ up (all ++ s ++ crlf) (with_uart u b).
Proof.
  intros [Hc Hq Hs He Hi] Hh Hl. unfold println. rewrite Hh, Hq. unfold write_string. cbn [strings index uart_xmit_new app].
  destruct (console_write_out_spec (MkUartXmit [s ++ crlf] 0) (UART0 (con b))) as (x & Hw & _ & Hqx & Hsx).
  { unfold queue_ok. cbn [strings index]. rewrite length_app. cbn. lia. }
  assert (pending (MkUartXmit [s ++ crlf] 0) = s ++ crlf) as Hp by (unfold pending; cbn [strings index concat]; by rewrite app_nil_r, drop_0).
  rewrite Hp in *. rewrite Hw. rewrite bool_decide_true by done. cbn [uart_etbei]. rewrite He, Hs, take_ge by done.
  assert (x = uart_xmit_new) as ->.
  { apply Hsx in Hl. destruct x as [ss i]. cbn in Hl. subst ss. unfold queue_ok in Hqx. cbn in Hqx. by subst i. }
  eexists. split; [unfold with_uart; rewrite Hq; destruct (uart0 b); reflexivity|]. by split.
Qed.

(** The last print may not fit the FIFO. *)
Lemma println_any all s b h :
  up all b -> HEAP b = Some h -> 0 <= ier (uart0 b) ->
  exists r c, println s b = Val (set_con r c b) /\ console_inv (all ++ s ++ crlf) c /\ uart_etbei (UART0 c) = Z.testbit (ier r) 1 /\
    (fcr r, mcr r, lcr r, dll r, dlh r, thr r) = (fcr (uart0 b), mcr (uart0 b), lcr (uart0 b), dll (uart0 b), dlh (uart0 b), thr (uart0 b)).
Proof.
  intros [Hc Hq Hs He Hi] Hh H0. unfold println. rewrite Hh.
  destruct (console_step all (CWrite (s ++ crlf)) (con b)) as (c & Hd & Hinv).
  { split; rewrite ?Hq, ?Hs; [done|by rewrite app_nil_r|done]. }
  cbn [console_do written] in Hd, Hinv. destruct (write_string _ _ _) as [x u]. injection Hd as <-.
  do 2 eexists. split; [reflexivity|]. split; [done|]. split; [|done]. cbn [set_console UART0 ier]. destruct (uart_etbei u); [|by rewrite Hi].
  by rewrite Z.lor_spec, orb_true_r.
Qed.

Lemma set_up_heap_up all b prog_end :
  up all b -> 0 <= prog_end <= MEM_END ->
  let text := txt "heap_start=" ++ lower_hex prog_end ++ txt " heap_end=" ++ lower_hex MEM_END ++ txt " size=" ++ lower_hex (MEM_END - prog_end) ++ crlf ++
    txt "[antimony] set up heap" ++ crlf in
  exists u, set_up_heap depth prog_end b = Val (with_uart u (set_heap (prog_end, MEM_END - prog_end) b)) /\ uart_room u = depth /\
    up (all ++ text) (with_uart u (set_heap (prog_end, MEM_END - prog_end) b)).
Proof.
  intros Hu Hp text. unfold set_up_heap. rewrite wrap_id by (unfold fits; change MEM_END with 0x60000000 in *; lia). unfold dprintln.
  destruct (dprint_up all ((txt "heap_start=" ++ lower_hex prog_end ++ txt " heap_end=" ++ lower_hex MEM_END ++ txt " size=" ++ lower_hex (MEM_END - prog_end)) ++ crlf) b Hu) as [-> Hu1].
  rewrite run_bind_Val. set (b1 := with_uart _ b) in *. set (all1 := _ ++ _) in Hu1.
  assert (up all1 (set_heap (prog_end, MEM_END - prog_end) b1)) as Hu2 by (destruct Hu1; by split).
  destruct (dprint_up all1 (txt "[antimony] set up heap" ++ crlf) _ Hu2) as [-> Hu3].
  eexists. split; [reflexivity|]. split; [done|].
  assert (all ++ text = all1 ++ txt "[antimony] set up heap" ++ crlf) as ->; [|exact Hu3]. unfold text, all1. by rewrite <- !app_assoc.
Qed.

Lemma fcr_ier f i r : dlab r = false -> uart_writes [(Rfcr, f); (Rier, i)] r = MkUartRegs i f (mcr r) (lcr r) (dll r) (dlh r) (thr r).
Proof. destruct r as [i0 f0 m l d h t]. unfold dlab, uart_writes. cbn [lcr foldl offset]. intros Hl. by repeat uart_write. Qed.
Definition mtvec_line (mv : Z) : list Z := txt "mtvec=" ++ lower_hex mv ++ crlf.

Lemma install_up all b h default trap_mei vector_addr t mv :
  up all b -> HEAP b = Some h -> rv_install default (<[11%nat := TJump trap_mei]> rv_new) vector_addr = Ok (t, mv) ->
  (length (mtvec_line mv) <= uart_room (UART0 (con b)))%nat ->
  exists u, install_vector default trap_mei vector_addr b = Val (with_uart u (set_vector t mv b)) /\
    up (all ++ mtvec_line mv) (with_uart u (set_vector t mv b)).
Proof.
  intros Hu Hh Hi Hl. unfold install_vector, set_unchecked. rewrite slice_set_Val by (unfold rv_new; rewrite length_replicate; lia).
  rewrite run_bind_Val, Hi. assert (mtvec_line mv = (txt "mtvec=" ++ lower_hex mv) ++ crlf) as Hm by (unfold mtvec_line; by rewrite <- app_assoc).
  rewrite Hm in *. apply (println_up all _ (set_vector t mv b) h); [|done|done].
  destruct Hu. by split.
Qed.

(** The exceptions: the state, and what the console has printed. *)
Definition with_exceptions (t : list Z) (mv : Z) b : board :=
  let b := set_irq (set_up_plic (irq b)) (set_vector t mv b) in
  let b := set_uart0 (uart_writes [(Rfcr, FCR_TWO_CHARACTERS); (Rier, 0)] (uart0 b)) b in
  let b := set_uart2 (uart_writes [(Rfcr, FCR_TWO_LESS_THAN_FULL); (Rier, IER_ERBFI)] (uart2 b)) b in
  set_hart (enable_interrupts (hart b)) b.
Lemma set_up_exceptions_up all b h default trap_mei vector_addr t mv :
  up all b -> HEAP b = Some h -> dlab (uart0 b) = false -> rv_install default (<[11%nat := TJump trap_mei]> rv_new) vector_addr = Ok (t, mv) ->
  (length (mtvec_line mv) <= uart_room (UART0 (con b)))%nat ->
  let text := mtvec_line mv ++ txt "[antimony] set up exception handling" ++ crlf in
  exists u, set_up_exceptions depth default trap_mei vector_addr b = Val (with_uart u (with_exceptions t mv b)) /\
    up (all ++ text) (with_uart u (with_exceptions t mv b)).
Proof.
  intros Hu Hh Hd Hi Hl text. destruct (install_up all b h default trap_mei vector_addr t mv Hu Hh Hi Hl) as (u & Hr & Hu1).
  unfold set_up_exceptions. rewrite Hr, run_bind_Val. cbv zeta. set (b1 := with_uart u (set_vector t mv b)) in *.
  set (b2 := set_hart _ _).
  assert (up (all ++ mtvec_line mv) b2) as Hu2.
  { destruct Hu1 as [Hc Hq Hs He Hir]. unfold b2. rewrite (fcr_ier FCR_TWO_CHARACTERS) by exact Hd. split; [exact Hc|exact Hq|exact Hs|done|done]. }
  destruct (dprint_up _ (txt "[antimony] set up exception handling" ++ crlf) b2 Hu2) as [Hr2 Hu3]. unfold dprintln. rewrite Hr2.
  exists (MkUart depth ((all ++ mtvec_line mv) ++ txt "[antimony] set up exception handling" ++ crlf) false).
  split; [reflexivity|]. assert (all ++ text = (all ++ mtvec_line mv) ++ txt "[antimony] set up exception handling" ++ crlf) as -> by apply app_assoc.
  exact Hu3.
Qed.
Lemma set_up_caches_up all b :
  up all b ->
  exists u, set_up_caches depth b = Val (with_uart u (set_hart (enable_caches (hart b)) b)) /\
    up (all ++ txt "enabling caches...done" ++ crlf) (with_uart u (set_hart (enable_caches (hart b)) b)).
Proof.
  intros Hu. unfold set_up_caches. destruct (dprint_up all (txt "enabling caches...") b Hu) as [-> Hu1]. rewrite run_bind_Val.
  set (b1 := with_uart _ b) in *. assert (up (all ++ txt "enabling caches...") (set_hart (enable_caches (hart b1)) b1)) as Hu2 by (destruct Hu1; by split).
  destruct (dprint_up _ (txt "done" ++ crlf) _ Hu2) as [Hr Hu3]. unfold dprintln. rewrite Hr.
  exists (MkUart depth ((all ++ txt "enabling caches...") ++ txt "done" ++ crlf) false). split; [reflexivity|].
  assert (all ++ txt "enabling caches...done" ++ crlf = (all ++ txt "enabling caches...") ++ txt "done" ++ crlf) as ->; [|exact Hu3].
  rewrite <- app_assoc. reflexivity.
Qed.
End up.

(** What the device prints on the way up. *)
Definition heap_text (prog_end : Z) : list Z :=
  txt "heap_start=" ++ lower_hex prog_end ++ txt " heap_end=" ++ lower_hex MEM_END ++ txt " size=" ++ lower_hex (MEM_END - prog_end) ++ crlf ++
  txt "[antimony] set up heap" ++ crlf.
Definition hart_text (hartid mapbaddr : Z) : list Z := txt "hartid=" ++ lower_hex hartid ++ txt " mapbadddr=" ++ lower_hex mapbaddr ++ crlf.
Definition boot_text (prog_end mv hartid mapbaddr : Z) : list Z :=
  (crlf ++ crlf ++ txt "[antimony] UARTs configured" ++ crlf) ++ heap_text prog_end ++
  (mtvec_line mv ++ txt "[antimony] set up exception handling" ++ crlf) ++ (txt "enabling caches...done" ++ crlf) ++
  hart_text hartid mapbaddr ++ (print_test ++ crlf).

Section boot_text.
Context {BF : BitField}.
Variable depth : nat.

Lemma kernel_main_runs b prog_end default trap_mei vector_addr hartid mapbaddr now t mv :
  0 <= prog_end <= MEM_END -> dlab (uart0 b) = false -> dlab (uart2 b) = false ->
  STDOUT_TX (con b) = uart_xmit_new -> uart_sent (UART0 (con b)) = [] ->
  rv_install default (<[11%nat := TJump trap_mei]> rv_new) vector_addr = Ok (t, mv) -> (length (mtvec_line mv) <= depth)%nat ->
  exists b' r c, kernel_main depth prog_end default trap_mei vector_addr hartid mapbaddr now b = Val b' /\
    b' = MkBoard (set_up_clocks (clk b)) r (MkUartRegs IER_ERBFI FCR_TWO_LESS_THAN_FULL 0 LCR_8N1 108 0 (thr (uart2 b))) true
      (Some (prog_end, MEM_END - prog_end)) t mv (set_up_plic (irq b)) (enable_caches (enable_interrupts (hart b))) c true (Some now) /\
    (fcr r, mcr r, lcr r, dll r, dlh r, thr r) = (FCR_TWO_CHARACTERS, 0, LCR_8N1, 13, 0, thr (uart0 b)) /\
    console_inv (boot_text prog_end mv hartid mapbaddr) c /\ uart_etbei (UART0 c) = Z.testbit (ier r) 1.
Proof.
  intros Hp Hd0 Hd2 Hq Hs Hi Hl. unfold kernel_main. cbv zeta.
  rewrite (uart_begin_eq 921600 (uart0 _)) by (lia || exact Hd0). rewrite run_bind_Val.
  rewrite (uart_begin_eq 115200 (uart2 _)) by (lia || exact Hd2). rewrite run_bind_Val.
  change (APB_FREQ / 16 / 921600 mod 256) with 13. change (APB_FREQ / 16 / 115200 mod 256) with 108.
  set (b0 := set_uart2 _ _). assert (up [] b0) as Hu0 by (split; [done|exact Hq|exact Hs|done|done]).
  destruct (dprintln_up depth [] (crlf ++ crlf ++ txt "[antimony] UARTs configured") b0 Hu0) as [Hr1 Hu1].
  rewrite Hr1, run_bind_Val. set (b1 := with_uart _ b0) in *. clear Hr1.
  destruct (set_up_heap_up depth _ b1 prog_end Hu1 Hp) as (u2 & -> & Hroom & Hu2). rewrite run_bind_Val. set (b2 := with_uart u2 _) in *.
  destruct (set_up_exceptions_up depth _ b2 (prog_end, MEM_END - prog_end) default trap_mei vector_addr t mv Hu2) as (u3 & -> & Hu3);
    [done|done|done|change (length (mtvec_line mv) <= uart_room u2)%nat; lia|].
  rewrite run_bind_Val. set (b3 := with_uart u3 _) in *.
  destruct (set_up_caches_up depth _ b3 Hu3) as (u4 & -> & Hu4). rewrite run_bind_Val. set (b4 := with_uart u4 _) in *.
  destruct (dprintln_up depth _ (txt "hartid=" ++ lower_hex hartid ++ txt " mapbadddr=" ++ lower_hex mapbaddr) b4 Hu4) as [Hr5 Hu5].
  rewrite Hr5, run_bind_Val. set (b5 := with_uart _ b4) in *. clear Hr5.
  destruct (println_any _ print_test b5 (prog_end, MEM_END - prog_end) Hu5) as (r & c & -> & Hc & He & Hregs).
  { done. } { unfold b5, b4, b3. cbn [with_uart set_con uart0 set_hart with_exceptions]. done. }
  rewrite run_bind_Val. eexists _, r, c. split; [reflexivity|]. split; [reflexivity|]. split; [etrans; [exact Hregs|reflexivity]|]. split; [|exact He].
  match goal with |- console_inv ?x _ => match type of Hc with console_inv ?y _ => assert (x = y) as -> end end; [|exact Hc].
  unfold boot_text, heap_text, hart_text. rewrite app_nil_l, <- !app_assoc. reflexivity.
Qed.
End boot_text.

(** ** The claims *)

(** [Uart::new] leaves the interrupts off, the FIFO on and eight data bits, no
    parity and one stop bit; nothing is sent, because the divisor goes to the
    latch.  At the two rates of the device the UART then works 4.3 and 0.5 percent
    too fast. *)
Theorem uart_begin_8n1 baud_rate r :
  48828 < baud_rate <= APB_FREQ / 16 -> dlab r = false ->
  exists r', uart_begin baud_rate r = Val r' /\ ier r' = 0 /\ fcr r' = FCR_FIFOE /\ lcr r' = LCR_8N1 /\ mcr r' = 0 /\ thr r' = thr r /\
    baud_of r' = APB_FREQ / (16 * (APB_FREQ / 16 / baud_rate)) /\ baud_rate <= baud_of r' /\
    (baud_rate = 921600 -> baud_of r' = 961538) /\ (baud_rate = 115200 -> baud_of r' = 115740).
Proof.
  intros Hb Hl. change (APB_FREQ / 16) with 12500000 in *. eexists. split; [apply uart_begin_eq; [lia|done]|]. cbn [ier fcr lcr mcr thr].
  do 5 (split; [done|]). unfold baud_of. cbn [dll dlh]. change (APB_FREQ / 16) with 12500000. set (p := 12500000 / baud_rate).
  pose proof (Z.div_mod 12500000 baud_rate ltac:(lia)) as Hd. pose proof (Z.mod_pos_bound 12500000 baud_rate ltac:(lia)). fold p in Hd.
  assert (0 < p < 256) as Hp by nia. rewrite (Z.mod_small p) by lia. rewrite Z.mul_0_r, Z.add_0_r. split; [done|]. split.
  - apply Z.div_le_lower_bound; [lia|]. change APB_FREQ with (16 * 12500000). nia.
  - split; intros ->; reflexivity.
Qed.
Lemma uart_begin_8n1_witness :
  exists r', uart_begin 921600 (MkUartRegs 7 0 0 0 1 2 []) = Val r' /\ ier r' = 0 /\ fcr r' = FCR_FIFOE /\ lcr r' = LCR_8N1 /\ mcr r' = 0 /\ thr r' = [] /\
    baud_of r' = APB_FREQ / (16 * (APB_FREQ / 16 / 921600)) /\ 921600 <= baud_of r' /\
    (921600 = 921600 -> baud_of r' = 961538) /\ (921600 = 115200 -> baud_of r' = 115740).
Proof. apply (uart_begin_8n1 921600 (MkUartRegs 7 0 0 0 1 2 [])); [by vm_compute|reflexivity]. Defined.

(** The blocking writer ends and sends every byte once, in order, if the FIFO gets
    room and runs empty within [n] readings whenever it is looked at; the number of
    readings is bounded. *)
Theorem direct_write_sends tfnf temt n s k sent :
  (forall k, exists j, (j < n)%nat /\ tfnf (k + j)%nat = true) -> (forall k, exists j, (j < n)%nat /\ temt (k + j)%nat = true) ->
  exists k', direct_write_str tfnf temt n s k sent = Some (k', sent ++ s) /\ (k' <= k + n * S (length s))%nat.
Proof.
  intros Ht He. unfold direct_write_str. destruct (direct_bytes_spec tfnf n s k sent Ht) as (k1 & -> & Hk1). cbn [mbind option_bind].
  destruct (He k1) as (j & Hj & Hr). destruct (spin_ends temt n k1 j Hj Hr) as (k2 & -> & Hk2). exists k2. split; [done|nia].
Qed.
Lemma direct_write_sends_witness :
  exists k', direct_write_str Nat.even Nat.odd 2 [104; 105] 0 [] = Some (k', [104; 105]) /\ (k' <= 0 + 2 * 3)%nat.
Proof.
  apply (direct_write_sends Nat.even Nat.odd 2 [104; 105] 0 []); intros k.
  - destruct (Nat.even k) eqn:He; [exists 0%nat; rewrite Nat.add_0_r; split; [lia|done]|].
    exists 1%nat. rewrite Nat.add_1_r, Nat.even_succ, <- Nat.negb_even, He. split; [lia|done].
  - destruct (Nat.odd k) eqn:He; [exists 0%nat; rewrite Nat.add_0_r; split; [lia|done]|].
    exists 1%nat. rewrite Nat.add_1_r, Nat.odd_succ, <- Nat.negb_odd, He. split; [lia|done].
Defined.

(** C23: [__kernel_main] gets to the network loop: the clock of the UARTs is the one that
    the baud rates are computed for, the heap is the memory behind the program, the
    table of the traps is installed with [_trap_mei] for external interrupts, the
    interrupts of the two UARTs and no others pass the controller, the processor
    takes them, and everything printed on the way comes out in the order of the
    program, whichever of the three printing macros was used. *)
Theorem kernel_main_ready `{BitFieldLaws} depth b prog_end default trap_mei vector_addr hartid mapbaddr now t mv :
  0 <= prog_end <= MEM_END -> dlab (uart0 b) = false -> dlab (uart2 b) = false ->
  STDOUT_TX (con b) = uart_xmit_new -> uart_sent (UART0 (con b)) = [] -> fits 64 (mstatus (hart b)) -> 0 <= mie (hart b) ->
  rv_install default (<[11%nat := TJump trap_mei]> rv_new) vector_addr = Ok (t, mv) -> (length (mtvec_line mv) <= depth)%nat ->
  exists b', kernel_main depth prog_end default trap_mei vector_addr hartid mapbaddr now b = Val b' /\
    apb1_rate (clk b') = APB_FREQ /\ baud_of (uart0 b') = 961538 /\ baud_of (uart2 b') = 115740 /\
    HEAP b' = Some (prog_end, MEM_END - prog_end) /\ GENESIS b' = Some now /\
    (fits 40 vector_addr -> fits 64 trap_mei -> reachable trap_mei (trap_pc (mtvec b') MachineExternalInterrupt) ->
      take_trap (table b') vector_addr (mtvec b') MachineExternalInterrupt = Some trap_mei) /\
    (forall claim, 0 <= claim -> plic_passes (irq b') claim = true <-> claim = 18 \/ claim = 20) /\
    Z.testbit (mstatus (hart b')) 3 = true /\ Z.testbit (mie (hart b')) 11 = true /\ ier (uart2 b') = IER_ERBFI /\
    uart_sent (UART0 (con b')) ++ pending (STDOUT_TX (con b')) = boot_text prog_end mv hartid mapbaddr /\
    (strings (STDOUT_TX (con b')) <> [] -> Z.testbit (ier (uart0 b')) 1 = true).
Proof.
  intros Hp Hd0 Hd2 Hq Hs Hm He Hi Hl.
  destruct (kernel_main_runs depth b prog_end default trap_mei vector_addr hartid mapbaddr now t mv Hp Hd0 Hd2 Hq Hs Hi Hl)
    as (b' & r & c & Hr & -> & Hregs & [_ Hord Harm] & Het). eexists. split; [exact Hr|]. cbn [clk uart0 uart2 HEAP GENESIS mtvec table irq hart con].
  split; [reflexivity|]. split; [unfold baud_of; by injection Hregs as _ _ _ -> -> _|]. do 3 (split; [reflexivity|]). split.
  { intros Hv Ht Hrc. pose proof (rv_install_dispatches [(MachineExternalInterrupt, TJump trap_mei)] default vector_addr) as Hdis.
    replace (rv_build [(MachineExternalInterrupt, TJump trap_mei)] rv_new) with (Val (<[11%nat := TJump trap_mei]> rv_new)) in Hdis.
    - destruct (Hdis t mv Hi Hv) as [_ Hdt]. apply (Hdt MachineExternalInterrupt); [exact Ht|exact Hrc].
    - cbn [rv_build]. unfold rv_set. rewrite is_interrupt_eq, vector_offset_eq by decide_now. rewrite bool_decide_true by decide_now. cbn [negb].
      rewrite slice_set_Val by (unfold rv_new; rewrite length_replicate; vm_compute; lia). reflexivity. }
  split.
  { intros claim Hc. unfold plic_passes. cbn [set_up_plic plic_mie mth prio]. change (Z.shiftl 1 20) with (2 ^ 20). change (Z.shiftl 1 18) with (2 ^ 18).
    rewrite Z.lor_spec, !Z.pow2_bits_eqb by lia.
    destruct (Z.eqb_spec 20 claim) as [<-|]; [by split; [right|]|]. destruct (Z.eqb_spec 18 claim) as [<-|]; [by split; [left|]|]. cbn. split; [done|lia]. }
  destruct (boot_features (hart b) Hm He) as (_ & _ & _ & _ & Hst & Hie).
  split; [rewrite Hst by lia; apply orb_true_r|]. split; [rewrite Hie by lia; rewrite orb_true_r; done|]. split; [done|]. split; [exact Hord|].
  intros Hne. rewrite <- Het. by apply Harm.
Qed.

(** The hand-written [ier] of the set-up switches off the transmit interrupt that
    the print inside [install] may have switched on: on a UART whose FIFO does not
    take the line, the rest of it stays queued with nothing that would send it, and
    the next message overtakes it. *)
Theorem ier_write_disarms `{BitFieldLaws} depth all b h default trap_mei vector_addr t mv :
  up all b -> HEAP b = Some h -> dlab (uart0 b) = false ->
  rv_install default (<[11%nat := TJump trap_mei]> rv_new) vector_addr = Ok (t, mv) ->
  (uart_room (UART0 (con b)) < length (mtvec_line mv))%nat ->
  exists b', set_up_exceptions depth default trap_mei vector_addr b = Val b' /\
    strings (STDOUT_TX (con b')) <> [] /\ Z.testbit (ier (uart0 b')) 1 = false /\ uart_etbei (UART0 (con b')) = false /\
    uart_sent (UART0 (con b')) = all ++ take (uart_room (UART0 (con b))) (mtvec_line mv) ++ txt "[antimony] set up exception handling" ++ crlf.
Proof.
  intros [Hc Hq Hs He Hir] Hh Hd Hi Hl. unfold set_up_exceptions, install_vector, set_unchecked.
  rewrite slice_set_Val by (unfold rv_new; rewrite length_replicate; lia). rewrite run_bind_Val, Hi.
  assert ((txt "mtvec=" ++ lower_hex mv) ++ crlf = mtvec_line mv) as Hm by (unfold mtvec_line; by rewrite <- app_assoc).
  unfold println. change (HEAP (set_vector t mv b)) with (HEAP b). rewrite Hh. change (con (set_vector t mv b)) with (con b).
  rewrite Hq, Hm. unfold write_string. cbn [strings index uart_xmit_new app].
  destruct (console_write_out_spec (MkUartXmit [mtvec_line mv] 0) (UART0 (con b))) as (x & Hw & _ & _ & Hx).
  { unfold queue_ok. cbn [strings index]. unfold mtvec_line. rewrite length_app. cbn. lia. }
  assert (pending (MkUartXmit [mtvec_line mv] 0) = mtvec_line mv) as Hp by (unfold pending; cbn [strings index concat]; by rewrite app_nil_r, drop_0).
  rewrite Hp in *. rewrite Hw. rewrite bool_decide_false by lia. rewrite run_bind_Val. cbv zeta.
  unfold dprintln, dprint. eexists. rewrite (fcr_ier FCR_TWO_CHARACTERS) by exact Hd. split; [cbn [uart0_cell set_hart set_uart2 set_uart0 set_irq set_con set_vector]; rewrite Hc; reflexivity|].
  cbn [con set_con set_console STDOUT_TX UART0 uart_sent uart_etbei set_hart set_uart2 set_uart0 set_irq set_vector uart0 ier set_etbei].
  split; [intros He0; apply Hx in He0; lia|]. do 2 (split; [done|]). by rewrite Hs, <- app_assoc.
Qed.

(** A board out of reset, with the FIFO of [n] bytes. *)
Definition reset_board (n : nat) : board :=
  MkBoard (MkClocks 0 0 false [] []) (MkUartRegs 0 0 0 0 0 0 []) (MkUartRegs 0 0 0 0 0 0 []) false None [] 0 (MkPlic 0 (fun _ => 0) 0)
    (MkCsrs 0 0x104 0 0 0x1800 0) (MkIo uart_xmit_new (MkUart n [] false) recv_new xmit_new (MkUart n [] false) [] []) false None.

Definition demo_table : list Z :=
  match rv_install (BF := demo_bit_field) 0x40001000 (<[11%nat := TJump 0x40000800]> rv_new) 0x40002000 with Ok (t, _) => t | Err _ => [] end.
Lemma demo_install : rv_install (BF := demo_bit_field) 0x40001000 (<[11%nat := TJump 0x40000800]> rv_new) 0x40002000 = Ok (demo_table, 0x40002001).
Proof. by vm_compute. Qed.

Lemma kernel_main_ready_witness :
  let BF := demo_bit_field in
  exists b', kernel_main 64 0x40010000 0x40001000 0x40000800 0x40002000 0 0x20000000 12345 (reset_board 64) = Val b' /\
    apb1_rate (clk b') = APB_FREQ /\ baud_of (uart0 b') = 961538 /\ baud_of (uart2 b') = 115740 /\
    HEAP b' = Some (0x40010000, MEM_END - 0x40010000) /\ GENESIS b' = Some 12345 /\
    (fits 40 0x40002000 -> fits 64 0x40000800 -> reachable 0x40000800 (trap_pc (mtvec b') MachineExternalInterrupt) ->
      take_trap (table b') 0x40002000 (mtvec b') MachineExternalInterrupt = Some 0x40000800) /\
    (forall claim, 0 <= claim -> plic_passes (irq b') claim = true <-> claim = 18 \/ claim = 20) /\
    Z.testbit (mstatus (hart b')) 3 = true /\ Z.testbit (mie (hart b')) 11 = true /\ ier (uart2 b') = IER_ERBFI /\
    uart_sent (UART0 (con b')) ++ pending (STDOUT_TX (con b')) = boot_text 0x40010000 0x40002001 0 0x20000000 /\
    (strings (STDOUT_TX (con b')) <> [] -> Z.testbit (ier (uart0 b')) 1 = true).
Proof.
  apply (@kernel_main_ready demo_bit_field demo_laws 64 (reset_board 64) 0x40010000 0x40001000 0x40000800 0x40002000 0 0x20000000 12345 demo_table 0x40002001);
    [by vm_compute|done|done|done|done|by vm_compute|by vm_compute|exact demo_install|by apply Nat.leb_le; vm_compute].
Defined.

Definition printing_board : board := set_heap (0x40010000, 0x1fff0000) (set_cell (reset_board 8)).
Lemma ier_write_disarms_witness :
  let BF := demo_bit_field in
  exists b', set_up_exceptions 8 0x40001000 0x40000800 0x40002000 printing_board = Val b' /\
    strings (STDOUT_TX (con b')) <> [] /\ Z.testbit (ier (uart0 b')) 1 = false /\ uart_etbei (UART0 (con b')) = false /\
    uart_sent (UART0 (con b')) = [] ++ take 8 (mtvec_line 0x40002001) ++ txt "[antimony] set up exception handling" ++ crlf.
Proof.
  apply (@ier_write_disarms demo_bit_field demo_laws 8 [] printing_board (0x40010000, 0x1fff0000) 0x40001000 0x40000800 0x40002000 demo_table 0x40002001);
    [by split|done|done|exact demo_install|by apply Nat.leb_le; vm_compute].
Defined.
