(* ===== verification/Echo.v ===== *)
(** The terminal that the uploader becomes when a program runs:
    [host/okdude/src/echo.rs].

    What a round reads from the serial port and from the channel of the thread
    that reads the lines of the standard input is given; the rounds go on until
    an error. *)
From S2P Require Import Prelude.

Module Echo.

(** [tty.read8()], and the outcome of the [write_all] to the standard output. *)
Inductive serial_event : Type :=
  | SByte (b : Z) (stdout_ok : bool)
  | STimedOut
  | SError.
(** [rx.try_recv()], with the outcome of [tty.write_all]: [None] for success, or
    the number of bytes written when it failed. *)
Inductive stdin_event : Type :=
  | ILine (s : list Z) (failed_after : option nat)
  | IEmpty
  | IDisconnected.
Inductive log : Type := LSerialError | LSendFailed | LDisconnected.
Record terminal : Type := MkTerminal { stdout : list Z; sent : list Z; logged : list log }.
Inductive echo_end : Type := Exit (code : Z) | OutputError.

Definition print (b : Z) (t : terminal) : terminal := MkTerminal (stdout t ++ [b]) (sent t) (logged t).
Definition send (s : list Z) (t : terminal) : terminal := MkTerminal (stdout t) (sent t ++ s) (logged t).
Definition tell (l : log) (t : terminal) : terminal := MkTerminal (stdout t) (sent t) (logged t ++ [l]).

(** One round of the loop: the terminal, or how it ended. *)
Definition echo_round (ev : serial_event * stdin_event) (t : terminal) : terminal * option echo_end :=
  let '(serial, stdin) := ev in
  let forward t :=
    match stdin with
    | ILine s None => (send s t, None)
    | ILine s (Some n) => (tell LSendFailed (send (take n s) t), None)
    | IEmpty => (t, None)
    | IDisconnected => (tell LDisconnected t, None)
    end in
  match serial with
  | SByte b true => forward (print b t)
  | SByte b false => (t, Some OutputError)
  | STimedOut => forward t
  | SError => (tell LSerialError t, Some (Exit 1))
  end.
Fixpoint echo (evs : list (serial_event * stdin_event)) (t : terminal) : terminal * option echo_end :=
  match evs with
  | [] => (t, None)
  | ev :: evs => let '(t, e) := echo_round ev t in match e with None => echo evs t | Some e => (t, Some e) end
  end.

End Echo.
Export Echo.

(** What arrived on the two sides. *)
Definition received (evs : list (serial_event * stdin_event)) : list Z :=
  omap (fun ev => match fst ev with SByte b _ => Some b | _ => None end) evs.
Definition typed (evs : list (serial_event * stdin_event)) : list (list Z) :=
  omap (fun ev => match snd ev with ILine s _ => Some s | _ => None end) evs.
(** A round in which nothing fails. *)
Definition round_ok (ev : serial_event * stdin_event) : Prop :=
  match fst ev with SByte _ ok => ok = true | STimedOut => True | SError => False end /\
  match snd ev with ILine _ f => f = None | _ => True end.

Lemma echo_round_ok ev t :
  round_ok ev -> exists t', echo_round ev t = (t', None) /\
    stdout t' = stdout t ++ received [ev] /\ sent t' = sent t ++ concat (typed [ev]).
Proof.
  intros [Hs Hi]. destruct ev as [s i]. unfold received, typed. cbn in *.
  destruct s as [b ok| |]; [subst ok| |done]; destruct i as [l f| |]; try subst f; eexists; (split; [reflexivity|]);
    cbn; rewrite ?app_nil_r; done.
Qed.

(** ** The claims *)

(** While nothing fails the terminal goes on, shows every byte that the device
    sends once and in order, and sends the lines that were typed in order: but
    one behind the other, without what ended them. *)
Theorem echo_copies evs t :
  Forall round_ok evs -> exists t', echo evs t = (t', None) /\
    stdout t' = stdout t ++ received evs /\ sent t' = sent t ++ concat (typed evs).
Proof.
  revert t. induction evs as [|ev evs IH]; intros t Hok; cbn [echo].
  { exists t. cbn. by rewrite !app_nil_r. }
  apply list.Forall_cons in Hok as [Hev Hevs]. destruct (echo_round_ok ev t Hev) as (t1 & -> & Ho1 & Hs1).
  destruct (IH t1 Hevs) as (t' & -> & Ho & Hs). exists t'. split; [done|]. rewrite Ho, Hs, Ho1, Hs1.
  unfold received, typed in *. cbn [omap list_omap]. split.
  - destruct (fst ev); cbn; by rewrite <- ?app_assoc, ?app_nil_r.
  - destruct (snd ev); cbn; by rewrite <- ?app_assoc, ?app_nil_r.
Qed.

Lemma echo_copies_witness :
  exists t', echo [(SByte 62 true, IEmpty); (STimedOut, ILine [104; 105] None); (SByte 33 true, ILine [111] None)] (MkTerminal [] [] []) = (t', None) /\
    stdout t' = [62; 33] /\ sent t' = [104; 105; 111].
Proof.
  apply (echo_copies [(SByte 62 true, IEmpty); (STimedOut, ILine [104; 105] None); (SByte 33 true, ILine [111] None)] (MkTerminal [] [] [])).
  repeat constructor.
Defined.

(** An error of the port ends the program with status 1, whatever would come after
    it; what was shown and sent until then is what came before it, and the error is
    the last thing that is logged. *)
Theorem echo_ends_on_error evs rest i t :
  Forall round_ok evs ->
  exists t', echo (evs ++ (SError, i) :: rest) t = (t', Some (Exit 1)) /\ stdout t' = stdout t ++ received evs /\
    sent t' = sent t ++ concat (typed evs) /\ logged t' = removelast (logged t') ++ [LSerialError].
Proof.
  revert t. induction evs as [|ev evs IH]; intros t Hok; cbn [app echo].
  { eexists. split; [reflexivity|]. cbn. rewrite !app_nil_r. split; [done|]. split; [done|]. by rewrite removelast_last. }
  apply list.Forall_cons in Hok as [Hev Hevs]. destruct (echo_round_ok ev t Hev) as (t1 & -> & Ho1 & Hs1).
  destruct (IH t1 Hevs) as (t' & -> & Ho & Hs & Hl). exists t'. split; [done|]. rewrite Ho, Hs, Ho1, Hs1.
  unfold received, typed in *. cbn [omap list_omap]. split_and!; [| |done].
  - destruct (fst ev); cbn; by rewrite <- ?app_assoc, ?app_nil_r.
  - destruct (snd ev); cbn; by rewrite <- ?app_assoc, ?app_nil_r.
Qed.

Lemma echo_ends_on_error_witness :
  exists t', echo ([(SByte 62 true, ILine [104] None)] ++ (SError, IEmpty) :: []) (MkTerminal [] [] []) = (t', Some (Exit 1)) /\
    stdout t' = [62] /\ sent t' = [104] /\ logged t' = removelast (logged t') ++ [LSerialError].
Proof. apply (echo_ends_on_error [(SByte 62 true, ILine [104] None)] [] IEmpty (MkTerminal [] [] [])). repeat constructor. Defined.
