(* ===== verification/HostSession.v ===== *)
(** A session of the uploader: [upload] of [host/okdude/src/upload.rs], which
    chooses the protocol, and the parts of [host/okdude/src/v2.rs] around the
    transfer: the arguments that are put into an ELF file, and [upload].

    The crate [elf] finds the section; what the calls to the device return is
    given.  The protocols themselves are in [Promotion], [Suboot] and
    [HostUpload]. *)
From S2P Require Import Prelude Words Messages Args.

Module HostSession.

(** [section_header_by_name(".data.args")] of a parsed file: offset and size, if
    there is such a section, if the file can be parsed. *)
Class ElfSections := data_args_section : list Z -> option (option (nat * nat)).

Inductive insertion : Type :=
  | Inserted (file : list Z)
  | ArgumentsTooLong.         (* logged, and [exit(1)] *)

Definition insert_args `{ElfSections} (args : list (list Z)) (uncompressed : list Z) : run insertion :=
  arg_vector ← serialize_args args;
  stack ← unwrap (data_args_section uncompressed);
  '(offset, size) ← unwrap stack;
  if (size <=? length arg_vector)%nat then Val ArgumentsTooLong
  else uncompressed ← slice_copy uncompressed offset (offset + length arg_vector) arg_vector; Val (Inserted uncompressed).

(** ** The session *)

Definition PROMOTION_TRIES : nat := 1.
Inductive Mode : Type := Legacy | Okdude (version : Z).
Inductive event : Type :=
  | Open (baud : Z)
  | Handshake
  | Sleep (ms : Z)
  | RunLegacy
  | RunV2
  | SetBaud (baud : Z)
  | EchoMode.
Inductive session_end : Type := Echoing | Failed | ExitOne.

(** The attempts, [tries k] being what the [k]-th one returns. *)
Fixpoint promote (tries : nat -> option Z) (n k : nat) : Mode * list event :=
  match n with
  | O => (Legacy, [])
  | S n =>
    match tries k with
    | Some version => (Okdude version, [Handshake])
    | None => let '(mode, es) := promote tries n (S k) in (mode, Handshake :: Sleep 700 :: es)
    end
  end.
(** [v2::upload]: the transfer and the driver thread are joined, then the rate is
    set back whether they succeeded or not. *)
Definition v2_upload (succeeded set_baud_ok : bool) : list event * option session_end :=
  ([RunV2; SetBaud INITIAL_BAUD_RATE],
   if negb set_baud_ok then Some Failed else if negb succeeded then Some ExitOne else None).
(** [upload] *)
Definition session (tries : nat -> option Z) (legacy_ok v2_ok set_baud_ok : bool) : list event * session_end :=
  let '(mode, es) := promote tries PROMOTION_TRIES 0 in
  let '(es', e) :=
    match mode with
    | Legacy => ([RunLegacy], if legacy_ok then None else Some Failed)
    | Okdude _ => v2_upload v2_ok set_baud_ok
    end in
  match e with
  | None => (Open INITIAL_BAUD_RATE :: es ++ es' ++ [EchoMode], Echoing)
  | Some e => (Open INITIAL_BAUD_RATE :: es ++ es', e)
  end.
End HostSession.
Export HostSession.

(** ** The claims *)


(** A file of 64 bytes with the section at 8. *)
Definition demo_sections : ElfSections := fun _ => Some (Some (8%nat, 40%nat)).

(** The end of the session: the port is opened and left for the terminal at the
    initial rate, whatever the protocol did to it; the older protocol runs if and
    only if no attempt to promote succeeded, and there is one. *)
Theorem session_spec tries legacy_ok v2_ok set_baud_ok :
  session tries legacy_ok v2_ok set_baud_ok =
    match tries 0%nat with
    | None => ([Open INITIAL_BAUD_RATE; Handshake; Sleep 700; RunLegacy] ++ (if legacy_ok then [EchoMode] else []), if legacy_ok then Echoing else Failed)
    | Some _ =>
      ([Open INITIAL_BAUD_RATE; Handshake; RunV2; SetBaud INITIAL_BAUD_RATE] ++ (if set_baud_ok && v2_ok then [EchoMode] else []),
       if set_baud_ok then if v2_ok then Echoing else ExitOne else Failed)
    end.
Proof. unfold session. cbn [promote PROMOTION_TRIES]. by destruct (tries 0%nat), legacy_ok, v2_ok, set_baud_ok. Qed.

(** Arguments that fill the section to its last byte are refused, and a section
    that the file does not hold is a panic of the uploader. *)
Theorem insertion_refused `{ElfSections} args file v offset size :
  serialize_args args = Val v -> data_args_section file = Some (Some (offset, size)) ->
  ((size <= length v)%nat -> insert_args args file = Val ArgumentsTooLong) /\
  ((length v < size)%nat -> (length file < offset + length v)%nat -> insert_args args file = Panic).
Proof.
  intros Hv Hd. unfold insert_args. rewrite Hv, run_bind_Val, Hd. cbn [unwrap]. rewrite run_bind_Val. cbn [unwrap]. rewrite run_bind_Val. split.
  - intros Hl. by rewrite (proj2 (Nat.leb_le _ _)).
  - intros Hl Ho. rewrite (proj2 (Nat.leb_gt _ _)) by lia. unfold slice_copy. case_decide; [lia|done].
Qed.
Lemma insertion_refused_witness :
  let E := demo_sections in
  ((40 <= 12)%nat -> insert_args [[0x61]] (replicate 16 0) = Val ArgumentsTooLong) /\
  ((12 < 40)%nat -> (length (replicate 16 0) < 8 + 12)%nat -> insert_args [[0x61]] (replicate 16 0) = Panic).
Proof. apply (@insertion_refused demo_sections [[0x61]] (replicate 16 0) [1; 0; 0; 0; 1; 0; 0; 0; 0x61; 0; 0; 0] 8 40); by vm_compute. Defined.
