(* ===== verification/ArmMain.v ===== *)
(** The set-up of the ARM programs: [muart1_init] of
    [device/quartz/src/device/bcm2835/mini_uart.rs], the printing of
    [device/bismuth/src/fmt.rs], [__symbol_kstart] of
    [device/okboot/src/lib.rs], and [__kernel_start] and [__kernel_restart] of
    [device/bismuth/src/lib.rs] with [watchdog.rs].

    The delays have no effect on the state; what is printed on the way is a list of
    lines. *)
From Stdlib Require Import String.
From S2P Require Import Prelude Words Messages Timing Mmu ArmStart PppXmit PppRecv Console RiscvMain.

Module ArmMain.

(** ** The mini UART *)

Record mini_uart : Type := MkMini {
  on_pins : bool;          (* pins 14 and 15 are those of UART1 *)
  aux_enabled : bool;
  tx_enable : bool;
  rx_enable : bool;
  mini_ier : Z;
  mini_baud : Z;
  eight_bit : bool;
  mini_rts : bool;
  fifos : list Z;          (* what the FIFOs hold *)
}.
Inductive mini_write : Type :=
  | Fsel                   (* [gpfsel1]: fsel14 and fsel15 *)
  | AuxEnable              (* [aux.enables] *)
  | Cntl (tx rx : bool)
  | Ier (v : Z)
  | ClearFifos             (* [__uart1_clear_fifos_unguarded] *)
  | Baud (v : Z)
  | Lcr8
  | Mcr (rts : bool).
(** The manual of the processor: the registers of the mini UART cannot be accessed
    before it is enabled in [aux.enables]. *)
Definition mini_apply (w : mini_write) (u : mini_uart) : mini_uart :=
  let 'MkMini p a tx rx i b e r f := u in
  match w with
  | Fsel => MkMini true a tx rx i b e r f
  | AuxEnable => MkMini p true tx rx i b e r f
  | _ =>
    if a then
      match w with
      | Cntl tx rx => MkMini p a tx rx i b e r f
      | Ier i => MkMini p a tx rx i b e r f
      | ClearFifos => MkMini p a tx rx i b e r []
      | Baud b => MkMini p a tx rx i b e r f
      | Lcr8 => MkMini p a tx rx i b true r f
      | Mcr r => MkMini p a tx rx i b e r f
      | _ => u
      end
    else u
  end.
Definition muart1_writes (clock_divider : Z) : list mini_write :=
  [Fsel; AuxEnable; Cntl false false; Ier 0; ClearFifos; Baud clock_divider; Lcr8; Mcr false; Cntl true true].
Definition mini_run (ws : list mini_write) (u : mini_uart) : mini_uart := foldl (fun u w => mini_apply w u) u ws.
Definition muart1_init (clock_divider : Z) (u : mini_uart) : mini_uart := mini_run (muart1_writes clock_divider) u.
(** The rate of a divider, by the manual. *)
Definition mini_rate (divider : Z) : Z := MINI_UART_CLOCK_RATE / (8 * (divider + 1)).

(** [Uart1WriteProxy::write_str] and [uart1_println!], [tx_ready k] and [tx_done k]
    being the [k]-th readings. *)
Definition uart1_write_str (tx_ready : nat -> bool) (fuel : nat) (s : list Z) (k : nat) (sent : list Z) : option (nat * list Z) :=
  direct_bytes tx_ready fuel s k sent.
Definition uart1_println (tx_ready tx_done : nat -> bool) (fuel : nat) (s : list Z) (k : nat) (sent : list Z) : option (nat * list Z) :=
  '(k, sent) ← uart1_write_str tx_ready fuel (s ++ [10]) k sent; k ← spin tx_done fuel k; Some (k, sent).

(** ** okboot *)

Record machine : Type := MkMachine {
  mini : mini_uart;
  mmu : mmu_state;
  arm_heap : option (Z * Z);
  lines : list string;
}.
Definition say (l : string) (s : machine) : machine := MkMachine (mini s) (mmu s) (arm_heap s) (lines s ++ [l]).
Definition with_mmu (f : mmu_state -> mmu_state) (s : machine) : machine := MkMachine (mini s) (f (mmu s)) (arm_heap s) (lines s).
Definition B115200_DIVIDER : Z := 270.
Definition heap_init (start size : Z) (s : machine) : machine := MkMachine (mini s) (mmu s) (Some (start, size)) (lines s).
Definition all_features (caches : bool) : MMUEnabledFeaturesConfig := MkFeatures (Some caches) (Some caches) (Some true).
(** [__symbol_kstart] up to [protocol::run]. *)
Definition symbol_kstart (ttb_region : Z) (s : machine) : machine :=
  let s := MkMachine (muart1_init B115200_DIVIDER (mini s)) (mmu s) (arm_heap s) (lines s) in
  let s := say "initializing MMU" s in
  let s := with_mmu (init_mmu ttb_region) s in
  let s := say "finished initializing MMU" s in
  let s := with_mmu (set_mmu_enabled_features (all_features false)) s in
  let s := say "MMU: -dcache -icache +brpdx" s in
  let s := with_mmu (set_mmu_enabled_features (all_features true)) s in
  let s := say "MMU: +dcache +icache +brpdx" s in
  let s := heap_init 0x10000000 0x10000000 s in
  say "Initialized heap" s.

(** ** bismuth *)

Definition WDOG_TIME : Z := 0x00f.
Inductive power : Type := Running | Resetting (time : Z).
(** A constant: its panic would be an error of the compiler. *)
Definition DEFAULT_CLOCK_DIVIDER : run Z := baud_to_clock_divider 115200.
(** [__kernel_start], to the end of [watchdog::restart]; [app] is what a command does. *)
Definition bismuth_start (app : BismuthCommand -> machine -> machine) (area : list Z) (s : machine) : run (machine * power) :=
  clock_divider ← DEFAULT_CLOCK_DIVIDER;
  let s := MkMachine (muart1_init clock_divider (mini s)) (mmu s) (arm_heap s) (lines s) in
  let s := say "Successfully initialized UART1." s in
  let s := heap_init 0x10000000 0x10000000 s in
  command ← kernel_command area;
  let s := match command with Some c => app c s | None => s end in
  Val (say "Rebooting." s, Resetting WDOG_TIME).
End ArmMain.
Export ArmMain.

(** ** The claims *)

(** [muart1_init] leaves the UART on its pins and enabled, in the mode of eight bits
    with the divider it was given, without interrupts and with empty FIFOs,
    whatever was before; and the divider, the mode and the FIFOs are touched only
    between the writes that switch the transmitter and the receiver off and on.
    The divider of 115200 baud gives a rate that is right to one in a thousand. *)
Theorem muart1_init_spec d u :
  muart1_init d u = MkMini true true true true 0 d true false [] /\
  (forall pre w post, muart1_writes d = pre ++ w :: post -> In w [ClearFifos; Baud d; Lcr8; Mcr false; Ier 0] ->
    tx_enable (mini_run pre u) = false /\ rx_enable (mini_run pre u) = false /\ aux_enabled (mini_run pre u) = true) /\
  DEFAULT_CLOCK_DIVIDER = Val B115200_DIVIDER /\ 115200 <= mini_rate B115200_DIVIDER <= 115200 + 115200 / 1000.
Proof.
  destruct u as [p a tx rx i b e r f]. split; [reflexivity|]. split; [|split; [reflexivity|by vm_compute]].
  intros pre w post He Hw. unfold muart1_writes in He.
  do 9 (destruct pre as [|? pre]; [cbn [app] in He; injection He as <- _; cbn in Hw; by repeat (destruct Hw as [Hw|Hw]; try discriminate Hw)
    |cbn [app] in He; injection He as <- He]).
  by destruct pre.
Qed.

(** A line is written out, byte by byte and with its end, if the UART takes a byte
    and is done within [n] readings whenever it is looked at. *)
Theorem uart1_println_writes tx_ready tx_done n s k sent :
  (forall k, exists j, (j < n)%nat /\ tx_ready (k + j)%nat = true) -> (forall k, exists j, (j < n)%nat /\ tx_done (k + j)%nat = true) ->
  exists k', uart1_println tx_ready tx_done n s k sent = Some (k', sent ++ s ++ [10]).
Proof.
  intros Hr Hd. unfold uart1_println, uart1_write_str. destruct (direct_bytes_spec tx_ready n (s ++ [10]) k sent Hr) as (k1 & -> & _). cbn [mbind option_bind].
  destruct (Hd k1) as (j & Hj & Hdj). destruct (spin_ends tx_done n k1 j Hj Hdj) as (k2 & -> & _). by exists k2.
Qed.
Lemma uart1_println_writes_witness :
  exists k', uart1_println (fun _ => true) (fun _ => true) 1 [104; 105] 0 [] = Some (k', [104; 105; 10]).
Proof. apply (uart1_println_writes (fun _ => true) (fun _ => true) 1 [104; 105] 0 []); intros k; exists 0%nat; (split; [lia|done]). Defined.

(** C30: the state in which the receive loop of the boot loader begins: every address of
    the first 528 MB is itself and no other is mapped, both caches and branch
    prediction are on, the heap lies in memory and not in the devices, and the UART
    is ready at the initial rate. *)
Theorem symbol_kstart_ready ttb s va :
  fits 32 ttb -> ttb mod 2 ^ 14 = 0 -> fits 32 va ->
  let s' := symbol_kstart ttb s in
  translate (mmu s') va =
    (if va <? 0x21000000
     then Some (va, Some (if va <? 0x20000000 then MkAttributes 1 false false else MkAttributes 0 false true)) else None) /\
  Z.testbit (cr (mmu s')) 2 = true /\ Z.testbit (cr (mmu s')) 12 = true /\ Z.testbit (cr (mmu s')) 11 = true /\
  mini s' = MkMini true true true true 0 B115200_DIVIDER true false [] /\
  exists start size, arm_heap s' = Some (start, size) /\
    (start <= va < start + size -> translate (mmu s') va = Some (va, Some (MkAttributes 1 false false))).
Proof.
  intros Ht Ha Hva s'. set (m := init_mmu ttb (mmu s)).
  set (m1 := set_mmu_enabled_features (all_features false) m). assert (mmu s' = set_mmu_enabled_features (all_features true) m1) as Hm by done.
  assert (forall config x, ttb0 (set_mmu_enabled_features config x) = ttb0 x /\ ttbcr (set_mmu_enabled_features config x) = ttbcr x /\ mem (set_mmu_enabled_features config x) = mem x) as Hf.
  { intros config x. unfold set_mmu_enabled_features. destruct (set_feature _ _ _) as [on off]. by destruct (_ || _). }
  assert (translate (mmu s') va = translate m va) as Htr.
  { rewrite Hm. unfold translate. destruct (Hf (all_features true) m1) as (-> & -> & ->). destruct (Hf (all_features false) m) as (E1 & E2 & E3). fold m1 in E1, E2, E3.
    rewrite E1, E2, E3, (features_bits _ m1 0) by lia. cbn [Z.eqb]. unfold m1. by rewrite (features_bits _ m 0) by lia. }
  assert (translate m va = if va <? 0x21000000
     then Some (va, Some (if va <? 0x20000000 then MkAttributes 1 false false else MkAttributes 0 false true)) else None) as Hid by by apply init_mmu_identity.
  split; [by rewrite Htr|]. rewrite Hm. split; [by rewrite features_bits by lia|]. split; [by rewrite features_bits by lia|]. split; [by rewrite features_bits by lia|].
  split. { change (mini s') with (muart1_init B115200_DIVIDER (mini s)). by destruct (mini s). }
  exists 0x10000000, 0x10000000. split; [done|]. intros Hr. rewrite <- Hm, Htr, Hid.
  by rewrite (proj2 (Z.ltb_lt va 0x21000000)), (proj2 (Z.ltb_lt va 0x20000000)) by lia.
Qed.
Definition dark_machine : machine := MkMachine (MkMini false false false false 0 0 false true [1; 2]) (MkMmu 0 0 0 0 (fun _ => 0)) None [].
Lemma symbol_kstart_ready_witness :
  let s' := symbol_kstart 0x14000 dark_machine in
  translate (mmu s') 0x10000004 =
    (if 0x10000004 <? 0x21000000
     then Some (0x10000004, Some (if 0x10000004 <? 0x20000000 then MkAttributes 1 false false else MkAttributes 0 false true)) else None) /\
  Z.testbit (cr (mmu s')) 2 = true /\ Z.testbit (cr (mmu s')) 12 = true /\ Z.testbit (cr (mmu s')) 11 = true /\
  mini s' = MkMini true true true true 0 B115200_DIVIDER true false [] /\
  exists start size, arm_heap s' = Some (start, size) /\
    (start <= 0x10000004 < start + size -> translate (mmu s') 0x10000004 = Some (0x10000004, Some (MkAttributes 1 false false))).
Proof. apply (symbol_kstart_ready 0x14000 dark_machine 0x10000004); [by split|reflexivity|by split]. Defined.

(** bismuth runs its command with the UART and the heap ready and then resets the
    processor; without arguments it resets at once; it panics exactly where the
    argument cannot be read. *)
Theorem bismuth_start_spec app area s :
  match kernel_command area, bismuth_start app area s with
  | Panic, r => r = Panic
  | Val command, Val (s', p) =>
      p = Resetting WDOG_TIME /\ exists s1, mini s1 = MkMini true true true true 0 270 true false [] /\ arm_heap s1 = Some (0x10000000, 0x10000000) /\
        s' = say "Rebooting." (match command with Some c => app c s1 | None => s1 end)
  | Val _, Panic => False
  end.
Proof.
  unfold bismuth_start. change DEFAULT_CLOCK_DIVIDER with (@Val Z 270). rewrite run_bind_Val. cbv zeta. destruct (kernel_command area) as [command|]; [|done]. rewrite run_bind_Val. split; [done|].
  eexists. split; [|split; [|reflexivity]]; [|done]. cbn [mini say heap_init]. by destruct (mini s).
Qed.
