(* ===== verification/Panics.v ===== *)
(** How the programs end: the panic handlers of [device/okboot/src/lib.rs],
    [device/bismuth/src/lib.rs] and [device/antimony/src/lib.rs], the restarts they
    lead to, and [hexdump] of [device/antimony/src/net.rs].

    A [PanicInfo] is its location, if it has one, and what formatting its message
    writes: the pieces, and whether an implementation of [Display] failed behind
    them.  Text is characters, each its UTF-8 encoding, where [fmt.rs] counts them,
    and bytes elsewhere. *)
From Stdlib Require Import String.
From S2P Require Import Prelude Words Crc Legacy HostDecoder PppXmit PppRecv Console RiscvMain ArmMain.

Definition text : Type := list (list Z).
Definition bytes_of (pieces : list text) : list Z := List.concat (List.concat pieces).

Module Panics.

Record panic_info : Type := MkPanicInfo {
  location : option (text * text);      (* the file, and the line in decimal *)
  message : list text;
  message_err : bool;
}.
Definition lit (s : string) : text := map (fun c => [c]) (txt s).
Definition newline : text := [[10]].

(** *** okboot *)

(** [legacy_print_string_blocking!] on the buffer as it was left. *)
Definition print_in (b : fixed_array_buffer) (pieces : list text) : run (fixed_array_buffer * list Z) :=
  b ← fab_write_pieces (fab_clear b) pieces;
  s ← fab_as_str b;
  Val (b, uart_write_str s).
Definition panic_location (info : panic_info) : list text :=
  match location info with
  | Some (file, line) => [lit "[device]: Panic occurred at file '"; file; lit "' line "; line; lit ":"; newline]
  | None => [lit "[device]: Panic occurred at [unknown location]"; newline]
  end.
Definition message_pieces (info : panic_info) : list text := if message_err info then message info else (message info ++ [newline])%list.
Definition format_failed : list text := [lit "[device]: [failed to write message to format buffer]"; newline].
Definition rebooting : list text := [lit "[device]: rebooting."; newline].
(** [panic], up to the loop of [__symbol_kreboot]: the UART, [BOOT_UMSG_BUF] and what
    was sent.  [bub] is the same buffer that the macro prints from, and
    [UartWrite::write_str] does not fail. *)
Definition okboot_panic (info : panic_info) (u : mini_uart) (b : fixed_array_buffer) : run (mini_uart * fixed_array_buffer * list Z) :=
  let u := muart1_init B115200_DIVIDER u in
  '(b, out1) ← print_in b (panic_location info);
  b ← fab_write_pieces (fab_clear b) (message_pieces info);
  '(b, out2) ← (if message_err info then print_in b format_failed else Val (b, []));
  s ← fab_as_str b;
  let out3 := uart_write_str s in
  '(b, out4) ← print_in b rebooting;
  Val (u, b, out1 ++ out2 ++ out3 ++ out4)%list.

(** *** bismuth *)

(** [__kernel_restart]: the line, and the watchdog. *)
Definition kernel_restart (tx_ready tx_done : nat -> bool) (fuel k : nat) (sent : list Z) : option (nat * list Z * power) :=
  '(k, sent) ← uart1_println tx_ready tx_done fuel (txt "Rebooting.") k sent; Some (k, sent, Resetting WDOG_TIME).
Definition bismuth_location (info : panic_info) : list Z :=
  match location info with
  | Some (file, line) => (txt "Panic occurred at file '" ++ List.concat file ++ txt "' line " ++ List.concat line ++ txt ":" ++ [10])%list
  | None => (txt "Panic occurred at unknown location." ++ [10])%list
  end.
(** [__kernel_panic_handler]; [clock_divider] is the constant. *)
Definition kernel_panic_handler (tx_ready tx_done : nat -> bool) (fuel : nat) (info : panic_info) (u : mini_uart) (k : nat)
    : option (mini_uart * nat * list Z * power) :=
  let u := muart1_init B115200_DIVIDER u in
  '(k, sent) ← uart1_println tx_ready tx_done fuel (bismuth_location info) k [];
  '(k, sent) ← uart1_write_str tx_ready fuel (bytes_of (message_pieces info)) k sent;
  '(k, sent, p) ← kernel_restart tx_ready tx_done fuel k sent;
  Some (u, k, sent, p).

(** *** antimony *)

(** [UART0]: a cell in a [RefCell].  A borrow that is open when the processor panics
    stays open, since nothing unwinds. *)
Record uart_cell : Type := MkCell {
  device : option (list Z);       (* what was sent, once the device is set *)
  borrowed : bool;
}.
(** [dprint!], and [core::fmt::write] in the handler: with the result, the cell that
    a panic leaves. *)
Definition cell_print (s : list Z) (c : uart_cell) : uart_cell * run unit :=
  if borrowed c then (c, Panic)
  else match device c with
  | None => (MkCell None true, Panic)
  | Some sent => (MkCell (Some (sent ++ s)%list) false, Val tt)
  end.
Fixpoint cell_prints (ss : list (list Z)) (c : uart_cell) : uart_cell * run unit :=
  match ss with
  | [] => (c, Val tt)
  | s :: ss => let '(c, r) := cell_print s c in match r with Val _ => cell_prints ss c | Panic => (c, Panic) end
  end.
Definition rv_location (info : panic_info) : list Z :=
  match location info with
  | Some (file, line) => (txt "Panic occurred at file '" ++ List.concat file ++ txt "' line " ++ List.concat line ++ txt ":" ++ [10] ++ crlf)%list
  | None => (txt "Panic occurred at unknown location." ++ [10] ++ crlf)%list
  end.
Definition shutdown : list Z := (txt "[antimony] shutdown (halt)" ++ crlf)%list.
(** [panic] up to the loop of [__kernel_restart]; a panic in it is handled by it
    again, with the information [again] at each depth. *)
Fixpoint rv_panic (again : nat -> panic_info) (fuel : nat) (info : panic_info) (c : uart_cell) : option uart_cell :=
  match fuel with
  | O => None
  | S fuel =>
    let msg := (bytes_of (message info) ++ if message_err info then [] else crlf)%list in
    match cell_prints [rv_location info; msg; shutdown] c with
    | (c, Val _) => Some c
    | (c, Panic) => rv_panic again fuel (again fuel) c
    end
  end.

(** [hexdump]: [intersperse] puts the pair of a space and a tab between the pairs of
    digits, and the tabs are filtered out. *)
Definition from_digit (d : Z) : run Z := if d <? 10 then Val (48 + d) else if d <? 16 then Val (87 + d) else Panic.
Fixpoint intersperse {A} (sep : A) (l : list A) : list A :=
  match l with x :: (_ :: _) as l => x :: sep :: intersperse sep l | _ => l end.
Definition hexdump (buf : list Z) : run (list Z) :=
  pairs ← mapM (fun x => a ← from_digit (Z.shiftr (Z.land x 0xf0) 4); b ← from_digit (Z.land x 0x0f); Val [a; b]) buf;
  Val (List.filter (fun x => negb (x =? 9)) (List.concat (intersperse [32; 9] pairs))).
End Panics.
Export Panics.

(** ** The report of the boot loader *)

Section okboot.
Context `{CrcLaws}.
Implicit Types (b : fixed_array_buffer) (pieces : list text).

(** Whatever the buffer held, a print is the bounded text of its pieces. *)
Lemma cleared_writes b pieces :
  length (fab_inner b) = BOOT_UMSG_BUF_SIZE ->
  exists b', fab_write_pieces (fab_clear b) pieces = Val b' /\ holds BOOT_UMSG_BUF_SIZE b' (printed pieces).
Proof.
  intros Hb. unfold printed. apply fab_write_pieces_bounded; [|done]. split; [by cbn; rewrite length_replicate| |cbn; lia|].
  - done.
  - intros _. apply Nat.ltb_lt. reflexivity.
Qed.
Lemma held_text b t : holds BOOT_UMSG_BUF_SIZE b t -> fab_as_str b = Val t.
Proof. intros [Hs Ht Hc _]. unfold fab_as_str. by rewrite slice_range_Val, Nat.sub_0_r, drop_0, Ht by lia. Qed.
Lemma print_in_spec b pieces :
  length (fab_inner b) = BOOT_UMSG_BUF_SIZE ->
  exists b', print_in b pieces = Val (b', uart_write_str (printed pieces)) /\ holds BOOT_UMSG_BUF_SIZE b' (printed pieces).
Proof.
  intros Hb. unfold print_in. destruct (cleared_writes b pieces Hb) as (b' & -> & Hh). rewrite run_bind_Val, (held_text _ _ Hh). by exists b'.
Qed.

(** The printed text: all of a short one, the beginning and a notice of a long one. *)
Lemma printed_short pieces :
  (length (bytes_of pieces) + length TRUNCATION_NOTICE < BOOT_UMSG_BUF_SIZE)%nat -> printed pieces = bytes_of pieces.
Proof.
  intros Hl. unfold printed. pose proof (bounded_spec BOOT_UMSG_BUF_SIZE [] (List.concat pieces) ltac:(apply Nat.ltb_lt; reflexivity)) as Hs.
  unfold bytes_of in Hl. cbn [length Nat.add app] in Hs. rewrite decide_True in Hs by lia. by rewrite Hs.
Qed.
Lemma printed_nonempty pieces : bytes_of pieces <> [] -> printed pieces <> [].
Proof.
  intros Hne. unfold printed. pose proof (bounded_spec BOOT_UMSG_BUF_SIZE [] (List.concat pieces) ltac:(apply Nat.ltb_lt; reflexivity)) as Hs.
  destruct (decide _) in Hs; [by rewrite Hs|]. destruct Hs as (s1 & s2 & _ & ->). cbn [fst app]. by intros [_ ?]%app_eq_nil.
Qed.
Lemma printed_length pieces : (length (printed pieces) <= BOOT_UMSG_BUF_SIZE)%nat.
Proof. apply print_blocking_spec. Qed.
Lemma ends_nonempty pieces : bytes_of (pieces ++ [newline])%list <> [].
Proof. unfold bytes_of. rewrite !List.concat_app. by intros [_ ?]%app_eq_nil. Qed.

(** Prints that the uploader reads between frames. *)
Lemma prints_shown texts d :
  host_idle d -> hd_buffer d = [] -> Forall (fun t => t <> [] /\ (length t <= BOOT_UMSG_BUF_SIZE)%nat) texts ->
  exists d', process_incoming_bytes true d (List.concat (map uart_write_str texts)) = Val (d', map HPrint texts, None) /\
    host_idle d' /\ hd_buffer d' = [].
Proof.
  revert d. induction texts as [|t texts IH]; intros d Hd Hb Hall; [by exists d|].
  inversion_clear Hall as [|?? [Hne Hl] Hall']. unfold BOOT_UMSG_BUF_SIZE in Hl.
  destruct (legacy_print_spec d t Hd Hne ltac:(lia)) as (d1 & Hd1 & Hp). rewrite Hb in Hp. cbn [length] in Hp.
  rewrite decide_True in Hp by (destruct t; [done|cbn; lia]). rewrite Nat.sub_0_r in Hp. destruct Hp as [Hp Hb1].
  rewrite !take_ge in Hp by (unfold uart_write_str, uart1_write32, u32_to_le_bytes; rewrite ?length_app, ?length_le_bytes; lia).
  cbn [map List.concat]. rewrite (process_app _ _ _ _ _ _ Hp).
  destruct (IH d1 Hd1 Hb1 Hall') as (d' & -> & Hd' & Hb'). rewrite run_bind_Val. by exists d'.
Qed.
End okboot.

(** ** Digits *)

Definition unhex_digit (c : Z) : Z := if c <? 58 then c - 48 else c - 87.
Fixpoint unhex (s : list Z) : list Z :=
  match s with
  | [a; b] => [16 * unhex_digit a + unhex_digit b]
  | a :: b :: _ :: s => 16 * unhex_digit a + unhex_digit b :: unhex s
  | _ => []
  end.
Definition digit_of (d : Z) : Z := if d <? 10 then 48 + d else 87 + d.
Lemma digits_of x :
  fits 8 x -> from_digit (Z.shiftr (Z.land x 0xf0) 4) = Val (digit_of (x / 16)) /\ from_digit (Z.land x 0x0f) = Val (digit_of (x mod 16)).
Proof.
  intros [H0 H1]. assert (Z.shiftr (Z.land x 0xf0) 4 = x / 16) as ->.
  { rewrite Z.shiftr_land. change (Z.shiftr 0xf0 4) with (Z.ones 4). rewrite Z.land_ones, Z.shiftr_div_pow2 by lia.
    apply Z.mod_small. split; [by apply Z.div_pos|]. apply Z.div_lt_upper_bound; lia. }
  change 0x0f with (Z.ones 4). rewrite Z.land_ones by lia. change (2 ^ 4) with 16.
  pose proof (Z.mod_pos_bound x 16 ltac:(lia)). assert (0 <= x / 16 < 16) by (split; [by apply Z.div_pos|apply Z.div_lt_upper_bound; lia]).
  unfold from_digit, digit_of. split; destruct (Z.ltb_spec (x / 16) 10), (Z.ltb_spec (x mod 16) 10); try done;
    by rewrite (proj2 (Z.ltb_lt _ 16)) by lia.
Qed.
Lemma digit_back x :
  fits 8 x -> 16 * unhex_digit (digit_of (x / 16)) + unhex_digit (digit_of (x mod 16)) = x /\
    (digit_of (x / 16) =? 9) = false /\ (digit_of (x mod 16) =? 9) = false.
Proof.
  intros [H0 H1]. assert (forall d, 0 <= d < 16 -> unhex_digit (digit_of d) = d /\ (digit_of d =? 9) = false) as Hd.
  { intros d Hd. unfold unhex_digit, digit_of. destruct (Z.ltb_spec d 10).
    - rewrite (proj2 (Z.ltb_lt _ 58)) by lia. lia.
    - rewrite (proj2 (Z.ltb_ge _ 58)) by lia. lia. }
  destruct (Hd (x / 16)) as [-> ->]; [split; [by apply Z.div_pos|apply Z.div_lt_upper_bound; lia]|].
  destruct (Hd (x mod 16)) as [-> ->]; [by apply Z.mod_pos_bound|]. split; [|done]. symmetry. by apply Z.div_mod.
Qed.

(** ** The claims *)

(** A panic of the boot loader is reported and not followed by another, whatever state
    the UART and the message buffer were left in: the UART works at the initial rate
    again, and an uploader that listens at that rate and is between frames shows the
    location, the message (cut with a notice where it does not fit) and the line
    before the loop.  If formatting the message fails, the note about it is shown
    twice and the message is lost, because both are printed from the same buffer. *)
Theorem okboot_panic_reports `{CrcLaws} info u b d :
  length (fab_inner b) = BOOT_UMSG_BUF_SIZE -> host_idle d -> hd_buffer d = [] ->
  let texts := printed (panic_location info) ::
    (if message_err info then [bytes_of format_failed; bytes_of format_failed] else [printed (message info ++ [newline])%list]) ++
    [bytes_of rebooting] in
  exists b' out d',
    okboot_panic info u b = Val (MkMini true true true true 0 B115200_DIVIDER true false [], b', out) /\
    process_incoming_bytes true d out = Val (d', map HPrint texts, None) /\ host_idle d' /\
    (forall pieces, (length (bytes_of pieces) + length TRUNCATION_NOTICE < BOOT_UMSG_BUF_SIZE)%nat -> printed pieces = bytes_of pieces).
Proof.
  intros Hb Hd Hbuf texts.
  assert (printed format_failed = bytes_of format_failed /\ printed rebooting = bytes_of rebooting) as [Hff Hrb] by by vm_compute.
  assert (exists b', okboot_panic info u b = Val (MkMini true true true true 0 B115200_DIVIDER true false [], b', List.concat (map uart_write_str texts)))
    as (b' & Hrun).
  { unfold okboot_panic. destruct (print_in_spec b (panic_location info) Hb) as (b1 & -> & Hh1). rewrite run_bind_Val.
    destruct (cleared_writes b1 (message_pieces info) (hd_size _ _ _ Hh1)) as (b2 & -> & Hh2). rewrite run_bind_Val.
    replace (muart1_init B115200_DIVIDER u) with (MkMini true true true true 0 B115200_DIVIDER true false []) by (by destruct u).
    unfold texts, message_pieces in *. destruct (message_err info).
    - destruct (print_in_spec b2 format_failed (hd_size _ _ _ Hh2)) as (b3 & -> & Hh3). rewrite run_bind_Val, (held_text _ _ Hh3), run_bind_Val.
      destruct (print_in_spec b3 rebooting (hd_size _ _ _ Hh3)) as (b4 & -> & Hh4). rewrite run_bind_Val, Hff, Hrb. exists b4.
      cbn [map List.concat app]. by rewrite app_nil_r, ?app_assoc.
    - rewrite run_bind_Val, (held_text _ _ Hh2), run_bind_Val.
      destruct (print_in_spec b2 rebooting (hd_size _ _ _ Hh2)) as (b4 & -> & Hh4). rewrite run_bind_Val, Hrb. exists b4.
      cbn [map List.concat app]. by rewrite app_nil_r. }
  destruct (prints_shown texts d Hd Hbuf) as (d' & Hp & Hd' & _).
  - assert (forall pieces, bytes_of pieces <> [] -> printed pieces <> [] /\ (length (printed pieces) <= BOOT_UMSG_BUF_SIZE)%nat) as Hok
      by (intros; split; [by apply printed_nonempty|apply printed_length]).
    assert (bytes_of (panic_location info) <> []) as Hloc by (unfold panic_location; by destruct (location info) as [[]|]).
    unfold texts. rewrite <- Hff, <- Hrb. destruct (message_err info); cbn [app]; repeat (apply Forall_cons_2; [apply Hok|]);
      (done || apply ends_nonempty || by apply Forall_nil_2).
  - exists b', (List.concat (map uart_write_str texts)), d'. split; [done|]. split; [done|]. split; [done|apply printed_short].
Qed.

(** A panic of bismuth is written out at the initial rate and resets the processor,
    if the UART takes a byte and is done within [n] readings whenever it is looked
    at. *)
Theorem kernel_panic_restarts tx_ready tx_done n info u k :
  (forall k, exists j, (j < n)%nat /\ tx_ready (k + j)%nat = true) -> (forall k, exists j, (j < n)%nat /\ tx_done (k + j)%nat = true) ->
  exists k', kernel_panic_handler tx_ready tx_done n info u k =
    Some (MkMini true true true true 0 B115200_DIVIDER true false [], k',
          (bismuth_location info ++ [10]) ++ bytes_of (message_pieces info) ++ txt "Rebooting." ++ [10], Resetting WDOG_TIME)%list.
Proof.
  intros Hr Hd. unfold kernel_panic_handler, kernel_restart.
  replace (muart1_init B115200_DIVIDER u) with (MkMini true true true true 0 B115200_DIVIDER true false []) by (by destruct u).
  destruct (uart1_println_writes tx_ready tx_done n (bismuth_location info) k [] Hr Hd) as (k1 & ->). cbn [mbind option_bind].
  unfold uart1_write_str at 1.
  destruct (direct_bytes_spec tx_ready n (bytes_of (message_pieces info)) k1 ([] ++ bismuth_location info ++ [10])%list Hr) as (k2 & -> & _). cbn [mbind option_bind].
  destruct (uart1_println_writes tx_ready tx_done n (txt "Rebooting.") k2 (([] ++ bismuth_location info ++ [10]) ++ bytes_of (message_pieces info))%list Hr Hd) as (k3 & ->).
  cbn [mbind option_bind]. exists k3. by rewrite app_nil_l, <- !app_assoc.
Qed.

(** A panic of antimony is reported and ends in the loop exactly if the device is in
    its cell and the cell is not borrowed; before the device is set, and in the
    middle of a print, the handler panics itself, for ever, and nothing is
    written. *)
Theorem rv_panic_ends again info c :
  ((exists fuel c', rv_panic again fuel info c = Some c') <-> borrowed c = false /\ device c <> None) /\
  (forall sent fuel, borrowed c = false -> device c = Some sent -> (0 < fuel)%nat ->
    rv_panic again fuel info c =
      Some (MkCell (Some (sent ++ rv_location info ++ (bytes_of (message info) ++ if message_err info then [] else crlf) ++ shutdown)%list) false)).
Proof.
  assert (forall sent fuel, borrowed c = false -> device c = Some sent -> (0 < fuel)%nat ->
    rv_panic again fuel info c =
      Some (MkCell (Some (sent ++ rv_location info ++ (bytes_of (message info) ++ if message_err info then [] else crlf) ++ shutdown)%list) false)) as Hends.
  { intros sent [|fuel] Hb Hd Hf; [lia|]. destruct c as [dev bor]. cbn in Hb, Hd. subst dev bor.
    cbn [rv_panic cell_prints cell_print borrowed device]. by rewrite <- !app_assoc. }
  split; [|exact Hends]. split.
  - assert (forall fuel i c, borrowed c = true -> rv_panic again fuel i c = None) as Hbor.
    { induction fuel as [|fuel IH]; intros i c0 Hb; [done|]. cbn [rv_panic cell_prints]. unfold cell_print at 1. rewrite Hb. by apply IH. }
    intros (fuel & c' & Hr). destruct (borrowed c) eqn:Hb; [by rewrite Hbor in Hr|]. split; [done|]. intros Hd.
    destruct fuel as [|fuel]; [done|]. cbn [rv_panic cell_prints] in Hr. unfold cell_print at 1 in Hr. rewrite Hb, Hd in Hr.
    by rewrite Hbor in Hr.
  - intros [Hb Hd]. destruct (device c) as [sent|] eqn:Hs; [|done]. exists 1%nat. eexists. apply (Hends sent); [done|done|lia].
Qed.

(** [hexdump] is two digits for each byte with a space in between; it does not panic
    on bytes, and they can be read back from it. *)
Theorem hexdump_reads_back buf :
  Forall (fits 8) buf -> exists s, hexdump buf = Val s /\ unhex s = buf /\ length s = (3 * length buf - 1)%nat.
Proof.
  intros Hb. set (pair x := [digit_of (x / 16); digit_of (x mod 16)]).
  assert (hexdump buf = Val (List.filter (fun x => negb (x =? 9)) (List.concat (intersperse [32; 9] (map pair buf))))) as ->.
  { unfold hexdump. assert (mapM _ buf = Val (map pair buf)) as ->; [|done].
    induction Hb as [|x buf Hx _ IH]; [done|]. cbn [mapM map].
    destruct (digits_of x Hx) as (-> & ->). by rewrite !run_bind_Val, IH. }
  eexists. split; [reflexivity|]. induction Hb as [|x buf Hx Hb IH]; [done|].
  destruct (digit_back x Hx) as (Hback & H1 & H2). destruct buf as [|y buf].
  - cbn [map intersperse List.concat app pair List.filter]. rewrite H1, H2. cbn [negb]. split; [cbn [unhex]; by rewrite Hback|done].
  - change (intersperse [32; 9] (map pair (x :: y :: buf))) with (pair x :: [32; 9] :: intersperse [32; 9] (map pair (y :: buf))).
    cbn [List.concat app pair List.filter]. rewrite H1, H2. change (9 =? 9) with true. change (32 =? 9) with false. cbn [negb].
    destruct IH as [IH Hl]. set (s := List.filter _ _) in *. clearbody s. split; [|cbn [length] in *; lia].
    change (unhex (?a :: ?b :: 32 :: s)) with (16 * unhex_digit a + unhex_digit b :: unhex s). by rewrite IH, Hback.
Qed.

Definition demo_info : panic_info := MkPanicInfo (Some (lit "a.rs", lit "3")) [lit "no buffer"] false.
Lemma okboot_panic_reports_witness :
  let u := MkMini false false true true 1 24 true true [7] in
  let b := MkFixed (replicate 256 0x20) 17 true in
  let d := host_decoder_new in
  let texts := printed (panic_location demo_info) ::
    (if message_err demo_info then [bytes_of format_failed; bytes_of format_failed] else [printed (message demo_info ++ [newline])%list]) ++
    [bytes_of rebooting] in
  exists b' out d',
    okboot_panic demo_info u b = Val (MkMini true true true true 0 B115200_DIVIDER true false [], b', out) /\
    process_incoming_bytes true d out = Val (d', map HPrint texts, None) /\ host_idle d' /\
    (forall pieces, (length (bytes_of pieces) + length TRUNCATION_NOTICE < BOOT_UMSG_BUF_SIZE)%nat -> printed pieces = bytes_of pieces).
Proof. intros u b d. apply (okboot_panic_reports demo_info u b d); [reflexivity|apply new_idle|reflexivity]. Defined.
Lemma kernel_panic_restarts_witness :
  exists k', kernel_panic_handler (fun _ => true) (fun _ => true) 1 demo_info (MkMini false false true true 1 24 true true [7]) 0 =
    Some (MkMini true true true true 0 B115200_DIVIDER true false [], k',
          (bismuth_location demo_info ++ [10]) ++ bytes_of (message_pieces demo_info) ++ txt "Rebooting." ++ [10], Resetting WDOG_TIME)%list.
Proof. apply (kernel_panic_restarts (fun _ => true) (fun _ => true) 1); intros k; exists 0%nat; (split; [lia|done]). Defined.
Lemma hexdump_reads_back_witness : exists s, hexdump [0x0f; 0xa0] = Val s /\ unhex s = [0x0f; 0xa0] /\ length s = (3 * 2 - 1)%nat.
Proof. apply (hexdump_reads_back [0x0f; 0xa0]). repeat (apply Forall_cons_2; [split; [done|reflexivity]|]). apply Forall_nil_2. Defined.
