(* ===== verification/Coprocessor.v ===== *)
(** The single registers of the ARM library: the table of
    [device/quartz/src/arch/arm1176.rs], the cycle counter
    ([arch/arm1176/cycle.rs]) and the thread identifiers ([arch/arm1176/tpid.rs]), on
    the coprocessor of [Registers].

    The registers of the group c7 are operations on caches and barriers, and what they
    do is not in this state; their names and numbers are in the table. *)
From stdpp Require Import strings.
From S2P Require Import Prelude Words Registers DebugMonitor.

Module Coprocessor.
Open Scope string_scope.
Open Scope Z_scope.

Definition arm1176_registers : list (string * Coord) :=
  [("translation_table_base_0", MkCoord 15 0 2 0 0); ("translation_table_base_1", MkCoord 15 0 2 0 1);
   ("translation_table_base_control", MkCoord 15 0 2 0 2); ("domain_access_control", MkCoord 15 0 3 0 0);
   ("wfi", MkCoord 15 0 7 0 4); ("faulty_invalidate_entire_icache", MkCoord 15 0 7 5 0); ("flush_prefetch_buffer", MkCoord 15 0 7 5 4);
   ("flush_entire_btac", MkCoord 15 0 7 5 6); ("invalidate_entire_dcache", MkCoord 15 0 7 6 0); ("invalidate_both_caches", MkCoord 15 0 7 7 0);
   ("clean_entire_dcache", MkCoord 15 0 7 10 0); ("dsb", MkCoord 15 0 7 10 4); ("dmb", MkCoord 15 0 7 10 5);
   ("clean_and_invalidate_entire_dcache", MkCoord 15 0 7 14 0)].

(** *** [cycle.rs] *)
Definition pmcr : Coord := MkCoord 15 0 15 12 0.
Definition ccr : Coord := MkCoord 15 0 15 12 1.
Definition enable_counters (m : Coord -> Z) : Coord -> Z := write_raw pmcr (Z.lor (read_raw pmcr m) 1) m.
Definition ccr_reset (m : Coord -> Z) : Coord -> Z := write_raw ccr 0 m.
Definition ccr_read (m : Coord -> Z) : Z := wrap 32 (read_raw ccr m).

(** *** [tpid.rs] *)
Inductive thread_id : Type := Tpidrurw | Tpidruro | Tpidrprw.
#[export] Instance thread_id_eq_dec : EqDecision thread_id.
Proof. solve_decision. Defined.
Definition tpid_coord (t : thread_id) : Coord := MkCoord 15 0 13 0 match t with Tpidrurw => 2 | Tpidruro => 3 | Tpidrprw => 4 end.
Definition read_tpid (t : thread_id) (m : Coord -> Z) : Z := read_raw (tpid_coord t) m.
Definition write_tpid (t : thread_id) (v : Z) (m : Coord -> Z) : Coord -> Z := write_raw (tpid_coord t) v m.

(** Every register that the library and the checker have a name for. *)
Definition named_coords : list Coord :=
  (map snd arm1176_registers ++ [pmcr; ccr] ++ map tpid_coord [Tpidrurw; Tpidruro; Tpidrprw] ++
   [debug_status_control; watchpoint_fault_address; breakpoint_value_register_0; breakpoint_value_register_4; breakpoint_value_register_5;
    breakpoint_control_register_0; breakpoint_control_register_4; breakpoint_control_register_5; watchpoint_value_register_0;
    watchpoint_value_register_1; watchpoint_control_register_0; watchpoint_control_register_1; data_fault_status; instruction_fault_status;
    fault_address; instruction_fault_address])%list.
End Coprocessor.
Export Coprocessor.

(** The names stand for different registers, so that an access to one leaves the
    others alone: the counter is switched on without a change to the rest of its
    control register, it reads zero behind a reset, and the thread identifiers are
    three variables that nothing else writes. *)
Theorem accesses_apart m :
  NoDup named_coords /\ NoDup (map fst arm1176_registers) /\
  (forall i, 0 <= i -> Z.testbit (read_raw pmcr (enable_counters m)) i = (i =? 0) || Z.testbit (read_raw pmcr m) i) /\
  ccr_read (ccr_reset m) = 0 /\
  (forall t v, read_tpid t (write_tpid t v m) = v) /\
  forall c, c ∈ named_coords ->
    (c <> pmcr -> read_raw c (enable_counters m) = read_raw c m) /\ (c <> ccr -> read_raw c (ccr_reset m) = read_raw c m) /\
    forall t v, c <> tpid_coord t -> read_raw c (write_tpid t v m) = read_raw c m.
Proof.
  split; [apply (bool_decide_unpack _); by vm_compute|]. split; [apply (bool_decide_unpack _); by vm_compute|].
  unfold enable_counters, ccr_reset, write_tpid, read_tpid, ccr_read, write_raw, read_raw. split.
  { intros i Hi. rewrite bool_decide_true, Z.lor_spec, orb_comm by done. f_equal. }
  split; [by rewrite bool_decide_true|]. split; [intros t v; by rewrite bool_decide_true|].
  intros c _. split; [intros Hc; by rewrite bool_decide_false|]. split; [intros Hc; by rewrite bool_decide_false|].
  intros t v Hc. by rewrite bool_decide_false.
Qed.
